(* ===== verification/_CoqProject ===== *)
-Q . S2P
Prelude.v
Tables.v
JsText.v
Json.v
Schema.v
Interfaces.v
JsNumber.v
Config.v
RateLimit.v
Storage.v
Presence.v
PresenceSystem.v
PresenceSafety.v
PresenceLogout.v
PresenceSettle.v
Friend.v
AssetManifest.v
Visit.v
VisitCore.v
VisitRoom.v
VisitSocial.v
VisitSteps.v
VisitSafety.v
VisitDialogue.v
Companion.v
AssetPack.v
AssetPackInv.v
AssetPackPublish.v
AssetPackSafety.v
Server.v
Identity.v
Browser.v
Account.v
Lockout.v
Tokens.v
AccountSafety.v
Admin.v
AdminCli.v
AdminSafety.v
Staff.v
VisitLifecycle.v
PackMaintenance.v
Regex.v
Redaction.v
JsonText.v
Paging.v
DevDebug.v
DevDebugSafety.v
Notifications.v
Community.v
Export.v
ExportSafety.v
PortalLists.v
PortalListsSafety.v
AdminViews.v
AdminViewsSafety.v
PortalClient.v
Handshake.v
Smoke.v
