(* ===== verification/Prelude.v ===== *)
(** * A verification library for the Our Companion Network server

    The server (src/src, NestJS over Prisma and PostgreSQL, with Socket.IO and
    an S3-compatible bucket) lets the desktop companions of befriended users
    visit each other.  Users have accounts with device sessions; each owns
    companions with published asset packs; a companion visits a friend on
    invitation, a third may join the room, companions speak in turns, and what
    came of a visit is settled on the relationship of the companions.  A portal
    manages the account from a browser; superadmins act on all of it.

    ** How it is modelled

    - Shallowly: a method is a function on the state it works on.  The body of
      a Prisma [$transaction] is a [Tx] (state and error: a throw rolls back); a
      method around it is an [Act], which keeps the state it reached when it
      throws.  Tables are finite maps with the queries of [Tables]; rows are
      the records of [Schema].
    - Transactions are serial.  Row locks and advisory locks therefore have no
      counterpart; each transaction reads the clock once ([now]).  Between two
      awaits of one method anything may happen: the methods that reach beyond
      one transaction take a function [others], what everybody else did to the
      whole server (or bucket and database) during the n-th await.  Theorems
      state what they ask of [others]; most ask for nothing, or for what the
      same theorem gives.
    - Ids and random draws are arguments.  A [findMany] without an order
      returns the rows in any order ([ScanOrder]).
    - Text is a list of UTF-16 code units; a short string that only travels
      through the code (an id, a code, a reason) is a Rocq string.  Integers
      are Z; numbers that come from configuration or JSON are binary64
      ([JsNumber]) or kept with their source text ([Json]).
    - Recursion that is not structural has fuel: [deleteObjectPrefix], the pages
      of an account's packs, the batches of an export and a client that reads
      page after page.  [Storage.deleteObjectPrefix_ends] says how
      much is enough, one round more than there are objects.
    - Not this repository's code, hence parameters: SHA-256, bcrypt and JWT
      signing ([Credentials]), signed addresses and the bucket ([ObjectStore]),
      the URL parser, Unicode case tables and collation, Date parsing, the order
      of ids in the database.  What is relied on is a class of laws
      ([CredentialLaws], [ObjectStoreLaws]) or a named hypothesis; the witnesses
      instantiate all of them.

    ** Files

    Shared.  [Prelude]: record update, exceptions, [Tx] and [Act], their
    inversion lemmas, the tactics [step_inv], [bool_inv], [preserves], [frame].
    [Tables]: queries and their lookup lemmas.  [JsText], [Json], [JsNumber]:
    the values.  [Schema]: rows (prisma/schema.prisma), the world and
    published events.  [Interfaces]: what the friend service asks of the visit
    service, a class that [Visit] instantiates.  [Server]: database, bucket,
    gateway and clock together, for methods that use several.

    Visits (visit/visit.service.ts, visit/visit-room.service.ts,
    visit-social/visit-social.service.ts and .policy.ts).  [Visit], [VisitRoom]
    and [VisitSocial] translate the services.  [VisitCore] is their abstract
    specification: invitations, sessions, reservations, participants and join
    requests under fourteen actions ([micro]) that preserve the agreement
    [VisitInv].  [VisitSteps] proves that every transaction and every statement
    of the closing loops implements actions; [VisitSafety] concludes for
    reachable databases: no reservation is leaked, nobody is in two rooms, rooms
    stay within capacity, states only advance.  [VisitDialogue]: turns are
    numbered without gaps and the last one closes the room.  [VisitLifecycle]:
    the deletion of an account follows the protocol, the administrative
    endings do not.

    Friends (friend/friend.service.ts).  [Friend]: the methods, an abstract
    state of a pair of users that each method refines, and the invariant of the
    social tables for every interleaving of committed transactions.

    Presence (presence/*.ts, common/socket-auth.service.ts).  [Presence]: every
    handler as a thread that stops at its awaits; [PresenceSystem]: all
    interleavings of threads, timers and arrivals; [PresenceSafety],
    [PresenceLogout], [PresenceSettle]: a disconnected user or device stays
    out, ends offline, and handlers come to an end.

    Companions and packs (companion/*.ts, storage/storage.service.ts).
    [Companion]: profiles, topics, policies.  [AssetManifest]: validation and
    canonical form of manifests.  [Storage]: the bucket.  [AssetPack]: declaring,
    uploading, verifying, activating, downloading and cleaning packs;
    [AssetPackInv], [AssetPackPublish], [AssetPackSafety]: one active pack per
    companion, the quota, what a published pack consists of.  [PackMaintenance]
    (portal/portal.service.ts, admin/admin-api.service.ts): removal by the owner
    and by an administrator.

    Accounts (identity/identity.service.ts, common/strategies/jwt.strategy.ts,
    common/browser-security.service.ts, common/guards/browser-*.guard.ts,
    portal/browser-auth.service.ts, portal/portal.service.ts,
    portal/account-deletion-cleanup.service.ts).  [Identity], [Browser] and
    [Account] translate them; [Lockout]: a session that was revoked is not used
    again; [Tokens]: what a refresh token is good for; [AccountSafety]: the
    life of a deletion request.

    Administration (admin/*.ts).  [Admin]: the guard, the changes and their
    audit rows, role changes; [AdminCli]: the two command lines;
    [AdminSafety]: accounts stay well formed, a superadmin stays, every change
    has its audit row; [Staff]: witnesses, and the race of two superadmins.
    [AdminViews]: what an administrator is shown (listings, accounts, packs with
    their objects, visits with their diagnostics, health); [AdminViewsSafety]:
    that it is what the tables and the bucket hold, and that it is audited.

    The portal (portal/portal.service.ts, portal/portal.controller.ts).
    [PortalLists]: the listings, the summary and the single rows;
    [PortalListsSafety]: pages cover a listing, and show rows of the user only.
    [Export]: the export of an account, a generator of chunks of text;
    [ExportSafety]: the chunks are the text of the intended document, without
    secrets.  [Paging] and [JsonText] are what these share: cursors and stable
    orders, and the text of JSON values.

    Diagnostics (developer-debug/*.ts).  [Regex]: the regular expressions the
    code uses, with the leftmost greedy match of the language; [Redaction]: what
    is taken out of texts and payloads; [DevDebug] and [DevDebugSafety]: batches,
    listings, timelines and their pruning.

    Notifications and community (notification/*.ts, community/*.ts).
    [Notifications], [Community]: every method with its theorems.

    The web client (portal/src/lib/api.ts, portal/src/lib/format.ts).
    [PortalClient]: requests, the refresh they share and the errors they get
    (common/filters/http-exception.filter.ts), as a state with events.

    Common (common/*.ts, smoke/smoke.controller.ts).  [Config]: configuration and
    paging; [RateLimit]: four limiters behind one class, exact windows;
    [Handshake]: the middleware of a connecting socket; [Smoke]: the cleanup
    after smoke tests.

    ** What the theorems show

    Invariants of all reachable databases (visits, dialogue, friends, packs,
    accounts, diagnostics) and of the web client; refinement of abstract
    specifications (visits, friends, account deletion); safety under arbitrary
    interleaving (presence, lockout, packs, maintenance, listings,
    notifications, the smoke cleanup); the functional behaviour of requests on
    every branch (the handshake, the export, paged listings, public profiles);
    equivalence with a plain description (the inspection of a pack, the
    limiters); termination of handlers, of the export, of the client's calls
    and of the prefix deletion; round trips (cookies, tokens, command lines);
    bounds (capacity, quota, backoff, pruning); and, where the code does not do
    what it means to, theorems that say so: [Staff.admins_suspend_each_other],
    [Tokens.second_refresh_logs_out],
    [VisitLifecycle.admin_closing_leaks_reservation],
    [DevDebugSafety.debug_views_are_not_audited],
    [ExportSafety.deleted_cursor_cuts_export], and others beside the definitions
    they are about.

    ** What the reads assume

    - The columns of the schema that no service uses ([updatedAt] of some rows,
      the ids of rows that have a natural key here) are functions in a class,
      [HiddenColumns]; the audit rows are a list, and have their ids.
    - The two queries of a listing, its page and its count, run one after the
      other on the database as each finds it; the queries of a [Promise.all]
      likewise.  Case-insensitive [contains], [new Date(text)], the collations,
      the midnight of the server's time zone and the answer of the migrations
      table are parameters.
    - A Prisma query that is made and not awaited does not run.
    - The export reads its rows through a cursor; [fuel] bounds the batches of
      each section, and more than there are rows is enough.

    ** Not modelled

    - Controllers, DTO validators, modules and the Prisma client: what a
      controller composes (guards, then the method) is part of the request
      types [serve_*]; validators are framework configuration, but for the
      bounds the theorems need.
    - The pages of src/portal (React): they render what the server answers, and
      the server checks every rule again.  [formatDate] and [formatBytes] print
      with the locale and the floating point of the browser.
    - Timers' exact times, logging and metrics; lost connections are reported
      by a later [handleDisconnect], as Socket.IO does.  A database that fails
      is not modelled; a bucket that fails is. *)

From stdpp Require Export base gmap strings list.
From Stdlib Require Export ZArith Lia.

(** ** Record update

    [r <| f := v |>] replaces the field [f] of the record [r].  A record opts
    in with one [Eta] instance that rebuilds it from its projections; the
    setter of each field is then derived, in a form whose projections reduce
    without destructing the record. *)

Class Eta (R : Type) := eta : R → R.
Class Setter {R T : Type} (f : R → T) := set : (T → T) → R → R.
Arguments set {R T} f {_} _ _.

Ltac derive_setter :=
  lazymatch goal with
  | |- @Setter ?R _ ?f =>
      let inst := constr:(ltac:(typeclasses eauto) : Eta R) in
      let upd := fresh "upd" in
      let rec_ := fresh "r" in
      intros upd rec_;
      let rebuilt := eval hnf in (inst rec_) in
      let hole := eval pattern (f rec_) in rebuilt in
      lazymatch hole with
      | ?h _ => let body := eval cbv beta in (h (upd (f rec_))) in exact body
      end
  end.

#[export] Hint Extern 0 (Setter _) => derive_setter : typeclass_instances.

Notation "r <| f := v |>" := (set f (λ _, v) r)
  (at level 1, left associativity, format "r  <| f  :=  v |>").

(** ** Identifiers and instants

    Row identifiers are the strings Prisma generates ([@default(uuid())]);
    instants are milliseconds since the epoch, as [Date.getTime()] returns
    them. *)

Abbreviation rowid := string (only parsing).
Abbreviation instant := Z (only parsing).

(** ** Exceptions

    The NestJS exceptions the services throw, with the [code] of their body,
    and the two Prisma errors the code can meet: a unique-constraint violation
    ([P2002]) and a missing row in an [update] ([P2025]). *)

Inductive exc :=
  | ConflictException (code : string)
  | ForbiddenException (code : string)
  | NotFoundException (code : string)
  | UnauthorizedException
  | BadRequestException (code : string)
  | ServiceUnavailableException (code : string)
  | ErrorException (message : string)
  | P2002 (target : string)
  | P2025.

#[export] Instance exc_eq_dec : EqDecision exc.
Proof. solve_decision. Defined.

Inductive result (A : Type) :=
  | Ok (a : A)
  | Err (e : exc).
Arguments Ok {A} a.
Arguments Err {A} e.

(** ** Transactions

    [Tx S A] is the body of one Prisma [$transaction]: it reads and writes the
    store [S] and either returns or throws.  A body that throws returns no
    store, so whoever runs it keeps the store it started from: that is the
    rollback of the database transaction. *)

Definition Tx (S A : Type) : Type := S → result (A * S).

#[export] Instance tx_ret {S} : MRet (Tx S) := λ A a s, Ok (a, s).
#[export] Instance tx_bind {S} : MBind (Tx S) := λ A B f m s,
  match m s with
  | Ok (a, s') => f a s'
  | Err e => Err e
  end.

Definition throw {S A} (e : exc) : Tx S A := λ _, Err e.
Definition gets {S A} (f : S → A) : Tx S A := λ s, Ok (f s, s).
Definition modify {S} (f : S → S) : Tx S unit := λ s, Ok ((), f s).

(** [if (!b) throw e] *)
Definition require {S} (b : bool) (e : exc) : Tx S unit :=
  λ s, if b then Ok ((), s) else Err e.

(** [if (!x) throw e], continuing with the value *)
Definition require_some {S A} (o : option A) (e : exc) : Tx S A :=
  λ s, match o with Some a => Ok (a, s) | None => Err e end.

(** A write that a unique constraint may refuse. *)
Definition modify_or {S} (f : S → option S) (e : exc) : Tx S unit :=
  λ s, match f s with Some s' => Ok ((), s') | None => Err e end.

(** [for (const x of l) await f(x)] *)
Fixpoint tx_for {S A} (l : list A) (f : A → Tx S unit) : Tx S unit :=
  match l with
  | [] => mret ()
  | x :: l' => f x ;; tx_for l' f
  end.

Section tx_laws.
Context {S A B : Type}.
Implicit Types (s : S) (m : Tx S A) (f : A → Tx S B).

Lemma tx_bind_ok m f s b s' :
  (m ≫= f) s = Ok (b, s') ↔ ∃ a s1, m s = Ok (a, s1) ∧ f a s1 = Ok (b, s').
Proof.
  unfold mbind, tx_bind. destruct (m s) as [[a s1]|e]; naive_solver.
Qed.

Lemma tx_bind_err m f s e :
  (m ≫= f) s = Err e ↔
  m s = Err e ∨ ∃ a s1, m s = Ok (a, s1) ∧ f a s1 = Err e.
Proof.
  unfold mbind, tx_bind. destruct (m s) as [[a s1]|e']; naive_solver.
Qed.

Lemma tx_bind_run m f s a s1 : m s = Ok (a, s1) → (m ≫= f) s = f a s1.
Proof. unfold mbind, tx_bind. by intros ->. Qed.

Lemma tx_bind_throw m f s e : m s = Err e → (m ≫= f) s = Err e.
Proof. unfold mbind, tx_bind. by intros ->. Qed.

Lemma tx_ret_ok (a b : A) s s' : (mret a : Tx S A) s = Ok (b, s') ↔ a = b ∧ s = s'.
Proof. unfold mret, tx_ret. naive_solver. Qed.

Lemma tx_gets_ok (g : S → A) s a s' :
  gets g s = Ok (a, s') ↔ a = g s ∧ s' = s.
Proof. unfold gets. naive_solver. Qed.

Lemma tx_modify_ok (g : S → S) s u s' :
  modify g s = Ok (u, s') ↔ s' = g s.
Proof. unfold modify. destruct u. naive_solver. Qed.

Lemma tx_require_ok b e s u s' :
  require b e s = Ok (u, s') ↔ b = true ∧ s' = s.
Proof. unfold require. destruct u, b; naive_solver. Qed.

Lemma tx_require_some_ok (o : option A) e s a s' :
  require_some o e s = Ok (a, s') ↔ o = Some a ∧ s' = s.
Proof. unfold require_some. destruct o; naive_solver. Qed.

Lemma tx_modify_or_ok (g : S → option S) e s u s' :
  modify_or g e s = Ok (u, s') ↔ g s = Some s'.
Proof. unfold modify_or. destruct u, (g s); naive_solver. Qed.

Lemma tx_throw_ok e s (a : A) s' : throw e s = Ok (a, s') ↔ False.
Proof. unfold throw. naive_solver. Qed.
End tx_laws.

(** A loop of steps that preserve [P] preserves [P]. *)
Lemma tx_for_inv {S A} (P : S → Prop) (l : list A) (g : A → Tx S unit) s u s' :
  (∀ x s1 u1 s2, x ∈ l → P s1 → g x s1 = Ok (u1, s2) → P s2) →
  P s → tx_for l g s = Ok (u, s') → P s'.
Proof.
  revert s. induction l as [|x l IH]; intros s Hstep HP; simpl.
  - rewrite tx_ret_ok. naive_solver.
  - rewrite tx_bind_ok. intros (u1 & s1 & H1 & H2).
    eapply IH; [| |exact H2].
    + intros y ? ? ? Hy. apply Hstep. set_solver.
    + eapply Hstep; [|exact HP|exact H1]. set_solver.
Qed.

(** ** Frames

    [frame_on π m]: a successful run of [m] leaves the part [π] of the store as
    it was.  [frame] derives it from the steps of a program. *)

Definition frame_on {S X A} (π : S → X) (m : Tx S A) : Prop := ∀ s a s', m s = Ok (a, s') → π s' = π s.

Section frames.
Context {S X : Type} (π : S → X).

Lemma frame_bind {A B} (m : Tx S A) (f : A → Tx S B) : frame_on π m → (∀ a, frame_on π (f a)) → frame_on π (m ≫= f).
Proof. intros Hm Hf s b s' (a & s1 & H1 & H2)%tx_bind_ok. by rewrite (Hf _ _ _ _ H2), (Hm _ _ _ H1). Qed.
Lemma frame_ret {A} (a : A) : frame_on π (mret a).
Proof. intros s b s' [_ ->]%tx_ret_ok. done. Qed.
Lemma frame_gets {A} (f : S → A) : frame_on π (gets f).
Proof. intros s b s' [_ ->]%tx_gets_ok. done. Qed.
Lemma frame_require b e : frame_on π (require b e).
Proof. intros s a s' [_ ->]%tx_require_ok. done. Qed.
Lemma frame_require_some {A} (o : option A) e : frame_on π (require_some o e).
Proof. intros s a s' [_ ->]%tx_require_some_ok. done. Qed.
Lemma frame_throw {A} e : frame_on π (throw (A := A) e).
Proof. intros s a s' []%tx_throw_ok. Qed.
Lemma frame_modify f : (∀ s, π (f s) = π s) → frame_on π (modify f).
Proof. intros Hf s a s' ->%tx_modify_ok. done. Qed.
Lemma frame_modify_or f e : (∀ s s', f s = Some s' → π s' = π s) → frame_on π (modify_or f e).
Proof. intros Hf s a s' H%tx_modify_or_ok. auto. Qed.
Lemma frame_for {A} (l : list A) (f : A → Tx S unit) : (∀ a, frame_on π (f a)) → frame_on π (tx_for l f).
Proof. intros Hf. induction l; simpl; [apply frame_ret|by apply frame_bind]. Qed.
End frames.

Create HintDb frame.
#[export] Hint Resolve frame_ret frame_gets frame_require frame_require_some frame_throw : frame.

(** ** Service methods

    [Act W A] is a service method outside a transaction: what it did to the
    world [W] before it threw stays done. *)

Definition Act (W A : Type) : Type := W → result A * W.

#[export] Instance act_ret {W} : MRet (Act W) := λ A a w, (Ok a, w).
#[export] Instance act_bind {W} : MBind (Act W) := λ A B f m w,
  match m w with
  | (Ok a, w') => f a w'
  | (Err e, w') => (Err e, w')
  end.

Definition act_throw {W A} (e : exc) : Act W A := λ w, (Err e, w).
Definition act_gets {W A} (f : W → A) : Act W A := λ w, (Ok (f w), w).
Definition act_modify {W} (f : W → W) : Act W unit := λ w, (Ok (), f w).
Definition act_require {W} (b : bool) (e : exc) : Act W unit :=
  λ w, if b then (Ok (), w) else (Err e, w).
Definition act_require_some {W A} (o : option A) (e : exc) : Act W A :=
  λ w, match o with Some a => (Ok a, w) | None => (Err e, w) end.

Fixpoint act_for {W A} (l : list A) (f : A → Act W unit) : Act W unit :=
  match l with
  | [] => mret ()
  | x :: l' => f x ;; act_for l' f
  end.

(** [try m catch handler]: the effects of [m] before it threw stay. *)
Definition act_catch {W A} (m : Act W A) (handler : exc → Act W A) : Act W A :=
  λ w, match m w with
       | (Ok a, w') => (Ok a, w')
       | (Err e, w') => handler e w'
       end.

Section act_laws.
Context {W A B : Type}.
Implicit Types (w : W) (m : Act W A) (f : A → Act W B).

Lemma act_bind_ok m f w b w' :
  (m ≫= f) w = (Ok b, w') ↔ ∃ a w1, m w = (Ok a, w1) ∧ f a w1 = (Ok b, w').
Proof.
  unfold mbind, act_bind. destruct (m w) as [[a|e] w1]; naive_solver.
Qed.

Lemma act_bind_run m f w a w1 : m w = (Ok a, w1) → (m ≫= f) w = f a w1.
Proof. unfold mbind, act_bind. by intros ->. Qed.

Lemma act_bind_throw m f w e w1 : m w = (Err e, w1) → (m ≫= f) w = (Err e, w1).
Proof. unfold mbind, act_bind. by intros ->. Qed.

Lemma act_ret_ok (a b : A) w w' : (mret a : Act W A) w = (Ok b, w') ↔ a = b ∧ w = w'.
Proof. unfold mret, act_ret. naive_solver. Qed.

Lemma act_gets_ok (g : W → A) w a w' :
  act_gets g w = (Ok a, w') ↔ a = g w ∧ w' = w.
Proof. unfold act_gets. naive_solver. Qed.

Lemma act_modify_ok (g : W → W) w u w' :
  act_modify g w = (Ok u, w') ↔ w' = g w.
Proof. unfold act_modify. destruct u. naive_solver. Qed.

Lemma act_require_ok b e w u w' :
  act_require b e w = (Ok u, w') ↔ b = true ∧ w' = w.
Proof. unfold act_require. destruct u, b; naive_solver. Qed.

Lemma act_require_some_ok (o : option A) e w a w' :
  act_require_some o e w = (Ok a, w') ↔ o = Some a ∧ w' = w.
Proof. unfold act_require_some. destruct o; naive_solver. Qed.

Lemma act_throw_ok e w (a : A) w' : act_throw e w = (Ok a, w') ↔ False.
Proof. unfold act_throw. naive_solver. Qed.
End act_laws.

(** ** What a method preserves

    [preserves P m]: after [m], whether it returned or threw, [P] holds if it
    held before. *)

Definition preserves {W A} (P : W → Prop) (m : Act W A) : Prop := ∀ w, P w → P (m w).2.

Section preserving.
Context {W : Type} (P : W → Prop).

Lemma preserves_bind' {A B} (m : Act W A) (f : A → Act W B) :
  preserves P m → (∀ a w w', P w → m w = (Ok a, w') → preserves P (f a)) → preserves P (m ≫= f).
Proof.
  intros Hm Hf w Hw. pose proof (Hm w Hw) as H1. unfold mbind, act_bind.
  destruct (m w) as [[a|e] w1] eqn:E; [|done]. by apply (Hf a w w1).
Qed.
Lemma preserves_bind {A B} (m : Act W A) (f : A → Act W B) : preserves P m → (∀ a, preserves P (f a)) → preserves P (m ≫= f).
Proof. intros Hm Hf. by apply preserves_bind'. Qed.
Lemma preserves_require {B} b e (f : unit → Act W B) : (b = true → preserves P (f ())) → preserves P (act_require b e ≫= f).
Proof. intros Hf w Hw. destruct b; [by apply Hf|done]. Qed.
Lemma preserves_some {A B} (o : option A) e (f : A → Act W B) : (∀ a, o = Some a → preserves P (f a)) → preserves P (act_require_some o e ≫= f).
Proof. intros Hf w Hw. destruct o; [by apply Hf|done]. Qed.
Lemma preserves_pure {A} (m : Act W A) : (∀ w, (m w).2 = w) → preserves P m.
Proof. intros Hm w Hw. by rewrite Hm. Qed.
Lemma preserves_catch {A} (m : Act W A) h : preserves P m → (∀ e, preserves P (h e)) → preserves P (act_catch m h).
Proof. intros Hm Hh w Hw. specialize (Hm w Hw). unfold act_catch. destruct (m w) as [[a|e] w1]; [done|]. by apply Hh. Qed.
Lemma preserves_for {A} (l : list A) (f : A → Act W unit) : (∀ x, preserves P (f x)) → preserves P (act_for l f).
Proof. intros Hf. induction l; simpl; [by apply preserves_pure|by apply preserves_bind]. Qed.
Lemma preserves_ret {A} (a : A) : preserves P (mret a).
Proof. by apply preserves_pure. Qed.
Lemma preserves_throw {A} e : preserves P (act_throw (A := A) e).
Proof. by apply preserves_pure. Qed.
Lemma preserves_gets {A} (f : W → A) : preserves P (act_gets f).
Proof. by apply preserves_pure. Qed.
Lemma preserves_require_only b e : preserves P (act_require b e).
Proof. apply preserves_pure. intros w. unfold act_require. by case_match. Qed.
Lemma preserves_require_some {A} (o : option A) e : preserves P (act_require_some o e).
Proof. apply preserves_pure. intros w. unfold act_require_some. by destruct o. Qed.
End preserving.

Create HintDb preserves.
#[export] Hint Resolve preserves_ret preserves_throw preserves_gets preserves_require_only preserves_require_some : preserves.

(** Running a method forwards past its reads and guards. *)
Section runs.
Context {S A B : Type}.

Lemma act_gets_run (f : S → A) (g : A → Act S B) w : (act_gets f ≫= g) w = g (f w) w.
Proof. done. Qed.
Lemma act_require_run b e (g : unit → Act S B) w : b = true → (act_require b e ≫= g) w = g () w.
Proof. by intros ->. Qed.
Lemma act_require_stop b e (g : unit → Act S B) w : b = false → (act_require b e ≫= g) w = (Err e, w).
Proof. by intros ->. Qed.
Lemma act_require_some_run o e (g : A → Act S B) w a : o = Some a → (act_require_some o e ≫= g) w = g a w.
Proof. by intros ->. Qed.
Lemma act_require_some_stop o e (g : A → Act S B) w : o = None → (act_require_some o e ≫= g) w = (Err e, w).
Proof. by intros ->. Qed.
Lemma tx_gets_run (f : S → A) (g : A → Tx S B) s : (gets f ≫= g) s = g (f s) s.
Proof. done. Qed.
Lemma tx_modify_run (f : S → S) (g : unit → Tx S B) s : (modify f ≫= g) s = g () (f s).
Proof. done. Qed.
Lemma tx_require_run b e (g : unit → Tx S B) s : b = true → (require b e ≫= g) s = g () s.
Proof. by intros ->. Qed.
Lemma tx_require_stop b e (g : unit → Tx S B) s : b = false → (require b e ≫= g) s = Err e.
Proof. by intros ->. Qed.
Lemma tx_require_some_run o e (g : A → Tx S B) s a : o = Some a → (require_some o e ≫= g) s = g a s.
Proof. by intros ->. Qed.
Lemma tx_require_some_stop o e (g : A → Tx S B) s : o = None → (require_some o e ≫= g) s = Err e.
Proof. by intros ->. Qed.
End runs.

(** [step_inv] takes a successful run apart into the successful runs of its
    steps, one branch of the code per goal. *)
Ltac step_inv1 :=
  match goal with
  | H : (_ ≫= _) _ = Ok _ |- _ => apply tx_bind_ok in H as (? & ? & ? & ?)
  | H : mret _ _ = Ok _ |- _ => apply tx_ret_ok in H as [? ?]
  | H : gets _ _ = Ok _ |- _ => apply tx_gets_ok in H as [? ?]
  | H : modify _ _ = Ok _ |- _ => apply tx_modify_ok in H
  | H : require _ _ _ = Ok _ |- _ => apply tx_require_ok in H as [? ?]
  | H : require_some _ _ _ = Ok _ |- _ => apply tx_require_some_ok in H as [? ?]
  | H : modify_or _ _ _ = Ok _ |- _ => apply tx_modify_or_ok in H
  | H : throw _ _ = Ok _ |- _ => apply tx_throw_ok in H as []
  | H : (_ ≫= _) _ = (Ok _, _) |- _ => apply act_bind_ok in H as (? & ? & ? & ?)
  | H : mret _ _ = (Ok _, _) |- _ => apply act_ret_ok in H as [? ?]
  | H : act_gets _ _ = (Ok _, _) |- _ => apply act_gets_ok in H as [? ?]
  | H : act_modify _ _ = (Ok _, _) |- _ => apply act_modify_ok in H
  | H : act_require _ _ _ = (Ok _, _) |- _ => apply act_require_ok in H as [? ?]
  | H : act_require_some _ _ _ = (Ok _, _) |- _ =>
      apply act_require_some_ok in H as [? ?]
  | H : act_throw _ _ = (Ok _, _) |- _ => apply act_throw_ok in H as []
  | H : Ok _ = Ok _ |- _ => injection H as H
  | H : Err _ = Ok _ |- _ => discriminate H
  | H : Ok _ = Err _ |- _ => discriminate H
  | H : (_, _) = (_, _) |- _ => injection H as ? ?
  end.

Ltac step_case :=
  match goal with
  | H : (if ?b then _ else _) _ = Ok _ |- _ => destruct b eqn:?
  | H : (match ?o with Some _ => _ | None => _ end) _ = Ok _ |- _ => destruct o eqn:?
  | H : (let '(_, _) := ?p in _) _ = Ok _ |- _ => destruct p eqn:?
  | H : (if ?b then _ else _) _ = (Ok _, _) |- _ => destruct b eqn:?
  | H : (match ?o with Some _ => _ | None => _ end) _ = (Ok _, _) |- _ =>
      destruct o eqn:?
  | H : (let '(_, _) := ?p in _) _ = (Ok _, _) |- _ => destruct p eqn:?
  end.

Ltac step_inv := repeat (progress (repeat step_inv1; simplify_eq) || step_case).

(** The same for a run in the option monad. *)
Ltac option_inv :=
  repeat (match goal with
  | H : (_ ≫= _) = Some _ |- _ => apply bind_Some in H as (? & ? & ?)
  | H : Some _ = Some _ |- _ => injection H as H
  | H : None = Some _ |- _ => discriminate H
  | H : guard _ = Some _ |- _ => clear H
  end; cbv beta zeta in *).

(** [frame] proves [frame_on] of a program from its steps. *)
Ltac frame :=
  repeat first
    [ solve [auto with frame nocore]
    | apply frame_bind; [|intros]
    | apply frame_for; intros
    | apply frame_modify; intros; reflexivity
    | apply frame_modify_or; let H := fresh in intros ? ? H; option_inv; by simplify_eq
    | match goal with |- frame_on _ (match ?x with _ => _ end) => destruct x end
    | match goal with |- frame_on _ (let _ := _ in _) => cbv zeta end ].

(** [preserves] proves [preserves] of a method from its steps and the hint
    database; what is left are the steps that write what [P] is about. *)
Ltac preserves :=
  repeat first
    [ solve [eauto 2 with preserves nocore]
    | match goal with |- preserves _ (act_require _ _ ≫= _) => apply preserves_require; intros end
    | match goal with |- preserves _ (act_require_some _ _ ≫= _) => apply preserves_some; intros end
    | match goal with |- preserves _ (_ ≫= _) => apply preserves_bind; [|intros] end
    | match goal with |- preserves _ (act_catch _ _) => apply preserves_catch; [|intros] end
    | match goal with |- preserves _ (act_for _ _) => apply preserves_for; intros end
    | match goal with |- preserves _ (match ?x with _ => _ end) => destruct x eqn:? end
    | match goal with |- preserves _ (let _ := _ in _) => cbv zeta end ].

(** Split boolean conjunctions and disjunctions in the hypotheses. *)
Ltac bool_inv :=
  repeat match goal with
  | H : _ && _ = true |- _ => apply andb_true_iff in H as [? ?]
  | H : _ || _ = false |- _ => apply orb_false_iff in H as [? ?]
  | H : negb _ = true |- _ => apply negb_true_iff in H
  | H : negb _ = false |- _ => apply negb_false_iff in H
  | H : bool_decide _ = true |- _ => apply bool_decide_eq_true in H
  | H : bool_decide _ = false |- _ => apply bool_decide_eq_false in H
  | H : Z.ltb _ _ = true |- _ => apply Z.ltb_lt in H
  | H : Z.ltb _ _ = false |- _ => apply Z.ltb_ge in H
  | H : Z.leb _ _ = true |- _ => apply Z.leb_le in H
  | H : Z.leb _ _ = false |- _ => apply Z.leb_gt in H
  end.
