(* ===== verification/Tables.v ===== *)
(** * Tables: the Prisma queries the services use, over finite maps

    A table is a [gmap] from its key to its rows.  The definitions are the
    queries the services issue ([findFirst], [findMany], [count], [create],
    [update], [updateMany], [deleteMany], [orderBy]); the lemmas describe each
    by the lookups of its result.  A [findMany] without [orderBy] returns the
    rows in an order PostgreSQL does not specify: [ScanOrder] is that order,
    a parameter of everything that depends on it. *)

From stdpp Require Import sorting.
From S2P Require Import Prelude.

(** The order in which an unordered query scans a table: some permutation of
    the rows, for each content of the table. *)
Class ScanOrder := {
  scan : ∀ {R : Type}, gmap rowid R → list (rowid * R);
  scan_perm : ∀ {R : Type} (m : gmap rowid R), scan m ≡ₚ map_to_list m;
  scan_pairs : gset (rowid * rowid) → list (rowid * rowid);
  scan_pairs_perm : ∀ X, scan_pairs X ≡ₚ elements X;
}.

(** One such order, to run the definitions on concrete tables. *)
Definition key_order : ScanOrder :=
  {| scan R m := map_to_list m; scan_perm R m := reflexivity _;
     scan_pairs X := elements X; scan_pairs_perm X := reflexivity _ |}.

Section tables.
Context {K R : Type} `{Countable K}.
Implicit Types (m : gmap K R) (k : K) (r : R) (p : K → R → bool).

(** [where] as a boolean test on a row *)
Definition exists_where p m : bool := bool_decide (map_Exists (λ k r, p k r = true) m).
Definition count_where p m : nat := size (filter (λ kr, p kr.1 kr.2 = true) m).
Definition update_many p (f : R → R) m : gmap K R :=
  map_imap (λ k r, Some (if p k r then f r else r)) m.
Definition delete_many p m : gmap K R := filter (λ kr, p kr.1 kr.2 = false) m.

(** [findUnique] on a unique index other than the key *)
Definition find_unique p m : option (K * R) :=
  head (filter (λ kr, p kr.1 kr.2 = true) (map_to_list m)).

(** [create]: refused on a primary-key or unique-index clash *)
Definition create_row (clash : R → R → bool) k r m : option (gmap K R) :=
  if bool_decide (is_Some (m !! k)) || exists_where (λ _ r', clash r r') m
  then None else Some (<[k := r]> m).

(** [update] of one row under a unique index *)
Definition update_row (clash : R → R → bool) k (f : R → R) m : option (gmap K R) :=
  match m !! k with
  | None => None
  | Some r =>
      if exists_where (λ k' r', bool_decide (k' ≠ k) && clash (f r) r') m
      then None else Some (<[k := f r]> m)
  end.

Lemma exists_where_true p m :
  exists_where p m = true ↔ ∃ k r, m !! k = Some r ∧ p k r = true.
Proof. unfold exists_where. by rewrite bool_decide_eq_true. Qed.

Lemma exists_where_false p m :
  exists_where p m = false ↔ ∀ k r, m !! k = Some r → p k r = false.
Proof.
  rewrite <- not_true_iff_false, exists_where_true. split.
  - intros Hn k r Hk. apply not_true_iff_false. naive_solver.
  - intros Hall (k & r & Hk & Hp). rewrite (Hall k r Hk) in Hp. done.
Qed.

Lemma find_unique_Some p m k r :
  find_unique p m = Some (k, r) → m !! k = Some r ∧ p k r = true.
Proof.
  unfold find_unique. intros Hh.
  assert ((k, r) ∈ filter (λ kr, p kr.1 kr.2 = true) (map_to_list m)) as Hin.
  { destruct (filter _ _); simplify_eq/=. set_solver. }
  rewrite list_elem_of_filter, elem_of_map_to_list in Hin. naive_solver.
Qed.

Lemma find_unique_None p m :
  find_unique p m = None ↔ ∀ k r, m !! k = Some r → p k r = false.
Proof.
  unfold find_unique. split.
  - intros Hh k r Hk. apply not_true_iff_false. intros Hp.
    assert ((k, r) ∈ filter (λ kr, p kr.1 kr.2 = true) (map_to_list m)) as Hin.
    { by rewrite list_elem_of_filter, elem_of_map_to_list. }
    destruct (filter _ _); [by apply not_elem_of_nil in Hin|done].
  - intros Hall. destruct (filter _ _) as [|[k r] l] eqn:E; [done|].
    assert ((k, r) ∈ filter (λ kr, p kr.1 kr.2 = true) (map_to_list m)) as Hin
      by (rewrite E; set_solver).
    rewrite list_elem_of_filter, elem_of_map_to_list in Hin.
    destruct Hin as [Hp Hk]. simpl in Hp. rewrite (Hall _ _ Hk) in Hp. done.
Qed.

(** On a unique index [find_unique] finds exactly the row with the test. *)
Lemma find_unique_iff p m k r :
  (∀ k1 r1 k2 r2, m !! k1 = Some r1 → m !! k2 = Some r2 →
    p k1 r1 = true → p k2 r2 = true → k1 = k2) →
  find_unique p m = Some (k, r) ↔ m !! k = Some r ∧ p k r = true.
Proof.
  intros Huniq. split; [apply find_unique_Some|]. intros [Hk Hp].
  destruct (find_unique p m) as [[k' r']|] eqn:E.
  - apply find_unique_Some in E as [Hk' Hp'].
    assert (k' = k) as -> by eauto. naive_solver.
  - rewrite find_unique_None in E. rewrite (E _ _ Hk) in Hp. done.
Qed.

Lemma lookup_update_many p f m k :
  update_many p f m !! k = (λ r, if p k r then f r else r) <$> m !! k.
Proof. unfold update_many. rewrite map_lookup_imap. by destruct (m !! k). Qed.

Lemma lookup_update_many_Some p f m k r' :
  update_many p f m !! k = Some r' ↔
  ∃ r, m !! k = Some r ∧ r' = if p k r then f r else r.
Proof. rewrite lookup_update_many. destruct (m !! k); naive_solver. Qed.

Lemma lookup_delete_many p m k :
  delete_many p m !! k = m !! k ≫= λ r, if p k r then None else Some r.
Proof.
  apply option_eq. intros r. unfold delete_many.
  rewrite map_lookup_filter_Some. simpl.
  destruct (m !! k) as [r'|]; simpl; [|naive_solver].
  destruct (p k r') eqn:E; split; intros; destruct_and?; simplify_eq; auto; congruence.
Qed.

Lemma lookup_delete_many_Some p m k r :
  delete_many p m !! k = Some r ↔ m !! k = Some r ∧ p k r = false.
Proof.
  rewrite lookup_delete_many. destruct (m !! k) as [r'|]; simpl; [|naive_solver].
  destruct (p k r') eqn:E; split; intros; destruct_and?; simplify_eq; auto; congruence.
Qed.

Lemma delete_many_none p m :
  (∀ k r, m !! k = Some r → p k r = false) → delete_many p m = m.
Proof.
  intros Hp. apply map_eq. intros k. rewrite lookup_delete_many.
  destruct (m !! k) as [r|] eqn:E; simpl; [|done]. by rewrite (Hp k r E).
Qed.

Lemma update_many_none p f m :
  (∀ k r, m !! k = Some r → p k r = false) → update_many p f m = m.
Proof.
  intros Hp. apply map_eq. intros k. rewrite lookup_update_many.
  destruct (m !! k) as [r|] eqn:E; simpl; [|done]. by rewrite (Hp k r E).
Qed.

Lemma create_row_Some clash k r m m' :
  create_row clash k r m = Some m' ↔
  m !! k = None ∧ (∀ k' r', m !! k' = Some r' → clash r r' = false) ∧
  m' = <[k := r]> m.
Proof.
  unfold create_row.
  destruct (bool_decide (is_Some (m !! k))) eqn:E1; simpl.
  - apply bool_decide_eq_true in E1 as [x Hx]. naive_solver.
  - apply bool_decide_eq_false in E1. rewrite <- eq_None_not_Some in E1.
    destruct (exists_where _ m) eqn:E2.
    + apply exists_where_true in E2 as (k' & r' & Hk' & Hc).
      split; [done|]. intros (_ & Hall & _). rewrite (Hall _ _ Hk') in Hc. done.
    + pose proof (proj1 (exists_where_false _ _) E2). naive_solver.
Qed.

Lemma update_row_Some clash k f m m' :
  update_row clash k f m = Some m' ↔
  ∃ r, m !! k = Some r ∧ m' = <[k := f r]> m ∧
    ∀ k' r', k' ≠ k → m !! k' = Some r' → clash (f r) r' = false.
Proof.
  unfold update_row. destruct (m !! k) as [r|] eqn:Ek; [|naive_solver].
  destruct (exists_where _ m) eqn:E.
  - apply exists_where_true in E as (k' & r' & Hk' & [Hne Hc]%andb_true_iff).
    apply bool_decide_eq_true in Hne. split; [done|].
    intros (r0 & [= <-] & _ & Hall). rewrite (Hall k' r' Hne Hk') in Hc. done.
  - rewrite exists_where_false in E. split.
    + intros [= <-]. exists r. split_and!; [done..|]. intros k' r' Hne Hk'.
      specialize (E k' r' Hk'). rewrite bool_decide_eq_true_2 in E by done. done.
    + intros (r0 & [= <-] & -> & _). done.
Qed.

Lemma alter_as_insert (f : R → R) m k r : m !! k = Some r → alter f k m = <[k := f r]> m.
Proof.
  intros Hk. apply map_eq. intros k'. destruct (decide (k' = k)) as [->|].
  - by rewrite lookup_alter_eq, Hk, lookup_insert_eq.
  - by rewrite lookup_alter_ne, lookup_insert_ne.
Qed.

Lemma count_where_pos p m :
  count_where p m ≠ 0 ↔ exists_where p m = true.
Proof.
  unfold count_where. rewrite exists_where_true, map_size_ne_0_lookup. split.
  - intros (k & r & [? ?]%map_lookup_filter_Some). eauto.
  - intros (k & r & ? & ?). exists k. exists r. by apply map_lookup_filter_Some.
Qed.

(** Counting after a change of one row. *)
Lemma count_where_insert p m k r :
  m !! k = None →
  count_where p (<[k := r]> m) = (if p k r then 1 else 0) + count_where p m.
Proof.
  intros Hk. unfold count_where. destruct (p k r) eqn:E.
  - rewrite map_filter_insert_True by done.
    by rewrite map_size_insert_None by (apply map_lookup_filter_None; auto).
  - rewrite map_filter_insert_not'; [done|simpl; congruence|].
    intros y Hy. congruence.
Qed.

Lemma count_where_key (p : R → bool) m k r :
  m !! k = Some r → p r = true →
  count_where (λ k' r', bool_decide (k' = k) && p r') m = 1.
Proof.
  intros Hk Hp. unfold count_where.
  assert (filter (λ kr : K * R, bool_decide (kr.1 = k) && p kr.2 = true) m = {[k := r]}) as ->.
  { apply map_eq. intros k'. apply option_eq. intros r'.
    rewrite map_lookup_filter_Some, lookup_singleton_Some. simpl.
    rewrite andb_true_iff, bool_decide_eq_true.
    split; intros; destruct_and?; subst; split; auto; congruence. }
  apply map_size_singleton.
Qed.

(** Rows that [g] tells apart, with values in [l], are at most [length l]. *)
Lemma count_where_inj_le {B} p (g : R → B) m (l : list B) :
  (∀ k1 r1 k2 r2, m !! k1 = Some r1 → m !! k2 = Some r2 → p k1 r1 = true → p k2 r2 = true → g r1 = g r2 → k1 = k2) →
  (∀ k r, m !! k = Some r → p k r = true → g r ∈ l) →
  count_where p m ≤ length l.
Proof.
  intros Hinj Hin. unfold count_where.
  set (m' := filter _ m).
  assert (∀ k r, m' !! k = Some r → m !! k = Some r ∧ p k r = true) as Hm'.
  { intros k r [? ?]%map_lookup_filter_Some. done. }
  rewrite <- (length_map_to_list m'), <- (length_fmap (λ kr, g kr.2)).
  apply submseteq_length, NoDup_submseteq.
  - apply NoDup_fmap_2_strong; [|apply NoDup_map_to_list].
    intros [k1 r1] [k2 r2] H1 H2 Heq. apply elem_of_map_to_list, Hm' in H1 as [? ?], H2 as [? ?].
    assert (k1 = k2) as -> by (simpl in *; eauto). congruence.
  - intros u (kr & -> & Hkr)%list_elem_of_fmap. destruct kr as [k r].
    apply elem_of_map_to_list, Hm' in Hkr as [? ?]. simpl. eauto.
Qed.

Lemma count_where_le p q m m' :
  (∀ k r', m' !! k = Some r' → q k r' = true → ∃ r, m !! k = Some r ∧ p k r = true) →
  count_where q m' ≤ count_where p m.
Proof.
  intros Hsub. unfold count_where.
  rewrite <- !size_dom. apply subseteq_size.
  intros k. rewrite !elem_of_dom.
  intros [r' [Hr' Hq]%map_lookup_filter_Some].
  destruct (Hsub k r' Hr' Hq) as (r & Hr & Hp).
  exists r. by apply map_lookup_filter_Some.
Qed.
End tables.

(** [aggregate({ _sum })] of a column *)
Definition sum_map {K R} `{Countable K} (f : R → Z) (m : gmap K R) : Z := map_fold (λ _ r acc, (f r + acc)%Z) 0%Z m.

Section sums.
Context {K R : Type} `{Countable K}.
Implicit Types (f g : R → Z) (m : gmap K R).
Local Open Scope Z_scope.

Lemma sum_map_insert f m k r : m !! k = None → sum_map f (<[k := r]> m) = f r + sum_map f m.
Proof. intros Hk. unfold sum_map. rewrite map_fold_insert_L; [done| |done]. intros. lia. Qed.
Lemma sum_map_delete f m k r : m !! k = Some r → sum_map f m = f r + sum_map f (delete k m).
Proof. intros Hk. rewrite <- (sum_map_insert f (delete k m) k r) by apply lookup_delete_eq. by rewrite insert_delete_id. Qed.
Lemma sum_map_nonneg f m : (∀ k r, m !! k = Some r → 0 ≤ f r) → 0 ≤ sum_map f m.
Proof.
  induction m as [|k r m Hk IH] using map_ind; intros Hf; [done|]. rewrite sum_map_insert by done.
  assert (0 ≤ f r) by (apply (Hf k r); apply lookup_insert_eq).
  assert (0 ≤ sum_map f m); [|lia]. apply IH. intros k' r' Hk'. apply (Hf k' r'). rewrite lookup_insert_ne; [done|]. congruence.
Qed.
(** Row by row no larger. *)
Lemma sum_map_le f g m m' :
  (∀ k r', m' !! k = Some r' → g r' ≤ match m !! k with Some r => f r | None => 0 end) →
  (∀ k r, m !! k = Some r → 0 ≤ f r) →
  sum_map g m' ≤ sum_map f m.
Proof.
  revert m. induction m' as [|k r' m' Hk IH] using map_ind; intros m Hle Hf; [by apply sum_map_nonneg|].
  rewrite sum_map_insert by done. pose proof (Hle k r' (lookup_insert_eq _ _ _)) as Hr.
  assert (sum_map g m' ≤ sum_map f (delete k m)) as Hrest.
  { apply IH.
    - intros k1 r1 H1. assert (k1 ≠ k) by congruence. rewrite lookup_delete_ne by done. apply Hle. by rewrite lookup_insert_ne.
    - intros k1 r1 [_ H1]%lookup_delete_Some. eauto. }
  destruct (m !! k) as [r|] eqn:Hm.
  - rewrite (sum_map_delete f m k r Hm). lia.
  - rewrite delete_id in Hrest by done. lia.
Qed.
End sums.

(** ** Ordered and unordered row lists *)

(** [orderBy]: a stable sort by a boolean comparison. *)
Fixpoint insert_by {A} (le : A → A → bool) (x : A) (l : list A) : list A :=
  match l with
  | [] => [x]
  | y :: l' => if le x y then x :: y :: l' else y :: insert_by le x l'
  end.
Definition sort_by {A} (le : A → A → bool) (l : list A) : list A :=
  foldr (insert_by le) [] l.

Lemma insert_by_perm {A} le (x : A) l : insert_by le x l ≡ₚ x :: l.
Proof.
  induction l as [|y l IH]; simpl; [done|]. destruct (le x y); [done|].
  rewrite IH. apply perm_swap.
Qed.

Lemma sort_by_perm {A} le (l : list A) : sort_by le l ≡ₚ l.
Proof. induction l as [|x l IH]; simpl; [done|]. by rewrite insert_by_perm, IH. Qed.

Lemma elem_of_sort_by {A} le (l : list A) x : x ∈ sort_by le l ↔ x ∈ l.
Proof. by rewrite sort_by_perm. Qed.

Section sorted.
Context {A : Type} (le : A → A → bool).
Context (le_total : ∀ x y, le x y = true ∨ le y x = true).
Context (le_trans : ∀ x y z, le x y = true → le y z = true → le x z = true).

Lemma insert_by_sorted x l :
  StronglySorted (λ a b, le a b = true) l →
  StronglySorted (λ a b, le a b = true) (insert_by le x l).
Proof using le_total le_trans.
  induction 1 as [|y l Hl IH Hy]; simpl; [by repeat constructor|].
  destruct (le x y) eqn:E.
  - constructor; [by constructor|]. constructor; [done|].
    eapply Forall_impl; [exact Hy|]. eauto.
  - constructor; [done|]. rewrite insert_by_perm. constructor; [|done].
    destruct (le_total x y); congruence.
Qed.

Lemma sort_by_sorted l : StronglySorted (λ a b, le a b = true) (sort_by le l).
Proof using le_total le_trans.
  induction l; simpl; [constructor|by apply insert_by_sorted].
Qed.
End sorted.

Section scans.
Context `{!ScanOrder} {R : Type}.
Implicit Types (m : gmap rowid R) (p : rowid → R → bool).

(** [findMany({ where })] *)
Definition find_many p m : list (rowid * R) := filter (λ kr, p kr.1 kr.2 = true) (scan m).
(** [findMany({ where, orderBy })]; rows that tie stay in scan order *)
Definition find_many_by p (le : rowid * R → rowid * R → bool) m : list (rowid * R) :=
  sort_by le (find_many p m).
(** [findFirst({ where })] *)
Definition find_first p m : option (rowid * R) := head (find_many p m).

Lemma elem_of_scan m k r : (k, r) ∈ scan m ↔ m !! k = Some r.
Proof. by rewrite scan_perm, elem_of_map_to_list. Qed.

Lemma elem_of_find_many p m k r :
  (k, r) ∈ find_many p m ↔ m !! k = Some r ∧ p k r = true.
Proof. unfold find_many. rewrite list_elem_of_filter, elem_of_scan. naive_solver. Qed.

Lemma length_find_many p m : length (find_many p m) = count_where p m.
Proof.
  unfold count_where. rewrite <- length_map_to_list. apply Permutation_length, NoDup_Permutation.
  - unfold find_many. apply NoDup_filter. rewrite scan_perm. apply NoDup_map_to_list.
  - apply NoDup_map_to_list.
  - intros [k r]. rewrite elem_of_find_many, elem_of_map_to_list, map_lookup_filter_Some. done.
Qed.

Lemma find_first_Some p m k r :
  find_first p m = Some (k, r) → m !! k = Some r ∧ p k r = true.
Proof.
  unfold find_first. intros Hh. apply elem_of_find_many.
  destruct (find_many p m); simplify_eq/=. set_solver.
Qed.

Lemma find_first_None p m :
  find_first p m = None ↔ ∀ k r, m !! k = Some r → p k r = false.
Proof.
  unfold find_first. split.
  - intros Hh k r Hk. apply not_true_iff_false. intros Hp.
    assert ((k, r) ∈ find_many p m) as Hin by by apply elem_of_find_many.
    destruct (find_many p m); [by apply not_elem_of_nil in Hin|done].
  - intros Hall. destruct (find_many p m) as [|[k r] l] eqn:E; [done|].
    assert ((k, r) ∈ find_many p m) as Hin by (rewrite E; set_solver).
    apply elem_of_find_many in Hin as [Hk Hp]. rewrite (Hall _ _ Hk) in Hp. done.
Qed.
End scans.
