(* ===== verification/JsText.v ===== *)
(** * JavaScript strings

    A text is its sequence of UTF-16 code units; [length] and [slice] count
    code units, as in JavaScript.  [\s] and [String.prototype.trim] use the
    white space and line terminators of ECMAScript. *)

From Stdlib Require Strings.String Strings.Ascii.
From S2P Require Import Prelude.
Local Open Scope Z_scope.

Abbreviation text := (list Z).

(** The code units of an ASCII literal. *)
Definition lit (s : string) : text := Z.of_N ∘ Ascii.N_of_ascii <$> String.list_ascii_of_string s.
Lemma lit_inj a b : lit a = lit b → a = b.
Proof.
  assert (Inj (=) (=) (Z.of_N ∘ Ascii.N_of_ascii)) as Hinj.
  { intros c c' Hc%N2Z.inj. by rewrite <- (Ascii.ascii_N_embedding c), <- (Ascii.ascii_N_embedding c'), Hc. }
  intros H. unfold lit in H. apply (inj (fmap (M := list) (Z.of_N ∘ Ascii.N_of_ascii))) in H.
  by rewrite <- (String.string_of_list_ascii_of_string a), <- (String.string_of_list_ascii_of_string b), H.
Qed.

(** [\s]: tab, LF, VT, FF, CR, space, NBSP, OGHAM SPACE, the U+2000 block, the
    line and paragraph separators, and the remaining Zs characters and BOM. *)
Definition is_space (c : Z) : bool :=
  ((9 <=? c) && (c <=? 13)) || (c =? 32) || (c =? 160) || (c =? 5760)
  || ((8192 <=? c) && (c <=? 8202)) || (c =? 8232) || (c =? 8233)
  || (c =? 8239) || (c =? 8287) || (c =? 12288) || (c =? 65279).

Fixpoint trim_start (l : text) : text :=
  match l with
  | [] => []
  | c :: l' => if is_space c then trim_start l' else l
  end.
(** [value.trim()] *)
Definition trim (l : text) : text := reverse (trim_start (reverse (trim_start l))).

(** [value.replace(/\s+/g, ' ')]; [after_space] says the previous code unit
    belonged to the run being replaced. *)
Fixpoint collapse (after_space : bool) (l : text) : text :=
  match l with
  | [] => []
  | c :: l' =>
      if is_space c then
        if after_space then collapse true l' else 32 :: collapse true l'
      else c :: collapse false l'
  end.
Definition replace_spaces (l : text) : text := collapse false l.

(** A string is truthy when it is not empty. *)
Definition truthy (l : text) : bool := match l with [] => false | _ => true end.
Definition truthy_opt (o : option text) : bool := if o is Some l then truthy l else false.

(** [value.toUpperCase()], as far as an ASCII pattern can observe it: ASCII
    letters, the characters outside ASCII whose upper case is ASCII (dotless i,
    long s, sharp s and the Latin ligatures), and every other code unit, whose
    image keeps a code unit outside ASCII, unchanged. *)
Definition upper_unit (c : Z) : text :=
  if (97 <=? c) && (c <=? 122) then [c - 32]
  else if c =? 305 then [73]
  else if c =? 383 then [83]
  else if c =? 223 then [83; 83]
  else if c =? 64256 then [70; 70]
  else if c =? 64257 then [70; 73]
  else if c =? 64258 then [70; 76]
  else if c =? 64259 then [70; 70; 73]
  else if c =? 64260 then [70; 70; 76]
  else if (c =? 64261) || (c =? 64262) then [83; 84]
  else [c].
Definition to_upper (l : text) : text := l ≫= upper_unit.

(** [A-Z0-9] *)
Definition is_alnum_upper (c : Z) : bool :=
  ((65 <=? c) && (c <=? 90)) || ((48 <=? c) && (c <=? 57)).

(** [value.split(separator)] for a one-character separator; call it with [cur] empty *)
Fixpoint split_on (c : Z) (cur : text) (l : text) : list text :=
  match l with
  | [] => [reverse cur]
  | d :: l' => if d =? c then reverse cur :: split_on c [] l' else split_on c (d :: cur) l'
  end.

(** [value.startsWith(prefix)] *)
Definition starts_with (prefix l : text) : bool := bool_decide (take (length prefix) l = prefix).

(** [value.slice(value.lastIndexOf(c))]: from the last [c] on; the last code
    unit when there is none ([slice(-1)]). *)
Fixpoint from_last (c : Z) (l : text) : option text :=
  match l with
  | [] => None
  | d :: l' => match from_last c l' with
               | Some r => Some r
               | None => if d =? c then Some l else None
               end
  end.
Definition slice_last_index (c : Z) (l : text) : text :=
  match from_last c l with Some r => r | None => drop (length l - 1) l end.

(** Code-unit order of two texts, as [<] and [Array.prototype.sort] compare
    strings. *)
Fixpoint text_leb (a b : text) : bool :=
  match a, b with
  | [], _ => true
  | _, [] => false
  | x :: a', y :: b' => (x <? y) || ((x =? y) && text_leb a' b')
  end.

Lemma text_leb_total a b : text_leb a b = true ∨ text_leb b a = true.
Proof.
  revert b. induction a as [|x a IH]; intros [|y b]; simpl; auto.
  destruct (Z.lt_trichotomy x y) as [H|[->|H]].
  - left. by rewrite (proj2 (Z.ltb_lt x y) H).
  - rewrite !Z.ltb_irrefl, !Z.eqb_refl. simpl. apply IH.
  - right. by rewrite (proj2 (Z.ltb_lt y x) H).
Qed.

Lemma text_leb_true x a y b :
  text_leb (x :: a) (y :: b) = true ↔ x < y ∨ (x = y ∧ text_leb a b = true).
Proof. simpl. by rewrite orb_true_iff, andb_true_iff, Z.ltb_lt, Z.eqb_eq. Qed.

Lemma text_leb_trans a b c : text_leb a b = true → text_leb b c = true → text_leb a c = true.
Proof.
  revert b c. induction a as [|x a IH]; intros [|y b] [|z c]; try done.
  rewrite !text_leb_true. intros [?|[-> ?]] [?|[-> ?]]; [left; lia|left; lia|left; lia|right; eauto].
Qed.

Lemma text_leb_antisym a b : text_leb a b = true → text_leb b a = true → a = b.
Proof.
  revert b. induction a as [|x a IH]; intros [|y b]; try done.
  rewrite !text_leb_true. intros [?|[-> ?]] [?|[? ?]]; try lia. f_equal. auto.
Qed.

Lemma is_space_32 : is_space 32 = true.
Proof. done. Qed.

Lemma trim_start_suffix l : trim_start l `suffix_of` l.
Proof.
  induction l as [|c l IH]; simpl; [done|].
  destruct (is_space c); [|done]. by apply suffix_cons_r.
Qed.

Lemma trim_start_head l c l' : trim_start l = c :: l' → is_space c = false.
Proof.
  induction l as [|d l IH]; simpl; [done|].
  destruct (is_space d) eqn:E; [done|]. naive_solver.
Qed.

Lemma trim_start_nil l : trim_start l = [] ↔ Forall (λ c, is_space c = true) l.
Proof.
  induction l as [|d l IH]; simpl; [done|].
  rewrite Forall_cons. destruct (is_space d) eqn:E; naive_solver.
Qed.

Lemma trim_length l : (length (trim l) ≤ length l)%nat.
Proof.
  unfold trim. rewrite length_reverse.
  etrans; [apply suffix_length, trim_start_suffix|].
  rewrite length_reverse. apply suffix_length, trim_start_suffix.
Qed.

Lemma elem_of_trim l c : c ∈ trim l → c ∈ l.
Proof.
  unfold trim. rewrite elem_of_reverse. intros Hc.
  destruct (trim_start_suffix (reverse (trim_start l))) as [k1 Hk1].
  assert (c ∈ reverse (trim_start l)) as Hc' by (rewrite Hk1; set_solver).
  rewrite elem_of_reverse in Hc'.
  destruct (trim_start_suffix l) as [k2 Hk2]. rewrite Hk2. set_solver.
Qed.

(** The head of a trimmed text is not white space. *)
Lemma trim_head l c l' : trim l = c :: l' → is_space c = false.
Proof.
  unfold trim. intros Ht.
  destruct (trim_start_suffix (reverse (trim_start l))) as [k Hk].
  assert (trim_start l = reverse (trim_start (reverse (trim_start l))) ++ reverse k) as Hl.
  { rewrite <- reverse_app, <- Hk. by rewrite reverse_involutive. }
  rewrite Ht in Hl. eapply (trim_start_head l). exact Hl.
Qed.

Lemma trim_nil l : trim l = [] ↔ Forall (λ c, is_space c = true) l.
Proof.
  unfold trim. split.
  - intros Hr. apply (f_equal reverse) in Hr. rewrite reverse_involutive in Hr.
    change (reverse []) with (@nil Z) in Hr.
    apply trim_start_nil in Hr. apply trim_start_nil.
    destruct (trim_start l) as [|c l'] eqn:E; [done|].
    apply trim_start_head in E.
    rewrite Forall_forall in Hr. specialize (Hr c). rewrite elem_of_reverse in Hr.
    rewrite Hr in E by set_solver. done.
  - intros Hl. apply trim_start_nil in Hl. rewrite Hl. done.
Qed.

Lemma collapse_length b l : (length (collapse b l) ≤ length l)%nat.
Proof.
  revert b. induction l as [|c l IH]; intros b; simpl; [lia|].
  pose proof (IH true). pose proof (IH false).
  destruct (is_space c), b; simpl; lia.
Qed.

(** After [replace_spaces] the only white space is the single space. *)
Lemma elem_of_collapse b l c : c ∈ collapse b l → is_space c = true → c = 32.
Proof.
  revert b. induction l as [|d l IH]; intros b; simpl; [set_solver|].
  destruct (is_space d) eqn:E, b; rewrite ?elem_of_cons; naive_solver congruence.
Qed.

(** No two adjacent code units of a text are white space. *)
Fixpoint single_spaced (l : text) : bool :=
  match l with
  | c :: ((d :: _) as l') => negb (is_space c && is_space d) && single_spaced l'
  | _ => true
  end.

Lemma collapse_single_spaced l :
  single_spaced (collapse false l) = true ∧
  single_spaced (collapse true l) = true ∧
  (∀ c l', collapse true l = c :: l' → is_space c = false).
Proof.
  induction l as [|d l (IH1 & IH2 & IH3)]; simpl; [naive_solver|].
  destruct (is_space d) eqn:E.
  - split_and!; [|done|done].
    destruct (collapse true l) as [|c l'] eqn:El; [done|].
    change (negb (is_space 32 && is_space c) && single_spaced (c :: l') = true).
    by rewrite (IH3 c l' eq_refl), andb_false_r, IH2.
  - assert (single_spaced (d :: collapse false l) = true) as Hd.
    { destruct (collapse false l) as [|c l'] eqn:El; [done|].
      change (negb (is_space d && is_space c) && single_spaced (c :: l') = true).
      by rewrite E, IH1. }
    split_and!; [done|done|naive_solver].
Qed.

Lemma single_spaced_suffix l k : single_spaced (k ++ l) = true → single_spaced l = true.
Proof.
  induction k as [|c k IH]; [done|]. intros Hs. apply IH.
  simpl in Hs. destruct (k ++ l); [done|]. by apply andb_true_iff in Hs as [_ ?].
Qed.

Lemma single_spaced_prefix l k : single_spaced (l ++ k) = true → single_spaced l = true.
Proof.
  induction l as [|c l IH]; [done|]. intros Hs. destruct l as [|d l]; [done|].
  change (negb (is_space c && is_space d) && single_spaced (d :: l ++ k) = true) in Hs.
  change (negb (is_space c && is_space d) && single_spaced (d :: l) = true).
  apply andb_true_iff in Hs as [-> H2]. by apply IH.
Qed.

Lemma trim_start_single_spaced l :
  single_spaced l = true → single_spaced (trim_start l) = true.
Proof.
  intros Hs. destruct (trim_start_suffix l) as [k Hk]. rewrite Hk in Hs.
  by eapply single_spaced_suffix.
Qed.

Lemma trim_infix l : ∃ k1 k2, l = k1 ++ trim l ++ k2.
Proof.
  destruct (trim_start_suffix l) as [k1 Hk1].
  destruct (trim_start_suffix (reverse (trim_start l))) as [k2 Hk2].
  exists k1, (reverse k2). unfold trim. rewrite <- reverse_app, <- Hk2.
  by rewrite reverse_involutive.
Qed.

Lemma trim_single_spaced l : single_spaced l = true → single_spaced (trim l) = true.
Proof.
  intros Hs. destruct (trim_infix l) as (k1 & k2 & Hl). rewrite Hl in Hs.
  eapply single_spaced_prefix, single_spaced_suffix. exact Hs.
Qed.

Lemma collapse_spaces_only b l :
  Forall (λ c, is_space c = true) (collapse b l) ↔ Forall (λ c, is_space c = true) l.
Proof.
  revert b. induction l as [|d l IH]; intros b; simpl; [done|].
  destruct (is_space d) eqn:E, b; rewrite ?Forall_cons, ?IH; naive_solver.
Qed.
