(* ===== verification/Json.v ===== *)
(** * JSON values as the services read them

    A parsed JSON document ([Json] columns, request bodies).  An object is the
    sequence of its own properties; a number is an integer or, when it is not
    one, its source text. *)

From S2P Require Import Prelude JsText.

Inductive json :=
  | JNull
  | JBool (b : bool)
  | JInt (n : Z)
  | JFrac (repr : text)
  | JStr (s : text)
  | JArr (l : list json)
  | JObj (l : list (text * json)).

(** Induction on a document through its arrays and objects. *)
Section json_nested.
Variable P : json → Prop.
Context (P_null : P JNull) (P_bool : ∀ b, P (JBool b)) (P_int : ∀ n, P (JInt n)) (P_frac : ∀ t, P (JFrac t)) (P_str : ∀ s, P (JStr s)).
Context (P_arr : ∀ l, Forall P l → P (JArr l)) (P_obj : ∀ l, Forall (λ kv, P kv.2) l → P (JObj l)).

Fixpoint json_nested (v : json) : P v :=
  match v with
  | JNull => P_null
  | JBool b => P_bool b
  | JInt n => P_int n
  | JFrac t => P_frac t
  | JStr s => P_str s
  | JArr l => P_arr l ((fix go l : Forall P l := match l with [] => Forall_nil_2 _ | v :: l' => Forall_cons_2 _ _ _ (json_nested v) (go l') end) l)
  | JObj l => P_obj l ((fix go l : Forall (λ kv, P kv.2) l :=
      match l with [] => Forall_nil_2 _ | kv :: l' => Forall_cons_2 _ _ _ (json_nested kv.2) (go l') end) l)
  end.
End json_nested.

(** [object_in o v]: [o] is an object anywhere in the document [v]. *)
Inductive object_in (o : list (text * json)) : json → Prop :=
  | in_here : object_in o (JObj o)
  | in_field k v l : (k, v) ∈ l → object_in o v → object_in o (JObj l)
  | in_element v l : v ∈ l → object_in o v → object_in o (JArr l).

(** The property [key] of an object; [None] is [undefined]. *)
Fixpoint prop (key : text) (l : list (text * json)) : option json :=
  match l with
  | [] => None
  | (k, v) :: l' => if bool_decide (k = key) then Some v else prop key l'
  end.

(** [typeof value === 'object' && value !== null && !Array.isArray(value)] *)
Definition isRecord (value : json) : bool :=
  match value with JObj _ => true | _ => false end.

Definition get (key : string) (value : json) : option json :=
  match value with JObj l => prop (lit key) l | _ => None end.

Definition as_record (o : option json) : option (list (text * json)) :=
  match o with Some (JObj l) => Some l | _ => None end.
Definition as_array (o : option json) : option (list json) :=
  match o with Some (JArr l) => Some l | _ => None end.
Definition as_string (o : option json) : option text :=
  match o with Some (JStr s) => Some s | _ => None end.

(** [names] of an array of texts in order of first occurrence:
    [[...new Set(l)]] *)
Fixpoint dedup {A} `{EqDecision A} (l : list A) : list A :=
  match l with
  | [] => []
  | x :: l' => x :: filter (λ y, y ≠ x) (dedup l')
  end.

Lemma elem_of_dedup {A} `{EqDecision A} (l : list A) x : x ∈ dedup l ↔ x ∈ l.
Proof.
  induction l as [|y l IH]; simpl; [done|].
  rewrite !elem_of_cons, list_elem_of_filter, IH.
  destruct (decide (x = y)); naive_solver.
Qed.

Lemma NoDup_dedup {A} `{EqDecision A} (l : list A) : NoDup (dedup l).
Proof.
  induction l as [|y l IH]; simpl; [constructor|]. constructor.
  - rewrite list_elem_of_filter. naive_solver.
  - by apply NoDup_filter.
Qed.

Section objects.
Variable good : list (text * json) → Prop.
Definition good_objects (v : json) : Prop := ∀ o, object_in o v → good o.

Lemma good_objects_obj l : good_objects (JObj l) ↔ good l ∧ Forall (λ kv, good_objects kv.2) l.
Proof.
  split.
  - intros H. split; [apply H; constructor|]. apply Forall_forall. intros [k v] Hin o Ho. apply H. by eapply in_field.
  - intros [Hl Hf] o Ho. inversion Ho as [|k v l' Hin Hv|]; subst; [done|].
    by apply (proj1 (Forall_forall _ _) Hf (k, v) Hin).
Qed.
Lemma good_objects_arr l : good_objects (JArr l) ↔ Forall good_objects l.
Proof.
  split.
  - intros H. apply Forall_forall. intros v Hin o Ho. apply H. by eapply in_element.
  - intros Hf o Ho. inversion Ho as [| |v l' Hin Hv]; subst. by apply (proj1 (Forall_forall _ _) Hf v Hin).
Qed.
Lemma good_objects_scalar v : (∀ l, v ≠ JObj l) → (∀ l, v ≠ JArr l) → good_objects v.
Proof. intros H1 H2 o Ho. destruct Ho; naive_solver. Qed.
End objects.
