(* ===== verification/Schema.v ===== *)
(** * The database: rows, tables and the world around them

    The rows are those of [prisma/schema.prisma], as the services read and
    write them; a table is a finite map from its key to its rows, and the
    unique indexes are enforced where rows are created or updated.  Foreign
    keys with [onDelete] clauses are written out by the operations that delete
    rows.  Row locks ([SELECT ... FOR UPDATE]) have no counterpart: they are
    what makes an interactive transaction one atomic step of the model.  One
    transaction reads the clock once: the model gives it one [now].

    [World] is what a service method acts on: the database and the events
    published to the users' socket rooms. *)

From Stdlib Require Import Floats.SpecFloat.
From S2P Require Import Prelude Tables JsText Json.
Local Open Scope Z_scope.

(** [x === y] on values with decidable equality. *)
Declare Scope ocn_scope.
Delimit Scope ocn_scope with ocn.
Notation "x == y" := (bool_decide (x = y)) (at level 70, no associativity) : ocn_scope.
Notation "x != y" := (negb (bool_decide (x = y))) (at level 70, no associativity) : ocn_scope.
Open Scope ocn_scope.

(** A nullable column is truthy when it is set ([Boolean(column)]). *)
Abbreviation is_set x := (bool_decide (is_Some x)) (only parsing).

(** ** Enumerations *)

(** prisma enum [UserRole] *)
Inductive UserRole := USER | SUPERADMIN.
(** prisma enum [UserAccountStatus] *)
Inductive UserAccountStatus := ACTIVE | SUSPENDED.
(** [FriendRequest.status] *)
Inductive FriendRequestStatus := FR_pending | FR_accepted | FR_rejected | FR_cancelled.
(** [visitMode] *)
Inductive VisitMode := VM_standard | VM_random_host_topic | VM_visitor_topic.
(** [VisitInvitation.status] *)
Inductive InvitationStatus := I_pending | I_accepted | I_declined | I_cancelled | I_expired.
(** [VisitSession.state] *)
Inductive SessionState := S_preparing | S_ready | S_active | S_ending | S_ended | S_cancelled | S_failed.
(** [VisitReservation.kind] *)
Inductive ReservationKind := K_outgoing_invitation | K_session_participant | K_join_request.
(** [VisitSessionParticipant.role] *)
Inductive ParticipantRole := R_host | R_visitor | R_guest.
(** [VisitSessionParticipant.state] *)
Inductive ParticipantState := P_preparing | P_ready | P_active | P_left.
(** [VisitJoinRequest.status] *)
Inductive JoinStatus := J_pending | J_accepted | J_declined | J_cancelled | J_expired.
(** [VisitRoomTopic.state] *)
Inductive TopicState := T_queued | T_active | T_completed.
(** [shareScope] *)
Inductive ShareScope := summary_only | summary_and_source.
(** [CompanionAssetPack.status] *)
Inductive PackStatus := PK_uploading | PK_verifying | PK_active | PK_superseded | PK_failed | PK_abandoning | PK_abandoned | PK_deleting | PK_draft.
(** [Presence.status] *)
Inductive PresenceStatus := PR_online | PR_idle | PR_offline.
(** [CompanionRelationship.stage] *)
Inductive RelationshipStage := RS_new | RS_acquainted | RS_familiar | RS_friendly | RS_close | RS_trusted.
#[export] Instance UserRole_eq_dec : EqDecision UserRole.
Proof. solve_decision. Defined.
#[export] Instance UserAccountStatus_eq_dec : EqDecision UserAccountStatus.
Proof. solve_decision. Defined.
#[export] Instance FriendRequestStatus_eq_dec : EqDecision FriendRequestStatus.
Proof. solve_decision. Defined.
#[export] Instance VisitMode_eq_dec : EqDecision VisitMode.
Proof. solve_decision. Defined.
#[export] Instance InvitationStatus_eq_dec : EqDecision InvitationStatus.
Proof. solve_decision. Defined.
#[export] Instance SessionState_eq_dec : EqDecision SessionState.
Proof. solve_decision. Defined.
#[export] Instance ReservationKind_eq_dec : EqDecision ReservationKind.
Proof. solve_decision. Defined.
#[export] Instance ParticipantRole_eq_dec : EqDecision ParticipantRole.
Proof. solve_decision. Defined.
#[export] Instance ParticipantState_eq_dec : EqDecision ParticipantState.
Proof. solve_decision. Defined.
#[export] Instance JoinStatus_eq_dec : EqDecision JoinStatus.
Proof. solve_decision. Defined.
#[export] Instance TopicState_eq_dec : EqDecision TopicState.
Proof. solve_decision. Defined.
#[export] Instance ShareScope_eq_dec : EqDecision ShareScope.
Proof. solve_decision. Defined.
#[export] Instance PackStatus_eq_dec : EqDecision PackStatus.
Proof. solve_decision. Defined.
#[export] Instance PresenceStatus_eq_dec : EqDecision PresenceStatus.
Proof. solve_decision. Defined.
#[export] Instance RelationshipStage_eq_dec : EqDecision RelationshipStage.
Proof. solve_decision. Defined.

(** ** Rows *)

(** [User] *)
Record User := mkUser {
  u_uid : text;
  u_email : text;
  u_normalizedEmail : text;
  u_username : text;
  u_passwordHash : text;
  u_friendCode : text;
  u_role : UserRole;
  u_accountStatus : UserAccountStatus;
  u_suspendedAt : option instant;
  u_deletionRequestedAt : option instant;
  u_deletionNextAttemptAt : option instant;
  u_deletionAttemptCount : Z;
  u_createdAt : instant;
  u_activeNetworkCompanionId : option rowid;
}.
#[export] Instance eta_User : Eta User := λ r, mkUser (u_uid r) (u_email r)
  (u_normalizedEmail r) (u_username r) (u_passwordHash r) (u_friendCode r)
  (u_role r) (u_accountStatus r) (u_suspendedAt r) (u_deletionRequestedAt r)
  (u_deletionNextAttemptAt r) (u_deletionAttemptCount r) (u_createdAt r)
  (u_activeNetworkCompanionId r).

(** [Profile], keyed by its unique userId *)
Record UserProfile := mkUserProfile {
  up_displayName : option text;
  up_avatarUrl : option text;
  up_bio : option text;
  up_isPublic : bool;
}.
#[export] Instance eta_UserProfile : Eta UserProfile := λ r, mkUserProfile
  (up_displayName r) (up_avatarUrl r) (up_bio r) (up_isPublic r).

(** [DeviceSession], unique on (userId, deviceId) *)
Record DeviceSession := mkDeviceSession {
  ds_userId : rowid;
  ds_deviceId : rowid;
  ds_refreshTokenHash : text;
  ds_previousRefreshTokenHash : option text;
  ds_csrfTokenHash : option text;
  ds_createdAt : instant;
  ds_lastUsedAt : instant;
  ds_expiresAt : instant;
  ds_revokedAt : option instant;
}.
#[export] Instance eta_DeviceSession : Eta DeviceSession := λ r,
  mkDeviceSession (ds_userId r) (ds_deviceId r) (ds_refreshTokenHash r)
  (ds_previousRefreshTokenHash r) (ds_csrfTokenHash r) (ds_createdAt r)
  (ds_lastUsedAt r) (ds_expiresAt r) (ds_revokedAt r).

(** [FriendRequest], unique on (senderId, receiverId) *)
Record FriendRequest := mkFriendRequest {
  fr_senderId : rowid;
  fr_receiverId : rowid;
  fr_status : FriendRequestStatus;
  fr_createdAt : instant;
  fr_updatedAt : instant;
}.
#[export] Instance eta_FriendRequest : Eta FriendRequest := λ r,
  mkFriendRequest (fr_senderId r) (fr_receiverId r) (fr_status r)
  (fr_createdAt r) (fr_updatedAt r).

(** [Presence], keyed by its unique userId *)
Record Presence := mkPresence {
  pr_status : PresenceStatus;
  pr_lastSeenAt : instant;
  pr_updatedAt : instant;
}.
#[export] Instance eta_Presence : Eta Presence := λ r, mkPresence (pr_status
  r) (pr_lastSeenAt r) (pr_updatedAt r).

(** [NetworkCompanion] *)
Record Companion := mkCompanion {
  co_ownerUserId : rowid;
  co_name : text;
  co_publicDescription : option text;
  co_publicTags : list text;
  co_visibility : string;
  co_published : bool;
  co_randomVisitsEnabled : bool;
  co_randomVisitAudience : string;
  co_allowJoinRequests : bool;
  co_activeAssetPackId : option rowid;
  co_createdAt : instant;
  co_updatedAt : instant;
  co_publishedAt : option instant;
}.
#[export] Instance eta_Companion : Eta Companion := λ r, mkCompanion
  (co_ownerUserId r) (co_name r) (co_publicDescription r) (co_publicTags r)
  (co_visibility r) (co_published r) (co_randomVisitsEnabled r)
  (co_randomVisitAudience r) (co_allowJoinRequests r) (co_activeAssetPackId r)
  (co_createdAt r) (co_updatedAt r) (co_publishedAt r).

(** [ShareableTopic] *)
Record ShareableTopic := mkShareableTopic {
  st_companionId : rowid;
  st_title : text;
  st_summary : text;
  st_tags : list text;
  st_sourceUrl : option text;
  st_audience : string;
  st_shareScope : ShareScope;
  st_allowRecipientSave : bool;
  st_eligibleForRandomVisit : bool;
  st_expiresAt : option instant;
  st_revokedAt : option instant;
  st_lastUsedAt : option instant;
  st_createdAt : instant;
  st_updatedAt : instant;
}.
#[export] Instance eta_ShareableTopic : Eta ShareableTopic := λ r,
  mkShareableTopic (st_companionId r) (st_title r) (st_summary r) (st_tags r)
  (st_sourceUrl r) (st_audience r) (st_shareScope r) (st_allowRecipientSave r)
  (st_eligibleForRandomVisit r) (st_expiresAt r) (st_revokedAt r)
  (st_lastUsedAt r) (st_createdAt r) (st_updatedAt r).

(** [CompanionAssetPack], unique on (companionId, manifestHash) *)
Record AssetPack := mkAssetPack {
  pk_companionId : rowid;
  pk_manifestHash : text;
  pk_schemaVersion : Z;
  pk_manifest : json;
  pk_status : PackStatus;
  pk_objectPrefix : text;
  pk_totalFiles : Z;
  pk_totalBytes : Z;
  pk_failureCode : option string;
  pk_lastUploadUrlIssuedAt : option instant;
  pk_stagingCleanedAt : option instant;
  pk_createdAt : instant;
  pk_updatedAt : instant;
  pk_completedAt : option instant;
  pk_activatedAt : option instant;
  pk_supersededAt : option instant;
}.
#[export] Instance eta_AssetPack : Eta AssetPack := λ r, mkAssetPack
  (pk_companionId r) (pk_manifestHash r) (pk_schemaVersion r) (pk_manifest r) (pk_status r)
  (pk_objectPrefix r) (pk_totalFiles r) (pk_totalBytes r) (pk_failureCode r)
  (pk_lastUploadUrlIssuedAt r) (pk_stagingCleanedAt r) (pk_createdAt r)
  (pk_updatedAt r) (pk_completedAt r) (pk_activatedAt r) (pk_supersededAt r).

(** [CompanionAssetFile] *)
Record AssetFile := mkAssetFile {
  af_assetPackId : rowid;
  af_relativePath : text;
  af_objectKey : text;
  af_mimeType : text;
  af_sizeBytes : Z;
  af_sha256 : text;
  af_category : text;
  af_uploaded : bool;
  af_verifiedAt : option instant;
}.
#[export] Instance eta_AssetFile : Eta AssetFile := λ r, mkAssetFile
  (af_assetPackId r) (af_relativePath r) (af_objectKey r) (af_mimeType r)
  (af_sizeBytes r) (af_sha256 r) (af_category r) (af_uploaded r)
  (af_verifiedAt r).

(** The [topic...] columns an invitation and a join request share *)
Record TopicColumns := mkTopicColumns {
  tc_refId : option rowid;
  tc_ownerCompanionId : option rowid;
  tc_createdByUserId : option rowid;
  tc_title : option text;
  tc_summary : option text;
  tc_tags : list text;
  tc_sourceUrl : option text;
  tc_shareScope : option ShareScope;
  tc_allowRecipientSave : bool;
}.
#[export] Instance eta_TopicColumns : Eta TopicColumns := λ r, mkTopicColumns
  (tc_refId r) (tc_ownerCompanionId r) (tc_createdByUserId r) (tc_title r)
  (tc_summary r) (tc_tags r) (tc_sourceUrl r) (tc_shareScope r)
  (tc_allowRecipientSave r).

(** [VisitInvitation] *)
Record Invitation := mkInvitation {
  inv_visitorOwnerUserId : rowid;
  inv_hostUserId : rowid;
  inv_networkCompanionId : rowid;
  inv_assetPackSnapshotId : rowid;
  inv_assetPackRefId : option rowid;
  inv_companionName : text;
  inv_companionDescription : option text;
  inv_companionTags : list text;
  inv_visitMode : VisitMode;
  inv_topic : TopicColumns;
  inv_topicSelectedAt : option instant;
  inv_status : InvitationStatus;
  inv_expiresAt : instant;
  inv_respondedAt : option instant;
  inv_cancelledAt : option instant;
  inv_createdAt : instant;
  inv_updatedAt : instant;
}.
#[export] Instance eta_Invitation : Eta Invitation := λ r, mkInvitation
  (inv_visitorOwnerUserId r) (inv_hostUserId r) (inv_networkCompanionId r)
  (inv_assetPackSnapshotId r) (inv_assetPackRefId r) (inv_companionName r)
  (inv_companionDescription r) (inv_companionTags r) (inv_visitMode r)
  (inv_topic r) (inv_topicSelectedAt r) (inv_status r) (inv_expiresAt r)
  (inv_respondedAt r) (inv_cancelledAt r) (inv_createdAt r) (inv_updatedAt r).

(** [VisitSession], unique on invitationId *)
Record Session := mkSession {
  ses_invitationId : rowid;
  ses_visitorOwnerUserId : rowid;
  ses_hostUserId : rowid;
  ses_hostNetworkCompanionId : option rowid;
  ses_networkCompanionId : rowid;
  ses_assetPackSnapshotId : rowid;
  ses_assetPackRefId : option rowid;
  ses_visitMode : VisitMode;
  ses_roomCapacity : Z;
  ses_currentTopicSequence : Z;
  ses_state : SessionState;
  ses_visitorOwnerReadyAt : option instant;
  ses_hostReadyAt : option instant;
  ses_visitorOwnerSeenAt : option instant;
  ses_hostSeenAt : option instant;
  ses_readyAt : option instant;
  ses_startedAt : option instant;
  ses_endingAt : option instant;
  ses_endedAt : option instant;
  ses_endReason : option string;
  ses_failureCode : option string;
  ses_createdAt : instant;
  ses_updatedAt : instant;
}.
#[export] Instance eta_Session : Eta Session := λ r, mkSession
  (ses_invitationId r) (ses_visitorOwnerUserId r) (ses_hostUserId r)
  (ses_hostNetworkCompanionId r) (ses_networkCompanionId r)
  (ses_assetPackSnapshotId r) (ses_assetPackRefId r) (ses_visitMode r)
  (ses_roomCapacity r) (ses_currentTopicSequence r) (ses_state r)
  (ses_visitorOwnerReadyAt r) (ses_hostReadyAt r) (ses_visitorOwnerSeenAt r)
  (ses_hostSeenAt r) (ses_readyAt r) (ses_startedAt r) (ses_endingAt r)
  (ses_endedAt r) (ses_endReason r) (ses_failureCode r) (ses_createdAt r)
  (ses_updatedAt r).

(** [VisitReservation], keyed by its userId; unique on invitationId and on joinRequestId *)
Record Reservation := mkReservation {
  res_networkCompanionId : rowid;
  res_kind : ReservationKind;
  res_invitationId : option rowid;
  res_sessionId : option rowid;
  res_joinRequestId : option rowid;
  res_expiresAt : option instant;
  res_createdAt : instant;
  res_updatedAt : instant;
}.
#[export] Instance eta_Reservation : Eta Reservation := λ r, mkReservation
  (res_networkCompanionId r) (res_kind r) (res_invitationId r) (res_sessionId
  r) (res_joinRequestId r) (res_expiresAt r) (res_createdAt r) (res_updatedAt
  r).

(** [VisitSessionParticipant], unique on (sessionId, userId) and (sessionId, networkCompanionId) *)
Record Participant := mkParticipant {
  par_sessionId : rowid;
  par_userId : rowid;
  par_networkCompanionId : rowid;
  par_assetPackSnapshotId : rowid;
  par_assetPackRefId : option rowid;
  par_role : ParticipantRole;
  par_state : ParticipantState;
  par_readyAt : option instant;
  par_seenAt : option instant;
  par_joinedAt : instant;
  par_leftAt : option instant;
  par_createdAt : instant;
  par_updatedAt : instant;
}.
#[export] Instance eta_Participant : Eta Participant := λ r, mkParticipant
  (par_sessionId r) (par_userId r) (par_networkCompanionId r)
  (par_assetPackSnapshotId r) (par_assetPackRefId r) (par_role r) (par_state
  r) (par_readyAt r) (par_seenAt r) (par_joinedAt r) (par_leftAt r)
  (par_createdAt r) (par_updatedAt r).

(** [VisitJoinRequest], unique on (sessionId, requesterUserId, status) *)
Record JoinRequest := mkJoinRequest {
  jr_sessionId : rowid;
  jr_requesterUserId : rowid;
  jr_networkCompanionId : rowid;
  jr_assetPackSnapshotId : rowid;
  jr_assetPackRefId : option rowid;
  jr_status : JoinStatus;
  jr_topic : TopicColumns;
  jr_expiresAt : instant;
  jr_respondedAt : option instant;
  jr_cancelledAt : option instant;
  jr_createdAt : instant;
  jr_updatedAt : instant;
}.
#[export] Instance eta_JoinRequest : Eta JoinRequest := λ r, mkJoinRequest
  (jr_sessionId r) (jr_requesterUserId r) (jr_networkCompanionId r)
  (jr_assetPackSnapshotId r) (jr_assetPackRefId r) (jr_status r) (jr_topic r)
  (jr_expiresAt r) (jr_respondedAt r) (jr_cancelledAt r) (jr_createdAt r)
  (jr_updatedAt r).

(** [VisitRoomTopic], unique on (sessionId, sequence) *)
Record RoomTopic := mkRoomTopic {
  rt_sessionId : rowid;
  rt_sequence : Z;
  rt_state : TopicState;
  rt_ownerCompanionId : rowid;
  rt_createdByUserId : rowid;
  rt_title : text;
  rt_summary : text;
  rt_tags : list text;
  rt_sourceUrl : option text;
  rt_shareScope : ShareScope;
  rt_allowRecipientSave : bool;
  rt_minimumTurns : Z;
  rt_maximumTurns : Z;
  rt_startedAt : option instant;
  rt_completedAt : option instant;
  rt_createdAt : instant;
  rt_updatedAt : instant;
}.
#[export] Instance eta_RoomTopic : Eta RoomTopic := λ r, mkRoomTopic
  (rt_sessionId r) (rt_sequence r) (rt_state r) (rt_ownerCompanionId r)
  (rt_createdByUserId r) (rt_title r) (rt_summary r) (rt_tags r) (rt_sourceUrl
  r) (rt_shareScope r) (rt_allowRecipientSave r) (rt_minimumTurns r)
  (rt_maximumTurns r) (rt_startedAt r) (rt_completedAt r) (rt_createdAt r)
  (rt_updatedAt r).

(** [VisitShareEnvelope], keyed by its unique sessionId; unique on roomTopicId *)
Record Share := mkShare {
  sh_rowId : rowid;
  sh_roomTopicId : option rowid;
  sh_title : text;
  sh_summary : text;
  sh_tags : list text;
  sh_sourceUrl : option text;
  sh_createdByUserId : rowid;
  sh_createdAt : instant;
}.
#[export] Instance eta_Share : Eta Share := λ r, mkShare (sh_rowId r)
  (sh_roomTopicId r) (sh_title r) (sh_summary r) (sh_tags r) (sh_sourceUrl r)
  (sh_createdByUserId r) (sh_createdAt r).

(** [VisitTurn], unique on (sessionId, sequence) and (sessionId, clientTurnId) *)
Record Turn := mkTurn {
  tu_sessionId : rowid;
  tu_sequence : Z;
  tu_clientTurnId : rowid;
  tu_senderUserId : rowid;
  tu_roomTopicId : option rowid;
  tu_intent : string;
  tu_message : text;
  tu_emotion : option string;
  tu_topic : option text;
  tu_createdAt : instant;
}.
#[export] Instance eta_Turn : Eta Turn := λ r, mkTurn (tu_sessionId r)
  (tu_sequence r) (tu_clientTurnId r) (tu_senderUserId r) (tu_roomTopicId r)
  (tu_intent r) (tu_message r) (tu_emotion r) (tu_topic r) (tu_createdAt r).

(** [VisitSharedMoment], keyed by its unique sessionId *)
Record Moment := mkMoment {
  mo_rowId : rowid;
  mo_title : text;
  mo_summary : text;
  mo_turnCount : Z;
  mo_createdAt : instant;
}.
#[export] Instance eta_Moment : Eta Moment := λ r, mkMoment (mo_rowId r)
  (mo_title r) (mo_summary r) (mo_turnCount r) (mo_createdAt r).

(** [VisitRelationshipSettlement], keyed by (sessionId, (companionLowId, companionHighId)) *)
Record Settlement := mkSettlement {
  se_rowId : rowid;
  se_turnCount : Z;
  se_topicTags : list text;
  se_createdAt : instant;
}.
#[export] Instance eta_Settlement : Eta Settlement := λ r, mkSettlement
  (se_rowId r) (se_turnCount r) (se_topicTags r) (se_createdAt r).

(** [CompanionRelationship], keyed by (companionLowId, companionHighId); the two scores are binary64 numbers *)
Record Relationship := mkRelationship {
  rel_rowId : rowid;
  rel_stage : RelationshipStage;
  rel_visitCount : Z;
  rel_interactionCount : Z;
  rel_totalTurnCount : Z;
  rel_rapportScore : SpecFloat.spec_float;
  rel_topicAffinityScore : SpecFloat.spec_float;
  rel_sharedTopicTags : list text;
  rel_firstMetAt : instant;
  rel_lastInteractionAt : instant;
}.
#[export] Instance eta_Relationship : Eta Relationship := λ r, mkRelationship
  (rel_rowId r) (rel_stage r) (rel_visitCount r) (rel_interactionCount r)
  (rel_totalTurnCount r) (rel_rapportScore r) (rel_topicAffinityScore r)
  (rel_sharedTopicTags r) (rel_firstMetAt r) (rel_lastInteractionAt r).

(** [AdminAuditLog] *)
Record AuditLog := mkAuditLog {
  au_id : rowid;
  au_adminUserId : rowid;
  au_action : string;
  au_targetType : string;
  au_targetId : option rowid;
  au_reason : option text;
  au_metadata : option json;
  au_createdAt : instant;
}.
#[export] Instance eta_AuditLog : Eta AuditLog := λ r, mkAuditLog
  (au_id r) (au_adminUserId r) (au_action r) (au_targetType r) (au_targetId r)
  (au_reason r) (au_metadata r) (au_createdAt r).


(** [Notification] *)
Record Notification := mkNotification {
  nt_userId : rowid;
  nt_type : text;
  nt_title : text;
  nt_message : text;
  nt_data : option json;
  nt_read : bool;
  nt_createdAt : instant;
}.
#[export] Instance eta_Notification : Eta Notification := λ r, mkNotification
  (nt_userId r) (nt_type r) (nt_title r) (nt_message r) (nt_data r) (nt_read r)
  (nt_createdAt r).

(** [Discovery] *)
Record Discovery := mkDiscovery {
  di_userId : rowid;
  di_title : text;
  di_description : option text;
  di_metadata : json;
  di_createdAt : instant;
}.
#[export] Instance eta_Discovery : Eta Discovery := λ r, mkDiscovery
  (di_userId r) (di_title r) (di_description r) (di_metadata r) (di_createdAt r).

(** [DeveloperDebugEvent] *)
Record DebugEvent := mkDebugEvent {
  de_clientEventId : text;
  de_userId : rowid;
  de_deviceId : rowid;
  de_kind : text;
  de_operation : option text;
  de_status : option text;
  de_provider : option text;
  de_model : option text;
  de_companionId : option text;
  de_correlationId : option text;
  de_cycleId : option text;
  de_turnId : option text;
  de_summary : option text;
  de_payload : json;
  de_errorCode : option text;
  de_errorMessage : option text;
  de_clientCreatedAt : instant;
  de_receivedAt : instant;
  de_expiresAt : instant;
}.
#[export] Instance eta_DebugEvent : Eta DebugEvent := λ r, mkDebugEvent
  (de_clientEventId r) (de_userId r) (de_deviceId r) (de_kind r)
  (de_operation r) (de_status r) (de_provider r) (de_model r)
  (de_companionId r) (de_correlationId r) (de_cycleId r) (de_turnId r)
  (de_summary r) (de_payload r) (de_errorCode r) (de_errorMessage r)
  (de_clientCreatedAt r) (de_receivedAt r) (de_expiresAt r).


(** ** The store *)

(** The tables *)
Record DB := mkDB {
  db_users : gmap rowid User;
  db_profiles : gmap rowid UserProfile;
  db_deviceSessions : gmap rowid DeviceSession;
  db_friendRequests : gmap rowid FriendRequest;
  db_friendships : gset (rowid * rowid);
  db_blockedUsers : gmap (rowid * rowid) instant;
  db_presences : gmap rowid Presence;
  db_companions : gmap rowid Companion;
  db_shareableTopics : gmap rowid ShareableTopic;
  db_assetPacks : gmap rowid AssetPack;
  db_assetFiles : gmap rowid AssetFile;
  db_invitations : gmap rowid Invitation;
  db_sessions : gmap rowid Session;
  db_reservations : gmap rowid Reservation;
  db_participants : gmap rowid Participant;
  db_readiness : gmap (rowid * rowid) (rowid * instant);
  db_joinRequests : gmap rowid JoinRequest;
  db_roomTopics : gmap rowid RoomTopic;
  db_shares : gmap rowid Share;
  db_turns : gmap rowid Turn;
  db_moments : gmap rowid Moment;
  db_settlements : gmap (rowid * (rowid * rowid)) Settlement;
  db_relationships : gmap (rowid * rowid) Relationship;
  db_auditLogs : list AuditLog;
  db_notifications : gmap rowid Notification;
  db_discoveries : gmap rowid Discovery;
  db_debugEvents : gmap rowid DebugEvent;
}.
#[export] Instance eta_DB : Eta DB := λ r, mkDB (db_users r)
  (db_profiles r) (db_deviceSessions r) (db_friendRequests r) (db_friendships r)
  (db_blockedUsers r) (db_presences r) (db_companions r) (db_shareableTopics
  r) (db_assetPacks r) (db_assetFiles r) (db_invitations r) (db_sessions r)
  (db_reservations r) (db_participants r) (db_readiness r) (db_joinRequests r)
  (db_roomTopics r) (db_shares r) (db_turns r) (db_moments r) (db_settlements
  r) (db_relationships r) (db_auditLogs r) (db_notifications r)
  (db_discoveries r) (db_debugEvents r).

Definition empty_db : DB :=
  mkDB ∅ ∅ ∅ ∅ ∅ ∅ ∅ ∅ ∅ ∅ ∅ ∅ ∅ ∅ ∅ ∅ ∅ ∅ ∅ ∅ ∅ ∅ ∅ [] ∅ ∅ ∅.

(** An event handed to the socket server for the room [user:<id>]. *)
Record Event := mkEvent { ev_userId : rowid; ev_event : string; ev_payload : list (string * json) }.

Record World := mkWorld { w_db : DB; w_events : list Event }.
#[export] Instance eta_World : Eta World := λ r, mkWorld (w_db r) (w_events r).

(** [SocialEventPublisher.publishToUser]: the event is emitted to the room of
    the user, if a server is attached. *)
Definition publishToUser (userId : rowid) (event : string) (payload : list (string * json)) : Act World unit :=
  act_modify (λ w, w <| w_events := w_events w ++ [mkEvent userId event payload] |>).

(** [this.prisma.$transaction(body)]: all of the body or nothing. *)
Definition transaction {A} (body : Tx DB A) : Act World A := λ w,
  match body (w_db w) with
  | Ok (a, d) => (Ok a, w <| w_db := d |>)
  | Err e => (Err e, w)
  end.

(** A single query outside a transaction. *)
Definition query {A} (f : DB → A) : Act World A := act_gets (f ∘ w_db).
Definition statement (f : DB → DB) : Act World unit := transaction (modify f).

Lemma query_run {A B} (f : DB → A) (g : A → Act World B) w : (query f ≫= g) w = g (f (w_db w)) w.
Proof. done. Qed.

Lemma transaction_ok {A} (body : Tx DB A) w a w' :
  transaction body w = (Ok a, w') ↔
  ∃ d, body (w_db w) = Ok (a, d) ∧ w' = w <| w_db := d |>.
Proof. unfold transaction. destruct (body (w_db w)) as [[b d]|e]; naive_solver. Qed.

Lemma transaction_err {A} (body : Tx DB A) w e w' :
  transaction body w = (Err e, w') ↔ body (w_db w) = Err e ∧ w' = w.
Proof. unfold transaction. destruct (body (w_db w)) as [[b d]|e']; naive_solver. Qed.

(** [step_inv] on service methods: reads and published events included. *)
Ltac service_inv :=
  unfold query, publishToUser in *; step_inv;
  repeat match goal with H : transaction _ _ = (Ok _, _) |- _ =>
    apply transaction_ok in H as (? & ? & ?) end;
  simplify_eq; cbn [w_db set] in *.

Lemma publishToUser_db userId event payload w :
  w_db (publishToUser userId event payload w).2 = w_db w.
Proof. done. Qed.

(** A published event leaves the database alone; so does a list of them. *)
Definition db_preserving {A} (m : Act World A) : Prop := ∀ w, w_db (m w).2 = w_db w.

Lemma db_preserving_bind {A B} (m : Act World A) (f : A → Act World B) :
  db_preserving m → (∀ a, db_preserving (f a)) → db_preserving (m ≫= f).
Proof.
  intros Hm Hf w. unfold mbind, act_bind. specialize (Hm w).
  destruct (m w) as [[a|e] w1]; simpl in *; [by rewrite Hf|done].
Qed.

Lemma db_preserving_for {A} (l : list A) (f : A → Act World unit) :
  (∀ a, db_preserving (f a)) → db_preserving (act_for l f).
Proof.
  intros Hf. induction l as [|x l IH]; simpl; [done|].
  by apply db_preserving_bind.
Qed.

Create HintDb ocn.
#[export] Hint Resolve db_preserving_bind db_preserving_for publishToUser_db : ocn.

(** ** Users as the services test them *)

(** [accountStatus === 'ACTIVE' && !deletionRequestedAt] *)
Definition user_open (u : User) : bool :=
  (u_accountStatus u == ACTIVE) && negb (is_set (u_deletionRequestedAt u)).

(** [user.count({ id: { in: ids }, accountStatus: 'ACTIVE',
    deletionRequestedAt: null })] *)
Definition count_open_users (ids : list rowid) (d : DB) : nat :=
  count_where (λ k u, bool_decide (k ∈ ids) && user_open u) (db_users d).

Definition open_user (d : DB) (id : rowid) : Prop :=
  ∃ u, db_users d !! id = Some u ∧ user_open u = true.

(** [blockedUser.findFirst({ OR: [{ first blocks second }, { second blocks
    first }] })] *)
Definition blocked_between (first second : rowid) (d : DB) : bool :=
  is_set (db_blockedUsers d !! (first, second)) || is_set (db_blockedUsers d !! (second, first)).

(** Both users are open accounts exactly when the count over the two distinct
    ids is 2. *)
Lemma count_open_users_two first second d :
  first ≠ second →
  count_open_users [first; second] d = 2%nat ↔ open_user d first ∧ open_user d second.
Proof.
  intros Hne. unfold count_open_users, count_where, open_user.
  set (m := filter _ (db_users d)).
  assert (∀ k u, m !! k = Some u ↔ db_users d !! k = Some u ∧ user_open u = true ∧ (k = first ∨ k = second)) as Hm.
  { intros k u. unfold m. rewrite map_lookup_filter_Some. simpl.
    rewrite andb_true_iff, bool_decide_eq_true. set_solver. }
  rewrite <- size_dom.
  assert (dom m ⊆@{gset rowid} {[first; second]}) as Hsub.
  { intros k [u Hk]%elem_of_dom. apply Hm in Hk. set_solver. }
  assert (size ({[first; second]} : gset rowid) = 2%nat) as Hsz.
  { rewrite size_union, !size_singleton; [done|set_solver]. }
  split.
  - intros Hs. assert (dom m ≡@{gset rowid} {[first; second]}) as Heq.
    { apply set_subseteq_size_equiv; [done|]. lia. }
    assert (first ∈ dom m ∧ second ∈ dom m) as [H1 H2] by (rewrite Heq; set_solver).
    apply elem_of_dom in H1 as [u1 H1], H2 as [u2 H2].
    apply Hm in H1, H2. naive_solver.
  - intros [(u1 & H1 & Ho1) (u2 & H2 & Ho2)].
    assert (dom m ≡@{gset rowid} {[first; second]}) as Heq.
    { apply set_equiv_subseteq. split; [done|]. intros k Hk. apply elem_of_dom.
      rewrite elem_of_union, !elem_of_singleton in Hk.
      destruct Hk as [-> | ->]; [exists u1|exists u2]; apply Hm; naive_solver. }
    rewrite (set_size_proper _ _ Heq). done.
Qed.
Lemma count_open_users_distinct first second d :
  count_open_users [first; second] d = 2%nat → first ≠ second.
Proof.
  intros Hc ->. unfold count_open_users, count_where in Hc.
  rewrite <- size_dom in Hc.
  assert (dom (filter (λ kr : rowid * User, bool_decide (kr.1 ∈ [second; second]) && user_open kr.2 = true)
            (db_users d)) ⊆@{gset rowid} {[second]}) as Hsub.
  { intros k [u Hk]%elem_of_dom. apply map_lookup_filter_Some in Hk as [_ Hk].
    apply andb_true_iff in Hk as [Hk _]. apply bool_decide_eq_true in Hk. set_solver. }
  apply subseteq_size in Hsub. rewrite size_singleton in Hsub. lia.
Qed.

(** ** A small concrete database for the witnesses *)

Definition demo_user (name : string) : User :=
  mkUser (lit name) (lit name) (lit name) (lit name) [] (lit name) USER ACTIVE None None None 0 0 None.
Definition demo_users : gmap rowid User :=
  list_to_map [("alice", demo_user "alice"); ("bob", demo_user "bob"); ("carol", demo_user "carol"); ("dave", demo_user "dave")].
