(* ===== verification/Interfaces.v ===== *)
(** * What the components promise each other

    [VisitGateway] is what the friend service uses of the visit service:
    the lists it shows, and [endSessionsBetween], with the promise that this
    method touches none of the social tables and leaves no live session between
    the two users. *)

From S2P Require Import Prelude Tables Json Schema.

(** The four tables the friend service owns. *)
Definition social_tables (d : DB) :=
  (db_users d, db_friendRequests d, db_friendships d, db_blockedUsers d).

(** A session that can still change: [SESSION_LIVE]. *)
Definition SESSION_LIVE : list SessionState := [S_preparing; S_ready; S_active; S_ending].
Definition live (st : SessionState) : bool := bool_decide (st ∈ SESSION_LIVE).

Definition session_between (a b : rowid) (s : Session) : bool :=
  ((ses_visitorOwnerUserId s == a) && (ses_hostUserId s == b))
  || ((ses_visitorOwnerUserId s == b) && (ses_hostUserId s == a)).

Class VisitGateway := {
  InvitationView : Type;
  SessionView : Type;
  listInvitations : rowid → option string → option InvitationStatus → DB → list InvitationView;
  listSessions : rowid → DB → list SessionView;
  endSessionsBetween : rowid → rowid → string → instant → Act World unit;
  endSessionsBetween_returns : ∀ a b reason now w,
    (endSessionsBetween a b reason now w).1 = Ok ();
  endSessionsBetween_frame : ∀ a b reason now w,
    social_tables (w_db (endSessionsBetween a b reason now w).2) = social_tables (w_db w);
  endSessionsBetween_ends : ∀ a b reason now w i s,
    db_sessions (w_db (endSessionsBetween a b reason now w).2) !! i = Some s →
    session_between a b s = true → live (ses_state s) = false;
}.
