(* ===== verification/JsNumber.v ===== *)
(** * JavaScript numbers

    A number is an IEEE 754 binary64 value ([SpecFloat] with the parameters of
    binary64).  [ToNumber] is [Number(text)] on the decimal, hexadecimal,
    octal and binary literals of ECMAScript; integers up to 2^53 - 1 are the
    ones [Number.isSafeInteger] accepts. *)

From Stdlib Require Import Floats.SpecFloat.
From S2P Require Import Prelude JsText.
Local Open Scope Z_scope.

Abbreviation number := spec_float (only parsing).
Abbreviation prec := 53 (only parsing).
Abbreviation emax := 1024 (only parsing).

Definition of_Z (n : Z) : number := binary_normalize prec emax n 0 false.

(** [m * 10^e] rounded to the nearest number, ties to even. *)
Definition of_decimal (negative : bool) (m e : Z) : number :=
  if m =? 0 then S754_zero negative else
  let s (x : number) := if negative then SFopp x else x in
  if 0 <=? e then s (binary_normalize prec emax (m * 10 ^ e) 0 false)
  else match m, 10 ^ (- e) with
       | Z.pos p, Z.pos q => s (SFdiv prec emax (S754_finite false p 0) (S754_finite false q 0))
       | _, _ => S754_nan
       end.

Definition digit (base c : Z) : option Z :=
  let v := if (48 <=? c) && (c <=? 57) then c - 48
           else if (97 <=? c) && (c <=? 122) then c - 87
           else if (65 <=? c) && (c <=? 90) then c - 55 else base in
  if v <? base then Some v else None.

(** The longest prefix of digits: its value, its length, and the rest. *)
Fixpoint digits (base acc len : Z) (l : text) : Z * Z * text :=
  match l with
  | c :: l' => match digit base c with
               | Some v => digits base (acc * base + v) (len + 1) l'
               | None => (acc, len, l)
               end
  | [] => (acc, len, [])
  end.

(** [ExponentPart] up to the end of the text *)
Definition exponent (l : text) : option Z :=
  match l with
  | [] => Some 0
  | c :: l' =>
      if (c =? 101) || (c =? 69) then
        let '(sign, l2) := match l' with
                           | d :: l2 => if d =? 45 then (-1, l2) else if d =? 43 then (1, l2) else (1, l')
                           | [] => (1, l')
                           end in
        match digits 10 0 0 l2 with
        | (e, n, []) => if 0 <? n then Some (sign * e) else None
        | _ => None
        end
      else None
  end.

(** [StrUnsignedDecimalLiteral] *)
Definition unsigned_decimal (negative : bool) (l : text) : number :=
  if bool_decide (l = lit "Infinity") then S754_infinity negative else
  let '(ip, n1, l1) := digits 10 0 0 l in
  match l1 with
  | c :: l2 =>
      if c =? 46 then
        let '(fp, n2, l3) := digits 10 ip 0 l2 in
        if 0 <? n1 + n2 then
          match exponent l3 with Some e => of_decimal negative fp (e - n2) | None => S754_nan end
        else S754_nan
      else if 0 <? n1 then
        match exponent l1 with Some e => of_decimal negative ip e | None => S754_nan end
      else S754_nan
  | [] => if 0 <? n1 then of_decimal negative ip 0 else S754_nan
  end.

Definition radix_literal (base : Z) (l : text) : number :=
  match digits base 0 0 l with
  | (v, n, []) => if 0 <? n then of_Z v else S754_nan
  | _ => S754_nan
  end.

(** [Number(text)] *)
Definition ToNumber (s : text) : number :=
  match trim s with
  | [] => S754_zero false
  | c :: l =>
      match c, l with
      | 48, d :: l' =>
          if (d =? 120) || (d =? 88) then radix_literal 16 l'
          else if (d =? 111) || (d =? 79) then radix_literal 8 l'
          else if (d =? 98) || (d =? 66) then radix_literal 2 l'
          else unsigned_decimal false (c :: l)
      | 45, _ => unsigned_decimal true l
      | 43, _ => unsigned_decimal false l
      | _, _ => unsigned_decimal false (c :: l)
      end
  end.

(** The integer a number is, if it is one. *)
Definition integer_of (x : number) : option Z :=
  match x with
  | S754_zero _ => Some 0
  | S754_finite s m e =>
      let v := if 0 <=? e then Z.pos m * 2 ^ e else Z.pos m / 2 ^ (- e) in
      if (0 <=? e) || (Z.pos m mod 2 ^ (- e) =? 0) then Some (if s then - v else v) else None
  | _ => None
  end.

Definition MAX_SAFE_INTEGER : Z := 2 ^ 53 - 1.

(** [Number.isSafeInteger(x)], with the integer *)
Definition safe_integer (x : number) : option Z :=
  match integer_of x with
  | Some n => if Z.abs n <=? MAX_SAFE_INTEGER then Some n else None
  | None => None
  end.

Definition is_finite (x : number) : bool :=
  match x with S754_zero _ | S754_finite _ _ _ => true | _ => false end.
Definition is_nan (x : number) : bool := match x with S754_nan => true | _ => false end.

(** [===] on numbers: NaN is unequal to itself. *)
Definition num_eqb (x y : number) : bool := SFeqb x y.
Definition num_gtb (x y : number) : bool := SFltb y x.
Definition num_geb (x y : number) : bool := SFleb y x.

(** The binary64 number nearest to an integer, ties to even: itself up to 2^53. *)
Definition round_double (n : Z) : Z :=
  if Z.abs n <=? 2 ^ 53 then n else
  let u := 2 ^ (Z.log2 (Z.abs n) - 52) in
  let q := n / u in
  let r := n mod u in
  if (2 * r <? u) || ((2 * r =? u) && Z.even q) then q * u else (q + 1) * u.

Lemma round_double_small n : Z.abs n ≤ 2 ^ 53 → round_double n = n.
Proof. intros Hn. unfold round_double. by rewrite (proj2 (Z.leb_le _ _)). Qed.

Lemma safe_integer_bound x n : safe_integer x = Some n → Z.abs n ≤ MAX_SAFE_INTEGER.
Proof.
  unfold safe_integer. destruct (integer_of x) as [m|]; [|done].
  destruct (Z.leb_spec (Z.abs m) MAX_SAFE_INTEGER); [|done]. by intros [= <-].
Qed.

Example ToNumber_15 : safe_integer (ToNumber (lit " 15 ")) = Some 15.
Proof. by vm_compute. Qed.
Example ToNumber_forms :
  (safe_integer ∘ ToNumber ∘ lit) <$> ["1.5e1"; "0x0f"; "150e-1"; ""; "-7"; "1.5"; "15s"; "9007199254740993"] =
  [Some 15; Some 15; Some 15; Some 0; Some (-7); None; None; None].
Proof. by vm_compute. Qed.
