(* ===== verification/Config.v ===== *)
(** * Configuration and paging

    [common/visit-config.service.ts], [common/protocol-config.service.ts] and
    [common/pagination.ts].  The configuration service of NestJS is a
    parameter: the function [config] from a key to the text of its variable. *)

From Stdlib Require Import Floats.SpecFloat.
From S2P Require Import Prelude Tables JsText JsNumber Schema.
Local Open Scope Z_scope.

(** ** Visit limits *)

Record VisitRuntimeLimits := mkVisitRuntimeLimits {
  invitationTtlHours : Z;
  preparationTtlMinutes : Z;
  sessionMaxMinutes : Z;
  heartbeatIntervalSeconds : Z;
  heartbeatTimeoutSeconds : Z;
}.

Section limits.
Variable config : string → option text.

Definition positiveInteger (key : string) (fallback min max : Z) : Z :=
  match config key with
  | None => fallback (* [String(fallback)] read back *)
  | Some value =>
      match safe_integer (ToNumber value) with
      | Some v => if (min <=? v) && (v <=? max) then v else fallback
      | None => fallback
      end
  end.

Definition limits : VisitRuntimeLimits :=
  let heartbeatIntervalSeconds := positiveInteger "VISIT_HEARTBEAT_INTERVAL_SECONDS" 15 5 60 in
  let configuredTimeout := positiveInteger "VISIT_HEARTBEAT_TIMEOUT_SECONDS" 60 1 300 in
  {| invitationTtlHours := positiveInteger "VISIT_INVITATION_TTL_HOURS" 24 1 168;
     preparationTtlMinutes := positiveInteger "VISIT_PREPARATION_TTL_MINUTES" 10 1 60;
     sessionMaxMinutes := positiveInteger "VISIT_SESSION_MAX_MINUTES" 30 5 240;
     heartbeatIntervalSeconds := heartbeatIntervalSeconds;
     heartbeatTimeoutSeconds :=
       Z.max (Z.max 30 configuredTimeout) (Z.max (heartbeatIntervalSeconds * 2) (heartbeatIntervalSeconds + 5)) |}.

Lemma positiveInteger_range key fallback min max :
  min ≤ fallback ≤ max → min ≤ positiveInteger key fallback min max ≤ max.
Proof.
  intros Hf. unfold positiveInteger.
  destruct (config key) as [value|]; [|done].
  destruct (safe_integer (ToNumber value)) as [v|]; [|done].
  destruct ((min <=? v) && (v <=? max)) eqn:E; [bool_inv; lia|done].
Qed.

(** Whatever the environment holds - text that is no number, fractions,
    huge values - every limit lies in its documented range, and the heartbeat
    timeout leaves room for two heartbeats and at least half a minute. *)
Theorem limits_in_range :
  1 ≤ invitationTtlHours limits ≤ 168 ∧ 1 ≤ preparationTtlMinutes limits ≤ 60 ∧
  5 ≤ sessionMaxMinutes limits ≤ 240 ∧ 5 ≤ heartbeatIntervalSeconds limits ≤ 60 ∧
  30 ≤ heartbeatTimeoutSeconds limits ≤ 300 ∧
  2 * heartbeatIntervalSeconds limits ≤ heartbeatTimeoutSeconds limits ∧
  heartbeatIntervalSeconds limits + 5 ≤ heartbeatTimeoutSeconds limits.
Proof.
  unfold limits; simpl.
  pose proof (positiveInteger_range "VISIT_INVITATION_TTL_HOURS" 24 1 168 ltac:(lia)).
  pose proof (positiveInteger_range "VISIT_PREPARATION_TTL_MINUTES" 10 1 60 ltac:(lia)).
  pose proof (positiveInteger_range "VISIT_SESSION_MAX_MINUTES" 30 5 240 ltac:(lia)).
  pose proof (positiveInteger_range "VISIT_HEARTBEAT_INTERVAL_SECONDS" 15 5 60 ltac:(lia)).
  pose proof (positiveInteger_range "VISIT_HEARTBEAT_TIMEOUT_SECONDS" 60 1 300 ltac:(lia)).
  lia.
Qed.
End limits.

(** ** Protocol compatibility *)

(** An element of an array of numbers; a missing one is [undefined], which
    compares as NaN. *)
Definition nth_number (i : nat) (l : list number) : number := default S754_nan (l !! i).

(** [===] between elements: [undefined === undefined] holds. *)
Definition elem_eqb (i : nat) (a b : list number) : bool :=
  match a !! i, b !! i with
  | Some x, Some y => num_eqb x y
  | None, None => true
  | _, _ => false
  end.

Definition atLeast (actual minimum : text) : bool :=
  let a := ToNumber <$> split_on 46 [] actual in
  let b := ToNumber <$> split_on 46 [] minimum in
  num_gtb (nth_number 0 a) (nth_number 0 b)
  || (elem_eqb 0 a b && (num_gtb (nth_number 1 a) (nth_number 1 b)
      || (elem_eqb 1 a b && num_geb (nth_number 2 a) (nth_number 2 b)))).

Record ProtocolConfig := mkProtocolConfig { protocolVersion : text; minimumClientVersion : text; serverVersion : text }.

Definition protocol_config (config : string → option text) : ProtocolConfig :=
  {| protocolVersion := default (lit "0.4") (config "PROTOCOL_VERSION");
     minimumClientVersion := default (lit "0.4.0") (config "MINIMUM_CLIENT_VERSION");
     serverVersion := default (lit "0.4.0") (config "SERVER_VERSION") |}.

Inductive Compatibility := Compatible | Incompatible (reason : string).

Definition isCompatible (p : ProtocolConfig) (clientVersion requestedProtocol : option text) : Compatibility :=
  if truthy_opt requestedProtocol && (requestedProtocol != Some (protocolVersion p))
  then Incompatible "UNSUPPORTED_PROTOCOL_VERSION"
  else if match clientVersion with
          | Some v => truthy v && negb (atLeast v (minimumClientVersion p))
          | None => false
          end
  then Incompatible "CLIENT_VERSION_TOO_OLD"
  else Compatible.

(** The capabilities of the storage service, and the feature flags they give. *)
Record StorageCapability := mkStorageCapability { sc_configured : bool; sc_uploadsEnabled : bool; sc_downloadsEnabled : bool }.
Definition storageCapability (storage : option StorageCapability) : StorageCapability :=
  default (mkStorageCapability false false false) storage.

Record Features := mkFeatures {
  ft_authentication : bool; ft_sockets : bool; ft_friends : bool; ft_presence : bool;
  ft_publicCompanions : bool; ft_assetPacks : bool;
  ft_visitInvitations : bool; ft_visitSessions : bool; ft_visualVisits : bool; ft_socialVisits : bool;
}.
Definition features (storage : option StorageCapability) : Features :=
  let c := storageCapability storage in
  let enabled := sc_uploadsEnabled c && sc_downloadsEnabled c in
  mkFeatures true true true true enabled enabled enabled enabled enabled enabled.

(** [requireFeature] of the visit service *)
Definition requireFeature (c : StorageCapability) : Act World unit :=
  act_require (sc_uploadsEnabled c && sc_downloadsEnabled c) (ServiceUnavailableException "VISIT_FEATURE_UNAVAILABLE").

(** ** Pages *)

Definition DEFAULT_PAGE_SIZE : Z := 20.
Definition MAX_PAGE_SIZE : Z := 100.

Record BoundedPage := mkBoundedPage { bp_page : Z; bp_limit : Z; bp_skip : Z; bp_take : Z }.

(** [Number.isSafeInteger(x) && Number(x) > 0 ? Number(x) : fallback] *)
Definition positive_or (x : option number) (fallback : Z) : Z :=
  match x ≫= safe_integer with
  | Some n => if 0 <? n then n else fallback
  | None => fallback
  end.

Definition boundedPage (page limit : option number) : BoundedPage :=
  let p := positive_or page 1 in
  let l := Z.min (positive_or limit DEFAULT_PAGE_SIZE) MAX_PAGE_SIZE in
  mkBoundedPage p l (round_double ((p - 1) * l)) l.

Inductive SortDirection := ASC | DESC.

(** Every list receives an id tie-breaker. *)
Definition stableOrderBy (field : string) (direction : SortDirection) : list (string * SortDirection) :=
  if bool_decide (field = "id") then [("id", direction)] else [(field, direction); ("id", direction)].

Record PageEnvelope (A : Type) := mkPageEnvelope { pe_items : list A; pe_page : Z; pe_limit : Z; pe_total : Z; pe_totalPages : Z }.
Arguments mkPageEnvelope {A}. Arguments pe_items {A}. Arguments pe_page {A}. Arguments pe_limit {A}.
Arguments pe_total {A}. Arguments pe_totalPages {A}.

(** [Math.ceil(total / page.limit)]; exact for the totals a table can have. *)
Definition pageEnvelope {A} (items : list A) (total : Z) (page : BoundedPage) : PageEnvelope A :=
  mkPageEnvelope items (bp_page page) (bp_limit page) total (- ((- total) / bp_limit page)).

(** What PostgreSQL answers to [skip]/[take] on an ordered query. *)
Definition page_of {A} (rows : list A) (page : BoundedPage) : PageEnvelope A :=
  pageEnvelope (take (Z.to_nat (bp_take page)) (drop (Z.to_nat (bp_skip page)) rows)) (Z.of_nat (length rows)) page.

(** Rows compared by a sequence of sort keys, as [ORDER BY] does. *)
Section order.
Context {R : Type} (column : string → R → Z).

Fixpoint order_le (keys : list (string * SortDirection)) (a b : R) : bool :=
  match keys with
  | [] => true
  | (f, dir) :: keys' =>
      let x := column f a in let y := column f b in
      if x =? y then order_le keys' a b
      else match dir with ASC => x <? y | DESC => y <? x end
  end.
End order.

Lemma positive_or_range x fallback :
  0 < fallback ≤ MAX_SAFE_INTEGER → 0 < positive_or x fallback ≤ MAX_SAFE_INTEGER.
Proof.
  intros Hf. unfold positive_or. destruct (x ≫= safe_integer) as [n|] eqn:E; [|done].
  destruct (Z.ltb_spec 0 n); [|done].
  apply bind_Some in E as (y & _ & E). apply safe_integer_bound in E. lia.
Qed.

(** Whatever page and limit a request carries - missing, fractional, NaN,
    negative, huge - the query is bounded: a positive page, between 1 and 100
    rows, and an exact offset as long as it is a safe integer. *)
Theorem boundedPage_bounds page limit :
  let b := boundedPage page limit in
  1 ≤ bp_page b ∧ 1 ≤ bp_limit b ≤ 100 ∧ bp_take b = bp_limit b ∧
  ((bp_page b - 1) * bp_limit b ≤ 2 ^ 53 → bp_skip b = (bp_page b - 1) * bp_limit b).
Proof.
  intros b. unfold b, boundedPage; simpl.
  pose proof (positive_or_range page 1 ltac:(done)).
  pose proof (positive_or_range limit DEFAULT_PAGE_SIZE ltac:(done)).
  unfold MAX_PAGE_SIZE. split_and!; try lia.
  intros Hle. apply round_double_small. rewrite Z.abs_eq; [done|]. nia.
Qed.

Lemma take_drop_pages {A} (rows : list A) (n k : nat) :
  (length rows ≤ n * k)%nat →
  concat ((λ i, take n (drop (i * n) rows)) <$> seq 0 k) = rows.
Proof.
  revert rows. induction k as [|k IH]; intros rows Hlen.
  - destruct rows; [done|]. simpl in Hlen. lia.
  - simpl. rewrite <- fmap_S_seq, <- list_fmap_compose.
    transitivity (take n rows ++ drop n rows); [|apply take_drop]. f_equal.
    etrans; [|apply (IH (drop n rows)); rewrite length_drop; lia].
    f_equal. apply list_fmap_ext. intros _ i _. simpl. by rewrite drop_drop.
Qed.

Lemma boundedPage_page x i limit :
  x ≫= safe_integer = Some (Z.of_nat i + 1) → bp_page (boundedPage x limit) = Z.of_nat i + 1.
Proof. intros Hx. simpl. unfold positive_or. rewrite Hx. destruct (Z.ltb_spec 0 (Z.of_nat i + 1)); lia. Qed.

Lemma requested_pages {A} (rows : list A) (limit : option number) (requests : list (option number)) :
  Z.of_nat (length rows) ≤ 2 ^ 52 →
  (λ x, x ≫= safe_integer) <$> requests =
    (λ i, Some (Z.of_nat i + 1)) <$> seq 0 (Z.to_nat (pe_totalPages (page_of rows (boundedPage None limit)))) →
  concat ((λ x, pe_items (page_of rows (boundedPage x limit))) <$> requests) = rows.
Proof.
  intros Hlen Hreq. simpl in Hreq.
  set (l := Z.min (positive_or limit DEFAULT_PAGE_SIZE) MAX_PAGE_SIZE) in *.
  pose proof (positive_or_range limit DEFAULT_PAGE_SIZE ltac:(done)) as Hl0.
  assert (1 ≤ l ≤ 100) as Hl by (unfold l, MAX_PAGE_SIZE; lia).
  set (k := Z.to_nat (- (- Z.of_nat (length rows) / l))) in *.
  assert (Z.of_nat (length rows) ≤ l * Z.of_nat k ∧ l * (Z.of_nat k - 1) ≤ Z.of_nat (length rows)) as [Hk1 Hk2].
  { pose proof (Z.div_mod (- Z.of_nat (length rows)) l ltac:(lia)).
    pose proof (Z.mod_pos_bound (- Z.of_nat (length rows)) l ltac:(lia)).
    unfold k. rewrite Z2Nat.id; nia. }
  etrans; [|apply (take_drop_pages rows (Z.to_nat l) k); nia].
  f_equal. apply list_eq. intros i. rewrite !list_lookup_fmap.
  apply (f_equal (lookup i)) in Hreq. rewrite !list_lookup_fmap in Hreq.
  destruct (seq 0 k !! i) as [j|] eqn:Ej; simpl in *.
  - apply lookup_seq in Ej as [-> Hi]. destruct (requests !! i) as [x|]; simplify_eq/=.
    f_equal. pose proof (boundedPage_page x i limit Hreq) as Hp. simpl in Hp.
    unfold page_of, pageEnvelope; simpl. fold l. rewrite Hp.
    rewrite round_double_small by (rewrite Z.abs_eq; nia).
    f_equal. f_equal. nia.
  - by destruct (requests !! i).
Qed.

(** The pages of a list, requested in order up to the [totalPages] of any of
    them, are together the list: no row is lost or repeated between pages. *)
Theorem pages_partition {A} (rows : list A) (limit : option number) (requests : list (option number)) :
  Z.of_nat (length rows) ≤ 2 ^ 52 →
  (λ x, x ≫= safe_integer) <$> requests =
    (λ i, Some (Z.of_nat i + 1)) <$> seq 0 (Z.to_nat (pe_totalPages (page_of rows (boundedPage None limit)))) →
  concat ((λ x, pe_items (page_of rows (boundedPage x limit))) <$> requests) = rows.
Proof. apply requested_pages. Qed.

(** Two rows that no sort key separates are the same row: with the id
    tie-breaker an ordered list has one order only, whatever the sort field. *)
Theorem stableOrderBy_total {R} (column : string → R → Z) field direction (a b : R) :
  (∀ x y, column "id" x = column "id" y → x = y) →
  order_le column (stableOrderBy field direction) a b = true →
  order_le column (stableOrderBy field direction) b a = true → a = b.
Proof.
  intros Hid. unfold stableOrderBy.
  case_bool_decide as Hf; simpl; intros H1 H2; apply Hid;
    repeat match goal with
    | H : (if ?x =? ?y then _ else _) = true |- _ => destruct (Z.eqb_spec x y)
    | H : match direction with _ => _ end = true |- _ => destruct direction
    end; bool_inv; lia.
Qed.

Lemma num_eqb_not_gtb x y : num_eqb x y = true → num_gtb x y = false.
Proof.
  unfold num_eqb, num_gtb, SFeqb, SFltb.
  destruct x as [[]|[]| |[] m1 e1], y as [[]|[]| |[] m2 e2]; simpl; try done.
  all: rewrite (Z.compare_antisym e1 e2); destruct (e1 ?= e2) eqn:Ee; simpl; try done.
  all: change (Pos.compare_cont Eq) with Pos.compare; rewrite (Pos.compare_antisym m1 m2);
    by destruct (m1 ?= m2)%positive.
Qed.

(** Versions are compared component by component from the left, as their
    numeric values, when every component is a number. *)
Theorem atLeast_lexicographic actual minimum a0 a1 a2 b0 b1 b2 :
  ToNumber <$> split_on 46 [] actual = [a0; a1; a2] →
  ToNumber <$> split_on 46 [] minimum = [b0; b1; b2] →
  is_nan a0 = false → is_nan a1 = false → is_nan b0 = false → is_nan b1 = false →
  atLeast actual minimum =
  if num_eqb a0 b0 then (if num_eqb a1 b1 then num_geb a2 b2 else num_gtb a1 b1) else num_gtb a0 b0.
Proof.
  intros Ha Hb N1 N2 N3 N4. unfold atLeast. rewrite Ha, Hb. simpl.
  pose proof num_eqb_not_gtb as Heq.
  unfold elem_eqb, nth_number. simpl.
  destruct (num_eqb a0 b0) eqn:E0; simpl; [rewrite (Heq _ _ E0)|by rewrite orb_false_r].
  destruct (num_eqb a1 b1) eqn:E1; simpl; [by rewrite (Heq _ _ E1)|by rewrite orb_false_r].
Qed.

(** ** Witnesses *)

Lemma pages_partition_witness :
  concat ((λ x, pe_items (page_of [5; 6; 7] (boundedPage x (Some (of_Z 2))))) <$>
    [Some (ToNumber (lit "1")); Some (ToNumber (lit "2"))]) = [5; 6; 7].
Proof. apply (pages_partition [5; 6; 7] (Some (of_Z 2))); [by vm_compute|by vm_compute]. Defined.

Lemma stableOrderBy_total_witness :
  order_le (λ _ r, r) (stableOrderBy "createdAt" DESC) 4 4 = true ∧ 4 = 4.
Proof.
  split; [by vm_compute|].
  apply (stableOrderBy_total (λ (_ : string) (r : Z), r) "createdAt" DESC 4 4); [done|by vm_compute|by vm_compute].
Defined.

Lemma atLeast_lexicographic_witness :
  atLeast (lit "0.10.0") (lit "0.4.0") = true ∧ atLeast (lit "0.3.99") (lit "0.4.0") = false.
Proof.
  split; [|by vm_compute].
  rewrite (atLeast_lexicographic (lit "0.10.0") (lit "0.4.0") (of_Z 0) (of_Z 10) (of_Z 0) (of_Z 0) (of_Z 4) (of_Z 0));
    by vm_compute.
Defined.
