(* ===== verification/RateLimit.v ===== *)
(** * Rate limiters ([common/guards/*-rate-limit.guard.ts],
    [SocketAuthService.allowAttempt])

    Four limiters keep, per key, the times of the requests they admitted, in a
    JavaScript [Map] from which the oldest key is dropped beyond 10,000 keys.
    They are instances of one interface, [Limiter], against which their
    exactness is proved. *)

From S2P Require Import Prelude Tables JsText JsNumber Json Schema.
Local Open Scope Z_scope.

(** ** The map: keys in insertion order *)

Abbreviation attempts := (list (string * list instant)) (only parsing).
Fixpoint map_get (k : string) (m : attempts) : list instant :=
  match m with [] => [] | kv :: m' => if kv.1 == k then kv.2 else map_get k m' end.
Fixpoint map_set (k : string) (v : list instant) (m : attempts) : attempts :=
  match m with
  | [] => [(k, v)]
  | kv :: m' => if kv.1 == k then (k, v) :: m' else kv :: map_set k v m'
  end.
Definition map_delete (k : string) (m : attempts) : attempts := filter (λ kv, kv.1 ≠ k) m.
Definition MAX_KEYS : nat := 10000.
(** [if (attempts.size > 10_000) attempts.delete(attempts.keys().next().value)] *)
Definition evict (m : attempts) : attempts := if bool_decide (MAX_KEYS < length m)%nat then tail m else m.

(** The times of [k] less than [window] ago. *)
Definition recent_of (window : Z) (now : instant) (ts : list instant) : list instant := filter (λ t, now - t < window) ts.

(** ** The guards *)

Inductive Verdict := Passed | Refused (status : Z).

(** [AuthRateLimitGuard.canActivate], on the key [ip:path] *)
Definition auth_key (ip path : string) : string := ip +:+ ":" +:+ path.
Definition authRateLimit (key : string) (now : instant) (m : attempts) : Verdict * attempts :=
  let recent := recent_of 60000 now (map_get key m) in
  let m1 := match recent with [] => map_delete key m | _ => m end in
  if 10 <=? Z.of_nat (length recent) then (Refused 429, m1)
  else (Passed, evict (map_set key (recent ++ [now]) m1)).

(** [PortalRateLimitGuard.canActivate] *)
Definition portal_read (method : string) : bool := bool_decide (method ∈ ["GET"; "HEAD"; "OPTIONS"]).
Definition portal_key (userId : option string) (ip : string) (read : bool) : string :=
  default ip userId +:+ ":" +:+ (if read then "read" else "write").
Definition portalRateLimit (userId : option string) (ip method : string) (now : instant) (m : attempts) : Verdict * attempts :=
  let read := portal_read method in
  let key := portal_key userId ip read in
  let recent := recent_of 60000 now (map_get key m) in
  if (if read then 120 else 30) <=? Z.of_nat (length recent) then (Refused 429, m)
  else (Passed, evict (map_set key (recent ++ [now]) m)).

(** [SocialRateLimitPolicy] and [POLICIES] *)
Inductive Policy :=
  | read | lookup_ | friend_request_create | mutation | block_mutation | companion_profile | asset_initiate
  | asset_upload_urls | asset_complete | asset_download_urls | visit_read | visit_create | visit_mutation
  | visit_heartbeat | visit_asset_urls.
#[export] Instance Policy_eq_dec : EqDecision Policy.
Proof. solve_decision. Defined.
Definition all_policies : list Policy :=
  [read; lookup_; friend_request_create; mutation; block_mutation; companion_profile; asset_initiate; asset_upload_urls;
   asset_complete; asset_download_urls; visit_read; visit_create; visit_mutation; visit_heartbeat; visit_asset_urls].
Definition policy_name (p : Policy) : string :=
  match p with
  | read => "read" | lookup_ => "lookup" | friend_request_create => "friend_request_create" | mutation => "mutation"
  | block_mutation => "block_mutation" | companion_profile => "companion_profile" | asset_initiate => "asset_initiate"
  | asset_upload_urls => "asset_upload_urls" | asset_complete => "asset_complete" | asset_download_urls => "asset_download_urls"
  | visit_read => "visit_read" | visit_create => "visit_create" | visit_mutation => "visit_mutation"
  | visit_heartbeat => "visit_heartbeat" | visit_asset_urls => "visit_asset_urls"
  end.
(** (windowMs, limit) *)
Definition POLICIES (p : Policy) : Z * Z :=
  match p with
  | read => (60000, 120) | lookup_ => (60000, 30) | friend_request_create => (3600000, 10) | mutation => (3600000, 60)
  | block_mutation => (3600000, 30) | companion_profile => (3600000, 30) | asset_initiate => (3600000, 10)
  | asset_upload_urls => (60000, 120) | asset_complete => (3600000, 20) | asset_download_urls => (60000, 120)
  | visit_read => (60000, 120) | visit_create => (3600000, 10) | visit_mutation => (60000, 30)
  | visit_heartbeat => (60000, 12) | visit_asset_urls => (60000, 60)
  end.

Definition colon : Ascii.ascii := Ascii.ascii_of_nat 58.
(** [key.slice(key.lastIndexOf(':') + 1)] *)
Fixpoint after_last_colon (s : string) : string :=
  match s with
  | String c s' => if existsb (Ascii.eqb colon) (String.list_ascii_of_string s') then after_last_colon s'
                   else if Ascii.eqb colon c then s' else s
  | EmptyString => ""
  end.
(** [POLICIES[policy]?.windowMs ?? POLICIES.mutation.windowMs] *)
Definition key_policy (key : string) : Policy :=
  default mutation (snd <$> list_find (λ p, policy_name p = after_last_colon key) all_policies).

Definition social_key (userId : option string) (p : Policy) : string := default "anonymous" userId +:+ ":" +:+ policy_name p.

(** [cleanup] *)
Definition cleanup (now : instant) (m : attempts) : attempts :=
  let kept := omap (λ kv, match recent_of (POLICIES (key_policy kv.1)).1 now kv.2 with [] => None | ts => Some (kv.1, ts) end) m in
  drop (length kept - MAX_KEYS) kept.

(** [SocialRateLimitGuard.canActivate]; [smoke] is the conjunction of the three
    environment variables of the smoke test. *)
Definition socialRateLimit (smoke : bool) (userId : option string) (policy : option Policy) (now : instant) (m : attempts) : Verdict * attempts :=
  if smoke then (Passed, m) else
  let p := default mutation policy in
  let key := social_key userId p in
  let recent := recent_of (POLICIES p).1 now (map_get key m) in
  if (POLICIES p).2 <=? Z.of_nat (length recent) then (Refused 429, m)
  else (Passed, cleanup now (map_set key (recent ++ [now]) m)).

(** [SocketAuthService.allowAttempt]; [limit] is the number read from
    [SOCKET_AUTH_RATE_LIMIT]. *)
Definition allowAttempt (limit : number) (address : string) (now : instant) (m : attempts) : bool * attempts :=
  let recent := recent_of 60000 now (map_get address m) in
  let m1 := match recent with [] => map_delete address m | _ => m end in
  if num_geb (of_Z (Z.of_nat (length recent))) limit then (false, m1)
  else (true, evict (map_set address (recent ++ [now]) m1)).

(** ** What a limiter promises *)

Class Limiter (Req : Type) := {
  rkey : Req → string;
  window : string → Z;
  capacity : string → Z;
  attempt : Req → instant → attempts → bool * attempts;
  well_kept : attempts → Prop;
  well_kept_empty : well_kept [];
  (** With at most 10,000 keys [K] around, an attempt is admitted exactly when
      less than [capacity] attempts are recorded in its window, and records
      itself; what other keys recorded stays, as far as it is recent. *)
  attempt_spec K r now m :
    well_kept m → NoDup K → (length K ≤ MAX_KEYS)%nat → rkey r ∈ K → (∀ k, k ∈ m.*1 → k ∈ K) →
    let '(b, m') := attempt r now m in
    well_kept m' ∧ (∀ k, k ∈ m'.*1 → k ∈ K) ∧
    b = (Z.of_nat (length (recent_of (window (rkey r)) now (map_get (rkey r) m))) <? capacity (rkey r)) ∧
    ∀ k now', now ≤ now' → recent_of (window k) now' (map_get k m') =
      recent_of (window k) now' (map_get k m ++ if b && (k == rkey r) then [now] else []);
}.

(** Requests in the order they arrive, and the log of those admitted. *)
Definition log_of (k : string) (log : list (string * instant)) : list instant := snd <$> filter (λ kt, kt.1 = k) log.
Fixpoint run {Req} `{!Limiter Req} (reqs : list (Req * instant)) (log : list (string * instant)) (m : attempts) : list (string * instant) * attempts :=
  match reqs with
  | [] => (log, m)
  | (r, now) :: reqs' =>
      let '(b, m') := attempt r now m in
      run reqs' (if b then log ++ [(rkey r, now)] else log) m'
  end.

(** Times that never go back. *)
Fixpoint in_time {Req} (since : instant) (reqs : list (Req * instant)) : Prop :=
  match reqs with [] => True | (_, now) :: reqs' => since ≤ now ∧ in_time now reqs' end.
Fixpoint last_time {Req} (since : instant) (reqs : list (Req * instant)) : instant :=
  match reqs with [] => since | (_, now) :: reqs' => last_time now reqs' end.

Section limiter.
Context {Req : Type} `{!Limiter Req}.

Lemma log_of_snoc k log k0 t : log_of k (log ++ [(k0, t)]) = log_of k log ++ (if k == k0 then [t] else []).
Proof.
  unfold log_of. rewrite filter_app, fmap_app. f_equal. rewrite filter_cons. simpl.
  destruct (decide (k0 = k)) as [->|]; [by rewrite bool_decide_eq_true_2|by rewrite bool_decide_eq_false_2 by congruence].
Qed.

Lemma recent_of_app w now l1 l2 : recent_of w now (l1 ++ l2) = recent_of w now l1 ++ recent_of w now l2.
Proof. apply filter_app. Qed.

(** The map keeps the recent part of the log, and the log keeps the limit. *)
Record Kept (K : list string) (since : instant) (log : list (string * instant)) (m : attempts) : Prop := {
  kp_map : well_kept m;
  kp_keys k : k ∈ m.*1 → k ∈ K;
  kp_recent k now : since ≤ now → recent_of (window k) now (map_get k m) = recent_of (window k) now (log_of k log);
  kp_past k t : t ∈ log_of k log → t ≤ since;
  kp_bound k t : Z.of_nat (length (filter (λ t', t - window k < t' ≤ t) (log_of k log))) ≤ Z.max 0 (capacity k);
}.

Lemma Kept_empty K since : Kept K since [] [].
Proof. split; [apply well_kept_empty|set_solver|done|set_solver|]. intros k t. unfold log_of. simpl. lia. Qed.

Lemma filter_length_le {A} (P Q : A → Prop) `{!∀ x, Decision (P x), !∀ x, Decision (Q x)} (l : list A) :
  (∀ x, x ∈ l → P x → Q x) → (length (filter P l) ≤ length (filter Q l))%nat.
Proof.
  induction l as [|x l IH]; intros Hl; [done|]. rewrite !filter_cons.
  assert (length (filter P l) ≤ length (filter Q l))%nat by (apply IH; set_solver).
  repeat case_decide; simpl; try lia. exfalso. set_solver.
Qed.

Lemma Kept_step K since log m r now :
  Kept K since log m → NoDup K → (length K ≤ MAX_KEYS)%nat → rkey r ∈ K → since ≤ now →
  let '(b, m') := attempt r now m in
  b = (Z.of_nat (length (recent_of (window (rkey r)) now (log_of (rkey r) log))) <? capacity (rkey r)) ∧
  Kept K now (if b then log ++ [(rkey r, now)] else log) m'.
Proof.
  intros [Hm Hk Hr Hp Hb] HK HN Hin Hle. pose proof (attempt_spec K r now m Hm HK HN Hin Hk) as Hspec.
  destruct (attempt r now m) as [b m']. destruct Hspec as (Hm' & Hk' & Eb & Hrec).
  rewrite (Hr _ _ Hle) in Eb. split; [done|].
  assert (∀ k, log_of k (if b then log ++ [(rkey r, now)] else log) = log_of k log ++ if b && (k == rkey r) then [now] else []) as Hlog.
  { intros k. destruct b; [apply log_of_snoc|by rewrite app_nil_r]. }
  split; [done|done|..].
  - intros k now' Hnow. rewrite Hlog, Hrec by done. rewrite !recent_of_app, Hr by lia. done.
  - intros k t. rewrite Hlog. intros [Ht%Hp|Ht]%elem_of_app; [lia|]. destruct (b && _); [|set_solver]. apply list_elem_of_singleton in Ht. lia.
  - intros k t. rewrite Hlog, filter_app, length_app. destruct b; [|simpl; rewrite Nat.add_0_r; apply Hb].
    destruct (k == rkey r) eqn:Ek; simpl; [|rewrite Nat.add_0_r; apply Hb]. bool_inv. subst k.
    symmetry in Eb. apply Z.ltb_lt in Eb. rewrite filter_cons, filter_nil. case_decide as Hd; [|simpl; rewrite Nat.add_0_r; apply Hb].
    transitivity (Z.of_nat (length (recent_of (window (rkey r)) now (log_of (rkey r) log)) + 1)); [|lia].
    apply inj_le, Nat.add_le_mono_r.
    apply filter_length_le. intros x _ ?. lia.
Qed.

Lemma Kept_run K since reqs log m :
  Kept K since log m → NoDup K → (length K ≤ MAX_KEYS)%nat → (∀ r t, (r, t) ∈ reqs → rkey r ∈ K) → in_time since reqs →
  Kept K (last_time since reqs) (run reqs log m).1 (run reqs log m).2.
Proof.
  revert since log m. induction reqs as [|[r now] reqs IH]; intros since log m Hkept HK HN Hin; simpl; [done|]. intros [Hle Ht].
  assert (rkey r ∈ K) as Hr by (apply (Hin r now); set_solver).
  pose proof (Kept_step K since log m r now Hkept HK HN Hr Hle) as Hs. destruct (attempt r now m) as [b m'].
  apply IH; [apply Hs|done|done|set_solver|done].
Qed.
End limiter.

(** ** The map *)

Lemma map_get_set k v m k' : map_get k' (map_set k v m) = if k' == k then v else map_get k' m.
Proof.
  induction m as [|kv m IH]; simpl.
  - destruct (k == k') eqn:E; destruct (k' == k) eqn:E'; bool_inv; congruence.
  - destruct (kv.1 == k) eqn:E; simpl.
    + destruct (k == k') eqn:E1; destruct (k' == k) eqn:E2; bool_inv; try congruence.
      rewrite bool_decide_eq_false_2 by congruence. done.
    + rewrite IH. destruct (kv.1 == k') eqn:E1; destruct (k' == k) eqn:E2; bool_inv; congruence.
Qed.
Lemma map_get_delete k m k' : map_get k' (map_delete k m) = if k' == k then [] else map_get k' m.
Proof.
  unfold map_delete. induction m as [|kv m IH]; [by destruct (k' == k)|].
  rewrite filter_cons. cbn [map_get]. destruct (decide (kv.1 ≠ k)) as [E|E%dec_stable]; cbn [map_get]; rewrite ?IH; destruct (kv.1 == k') eqn:E1; destruct (k' == k) eqn:E2; bool_inv; congruence.
Qed.
Lemma map_set_keys k v m k' : k' ∈ (map_set k v m).*1 ↔ k' = k ∨ k' ∈ m.*1.
Proof.
  induction m as [|kv m IH]; simpl; [set_solver|]. destruct (kv.1 == k) eqn:E; simpl; bool_inv; [set_solver|].
  rewrite !elem_of_cons, IH. naive_solver.
Qed.
Lemma map_set_NoDup k v m : NoDup m.*1 → NoDup (map_set k v m).*1.
Proof.
  induction m as [|kv m IH]; simpl; [by intros; apply NoDup_singleton|]. intros [Hn Hm]%NoDup_cons.
  destruct (kv.1 == k) eqn:E; simpl; bool_inv; apply NoDup_cons; [by subst|]. rewrite map_set_keys. naive_solver.
Qed.
Lemma map_delete_keys k m k' : k' ∈ (map_delete k m).*1 → k' ∈ m.*1.
Proof. unfold map_delete. rewrite !list_elem_of_fmap. intros (kv & -> & [_ ?]%list_elem_of_filter). eauto. Qed.
Lemma map_delete_NoDup k m : NoDup m.*1 → NoDup (map_delete k m).*1.
Proof. unfold map_delete. intros Hm. eapply sublist_NoDup; [exact Hm|]. apply fmap_sublist, sublist_filter. Qed.
Lemma keys_few (K : list string) (m : attempts) :
  NoDup m.*1 → (∀ k, k ∈ m.*1 → k ∈ K) → (length K ≤ MAX_KEYS)%nat → (length m ≤ MAX_KEYS)%nat.
Proof.
  intros Hm HK Hl. etrans; [|exact Hl]. rewrite <- (length_fmap fst m). by apply submseteq_length, NoDup_submseteq.
Qed.
Lemma evict_few m : (length m ≤ MAX_KEYS)%nat → evict m = m.
Proof. intros Hm. unfold evict. by rewrite bool_decide_eq_false_2 by lia. Qed.

Lemma recent_of_recent w now now' ts : now ≤ now' → recent_of w now' (recent_of w now ts) = recent_of w now' ts.
Proof. intros Hle. unfold recent_of. rewrite list_filter_filter_l; [done|]. intros; lia. Qed.
Lemma recent_of_nil w now now' ts : now ≤ now' → recent_of w now ts = [] → recent_of w now' ts = [].
Proof. intros Hle E. by rewrite <- (recent_of_recent w now now' ts Hle), E. Qed.

(** The two shapes the guards share: forget an empty key, record an attempt. *)
Definition forget_empty (key : string) (recent : list instant) (m : attempts) : attempts :=
  match recent with [] => map_delete key m | _ => m end.

Lemma forget_empty_get w key now m k now' :
  now ≤ now' → recent_of w now' (map_get k (forget_empty key (recent_of w now (map_get key m)) m)) = recent_of w now' (map_get k m).
Proof.
  intros Hle. unfold forget_empty. destruct (recent_of w now (map_get key m)) eqn:E; [|done].
  rewrite map_get_delete. destruct (k == key) eqn:Ek; [|done]. bool_inv. subst. symmetry. by eapply recent_of_nil.
Qed.
Lemma forget_empty_kept key recent m : NoDup m.*1 → NoDup (forget_empty key recent m).*1.
Proof. destruct recent; [apply map_delete_NoDup|done]. Qed.
Lemma forget_empty_keys key recent m k : k ∈ (forget_empty key recent m).*1 → k ∈ m.*1.
Proof. destruct recent; [apply map_delete_keys|done]. Qed.

Lemma record_get w key now m m1 k now' :
  now ≤ now' → (∀ k' t, now ≤ t → recent_of w t (map_get k' m1) = recent_of w t (map_get k' m)) →
  recent_of w now' (map_get k (map_set key (recent_of w now (map_get key m) ++ [now]) m1)) =
  recent_of w now' (map_get k m ++ if k == key then [now] else []).
Proof.
  intros Hle Hm1. rewrite map_get_set. destruct (k == key) eqn:E; bool_inv.
  - subst. rewrite !recent_of_app. f_equal. by apply recent_of_recent.
  - rewrite app_nil_r. by apply Hm1.
Qed.

(** ** The guards are limiters *)

Definition passed (v : Verdict * attempts) : bool * attempts := (match v.1 with Passed => true | Refused _ => false end, v.2).

#[export] Instance auth_limiter : Limiter string.
Proof.
  refine {| rkey := id; window := λ _, 60000; capacity := λ _, 10; well_kept m := NoDup m.*1;
            attempt k now m := passed (authRateLimit k now m) |}; [constructor|].
  intros K key now m Hm HK HN Hin Hkeys. unfold authRateLimit, passed. cbv zeta. fold (forget_empty key (recent_of 60000 now (map_get key m)) m).
  unfold id. rewrite Z.leb_antisym. destruct (_ <? 10); cbn [negb fst snd andb].
  - rewrite evict_few.
    + split_and!; [by apply map_set_NoDup, forget_empty_kept| |done|].
      * intros k [->|?%forget_empty_keys]%map_set_keys; auto.
      * intros k now' Hle. apply record_get; [done|]. intros. by apply forget_empty_get.
    + eapply keys_few; [by apply map_set_NoDup, forget_empty_kept| |exact HN]. intros k [->|?%forget_empty_keys]%map_set_keys; auto.
  - split_and!; [by apply forget_empty_kept|intros k ?%forget_empty_keys; auto|done|].
    intros k now' Hle. rewrite app_nil_r. by apply forget_empty_get.
Defined.

Lemma list_ascii_app (s t : string) : String.list_ascii_of_string (s +:+ t) = String.list_ascii_of_string s ++ String.list_ascii_of_string t.
Proof. induction s as [|c s IH]; simpl; [done|by rewrite IH]. Qed.

(** The part after the last colon of an identifier, a colon and a name without
    colons is the name. *)
Lemma after_last_colon_app s name :
  existsb (Ascii.eqb colon) (String.list_ascii_of_string name) = false → after_last_colon (s +:+ ":" +:+ name) = name.
Proof.
  intros Hn. induction s as [|c s IH].
  - change (after_last_colon (String colon name) = name). cbn [after_last_colon]. by rewrite Hn.
  - change (after_last_colon (String c (s +:+ ":" +:+ name)) = name). cbn [after_last_colon].
    rewrite list_ascii_app, existsb_app.
    change (existsb (Ascii.eqb colon) (String.list_ascii_of_string (":" +:+ name))) with (true || existsb (Ascii.eqb colon) (String.list_ascii_of_string name)).
    rewrite orb_true_l, orb_true_r. exact IH.
Qed.

Lemma key_policy_social u p : key_policy (social_key u p) = p.
Proof.
  unfold key_policy, social_key. rewrite after_last_colon_app by (by destruct p).
  destruct p; vm_compute; reflexivity.
Qed.
Definition portal_reads (key : string) : bool := after_last_colon key == "read".
Lemma portal_reads_key u ip r : portal_reads (portal_key u ip r) = r.
Proof. unfold portal_reads, portal_key. rewrite after_last_colon_app by (by destruct r). by destruct r. Qed.

#[export] Instance portal_limiter : Limiter (option string * string * string).
Proof.
  refine {| rkey r := portal_key r.1.1 r.1.2 (portal_read r.2); window := λ _, 60000;
            capacity := λ k, if portal_reads k then 120 else 30; well_kept m := NoDup m.*1;
            attempt r now m := passed (portalRateLimit r.1.1 r.1.2 r.2 now m) |}; [constructor|].
  intros K [[u ip] method] now m Hm HK HN Hin Hkeys. unfold portalRateLimit, passed. cbv zeta. cbn [fst snd] in *.
  rewrite portal_reads_key. rewrite Z.leb_antisym. destruct (_ <? _); cbn [negb fst snd andb].
  - rewrite evict_few.
    + split_and!; [by apply map_set_NoDup| |done|].
      * intros k [->|?]%map_set_keys; auto.
      * intros k now' Hle. by apply record_get.
    + eapply keys_few; [by apply map_set_NoDup| |exact HN]. intros k [->|?]%map_set_keys; auto.
  - split_and!; [done|done|done|]. intros k now' Hle. by rewrite app_nil_r.
Defined.

Lemma length_omap_le {A B} (f : A → option B) l : (length (omap f l) ≤ length l)%nat.
Proof. induction l as [|x l IH]; csimpl; [lia|]. destruct (f x); csimpl; lia. Qed.

Lemma cleanup_kept now m : (length m ≤ MAX_KEYS)%nat → NoDup m.*1 →
  NoDup (cleanup now m).*1 ∧ (∀ k, k ∈ (cleanup now m).*1 → k ∈ m.*1) ∧
  ∀ k, map_get k (cleanup now m) = recent_of (POLICIES (key_policy k)).1 now (map_get k m).
Proof.
  unfold cleanup. cbv zeta. set (kept := omap _ m). intros Hl Hm.
  assert (length kept ≤ length m)%nat as Hk.
  { apply length_omap_le. }
  replace (length kept - MAX_KEYS)%nat with 0%nat by lia. rewrite drop_0. clear Hl Hk. subst kept.
  induction m as [|[k0 ts] m IH]; [split_and!; [constructor|done|done]|].
  apply NoDup_cons in Hm as [Hn Hm]. destruct (IH Hm) as (H1 & H2 & H3). simpl.
  destruct (recent_of _ now ts) as [|t ts'] eqn:E; simpl; split_and!.
  - done.
  - set_solver.
  - intros k. rewrite H3. destruct (k0 == k) eqn:Ek; [|done]. bool_inv. subst k0. rewrite E.
    assert (map_get k m = []) as ->; [|done]. clear -Hn. induction m as [|kv m IH]; [done|]. simpl in *.
    apply not_elem_of_cons in Hn as [Hne Hn]. rewrite bool_decide_eq_false_2 by congruence. by apply IH.
  - apply NoDup_cons. split; [|done]. intros ?%H2. done.
  - set_solver.
  - intros k. rewrite H3. destruct (k0 == k) eqn:Ek; [|done]. bool_inv. subst k0. by rewrite E.
Qed.

#[export] Instance social_limiter : Limiter (option string * option Policy).
Proof.
  refine {| rkey r := social_key r.1 (default mutation r.2); window := λ k, (POLICIES (key_policy k)).1;
            capacity := λ k, (POLICIES (key_policy k)).2; well_kept m := NoDup m.*1;
            attempt r now m := passed (socialRateLimit false r.1 r.2 now m) |}; [constructor|].
  intros K [u p] now m Hm HK HN Hin Hkeys. unfold socialRateLimit, passed. cbv zeta. cbn [fst snd] in *.
  rewrite key_policy_social. rewrite Z.leb_antisym. destruct (_ <? _); cbn [negb fst snd andb].
  - set (key := social_key u (default mutation p)) in *.
    set (m1 := map_set key _ m).
    assert (NoDup m1.*1 ∧ ∀ k, k ∈ m1.*1 → k ∈ K) as [Hm1 Hk1].
    { split; [by apply map_set_NoDup|]. intros k [->|?]%map_set_keys; auto. }
    destruct (cleanup_kept now m1) as (C1 & C2 & C3); [by eapply keys_few|done|].
    split_and!; [done|auto|done|]. intros k now' Hle. rewrite C3, recent_of_recent by done.
    unfold m1. rewrite map_get_set. destruct (k == key) eqn:Ek; bool_inv; [|by rewrite app_nil_r].
    subst k. rewrite !recent_of_app. f_equal. unfold key. rewrite key_policy_social. by apply recent_of_recent.
  - split_and!; [done|done|done|]. intros k now' Hle. by rewrite app_nil_r.
Defined.

(** The socket limiter with its default of 20 attempts. *)
Definition DEFAULT_SOCKET_LIMIT : number := ToNumber (lit "20").
Lemma default_limit_reached n : (n ≤ 20)%nat → num_geb (of_Z (Z.of_nat n)) DEFAULT_SOCKET_LIMIT = (20 <=? Z.of_nat n).
Proof.
  intros Hn. assert (forallb (λ n, Bool.eqb (num_geb (of_Z (Z.of_nat n)) DEFAULT_SOCKET_LIMIT) (20 <=? Z.of_nat n)) (seq 0 21) = true) as Hall by by vm_compute.
  rewrite forallb_forall in Hall. apply Bool.eqb_prop, Hall. apply in_seq. lia.
Qed.

Definition short_lists (m : attempts) : Prop := ∀ k, (length (map_get k m) ≤ 20)%nat.
Lemma recent_length w now ts : (length (recent_of w now ts) ≤ length ts)%nat.
Proof. unfold recent_of. apply length_filter. Qed.

#[export] Instance socket_limiter : Limiter (unit * string).
Proof.
  refine {| rkey r := r.2; window := λ _, 60000; capacity := λ _, 20; well_kept m := NoDup m.*1 ∧ short_lists m;
            attempt r now m := allowAttempt DEFAULT_SOCKET_LIMIT r.2 now m |}; [split; [constructor|intros k; simpl; lia]|].
  intros K [[] key] now m [Hm Hs] HK HN Hin Hkeys. unfold allowAttempt. cbv zeta. cbn [snd] in *.
  fold (forget_empty key (recent_of 60000 now (map_get key m)) m).
  rewrite default_limit_reached by (etrans; [apply recent_length|apply Hs]).
  assert (short_lists (forget_empty key (recent_of 60000 now (map_get key m)) m)) as Hf.
  { intros k. unfold forget_empty. destruct (recent_of _ _ _); [|apply Hs]. rewrite map_get_delete. destruct (k == key); [simpl; lia|apply Hs]. }
  rewrite Z.leb_antisym. destruct (_ <? 20) eqn:El; cbn [negb andb].
  - rewrite evict_few.
    + split_and!; [by apply map_set_NoDup, forget_empty_kept| | |done|].
      * intros k. rewrite map_get_set. destruct (k == key); [|apply Hf]. rewrite length_app. apply Z.ltb_lt in El. simpl. lia.
      * intros k [->|?%forget_empty_keys]%map_set_keys; auto.
      * intros k now' Hle. apply record_get; [done|]. intros. by apply forget_empty_get.
    + eapply keys_few; [by apply map_set_NoDup, forget_empty_kept| |exact HN]. intros k [->|?%forget_empty_keys]%map_set_keys; auto.
  - split_and!; [by apply forget_empty_kept|done|intros k ?%forget_empty_keys; auto|done|].
    intros k now' Hle. rewrite app_nil_r. by apply forget_empty_get.
Defined.

(** ** The limits *)

(** Whatever the requests, as long as they carry at most 10,000 keys, the
    limiter admits at most [capacity] requests of a key in any time window ... *)
Definition never_exceeds {Req} (L : Limiter Req) : Prop :=
  ∀ (K : list string) since (reqs : list (Req * instant)) k t,
    NoDup K → (length K ≤ MAX_KEYS)%nat → (∀ r t, (r, t) ∈ reqs → rkey r ∈ K) → in_time since reqs →
    Z.of_nat (length (filter (λ t', t - window k < t' ≤ t) (log_of k (run reqs [] []).1))) ≤ Z.max 0 (capacity k).
(** ... and refuses none below that limit. *)
Definition never_refuses_early {Req} (L : Limiter Req) : Prop :=
  ∀ (K : list string) since (reqs : list (Req * instant)) r now,
    NoDup K → (length K ≤ MAX_KEYS)%nat → (∀ r t, (r, t) ∈ reqs → rkey r ∈ K) → rkey r ∈ K → in_time since reqs → last_time since reqs ≤ now →
    (attempt r now (run reqs [] []).2).1 =
    (Z.of_nat (length (recent_of (window (rkey r)) now (log_of (rkey r) (run reqs [] []).1))) <? capacity (rkey r)).

Lemma limiter_never_exceeds {Req} (L : Limiter Req) : never_exceeds L.
Proof. intros K since reqs k t HK HN Hin Ht. by apply (Kept_run K since reqs [] [] (Kept_empty K since) HK HN Hin Ht). Qed.
Lemma limiter_never_refuses_early {Req} (L : Limiter Req) : never_refuses_early L.
Proof.
  intros K since reqs r now HK HN Hin Hr Ht Hle.
  pose proof (Kept_run K since reqs [] [] (Kept_empty K since) HK HN Hin Ht) as Hkept.
  pose proof (Kept_step K _ _ _ r now Hkept HK HN Hr Hle) as Hs. by destruct (attempt r now _) as [b m'], Hs as [-> _].
Qed.

(** none of the four rate limiters lets more requests of one key through in
    any of its windows than its limit says: 10 a minute for credentials, 120
    reads and 30 writes a minute for the portal, the table of policies for the
    social routes, 20 a minute for socket handshakes. *)
Theorem rate_limits_hold :
  never_exceeds auth_limiter ∧ never_exceeds portal_limiter ∧ never_exceeds social_limiter ∧ never_exceeds socket_limiter.
Proof. split_and!; apply limiter_never_exceeds. Qed.

(** C39: the four rate limiters are exact: a request is refused only when the
    limit of its key is already reached by requests admitted within the window;
    pruning, forgetting idle keys and the cleanup of the social limiter never
    forget or invent an attempt that still counts. *)
Theorem rate_limits_are_exact :
  never_refuses_early auth_limiter ∧ never_refuses_early portal_limiter ∧ never_refuses_early social_limiter ∧ never_refuses_early socket_limiter.
Proof. split_and!; apply limiter_never_refuses_early. Qed.

(** a socket limit that is not a number switches the limiter off: every
    attempt is admitted. *)
Theorem socket_limit_not_a_number limit address now m :
  is_nan limit = true → (allowAttempt limit address now m).1 = true.
Proof.
  intros Hn. unfold allowAttempt. cbv zeta. destruct limit; try done.
Qed.
Lemma socket_limit_not_a_number_witness :
  (allowAttempt (ToNumber (lit "20 per minute")) "10.0.0.1" 5 [("10.0.0.1", replicate 1000 4)]).1 = true.
Proof. apply socket_limit_not_a_number. by vm_compute. Defined.

(** Eleven credential requests in a second: the last one is refused, and a
    minute later the next is admitted. *)
Example auth_burst :
  let m := (run (Limiter0 := auth_limiter) (replicate 10 ("1.2.3.4:/auth/login", 1000)) [] []).2 in
  (authRateLimit "1.2.3.4:/auth/login" 1000 m).1 = Refused 429 ∧ (authRateLimit "1.2.3.4:/auth/login" 61000 m).1 = Passed.
Proof. by vm_compute. Qed.
