(* ===== verification/Storage.v ===== *)
(** * The object storage ([storage/storage.service.ts])

    The bucket is reached through a third-party client: [ObjectStore] is the
    interface of its commands, a parameter of everything here, and
    [ObjectStoreLaws] the documented behaviour the service relies on.  Every
    command may fail.  The service's own state is its capability, which a
    failure switches off. *)

From S2P Require Import Prelude JsNumber JsText Config Schema.
Local Open Scope Z_scope.

(** ** The bucket *)

(** What a command answers: the error carries the HTTP status if it has one. *)
Inductive Reply (A : Type) := Answer (a : A) | Failure (status : option Z).
Arguments Answer {A} a.
Arguments Failure {A} status.

Record S3Object := mkS3Object { so_body : text; so_mime : option text; so_metadata_sha256 : option text }.
(** [GetObject]: the body is a stream of chunks that may break off. *)
Record GetAnswer := mkGetAnswer { ga_body : option (list text); ga_broken : bool; ga_mime : option text; ga_etag : option text }.
Record ListAnswer := mkListAnswer { la_keys : list text; la_truncated : bool; la_next : option text }.

Class ObjectStore (B : Type) := {
  head_bucket : B → Reply unit;
  head_object : text → B → Reply (option Z * option text * option text);
  get_object : text → B → Reply GetAnswer;
  copy_object : text → text → text → text → text → B → Reply unit * B;
  put_object : text → text → text → B → Reply unit * B;
  list_objects : text → Z → option text → B → Reply ListAnswer;
  (** the keys that could not be deleted are listed in the answer *)
  delete_objects : list text → B → Reply (list text) * B;
  (** what is stored under a key, which only [GetObject] shows *)
  object_at : B → text → option S3Object;
}.

(** The keys in the bucket with a prefix, in the order the bucket lists them. *)
Class ObjectStoreLaws (B : Type) `{!ObjectStore B} := {
  keys_with : text → B → list text;
  keys_with_spec prefix b k : k ∈ keys_with prefix b ↔ starts_with prefix k = true ∧ is_Some (object_at b k);
  keys_with_NoDup prefix b : NoDup (keys_with prefix b);
  get_answer key b g chunks : get_object key b = Answer g → ga_body g = Some chunks → ga_broken g = false →
    ∃ o, object_at b key = Some o ∧ mjoin chunks = so_body o ∧ ga_mime g = so_mime o;
  (** a first page is full, or the whole list *)
  list_answer prefix max b l : list_objects prefix max None b = Answer l → 0 < max →
    la_keys l = take (Z.to_nat max) (keys_with prefix b)
    ∧ (la_truncated l = true → length (la_keys l) = Z.to_nat max);
  delete_answer keys b errors b' k : delete_objects keys b = (Answer errors, b') →
    object_at b' k = if decide (k ∈ keys ∧ k ∉ errors) then None else object_at b k;
  (** copying and putting write one key *)
  copy_frame src dst etag mime sha b k : k ≠ dst → object_at (copy_object src dst etag mime sha b).2 k = object_at b k;
  put_frame key body mime b k : k ≠ key → object_at (put_object key body mime b).2 k = object_at b k;
  delete_failure keys b status b' k : delete_objects keys b = (Failure status, b') →
    object_at b' k = object_at b k ∨ k ∈ keys ∧ object_at b' k = None;
}.

(** ** The service *)

Record StorageLimits := mkStorageLimits {
  sl_maxFileBytes : Z; sl_maxPackBytes : Z; sl_maxPackFiles : Z; sl_uploadSessionTtlHours : Z;
  sl_uploadUrlTtlSeconds : Z; sl_maxUserStorageBytes : Z; sl_supersededPackRetentionDays : Z;
}.

(** [configuredPositiveInt] *)
Definition configuredPositiveInt (value : option text) (fallback : Z) : option Z :=
  match value with
  | None | Some [] => Some fallback
  | Some v => match safe_integer (ToNumber v) with Some n => if 0 <? n then Some n else None | None => None end
  end.

Section config.
Variable config : string → option text.
(** Whether the platform's URL parser accepts an endpoint, as [validEndpoint]
    asks it. *)
Variable validEndpoint : text → bool.

Definition configured_int (key : string) (fallback : Z) : option Z := configuredPositiveInt (config key) fallback.
Definition limit_or (key : string) (fallback : Z) : Z := default fallback (configured_int key fallback).

(** The [limits] the constructor computes *)
Definition storage_limits : StorageLimits := mkStorageLimits
  (limit_or "R2_MAX_ASSET_FILE_BYTES" (20 * 1024 * 1024))
  (limit_or "R2_MAX_ASSET_PACK_BYTES" (500 * 1024 * 1024))
  (limit_or "R2_MAX_ASSET_PACK_FILES" 1000)
  (limit_or "R2_UPLOAD_SESSION_TTL_HOURS" 24)
  (limit_or "R2_UPLOAD_URL_TTL_SECONDS" 900)
  (limit_or "R2_MAX_USER_STORAGE_BYTES" (2 * 1024 * 1024 * 1024))
  (limit_or "R2_SUPERSEDED_PACK_RETENTION_DAYS" 30).

Definition trimmed (key : string) : option text := trim <$> config key.
(** [configured] of the constructor *)
Definition storage_configured : bool :=
  truthy_opt (trimmed "CLOUDFLARE_ACCOUNT_ID") && truthy_opt (trimmed "R2_BUCKET_NAME")
  && truthy_opt (trimmed "R2_ACCESS_KEY_ID") && truthy_opt (trimmed "R2_SECRET_ACCESS_KEY")
  && match trimmed "R2_ENDPOINT" with Some e => truthy e && validEndpoint e | None => false end
  && forallb (λ kf, is_set (configured_int kf.1 kf.2))
       [("R2_UPLOAD_URL_TTL_SECONDS", 900); ("R2_DOWNLOAD_URL_TTL_SECONDS", 900); ("R2_MAX_ASSET_FILE_BYTES", 20 * 1024 * 1024);
        ("R2_MAX_ASSET_PACK_BYTES", 500 * 1024 * 1024); ("R2_MAX_ASSET_PACK_FILES", 1000); ("R2_UPLOAD_SESSION_TTL_HOURS", 24);
        ("R2_MAX_USER_STORAGE_BYTES", 2 * 1024 * 1024 * 1024); ("R2_SUPERSEDED_PACK_RETENTION_DAYS", 30)].
End config.

(** The service: whether it has a client, its capability, and the bucket. *)
Record Storage (B : Type) := mkStorage { sg_client : bool; sg_capability : StorageCapability; sg_bucket : B }.
Arguments mkStorage {B} _ _ _.
Arguments sg_client {B} _.
Arguments sg_capability {B} _.
Arguments sg_bucket {B} _.
#[export] Instance eta_Storage {B} : Eta (Storage B) := λ r, mkStorage (sg_client r) (sg_capability r) (sg_bucket r).

Definition storageUnavailable : exc := ServiceUnavailableException "ASSET_STORAGE_UNAVAILABLE".
Definition sdk_error : exc := ErrorException "sdk".
Definition not_found (status : option Z) : bool := status == Some 404.

Section service.
Context {B : Type} `{!ObjectStore B}.
(** the platform's SHA-256, in hexadecimal *)
Variable sha256_hex : text → text.
Abbreviation St := (Storage B).

Definition capability_after (ok : bool) : StorageCapability := mkStorageCapability true ok ok.
(** [refreshCapability] *)
Definition refreshCapability : Act St unit := act_modify (λ s,
  if sg_client s then s <| sg_capability := capability_after (match head_bucket (sg_bucket s) with Answer _ => true | Failure _ => false end) |> else s).

(** [requireAvailable], [markUnavailable] *)
Definition requireAvailable : Act St unit := λ s,
  act_require (sc_uploadsEnabled (sg_capability s) && sc_downloadsEnabled (sg_capability s)) storageUnavailable s.
Definition markUnavailable : Act St unit := act_modify (λ s,
  if sc_configured (sg_capability s) then s <| sg_capability := mkStorageCapability true false false |> else s).

(** One command: its reply, and the bucket after it. *)
Definition send {A} (command : B → Reply A * B) : Act St (Reply A) := λ s,
  let '(r, b) := command (sg_bucket s) in (Ok r, s <| sg_bucket := b |>).
Definition ask {A} (command : B → Reply A) : Act St (Reply A) := send (λ b, (command b, b)).
Definition fail {A} (e : exc) : Act St A := markUnavailable ;; act_throw e.

Record Metadata := mkMetadata { md_sizeBytes : Z; md_mimeType : option text; md_sha256 : option text }.
(** [headObject] *)
Definition headObject (objectKey : text) : Act St (option Metadata) :=
  requireAvailable ;;
  result ← ask (head_object objectKey);
  match result with
  | Failure status => if not_found status then mret None else fail sdk_error
  | Answer (size, mime, sha256) => mret (Some (mkMetadata (default 0 size) mime sha256))
  end.

(** [createPutUrl], [createGetUrl]; signing is the client's. *)
Definition createPutUrl (sign : text → text → Z → instant → text) (uploadTtlSeconds : Z) (objectKey mimeType : text) (signingDate : instant)
    : Act St (text * instant) :=
  requireAvailable ;; mret (sign objectKey mimeType uploadTtlSeconds signingDate, signingDate + uploadTtlSeconds * 1000).
Definition createGetUrl (sign : text → Z → instant → text) (downloadTtlSeconds : Z) (objectKey : text) (now : instant) : Act St (text * instant) :=
  requireAvailable ;; mret (sign objectKey downloadTtlSeconds now, now + downloadTtlSeconds * 1000).

Record Digest := mkDigest { dg_sizeBytes : Z; dg_mimeType : option text; dg_sha256 : text; dg_etag : option text }.

(** The loop over the chunks of the body: it stops as soon as the bytes seen
    exceed [maxBytes]. *)
Fixpoint read_body (maxBytes sizeBytes : Z) (seen : text) (chunks : list text) : option (Z * text) :=
  match chunks with
  | [] => Some (sizeBytes, seen)
  | chunk :: chunks' =>
      let sizeBytes' := sizeBytes + Z.of_nat (length chunk) in
      if maxBytes <? sizeBytes' then None else read_body maxBytes sizeBytes' (seen ++ chunk) chunks'
  end.

(** [inspectObjectSha256] *)
Definition inspectObjectSha256 (objectKey : text) (maxBytes : Z) : Act St (option Digest) :=
  requireAvailable ;;
  result ← ask (get_object objectKey);
  match result with
  | Failure status => if not_found status then mret None else fail sdk_error
  | Answer g =>
      match ga_body g with
      | None => act_throw (ErrorException "ASSET_STORAGE_OBJECT_BODY_MISSING")
      | Some chunks =>
          match read_body maxBytes 0 [] chunks with
          | None => act_throw (ErrorException "ASSET_STORAGE_OBJECT_TOO_LARGE")
          | Some (sizeBytes, seen) =>
              if ga_broken g then fail sdk_error
              else mret (Some (mkDigest sizeBytes (ga_mime g) (sha256_hex seen) (ga_etag g)))
          end
      end
  end.

(** [copyVerifiedObject] *)
Definition copyVerifiedObject (sourceKey destinationKey sourceEtag mimeType sha256 : text) : Act St unit :=
  requireAvailable ;;
  result ← send (copy_object sourceKey destinationKey sourceEtag mimeType sha256);
  match result with
  | Answer _ => mret ()
  | Failure status => if status == Some 412 then act_throw (ErrorException "ASSET_INTEGRITY_FAILED") else fail sdk_error
  end.

(** [putManifest] *)
Definition putManifest (objectKey body : text) : Act St unit :=
  requireAvailable ;;
  result ← send (put_object objectKey body (lit "application/json"));
  match result with Answer _ => mret () | Failure _ => fail sdk_error end.

(** [listObjectKeys], the loop over the pages; [fuel] bounds the pages asked
    for. *)
Fixpoint list_pages (fuel : nat) (prefix : text) (boundedMax : Z) (keys : list text) (token : option text) : Act St (list text) :=
  match fuel with
  | O => act_throw (ErrorException "fuel")
  | S fuel =>
      let remaining := boundedMax - Z.of_nat (length keys) in
      result ← ask (list_objects prefix (Z.min 1000 remaining) token);
      match result with
      | Failure _ => fail sdk_error
      | Answer l =>
          let keys' := keys ++ take (Z.to_nat remaining) (filter (λ k, truthy k = true) (la_keys l)) in
          match (if (Z.of_nat (length keys') <? boundedMax) && la_truncated l then la_next l else None) with
          | Some next => if truthy next then list_pages fuel prefix boundedMax keys' (Some next) else mret keys'
          | None => mret keys'
          end
      end
  end.
Definition listObjectKeys (fuel : nat) (prefix : text) (maxKeys : Z) : Act St (list text) :=
  requireAvailable ;; list_pages fuel prefix (Z.max 1 (Z.min 10000 maxKeys)) [] None.

(** [deleteObjects]: batches of at most 1,000 keys *)
Fixpoint delete_batches (fuel : nat) (objectKeys : list text) : Act St unit :=
  match fuel, objectKeys with
  | _, [] => mret ()
  | O, _ => act_throw (ErrorException "fuel")
  | S fuel, _ =>
      result ← send (delete_objects (take 1000 objectKeys));
      match result with
      | Failure _ => fail sdk_error
      | Answer [] => delete_batches fuel (drop 1000 objectKeys)
      | Answer _ => fail (ErrorException "ASSET_STORAGE_DELETE_INCOMPLETE")
      end
  end.
Definition deleteObjects (objectKeys : list text) : Act St unit :=
  requireAvailable ;; delete_batches (length objectKeys) objectKeys.

Definition directory (objectPrefix : text) : text :=
  if (last objectPrefix == Some 47) then objectPrefix else objectPrefix ++ [47].

(** [assertObjectPrefixDeleted] *)
Definition assertObjectPrefixDeleted (objectPrefix : text) : Act St unit :=
  remaining ← listObjectKeys 1 (directory objectPrefix) 1;
  act_require (match remaining with [] => true | _ => false end) (ErrorException "ASSET_STORAGE_DELETE_INCOMPLETE").

(** [deleteObjectPrefix]: the [while (true)] loop, with fuel *)
Fixpoint delete_listed (fuel : nat) (prefix : text) : Act St unit :=
  match fuel with
  | O => act_throw (ErrorException "fuel")
  | S fuel =>
      keys ← listObjectKeys 1 prefix 1000;
      match keys with [] => mret () | _ => deleteObjects keys ;; delete_listed fuel prefix end
  end.
Definition deleteObjectPrefix (fuel : nat) (objectPrefix : text) : Act St unit :=
  delete_listed fuel (directory objectPrefix) ;; assertObjectPrefixDeleted objectPrefix.
End service.

(** ** What the service does with a lawful bucket *)

Section laws.
Context {B : Type} `{!ObjectStore B} `{!ObjectStoreLaws B}.
Abbreviation St := (Storage B).

Definition no_fuel : exc := ErrorException "fuel".

(** Some of the keys [K] went, nothing else changed. *)
Definition shrinks (K : list text) (b b' : B) : Prop :=
  ∀ k, object_at b' k = object_at b k ∨ k ∈ K ∧ object_at b' k = None.
#[local] Instance shrinks_preorder K : PreOrder (shrinks K).
Proof. split; [intros b k; by left|]. intros b1 b2 b3 H1 H2 k. destruct (H1 k) as [E1|[]], (H2 k) as [E2|[]]; rewrite ?E1 in *; naive_solver congruence. Qed.
Lemma shrinks_mono K K' b b' : (∀ k, k ∈ K → k ∈ K') → shrinks K b b' → shrinks K' b b'.
Proof. intros Hsub H k. destruct (H k) as [|[]]; naive_solver. Qed.

Lemma requireAvailable_cases (s : St) : requireAvailable s = (Ok (), s) ∨ requireAvailable s = (Err storageUnavailable, s).
Proof. unfold requireAvailable, act_require. case_match; auto. Qed.
Lemma markUnavailable_bucket (s : St) : sg_bucket (markUnavailable s).2 = sg_bucket s.
Proof. unfold markUnavailable, act_modify. simpl. by case_match. Qed.
Lemma fail_run {A} e (s : St) : ∃ s', fail (A := A) e s = (Err e, s') ∧ sg_bucket s' = sg_bucket s.
Proof. exists (markUnavailable s).2. split; [done|apply markUnavailable_bucket]. Qed.

Lemma delete_batches_spec fuel keys (s : St) :
  (length keys ≤ fuel)%nat →
  let '(r, s') := delete_batches fuel keys s in
  r ≠ Err no_fuel ∧ shrinks keys (sg_bucket s) (sg_bucket s')
  ∧ (r = Ok () → ∀ k, k ∈ keys → object_at (sg_bucket s') k = None).
Proof.
  revert keys s. induction fuel as [|fuel IH]; intros keys s Hf.
  { destruct keys; simpl in Hf; [|lia]. split_and!; [done|done|set_solver]. }
  destruct keys as [|key keys]; [split_and!; [done|done|set_solver]|].
  remember (key :: keys) as K eqn:HK.
  assert (delete_batches (S fuel) K s = (result ← send (delete_objects (take 1000 K));
    match result with
    | Failure _ => fail sdk_error
    | Answer [] => delete_batches fuel (drop 1000 K)
    | Answer _ => fail (ErrorException "ASSET_STORAGE_DELETE_INCOMPLETE")
    end) s) as -> by (by rewrite HK).
  assert (∀ x, x ∈ take 1000 K → x ∈ K) as Htake by (intros x; rewrite !list_elem_of_lookup; intros [i Hi]; apply lookup_take_Some in Hi as [? _]; eauto).
  unfold send at 1, mbind, act_bind. destruct (delete_objects (take 1000 K) (sg_bucket s)) as [reply b'] eqn:Hd.
  set (s1 := s <| sg_bucket := b' |>).
  assert (∀ {A} e, e ≠ no_fuel → shrinks K (sg_bucket s) b' → let '(r, s') := fail (A := A) e s1 in
    r ≠ Err no_fuel ∧ shrinks K (sg_bucket s) (sg_bucket s') ∧ ∃ e', r = Err e') as Hfail.
  { intros A e He Hsh. destruct (fail_run (A := A) e s1) as (s' & -> & Hb). split_and!; [congruence|by rewrite Hb|eauto]. }
  destruct reply as [errors|status].
  - assert (shrinks (take 1000 K) (sg_bucket s) b') as Hsh.
    { intros k. rewrite (delete_answer _ _ _ _ k Hd). case_decide; naive_solver. }
    destruct errors as [|e0 errors].
    + specialize (IH (drop 1000 K) s1). rewrite length_drop in IH.
      assert (length K - 1000 ≤ fuel)%nat as Hlen by (subst K; simpl in *; lia). specialize (IH Hlen).
      destruct (delete_batches fuel (drop 1000 K) s1) as [r s']. destruct IH as (Hr & Hsh2 & Hall). split_and!; [done| |].
      * etrans; [by eapply shrinks_mono; [exact Htake|]|]. eapply shrinks_mono; [|exact Hsh2].
        intros k. rewrite !list_elem_of_lookup. intros [i Hi]. rewrite lookup_drop in Hi. eauto.
      * intros ->  k Hk. rewrite <- (take_drop 1000 K), elem_of_app in Hk. destruct Hk as [Hk|Hk]; [|by apply Hall].
        pose proof (delete_answer _ _ _ _ k Hd) as Hgone. rewrite decide_True in Hgone by (split; [done|by apply not_elem_of_nil]).
        destruct (Hsh2 k) as [->|[]]; done.
    + specialize (Hfail unit (ErrorException "ASSET_STORAGE_DELETE_INCOMPLETE") ltac:(done) (shrinks_mono _ _ _ _ Htake Hsh)).
      destruct (fail _ s1) as [r s']. destruct Hfail as (? & ? & e' & ->). by split_and!.
  - assert (shrinks K (sg_bucket s) b') as Hsh.
    { eapply shrinks_mono; [exact Htake|]. intros k. by apply (delete_failure _ _ _ _ k Hd). }
    specialize (Hfail unit sdk_error ltac:(done) Hsh). destruct (fail _ s1) as [r s']. destruct Hfail as (? & ? & e' & ->). by split_and!.
Qed.

Lemma filter_all {A} (P : A → Prop) `{∀ x, Decision (P x)} (l : list A) : Forall P l → filter P l = l.
Proof. induction 1; [done|]. rewrite filter_cons_True by done. by f_equal. Qed.

Lemma deleteObjects_spec keys (s : St) :
  let '(r, s') := deleteObjects keys s in
  r ≠ Err no_fuel ∧ shrinks keys (sg_bucket s) (sg_bucket s')
  ∧ (r = Ok () → ∀ k, k ∈ keys → object_at (sg_bucket s') k = None).
Proof.
  unfold deleteObjects, mbind, act_bind. destruct (requireAvailable_cases s) as [-> | ->]; [|by split_and!].
  by apply delete_batches_spec.
Qed.

(** One page of up to 1,000 keys. *)
Lemma listObjectKeys_one prefix max (s : St) :
  prefix ≠ [] → 1 ≤ max ≤ 1000 →
  listObjectKeys 1 prefix max s = (Ok (take (Z.to_nat max) (keys_with prefix (sg_bucket s))), s)
  ∨ ∃ e s', listObjectKeys 1 prefix max s = (Err e, s') ∧ e ≠ no_fuel ∧ sg_bucket s' = sg_bucket s.
Proof.
  intros Hp Hmax. unfold listObjectKeys.
  destruct (requireAvailable_cases s) as [H|H];
    [rewrite (act_bind_run _ _ _ _ _ H)|rewrite (act_bind_throw _ _ _ _ _ H); right; exists storageUnavailable, s; by split_and!].
  rewrite (Z.min_r 10000), (Z.max_r 1) by lia. cbn [list_pages length]. rewrite Z.sub_0_r, (Z.min_r 1000) by lia.
  unfold ask, send, mbind, act_bind. destruct (list_objects prefix max None (sg_bucket s)) as [l|status] eqn:Hl.
  - destruct (list_answer _ _ _ _ Hl) as [Hk Hfull]; [lia|]. left.
    assert (filter (λ k, truthy k = true) (la_keys l) = la_keys l) as ->.
    { apply filter_all, Forall_forall. intros k Hin. rewrite Hk in Hin.
      apply list_elem_of_lookup in Hin as [i Hi]. apply lookup_take_Some in Hi as [Hi _]. apply list_elem_of_lookup_2, keys_with_spec in Hi as [Hs _].
      destruct k; [|done]. destruct prefix; [done|]. by apply bool_decide_eq_true in Hs. }
    rewrite app_nil_l. assert (take (Z.to_nat max) (la_keys l) = la_keys l) as -> by (rewrite Hk, take_take; f_equal; lia).
    assert ((Z.of_nat (length (la_keys l)) <? max) && la_truncated l = false) as ->.
    { destruct (la_truncated l); [|by rewrite andb_false_r]. rewrite (Hfull eq_refl). rewrite andb_true_r. apply Z.ltb_ge. lia. }
    rewrite Hk. unfold mret, act_ret. by destruct s.
  - right. destruct (fail_run (A := list text) sdk_error (s <| sg_bucket := sg_bucket s |>)) as (s' & -> & Hb).
    exists sdk_error, s'. split_and!; [done|intros [=]|done].
Qed.

Lemma shrinks_keys prefix K b b' k : shrinks K b b' → k ∈ keys_with prefix b' → k ∈ keys_with prefix b.
Proof. intros Hsh. rewrite !keys_with_spec. intros [Hs [o Ho]]. split; [done|]. destruct (Hsh k) as [<-|[]]; [eauto|congruence]. Qed.
(** Deleting a page leaves fewer keys. *)
Lemma keys_with_gone prefix b b' n :
  shrinks (take n (keys_with prefix b)) b b' → (∀ k, k ∈ take n (keys_with prefix b) → object_at b' k = None) →
  (length (keys_with prefix b') + length (take n (keys_with prefix b)) ≤ length (keys_with prefix b))%nat.
Proof.
  intros Hsh Hgone. rewrite <- length_app. apply submseteq_length, NoDup_submseteq.
  - apply NoDup_app. split_and!; [apply keys_with_NoDup| |].
    + intros k [_ [o Ho]]%keys_with_spec Hin%Hgone. congruence.
    + pose proof (keys_with_NoDup prefix b) as Hnd. rewrite <- (take_drop n) in Hnd. by apply NoDup_app in Hnd as [? _].
  - intros k [Hk|Hk]%elem_of_app; [by eapply shrinks_keys|].
    rewrite <- (take_drop n (keys_with prefix b)). apply elem_of_app. by left.
Qed.

Lemma delete_listed_spec fuel prefix (s : St) :
  prefix ≠ [] → (length (keys_with prefix (sg_bucket s)) < fuel)%nat →
  let '(r, s') := delete_listed fuel prefix s in
  r ≠ Err no_fuel ∧ shrinks (keys_with prefix (sg_bucket s)) (sg_bucket s) (sg_bucket s').
Proof.
  intros Hp. revert s. induction fuel as [|fuel IH]; intros s Hf; [lia|]. cbn [delete_listed].
  unfold mbind at 1, act_bind at 1.
  destruct (listObjectKeys_one prefix 1000 s Hp) as [-> |(e & s' & -> & He & Hb)]; [lia| |by split_and!; [congruence|rewrite Hb]].
  set (page := take _ _). destruct page as [|k0 page'] eqn:Hpage; [by split_and!|]. rewrite <- Hpage.
  unfold mbind at 1, act_bind at 1. pose proof (deleteObjects_spec page s) as Hd.
  destruct (deleteObjects page s) as [r s1]. destruct Hd as (Hr & Hsh & Hgone).
  assert (shrinks (keys_with prefix (sg_bucket s)) (sg_bucket s) (sg_bucket s1)) as Hsh1.
  { eapply shrinks_mono; [|exact Hsh]. intros k Hk. rewrite <- (take_drop (Z.to_nat 1000) (keys_with _ _)). apply elem_of_app. by left. }
  destruct r as [[]|e]; [|by split_and!; [congruence|]].
  pose proof (keys_with_gone prefix _ _ (Z.to_nat 1000) Hsh (Hgone eq_refl)) as Hlen. fold page in Hlen. rewrite Hpage in Hlen. cbn [length] in Hlen.
  specialize (IH s1 ltac:(lia)). destruct (delete_listed fuel prefix s1) as [r s2]. destruct IH as [Hr2 Hsh2]. split; [done|].
  etrans; [exact Hsh1|]. eapply shrinks_mono; [|exact Hsh2]. intros k. by eapply shrinks_keys.
Qed.

Lemma directory_nonempty p : directory p ≠ [].
Proof. unfold directory. case_match eqn:Hl; [|by destruct p]. destruct p; [by apply bool_decide_eq_true in Hl|done]. Qed.

(** [deleteObjectPrefix] ends, whatever the bucket answers: with one round
    of fuel more than there are objects under the prefix its [while (true)]
    loop is over.  If it returns, no object with the prefix is left; and in any
    case it deletes nothing else. *)
Theorem deleteObjectPrefix_ends fuel objectPrefix (s : St) :
  (length (keys_with (directory objectPrefix) (sg_bucket s)) < fuel)%nat →
  let '(r, s') := deleteObjectPrefix fuel objectPrefix s in
  r ≠ Err no_fuel
  ∧ (r = Ok () → ∀ k, starts_with (directory objectPrefix) k = true → object_at (sg_bucket s') k = None)
  ∧ (∀ k, starts_with (directory objectPrefix) k = false → object_at (sg_bucket s') k = object_at (sg_bucket s) k).
Proof.
  intros Hf. pose proof (directory_nonempty objectPrefix) as Hp. unfold deleteObjectPrefix, mbind at 1, act_bind at 1.
  pose proof (delete_listed_spec fuel _ s Hp Hf) as Hd. destruct (delete_listed fuel _ s) as [r s1]. destruct Hd as [Hr Hsh].
  assert (∀ s2, sg_bucket s2 = sg_bucket s1 → ∀ k, starts_with (directory objectPrefix) k = false → object_at (sg_bucket s2) k = object_at (sg_bucket s) k) as Hother.
  { intros s2 -> k Hk. destruct (Hsh k) as [|[Hin%keys_with_spec _]]; [done|]. destruct Hin. congruence. }
  destruct r as [[]|e]; [|split_and!; [congruence|done|by apply Hother]].
  unfold assertObjectPrefixDeleted, mbind, act_bind.
  destruct (listObjectKeys_one (directory objectPrefix) 1 s1 Hp) as [-> |(e & s' & -> & He & Hb)]; [lia| |split_and!; [congruence|done|by apply Hother]].
  destruct (keys_with (directory objectPrefix) (sg_bucket s1)) as [|k0 l] eqn:Hk; simpl.
  - split_and!; [done| |by apply Hother]. intros _ k Hs. destruct (object_at (sg_bucket s1) k) eqn:Ho; [|done].
    exfalso. assert (k ∈ keys_with (directory objectPrefix) (sg_bucket s1)) as Hin by (apply keys_with_spec; eauto).
    rewrite Hk in Hin. by apply elem_of_nil in Hin.
  - split_and!; [done|done|by apply Hother].
Qed.

(** The same without counting rounds: objects are at most removed, and a
    [deleteObjectPrefix] that returns has left none under the prefix. *)
Definition fewer (b b' : B) : Prop := ∀ k, object_at b k = None → object_at b' k = None.
#[export] Instance fewer_preorder : PreOrder fewer.
Proof. split; [by intros b k|]. intros b1 b2 b3 H1 H2 k Hk. by apply H2, H1. Qed.
Lemma shrinks_fewer K b b' : shrinks K b b' → fewer b b'.
Proof. intros Hsh k Hk. destruct (Hsh k) as [->|[]]; done. Qed.
Lemma delete_listed_fewer fuel prefix (s : St) : prefix ≠ [] → fewer (sg_bucket s) (sg_bucket (delete_listed fuel prefix s).2).
Proof.
  intros Hp. revert s. induction fuel as [|fuel IH]; intros s; [done|]. cbn [delete_listed]. unfold mbind at 1, act_bind at 1.
  destruct (listObjectKeys_one prefix 1000 s Hp) as [-> |(e & s' & -> & He & Hb)]; [lia| |simpl; by rewrite Hb].
  destruct (take _ _) as [|k0 page] eqn:Hpage; [done|]. unfold mbind at 1, act_bind at 1. pose proof (deleteObjects_spec (k0 :: page) s) as Hd.
  destruct (deleteObjects (k0 :: page) s) as [[[]|e] s1]; destruct Hd as (_ & Hsh & _); apply shrinks_fewer in Hsh; [|done]. etrans; [exact Hsh|apply IH].
Qed.
Lemma deleteObjectPrefix_fewer fuel objectPrefix (s : St) :
  let '(r, s') := deleteObjectPrefix fuel objectPrefix s in
  fewer (sg_bucket s) (sg_bucket s')
  ∧ (r = Ok () → ∀ k, starts_with (directory objectPrefix) k = true → object_at (sg_bucket s') k = None).
Proof.
  pose proof (directory_nonempty objectPrefix) as Hp. unfold deleteObjectPrefix, mbind at 1, act_bind at 1.
  pose proof (delete_listed_fewer fuel _ s Hp) as Hf. destruct (delete_listed fuel _ s) as [[[]|e] s1]; [|done]. simpl in Hf.
  unfold assertObjectPrefixDeleted, mbind, act_bind.
  destruct (listObjectKeys_one (directory objectPrefix) 1 s1 Hp) as [-> |(e & s' & -> & He & Hb)]; [lia| |simpl; by rewrite Hb].
  destruct (keys_with (directory objectPrefix) (sg_bucket s1)) as [|k0 l] eqn:Hk; simpl; [|done].
  split; [done|]. intros _ k Hs. destruct (object_at (sg_bucket s1) k) eqn:Ho; [|done].
  exfalso. assert (k ∈ keys_with (directory objectPrefix) (sg_bucket s1)) as Hin by (apply keys_with_spec; eauto).
  rewrite Hk in Hin. by apply elem_of_nil in Hin.
Qed.

Lemma read_body_spec maxBytes n seen chunks n' seen' :
  read_body maxBytes n seen chunks = Some (n', seen') →
  seen' = seen ++ mjoin chunks ∧ n' = n + Z.of_nat (length (mjoin chunks)) ∧ (n ≤ maxBytes → n' ≤ maxBytes).
Proof.
  revert n seen. induction chunks as [|c chunks IH]; intros n seen H; simpl in H.
  - simplify_eq. rewrite app_nil_r. cbn [mjoin list_join length]. split_and!; [done|lia|done].
  - case_match eqn:Hm; [done|]. apply Z.ltb_ge in Hm. apply IH in H as (-> & -> & Hle). simpl.
    rewrite length_app, <- (assoc_L app). split_and!; [done|lia|auto].
Qed.

Variable sha256_hex : text → text.
(** What [inspectObjectSha256] reports is the object under the key. *)
Lemma inspect_reports objectKey maxBytes (s : St) dg s' :
  inspectObjectSha256 sha256_hex objectKey maxBytes s = (Ok (Some dg), s') →
  sg_bucket s' = sg_bucket s ∧ ∃ o, object_at (sg_bucket s) objectKey = Some o ∧ dg_sha256 dg = sha256_hex (so_body o)
    ∧ dg_sizeBytes dg = Z.of_nat (length (so_body o)) ∧ (0 ≤ maxBytes → dg_sizeBytes dg ≤ maxBytes) ∧ dg_mimeType dg = so_mime o.
Proof.
  unfold inspectObjectSha256.
  destruct (requireAvailable_cases s) as [H|H]; [rewrite (act_bind_run _ _ _ _ _ H)|by rewrite (act_bind_throw _ _ _ _ _ H)].
  unfold ask, send, mbind, act_bind. destruct (get_object objectKey (sg_bucket s)) as [g|status] eqn:Hg.
  - destruct (ga_body g) as [chunks|] eqn:Hc; [|done]. destruct (read_body maxBytes 0 [] chunks) as [[n seen]|] eqn:Hr; [|done].
    destruct (ga_broken g) eqn:Hb; [done|]. intros [= <- <-]. simpl. split; [done|].
    apply read_body_spec in Hr as (-> & -> & Hle). destruct (get_answer _ _ _ _ Hg Hc Hb) as (o & Ho & Hbody & ->).
    rewrite app_nil_l, Hbody in *.
    exists o. by split_and!.
  - case_match; done.
Qed.
(** Commands that only read, and the one key a copy writes. *)
Lemma inspect_bucket objectKey maxBytes (s : St) : sg_bucket (inspectObjectSha256 sha256_hex objectKey maxBytes s).2 = sg_bucket s.
Proof.
  unfold inspectObjectSha256.
  destruct (requireAvailable_cases s) as [H|H]; [rewrite (act_bind_run _ _ _ _ _ H)|by rewrite (act_bind_throw _ _ _ _ _ H)].
  unfold ask, send, mbind, act_bind. destruct (get_object objectKey (sg_bucket s)) as [g|status]; repeat case_match; try done;
    unfold fail, markUnavailable, mbind, act_bind; simpl; by repeat case_match.
Qed.
Lemma copy_bucket src dst etag mime sha (s : St) k : k ≠ dst →
  object_at (sg_bucket (copyVerifiedObject src dst etag mime sha s).2) k = object_at (sg_bucket s) k.
Proof.
  intros Hk. unfold copyVerifiedObject.
  destruct (requireAvailable_cases s) as [H|H]; [rewrite (act_bind_run _ _ _ _ _ H)|by rewrite (act_bind_throw _ _ _ _ _ H)].
  pose proof (copy_frame src dst etag mime sha (sg_bucket s) k Hk) as Hf.
  unfold send, mbind, act_bind. destruct (copy_object _ _ _ _ _ _) as [r b]; simpl in Hf. repeat case_match; try done;
    unfold fail, mbind, act_bind; simpl; by repeat case_match.
Qed.
Lemma put_bucket key body (s : St) k : k ≠ key → object_at (sg_bucket (putManifest key body s).2) k = object_at (sg_bucket s) k.
Proof.
  intros Hk. unfold putManifest.
  destruct (requireAvailable_cases s) as [H|H]; [rewrite (act_bind_run _ _ _ _ _ H)|by rewrite (act_bind_throw _ _ _ _ _ H)].
  pose proof (put_frame key body (lit "application/json") (sg_bucket s) k Hk) as Hf.
  unfold send, mbind, act_bind. destruct (put_object _ _ _ _) as [r b]; simpl in Hf. repeat case_match; try done;
    unfold fail, mbind, act_bind; simpl; by repeat case_match.
Qed.
End laws.

(** ** A bucket to run the service on *)

Definition page_after (token : option text) (l : list text) : list text :=
  match token with
  | None => l
  | Some t => match list_find (λ k, k = t) l with Some (i, _) => drop (S i) l | None => [] end
  end.
Definition bucket_keys (prefix : text) (m : gmap text S3Object) : list text := filter (λ k, starts_with prefix k = true) (map_to_list m).*1.

#[export] Instance map_bucket : ObjectStore (gmap text S3Object) := {
  head_bucket _ := Answer ();
  head_object k m := match m !! k with
    | Some o => Answer (Some (Z.of_nat (length (so_body o))), so_mime o, so_metadata_sha256 o) | None => Failure (Some 404) end;
  get_object k m := match m !! k with
    | Some o => Answer (mkGetAnswer (Some [so_body o]) false (so_mime o) (Some (so_body o))) | None => Failure (Some 404) end;
  copy_object src dst etag mime sha m := match m !! src with
    | Some o => if so_body o == etag then (Answer (), <[dst := mkS3Object (so_body o) (Some mime) (Some sha)]> m) else (Failure (Some 412), m)
    | None => (Failure (Some 404), m) end;
  put_object k body mime m := (Answer (), <[k := mkS3Object body (Some mime) None]> m);
  list_objects prefix max token m :=
    let rest := page_after token (bucket_keys prefix m) in let page := take (Z.to_nat max) rest in
    Answer (mkListAnswer page (bool_decide (length page < length rest)%nat) (last page));
  delete_objects keys m := (Answer [], filter (λ kv, kv.1 ∉ keys) m);
  object_at m k := m !! k;
}.

#[export, program] Instance map_bucket_laws : ObjectStoreLaws (gmap text S3Object) := {| keys_with := bucket_keys |}.
Next Obligation.
  intros prefix b k. unfold bucket_keys. rewrite list_elem_of_filter, list_elem_of_fmap. simpl. split.
  - intros (? & [k' o] & -> & H%elem_of_map_to_list). eauto.
  - intros (? & o & H). split; [done|]. exists (k, o). by rewrite elem_of_map_to_list.
Qed.
Next Obligation. intros prefix b. apply NoDup_filter, NoDup_fst_map_to_list. Qed.
Next Obligation.
  intros key b g chunks. simpl. destruct (b !! key) as [o|]; [|done]. intros [= <-]. simpl. intros [= <-] _.
  exists o. simpl. by rewrite app_nil_r.
Qed.
Next Obligation.
  intros prefix max b l. simpl. intros [= <-] Hmax. cbn [la_keys la_truncated page_after]. split; [done|].
  intros H%bool_decide_eq_true. rewrite length_take. rewrite length_take in H.
  destruct (Nat.min_spec (Z.to_nat max) (length (bucket_keys prefix b))) as [[? ->]|[_ Heq]]; [done|].
  exfalso. revert H. unfold page_after. rewrite Heq. lia.
Qed.
Next Obligation.
  intros keys b errors b' k. simpl. intros [= <- <-]. simpl. case_decide as Hd.
  - apply map_lookup_filter_None. right. intros o _. naive_solver.
  - destruct (b !! k) as [o|] eqn:Ho; [|apply map_lookup_filter_None; by left].
    apply map_lookup_filter_Some. split; [done|]. simpl. intros Hin. apply Hd. split; [done|set_solver].
Qed.
Next Obligation.
  intros src dst etag mime sha b k Hk. simpl. destruct (b !! src); simpl; [|done]. case_match; simpl; [by rewrite lookup_insert_ne|done].
Qed.
Next Obligation. intros key body mime b k Hk. simpl. by rewrite lookup_insert_ne. Qed.
Next Obligation. done. Qed.

Definition demo_storage (m : gmap text S3Object) : Storage (gmap text S3Object) := mkStorage true (mkStorageCapability true true true) m.
Definition demo_object : S3Object := mkS3Object [1; 2; 3] None None.
Definition demo_bucket : gmap text S3Object := list_to_map [(lit "p/staging/f1", demo_object); (lit "p/files/a", demo_object); (lit "q/x", demo_object)].

Lemma deleteObjectPrefix_ends_witness :
  let '(r, s') := deleteObjectPrefix 4 (lit "p/staging") (demo_storage demo_bucket) in
  r ≠ Err no_fuel
  ∧ (r = Ok () → ∀ k, starts_with (directory (lit "p/staging")) k = true → object_at (sg_bucket s') k = None)
  ∧ (∀ k, starts_with (directory (lit "p/staging")) k = false → object_at (sg_bucket s') k = object_at (sg_bucket (demo_storage demo_bucket)) k).
Proof. apply (deleteObjectPrefix_ends 4 (lit "p/staging") (demo_storage demo_bucket)). vm_compute. lia. Defined.
Example demo_delete :
  (deleteObjectPrefix 4 (lit "p/staging") (demo_storage demo_bucket)).1 = Ok ()
  ∧ size (sg_bucket (deleteObjectPrefix 4 (lit "p/staging") (demo_storage demo_bucket)).2) = 2%nat.
Proof. split; by vm_compute. Qed.

