(* ===== verification/Presence.v ===== *)
(** * Presence ([presence/presence.service.ts], [presence/presence.gateway.ts])

    The gateway keeps in memory which sockets each user has connected.  Its
    handlers are asynchronous: between two [await]s they run alone, at an
    [await] every other handler may run.  A [Thread] is a handler stopped at an
    [await]; [resume] runs it to its next one, in one piece.  Timers that are
    set may fire at any moment ([fire_*]). *)

From S2P Require Import Prelude Tables JsText Json Schema.
Local Open Scope Z_scope.

(** ** The service *)

Section service.
Context `{!ScanOrder}.

(** [onModuleInit] *)
Definition onModuleInit (now : instant) (d : DB) : DB :=
  d <| db_presences := update_many (λ _ r, bool_decide (pr_status r ∈ [PR_online; PR_idle]))
         (λ r, r <| pr_status := PR_offline |> <| pr_lastSeenAt := now |> <| pr_updatedAt := now |>) (db_presences d) |>.

(** [setOnline], [setOffline], [setIdle]: one upsert each *)
Definition set_presence (status : PresenceStatus) (userId : rowid) (now : instant) (d : DB) : DB :=
  d <| db_presences := <[userId :=
    match db_presences d !! userId with
    | Some r => r <| pr_status := status |> <| pr_lastSeenAt := now |> <| pr_updatedAt := now |>
    | None => mkPresence status now now
    end]> (db_presences d) |>.

Definition getPresence (userId : rowid) (d : DB) : PresenceStatus * option instant :=
  match db_presences d !! userId with Some r => (pr_status r, Some (pr_updatedAt r)) | None => (PR_offline, None) end.

Definition user_open_id (userId : rowid) (d : DB) : bool := match db_users d !! userId with Some u => user_open u | None => false end.

(** [getFriendIds] *)
Definition getFriendIds (userId : rowid) (d : DB) : list rowid :=
  snd <$> filter (λ p, p.1 = userId ∧ user_open_id p.2 d = true) (scan_pairs (db_friendships d)).

Record FriendPresence := mkFriendPresence { fp_userId : rowid; fp_status : PresenceStatus; fp_updatedAt : option instant }.
Definition open_friends (userId : rowid) (d : DB) : list rowid := if user_open_id userId d then getFriendIds userId d else [].
Definition getFriendsPresence (userId : rowid) (d : DB) : list FriendPresence :=
  (λ friendId, let '(s, t) := getPresence friendId d in mkFriendPresence friendId s t) <$> open_friends userId d.
Definition getOnlineFriends (userId : rowid) (d : DB) : list (rowid * Presence) :=
  find_many (λ k r, bool_decide (k ∈ open_friends userId d) && (pr_status r == PR_online)) (db_presences d).
End service.

(** [SocketAuthService.isSessionActive] *)
Definition isSessionActive (userId deviceId : rowid) (now : instant) (d : DB) : bool :=
  match find_unique (λ _ s, (ds_userId s == userId) && (ds_deviceId s == deviceId)) (db_deviceSessions d) with
  | Some (_, s) => negb (is_set (ds_revokedAt s)) && (now <? ds_expiresAt s) && user_open_id userId d
  | None => false
  end.

(** ** The gateway's memory *)

Abbreviation socketid := string (only parsing).

(** [PendingSocketConnection], an object shared between the handler that made
    it and [pendingSockets]. *)
Record Pending := mkPending { pd_socketId : socketid; pd_userId : rowid; pd_deviceId : rowid; pd_invalidated : bool; pd_userGeneration : Z; pd_deviceGeneration : Z }.
#[export] Instance eta_Pending : Eta Pending := λ r,
  mkPending (pd_socketId r) (pd_userId r) (pd_deviceId r) (pd_invalidated r) (pd_userGeneration r) (pd_deviceGeneration r).

Record Gateway := mkGateway {
  g_userSockets : gmap rowid (gset socketid);
  g_pendingSockets : gmap socketid nat;
  g_objects : gmap nat Pending;
  g_userRevocationGeneration : gmap rowid Z;
  g_deviceRevocationGeneration : gmap (rowid * rowid) Z;
  g_offlineTimers : gset rowid;
  g_activityTimers : gset rowid;
  g_validationTimers : gset socketid;
  g_socketActivity : gmap socketid instant;
  g_reconnectEvents : list instant;
  (** the sockets of the server: their user and device, and whether they are
      still connected *)
  g_sockets : gmap socketid (rowid * rowid * bool);
}.
#[export] Instance eta_Gateway : Eta Gateway := λ r,
  mkGateway (g_userSockets r) (g_pendingSockets r) (g_objects r) (g_userRevocationGeneration r) (g_deviceRevocationGeneration r)
    (g_offlineTimers r) (g_activityTimers r) (g_validationTimers r) (g_socketActivity r) (g_reconnectEvents r) (g_sockets r).

Definition RECONNECT_WINDOW_MS : Z := 15 * 60000.
Definition MAX_RECONNECT_EVENTS : nat := 10000.

(** [this.userSockets.get(userId) ?? new Set()] *)
Definition sockets_of (userId : rowid) (g : Gateway) : gset socketid := default ∅ (g_userSockets g !! userId).
Definition has_socket (userId : rowid) (sid : socketid) (g : Gateway) : bool := bool_decide (sid ∈ sockets_of userId g).
Definition user_generation (userId : rowid) (g : Gateway) : Z := default 0 (g_userRevocationGeneration g !! userId).
Definition device_generation (userId deviceId : rowid) (g : Gateway) : Z := default 0 (g_deviceRevocationGeneration g !! (userId, deviceId)).
Definition isConnected (sid : socketid) (g : Gateway) : bool := match g_sockets g !! sid with Some (_, c) => c | None => false end.
(** [socket.disconnect(true)] *)
Definition disconnect (sid : socketid) (g : Gateway) : Gateway :=
  g <| g_sockets := alter (λ s, (s.1, false)) sid (g_sockets g) |>.
Definition isUserOnline (userId : rowid) (g : Gateway) : bool := bool_decide (sockets_of userId g ≠ ∅).

(** [registerPendingConnection], with a fresh object [t] *)
Definition registerPendingConnection (sid : socketid) (userId deviceId : rowid) (t : nat) (g : Gateway) : Gateway :=
  g <| g_objects := <[t := mkPending sid userId deviceId false (user_generation userId g) (device_generation userId deviceId g)]> (g_objects g) |>
    <| g_pendingSockets := <[sid := t]> (g_pendingSockets g) |>.

(** [canPromotePendingConnection] *)
Definition canPromote (sid : socketid) (t : nat) (g : Gateway) : bool :=
  (g_pendingSockets g !! sid == Some t)
  && match g_objects g !! t with
     | Some p => negb (pd_invalidated p) && isConnected sid g
                 && (user_generation (pd_userId p) g =? pd_userGeneration p)
                 && (device_generation (pd_userId p) (pd_deviceId p) g =? pd_deviceGeneration p)
     | None => false
     end.

(** [dropPendingConnection(socketId, true)] *)
Definition dropPendingConnection (sid : socketid) (g : Gateway) : Gateway :=
  disconnect sid
    match g_pendingSockets g !! sid with
    | Some t => g <| g_objects := alter (λ p, p <| pd_invalidated := true |>) t (g_objects g) |>
                  <| g_pendingSockets := delete sid (g_pendingSockets g) |>
    | None => g
    end.

Definition forget_socket (sid : socketid) (g : Gateway) : Gateway :=
  g <| g_socketActivity := delete sid (g_socketActivity g) |> <| g_validationTimers := g_validationTimers g ∖ {[sid]} |>.

(** [removeRegisteredSocket] *)
Definition removeRegisteredSocket (userId : rowid) (sid : socketid) (g : Gateway) : Gateway :=
  let sockets := sockets_of userId g ∖ {[sid]} in
  forget_socket sid
    (g <| g_userSockets := match g_userSockets g !! userId with
                           | None => g_userSockets g
                           | Some _ => if bool_decide (sockets = ∅) then delete userId (g_userSockets g) else <[userId := sockets]> (g_userSockets g)
                           end |>).

(** [clearUserTimers] *)
Definition clearUserTimers (userId : rowid) (g : Gateway) : Gateway :=
  g <| g_offlineTimers := g_offlineTimers g ∖ {[userId]} |> <| g_activityTimers := g_activityTimers g ∖ {[userId]} |>.

(** [pruneReconnectEvents], [recordReconnect] *)
Fixpoint pruneReconnectEvents (now : instant) (l : list instant) : list instant :=
  match l with [] => [] | t :: l' => if t <? now - RECONNECT_WINDOW_MS then pruneReconnectEvents now l' else l end.
Definition recordReconnect (now : instant) (g : Gateway) : Gateway :=
  let events := pruneReconnectEvents now (g_reconnectEvents g) ++ [now] in
  g <| g_reconnectEvents := drop (length events - MAX_RECONNECT_EVENTS) events |>.

Record Snapshot := mkSnapshot { op_connectionCount : nat; op_connectedUsers : nat; op_reconnectCount : nat }.
(** [getOperationalSnapshot] *)
Definition getOperationalSnapshot (now : instant) (g : Gateway) : Snapshot * Gateway :=
  let events := pruneReconnectEvents now (g_reconnectEvents g) in
  (mkSnapshot (map_fold (λ _ s acc, size s + acc)%nat 0%nat (g_userSockets g)) (size (g_userSockets g)) (length events),
   g <| g_reconnectEvents := events |>).

(** ** Handlers stopped at an [await] *)

(** What the caller of [publishAggregatePresence] does when it returns. *)
Inductive After := A_nothing | A_idle (userId : rowid) | A_idle_if_connected (userId : rowid).
(** What follows the end of [publishPresence]. *)
Inductive Cont :=
  | C_after (a : After)
  | C_connected (sid : socketid) (userId deviceId : rowid) (t : nat)
  | C_reconcile (userId : rowid) (generation : Z) (a : After).
Inductive Why := W_activity | W_timer.

Inductive Thread :=
  | ConnCheck (sid : socketid) (userId deviceId : rowid) (t : nat)
  | ConnChecked (sid : socketid) (userId deviceId : rowid) (t : nat) (active : bool)
  | ConnRecheck (sid : socketid) (userId deviceId : rowid) (t : nat)
  | ConnRechecked (sid : socketid) (userId deviceId : rowid) (t : nat) (active : bool)
  | Publish (userId : rowid) (status : PresenceStatus) (k : Cont)
  | Published (userId : rowid) (status : PresenceStatus) (updatedAt : instant) (k : Cont)
  | Revalidate (userId : rowid) (generation : Z) (sid : socketid) (deviceId : rowid) (todo invalid : list socketid) (a : After)
  | Revalidated (userId : rowid) (generation : Z) (sid : socketid) (todo invalid : list socketid) (a : After) (active : bool)
  | Validate (sid : socketid) (userId deviceId : rowid) (w : Why)
  | Validated (sid : socketid) (userId : rowid) (w : Why) (active : bool).

Definition status_name (s : PresenceStatus) : string := match s with PR_online => "online" | PR_idle => "idle" | PR_offline => "offline" end.

Section gateway.
Context `{!ScanOrder}.
(** [PRESENCE_IDLE_SECONDS] and [PRESENCE_DISCONNECT_GRACE_SECONDS], read and
    clamped; how [new Date().toISOString()] writes an instant *)
Variable idleMs graceSeconds : Z.
Variable toISOString : instant → text.

(** [scheduleIdleCheck] *)
Definition scheduleIdleCheck (userId : rowid) (now : instant) (g : Gateway) : Gateway :=
  let expiring := existsb (λ sid, now <? default 0 (g_socketActivity g !! sid) + idleMs) (elements (sockets_of userId g)) in
  g <| g_activityTimers := if expiring then g_activityTimers g ∪ {[userId]} else g_activityTimers g ∖ {[userId]} |>.
Definition scheduleSessionValidation (sid : socketid) (g : Gateway) : Gateway :=
  g <| g_validationTimers := g_validationTimers g ∪ {[sid]} |>.

Definition run_after (a : After) (now : instant) (g : Gateway) : Gateway :=
  match a with
  | A_nothing => g
  | A_idle u => scheduleIdleCheck u now g
  | A_idle_if_connected u => if isUserOnline u g then scheduleIdleCheck u now g else g
  end.

(** [isPresencePublicationCurrent] *)
Definition publication_current (userId : rowid) (generation : Z) (g : Gateway) : bool :=
  (user_generation userId g =? generation) && isUserOnline userId g.

(** [publishAggregatePresence] after its revalidation *)
Definition aggregate (userId : rowid) (generation : Z) (a : After) (now : instant) (g : Gateway) : Gateway * list Thread :=
  if negb (publication_current userId generation g) then (run_after a now g, []) else
  let isAnyActive := existsb (λ sid, now - default 0 (g_socketActivity g !! sid) <? idleMs) (elements (sockets_of userId g)) in
  (g, [Publish userId (if isAnyActive then PR_online else PR_idle) (C_reconcile userId generation a)]).

(** The end of [revalidateUserSockets]: drop the sockets found invalid. *)
Definition drop_invalid (userId : rowid) (invalid : list socketid) (g : Gateway) : Gateway :=
  let g1 := match g_userSockets g !! userId with
            | Some s => g <| g_userSockets := <[userId := s ∖ list_to_set invalid]> (g_userSockets g) |>
            | None => g
            end in
  foldl (λ g sid, disconnect sid (forget_socket sid g)) g1 invalid.
Definition end_revalidation (userId : rowid) (generation : Z) (invalid : list socketid) (a : After) (now : instant) (g : Gateway) : Gateway * list Thread :=
  let g1 := drop_invalid userId invalid g in
  if isUserOnline userId g1 then aggregate userId generation a now g1
  else match invalid with
       | [] => (run_after a now g1, [])
       | _ => (clearUserTimers userId (g1 <| g_userSockets := delete userId (g_userSockets g1) |>), [Publish userId PR_offline (C_after a)])
       end.

(** The loop of [revalidateUserSockets], to the next query. *)
Fixpoint revalidate (userId : rowid) (generation : Z) (todo invalid : list socketid) (a : After) (now : instant) (g : Gateway) : Gateway * list Thread :=
  match todo with
  | [] => end_revalidation userId generation invalid a now g
  | sid :: todo' =>
      match g_sockets g !! sid with
      | Some ((_, deviceId), true) => (g, [Revalidate userId generation sid deviceId todo' invalid a])
      | _ => revalidate userId generation todo' invalid a now g
      end
  end.

Definition publishAggregatePresence (userId : rowid) (a : After) (now : instant) (g : Gateway) : Gateway * list Thread :=
  revalidate userId (user_generation userId g) (elements (sockets_of userId g)) [] a now g.

(** [reconcilePresenceAfterAbort] *)
Definition reconcilePresenceAfterAbort (userId : rowid) (now : instant) (g : Gateway) : Gateway * list Thread :=
  if isUserOnline userId g then publishAggregatePresence userId (A_idle userId) now g
  else (clearUserTimers userId g, [Publish userId PR_offline (C_after A_nothing)]).

Definition abort_connection (sid : socketid) (userId : rowid) (now : instant) (g : Gateway) : Gateway * list Thread :=
  reconcilePresenceAfterAbort userId now (dropPendingConnection sid (removeRegisteredSocket userId sid g)).

(** ** Handlers *)

(** [handleConnection] to its first [await]; [t] is the fresh object *)
Definition handleConnection (sid : socketid) (data : option (rowid * rowid)) (t : nat) (g : Gateway) : Gateway * list Thread :=
  match data with
  | Some (userId, deviceId) =>
      if (userId == "") || (deviceId == "") then (disconnect sid g, [])
      else (registerPendingConnection sid userId deviceId t g, [ConnCheck sid userId deviceId t])
  | None => (disconnect sid g, [])
  end.

(** The registration of a socket, lines 77-103. *)
Definition register_socket (sid : socketid) (userId deviceId : rowid) (t : nat) (now : instant) (g : Gateway) : Gateway * list Thread :=
  let g1 := if bool_decide (userId ∈ g_offlineTimers g)
            then recordReconnect now (g <| g_offlineTimers := g_offlineTimers g ∖ {[userId]} |>) else g in
  if negb (canPromote sid t g1) then (dropPendingConnection sid g1, []) else
  let g2 := g1 <| g_socketActivity := <[sid := now]> (g_socketActivity g1) |>
               <| g_userSockets := <[userId := sockets_of userId g1 ∪ {[sid]}]> (g_userSockets g1) |> in
  if negb (canPromote sid t g2) || negb (has_socket userId sid g2) then abort_connection sid userId now g2
  else (g2, [Publish userId PR_online (C_connected sid userId deviceId t)]).

(** [handleDisconnect] *)
Definition handleDisconnect (sid : socketid) (now : instant) (g : Gateway) : Gateway * list Thread :=
  let g0 := g <| g_pendingSockets := delete sid (g_pendingSockets g) |> in
  match g_sockets g !! sid with
  | None => (g0, [])
  | Some ((userId, _), _) =>
      match g_userSockets g0 !! userId with
      | None => (g0, [])
      | Some s =>
          let sockets := s ∖ {[sid]} in
          let g1 := forget_socket sid (g0 <| g_userSockets := <[userId := sockets]> (g_userSockets g0) |>) in
          if bool_decide (sockets ≠ ∅) then publishAggregatePresence userId (A_idle userId) now g1
          else
            let g2 := g1 <| g_userSockets := delete userId (g_userSockets g1) |> <| g_activityTimers := g_activityTimers g1 ∖ {[userId]} |> in
            if graceSeconds =? 0 then (g2, [Publish userId PR_offline (C_after A_nothing)])
            else (g2 <| g_offlineTimers := g_offlineTimers g2 ∪ {[userId]} |>, [])
      end
  end.

(** The pending connections of a user, or of one of their devices. *)
Definition pending_ids (p : Pending → bool) (g : Gateway) : list socketid :=
  omap (λ st, match g_objects g !! st.2 with Some o => if p o then Some st.1 else None | None => None end) (map_to_list (g_pendingSockets g)).
Definition drop_pending (p : Pending → bool) (g : Gateway) : Gateway := foldl (λ g sid, dropPendingConnection sid g) g (pending_ids p g).

(** [disconnectUser] *)
Definition disconnectUser (userId : rowid) (g : Gateway) : Gateway * list Thread :=
  let g1 := g <| g_userRevocationGeneration := <[userId := user_generation userId g + 1]> (g_userRevocationGeneration g) |> in
  let g2 := drop_pending (λ o, pd_userId o == userId) g1 in
  let ids := elements (sockets_of userId g2) in
  let g3 := clearUserTimers userId g2 in
  let g4 := g3 <| g_userSockets := delete userId (g_userSockets g3) |> in
  (foldl (λ g sid, disconnect sid (forget_socket sid g)) g4 ids, [Publish userId PR_offline (C_after A_nothing)]).

(** [disconnectDevice] *)
Definition disconnectDevice (userId deviceId : rowid) (g : Gateway) : Gateway :=
  let g1 := g <| g_deviceRevocationGeneration := <[(userId, deviceId) := device_generation userId deviceId g + 1]> (g_deviceRevocationGeneration g) |> in
  let g2 := drop_pending (λ o, (pd_userId o == userId) && (pd_deviceId o == deviceId)) g1 in
  foldl (λ g sid, match g_sockets g !! sid with
                  | Some ((_, d), true) => if d == deviceId then disconnect sid g else g
                  | _ => g
                  end) g2 (elements (sockets_of userId g2)).

(** [validateClientSession] to its query *)
Definition validateClientSession (sid : socketid) (w : Why) (g : Gateway) : Gateway * list Thread :=
  match g_sockets g !! sid with
  | Some ((userId, deviceId), _) =>
      if (userId == "") || (deviceId == "") then (disconnect sid g, []) else (g, [Validate sid userId deviceId w])
  | None => (g, [])
  end.
Definition handleActivity (sid : socketid) : Gateway → Gateway * list Thread := validateClientSession sid W_activity.

(** The timers *)
Definition fire_offline (userId : rowid) (g : Gateway) : Gateway * list Thread :=
  let g1 := g <| g_offlineTimers := g_offlineTimers g ∖ {[userId]} |> in
  if is_set (g_userSockets g1 !! userId) then (g1, []) else (g1, [Publish userId PR_offline (C_after A_nothing)]).
Definition fire_activity (userId : rowid) (now : instant) (g : Gateway) : Gateway * list Thread :=
  publishAggregatePresence userId (A_idle_if_connected userId) now (g <| g_activityTimers := g_activityTimers g ∖ {[userId]} |>).
Definition fire_validation (sid : socketid) (g : Gateway) : Gateway * list Thread :=
  validateClientSession sid W_timer (g <| g_validationTimers := g_validationTimers g ∖ {[sid]} |>).

(** After [publishPresence] returned. *)
Definition continue (k : Cont) (now : instant) (g : Gateway) : Gateway * list Thread :=
  match k with
  | C_after a => (run_after a now g, [])
  | C_connected sid userId deviceId t =>
      if negb (canPromote sid t g) || negb (has_socket userId sid g) then abort_connection sid userId now g
      else (g, [ConnRecheck sid userId deviceId t])
  | C_reconcile userId generation a =>
      if publication_current userId generation g || isUserOnline userId g then (run_after a now g, [])
      else (clearUserTimers userId g, [Publish userId PR_offline (C_after a)])
  end.

(** The end of [publishPresence]: every friend hears the status written. *)
Definition publishPresence (userId : rowid) (status : PresenceStatus) (updatedAt : instant) (w : World) : World :=
  let payload := [("userId", JStr (lit userId)); ("status", JStr (lit (status_name status))); ("updatedAt", JStr (toISOString updatedAt))] in
  w <| w_events := w_events w ++ ((λ f, mkEvent f "presence.updated" payload) <$> getFriendIds userId (w_db w)) |>.

(** One handler runs to its next [await]. *)
Definition resume (th : Thread) (now : instant) (w : World) (g : Gateway) : World * (Gateway * list Thread) :=
  match th with
  | ConnCheck sid u dv t => (w, (g, [ConnChecked sid u dv t (isSessionActive u dv now (w_db w))]))
  | ConnChecked sid u dv t active =>
      (w, if negb active || negb (canPromote sid t g) then (dropPendingConnection sid g, []) else register_socket sid u dv t now g)
  | ConnRecheck sid u dv t => (w, (g, [ConnRechecked sid u dv t (isSessionActive u dv now (w_db w))]))
  | ConnRechecked sid u dv t active =>
      (w, if negb active || negb (canPromote sid t g) || negb (has_socket u sid g) then abort_connection sid u now g
          else (scheduleSessionValidation sid (scheduleIdleCheck u now (g <| g_pendingSockets := delete sid (g_pendingSockets g) |>)), []))
  | Publish u s k => (w <| w_db := set_presence s u now (w_db w) |>, (g, [Published u s now k]))
  | Published u s at_ k =>
      (publishPresence u s at_ w, continue k now g)
  | Revalidate u gen sid dv todo invalid a => (w, (g, [Revalidated u gen sid todo invalid a (isSessionActive u dv now (w_db w))]))
  | Revalidated u gen sid todo invalid a active => (w, revalidate u gen todo (if active then invalid else invalid ++ [sid]) a now g)
  | Validate sid u dv wh => (w, (g, [Validated sid u wh (isSessionActive u dv now (w_db w))]))
  | Validated sid u wh active =>
      (w, let g1 := if active then g else disconnect sid g in
          if negb active || negb (isConnected sid g1) || negb (has_socket u sid g1) then (g1, []) else
          match wh with
          | W_timer => (scheduleSessionValidation sid g1, [])
          | W_activity =>
              if now - default 0 (g_socketActivity g1 !! sid) <? 15000 then (g1, [])
              else publishAggregatePresence u (A_idle_if_connected u) now (g1 <| g_socketActivity := <[sid := now]> (g_socketActivity g1) |>)
          end)
  end.
End gateway.
