(* ===== verification/PresenceSystem.v ===== *)
(** * The presence gateway as a system of interleaved handlers

    [Sys] is the server's database, the gateway's memory and the handlers that
    wait at an [await].  A [Move] starts a handler, fires a timer, lets a
    waiting handler run on, or is the work of another service, none of which
    writes [Presence]; [move] performs it.  The handlers that wait may be resumed in any order: the answers of
    the database come back in any order.  Socket.IO gives every socket a fresh
    id and reports the end of a socket by a call of [handleDisconnect], here
    the move [M_gone], possible at any time. *)

From S2P Require Import Prelude Tables JsText Json Schema Presence.
Local Open Scope Z_scope.

Record Sys := mkSys { sy_world : World; sy_gate : Gateway; sy_threads : list Thread; sy_fresh : nat }.
#[export] Instance eta_Sys : Eta Sys := λ r, mkSys (sy_world r) (sy_gate r) (sy_threads r) (sy_fresh r).

Definition empty_gateway : Gateway := mkGateway ∅ ∅ ∅ ∅ ∅ ∅ ∅ ∅ ∅ [] ∅.
Definition start (d : DB) : Sys := mkSys (mkWorld d []) empty_gateway [] 0.

Inductive Move :=
  | M_connect (sid : socketid) (userId deviceId : rowid)
  | M_gone (sid : socketid)
  | M_activity (sid : socketid)
  | M_fire_offline (userId : rowid)
  | M_fire_activity (userId : rowid)
  | M_fire_validation (sid : socketid)
  | M_disconnectUser (userId : rowid)
  | M_disconnectDevice (userId deviceId : rowid)
  | M_resume (i : nat)
  | M_elsewhere (w : World).

Section system.
Context {Hscan : ScanOrder}.
Variable idleMs graceSeconds : Z.
Variable toISOString : instant → text.

(** A socket whose handshake the middleware let pass. *)
Definition connect (sid : socketid) (userId deviceId : rowid) (t : nat) (g : Gateway) : Gateway * list Thread :=
  handleConnection sid (Some (userId, deviceId)) t (g <| g_sockets := <[sid := (userId, deviceId, true)]> (g_sockets g) |>).

Definition gone (sid : socketid) (now : instant) (g : Gateway) : Gateway * list Thread :=
  handleDisconnect idleMs graceSeconds sid now (disconnect sid g).

Definition run_handler (s : Sys) (r : Gateway * list Thread) : Sys :=
  s <| sy_gate := r.1 |> <| sy_threads := sy_threads s ++ r.2 |>.

Definition resume_at (i : nat) (now : instant) (s : Sys) : option Sys :=
  th ← sy_threads s !! i;
  let '(w, r) := resume idleMs toISOString th now (sy_world s) (sy_gate s) in
  Some (run_handler (s <| sy_world := w |> <| sy_threads := delete i (sy_threads s) |>) r).

Definition move (m : Move) (now : instant) (s : Sys) : option Sys :=
  let g := sy_gate s in
  match m with
  | M_connect sid u d =>
      if is_set (g_sockets g !! sid) then None
      else Some (run_handler (s <| sy_fresh := S (sy_fresh s) |>) (connect sid u d (sy_fresh s) g))
  | M_gone sid => Some (run_handler s (gone sid now g))
  | M_activity sid => if isConnected sid g then Some (run_handler s (handleActivity sid g)) else None
  | M_fire_offline u => if bool_decide (u ∈ g_offlineTimers g) then Some (run_handler s (fire_offline u g)) else None
  | M_fire_activity u => if bool_decide (u ∈ g_activityTimers g) then Some (run_handler s (fire_activity idleMs u now g)) else None
  | M_fire_validation sid => if bool_decide (sid ∈ g_validationTimers g) then Some (run_handler s (fire_validation sid g)) else None
  | M_disconnectUser u => Some (run_handler s (disconnectUser u g))
  | M_disconnectDevice u d => Some (run_handler s (disconnectDevice u d g, []))
  | M_resume i => resume_at i now s
  | M_elsewhere w => Some (s <| sy_world := w <| w_db := (w_db w) <| db_presences := db_presences (w_db (sy_world s)) |> |> |>)
  end.

(** [moves ms s s']: the moves [ms] were made, at any times. *)
Inductive moves : list (Move * instant) → Sys → Sys → Prop :=
  | moves_nil s : moves [] s s
  | moves_cons m now ms s s1 s' : move m now s = Some s1 → moves ms s1 s' → moves ((m, now) :: ms) s s'.
Definition sys_reachable (s : Sys) : Prop := ∃ d ms, moves ms (start d) s.
End system.
