(* ===== verification/PresenceSafety.v ===== *)
(** * What the presence gateway guarantees, however its handlers interleave

    [calmer] relates the gateway's memory before and after everything but the
    arrival and the registration of a socket: sockets only disconnect, pending
    connections and registrations only go.  Each gateway function is shown
    calmer once; the invariant [GateInv] and the theorems follow from that. *)

From S2P Require Import Prelude Tables JsText Json Schema Presence PresenceSystem.
Local Open Scope Z_scope.

(** ** Facts on one memory *)

Definition same_object (o o' : Pending) : Prop :=
  pd_socketId o' = pd_socketId o ∧ pd_userId o' = pd_userId o ∧ pd_deviceId o' = pd_deviceId o.

(** The ticket [t] is the pending connection of the socket [sid]. *)
Definition ticket (g : Gateway) (sid : socketid) (u d : rowid) (t : nat) : Prop :=
  (∃ o, g_objects g !! t = Some o ∧ pd_socketId o = sid ∧ pd_userId o = u ∧ pd_deviceId o = d)
  ∧ ∃ c, g_sockets g !! sid = Some (u, d, c).

Definition covered (g : Gateway) (sid : socketid) (u : rowid) : Prop :=
  is_Some (g_pendingSockets g !! sid) ∨ sid ∈ sockets_of u g.

Record calmer (g g' : Gateway) : Prop := {
  calm_sockets sid u d c' : g_sockets g' !! sid = Some (u, d, c') → ∃ c, g_sockets g !! sid = Some (u, d, c) ∧ (c' = true → c = true);
  calm_kept sid u d c : g_sockets g !! sid = Some (u, d, c) → ∃ c', g_sockets g' !! sid = Some (u, d, c');
  calm_pending sid t : g_pendingSockets g' !! sid = Some t → g_pendingSockets g !! sid = Some t;
  calm_objects t : option_Forall2 same_object (g_objects g !! t) (g_objects g' !! t);
  calm_registered u : sockets_of u g' ⊆ sockets_of u g;
  calm_covered sid u d : g_sockets g' !! sid = Some (u, d, true) → covered g sid u → covered g' sid u;
  calm_events : (length (g_reconnectEvents g) ≤ MAX_RECONNECT_EVENTS → length (g_reconnectEvents g') ≤ MAX_RECONNECT_EVENTS)%nat;
}.

#[export] Instance same_object_preorder : PreOrder same_object.
Proof. split; [intros o; by split_and!|]. intros o1 o2 o3 (?&?&?) (?&?&?). split_and!; congruence. Qed.

#[export] Instance calmer_preorder : PreOrder calmer.
Proof.
  split.
  - intros g. split; eauto. intros t. destruct (g_objects g !! t); by constructor.
  - intros g1 g2 g3 [s1 k1 p1 o1 r1 c1 e1] [s2 k2 p2 o2 r2 c2 e2]. split.
    + intros sid u d c' H. apply s2 in H as (c & H & ?). apply s1 in H as (? & ? & ?). eauto.
    + intros sid u d c H. apply k1 in H as [c' H]. eauto.
    + auto.
    + intros t. specialize (o1 t). specialize (o2 t). destruct o1; inversion o2; subst; constructor. etrans; eauto.
    + intros u. etrans; eauto.
    + intros sid u d H ?. eapply c2; [done|]. pose proof H as (c & Hc & Ht)%s2. rewrite (Ht eq_refl) in Hc. eauto.
    + auto.
Qed.

(** ** The gateway's functions are calmer *)

Section calm.

(** What [calmer] looks at. *)
Definition same_core (g g' : Gateway) : Prop :=
  g_sockets g' = g_sockets g ∧ g_pendingSockets g' = g_pendingSockets g ∧ g_objects g' = g_objects g
  ∧ (∀ u, sockets_of u g' = sockets_of u g) ∧ (length (g_reconnectEvents g) ≤ MAX_RECONNECT_EVENTS → length (g_reconnectEvents g') ≤ MAX_RECONNECT_EVENTS)%nat.
Lemma calm_same g g' : same_core g g' → calmer g g'.
Proof.
  intros (Hs & Hp & Ho & Hu & He). split.
  - rewrite Hs. eauto.
  - rewrite Hs. eauto.
  - by rewrite Hp.
  - intros t. rewrite Ho. destruct (g_objects g !! t); by constructor.
  - intros u. by rewrite Hu.
  - unfold covered. intros sid u d _. by rewrite Hp, Hu.
  - done.
Qed.

Lemma isConnected_spec sid g : isConnected sid g = true ↔ ∃ u d, g_sockets g !! sid = Some (u, d, true).
Proof. unfold isConnected. destruct (g_sockets g !! sid) as [[[u d] []]|]; naive_solver. Qed.

(** Dropping registrations and pending connections of sockets that are
    disconnected as well. *)
Lemma calm_drop (gone : socketid → Prop) g g' :
  (∀ sid, g_sockets g' !! sid = g_sockets g !! sid ∨ g_sockets g' !! sid = (λ s, (s.1, false)) <$> g_sockets g !! sid) →
  (∀ sid, gone sid → isConnected sid g' = false) →
  (∀ sid t, g_pendingSockets g' !! sid = Some t → g_pendingSockets g !! sid = Some t) →
  (∀ sid, ¬ gone sid → g_pendingSockets g' !! sid = g_pendingSockets g !! sid) →
  (∀ t, option_Forall2 same_object (g_objects g !! t) (g_objects g' !! t)) →
  (∀ u, sockets_of u g' ⊆ sockets_of u g) →
  (∀ u sid, ¬ gone sid → sid ∈ sockets_of u g → sid ∈ sockets_of u g') →
  (length (g_reconnectEvents g) ≤ MAX_RECONNECT_EVENTS → length (g_reconnectEvents g') ≤ MAX_RECONNECT_EVENTS)%nat →
  calmer g g'.
Proof.
  intros Hs Hg Hp1 Hp2 Ho Hr1 Hr2 He. split; auto.
  - intros sid u d c' H. destruct (Hs sid) as [Heq|Heq]; rewrite Heq in H; [eauto|].
    destruct (g_sockets g !! sid) as [[[??] c]|]; simplify_eq/=; eexists; split; [done|]; done.
  - intros sid u d c H. destruct (Hs sid) as [Heq|Heq]; rewrite H in Heq; simpl in Heq; eauto.
  - intros sid u d H Hc. assert (¬ gone sid) as Hng.
    { intros Hgone%Hg. assert (isConnected sid g' = true) as Ht by (apply isConnected_spec; eauto). congruence. }
    destruct Hc as [Hc|Hc]; [left; by rewrite Hp2|right; eauto].
Qed.

Lemma objects_refl g t : option_Forall2 same_object (g_objects g !! t) (g_objects g !! t).
Proof. destruct (g_objects g !! t); by constructor. Qed.

Lemma disconnect_sockets sid g sid' :
  g_sockets (disconnect sid g) !! sid' = if decide (sid = sid') then (λ s, (s.1, false)) <$> g_sockets g !! sid' else g_sockets g !! sid'.
Proof. simpl. rewrite lookup_alter. by case_decide; subst. Qed.
Lemma disconnect_isConnected sid g : isConnected sid (disconnect sid g) = false.
Proof. unfold isConnected. rewrite disconnect_sockets, decide_True by done. by destruct (g_sockets g !! sid) as [[]|]. Qed.
Lemma disconnect_either sid g sid' :
  g_sockets (disconnect sid g) !! sid' = g_sockets g !! sid' ∨ g_sockets (disconnect sid g) !! sid' = (λ s, (s.1, false)) <$> g_sockets g !! sid'.
Proof. rewrite disconnect_sockets. case_decide; auto. Qed.

Lemma calm_disconnect sid g : calmer g (disconnect sid g).
Proof.
  apply (calm_drop (λ _, False)); try done.
  - intros sid'. apply disconnect_either.
Qed.
Lemma calm_forget sid g : calmer g (forget_socket sid g).
Proof. by apply calm_same. Qed.
Lemma calm_dropPending sid g : calmer g (dropPendingConnection sid g).
Proof.
  unfold dropPendingConnection. destruct (g_pendingSockets g !! sid) as [t|] eqn:Hp; [|apply calm_disconnect].
  apply (calm_drop (λ sid', sid' = sid)); try done.
  - intros sid'. match goal with |- context [disconnect sid ?g1] => apply (disconnect_either sid g1) end.
  - intros ? ->. apply disconnect_isConnected.
  - simpl. intros sid' t' H%lookup_delete_Some. naive_solver.
  - simpl. intros sid' Hne. by rewrite lookup_delete_ne.
  - simpl. intros t'. destruct (decide (t = t')) as [->|].
    + rewrite lookup_alter_eq. by destruct (g_objects g !! t'); constructor.
    + rewrite lookup_alter_ne by done. apply objects_refl.
Qed.
Lemma calm_clearUserTimers u g : calmer g (clearUserTimers u g).
Proof. by apply calm_same. Qed.
Lemma calm_scheduleIdle idleMs u now g : calmer g (scheduleIdleCheck idleMs u now g).
Proof. by apply calm_same. Qed.
Lemma calm_scheduleValidation sid g : calmer g (scheduleSessionValidation sid g).
Proof. by apply calm_same. Qed.
Lemma calm_run_after idleMs a now g : calmer g (run_after idleMs a now g).
Proof. destruct a; simpl; [done|apply calm_scheduleIdle|case_match; [apply calm_scheduleIdle|done]]. Qed.

Lemma calm_foldl {A} (f : Gateway → A → Gateway) l g : (∀ g x, calmer g (f g x)) → calmer g (foldl f g l).
Proof. intros Hf. revert g. induction l as [|x l IH]; intros g; [done|]. simpl. etrans; [apply Hf|apply IH]. Qed.

Lemma sockets_of_delete u u' g :
  sockets_of u' (g <| g_userSockets := delete u (g_userSockets g) |>) = if decide (u' = u) then ∅ else sockets_of u' g.
Proof. unfold sockets_of. simpl. case_decide; subst; by rewrite ?lookup_delete_eq, ?lookup_delete_ne. Qed.
Lemma sockets_of_insert u u' s g :
  sockets_of u' (g <| g_userSockets := <[u := s]> (g_userSockets g) |>) = if decide (u' = u) then s else sockets_of u' g.
Proof. unfold sockets_of. simpl. case_decide; subst; by rewrite ?lookup_insert_eq, ?lookup_insert_ne. Qed.

(** Closing the sockets of a list, after their registrations went. *)
Definition close_all (l : list socketid) (g : Gateway) : Gateway := foldl (λ g sid, disconnect sid (forget_socket sid g)) g l.
Lemma close_all_core l g :
  g_pendingSockets (close_all l g) = g_pendingSockets g ∧ g_objects (close_all l g) = g_objects g
  ∧ g_userSockets (close_all l g) = g_userSockets g ∧ g_reconnectEvents (close_all l g) = g_reconnectEvents g.
Proof. revert g. induction l as [|sid l IH]; intros g; [done|]. exact (IH (disconnect sid (forget_socket sid g))). Qed.
Lemma close_all_sockets_of l g u : sockets_of u (close_all l g) = sockets_of u g.
Proof. unfold sockets_of. by destruct (close_all_core l g) as (_ & _ & -> & _). Qed.
Lemma close_all_sockets l g sid :
  g_sockets (close_all l g) !! sid = if decide (sid ∈ l) then (λ s, (s.1, false)) <$> g_sockets g !! sid else g_sockets g !! sid.
Proof.
  revert g. induction l as [|x l IH]; intros g; [by rewrite decide_False by set_solver|].
  change (close_all (x :: l) g) with (close_all l (disconnect x (forget_socket x g))).
  rewrite IH, disconnect_sockets. simpl.
  destruct (g_sockets g !! sid) as [[]|]; repeat case_decide; set_solver.
Qed.

(** Registrations of [u] in [l] go, and their sockets are closed. *)
Lemma calm_close l s u g g1 :
  g_userSockets g1 = s → g_sockets g1 = g_sockets g → g_pendingSockets g1 = g_pendingSockets g → g_objects g1 = g_objects g →
  g_reconnectEvents g1 = g_reconnectEvents g →
  (∀ u', sockets_of u' g1 = if decide (u' = u) then sockets_of u g ∖ list_to_set l else sockets_of u' g) →
  calmer g (close_all l g1).
Proof.
  intros _ Hs Hp Ho He Hu. destruct (close_all_core l g1) as (Hp' & Ho' & Hu' & He').
  pose proof (close_all_sockets_of l g1) as Hu2.
  apply (calm_drop (λ sid, sid ∈ l)).
  - intros sid. rewrite close_all_sockets, Hs. case_decide; auto.
  - intros sid Hin. unfold isConnected. rewrite close_all_sockets, decide_True by done. by destruct (_ !! _) as [[]|].
  - intros sid t. by rewrite Hp', Hp.
  - intros sid _. by rewrite Hp', Hp.
  - intros t. rewrite Ho', Ho. apply objects_refl.
  - intros u'. rewrite Hu2, Hu. case_decide; set_solver.
  - intros u' sid Hn Hin. rewrite Hu2, Hu. case_decide; set_solver.
  - by rewrite He', He.
Qed.

Lemma calm_drop_invalid u invalid g : calmer g (drop_invalid u invalid g).
Proof.
  unfold drop_invalid. eapply (calm_close invalid _ u); [done| | | | |]; try by destruct (g_userSockets g !! u).
  intros u'. unfold sockets_of. destruct (g_userSockets g !! u) as [s|] eqn:Hu; simpl.
  - case_decide; subst; by rewrite ?lookup_insert_eq, ?lookup_insert_ne.
  - case_decide; subst; rewrite ?Hu; set_solver.
Qed.

(** [removeRegisteredSocket] and [dropPendingConnection] together. *)
Lemma calm_abort u sid g : calmer g (dropPendingConnection sid (removeRegisteredSocket u sid g)).
Proof.
  assert (∀ u', sockets_of u' (removeRegisteredSocket u sid g) = if decide (u' = u) then sockets_of u g ∖ {[sid]} else sockets_of u' g) as Hu.
  { intros u'. unfold removeRegisteredSocket. change (sockets_of u' (forget_socket sid ?h)) with (sockets_of u' h).
    destruct (g_userSockets g !! u) as [s|] eqn:Hs.
    - case_bool_decide as He; [rewrite sockets_of_delete|rewrite sockets_of_insert]; case_decide; subst; done.
    - unfold sockets_of; simpl. case_decide; subst; rewrite ?Hs; set_solver. }
  unfold dropPendingConnection. simpl (g_pendingSockets (removeRegisteredSocket u sid g)).
  destruct (g_pendingSockets g !! sid) as [t|] eqn:Hp.
  - apply (calm_drop (λ sid', sid' = sid)).
    + intros sid'. match goal with |- context [disconnect sid ?g1] => apply (disconnect_either sid g1) end.
    + intros ? ->. apply disconnect_isConnected.
    + simpl. intros sid' t' H%lookup_delete_Some. naive_solver.
    + simpl. intros sid' Hne. by rewrite lookup_delete_ne.
    + simpl. intros t'. rewrite lookup_alter. case_decide; subst; destruct (g_objects g !! _); by constructor.
    + intros u'. change (sockets_of u' (removeRegisteredSocket u sid g) ⊆ sockets_of u' g). rewrite Hu. case_decide; set_solver.
    + intros u' sid' Hn Hin. change (sid' ∈ sockets_of u' (removeRegisteredSocket u sid g)). rewrite Hu. case_decide; set_solver.
    + done.
  - apply (calm_drop (λ sid', sid' = sid)); try done.
    + intros sid'. match goal with |- context [disconnect sid ?g1] => apply (disconnect_either sid g1) end.
    + intros ? ->. apply disconnect_isConnected.
    + intros u'. change (sockets_of u' (removeRegisteredSocket u sid g) ⊆ sockets_of u' g). rewrite Hu. case_decide; set_solver.
    + intros u' sid' Hn Hin. change (sid' ∈ sockets_of u' (removeRegisteredSocket u sid g)). rewrite Hu. case_decide; set_solver.
Qed.
End calm.

(** ** Facts on waiting handlers *)

(** What follows a publication other than [offline] looks again whether the
    user is connected. *)
Definition corrective (u : rowid) (k : Cont) : Prop :=
  match k with C_connected _ u' _ _ | C_reconcile u' _ _ => u' = u | C_after _ => False end.
Definition cont_ok (g : Gateway) (u : rowid) (st : PresenceStatus) (k : Cont) : Prop :=
  (st = PR_offline ∨ corrective u k) ∧ (∀ sid u' d t, k = C_connected sid u' d t → u' = u ∧ ticket g sid u' d t).
Definition thread_ok (g : Gateway) (th : Thread) : Prop :=
  match th with
  | ConnCheck sid u d t | ConnChecked sid u d t _ | ConnRecheck sid u d t | ConnRechecked sid u d t _ => ticket g sid u d t
  | Publish u st k | Published u st _ k => cont_ok g u st k
  | _ => True
  end.

(** Sockets and tickets keep their owner. *)
Record keeps (g g' : Gateway) : Prop := {
  keep_sockets sid u d c : g_sockets g !! sid = Some (u, d, c) → ∃ c', g_sockets g' !! sid = Some (u, d, c');
  keep_objects t o : g_objects g !! t = Some o → ∃ o', g_objects g' !! t = Some o' ∧ same_object o o';
}.
Lemma calm_keeps g g' : calmer g g' → keeps g g'.
Proof.
  intros [_ k _ ob _ _ _]. split; [done|]. intros t o H. specialize (ob t). rewrite H in ob. inversion ob; subst; eauto.
Qed.
Lemma ticket_keeps g g' sid u d t : keeps g g' → ticket g sid u d t → ticket g' sid u d t.
Proof.
  intros [ks ko] [(o & Ho & <- & <- & <-) [c Hc]]. split; [|eauto].
  apply ko in Ho as (o' & Ho & ? & ? & ?). eauto.
Qed.
Lemma thread_ok_keeps g g' th : keeps g g' → thread_ok g th → thread_ok g' th.
Proof.
  intros Hk. destruct th; simpl; try done; try by apply ticket_keeps.
  all: intros [Hs Ht]; split; [done|]; intros ???? Heq; destruct (Ht _ _ _ _ Heq); split; [done|]; by eapply ticket_keeps.
Qed.


(** ** Handlers other than arrival and registration are calm *)

Definition calm_run (g : Gateway) (r : Gateway * list Thread) : Prop := calmer g r.1 ∧ Forall (thread_ok r.1) r.2.

Section runs.
Variable idleMs graceSeconds : Z.

Lemma run_trans g g1 r : calmer g g1 → calm_run g1 r → calm_run g r.
Proof. intros H [H1 H2]. split; [by etrans|done]. Qed.
Lemma run_nil g g' : calmer g g' → calm_run g (g', []).
Proof. split; [done|by constructor]. Qed.
Lemma run_offline g g' u k : calmer g g' → (∀ sid u' d t, k ≠ C_connected sid u' d t) → calm_run g (g', [Publish u PR_offline k]).
Proof. intros H Hk. split; [done|]. constructor; [|done]. split; [by left|]. intros ???? ->. by destruct (Hk _ _ _ _ eq_refl). Qed.

Lemma run_aggregate u gen a now g : calm_run g (aggregate idleMs u gen a now g).
Proof.
  unfold aggregate. case_match; [apply run_nil, calm_run_after|].
  split; [done|]. constructor; [|done]. split; [right; done|done].
Qed.
Lemma calm_delete_user u g : sockets_of u g = ∅ → calmer g (g <| g_userSockets := delete u (g_userSockets g) |>).
Proof.
  intros He. apply calm_same. split_and!; try done.
  intros u'. rewrite sockets_of_delete. case_decide; by subst.
Qed.
Lemma isUserOnline_false u g : isUserOnline u g = false → sockets_of u g = ∅.
Proof. unfold isUserOnline. rewrite bool_decide_eq_false. intros H. by apply dec_stable in H. Qed.
Lemma run_end_revalidation u gen invalid a now g : calm_run g (end_revalidation idleMs u gen invalid a now g).
Proof.
  unfold end_revalidation. eapply run_trans; [apply (calm_drop_invalid u invalid)|].
  destruct (isUserOnline _ _) eqn:Hon; [apply run_aggregate|].
  destruct invalid; [apply run_nil, calm_run_after|].
  apply run_offline; [|done]. etrans; [by apply calm_delete_user, isUserOnline_false|apply calm_clearUserTimers].
Qed.
Lemma run_revalidate u gen todo invalid a now g : calm_run g (revalidate idleMs u gen todo invalid a now g).
Proof.
  revert invalid. induction todo as [|sid todo IH]; intros invalid; simpl; [apply run_end_revalidation|].
  repeat case_match; try apply IH. split; [done|by constructor].
Qed.
Lemma run_publishAggregate u a now g : calm_run g (publishAggregatePresence idleMs u a now g).
Proof. apply run_revalidate. Qed.
Lemma run_reconcile u now g : calm_run g (reconcilePresenceAfterAbort idleMs u now g).
Proof.
  unfold reconcilePresenceAfterAbort. case_match; [apply run_publishAggregate|].
  apply run_offline; [apply calm_clearUserTimers|done].
Qed.
Lemma run_abort sid u now g : calm_run g (abort_connection idleMs sid u now g).
Proof. unfold abort_connection. eapply run_trans; [apply calm_abort|apply run_reconcile]. Qed.

Lemma run_gone sid now g : calm_run g (gone idleMs graceSeconds sid now g).
Proof.
  unfold gone, handleDisconnect. set (g0 := (disconnect sid g) <| g_pendingSockets := _ |>).
  assert (calmer g g0) as H0.
  { apply (calm_drop (λ sid', sid' = sid)); try done.
    - intros sid'. apply disconnect_either.
    - intros ? ->. apply (disconnect_isConnected sid g).
    - simpl. intros sid' t' H%lookup_delete_Some. naive_solver.
    - simpl. intros sid' Hne. by rewrite lookup_delete_ne. }
  destruct (g_sockets (disconnect sid g) !! sid) as [[[u d] c]|] eqn:Hs; [|by apply run_nil].
  destruct (g_userSockets g0 !! u) as [s|] eqn:Hu; [|by apply run_nil].
  set (g1 := forget_socket sid _).
  assert (∀ u', sockets_of u' g1 = if decide (u' = u) then s ∖ {[sid]} else sockets_of u' g) as Hg1.
  { intros u'. exact (sockets_of_insert u u' _ g0). }
  assert (sockets_of u g = s) as Hus by (unfold sockets_of; change (g_userSockets g) with (g_userSockets g0); by rewrite Hu).
  assert (calmer g g1) as H1.
  { apply (calm_drop (λ sid', sid' = sid)); try done.
    - intros sid'. apply (disconnect_either sid g).
    - intros ? ->. apply (disconnect_isConnected sid g).
    - simpl. intros sid' t' H%lookup_delete_Some. naive_solver.
    - simpl. intros sid' Hne. by rewrite lookup_delete_ne.
    - intros u'. rewrite Hg1. case_decide; set_solver.
    - intros u' sid' Hn Hin. rewrite Hg1. case_decide; set_solver. }
  case_bool_decide as He; [eapply run_trans; [done|apply run_publishAggregate]|].
  set (g2 := g1 <| g_userSockets := _ |> <| g_activityTimers := _ |>).
  assert (calmer g g2) as H2.
  { etrans; [exact H1|]. etrans; [apply (calm_delete_user u)|by apply calm_same].
    rewrite Hg1, decide_True by done. done. }
  case_match; [by apply run_offline|]. apply run_nil. etrans; [exact H2|by apply calm_same].
Qed.

Lemma calm_drop_pending p g : calmer g (drop_pending p g).
Proof. apply calm_foldl. intros. apply calm_dropPending. Qed.

(** Which connections are no longer pending. *)
Lemma dropPending_pending sid g sid' :
  g_pendingSockets (dropPendingConnection sid g) !! sid' = if decide (sid = sid') then None else g_pendingSockets g !! sid'.
Proof.
  unfold dropPendingConnection. destruct (g_pendingSockets g !! sid) eqn:Hp; simpl; [by rewrite lookup_delete|].
  case_decide; by subst.
Qed.
Lemma elem_of_pending_ids p g sid :
  sid ∈ pending_ids p g ↔ ∃ t o, g_pendingSockets g !! sid = Some t ∧ g_objects g !! t = Some o ∧ p o = true.
Proof.
  unfold pending_ids. rewrite list_elem_of_omap. split.
  - intros ([sid' t] & Hin%elem_of_map_to_list & H). simpl in H. repeat case_match; naive_solver.
  - intros (t & o & Hs & Ho & Hp). exists (sid, t). rewrite elem_of_map_to_list. simpl. by rewrite Ho, Hp.
Qed.
Lemma drop_pending_pending p g sid t o :
  g_pendingSockets (drop_pending p g) !! sid = Some t → g_objects g !! t = Some o → p o = false.
Proof.
  intros H Ho. destruct (p o) eqn:Hp; [exfalso|done].
  assert (∀ l g0, g_pendingSockets (foldl (λ g sid, dropPendingConnection sid g) g0 l) !! sid = Some t → sid ∉ l ∧ g_pendingSockets g0 !! sid = Some t) as Hl.
  { induction l as [|x l IH]; intros g0 Hf; simpl in Hf; [split; [set_solver|done]|].
    apply IH in Hf as [Hn Hf]. rewrite dropPending_pending in Hf. case_decide; set_solver. }
  apply Hl in H as [Hn H]. apply Hn, elem_of_pending_ids. eauto.
Qed.

Lemma disconnectUser_shape u g : ∃ g2,
  calmer g g2 ∧ calmer g (disconnectUser u g).1 ∧ (disconnectUser u g).2 = [Publish u PR_offline (C_after A_nothing)]
  ∧ sockets_of u (disconnectUser u g).1 = ∅
  ∧ ∀ sid t o, g_pendingSockets (disconnectUser u g).1 !! sid = Some t → g_objects g !! t = Some o → pd_userId o ≠ u.
Proof.
  unfold disconnectUser. set (g1 := g <| g_userRevocationGeneration := _ |>). set (g2 := drop_pending _ g1).
  assert (calmer g g2) as H2 by (etrans; [|apply calm_drop_pending]; by apply calm_same).
  exists g2. split; [done|]. cbv zeta. simpl (_, _).1. simpl (_, _).2.
  match goal with |- context [foldl ?f ?g4 ?l] => change (foldl f g4 l) with (close_all l g4); set (g4' := g4) end.
  destruct (close_all_core (elements (sockets_of u g2)) g4') as (Hp & Ho & Hu & He).
  assert (∀ u', sockets_of u' g4' = if decide (u' = u) then ∅ else sockets_of u' g2) as Hg4.
  { intros u'. exact (sockets_of_delete u u' (clearUserTimers u g2)). }
  split_and!; try done.
  - etrans; [exact H2|]. eapply (calm_close _ _ u); try done.
    intros u'. rewrite Hg4. case_decide; [subst|done]. set_solver.
  - by rewrite close_all_sockets_of, Hg4, decide_True.
  - intros sid t o. rewrite Hp. intros H3 H4. apply (drop_pending_pending _ g1) with (o := o) in H3; [|done].
    simpl in H3. by apply bool_decide_eq_false in H3.
Qed.

Lemma run_disconnectUser u g : calm_run g (disconnectUser u g).
Proof. destruct (disconnectUser_shape u g) as (g2 & _ & Hc & Ht & _). split; [done|]. rewrite Ht. constructor; [|done]. split; [by left|done]. Qed.

Definition close_device (d : rowid) (g : Gateway) (sid : socketid) : Gateway :=
  match g_sockets g !! sid with Some ((_, d'), true) => if d' == d then disconnect sid g else g | _ => g end.
Lemma calm_close_device d g sid : calmer g (close_device d g sid).
Proof. unfold close_device. repeat case_match; try done. apply calm_disconnect. Qed.
Lemma calm_disconnectDevice u d g : calmer g (disconnectDevice u d g).
Proof.
  unfold disconnectDevice. etrans; [|apply (calm_foldl (close_device d)), calm_close_device].
  etrans; [|apply calm_drop_pending]. by apply calm_same.
Qed.

Lemma run_validate sid w g : calm_run g (validateClientSession sid w g).
Proof.
  unfold validateClientSession. repeat case_match; try (by apply run_nil); [apply run_nil, calm_disconnect|].
  split; [done|by constructor].
Qed.
Lemma run_fire_offline u g : calm_run g (fire_offline u g).
Proof. unfold fire_offline. case_match; [apply run_nil|apply run_offline; [|done]]; by apply calm_same. Qed.
Lemma run_fire_activity u now g : calm_run g (fire_activity idleMs u now g).
Proof. unfold fire_activity. eapply run_trans; [|apply run_publishAggregate]. by apply calm_same. Qed.
Lemma run_fire_validation sid g : calm_run g (fire_validation sid g).
Proof. unfold fire_validation. eapply run_trans; [|apply run_validate]. by apply calm_same. Qed.
End runs.

(** ** The invariant *)

Record GateInv (g : Gateway) (fresh : nat) : Prop := {
  gi_pending sid t : g_pendingSockets g !! sid = Some t → ∃ u d, ticket g sid u d t;
  gi_fresh t : is_Some (g_objects g !! t) → (t < fresh)%nat;
  gi_covered sid u d : g_sockets g !! sid = Some (u, d, true) → covered g sid u;
  gi_registered u sid : sid ∈ sockets_of u g → ∃ d c, g_sockets g !! sid = Some (u, d, c);
  gi_events : (length (g_reconnectEvents g) ≤ MAX_RECONNECT_EVENTS)%nat;
}.
Definition SysInv (s : Sys) : Prop := GateInv (sy_gate s) (sy_fresh s) ∧ Forall (thread_ok (sy_gate s)) (sy_threads s).

Lemma calm_inv g g' n : calmer g g' → GateInv g n → GateInv g' n.
Proof.
  intros Hc [ip jf ic ir ie]. pose proof (calm_keeps _ _ Hc) as Hk. destruct Hc as [cs ck cp co cr cc ce]. split.
  - intros sid t H%cp%ip. destruct H as (u & d & H). exists u, d. by eapply ticket_keeps.
  - intros t [o Ho]. apply jf. specialize (co t). rewrite Ho in co. inversion co; eauto.
  - intros sid u d H. eapply cc; [done|]. pose proof H as (c & Hs & Ht)%cs. rewrite (Ht eq_refl) in Hs. eauto.
  - intros u sid H%cr%ir. destruct H as (d & c & H). apply ck in H as [c' H]. eauto.
  - auto.
Qed.

(** [sid] was registered for [u]; nothing else changed. *)
Definition registered (sid : socketid) (u : rowid) (g g' : Gateway) : Prop :=
  g_sockets g' = g_sockets g ∧ g_pendingSockets g' = g_pendingSockets g ∧ g_objects g' = g_objects g
  ∧ (∀ u', sockets_of u' g' = if decide (u' = u) then sockets_of u g ∪ {[sid]} else sockets_of u' g)
  ∧ (length (g_reconnectEvents g) ≤ MAX_RECONNECT_EVENTS → length (g_reconnectEvents g') ≤ MAX_RECONNECT_EVENTS)%nat.

Lemma recordReconnect_same now g : same_core g (recordReconnect now g).
Proof. split_and!; try done. intros _. unfold recordReconnect. simpl. rewrite length_drop. lia. Qed.

Lemma canPromote_pending sid t g : canPromote sid t g = true → g_pendingSockets g !! sid = Some t.
Proof. unfold canPromote. intros [H _]%andb_true_iff. by apply bool_decide_eq_true in H. Qed.

Lemma canPromote_connected sid t g : canPromote sid t g = true → isConnected sid g = true.
Proof. unfold canPromote. repeat case_match; rewrite ?andb_true_iff; naive_solver. Qed.

Section register.
Variable idleMs : Z.

Lemma register_cases sid u d t now g :
  let r := register_socket idleMs sid u d t now g in
  (calmer g r.1 ∧ r.2 = []) ∨
  (g_pendingSockets g !! sid = Some t ∧ isConnected sid g = true) ∧ registered sid u g r.1 ∧ r.2 = [Publish u PR_online (C_connected sid u d t)].
Proof.
  unfold register_socket. cbv zeta. set (g1 := if bool_decide _ then _ else g).
  assert (same_core g g1) as H1.
  { unfold g1. case_bool_decide; [|by split_and!]. split_and!; try done.
    by destruct (recordReconnect_same now (g <| g_offlineTimers := g_offlineTimers g ∖ {[u]} |>)) as (_ & _ & _ & _ & ?). }
  destruct (canPromote sid t g1) eqn:Hc; simpl negb; cbv iota; [|left; split; [etrans; [by apply calm_same|apply calm_dropPending]|done]].
  set (g2 := g1 <| g_socketActivity := _ |> <| g_userSockets := _ |>).
  assert (∀ u', sockets_of u' g2 = if decide (u' = u) then sockets_of u g1 ∪ {[sid]} else sockets_of u' g1) as Hg2.
  { intros u'. unfold g2. unfold sockets_of at 1. simpl. case_decide; subst; by rewrite ?lookup_insert_eq, ?lookup_insert_ne. }
  assert (canPromote sid t g2 = true) as -> by exact Hc.
  assert (has_socket u sid g2 = true) as ->.
  { apply bool_decide_eq_true. rewrite Hg2, decide_True by done. set_solver. }
  right. destruct H1 as (Hss & Hp & ? & Hs & ?). split.
  { split; [rewrite <- Hp; by apply canPromote_pending|]. unfold isConnected. rewrite <- Hss. by eapply canPromote_connected. }
  split; [|done]. split_and!; try done.
  intros u'. simpl (_, _).1. by rewrite Hg2, !Hs.
Qed.

Lemma registered_inv sid u d t g g' n :
  ticket g sid u d t → registered sid u g g' → GateInv g n → GateInv g' n ∧ keeps g g'.
Proof.
  intros [_ [c Ht]] (Hs & Hp & Ho & Hu & He) [ip jf ic ir ie].
  assert (keeps g g') as Hk.
  { split; [rewrite Hs; eauto|]. intros t' o H. rewrite Ho. exists o. by split_and!. }
  split; [|done]. split.
  - intros sid' t'. rewrite Hp. intros (u' & d' & H)%ip. exists u', d'. by eapply ticket_keeps.
  - rewrite Ho. auto.
  - intros sid' u' d'. rewrite Hs. intros [H|H]%ic; [left; by rewrite Hp|right; rewrite Hu; case_decide; set_solver].
  - intros u' sid'. rewrite Hu, Hs. case_decide; [subst|apply ir]. intros [H|H]%elem_of_union; [by apply ir|]. apply elem_of_singleton in H as ->. eauto.
  - auto.
Qed.

Lemma run_continue u st k now g : cont_ok g u st k → calm_run g (continue idleMs k now g).
Proof.
  intros [_ Ht]. destruct k as [a|sid u' d t|u' gen a]; simpl.
  - apply run_nil, calm_run_after.
  - destruct (Ht _ _ _ _ eq_refl) as [-> Htk]. case_match; [apply run_abort|]. split; [done|]. by constructor.
  - case_match; [apply run_nil, calm_run_after|]. apply run_offline; [apply calm_clearUserTimers|by intros].
Qed.
End register.

(** ** Every move keeps the invariant *)

Section invariant.
Context {Hscan : ScanOrder}.
Variable idleMs graceSeconds : Z.
Variable toISOString : instant → text.
Abbreviation move := (move idleMs graceSeconds toISOString).
Abbreviation resume := (resume idleMs toISOString).
Abbreviation moves := (moves idleMs graceSeconds toISOString).

Definition good_run (g : Gateway) (n : nat) (r : Gateway * list Thread) : Prop :=
  GateInv r.1 n ∧ keeps g r.1 ∧ Forall (thread_ok r.1) r.2.
Lemma calm_good g n r : GateInv g n → calm_run g r → good_run g n r.
Proof. intros Hi [Hc Ht]. split_and!; [by eapply calm_inv|by apply calm_keeps|done]. Qed.

(** A registered socket stops being pending. *)
Lemma calm_promoted sid u d t g :
  ticket g sid u d t → has_socket u sid g = true → calmer g (g <| g_pendingSockets := delete sid (g_pendingSockets g) |>).
Proof.
  intros [_ [c0 Hs]] Hin%bool_decide_eq_true. split; simpl; try done; eauto.
  - intros sid' t' H%lookup_delete_Some. naive_solver.
  - intros sid' u' d' H [Hc|Hc]; [|by right]. destruct (decide (sid' = sid)) as [->|Hne].
    + right. rewrite Hs in H. by simplify_eq.
    + left. simpl. by rewrite lookup_delete_ne.
Qed.

(** A waiting connection registers its socket. *)
Definition registers (g : Gateway) (r : Gateway * list Thread) : Prop := ∃ sid u d t,
  ticket g sid u d t ∧ g_pendingSockets g !! sid = Some t ∧ isConnected sid g = true ∧ registered sid u g r.1
  ∧ r.2 = [Publish u PR_online (C_connected sid u d t)].

Lemma resume_cases th now w g : thread_ok g th → calm_run g (resume th now w g).2 ∨ registers g (resume th now w g).2.
Proof.
  intros Ht. destruct th as [|sid u d t active| | | | | | | |sid u wh active]; simpl in *;
    lazymatch goal with |- context [register_socket] => idtac | |- _ => left end;
    try (split; [done|by constructor]).
  - case_match; [left; apply run_nil, calm_dropPending|].
    destruct (register_cases idleMs sid u d t now g) as [[H1 H2]|((Hp & Hc) & Hr & Hth)]; [left; split; [done|by rewrite H2]|right].
    exists sid, u, d, t. by split_and!.
  - case_match eqn:Hc; [apply run_abort|]. apply run_nil.
    etrans; [|apply calm_scheduleValidation]. etrans; [|apply calm_scheduleIdle]. eapply calm_promoted; [done|].
    apply orb_false_iff in Hc as [_ Hc]. by apply negb_false_iff in Hc.
  - by eapply run_continue.
  - apply run_revalidate.
  - set (g1 := if active then g else disconnect sid g).
    assert (calmer g g1) as H1 by (unfold g1; destruct active; [done|apply calm_disconnect]).
    case_match; [by apply run_nil|]. destruct wh.
    + case_match; [by apply run_nil|]. eapply run_trans; [|apply run_publishAggregate].
      etrans; [exact H1|by apply calm_same].
    + apply run_nil. etrans; [exact H1|apply calm_scheduleValidation].
Qed.

Lemma registers_good g n r : GateInv g n → registers g r → good_run g n r.
Proof.
  intros Hi (sid & u & d & t & Ht & Hp & _ & Hr & Hth).
  destruct (registered_inv _ _ _ _ _ _ _ Ht Hr Hi) as [Hi' Hk].
  split_and!; [done|done|]. rewrite Hth. constructor; [|done]. split; [by right|].
  intros ???? [= -> -> -> ->]. split; [done|]. by eapply ticket_keeps.
Qed.
Lemma resume_good th now w g n : GateInv g n → thread_ok g th → good_run g n (resume th now w g).2.
Proof. intros Hi Ht. destruct (resume_cases th now w g Ht); [by apply calm_good|by apply registers_good]. Qed.

(** A new socket, pending under the new ticket or refused. *)
Lemma arrival_good (sid : socketid) (u d : rowid) (c : bool) (g g' : Gateway) (n : nat) (o : Pending) :
  g_sockets g !! sid = None → GateInv g n →
  g_sockets g' = <[sid := (u, d, c)]> (g_sockets g) →
  (if c then g_pendingSockets g' = <[sid := n]> (g_pendingSockets g) ∧ g_objects g' = <[n := o]> (g_objects g)
        ∧ pd_socketId o = sid ∧ pd_userId o = u ∧ pd_deviceId o = d
   else g_pendingSockets g' = g_pendingSockets g ∧ g_objects g' = g_objects g) →
  (∀ u', sockets_of u' g' = sockets_of u' g) → g_reconnectEvents g' = g_reconnectEvents g →
  GateInv g' (S n) ∧ keeps g g'.
Proof.
  intros Hn [ip jf ic ir ie] Hs Hpo Hu He.
  assert (keeps g g') as Hk.
  { split.
    - intros sid' u' d' c' H. rewrite Hs. rewrite lookup_insert_ne; [eauto|]. intros ->. congruence.
    - intros t o' H. exists o'. split; [|by split_and!]. destruct c; destruct Hpo as [_ Ho].
      + destruct Ho as [-> _]. rewrite lookup_insert_ne; [done|]. intros ->. specialize (jf t (mk_is_Some _ _ H)). lia.
      + by rewrite Ho. }
  split; [|done]. split.
  - intros sid' t H. assert (g_pendingSockets g !! sid' = Some t ∨ c = true ∧ sid' = sid ∧ t = n) as [(u' & d' & Ht)%ip|(-> & -> & ->)].
    { destruct c; destruct Hpo as [Hp _]; rewrite Hp in H; [|by left]. apply lookup_insert_Some in H. naive_solver. }
    + exists u', d'. by eapply ticket_keeps.
    + destruct Hpo as (_ & Ho & Hids). exists u, d. split; [|exists true; by rewrite Hs, lookup_insert_eq].
      exists o. by rewrite Ho, lookup_insert_eq.
  - intros t H. destruct c; destruct Hpo as [_ Ho]; [destruct Ho as [Ho _]|]; rewrite Ho in H; [|apply jf in H; lia].
    apply lookup_insert_is_Some in H as [->|[_ H%jf]]; lia.
  - intros sid' u' d' H. rewrite Hs in H. apply lookup_insert_Some in H as [[<- Heq]|[Hne H]].
    + simplify_eq. destruct Hpo as [Hp _]. left. by rewrite Hp, lookup_insert_eq.
    + apply ic in H as [H|H]; [left|right; by rewrite Hu]. destruct c; destruct Hpo as [-> _]; [by rewrite lookup_insert_ne|done].
  - intros u' sid'. rewrite Hu. intros (d' & c' & H)%ir. destruct Hk as [Hk _]. apply Hk in H as [c'' H]. eauto.
  - by rewrite He.
Qed.

Lemma connect_good sid u d g n :
  g_sockets g !! sid = None → GateInv g n → good_run g (S n) (connect sid u d n g).
Proof.
  intros Hn Hi. unfold connect, handleConnection. case_match.
  - destruct (arrival_good sid u d false g (disconnect sid (g <| g_sockets := <[sid := (u, d, true)]> (g_sockets g) |>)) n
                (mkPending sid u d false 0 0) Hn Hi) as [? ?]; try done.
    { simpl. by rewrite alter_insert_eq. }
  - destruct (arrival_good sid u d true g (registerPendingConnection sid u d n (g <| g_sockets := <[sid := (u, d, true)]> (g_sockets g) |>)) n
                (mkPending sid u d false (user_generation u g) (device_generation u d g)) Hn Hi) as [Hi' Hk]; try done.
    split_and!; [done|done|]. constructor; [|done].
    split; [|exists true; apply lookup_insert_eq]. eexists. split; [apply lookup_insert_eq|done].
Qed.

Lemma resume_at_spec i now s s' : resume_at idleMs toISOString i now s = Some s' →
  ∃ th, sy_threads s !! i = Some th ∧
    s' = run_handler (s <| sy_world := (resume th now (sy_world s) (sy_gate s)).1 |> <| sy_threads := delete i (sy_threads s) |>)
           (resume th now (sy_world s) (sy_gate s)).2.
Proof.
  unfold resume_at. destruct (sy_threads s !! i) as [th|]; [|done]. simpl. intros H. exists th. split; [done|].
  destruct (resume th now (sy_world s) (sy_gate s)) as [w r]. by simplify_eq.
Qed.

Lemma elem_of_delete_list {A} (x : A) (i : nat) (l : list A) : x ∈ delete i l → x ∈ l.
Proof. rewrite !list_elem_of_lookup. intros [j H]. destruct (decide (j < i)%nat); [rewrite list_lookup_delete_lt in H|rewrite list_lookup_delete_ge in H]; eauto; lia. Qed.

(** What one move does to the memory, and which handlers it leaves waiting. *)
Inductive gate_move (m : Move) (s : Sys) : Gateway * list Thread → Prop :=
  | gm_calm r : calm_run (sy_gate s) r → gate_move m s r
  | gm_register r : registers (sy_gate s) r → gate_move m s r
  | gm_arrive sid u d : m = M_connect sid u d → g_sockets (sy_gate s) !! sid = None →
      gate_move m s (connect sid u d (sy_fresh s) (sy_gate s)).

Lemma move_cases m now s s' : SysInv s → move m now s = Some s' → ∃ r kept,
  gate_move m s r ∧ sy_gate s' = r.1 ∧ sy_threads s' = kept ++ r.2 ∧ (∀ th, th ∈ kept → th ∈ sy_threads s)
  ∧ sy_fresh s' = match m with M_connect _ _ _ => S (sy_fresh s) | _ => sy_fresh s end.
Proof.
  intros [Hi Ht] Hm.
  assert (∀ r, gate_move m s r → s' = run_handler s r → sy_fresh s = match m with M_connect _ _ _ => S (sy_fresh s) | _ => sy_fresh s end → ∃ r kept,
    gate_move m s r ∧ sy_gate s' = r.1 ∧ sy_threads s' = kept ++ r.2 ∧ (∀ th, th ∈ kept → th ∈ sy_threads s)
    ∧ sy_fresh s' = match m with M_connect _ _ _ => S (sy_fresh s) | _ => sy_fresh s end) as Hrun.
  { intros r Hr -> Hf. exists r, (sy_threads s). by split_and!. }
  destruct m; simpl in Hm; repeat case_match; simplify_eq;
    try (eapply Hrun; [apply gm_calm|done..]).
  - exists (connect sid userId deviceId (sy_fresh s) (sy_gate s)), (sy_threads s). split_and!; try done.
    apply gm_arrive; [done|].
    match goal with H : bool_decide (is_Some _) = false |- _ => by apply bool_decide_eq_false, eq_None_not_Some in H end.
  - apply run_gone.
  - apply run_validate.
  - apply run_fire_offline.
  - apply run_fire_activity.
  - apply run_fire_validation.
  - apply run_disconnectUser.
  - apply run_nil, calm_disconnectDevice.
  - apply resume_at_spec in Hm as (th & Hth & ->). rewrite Forall_lookup in Ht. apply Ht in Hth as Hok.
    exists (resume th now (sy_world s) (sy_gate s)).2, (delete i (sy_threads s)). split_and!; try done.
    + destruct (resume_cases th now (sy_world s) (sy_gate s) Hok); [by apply gm_calm|by apply gm_register].
    + intros th'. apply elem_of_delete_list.
  - exists (sy_gate s, []), (sy_threads s). split_and!; try done; [apply gm_calm, run_nil; done|].
    by rewrite app_nil_r.
Qed.

Lemma move_inv m now s s' : SysInv s → move m now s = Some s' → SysInv s'.
Proof.
  intros Hs Hm. destruct (move_cases _ _ _ _ Hs Hm) as (r & kept & Hg & Hgate & Hth & Hsub & Hf). destruct Hs as [Hi Ht].
  assert (good_run (sy_gate s) (sy_fresh s') r) as (Hi' & Hk & Hr).
  { rewrite Hf. destruct Hg as [r Hr|r Hr|sid u d -> Hn]; [| |by apply connect_good].
    all: assert (GateInv (sy_gate s) match m with M_connect _ _ _ => S (sy_fresh s) | _ => sy_fresh s end) as Hi2
           by (destruct m; try done; destruct Hi as [? jf ? ? ?]; split; try done; intros ? ?%jf; lia).
    - by apply calm_good.
    - by apply registers_good. }
  split; rewrite Hgate; [done|]. rewrite Hth. apply Forall_app. split; [|done].
  rewrite Forall_forall in *. intros th Hin%Hsub%Ht. by eapply thread_ok_keeps.
Qed.

Lemma start_inv d : SysInv (start d).
Proof.
  split; [|by constructor]. split; simpl.
  - intros ??. by rewrite lookup_empty.
  - intros ? [??]. by rewrite lookup_empty in *.
  - intros ???. by rewrite lookup_empty.
  - intros u sid. unfold sockets_of. simpl. rewrite lookup_empty. set_solver.
  - lia.
Qed.
Lemma moves_inv ms s s' : SysInv s → moves ms s s' → SysInv s'.
Proof. intros Hs Hm. induction Hm; [done|]. eauto using move_inv. Qed.
Lemma sys_reachable_inv s : sys_reachable idleMs graceSeconds toISOString s → SysInv s.
Proof. intros (d & ms & Hm). eapply moves_inv; [apply start_inv|done]. Qed.
End invariant.
