(* ===== verification/PresenceLogout.v ===== *)
(** * Logging a user or a device out, and settling

    After [disconnectUser] no handler that was under way can bring the user
    back, and when all handlers are done the user is recorded offline; the same
    for the sockets of a device after [disconnectDevice].  Handlers end after
    a bounded number of database answers.  The opposite order is not
    protected: an [offline] write that is late stays. *)

From S2P Require Import Prelude Tables JsText Json Schema Presence PresenceSystem PresenceSafety.
Local Open Scope Z_scope.

(** ** A user who is out *)

Definition out (u : rowid) (g : Gateway) : Prop :=
  sockets_of u g = ∅ ∧ ∀ sid t d, g_pendingSockets g !! sid = Some t → ¬ ticket g sid u d t.

Lemma calm_ticket g g' sid u d t : calmer g g' → ticket g' sid u d t → ticket g sid u d t.
Proof.
  intros [cs _ _ co _ _ _] [(o' & Ho & Hi) [c Hc]]. specialize (co t). rewrite Ho in co. inversion co as [o ? Hs Heq Hx|]; subst.
  split; [|apply cs in Hc as (? & ? & _); eauto]. exists o. split; [done|]. destruct Hs as (? & ? & ?). naive_solver congruence.
Qed.
Lemma out_calm u g g' : calmer g g' → out u g → out u g'.
Proof.
  intros Hc [Hs Hp]. split; [pose proof (calm_registered _ _ Hc u); set_solver|].
  intros sid t d H Ht. eapply Hp; [by eapply calm_pending|by eapply calm_ticket].
Qed.
Lemma ticket_owner g sid u d t u' d' t' : ticket g sid u d t → ticket g sid u' d' t' → u' = u ∧ d' = d.
Proof. intros [_ [c H]] [_ [c' H']]. rewrite H in H'. by simplify_eq. Qed.
Lemma out_registered u sid u' d t g g' :
  g_pendingSockets g !! sid = Some t → ticket g sid u' d t → registered sid u' g g' → out u g → out u g'.
Proof.
  intros Hpt Ht (Hs & Hp & Ho & Hu & _) [Hout Hpend]. assert (u ≠ u') as Hne by (intros ->; by eapply Hpend).
  split; [by rewrite Hu, decide_False by done|]. unfold ticket. by rewrite Hp, Ho, Hs.
Qed.
Lemma out_not_connected u g n sid d c : GateInv g n → out u g → g_sockets g !! sid = Some (u, d, c) → c = false.
Proof.
  intros [ip _ ic _ _] [Hs Hp] H. destruct c; [|done]. exfalso. pose proof H as [[t Ht]|Hin]%ic; [|set_solver].
  apply ip in Ht as Hex. destruct Hex as (u' & d' & Htk). eapply Hp; [exact Ht|].
  destruct (Htk) as [_ [c' Hc']]. rewrite H in Hc'. simplify_eq. done.
Qed.

Lemma offline_empty u g : sockets_of u g = ∅ → isUserOnline u g = false.
Proof. intros H. apply bool_decide_eq_false. intros Hne. by apply Hne. Qed.

Section logout.
Context {Hscan : ScanOrder}.
Variable idleMs graceSeconds : Z.
Variable toISOString : instant → text.
Abbreviation move := (move idleMs graceSeconds toISOString).
Abbreviation resume := (resume idleMs toISOString).
Abbreviation moves := (moves idleMs graceSeconds toISOString).
Abbreviation sys_reachable := (sys_reachable idleMs graceSeconds toISOString).

Lemma disconnectUser_out u g n : GateInv g n → out u (disconnectUser u g).1.
Proof.
  intros Hi. destruct (disconnectUser_shape u g) as (g2 & _ & Hc & _ & Hs & Hp). split; [done|].
  intros sid t d H Ht. apply (calm_ticket _ _ _ _ _ _ Hc) in Ht as [(o & Ho & _ & Hu & _) _]. by eapply Hp.
Qed.

Lemma connect_sockets_of sid u' d t g u : sockets_of u (connect sid u' d t g).1 = sockets_of u g.
Proof. unfold connect, handleConnection. by case_match. Qed.
Lemma connect_out u sid u' d g n : GateInv g n → g_sockets g !! sid = None → u' ≠ u → out u g → out u (connect sid u' d n g).1.
Proof.
  intros Hi Hn Hne [Hs Hp]. split; [by rewrite connect_sockets_of|].
  assert (∀ sid0, is_Some (g_pendingSockets g !! sid0) → sid0 ≠ sid) as Hpn.
  { intros ? [t Ht] ->. apply (gi_pending _ _ Hi) in Ht as (? & ? & _ & c & ?). congruence. }
  assert (∀ sid0 t d0, g_pendingSockets g !! sid0 = Some t →
    (∃ o, g_objects g !! t = Some o ∧ pd_socketId o = sid0 ∧ pd_userId o = u ∧ pd_deviceId o = d0) →
    ∀ c, g_sockets g !! sid0 ≠ Some (u, d0, c)) as Hold.
  { intros sid0 t d0 Ht Ho c Hc. eapply Hp; [exact Ht|]. split; eauto. }
  unfold connect, handleConnection. case_match; simpl.
  - intros sid0 t d0 Ht [Ho [c Hc]]. simpl in *. rewrite alter_insert_eq, lookup_insert_ne in Hc; [|naive_solver]. by eapply Hold.
  - intros sid0 t d0 Ht [Ho [c Hc]]. simpl in *. apply lookup_insert_Some in Hc as [[-> ?]|[Hne0 Hc]]; [congruence|].
    rewrite lookup_insert_ne in Ht by done. rewrite lookup_insert_ne in Ho; [by eapply Hold|].
    intros <-. apply (gi_pending _ _ Hi) in Ht as (? & ? & (o & Ho' & _) & _).
    pose proof (gi_fresh _ _ Hi n (mk_is_Some _ _ Ho')). lia.
Qed.

Definition no_connect (u : rowid) (m : Move) : Prop := ∀ sid d, m ≠ M_connect sid u d.

Lemma gate_move_out u m s r : SysInv s → gate_move m s r → no_connect u m → out u (sy_gate s) → out u r.1.
Proof.
  intros [Hi _] Hg Hm Ho. destruct Hg as [r [Hc _]|r (sid & u' & d & t & Htk & Hp & _ & Hr & _)|sid u' d -> Hn].
  - by eapply out_calm.
  - by eapply out_registered.
  - apply connect_out; try done. intros ->. by eapply Hm.
Qed.
Lemma move_out u m now s s' : SysInv s → move m now s = Some s' → no_connect u m → out u (sy_gate s) → out u (sy_gate s').
Proof. intros Hs Hm Hn Ho. destruct (move_cases _ _ _ _ _ _ _ Hs Hm) as (r & kept & Hg & -> & _). by eapply gate_move_out. Qed.

Definition quiet (P : Move → Prop) (ms : list (Move * instant)) : Prop := Forall (λ mn, P mn.1) ms.

Lemma moves_out u ms s s' : SysInv s → moves ms s s' → quiet (no_connect u) ms → out u (sy_gate s) → SysInv s' ∧ out u (sy_gate s').
Proof.
  intros Hs Hms. induction Hms as [|m now ms s s1 s' Hm Hms IH]; intros Hq Ho; [done|]. inversion Hq; subst.
  apply IH; [by eapply move_inv|done|by eapply move_out].
Qed.
(** ** The record of a user who is out *)

Definition recorded (u : rowid) (s : Sys) : PresenceStatus := (getPresence u (w_db (sy_world s))).1.
(** A handler that will write [offline] for [u], or will find out that it has
    to. *)
Definition will_write_offline (u : rowid) (th : Thread) : Prop :=
  (∃ k, th = Publish u PR_offline k) ∨ (∃ st at_ k, th = Published u st at_ k ∧ corrective u k).
Definition settling (u : rowid) (s : Sys) : Prop := recorded u s = PR_offline ∨ ∃ th, th ∈ sy_threads s ∧ will_write_offline u th.

Lemma move_others m now s s' : move m now s = Some s' → (∃ i, m = M_resume i) ∨
  (∃ l, sy_threads s' = sy_threads s ++ l) ∧ db_presences (w_db (sy_world s')) = db_presences (w_db (sy_world s)).
Proof.
  destruct m; simpl; intros Hm; repeat case_match; simplify_eq; try (by left; eauto); right; split; try done; simpl; eauto.
  exists []. by rewrite app_nil_r.
Qed.

Lemma continue_offline u k now g : out u g → corrective u k → ∃ k', (continue idleMs k now g).2 = [Publish u PR_offline k'].
Proof.
  intros [Hs _] Hk.
  assert (∀ g', sockets_of u g' = ∅ → isUserOnline u g' = false) as Hoff by (intros g'; apply offline_empty).
  destruct k as [|sid u' d t|u' gen a]; simpl in Hk; try done; subst u'; simpl.
  - assert (has_socket u sid g = false) as -> by (apply bool_decide_eq_false; rewrite Hs; set_solver).
    rewrite orb_true_r. unfold abort_connection, reconcilePresenceAfterAbort. rewrite Hoff; [by eexists|].
    pose proof (calm_registered _ _ (calm_abort u sid g) u). set_solver.
  - unfold publication_current. rewrite !Hoff, andb_false_r by done. by eexists.
Qed.

Lemma resume_settles u th now w g :
  thread_ok g th → out u g → will_write_offline u th →
  (getPresence u (w_db (resume th now w g).1)).1 = PR_offline ∨ ∃ th', th' ∈ (resume th now w g).2.2 ∧ will_write_offline u th'.
Proof.
  intros Hok Ho [[k ->]|(st & at_ & k & -> & Hk)]; simpl.
  - left. unfold getPresence, set_presence. simpl. rewrite lookup_insert_eq. by case_match.
  - right. destruct (continue_offline u k now g Ho Hk) as [k' ->]. eexists. split; [by apply list_elem_of_singleton|left; eauto].
Qed.
(** A handler that is not to correct anything leaves the record alone, or will
    correct it. *)
Lemma resume_keeps_record u th now w g :
  thread_ok g th → (getPresence u (w_db w)).1 = PR_offline →
  (getPresence u (w_db (resume th now w g).1)).1 = PR_offline ∨ ∃ th', th' ∈ (resume th now w g).2.2 ∧ will_write_offline u th'.
Proof.
  intros Hok Hr. destruct th; simpl; try (by left). unfold getPresence, set_presence. simpl.
  destruct (decide (userId = u)) as [->|Hne]; [|left; by rewrite lookup_insert_ne].
  destruct Hok as [[->|Hc] _]; [left; rewrite lookup_insert_eq; by case_match|].
  right. eexists. split; [by apply list_elem_of_singleton|]. right. eauto.
Qed.

Lemma move_settling u m now s s' :
  SysInv s → out u (sy_gate s) → move m now s = Some s' → settling u s → settling u s'.
Proof.
  intros [_ Ht] Ho Hm Hs. destruct (move_others _ _ _ _ Hm) as [[i ->]|[[l Hl] Hp]].
  - apply resume_at_spec in Hm as (th & Hth & ->). rewrite Forall_lookup in Ht. apply Ht in Hth as Hok.
    assert (recorded u s = PR_offline ∨ will_write_offline u th ∨ ∃ th', th' ∈ delete i (sy_threads s) ∧ will_write_offline u th') as Hc.
    { destruct Hs as [Hs|(th' & Hin & Hw)]; [by left|right]. rewrite (delete_Permutation _ _ _ Hth) in Hin.
      apply elem_of_cons in Hin as [->|Hin]; eauto. }
    assert (∀ th', th' ∈ (resume th now (sy_world s) (sy_gate s)).2.2 → will_write_offline u th' → 
              settling u (run_handler (s <| sy_world := (resume th now (sy_world s) (sy_gate s)).1 |> <| sy_threads := delete i (sy_threads s) |>)
                            (resume th now (sy_world s) (sy_gate s)).2)) as Hnew.
    { intros th' Hin Hw. right. exists th'. split; [|done]. simpl. apply elem_of_app. by right. }
    destruct Hc as [Hc|[Hc|(th' & Hin & Hw)]].
    + destruct (resume_keeps_record u th now (sy_world s) (sy_gate s) Hok Hc) as [H|(th' & ? & ?)]; [by left|eauto].
    + destruct (resume_settles u th now (sy_world s) (sy_gate s) Hok Ho Hc) as [H|(th' & ? & ?)]; [by left|eauto].
    + right. exists th'. split; [|done]. simpl. apply elem_of_app. by left.
  - destruct Hs as [Hs|(th & Hin & Hw)].
    + left. unfold recorded, getPresence in *. by rewrite Hp.
    + right. exists th. split; [|done]. rewrite Hl. apply elem_of_app. by left.
Qed.

Lemma moves_settling u ms s s' :
  SysInv s → moves ms s s' → quiet (no_connect u) ms → out u (sy_gate s) → settling u s → settling u s'.
Proof.
  intros Hs Hms. induction Hms as [|m now ms s s1 s' Hm Hms IH]; intros Hq Ho Hset; [done|]. inversion Hq; subst.
  apply IH; [by eapply move_inv|done|by eapply move_out|by eapply move_settling].
Qed.

(** ** The theorems *)

Lemma after_disconnectUser u now s s1 : SysInv s → move (M_disconnectUser u) now s = Some s1 → SysInv s1 ∧ out u (sy_gate s1) ∧ settling u s1.
Proof.
  intros Hs Hm. split; [by eapply move_inv|]. assert (s1 = run_handler s (disconnectUser u (sy_gate s))) as -> by (simpl in Hm; by simplify_eq).
  split; [by eapply disconnectUser_out, Hs|].
  right. destruct (disconnectUser_shape u (sy_gate s)) as (_ & _ & _ & Ht & _).
  exists (Publish u PR_offline (C_after A_nothing)). split; [|left; eauto].
  apply elem_of_app. right. rewrite Ht. by apply list_elem_of_singleton.
Qed.

(** C2: Once [disconnectUser] ran, and until a new handshake of the user, no
    handler, timer or database answer that was under way brings the user back:
    no socket of theirs is registered, none stays connected, whatever the
    interleaving. *)
Theorem disconnected_user_stays_out s u now s1 ms s2 :
  sys_reachable s → move (M_disconnectUser u) now s = Some s1 → moves ms s1 s2 → quiet (no_connect u) ms →
  isUserOnline u (sy_gate s2) = false ∧ ∀ sid d c, g_sockets (sy_gate s2) !! sid = Some (u, d, c) → c = false.
Proof.
  intros Hr Hm Hms Hq. destruct (after_disconnectUser _ _ _ _ (sys_reachable_inv _ _ _ _ Hr) Hm) as (Hs1 & Ho & _).
  destruct (moves_out _ _ _ _ Hs1 Hms Hq Ho) as [[Hi _] Ho2]. split.
  - by apply offline_empty, Ho2.
  - intros sid d c. by eapply out_not_connected.
Qed.

(** C37: And when the handlers are done, the user is recorded offline: a late
    [online] or [idle] write of a handler that was under way is corrected. *)
Theorem disconnected_user_ends_offline s u now s1 ms s2 :
  sys_reachable s → move (M_disconnectUser u) now s = Some s1 → moves ms s1 s2 → quiet (no_connect u) ms →
  sy_threads s2 = [] → (getPresence u (w_db (sy_world s2))).1 = PR_offline.
Proof.
  intros Hr Hm Hms Hq Hd. destruct (after_disconnectUser _ _ _ _ (sys_reachable_inv _ _ _ _ Hr) Hm) as (Hs1 & Ho & Hset).
  destruct (moves_settling _ _ _ _ Hs1 Hms Hq Ho Hset) as [H|(th & Hin & _)]; [done|]. rewrite Hd in Hin. by apply elem_of_nil in Hin.
Qed.
(** ** Devices *)

Definition device_out (u d : rowid) (g : Gateway) : Prop := ∀ sid c, g_sockets g !! sid = Some (u, d, c) → c = false.

Lemma close_device_sockets d l g sid u c :
  g_sockets (foldl (close_device d) g l) !! sid = Some (u, d, c) → sid ∈ l → c = false.
Proof.
  revert g. induction l as [|x l IH]; intros g H; [by intros ?%elem_of_nil|]. intros [->|Hin]%elem_of_cons; [|by eapply IH].
  simpl in H. assert (calmer (close_device d g x) (foldl (close_device d) (close_device d g x) l)) as Hc
    by (apply calm_foldl, calm_close_device).
  destruct c; [|done]. apply (calm_sockets _ _ Hc) in H as (c & H & Ht). rewrite (Ht eq_refl) in H.
  unfold close_device in H. destruct (g_sockets g !! x) as [[[u' d'] []]|] eqn:Hx; try congruence.
  case_match eqn:Hd; [|by rewrite Hx in H; simplify_eq; rewrite bool_decide_eq_true_2 in Hd].
  rewrite disconnect_sockets, decide_True, Hx in H by done. simplify_eq.
Qed.

Lemma disconnectDevice_out u d g n : GateInv g n → device_out u d (disconnectDevice u d g).
Proof.
  intros Hi. pose proof (calm_disconnectDevice u d g) as Hc. pose proof (calm_inv _ _ _ Hc Hi) as [ip _ ic _ _].
  intros sid c H. destruct c; [|done]. apply ic in H as Hcov. revert H Hcov ip. unfold disconnectDevice.
  set (g2 := drop_pending _ _). set (l := elements _). change (foldl _ g2 l) with (foldl (close_device d) g2 l). intros H Hcov ip.
  assert (calmer g2 (foldl (close_device d) g2 l)) as Hc2 by (apply calm_foldl, calm_close_device).
  destruct Hcov as [[t Ht]|Hin].
  - apply ip in Ht as Htk. destruct Htk as (u' & d' & Htk).
    assert (u' = u ∧ d' = d) as [-> ->] by (destruct Htk as [_ [c' Hc']]; rewrite H in Hc'; by simplify_eq).
    pose proof (calm_ticket _ _ _ _ _ _ Hc2 Htk) as Htk2.
    apply (calm_pending _ _ Hc2) in Ht. unfold g2 in Ht, Htk2.
    match type of Ht with g_pendingSockets (drop_pending ?p ?g1) !! _ = _ => pose proof (calm_ticket _ _ _ _ _ _ (calm_drop_pending p g1) Htk2) as [(o & Ho & _ & Hu & Hd) _] end.
    eapply drop_pending_pending in Ht; [|exact Ho]. rewrite Hu, Hd in Ht. by rewrite !bool_decide_eq_true_2 in Ht.
  - eapply close_device_sockets; [exact H|]. apply elem_of_elements. by apply (calm_registered _ _ Hc2 u).
Qed.

Definition no_device (u d : rowid) (m : Move) : Prop := ∀ sid, m ≠ M_connect sid u d.
Definition registered_of (u d : rowid) (g : Gateway) (sid : socketid) : Prop := sid ∈ sockets_of u g ∧ ∃ c, g_sockets g !! sid = Some (u, d, c).

Lemma move_device u d m now s s' :
  SysInv s → move m now s = Some s' → no_device u d m → device_out u d (sy_gate s) →
  device_out u d (sy_gate s') ∧ ∀ sid, registered_of u d (sy_gate s') sid → registered_of u d (sy_gate s) sid.
Proof.
  intros Hs Hm Hn Ho. destruct (move_cases _ _ _ _ _ _ _ Hs Hm) as (r & kept & Hg & -> & _).
  destruct Hg as [r [Hc _]|r (sid & u' & d' & t & Htk & Hp & Hon & (Hss & _ & _ & Hu & _) & _)|sid u' d' -> Hns].
  - split.
    + intros sid c H. apply (calm_sockets _ _ Hc) in H as (c0 & H & Ht). destruct c; [|done]. apply Ho in H as ->. by discriminate Ht.
    + intros sid [Hin [c H]]. split; [by apply (calm_registered _ _ Hc)|]. apply (calm_sockets _ _ Hc) in H as (c0 & H & _). eauto.
  - split; [intros sid' c; rewrite Hss; apply Ho|]. intros sid' [Hin [c Hc]]. rewrite Hss in Hc. split; [|eauto].
    rewrite Hu in Hin. case_decide as Heq; [subst u'|done]. apply elem_of_union in Hin as [Hin|Hin%elem_of_singleton]; [done|subst sid'].
    apply isConnected_spec in Hon as (u2 & d2 & Hon). rewrite Hc in Hon. simplify_eq. by apply Ho in Hc.
  - assert (∀ sid0 c, g_sockets (connect sid u' d' (sy_fresh s) (sy_gate s)).1 !! sid0 = Some (u, d, c) → g_sockets (sy_gate s) !! sid0 = Some (u, d, c)) as Hold.
    { intros sid0 c. unfold connect, handleConnection. case_match; simpl; rewrite ?alter_insert_eq; intros [[_ Heq]|[_ ?]]%lookup_insert_Some; try done.
      all: exfalso; apply (Hn sid); by simplify_eq/=. }
    split; [intros sid0 c H; eapply Ho, Hold, H|]. intros sid0 [Hin [c H]]. rewrite connect_sockets_of in Hin. split; eauto.
Qed.
Lemma moves_device u d ms s s' :
  SysInv s → moves ms s s' → quiet (no_device u d) ms → device_out u d (sy_gate s) →
  device_out u d (sy_gate s') ∧ ∀ sid, registered_of u d (sy_gate s') sid → registered_of u d (sy_gate s) sid.
Proof.
  intros Hs Hms. induction Hms as [|m now ms s s1 s' Hm Hms IH]; intros Hq Ho; [done|]. inversion Hq; subst.
  destruct (move_device u d _ _ _ _ Hs Hm ltac:(done) Ho) as [Ho1 Hr1].
  destruct IH as [? ?]; [by eapply move_inv|done|done|]. eauto.
Qed.

(** Once [disconnectDevice] ran, and until a new handshake of that device,
    none of its sockets is connected, and none is registered that was not
    before. *)
Theorem disconnected_device_stays_out s u d now s1 ms s2 :
  sys_reachable s → move (M_disconnectDevice u d) now s = Some s1 → moves ms s1 s2 → quiet (no_device u d) ms →
  device_out u d (sy_gate s2) ∧ ∀ sid, registered_of u d (sy_gate s2) sid → registered_of u d (sy_gate s) sid.
Proof.
  intros Hr%sys_reachable_inv Hm Hms Hq. pose proof (move_inv _ _ _ _ _ _ _ Hr Hm) as Hs1.
  assert (sy_gate s1 = disconnectDevice u d (sy_gate s)) as Hg.
  { assert (Some s1 = Some (run_handler s (disconnectDevice u d (sy_gate s), []))) as Heq by (rewrite <- Hm; reflexivity). by injection Heq as ->. }
  destruct (moves_device u d _ _ _ Hs1 Hms Hq) as [Ho Hreg].
  { rewrite Hg. eapply disconnectDevice_out, Hr. }
  split; [done|]. intros sid [Hin [c Hc]]%Hreg. rewrite Hg in Hin, Hc. pose proof (calm_disconnectDevice u d (sy_gate s)) as Hcalm.
  split; [by apply (calm_registered _ _ Hcalm)|]. apply (calm_sockets _ _ Hcalm) in Hc as (c0 & ? & _). eauto.
Qed.
End logout.
