(* ===== verification/PresenceSettle.v ===== *)
(** * Handlers end, and an [offline] write that comes too late

    [work] bounds how many answers of the database the waiting handlers still
    need; [handlers_settle] is the termination of the gateway when nothing new
    arrives.  [late_offline_write] runs the one order the gateway does not
    correct.  The file ends with the witnesses of the presence theorems. *)

From S2P Require Import Prelude Tables JsText Json Schema Presence PresenceSystem PresenceSafety PresenceLogout.

(** ** The work left *)

(** [n] is the number of sockets there are. *)
Definition work (n : nat) (th : Thread) : nat :=
  match th with
  | Published _ _ _ (C_after _) => 1
  | Publish _ _ (C_after _) => 2
  | Published _ _ _ (C_reconcile _ _ _) => 3
  | Publish _ _ (C_reconcile _ _ _) => 4
  | Revalidated _ _ _ todo _ _ _ => 5 + 2 * length todo
  | Revalidate _ _ _ _ todo _ _ => 6 + 2 * length todo
  | Validated _ _ _ _ | ConnRechecked _ _ _ _ _ => 5 + 2 * n
  | Validate _ _ _ _ | ConnRecheck _ _ _ _ => 6 + 2 * n
  | Published _ _ _ (C_connected _ _ _ _) => 7 + 2 * n
  | Publish _ _ (C_connected _ _ _ _) => 8 + 2 * n
  | ConnChecked _ _ _ _ _ => 9 + 2 * n
  | ConnCheck _ _ _ _ => 10 + 2 * n
  end.
Definition total_work (n : nat) (l : list Thread) : nat := foldr (λ th acc, work n th + acc) 0 l.
Definition work_left (s : Sys) : nat := total_work (size (g_sockets (sy_gate s))) (sy_threads s).

Lemma total_work_app n l1 l2 : total_work n (l1 ++ l2) = total_work n l1 + total_work n l2.
Proof. induction l1; simpl; lia. Qed.
Lemma total_work_delete n l i th : l !! i = Some th → total_work n l = work n th + total_work n (delete i l).
Proof.
  revert i. induction l as [|x l IH]; intros [|i] H; simplify_eq/=; [done|]. rewrite (IH _ H). lia.
Qed.

Section settle.
Context {Hscan : ScanOrder}.
Variable idleMs graceSeconds : Z.
Variable toISOString : instant → text.
Abbreviation move := (move idleMs graceSeconds toISOString).
Abbreviation resume := (resume idleMs toISOString).
Abbreviation moves := (moves idleMs graceSeconds toISOString).
Abbreviation sys_reachable := (sys_reachable idleMs graceSeconds toISOString).

Lemma work_aggregate n u gen a now g : total_work n (aggregate idleMs u gen a now g).2 ≤ 4.
Proof. unfold aggregate. case_match; simpl; lia. Qed.
Lemma work_revalidate n u gen todo invalid a now g :
  total_work n (revalidate idleMs u gen todo invalid a now g).2 ≤ 4 + 2 * length todo.
Proof.
  revert invalid. induction todo as [|sid todo IH]; intros invalid; simpl.
  - unfold end_revalidation. case_match; [apply work_aggregate|]. case_match; simpl; lia.
  - repeat case_match; try (etrans; [apply IH|lia]). simpl. lia.
Qed.
Lemma work_publishAggregate n u a now g :
  size (sockets_of u g) ≤ n → total_work n (publishAggregatePresence idleMs u a now g).2 ≤ 4 + 2 * n.
Proof. intros H. etrans; [apply work_revalidate|]. unfold size, set_size in H. simpl in H. lia. Qed.
Lemma work_abort n sid u now g : size (sockets_of u g) ≤ n → total_work n (abort_connection idleMs sid u now g).2 ≤ 4 + 2 * n.
Proof.
  intros H. unfold abort_connection, reconcilePresenceAfterAbort. case_match; [|simpl; lia].
  apply work_publishAggregate. etrans; [|exact H]. apply subseteq_size, (calm_registered _ _ (calm_abort u sid g)).
Qed.
Lemma registered_size g n u : GateInv g n → size (sockets_of u g) ≤ size (g_sockets g).
Proof.
  intros Hi. rewrite <- size_dom. apply subseteq_size. intros sid (d & c & H)%(gi_registered _ _ Hi). by apply elem_of_dom.
Qed.

Lemma resume_work th now w g m :
  GateInv g m → let n := size (g_sockets g) in total_work n (resume th now w g).2.2 < work n th.
Proof.
  intros Hi n. assert (∀ u, size (sockets_of u g) ≤ n) as Hn by (intros u; by eapply registered_size).
  destruct th as [|sid u d t active| |sid u d t active|u st [a|sid u' d t|u' gen a]|u st at_ [a|sid u' d t|u' gen a]|
                 |u gen sid todo invalid a active| |sid u wh active]; simpl; try lia.
  - case_match; simpl; [lia|]. destruct (register_cases idleMs sid u d t now g) as [[_ ->]|(_ & _ & ->)]; simpl; lia.
  - case_match; simpl; [|lia]. pose proof (work_abort n sid u now g (Hn u)). lia.
  - case_match; simpl; [|lia]. pose proof (work_abort n sid u' now g (Hn u')). lia.
  - case_match; simpl; lia.
  - eapply Nat.le_lt_trans; [apply work_revalidate|lia].
  - assert (∀ g', sockets_of u g' = sockets_of u g →
      total_work n (publishAggregatePresence idleMs u (A_idle_if_connected u) now g').2 < 5 + 2 * n) as Hp.
    { intros g' Hg. pose proof (work_publishAggregate n u (A_idle_if_connected u) now g'). rewrite Hg in *. specialize (Hn u). lia. }
    destruct active; simpl; [|lia]. destruct (_ || _); simpl; [lia|]. destruct wh; simpl; [|lia].
    destruct (_ <? _)%Z; simpl; [lia|]. by apply Hp.
Qed.

Lemma sockets_size_eq (g g' : Gateway) :
  (∀ sid, is_Some (g_sockets g' !! sid) ↔ is_Some (g_sockets g !! sid)) → size (g_sockets g') = size (g_sockets g).
Proof.
  intros H. rewrite <- !size_dom. f_equal. apply set_eq. intros sid. by rewrite !elem_of_dom.
Qed.
Lemma resume_sockets th now w g : thread_ok g th → size (g_sockets (resume th now w g).2.1) = size (g_sockets g).
Proof.
  intros Hok. apply sockets_size_eq. intros sid.
  destruct (resume_cases idleMs toISOString th now w g Hok) as [[Hc _]|(? & ? & ? & ? & _ & _ & _ & (-> & _) & _)]; [|done].
  split; intros [[[u d] c] H]; [apply (calm_sockets _ _ Hc) in H as (? & ? & _)|apply (calm_kept _ _ Hc) in H as [? ?]]; eauto.
Qed.

Lemma resume_step i now s s' : SysInv s → move (M_resume i) now s = Some s' → work_left s' < work_left s.
Proof.
  intros [Hi Ht] (th & Hth & ->)%resume_at_spec. rewrite Forall_lookup in Ht. apply Ht in Hth as Hok.
  unfold work_left. cbn [sy_gate sy_threads run_handler]. unfold run_handler at 1 2. simpl.
  rewrite (resume_sockets th now (sy_world s) (sy_gate s) Hok), total_work_app, (total_work_delete _ _ _ _ Hth).
  pose proof (resume_work th now (sy_world s) (sy_gate s) _ Hi). simpl in *. lia.
Qed.

Definition is_resume (m : Move) : Prop := ∃ i, m = M_resume i.

(** C38: Handlers end: with nothing new arriving, however the answers of the
    database come back, at most [work_left] of them are handled; and as long
    as a handler waits, each waiting one can go on. *)
Theorem handlers_settle s ms s' :
  sys_reachable s → moves ms s s' → quiet is_resume ms →
  length ms + work_left s' ≤ work_left s
  ∧ ∀ i now, i < length (sy_threads s') → is_Some (move (M_resume i) now s').
Proof.
  intros Hr%sys_reachable_inv Hms Hq. split.
  - revert Hr Hq. induction Hms as [|m now ms s s1 s' Hm Hms IH]; intros Hr Hq; simpl; [lia|].
    inversion Hq as [|? ? [i Heq] Hq']; subst. simpl in Heq. subst m.
    pose proof (resume_step _ _ _ _ Hr Hm). specialize (IH (move_inv _ _ _ _ _ _ _ Hr Hm) Hq'). lia.
  - intros i now [th Hth]%lookup_lt_is_Some. simpl. unfold resume_at. rewrite Hth. simpl.
    destruct (resume _ _ _ _). eauto.
Qed.
End settle.

(** ** A late [offline] *)

#[local] Existing Instance key_order.
Local Open Scope Z_scope.

Definition demo_sessions : DB :=
  empty_db <| db_users := demo_users |>
    <| db_deviceSessions := {[ "ds1" := mkDeviceSession "alice" "phone" [] None None 0 0 1000000 None ]} |>.
Definition iso (t : instant) : text := [].
Definition demo_move (m : Move) (now : instant) : Sys → option Sys := move 300000 45 iso m now.
Fixpoint run_moves (ms : list (Move * instant)) (s : Sys) : option Sys :=
  match ms with [] => Some s | (m, now) :: ms => s' ← demo_move m now s; run_moves ms s' end.

Lemma run_moves_moves ms s s' : run_moves ms s = Some s' → moves 300000 45 iso ms s s'.
Proof.
  revert s. induction ms as [|[m now] ms IH]; intros s H; simpl in H; [simplify_eq; constructor|].
  destruct (demo_move m now s) as [s1|] eqn:Hm; [|done]. econstructor; [exact Hm|]. by apply IH.
Qed.

Definition online_alice (sid : socketid) (now : instant) : list (Move * instant) :=
  [(M_connect sid "alice" "phone", now)] ++ replicate 6 (M_resume 0, now).
Definition late_moves : list (Move * instant) :=
  online_alice "s1" 0 ++ [(M_gone "s1", 1000); (M_fire_offline "alice", 46000); (M_connect "s2" "alice" "phone", 46001)]
  ++ replicate 6 (M_resume 1, 46010) ++ replicate 2 (M_resume 0, 46020).
Definition after_moves (ms : list (Move * instant)) : Sys := default (start demo_sessions) (run_moves ms (start demo_sessions)).
Definition ran (ms : list (Move * instant)) : bool := is_set (run_moves ms (start demo_sessions)).
Lemma after_moves_spec ms : ran ms = true → moves 300000 45 iso ms (start demo_sessions) (after_moves ms).
Proof. unfold ran, after_moves. intros H. apply run_moves_moves. by destruct (run_moves _ _). Qed.

(** The write of the offline timer may be answered after the user came
    back: the user then stays recorded offline while connected, with no handler
    left to correct it.  [reconcilePresencePublication] looks for the opposite
    order only. *)
Theorem late_offline_write : ∃ ms s,
  moves 300000 45 iso ms (start demo_sessions) s ∧ sy_threads s = []
  ∧ isUserOnline "alice" (sy_gate s) = true ∧ (getPresence "alice" (w_db (sy_world s))).1 = PR_offline.
Proof.
  exists late_moves, (after_moves late_moves).
  split; [apply after_moves_spec; by vm_compute|]. split_and!; by vm_compute.
Qed.

(** ** Witnesses: alice is online with one socket, a second one is being
    checked, when she is logged out *)

Definition before_logout : list (Move * instant) := online_alice "s1" 0 ++ [(M_connect "s2" "alice" "phone", 5); (M_resume 0, 6); (M_resume 0, 7)].
Definition logout (m : Move) : list (Move * instant) := before_logout ++ [(m, 10)].
(** The [online] write of the second socket comes back after the logout's. *)
Definition stragglers : list (Move * instant) := [(M_resume 1, 11); (M_resume 1, 12); (M_resume 0, 13); (M_gone "s1", 14)] ++ replicate 3 (M_resume 0, 15).
Definition device_stragglers : list (Move * instant) := [(M_resume 0, 11); (M_resume 0, 12); (M_gone "s1", 14)].

Lemma before_logout_reachable : sys_reachable 300000 45 iso (after_moves before_logout).
Proof. exists demo_sessions, before_logout. apply after_moves_spec. by vm_compute. Qed.
Lemma logout_user_move : move 300000 45 iso (M_disconnectUser "alice") 10 (after_moves before_logout) = Some (after_moves (logout (M_disconnectUser "alice"))).
Proof. vm_compute. reflexivity. Qed.
Lemma logout_device_move : move 300000 45 iso (M_disconnectDevice "alice" "phone") 10 (after_moves before_logout)
  = Some (after_moves (logout (M_disconnectDevice "alice" "phone"))).
Proof. vm_compute. reflexivity. Qed.
Lemma stragglers_user : moves 300000 45 iso stragglers (after_moves (logout (M_disconnectUser "alice")))
  (after_moves (logout (M_disconnectUser "alice") ++ stragglers)).
Proof. apply run_moves_moves. vm_compute. reflexivity. Qed.
Lemma stragglers_device : moves 300000 45 iso (device_stragglers) (after_moves (logout (M_disconnectDevice "alice" "phone")))
  (after_moves (logout (M_disconnectDevice "alice" "phone") ++ device_stragglers)).
Proof. apply run_moves_moves. vm_compute. reflexivity. Qed.
Lemma stragglers_quiet (P : Move → Prop) : (∀ i, P (M_resume i)) → P (M_gone "s1") → quiet P stragglers.
Proof. intros H1 H2. unfold quiet, stragglers. simpl. repeat (constructor; [first [apply H1|apply H2]|]). constructor. Qed.
Lemma stragglers_end : sy_threads (after_moves (logout (M_disconnectUser "alice") ++ stragglers)) = [].
Proof. vm_compute. reflexivity. Qed.

Lemma device_stragglers_quiet (P : Move → Prop) : (∀ i, P (M_resume i)) → P (M_gone "s1") → quiet P device_stragglers.
Proof. intros H1 H2. unfold quiet, device_stragglers. repeat (constructor; [first [apply H1|apply H2]|]). constructor. Qed.

Lemma quiet_user : quiet (no_connect "alice") stragglers.
Proof. by apply stragglers_quiet. Qed.
Lemma quiet_device : quiet (no_device "alice" "phone") device_stragglers.
Proof. by apply device_stragglers_quiet. Qed.

Lemma disconnected_user_stays_out_witness :
  isUserOnline "alice" (sy_gate (after_moves (logout (M_disconnectUser "alice") ++ stragglers))) = false
  ∧ ∀ sid d c, g_sockets (sy_gate (after_moves (logout (M_disconnectUser "alice") ++ stragglers))) !! sid = Some ("alice", d, c) → c = false.
Proof.
  exact (disconnected_user_stays_out 300000 45 iso _ _ _ _ _ _ before_logout_reachable logout_user_move stragglers_user
    quiet_user).
Defined.
Lemma disconnected_user_ends_offline_witness :
  (getPresence "alice" (w_db (sy_world (after_moves (logout (M_disconnectUser "alice") ++ stragglers))))).1 = PR_offline.
Proof.
  exact (disconnected_user_ends_offline 300000 45 iso _ _ _ _ _ _ before_logout_reachable logout_user_move stragglers_user
    quiet_user stragglers_end).
Defined.
Lemma disconnected_device_stays_out_witness :
  device_out "alice" "phone" (sy_gate (after_moves (logout (M_disconnectDevice "alice" "phone") ++ device_stragglers)))
  ∧ ∀ sid, registered_of "alice" "phone" (sy_gate (after_moves (logout (M_disconnectDevice "alice" "phone") ++ device_stragglers))) sid →
           registered_of "alice" "phone" (sy_gate (after_moves before_logout)) sid.
Proof.
  exact (disconnected_device_stays_out 300000 45 iso _ _ _ _ _ _ _ before_logout_reachable logout_device_move stragglers_device
    quiet_device).
Defined.

(** Four more answers settle the second socket of [before_logout]. *)
Definition settling_moves : list (Move * instant) := replicate 4 (M_resume 0, 20).
Lemma settling_run : moves 300000 45 iso settling_moves (after_moves before_logout) (after_moves (before_logout ++ settling_moves)).
Proof. apply run_moves_moves. vm_compute. reflexivity. Qed.
Lemma settling_quiet : quiet is_resume settling_moves.
Proof. unfold quiet, settling_moves. repeat constructor; eexists; reflexivity. Qed.
Lemma handlers_settle_witness :
  (length settling_moves + work_left (after_moves (before_logout ++ settling_moves)) ≤ work_left (after_moves before_logout))%nat
  ∧ ∀ i now, (i < length (sy_threads (after_moves (before_logout ++ settling_moves))))%nat →
      is_Some (move 300000 45 iso (M_resume i) now (after_moves (before_logout ++ settling_moves))).
Proof. exact (handlers_settle 300000 45 iso _ _ _ before_logout_reachable settling_run settling_quiet). Defined.
