(* ===== verification/Friend.v ===== *)
(** * The friend service ([friend/friend.service.ts])

    Requests, friendships and blocks.  Each method is its reads and checks
    followed by one transaction; the transaction bodies are separate
    definitions, because between a method's own reads and its transaction
    other methods may commit: [social_step] is any one committed transaction,
    with any arguments, and the invariants are proved for every sequence of
    them. *)

From S2P Require Import Prelude Tables JsText Json Schema Interfaces.
Local Open Scope Z_scope.

(** ** Operations *)

(** [/^OC-[A-Z0-9]{8}$/] *)
Definition is_uid (s : text) : bool :=
  bool_decide (take 3 s = lit "OC-") && bool_decide (length s = 11%nat)
  && forallb is_alnum_upper (drop 3 s).
(** [/^[A-Z0-9]{8}$/] *)
Definition is_friend_code (s : text) : bool :=
  bool_decide (length s = 8%nat) && forallb is_alnum_upper s.

Inductive Relation := rel_none | rel_friend | rel_outgoing_request | rel_incoming_request.
#[export] Instance Relation_eq_dec : EqDecision Relation.
Proof. solve_decision. Defined.

Record SafeUser := mkSafeUser { su_id : rowid; su_uid : text; su_username : text; su_friendCode : text }.
Definition safe_user (id : rowid) (u : User) : SafeUser :=
  mkSafeUser id (u_uid u) (u_username u) (u_friendCode u).

(** [friendRequest.findUnique({ senderId_receiverId })] *)
Definition find_request (sender receiver : rowid) (d : DB) : option (rowid * FriendRequest) :=
  find_unique (λ _ r, (fr_senderId r == sender) && (fr_receiverId r == receiver)) (db_friendRequests d).

Definition is_pending (o : option (rowid * FriendRequest)) : bool :=
  if o is Some (_, r) then fr_status r == FR_pending else false.

Definition withRelationship (user : SafeUser) (requesterId : option rowid) (notFoundCode : string)
    : Act World (SafeUser * Relation) :=
  match requesterId with
  | None => mret (user, rel_none)
  | Some requester =>
      if (requester == "") || (requester == su_id user) then mret (user, rel_none) else
      friendship ← query (λ d, bool_decide ((requester, su_id user) ∈ db_friendships d));
      outgoing ← query (find_request requester (su_id user));
      incoming ← query (find_request (su_id user) requester);
      blocked ← query (blocked_between requester (su_id user));
      act_require (negb blocked) (NotFoundException notFoundCode) ;;
      mret (user, if friendship : bool then rel_friend
                  else if is_pending outgoing then rel_outgoing_request
                  else if is_pending incoming then rel_incoming_request
                  else rel_none)
  end.

Definition lookupByUid (uid : text) (requesterId : option rowid) : Act World (SafeUser * Relation) :=
  let normalizedUid := to_upper (trim uid) in
  act_require (is_uid normalizedUid) (NotFoundException "SOCIAL_UID_NOT_FOUND") ;;
  found ← query (λ d, find_unique (λ _ u, u_uid u == normalizedUid) (db_users d));
  user ← act_require_some found (NotFoundException "SOCIAL_UID_NOT_FOUND");
  act_require (user_open user.2) (NotFoundException "SOCIAL_UID_NOT_FOUND") ;;
  withRelationship (safe_user user.1 user.2) requesterId "SOCIAL_UID_NOT_FOUND".

Definition lookupByFriendCode (code : text) (requesterId : option rowid) : Act World (SafeUser * Relation) :=
  let normalizedCode := to_upper (trim code) in
  act_require (is_friend_code normalizedCode) (NotFoundException "INVALID_FRIEND_CODE") ;;
  found ← query (λ d, find_unique (λ _ u, u_friendCode u == normalizedCode) (db_users d));
  user ← act_require_some found (NotFoundException "INVALID_FRIEND_CODE");
  act_require (user_open user.2) (NotFoundException "INVALID_FRIEND_CODE") ;;
  withRelationship (safe_user user.1 user.2) requesterId "INVALID_FRIEND_CODE".

(** The [count] over the two participants; [SELECT ... FOR UPDATE] is the lock
    that makes the enclosing transaction one step. *)
Definition lockActiveParticipants (first second : rowid) : Tx DB unit :=
  activeParticipants ← gets (count_open_users [first; second]);
  require (activeParticipants == 2%nat) (NotFoundException "USER_NOT_FOUND").

Inductive RequestAction := act_accept | act_reject | act_cancel.
Definition next_status (a : RequestAction) : FriendRequestStatus :=
  match a with act_accept => FR_accepted | act_reject => FR_rejected | act_cancel => FR_cancelled end.

Definition finalizePendingFriendRequest (requestId actorUserId : rowid) (action : RequestAction)
    (now : instant) : Tx DB FriendRequest :=
  found ← gets (λ d, db_friendRequests d !! requestId);
  request ← require_some found (NotFoundException "FRIEND_REQUEST_NOT_FOUND");
  require (match action with
           | act_cancel => fr_senderId request == actorUserId
           | _ => fr_receiverId request == actorUserId
           end) (ForbiddenException "SOCIAL_ACTION_NOT_ALLOWED") ;;
  require (fr_status request == FR_pending) (ConflictException "FRIEND_REQUEST_NOT_PENDING") ;;
  changed ← gets (λ d, count_where (λ k r, (k == requestId) && (fr_status r == FR_pending)) (db_friendRequests d));
  modify (λ d, d <| db_friendRequests :=
    update_many (λ k r, (k == requestId) && (fr_status r == FR_pending))
      (λ r, r <| fr_status := next_status action |> <| fr_updatedAt := now |>) (db_friendRequests d) |>) ;;
  require (changed == 1%nat) (ConflictException "FRIEND_REQUEST_NOT_PENDING") ;;
  mret request.

(** [friendship.create]: unique on (userId, friendId) *)
Definition create_friendship (userId friendId : rowid) : Tx DB unit :=
  modify_or (λ d, if bool_decide ((userId, friendId) ∈ db_friendships d) then None
                  else Some (d <| db_friendships := {[(userId, friendId)]} ∪ db_friendships d |>))
    (P2002 "userId_friendId").

Definition acceptFriendRequestInTransaction (receiverId requestId : rowid) (now : instant) : Tx DB FriendRequest :=
  request ← finalizePendingFriendRequest requestId receiverId act_accept now;
  create_friendship (fr_senderId request) (fr_receiverId request) ;;
  create_friendship (fr_receiverId request) (fr_senderId request) ;;
  mret request.

(** [friendRequest.upsert] on (senderId, receiverId); [newId] is the id a new
    row gets. *)
Definition upsert_request (senderId receiverId newId : rowid) (now : instant) : Tx DB (rowid * FriendRequest) :=
  direct ← gets (find_request senderId receiverId);
  match direct with
  | Some (k, r) =>
      let r' := r <| fr_status := FR_pending |> <| fr_updatedAt := now |> in
      modify (λ d, d <| db_friendRequests := <[k := r']> (db_friendRequests d) |>) ;;
      mret (k, r')
  | None =>
      let r' := mkFriendRequest senderId receiverId FR_pending now now in
      modify_or (λ d, m' ← create_row (λ r1 r2, (fr_senderId r1 == fr_senderId r2) && (fr_receiverId r1 == fr_receiverId r2))
                             newId r' (db_friendRequests d);
                      Some (d <| db_friendRequests := m' |>)) (P2002 "id") ;;
      mret (newId, r')
  end.

(** What the transaction of [sendFriendRequest] returns. *)
Inductive SendResult :=
  | SentAccepted (requestId : rowid) (request : FriendRequest)
  | SentPending (requestId : rowid) (request : FriendRequest).

Definition sendFriendRequest_tx (senderId receiverId newId : rowid) (now : instant) : Tx DB SendResult :=
  lockActiveParticipants senderId receiverId ;;
  existingFriendship ← gets (λ d, bool_decide ((senderId, receiverId) ∈ db_friendships d)
                                  || bool_decide ((receiverId, senderId) ∈ db_friendships d));
  require (negb existingFriendship) (ConflictException "FRIENDSHIP_ALREADY_EXISTS") ;;
  blocked ← gets (blocked_between senderId receiverId);
  require (negb blocked) (ForbiddenException "SOCIAL_ACTION_NOT_ALLOWED") ;;
  direct ← gets (find_request senderId receiverId);
  reverse ← gets (find_request receiverId senderId);
  match reverse with
  | Some (reverseId, r) =>
      if fr_status r == FR_pending then
        request ← acceptFriendRequestInTransaction senderId reverseId now;
        mret (SentAccepted reverseId request)
      else
        require (negb (is_pending direct)) (ConflictException "FRIEND_REQUEST_ALREADY_EXISTS") ;;
        request ← upsert_request senderId receiverId newId now;
        mret (SentPending request.1 request.2)
  | None =>
      require (negb (is_pending direct)) (ConflictException "FRIEND_REQUEST_ALREADY_EXISTS") ;;
      request ← upsert_request senderId receiverId newId now;
      mret (SentPending request.1 request.2)
  end.

Definition publishFriendRequestAccepted (requestId : rowid) (request : FriendRequest) : Act World unit :=
  publishToUser (fr_senderId request) "friend.request.updated" [("requestId", JStr (lit requestId)); ("status", JStr (lit "accepted"))] ;;
  publishToUser (fr_receiverId request) "friend.request.updated" [("requestId", JStr (lit requestId)); ("status", JStr (lit "accepted"))] ;;
  publishToUser (fr_senderId request) "friendship.created" [("userId", JStr (lit (fr_receiverId request)))] ;;
  publishToUser (fr_receiverId request) "friendship.created" [("userId", JStr (lit (fr_senderId request)))].

Definition sendFriendRequest (senderId receiverId newId : rowid) (now : instant) : Act World SendResult :=
  act_require (senderId != receiverId) (ForbiddenException "CANNOT_FRIEND_SELF") ;;
  result ← transaction (sendFriendRequest_tx senderId receiverId newId now);
  match result with
  | SentAccepted requestId request => publishFriendRequestAccepted requestId request
  | SentPending requestId _ => publishToUser receiverId "friend.request.created" [("requestId", JStr (lit requestId))]
  end ;;
  mret result.

(** The transaction of accept, reject and cancel; [initial] is the request as
    the method read it before. *)
Definition acceptFriendRequest_tx (initial : FriendRequest) (userId requestId : rowid) (now : instant) : Tx DB FriendRequest :=
  lockActiveParticipants (fr_senderId initial) (fr_receiverId initial) ;;
  acceptFriendRequestInTransaction userId requestId now.

Definition finalize_tx (initial : FriendRequest) (userId requestId : rowid) (action : RequestAction)
    (now : instant) : Tx DB FriendRequest :=
  lockActiveParticipants (fr_senderId initial) (fr_receiverId initial) ;;
  finalizePendingFriendRequest requestId userId action now.

Definition is_P2002 (e : exc) : bool := match e with P2002 _ => true | _ => false end.

Definition acceptFriendRequest (userId requestId : rowid) (now : instant) : Act World unit :=
  found ← query (λ d, db_friendRequests d !! requestId);
  initial ← act_require_some found (NotFoundException "FRIEND_REQUEST_NOT_FOUND");
  act_require (fr_receiverId initial == userId) (ForbiddenException "SOCIAL_ACTION_NOT_ALLOWED") ;;
  request ← act_catch (transaction (acceptFriendRequest_tx initial userId requestId now))
    (λ e, act_throw (if is_P2002 e then ConflictException "FRIENDSHIP_ALREADY_EXISTS" else e));
  publishFriendRequestAccepted requestId request.

Definition rejectFriendRequest (userId requestId : rowid) (now : instant) : Act World unit :=
  found ← query (λ d, db_friendRequests d !! requestId);
  initial ← act_require_some found (NotFoundException "FRIEND_REQUEST_NOT_FOUND");
  act_require (fr_receiverId initial == userId) (ForbiddenException "SOCIAL_ACTION_NOT_ALLOWED") ;;
  request ← transaction (finalize_tx initial userId requestId act_reject now);
  publishToUser (fr_senderId request) "friend.request.updated" [("requestId", JStr (lit requestId)); ("status", JStr (lit "rejected"))] ;;
  publishToUser (fr_receiverId request) "friend.request.updated" [("requestId", JStr (lit requestId)); ("status", JStr (lit "rejected"))].

Definition cancelFriendRequest (userId requestId : rowid) (now : instant) : Act World unit :=
  found ← query (λ d, db_friendRequests d !! requestId);
  initial ← act_require_some found (NotFoundException "FRIEND_REQUEST_NOT_FOUND");
  act_require (fr_senderId initial == userId) (ForbiddenException "SOCIAL_ACTION_NOT_ALLOWED") ;;
  request ← transaction (finalize_tx initial userId requestId act_cancel now);
  publishToUser (fr_receiverId request) "friend.request.updated" [("requestId", JStr (lit requestId)); ("status", JStr (lit "cancelled"))].

(** The pair in either direction, as the [OR] of the queries tests it. *)
Definition pair_between (a b : rowid) (x y : rowid) : bool :=
  ((x == a) && (y == b)) || ((x == b) && (y == a)).

(** [friendship.deleteMany({ OR: [both directions] })] *)
Definition delete_friendships (a b : rowid) (d : DB) : DB :=
  d <| db_friendships := filter (λ p, pair_between a b p.1 p.2 = false) (db_friendships d) |>.

Definition removeFriend_tx (userId friendId : rowid) : Tx DB unit := modify (delete_friendships userId friendId).

Definition blockUser_tx (userId blockedId : rowid) (now : instant) : Tx DB unit :=
  modify_or (λ d, if is_set (db_blockedUsers d !! (userId, blockedId)) then None
                  else Some (d <| db_blockedUsers := <[(userId, blockedId) := now]> (db_blockedUsers d) |>))
    (P2002 "blockerId_blockedId") ;;
  modify (delete_friendships userId blockedId) ;;
  modify (λ d, d <| db_friendRequests :=
    update_many (λ _ r, (fr_status r == FR_pending) && pair_between userId blockedId (fr_senderId r) (fr_receiverId r))
      (λ r, r <| fr_status := FR_cancelled |> <| fr_updatedAt := now |>) (db_friendRequests d) |>).

Definition unblockUser_tx (userId blockedId : rowid) : Tx DB unit :=
  modify_or (λ d, if is_set (db_blockedUsers d !! (userId, blockedId))
                  then Some (d <| db_blockedUsers := delete (userId, blockedId) (db_blockedUsers d) |>) else None) P2025.

Section service.
Context `{!ScanOrder} `{!VisitGateway}.

Definition removeFriend (userId friendId : rowid) (now : instant) : Act World unit :=
  friendship ← query (λ d, bool_decide ((userId, friendId) ∈ db_friendships d));
  act_require friendship (NotFoundException "FRIENDSHIP_NOT_FOUND") ;;
  transaction (removeFriend_tx userId friendId) ;;
  endSessionsBetween userId friendId "friendship_removed" now ;;
  publishToUser userId "friendship.removed" [("userId", JStr (lit friendId))] ;;
  publishToUser friendId "friendship.removed" [("userId", JStr (lit userId))].

Definition blockUser (userId blockedId : rowid) (now : instant) : Act World unit :=
  act_require (userId != blockedId) (ForbiddenException "SOCIAL_ACTION_NOT_ALLOWED") ;;
  target ← query (λ d, is_set (db_users d !! blockedId));
  act_require target (NotFoundException "USER_NOT_FOUND") ;;
  blocked ← query (λ d, is_set (db_blockedUsers d !! (userId, blockedId)));
  act_require (negb blocked) (ConflictException "SOCIAL_ACTION_NOT_ALLOWED") ;;
  transaction (blockUser_tx userId blockedId now) ;;
  endSessionsBetween userId blockedId "user_blocked" now ;;
  publishToUser userId "block.created" [("userId", JStr (lit blockedId))] ;;
  publishToUser blockedId "friendship.removed" [("userId", JStr (lit userId))].

Definition unblockUser (userId blockedId : rowid) : Act World unit :=
  blocked ← query (λ d, is_set (db_blockedUsers d !! (userId, blockedId)));
  act_require blocked (NotFoundException "USER_NOT_FOUND") ;;
  transaction (unblockUser_tx userId blockedId) ;;
  publishToUser userId "block.removed" [("userId", JStr (lit blockedId))].

(** ** The lists *)

Definition updated_desc (a b : rowid * FriendRequest) : bool := fr_updatedAt b.2 <=? fr_updatedAt a.2.

Definition getIncomingRequests (userId : rowid) (d : DB) : list ((rowid * FriendRequest) * SafeUser) :=
  omap (λ kr, u ← db_users d !! fr_senderId kr.2; Some (kr, safe_user (fr_senderId kr.2) u))
    (find_many_by (λ _ r, (fr_receiverId r == userId) && (fr_status r == FR_pending)
       && match db_users d !! fr_senderId r with Some u => user_open u | None => false end)
      updated_desc (db_friendRequests d)).

Definition getOutgoingRequests (userId : rowid) (d : DB) : list ((rowid * FriendRequest) * SafeUser) :=
  omap (λ kr, u ← db_users d !! fr_receiverId kr.2; Some (kr, safe_user (fr_receiverId kr.2) u))
    (find_many_by (λ _ r, (fr_senderId r == userId) && (fr_status r == FR_pending)
       && match db_users d !! fr_receiverId r with Some u => user_open u | None => false end)
      updated_desc (db_friendRequests d)).

Record FriendView := mkFriendView { fv_user : SafeUser; fv_hasPublishedCompanion : bool }.

Definition hasPublishedCompanion (d : DB) (u : User) : bool :=
  match u_activeNetworkCompanionId u ≫= λ c, db_companions d !! c with
  | Some companion => co_published companion && (co_visibility companion == "friends_only")
                      && is_set (co_activeAssetPackId companion)
  | None => false
  end.

Definition getFriends (userId : rowid) (d : DB) : list FriendView :=
  omap (λ p, friend ← db_users d !! p.2;
             if (p.1 == userId) && (u_accountStatus friend == ACTIVE)
             then Some (mkFriendView (safe_user p.2 friend) (hasPublishedCompanion d friend)) else None)
    (scan_pairs (db_friendships d)).

Record BlockedView := mkBlockedView { bv_userId : rowid; bv_uid : text; bv_username : text; bv_blockedAt : instant }.

(** The rows of [blockedUser] whose blocker is [userId], newest first. *)
Definition getBlockedUsers (userId : rowid) (d : DB) : list BlockedView :=
  omap (λ kb, u ← db_users d !! kb.1.2; Some (mkBlockedView kb.1.2 (u_uid u) (u_username u) kb.2))
    (sort_by (λ a b, b.2 <=? a.2)
      (omap (λ p, t ← db_blockedUsers d !! p; if p.1 == userId then Some (p, t) else None)
        (scan_pairs (dom (db_blockedUsers d))))).

Record SocialOverview := mkSocialOverview {
  so_friends : list (FriendView * (PresenceStatus * option instant));
  so_incomingRequests : list ((rowid * FriendRequest) * SafeUser);
  so_outgoingRequests : list ((rowid * FriendRequest) * SafeUser);
  so_blockedUsers : list BlockedView;
  so_incomingVisits : list InvitationView;
  so_outgoingVisits : list InvitationView;
  so_visitSessions : list SessionView;
  so_synchronizedAt : instant;
}.

Definition getSocialOverview (userId : rowid) (now : instant) (d : DB) : SocialOverview :=
  {| so_friends := (λ friend, (friend, match db_presences d !! su_id (fv_user friend) with
                                       | Some p => (pr_status p, Some (pr_updatedAt p))
                                       | None => (PR_offline, None)
                                       end)) <$> getFriends userId d;
     so_incomingRequests := getIncomingRequests userId d;
     so_outgoingRequests := getOutgoingRequests userId d;
     so_blockedUsers := getBlockedUsers userId d;
     so_incomingVisits := listInvitations userId (Some "incoming") None d;
     so_outgoingVisits := listInvitations userId (Some "outgoing") None d;
     so_visitSessions := listSessions userId d;
     so_synchronizedAt := now |}.
End service.

(** ** Transactions as steps *)

Inductive social_step (d : DB) : DB → Prop :=
  | step_send senderId receiverId newId now res d' :
      sendFriendRequest_tx senderId receiverId newId now d = Ok (res, d') → social_step d d'
  | step_accept initial userId requestId now request d' :
      acceptFriendRequest_tx initial userId requestId now d = Ok (request, d') → social_step d d'
  | step_finalize initial userId requestId action now request d' :
      action ≠ act_accept →
      finalize_tx initial userId requestId action now d = Ok (request, d') → social_step d d'
  | step_remove userId friendId u d' :
      removeFriend_tx userId friendId d = Ok (u, d') → social_step d d'
  | step_block userId blockedId now u d' :
      blockUser_tx userId blockedId now d = Ok (u, d') → social_step d d'
  | step_unblock userId blockedId u d' :
      unblockUser_tx userId blockedId d = Ok (u, d') → social_step d d'
  | step_elsewhere d' :
      (* a transaction of another component *)
      db_friendRequests d' = db_friendRequests d → db_friendships d' = db_friendships d →
      db_blockedUsers d' = db_blockedUsers d → social_step d d'.

(** The well-formedness of the social tables. *)
Record SocialInv (d : DB) : Prop := {
  friends_sym a b : (a, b) ∈ db_friendships d → (b, a) ∈ db_friendships d;
  friends_irrefl a : (a, a) ∉ db_friendships d;
  request_unique k1 r1 k2 r2 :
    db_friendRequests d !! k1 = Some r1 → db_friendRequests d !! k2 = Some r2 →
    fr_senderId r1 = fr_senderId r2 → fr_receiverId r1 = fr_receiverId r2 → k1 = k2;
  request_no_self k r : db_friendRequests d !! k = Some r → fr_senderId r ≠ fr_receiverId r;
  pending_exclusive k1 r1 k2 r2 :
    db_friendRequests d !! k1 = Some r1 → db_friendRequests d !! k2 = Some r2 →
    fr_status r1 = FR_pending → fr_status r2 = FR_pending →
    fr_senderId r1 = fr_receiverId r2 → fr_receiverId r1 = fr_senderId r2 → False;
  friends_no_pending k r :
    db_friendRequests d !! k = Some r → fr_status r = FR_pending →
    (fr_senderId r, fr_receiverId r) ∉ db_friendships d;
  block_no_friend a b : blocked_between a b d = true → (a, b) ∉ db_friendships d;
  block_no_pending k r :
    db_friendRequests d !! k = Some r → fr_status r = FR_pending →
    blocked_between (fr_senderId r) (fr_receiverId r) d = false;
}.

Lemma blocked_between_sym a b d : blocked_between a b d = blocked_between b a d.
Proof. unfold blocked_between. apply orb_comm. Qed.

Lemma blocked_between_frame a b d d' :
  db_blockedUsers d' = db_blockedUsers d → blocked_between a b d' = blocked_between a b d.
Proof. unfold blocked_between. by intros ->. Qed.

(** [SocialInv] only reads three tables. *)
Lemma SocialInv_frame d d' :
  db_friendRequests d' = db_friendRequests d → db_friendships d' = db_friendships d →
  db_blockedUsers d' = db_blockedUsers d → SocialInv d → SocialInv d'.
Proof.
  intros E1 E2 E3 Hinv.
  assert (∀ a b, blocked_between a b d' = blocked_between a b d) as E4
    by (intros; by apply blocked_between_frame).
  destruct Hinv. split; setoid_rewrite E1 || setoid_rewrite E2 || idtac;
    repeat (setoid_rewrite E1 || setoid_rewrite E2 || setoid_rewrite E4); eauto.
Qed.

Lemma find_request_iff d s r k row :
  SocialInv d →
  find_request s r d = Some (k, row) ↔
  db_friendRequests d !! k = Some row ∧ fr_senderId row = s ∧ fr_receiverId row = r.
Proof.
  intros Hinv. unfold find_request. rewrite find_unique_iff.
  - rewrite andb_true_iff, !bool_decide_eq_true. done.
  - intros k1 r1 k2 r2 H1 H2 Hp1 Hp2. bool_inv. eapply request_unique; eauto; congruence.
Qed.

Lemma find_request_None d s r :
  find_request s r d = None ↔
  ∀ k row, db_friendRequests d !! k = Some row → fr_senderId row = s → fr_receiverId row = r → False.
Proof.
  unfold find_request. rewrite find_unique_None. split.
  - intros H k row Hk <- <-. specialize (H k row Hk).
    rewrite !bool_decide_eq_true_2 in H by done. done.
  - intros H k row Hk. apply not_true_iff_false. intros Hb. bool_inv. eauto.
Qed.

(** What [finalizePendingFriendRequest] does when it returns. *)
Lemma finalize_ok requestId actor action now d request d' :
  finalizePendingFriendRequest requestId actor action now d = Ok (request, d') →
  db_friendRequests d !! requestId = Some request ∧ fr_status request = FR_pending ∧
  (match action with act_cancel => fr_senderId request = actor | _ => fr_receiverId request = actor end) ∧
  d' = d <| db_friendRequests := <[requestId := request <| fr_status := next_status action |> <| fr_updatedAt := now |>]>
              (db_friendRequests d) |>.
Proof.
  unfold finalizePendingFriendRequest. intros H. step_inv. bool_inv.
  split_and!; [done|done|destruct action; by bool_inv|].
  unfold set. f_equal. apply map_eq. intros k. rewrite lookup_update_many.
  destruct (decide (k = requestId)) as [->|Hne].
  - rewrite lookup_insert_eq. match goal with E : _ !! requestId = Some _ |- _ => rewrite E end.
    simpl. rewrite !bool_decide_eq_true_2 by done. done.
  - rewrite lookup_insert_ne by done. rewrite bool_decide_eq_false_2 by done. simpl.
    by destruct (db_friendRequests d !! k).
Qed.

Lemma create_friendship_ok a b d u d' :
  create_friendship a b d = Ok (u, d') →
  (a, b) ∉ db_friendships d ∧ d' = d <| db_friendships := {[(a, b)]} ∪ db_friendships d |>.
Proof.
  unfold create_friendship. intros H. step_inv.
  case_bool_decide; simplify_eq. done.
Qed.

(** The tables after a request is closed: one row left the pending state. *)
Lemma SocialInv_close_request d k r st now :
  SocialInv d → db_friendRequests d !! k = Some r → st ≠ FR_pending →
  SocialInv (d <| db_friendRequests := <[k := r <| fr_status := st |> <| fr_updatedAt := now |>]> (db_friendRequests d) |>).
Proof.
  intros Hinv Hk Hst. destruct Hinv.
  assert (∀ k' r', <[k := r <| fr_status := st |> <| fr_updatedAt := now |>]> (db_friendRequests d) !! k' = Some r' →
    ∃ r0, db_friendRequests d !! k' = Some r0 ∧ fr_senderId r' = fr_senderId r0 ∧ fr_receiverId r' = fr_receiverId r0 ∧
      (fr_status r' = FR_pending → r' = r0)) as Hold.
  { intros k' r'. rewrite lookup_insert_Some. intros [[<- <-]|[Hne Hk']]; [|naive_solver].
    exists r. split_and!; done. }
  split; simpl; eauto.
  - intros k1 r1 k2 r2 (q1 & ? & ? & ? & ?)%Hold (q2 & ? & ? & ? & ?)%Hold ??.
    eapply (request_unique0 k1 q1 k2 q2); eauto; congruence.
  - intros k1 r1 (q1 & ? & -> & -> & ?)%Hold. eauto.
  - intros k1 r1 k2 r2 (q1 & ? & ? & ? & E1)%Hold (q2 & ? & ? & ? & E2)%Hold ????.
    rewrite E1, E2 in * by done. eapply (pending_exclusive0 k1 q1 k2 q2); eauto.
  - intros k1 r1 (q1 & ? & ? & ? & E1)%Hold ?. rewrite E1 in * by done. eauto.
  - intros k1 r1 (q1 & ? & ? & ? & E1)%Hold ?. rewrite E1 in * by done.
    apply (block_no_pending0 k1 q1); done.
Qed.

Lemma finalize_tx_inv initial userId requestId action now d request d' :
  SocialInv d → finalize_tx initial userId requestId action now d = Ok (request, d') → SocialInv d'.
Proof.
  intros Hinv H. unfold finalize_tx, lockActiveParticipants in H. step_inv.
  match goal with H : finalizePendingFriendRequest _ _ _ _ _ = _ |- _ =>
    apply finalize_ok in H as (Hk & Hp & _ & ->) end.
  apply SocialInv_close_request; [done..|by destruct action].
Qed.

(** Accepting a pending request closes it and adds the friendship both ways. *)
Lemma accept_in_transaction_ok receiverId requestId now d request d' :
  acceptFriendRequestInTransaction receiverId requestId now d = Ok (request, d') →
  db_friendRequests d !! requestId = Some request ∧ fr_status request = FR_pending ∧
  fr_receiverId request = receiverId ∧
  (fr_senderId request, fr_receiverId request) ∉ db_friendships d ∧
  d' = d <| db_friendRequests := <[requestId := request <| fr_status := FR_accepted |> <| fr_updatedAt := now |>]>
              (db_friendRequests d) |>
         <| db_friendships := {[(fr_receiverId request, fr_senderId request)]} ∪
              ({[(fr_senderId request, fr_receiverId request)]} ∪ db_friendships d) |>.
Proof.
  unfold acceptFriendRequestInTransaction. intros H. step_inv.
  repeat match goal with
  | H : create_friendship _ _ _ = _ |- _ => apply create_friendship_ok in H as [? ->]
  | H : finalizePendingFriendRequest _ _ _ _ _ = _ |- _ => apply finalize_ok in H as (? & ? & ? & ->)
  end. done.
Qed.

Lemma accept_in_transaction_inv receiverId requestId now d request d' :
  SocialInv d → acceptFriendRequestInTransaction receiverId requestId now d = Ok (request, d') → SocialInv d'.
Proof.
  intros Hinv H. apply accept_in_transaction_ok in H as (Hk & Hp & _ & Hnf & ->).
  pose proof (SocialInv_close_request d requestId request FR_accepted now Hinv Hk ltac:(done)) as Hclosed.
  assert (∀ k r, <[requestId := request <| fr_status := FR_accepted |> <| fr_updatedAt := now |>]> (db_friendRequests d) !! k = Some r →
    fr_status r = FR_pending → k ≠ requestId ∧ db_friendRequests d !! k = Some r) as Hother.
  { intros k r. rewrite lookup_insert_Some. intros [[<- <-]|[? ?]]; done. }
  pose proof (request_no_self d Hinv _ _ Hk).
  assert (blocked_between (fr_senderId request) (fr_receiverId request) d = false) as Hnb
    by by apply (block_no_pending d Hinv requestId).
  destruct Hclosed. split; simpl in *; eauto.
  - intros a b. rewrite !elem_of_union, !elem_of_singleton. naive_solver.
  - intros a. rewrite !elem_of_union, !elem_of_singleton. naive_solver.
  - intros k r Hkr Hpr. destruct (Hother k r Hkr Hpr) as [Hne Hold].
    rewrite !elem_of_union, !elem_of_singleton. intros [E|[E|E]].
    + injection E as E1 E2. exfalso. eapply (pending_exclusive d Hinv requestId request k r); eauto.
    + injection E as E1 E2. apply Hne. by eapply (request_unique d Hinv).
    + eapply (friends_no_pending d Hinv k r); eauto.
  - intros a b Hb. change (blocked_between a b d = true) in Hb.
    rewrite !elem_of_union, !elem_of_singleton. intros [E|[E|E]].
    + injection E as -> ->. rewrite blocked_between_sym in Hb. congruence.
    + injection E as -> ->. congruence.
    + by apply (block_no_friend d Hinv a b).
Qed.

Lemma removeFriend_tx_inv userId friendId d u d' :
  SocialInv d → removeFriend_tx userId friendId d = Ok (u, d') → SocialInv d'.
Proof.
  unfold removeFriend_tx. intros Hinv H. step_inv. destruct Hinv.
  assert (∀ a b, (a, b) ∈ db_friendships (delete_friendships userId friendId d) ↔
    pair_between userId friendId a b = false ∧ (a, b) ∈ db_friendships d) as Hin
    by (intros; simpl; rewrite elem_of_filter; done).
  assert (∀ a b, pair_between userId friendId a b = pair_between userId friendId b a) as Hsym.
  { intros. unfold pair_between. rewrite orb_comm. f_equal; apply andb_comm. }
  split; try setoid_rewrite Hin; eauto.
  - intros a b [? ?]. rewrite Hsym. eauto.
  - intros a [_ ?]. naive_solver.
  - intros k r Hk Hp [_ ?]. eapply friends_no_pending0; eauto.
  - intros a b Hb [_ ?]. eapply block_no_friend0; eauto.
Qed.

Lemma unblockUser_tx_inv userId blockedId d u d' :
  SocialInv d → unblockUser_tx userId blockedId d = Ok (u, d') → SocialInv d'.
Proof.
  unfold unblockUser_tx. intros Hinv H. step_inv. case_bool_decide; simplify_eq.
  assert (∀ a b, blocked_between a b (d <| db_blockedUsers := delete (userId, blockedId) (db_blockedUsers d) |>) = true →
    blocked_between a b d = true) as Hsub.
  { intros a b. unfold blocked_between. simpl. rewrite !orb_true_iff, !bool_decide_eq_true.
    intros [[t Ht]|[t Ht]]; apply lookup_delete_Some in Ht as [_ Ht]; eauto. }
  destruct Hinv. split; simpl; eauto.
  intros k r Hk Hp. apply not_true_iff_false. intros Hb%Hsub.
  rewrite (block_no_pending0 k r Hk Hp) in Hb. done.
Qed.

(** The tables after a request is (re)opened. *)
Lemma SocialInv_open_request d k r :
  SocialInv d → fr_status r = FR_pending → fr_senderId r ≠ fr_receiverId r →
  (fr_senderId r, fr_receiverId r) ∉ db_friendships d →
  blocked_between (fr_senderId r) (fr_receiverId r) d = false →
  (∀ k' r', db_friendRequests d !! k' = Some r' → fr_senderId r' = fr_senderId r →
     fr_receiverId r' = fr_receiverId r → k' = k) →
  (∀ k' r', db_friendRequests d !! k' = Some r' → fr_senderId r' = fr_receiverId r →
     fr_receiverId r' = fr_senderId r → fr_status r' ≠ FR_pending) →
  SocialInv (d <| db_friendRequests := <[k := r]> (db_friendRequests d) |>).
Proof.
  intros Hinv Hp Hne Hnf Hnb Huniq Hrev. destruct Hinv.
  split; simpl; eauto.
  - intros k1 r1 k2 r2. rewrite !lookup_insert_Some.
    intros [[<- <-]|[? ?]] [[<- <-]|[? ?]] ??; eauto. symmetry. eauto.
  - intros k1 r1. rewrite lookup_insert_Some. intros [[<- <-]|[? ?]]; eauto.
  - intros k1 r1 k2 r2. rewrite !lookup_insert_Some.
    intros [[<- <-]|[? ?]] [[<- <-]|[? ?]] ????; eauto; try congruence.
    + eapply (Hrev k2 r2); eauto.
    + eapply (Hrev k1 r1); eauto.
  - intros k1 r1. rewrite lookup_insert_Some. intros [[<- <-]|[? ?]] ?; eauto.
  - intros k1 r1. rewrite lookup_insert_Some. intros [[<- <-]|[? ?]] ?; [done|].
    by apply (block_no_pending0 k1 r1).
Qed.

Lemma upsert_request_ok s r newId now d k row d' :
  SocialInv d →
  upsert_request s r newId now d = Ok ((k, row), d') →
  fr_status row = FR_pending ∧ fr_senderId row = s ∧ fr_receiverId row = r ∧
  fr_updatedAt row = now ∧
  (∀ k' r', db_friendRequests d !! k' = Some r' → fr_senderId r' = s → fr_receiverId r' = r → k' = k) ∧
  d' = d <| db_friendRequests := <[k := row]> (db_friendRequests d) |>.
Proof.
  intros Hinv H. unfold upsert_request in H. step_inv.
  - match goal with E : find_request _ _ _ = Some _ |- _ =>
      apply (find_request_iff _ _ _ _ _ Hinv) in E as (Hk & <- & <-) end.
    split_and!; try done. intros k' r' Hk' E1 E2. by eapply (request_unique d Hinv).
  - match goal with E : find_request _ _ _ = None |- _ =>
      pose proof (proj1 (find_request_None _ _ _) E) as Hnone end.
    match goal with E : (create_row _ _ _ _ ≫= _) = Some _ |- _ =>
      apply bind_Some in E as (m & Hm & [= <-]) end.
    apply create_row_Some in Hm as (_ & _ & ->). simpl.
    split_and!; try done. intros k' r' Hk' E1 E2. exfalso. eauto.
Qed.

(** The paths of [sendFriendRequest] that return. *)
Lemma sendFriendRequest_tx_ok s r newId now d res d' :
  SocialInv d → sendFriendRequest_tx s r newId now d = Ok (res, d') →
  open_user d s ∧ open_user d r ∧ s ≠ r ∧
  (s, r) ∉ db_friendships d ∧ blocked_between s r d = false ∧
  match res with
  | SentAccepted k request =>
      find_request r s d = Some (k, request) ∧
      acceptFriendRequestInTransaction s k now d = Ok (request, d')
  | SentPending k request =>
      is_pending (find_request s r d) = false ∧ is_pending (find_request r s d) = false ∧
      upsert_request s r newId now d = Ok ((k, request), d')
  end.
Proof.
  intros Hinv H. unfold sendFriendRequest_tx, lockActiveParticipants in H.
  step_inv; bool_inv;
    match goal with E : count_open_users _ _ = 2%nat |- _ =>
      pose proof (count_open_users_distinct _ _ _ E) as Hne;
      apply (count_open_users_two _ _ _ Hne) in E as [? ?] end;
    do 5 (split; [done|]).
  - match goal with E : acceptFriendRequestInTransaction _ _ _ _ = _ |- _ =>
      pose proof (accept_in_transaction_ok _ _ _ _ _ _ E) as (Hk & _) end.
    match goal with E : find_request r s d = Some _ |- _ =>
      apply (find_request_iff _ _ _ _ _ Hinv) in E as (Hk' & _) end.
    simplify_eq. done.
  - match goal with q : (_ * FriendRequest)%type |- _ => destruct q end.
    split_and!; [done| |done]. simpl. by apply bool_decide_eq_false_2.
  - match goal with q : (_ * FriendRequest)%type |- _ => destruct q end. done.
Qed.

Lemma sendFriendRequest_tx_inv s r newId now d res d' :
  SocialInv d → sendFriendRequest_tx s r newId now d = Ok (res, d') → SocialInv d'.
Proof.
  intros Hinv H. apply sendFriendRequest_tx_ok in H as (_ & _ & Hne & Hnf & Hnb & H); [|done].
  destruct res as [k request|k request].
  - destruct H as [_ H]. by eapply accept_in_transaction_inv.
  - destruct H as (_ & Hrev & H).
    apply upsert_request_ok in H as (Hp & Es & Er & _ & Huniq & ->); [|done].
    subst s r. apply SocialInv_open_request; try done.
    intros k' r' Hk' E1 E2 Hp'.
    assert (find_request (fr_receiverId request) (fr_senderId request) d = Some (k', r')) as Hf
      by by apply find_request_iff.
    rewrite Hf in Hrev. simpl in Hrev. rewrite bool_decide_eq_true_2 in Hrev; done.
Qed.

Lemma blockUser_tx_ok userId blockedId now d u d' :
  blockUser_tx userId blockedId now d = Ok (u, d') →
  db_blockedUsers d !! (userId, blockedId) = None ∧
  db_blockedUsers d' = <[(userId, blockedId) := now]> (db_blockedUsers d) ∧
  db_friendships d' = filter (λ p, pair_between userId blockedId p.1 p.2 = false) (db_friendships d) ∧
  db_friendRequests d' =
    update_many (λ _ r, (fr_status r == FR_pending) && pair_between userId blockedId (fr_senderId r) (fr_receiverId r))
      (λ r, r <| fr_status := FR_cancelled |> <| fr_updatedAt := now |>) (db_friendRequests d).
Proof.
  unfold blockUser_tx. intros H. step_inv. case_bool_decide as Hb; simplify_eq/=.
  split_and!; [|done..]. by apply eq_None_not_Some.
Qed.

Lemma pair_between_true a b x y : pair_between a b x y = true ↔ (x = a ∧ y = b) ∨ (x = b ∧ y = a).
Proof. unfold pair_between. by rewrite orb_true_iff, !andb_true_iff, !bool_decide_eq_true. Qed.

Lemma pair_between_swap a b x y : pair_between a b x y = pair_between x y a b.
Proof. apply eq_true_iff_eq. rewrite !pair_between_true. naive_solver. Qed.

Lemma blockUser_tx_inv userId blockedId now d u d' :
  SocialInv d → blockUser_tx userId blockedId now d = Ok (u, d') → SocialInv d'.
Proof.
  intros Hinv H. apply blockUser_tx_ok in H as (_ & EB & EF & ER).
  assert (∀ a b, blocked_between a b d' = true → pair_between userId blockedId a b = true ∨ blocked_between a b d = true) as Hb.
  { intros a b. unfold blocked_between. rewrite EB, pair_between_true, !orb_true_iff, !bool_decide_eq_true.
    intros [[t Ht]|[t Ht]]; apply lookup_insert_Some in Ht as [[[= <- <-] _]|[_ Ht]]; eauto 6. }
  assert (∀ a b, (a, b) ∈ db_friendships d' ↔ pair_between userId blockedId a b = false ∧ (a, b) ∈ db_friendships d) as Hf
    by (intros; rewrite EF, elem_of_filter; done).
  assert (∀ k r', db_friendRequests d' !! k = Some r' → ∃ r, db_friendRequests d !! k = Some r ∧
    fr_senderId r' = fr_senderId r ∧ fr_receiverId r' = fr_receiverId r ∧
    (fr_status r' = FR_pending → r' = r ∧ pair_between userId blockedId (fr_senderId r) (fr_receiverId r) = false)) as Hr.
  { intros k r'. rewrite ER, lookup_update_many_Some. intros (r & Hk & ->). exists r.
    destruct (fr_status r == FR_pending) eqn:Es, (pair_between _ _ _ _) eqn:Ep; simpl; split_and!; try done.
    all: bool_inv; naive_solver. }
  destruct Hinv. split.
  - intros a b. rewrite !Hf. intros [Hp Hin]. split; [|eauto].
    rewrite <- not_true_iff_false, pair_between_true in *. naive_solver.
  - intros a. rewrite Hf. naive_solver.
  - intros k1 r1 k2 r2 (q1 & ? & ? & ? & _)%Hr (q2 & ? & ? & ? & _)%Hr ??. eapply (request_unique0 k1 q1 k2 q2); eauto; congruence.
  - intros k1 r1 (q1 & ? & -> & -> & _)%Hr. eauto.
  - intros k1 r1 k2 r2 (q1 & ? & ? & ? & E1)%Hr (q2 & ? & ? & ? & E2)%Hr ????.
    destruct E1 as [-> _], E2 as [-> _]; [done..|]. by eapply (pending_exclusive0 k1 q1 k2 q2).
  - intros k1 r1 (q1 & ? & ? & ? & E1)%Hr Hp. destruct E1 as [-> _]; [done|]. rewrite Hf. naive_solver.
  - intros a b [Hp|Hp]%Hb; rewrite Hf; [naive_solver congruence|]. intros [_ ?]. by eapply block_no_friend0.
  - intros k1 r1 (q1 & ? & ? & ? & E1)%Hr Hp. destruct E1 as [-> Hpb]; [done|].
    apply not_true_iff_false. intros [Hx|Hx]%Hb; [congruence|].
    rewrite (block_no_pending0 k1 q1) in Hx; done.
Qed.

Lemma social_step_inv d d' : SocialInv d → social_step d d' → SocialInv d'.
Proof.
  intros Hinv. destruct 1.
  - by eapply sendFriendRequest_tx_inv.
  - unfold acceptFriendRequest_tx, lockActiveParticipants in *. step_inv.
    by eapply accept_in_transaction_inv.
  - by eapply finalize_tx_inv.
  - by eapply removeFriend_tx_inv.
  - by eapply blockUser_tx_inv.
  - by eapply unblockUser_tx_inv.
  - by eapply SocialInv_frame.
Qed.

Lemma empty_db_SocialInv : SocialInv empty_db.
Proof. by split; unfold empty_db; simpl; intros; simplify_map_eq; try set_solver. Qed.

(** Every state the transactions can produce from the empty database. *)
Definition social_reachable (d : DB) : Prop := rtc social_step empty_db d.

Lemma social_reachable_inv d : social_reachable d → SocialInv d.
Proof.
  unfold social_reachable. intros Hr. generalize empty_db_SocialInv.
  induction Hr; eauto using social_step_inv.
Qed.

(** ** The abstract relation between two users

    What the tables say of two users, as one value: the specification the
    methods are measured against. *)

Inductive PairState := PS_none | PS_requested | PS_requested_back | PS_friends | PS_blocked.
#[export] Instance PairState_eq_dec : EqDecision PairState.
Proof. solve_decision. Defined.

Definition pair_state (d : DB) (a b : rowid) : PairState :=
  if blocked_between a b d then PS_blocked
  else if bool_decide ((a, b) ∈ db_friendships d) then PS_friends
  else if is_pending (find_request a b d) then PS_requested
  else if is_pending (find_request b a d) then PS_requested_back
  else PS_none.

(** Two states agree on every pair but the unordered pair [a], [b]. *)
Definition other_pairs_unchanged (a b : rowid) (d d' : DB) : Prop :=
  ∀ x y, pair_between a b x y = false → pair_state d' x y = pair_state d x y.

Lemma is_pending_spec d s r :
  SocialInv d →
  is_pending (find_request s r d) = true ↔
  ∃ k row, db_friendRequests d !! k = Some row ∧ fr_senderId row = s ∧ fr_receiverId row = r ∧ fr_status row = FR_pending.
Proof.
  intros Hinv. split.
  - destruct (find_request s r d) as [[k row]|] eqn:E; [|done]. simpl.
    apply (find_request_iff _ _ _ _ _ Hinv) in E as (? & ? & ?). intros Hp. bool_inv. eauto 8.
  - intros (k & row & Hk & Hs & Hr & Hp).
    assert (find_request s r d = Some (k, row)) as -> by by apply find_request_iff.
    simpl. by apply bool_decide_eq_true_2.
Qed.

(** The pair states are determined by three relations. *)
Lemma pair_state_ext d d' x y :
  SocialInv d → SocialInv d' →
  blocked_between x y d' = blocked_between x y d →
  ((x, y) ∈ db_friendships d' ↔ (x, y) ∈ db_friendships d) →
  (∀ k r, fr_status r = FR_pending → pair_between x y (fr_senderId r) (fr_receiverId r) = true →
     db_friendRequests d' !! k = Some r ↔ db_friendRequests d !! k = Some r) →
  pair_state d' x y = pair_state d x y.
Proof.
  intros Hi Hi' Hb Hf Hr. unfold pair_state. rewrite Hb.
  rewrite (bool_decide_ext _ _ Hf).
  assert (∀ s r, pair_between x y s r = true → is_pending (find_request s r d') = is_pending (find_request s r d)) as Hp.
  { intros s r Hsr. apply eq_true_iff_eq. rewrite !is_pending_spec by done.
    split; intros (k & row & Hk & <- & <- & Hpend); exists k, row; split_and!; try done; by apply (Hr k row). }
  rewrite !Hp; [done|rewrite pair_between_true; auto..].
Qed.

Lemma pair_state_friends_iff d a b :
  SocialInv d → pair_state d a b = PS_friends ↔ (a, b) ∈ db_friendships d.
Proof.
  intros Hinv. unfold pair_state. split.
  - repeat case_match; bool_inv; naive_solver.
  - intros Hin. destruct (blocked_between a b d) eqn:Hb; [by apply (block_no_friend _ Hinv) in Hb|].
    by rewrite bool_decide_eq_true_2.
Qed.

Lemma pair_state_requested_iff d a b :
  SocialInv d → pair_state d a b = PS_requested ↔
  ∃ k r, db_friendRequests d !! k = Some r ∧ fr_senderId r = a ∧ fr_receiverId r = b ∧ fr_status r = FR_pending.
Proof.
  intros Hinv. rewrite <- is_pending_spec by done. unfold pair_state. split.
  - repeat case_match; done.
  - intros Hp. pose proof Hp as (k & r & Hk & <- & <- & Hs)%is_pending_spec; [|done].
    rewrite (block_no_pending _ Hinv k r) by done.
    rewrite bool_decide_eq_false_2 by (by apply (friends_no_pending _ Hinv k)).
    by rewrite Hp.
Qed.

Lemma pair_state_requested_back_iff d a b :
  SocialInv d → pair_state d a b = PS_requested_back ↔ pair_state d b a = PS_requested.
Proof.
  intros Hinv. rewrite pair_state_requested_iff, <- is_pending_spec by done. unfold pair_state. split.
  - repeat case_match; done.
  - intros Hp. pose proof Hp as (k & r & Hk & <- & <- & Hs)%is_pending_spec; [|done].
    rewrite blocked_between_sym, (block_no_pending _ Hinv k r) by done.
    rewrite bool_decide_eq_false_2.
    2:{ intros Hf%(friends_sym _ Hinv). by apply (friends_no_pending _ Hinv k r). }
    destruct (is_pending (find_request (fr_receiverId r) (fr_senderId r) d)) eqn:E.
    + apply is_pending_spec in E as (k2 & r2 & ? & ? & ? & ?); [|done].
      exfalso. eapply (pending_exclusive _ Hinv k r k2 r2); eauto.
    + by rewrite Hp.
Qed.

(** A method left the pair states of everybody else alone. *)
Lemma close_other_pairs d k r st now :
  SocialInv d → db_friendRequests d !! k = Some r → st ≠ FR_pending →
  other_pairs_unchanged (fr_senderId r) (fr_receiverId r) d
    (d <| db_friendRequests := <[k := r <| fr_status := st |> <| fr_updatedAt := now |>]> (db_friendRequests d) |>).
Proof.
  intros Hinv Hk Hst x y Hxy. apply pair_state_ext; try done.
  - by apply SocialInv_close_request.
  - intros k' r' Hp Hxy'. simpl. rewrite lookup_insert_Some. split; [|intros Hk'; right; split; [|done]].
    + intros [[<- <-]|[_ ?]]; [|done]. done.
    + intros <-. rewrite Hk in Hk'. injection Hk' as <-.
      apply pair_between_true in Hxy'. apply not_true_iff_false in Hxy.
      rewrite pair_between_true in Hxy. naive_solver.
Qed.

Lemma accept_pair_states receiverId k now d request d' :
  SocialInv d → acceptFriendRequestInTransaction receiverId k now d = Ok (request, d') →
  pair_state d' (fr_senderId request) (fr_receiverId request) = PS_friends ∧
  other_pairs_unchanged (fr_senderId request) (fr_receiverId request) d d'.
Proof.
  intros Hinv H. pose proof (accept_in_transaction_inv _ _ _ _ _ _ Hinv H) as Hinv'.
  pose proof (accept_in_transaction_ok _ _ _ _ _ _ H) as (Hk & Hp & _ & Hnf & Hd').
  split.
  - rewrite pair_state_friends_iff by done. subst d'. simpl. set_solver.
  - intros x y Hxy. etrans; [|by apply (close_other_pairs d k request FR_accepted now)].
    subst d'. apply pair_state_ext; try done.
    + by apply SocialInv_close_request.
    + simpl. apply not_true_iff_false in Hxy. rewrite pair_between_true in Hxy.
      rewrite !elem_of_union, !elem_of_singleton. naive_solver.
Qed.

Lemma upsert_pair_states s r newId now d k row d' :
  SocialInv d → SocialInv d' → upsert_request s r newId now d = Ok ((k, row), d') →
  is_pending (find_request s r d) = false →
  pair_state d' s r = PS_requested ∧ other_pairs_unchanged s r d d'.
Proof.
  intros Hinv Hinv' H Hnp. pose proof (upsert_request_ok _ _ _ _ _ _ _ _ Hinv H) as (Hp & Hs & Hr & _ & Huniq & ->).
  split.
  - apply pair_state_requested_iff; [done|]. exists k, row. split_and!; try done. apply lookup_insert_eq.
  - intros x y Hxy. apply pair_state_ext; try done.
    intros k' r' Hp' Hxy'. simpl. rewrite lookup_insert_Some. split.
    + intros [[<- <-]|[_ ?]]; [|done]. subst. rewrite pair_between_swap in Hxy'. congruence.
    + intros Hk'. destruct (decide (k = k')) as [<-|]; [|auto].
      exfalso. apply not_true_iff_false in Hnp. apply Hnp.
      apply pair_between_true in Hxy'. apply not_true_iff_false in Hxy. rewrite pair_between_true in Hxy.
      unfold upsert_request in H. rewrite tx_bind_ok in H. destruct H as (o & d1 & [-> ->]%tx_gets_ok & H).
      destruct (find_request s r d) as [[k0 r0]|] eqn:E.
      * apply (find_request_iff _ _ _ _ _ Hinv) in E as (Hk0 & E1 & E2). step_inv. naive_solver.
      * step_inv. match goal with E : (create_row _ _ _ _ ≫= _) = Some _ |- _ =>
          apply bind_Some in E as (m & Hm & _) end.
        apply create_row_Some in Hm as (Hnone & _). naive_solver.
Qed.

(** Enough for [upsert_request] to return: a new row gets an unused id. *)
Lemma upsert_request_returns s r newId now d :
  db_friendRequests d !! newId = None → ∃ res, upsert_request s r newId now d = Ok res.
Proof.
  intros Hnew. unfold upsert_request, mbind, tx_bind, gets.
  destruct (find_request s r d) as [[k row]|] eqn:E; [by eexists|].
  unfold modify_or.
  destruct (create_row _ newId _ (db_friendRequests d)) as [m|] eqn:Em; simpl; [by eexists|].
  exfalso. unfold create_row in Em. rewrite Hnew in Em. rewrite bool_decide_eq_false_2 in Em by (intros [? ?]; done).
  simpl in Em. destruct (exists_where _ _) eqn:Ex; [|done].
  apply exists_where_true in Ex as (k & row & Hk & Hc). bool_inv. simpl in *. subst.
  by eapply (proj1 (find_request_None _ _ _) E).
Qed.

Lemma accept_returns d k r receiver now :
  SocialInv d → db_friendRequests d !! k = Some r → fr_status r = FR_pending → fr_receiverId r = receiver →
  ∃ d', acceptFriendRequestInTransaction receiver k now d = Ok (r, d').
Proof.
  intros Hinv Hk Hp <-.
  assert (finalizePendingFriendRequest k (fr_receiverId r) act_accept now d =
    Ok (r, d <| db_friendRequests := update_many (λ k' r', (k' == k) && (fr_status r' == FR_pending))
      (λ r, r <| fr_status := FR_accepted |> <| fr_updatedAt := now |>) (db_friendRequests d) |>)) as Hf.
  { unfold finalizePendingFriendRequest, mbind, tx_bind, gets, require, require_some, modify, mret, tx_ret.
    rewrite Hk, Hp, !bool_decide_eq_true_2; try done.
    rewrite (count_where_key (λ r0, fr_status r0 == FR_pending) _ _ _ Hk); [|by apply bool_decide_eq_true_2].
    done. }
  unfold acceptFriendRequestInTransaction. eexists.
  rewrite (tx_bind_run _ _ _ _ _ Hf).
  assert ((fr_senderId r, fr_receiverId r) ∉ db_friendships d) as Hn1 by (by apply (friends_no_pending _ Hinv k)).
  assert ((fr_receiverId r, fr_senderId r) ∉ db_friendships d) as Hn2 by (by intros ?%(friends_sym _ Hinv)).
  pose proof (request_no_self _ Hinv k r Hk) as Hne.
  unfold create_friendship, mbind, tx_bind, modify_or. simpl.
  rewrite bool_decide_eq_false_2 by done. simpl.
  rewrite bool_decide_eq_false_2 by (rewrite elem_of_union, elem_of_singleton; naive_solver). done.
Qed.

(** The transaction of [sendFriendRequest] past its guards. *)
Lemma send_tx_guards s r newId now d :
  SocialInv d → open_user d s → open_user d r → s ≠ r →
  sendFriendRequest_tx s r newId now d =
  match pair_state d s r with
  | PS_friends => Err (ConflictException "FRIENDSHIP_ALREADY_EXISTS")
  | PS_blocked => Err (ForbiddenException "SOCIAL_ACTION_NOT_ALLOWED")
  | PS_requested => Err (ConflictException "FRIEND_REQUEST_ALREADY_EXISTS")
  | PS_requested_back =>
      match find_request r s d with
      | Some (k, _) => (acceptFriendRequestInTransaction s k now ≫= λ request, mret (SentAccepted k request)) d
      | None => Err P2025
      end
  | PS_none => (upsert_request s r newId now ≫= λ request, mret (SentPending request.1 request.2)) d
  end.
Proof.
  intros Hinv Hs Hr Hne.
  assert (count_open_users [s; r] d = 2%nat) as Hc by by apply count_open_users_two.
  assert (bool_decide ((r, s) ∈ db_friendships d) = bool_decide ((s, r) ∈ db_friendships d)) as Hsym.
  { apply bool_decide_ext. split; apply (friends_sym _ Hinv). }
  assert (pair_state d s r = PS_blocked → (s, r) ∉ db_friendships d) as Hbf.
  { unfold pair_state. intros Hb. apply (block_no_friend _ Hinv). by repeat case_match. }
  unfold sendFriendRequest_tx, lockActiveParticipants, mbind, tx_bind, gets, require in *.
  cbv beta iota. rewrite Hc. cbv beta iota. rewrite (bool_decide_eq_true_2 (2%nat = 2%nat)) by done.
  cbv beta iota. rewrite Hsym.
  destruct (blocked_between s r d) eqn:Hb.
  { assert (pair_state d s r = PS_blocked) as Hps by (unfold pair_state; by rewrite Hb).
    rewrite Hps in *. rewrite bool_decide_eq_false_2 by auto. simpl. by rewrite Hb. }
  unfold pair_state. rewrite Hb.
  destruct (bool_decide ((s, r) ∈ db_friendships d)); simpl; [done|]. rewrite Hb. simpl.
  destruct (find_request r s d) as [[k2 r2]|] eqn:Er, (find_request s r d) as [[k1 r1]|] eqn:Es; simpl;
    rewrite ?Es; simpl; repeat case_bool_decide; simplify_eq/=; try done.
  exfalso. apply (find_request_iff _ _ _ _ _ Hinv) in Er as (? & ? & ?), Es as (? & ? & ?).
  eapply (pending_exclusive _ Hinv k1 r1 k2 r2); eauto; congruence.
Qed.

(** The pair state after a pending request was rejected or cancelled. *)
Lemma close_pair_state d k r st now :
  SocialInv d → db_friendRequests d !! k = Some r → fr_status r = FR_pending → st ≠ FR_pending →
  pair_state (d <| db_friendRequests := <[k := r <| fr_status := st |> <| fr_updatedAt := now |>]> (db_friendRequests d) |>)
    (fr_senderId r) (fr_receiverId r) = PS_none.
Proof.
  intros Hinv Hk Hp Hst. pose proof (SocialInv_close_request d k r st now Hinv Hk Hst) as Hinv'.
  set (d' := d <| db_friendRequests := _ |>) in *.
  assert (∀ s q, pair_between (fr_senderId r) (fr_receiverId r) s q = true → is_pending (find_request s q d') = false) as Hno.
  { intros s q Hsq. apply not_true_iff_false. rewrite is_pending_spec by done.
    intros (k2 & r2 & Hk2 & <- & <- & Hp2). apply pair_between_true in Hsq.
    unfold d' in Hk2. simpl in Hk2. apply lookup_insert_Some in Hk2 as [[<- <-]|[Hne Hk2]]; [done|].
    destruct Hsq as [[E1 E2]|[E1 E2]].
    - apply Hne. by eapply (request_unique _ Hinv k r k2 r2).
    - by eapply (pending_exclusive _ Hinv k r k2 r2). }
  unfold pair_state. rewrite !Hno by (rewrite pair_between_true; auto).
  rewrite bool_decide_eq_false_2 by (by apply (friends_no_pending _ Hinv k)).
  change (blocked_between (fr_senderId r) (fr_receiverId r) d') with (blocked_between (fr_senderId r) (fr_receiverId r) d).
  by rewrite (block_no_pending _ Hinv k r).
Qed.

Lemma finalize_run d k r actor action now :
  db_friendRequests d !! k = Some r →
  (match action with act_cancel => fr_senderId r | _ => fr_receiverId r end) = actor →
  finalizePendingFriendRequest k actor action now d =
  if fr_status r == FR_pending
  then Ok (r, d <| db_friendRequests := <[k := r <| fr_status := next_status action |> <| fr_updatedAt := now |>]> (db_friendRequests d) |>)
  else Err (ConflictException "FRIEND_REQUEST_NOT_PENDING").
Proof.
  intros Hk Hactor. destruct (finalizePendingFriendRequest k actor action now d) as [[q d']|e] eqn:E.
  - apply finalize_ok in E as (Hk' & Hp & _ & ->). simplify_eq. by rewrite Hp.
  - revert E. unfold finalizePendingFriendRequest, mbind, tx_bind, gets, require, require_some, modify, mret, tx_ret.
    rewrite Hk. replace (match action with act_cancel => _ | _ => _ end) with true.
    2:{ symmetry. destruct action; by apply bool_decide_eq_true_2. }
    case_bool_decide as Hp; [|congruence].
    rewrite (count_where_key (λ r0, fr_status r0 == FR_pending) _ _ _ Hk) by (by apply bool_decide_eq_true_2).
    done.
Qed.

Lemma lock_run d a b :
  open_user d a → open_user d b → a ≠ b → lockActiveParticipants a b d = Ok ((), d).
Proof.
  intros. unfold lockActiveParticipants, mbind, tx_bind, gets, require.
  by rewrite bool_decide_eq_true_2 by (by apply count_open_users_two).
Qed.

Lemma lock_stops d a b :
  a ≠ b → ¬ (open_user d a ∧ open_user d b) → lockActiveParticipants a b d = Err (NotFoundException "USER_NOT_FOUND").
Proof.
  intros Hne Ho. unfold lockActiveParticipants. rewrite tx_gets_run. unfold require.
  by rewrite bool_decide_eq_false_2 by by intros ?%count_open_users_two.
Qed.
Lemma send_to_self s newId now w : sendFriendRequest s s newId now w = (Err (ForbiddenException "CANNOT_FRIEND_SELF"), w).
Proof. unfold sendFriendRequest. apply act_require_stop. by rewrite bool_decide_eq_true_2. Qed.
Lemma send_to_closed s r newId now w : s ≠ r → ¬ (open_user (w_db w) s ∧ open_user (w_db w) r) →
  sendFriendRequest s r newId now w = (Err (NotFoundException "USER_NOT_FOUND"), w).
Proof.
  intros Hne Ho. unfold sendFriendRequest. rewrite (act_bind_run _ _ _ () w) by (unfold act_require; by rewrite bool_decide_eq_false_2).
  apply act_bind_throw, transaction_err. unfold sendFriendRequest_tx, mbind, tx_bind. by rewrite (lock_stops _ _ _ Hne Ho).
Qed.

(** The relation an answer of the look-ups shows. *)
Definition shown_relation (ps : PairState) : Relation :=
  match ps with
  | PS_friends => rel_friend
  | PS_requested => rel_outgoing_request
  | PS_requested_back => rel_incoming_request
  | PS_none | PS_blocked => rel_none
  end.

Lemma withRelationship_run user requester code w :
  requester ≠ "" → requester ≠ su_id user →
  withRelationship user (Some requester) code w =
  if pair_state (w_db w) requester (su_id user) == PS_blocked
  then (Err (NotFoundException code), w)
  else (Ok (user, shown_relation (pair_state (w_db w) requester (su_id user))), w).
Proof.
  intros H1 H2. unfold withRelationship. rewrite !bool_decide_eq_false_2 by done.
  unfold mbind, act_bind, query, act_gets, act_require, mret, act_ret, pair_state. simpl.
  destruct (blocked_between _ _ _); simpl; [done|]. repeat case_match; simpl; done.
Qed.

(** ** Properties *)

(** C5: In a database the friend methods keep well formed, [sendFriendRequest]
    implements the abstract relation of two users, on every branch.  To oneself it
    answers CANNOT_FRIEND_SELF; unless both accounts are open, USER_NOT_FOUND;
    between two open accounts it fails, with the code of the case, exactly when
    they are already friends, one blocks the other or the same request is
    pending; a pending request in the other direction is accepted at once;
    otherwise the request becomes pending.  A refusal changes nothing, and no
    other pair of users is ever affected.  The id a new row gets is not in use. *)
Theorem sendFriendRequest_refines s r newId now w :
  SocialInv (w_db w) → db_friendRequests (w_db w) !! newId = None →
  (s = r → sendFriendRequest s r newId now w = (Err (ForbiddenException "CANNOT_FRIEND_SELF"), w)) ∧
  (s ≠ r → ¬ (open_user (w_db w) s ∧ open_user (w_db w) r) →
     sendFriendRequest s r newId now w = (Err (NotFoundException "USER_NOT_FOUND"), w)) ∧
  (s ≠ r → open_user (w_db w) s → open_user (w_db w) r →
  match pair_state (w_db w) s r with
  | PS_friends => sendFriendRequest s r newId now w = (Err (ConflictException "FRIENDSHIP_ALREADY_EXISTS"), w)
  | PS_blocked => sendFriendRequest s r newId now w = (Err (ForbiddenException "SOCIAL_ACTION_NOT_ALLOWED"), w)
  | PS_requested => sendFriendRequest s r newId now w = (Err (ConflictException "FRIEND_REQUEST_ALREADY_EXISTS"), w)
  | PS_requested_back => ∃ k request w',
      sendFriendRequest s r newId now w = (Ok (SentAccepted k request), w') ∧
      pair_state (w_db w') s r = PS_friends ∧ other_pairs_unchanged s r (w_db w) (w_db w')
  | PS_none => ∃ k request w',
      sendFriendRequest s r newId now w = (Ok (SentPending k request), w') ∧
      pair_state (w_db w') s r = PS_requested ∧ other_pairs_unchanged s r (w_db w) (w_db w')
  end).
Proof.
  intros Hinv Hnew. split; [intros ->; by apply send_to_self|]. split; [by intros; apply send_to_closed|].
  intros Hne Hs Hr. pose proof (send_tx_guards s r newId now _ Hinv Hs Hr Hne) as Hg.
  unfold sendFriendRequest. rewrite (act_bind_run _ _ _ () w) by (unfold act_require; by rewrite bool_decide_eq_false_2).
  destruct (pair_state (w_db w) s r) eqn:E.
  2: apply pair_state_requested_iff in E as (k & row & Hk & Es & Er & Hp); [|done].
  3: apply pair_state_requested_back_iff, pair_state_requested_iff in E as (k & row & Hk & Es & Er & Hp); [|done..].
  2,4,5: apply act_bind_throw, transaction_err; done.
  - destruct (upsert_request_returns s r newId now (w_db w) Hnew) as [[[k row] d'] Hu].
    rewrite (tx_bind_run _ _ _ _ _ Hu) in Hg. simpl in Hg.
    pose proof (sendFriendRequest_tx_inv _ _ _ _ _ _ _ Hinv Hg) as Hinv'.
    destruct (upsert_pair_states _ _ _ _ _ _ _ _ Hinv Hinv' Hu) as [? ?].
    { revert E. unfold pair_state. by repeat case_match. }
    exists k, row. eexists. split.
    { erewrite act_bind_run by (apply transaction_ok; by eauto). done. }
    done.
  - assert (find_request r s (w_db w) = Some (k, row)) as Hf by by apply find_request_iff.
    rewrite Hf in Hg. destruct (accept_returns (w_db w) k row s now) as [d' Ha]; [done..|].
    rewrite (tx_bind_run _ _ _ _ _ Ha) in Hg. simpl in Hg.
    destruct (accept_pair_states _ _ _ _ _ _ Hinv Ha) as [Hfr Hoth]. subst s r.
    pose proof (sendFriendRequest_tx_inv _ _ _ _ _ _ _ Hinv Hg) as Hinv'.
    exists k, row. eexists. split.
    { erewrite act_bind_run by (apply transaction_ok; by eauto). done. }
    rewrite pair_state_friends_iff in * by done. split; [by apply (friends_sym _ Hinv')|].
    intros x y Hxy. apply Hoth. unfold pair_between in *. by rewrite orb_comm.
Qed.

(** [acceptFriendRequest], [rejectFriendRequest] and [cancelFriendRequest]
    by the right user, between two open accounts, close a pending request - into
    a friendship or back to nothing - without touching any other pair, and
    refuse a request that is no longer pending, changing nothing. *)
Theorem closing_request_refines k r now w :
  SocialInv (w_db w) → db_friendRequests (w_db w) !! k = Some r →
  open_user (w_db w) (fr_senderId r) → open_user (w_db w) (fr_receiverId r) →
  let closes (m : Act World unit) (ps : PairState) :=
    if fr_status r == FR_pending
    then ∃ w', m w = (Ok (), w') ∧ pair_state (w_db w') (fr_senderId r) (fr_receiverId r) = ps ∧
           other_pairs_unchanged (fr_senderId r) (fr_receiverId r) (w_db w) (w_db w')
    else m w = (Err (ConflictException "FRIEND_REQUEST_NOT_PENDING"), w) in
  closes (acceptFriendRequest (fr_receiverId r) k now) PS_friends ∧
  closes (rejectFriendRequest (fr_receiverId r) k now) PS_none ∧
  closes (cancelFriendRequest (fr_senderId r) k now) PS_none.
Proof.
  intros Hinv Hk Hs Hr closes. pose proof (request_no_self _ Hinv k r Hk) as Hne.
  pose proof (lock_run _ _ _ Hs Hr Hne) as Hlock.
  assert (∀ actor action, action ≠ act_accept →
    match action with act_cancel => fr_senderId r | _ => fr_receiverId r end = actor →
    transaction (finalize_tx r actor k action now) w =
    if fr_status r == FR_pending
    then (Ok r, w <| w_db := (w_db w) <| db_friendRequests := <[k := r <| fr_status := next_status action |> <| fr_updatedAt := now |>]> (db_friendRequests (w_db w)) |> |>)
    else (Err (ConflictException "FRIEND_REQUEST_NOT_PENDING"), w)) as Hfin.
  { intros actor action Hact Hactor. unfold transaction, finalize_tx.
    rewrite (tx_bind_run _ _ _ _ _ Hlock), (finalize_run _ _ _ _ _ _ Hk Hactor).
    by destruct (fr_status r == FR_pending). }
  unfold closes. split; [|split].
  - unfold acceptFriendRequest. rewrite query_run, (act_require_some_run _ _ _ _ r Hk).
    rewrite act_require_run by by apply bool_decide_eq_true_2.
    case_bool_decide as Hp.
    + destruct (accept_returns _ k r (fr_receiverId r) now Hinv Hk Hp eq_refl) as [d' Ha].
      eexists. split.
      { erewrite act_bind_run; [done|]. unfold act_catch, transaction, acceptFriendRequest_tx.
        rewrite (tx_bind_run _ _ _ _ _ Hlock), Ha. done. }
      by eapply (accept_pair_states _ _ _ (w_db w) r d').
    + apply act_bind_throw. unfold act_catch, transaction, acceptFriendRequest_tx.
      rewrite (tx_bind_run _ _ _ _ _ Hlock). unfold acceptFriendRequestInTransaction.
      rewrite (tx_bind_throw _ _ _ (ConflictException "FRIEND_REQUEST_NOT_PENDING")); [done|].
      rewrite (finalize_run _ _ _ _ _ _ Hk) by done. by rewrite bool_decide_eq_false_2.
  - unfold rejectFriendRequest. rewrite query_run, (act_require_some_run _ _ _ _ r Hk).
    rewrite act_require_run by by apply bool_decide_eq_true_2.
    case_bool_decide as Hp; [|by apply act_bind_throw, Hfin].
    eexists. split; [by erewrite act_bind_run by by apply (Hfin _ act_reject)|]. split.
    + by apply close_pair_state.
    + by apply close_other_pairs.
  - unfold cancelFriendRequest. rewrite query_run, (act_require_some_run _ _ _ _ r Hk).
    rewrite act_require_run by by apply bool_decide_eq_true_2.
    case_bool_decide as Hp; [|by apply act_bind_throw, Hfin].
    eexists. split; [by erewrite act_bind_run by by apply (Hfin _ act_cancel)|]. split.
    + by apply close_pair_state.
    + by apply close_other_pairs.
Qed.

Section blocking.
Context `{!ScanOrder} `{!VisitGateway}.

(** [blockUser] that returns leaves the pair blocked - no friendship,
    no pending request in either direction - with no live session between the
    two, whatever they were before; and no other pair is affected. *)
Theorem blockUser_refines userId blockedId now w w' :
  SocialInv (w_db w) → blockUser userId blockedId now w = (Ok (), w') →
  pair_state (w_db w') userId blockedId = PS_blocked ∧
  (userId, blockedId) ∉ db_friendships (w_db w') ∧ (blockedId, userId) ∉ db_friendships (w_db w') ∧
  (∀ k r, db_friendRequests (w_db w') !! k = Some r →
     pair_between userId blockedId (fr_senderId r) (fr_receiverId r) = true → fr_status r ≠ FR_pending) ∧
  (∀ i s, db_sessions (w_db w') !! i = Some s → session_between userId blockedId s = true → live (ses_state s) = false) ∧
  other_pairs_unchanged userId blockedId (w_db w) (w_db w').
Proof.
  intros Hinv Hrun. unfold blockUser in Hrun. service_inv.
  match goal with H : blockUser_tx _ _ _ _ = Ok (_, ?d) |- _ => rename H into Htx; set (d1 := d) in * end.
  pose proof (blockUser_tx_inv _ _ _ _ _ _ Hinv Htx) as Hinv1.
  apply blockUser_tx_ok in Htx as (_ & EB & EF & ER).
  match goal with H : endSessionsBetween ?a ?b ?c ?n ?w1 = _ |- _ =>
    pose proof (endSessionsBetween_frame a b c n w1) as Hframe;
    pose proof (endSessionsBetween_ends a b c n w1) as Hends; rewrite H in Hframe, Hends; clear H end.
  simpl in *. injection Hframe as _ E1 E2 E3.
  match goal with |- pair_state (w_db ?v) _ _ = _ ∧ _ => rename v into w2 end.
  assert (∀ a b, pair_state (w_db w2) a b = pair_state d1 a b) as Hps.
  { intros a b. unfold pair_state, find_request, blocked_between. by rewrite E1, E2, E3. }
  rewrite Hps, E1, E2.
  assert (blocked_between userId blockedId d1 = true) as Hb.
  { unfold blocked_between. rewrite EB, lookup_insert_eq. done. }
  split_and!.
  - unfold pair_state. by rewrite Hb.
  - by apply (block_no_friend _ Hinv1).
  - apply (block_no_friend _ Hinv1). by rewrite blocked_between_sym.
  - intros k r Hk Hpair Hp. pose proof (block_no_pending _ Hinv1 k r Hk Hp) as Hnb.
    apply pair_between_true in Hpair as [[E1' E2']|[E1' E2']]; rewrite E1', E2' in Hnb;
      [|rewrite blocked_between_sym in Hnb]; congruence.
  - exact Hends.
  - intros a b Hxy. rewrite Hps. apply pair_state_ext; try done.
    + unfold blocked_between. rewrite EB.
      apply not_true_iff_false in Hxy. rewrite pair_between_true in Hxy.
      rewrite !lookup_insert_ne by (intros [= <- <-]; naive_solver). done.
    + rewrite EF, elem_of_filter. simpl. naive_solver.
    + intros k r Hp Hxy'. rewrite ER, lookup_update_many_Some.
      assert (pair_between userId blockedId (fr_senderId r) (fr_receiverId r) = false) as Hnot.
      { apply not_true_iff_false. rewrite pair_between_true. apply not_true_iff_false in Hxy.
        rewrite pair_between_true in Hxy. apply pair_between_true in Hxy'. naive_solver. }
      split.
      * intros (r0 & Hk & ->). destruct (_ && _) eqn:Ec; [done|]. done.
      * intros Hk. exists r. rewrite Hnot, andb_false_r. done.
Qed.
End blocking.

(** Whatever transactions of the service commit, in whatever order, from
    the empty database on: friendship is symmetric and irreflexive, and a block
    in either direction excludes both a friendship and a pending request. *)
Theorem social_tables_wellformed d a b :
  social_reachable d →
  ((a, b) ∈ db_friendships d ↔ (b, a) ∈ db_friendships d) ∧ (a, a) ∉ db_friendships d ∧
  (blocked_between a b d = true → (a, b) ∉ db_friendships d ∧
     ∀ k r, db_friendRequests d !! k = Some r → fr_status r = FR_pending →
       pair_between a b (fr_senderId r) (fr_receiverId r) = false).
Proof.
  intros Hinv%social_reachable_inv. split_and!.
  - split; apply (friends_sym _ Hinv).
  - apply (friends_irrefl _ Hinv).
  - intros Hb. split; [by apply (block_no_friend _ Hinv)|]. intros k r Hk Hp.
    apply not_true_iff_false. intros [[E1 E2]|[E1 E2]]%pair_between_true;
      pose proof (block_no_pending _ Hinv k r Hk Hp) as Hn; rewrite E1, E2 in Hn;
      [|rewrite blocked_between_sym in Hn]; congruence.
Qed.

Section refinement.
Context `{!ScanOrder} `{!VisitGateway}.

(** [m] only changes the database by committing transactions of the service. *)
Definition runs_steps {A} (m : Act World A) : Prop :=
  ∀ w, rtc social_step (w_db w) (w_db (m w).2).

Lemma runs_steps_pure {A} (m : Act World A) : db_preserving m → runs_steps m.
Proof. intros Hm w. by rewrite Hm. Qed.

Lemma runs_steps_bind {A B} (m : Act World A) (f : A → Act World B) :
  runs_steps m → (∀ a, runs_steps (f a)) → runs_steps (m ≫= f).
Proof.
  intros Hm Hf w. unfold mbind, act_bind. specialize (Hm w).
  destruct (m w) as [[a|e] w1]; simpl in *; [|done]. etrans; [exact Hm|apply Hf].
Qed.

Lemma runs_steps_tx {A} (body : Tx DB A) :
  (∀ d a d', body d = Ok (a, d') → social_step d d') → runs_steps (transaction body).
Proof.
  intros Hb w. unfold transaction. destruct (body (w_db w)) as [[a d]|e] eqn:E; simpl; [|done].
  apply rtc_once. by eapply Hb.
Qed.

Lemma runs_steps_catch {A} (m : Act World A) h :
  runs_steps m → (∀ e, runs_steps (h e)) → runs_steps (act_catch m h).
Proof.
  intros Hm Hh w. unfold act_catch. specialize (Hm w).
  destruct (m w) as [[a|e] w1]; simpl in *; [done|]. etrans; [exact Hm|apply Hh].
Qed.

Lemma runs_steps_end a b reason now : runs_steps (endSessionsBetween a b reason now).
Proof.
  intros w. apply rtc_once. pose proof (endSessionsBetween_frame a b reason now w) as E.
  unfold social_tables in E. injection E as _ E1 E2 E3. by apply step_elsewhere.
Qed.

Hint Resolve runs_steps_bind runs_steps_tx runs_steps_catch runs_steps_end : ocn.
Hint Extern 5 (runs_steps _) => apply runs_steps_pure; intros ?; done : ocn.
Hint Extern 4 (runs_steps (match ?x with _ => _ end)) => destruct x : ocn.
Hint Extern 4 (runs_steps (act_require ?b _)) => apply runs_steps_pure; intros ?; by destruct b : ocn.
Hint Extern 4 (runs_steps (act_require_some ?o _)) => apply runs_steps_pure; intros ?; by destruct o : ocn.
Hint Constructors social_step : ocn.

Lemma send_runs_steps s r newId now : runs_steps (sendFriendRequest s r newId now).
Proof. unfold sendFriendRequest, publishFriendRequestAccepted. eauto 20 with ocn. Qed.
Hint Resolve send_runs_steps : ocn.

(** Every method of the service acts on the social tables only through
    the transactions of [social_step], whether it returns or throws: so the
    invariant above holds at every moment, under any interleaving of calls. *)
Theorem friend_methods_are_steps :
  (∀ s r newId now, runs_steps (sendFriendRequest s r newId now)) ∧
  (∀ u k now, runs_steps (acceptFriendRequest u k now)) ∧
  (∀ u k now, runs_steps (rejectFriendRequest u k now)) ∧
  (∀ u k now, runs_steps (cancelFriendRequest u k now)) ∧
  (∀ u f now, runs_steps (removeFriend u f now)) ∧
  (∀ u f now, runs_steps (blockUser u f now)) ∧
  (∀ u f, runs_steps (unblockUser u f)).
Proof.
  split_and!; intros; unfold acceptFriendRequest, rejectFriendRequest,
    cancelFriendRequest, removeFriend, blockUser, unblockUser, publishFriendRequestAccepted; eauto 20 with ocn.
  all: repeat (apply runs_steps_bind; intros); eauto 6 with ocn.
  all: apply runs_steps_tx; intros; eapply step_finalize; eauto; done.
Qed.
End refinement.

(** The look-ups show a caller exactly the abstract relation, and answer a
    blocked pair - in either direction - like an account that does not exist. *)
Theorem lookupByUid_relation uid requester id u w :
  find_unique (λ _ u, u_uid u == to_upper (trim uid)) (db_users (w_db w)) = Some (id, u) →
  is_uid (to_upper (trim uid)) = true → requester ≠ "" → requester ≠ id →
  lookupByUid uid (Some requester) w =
  if negb (user_open u) || (pair_state (w_db w) requester id == PS_blocked)
  then (Err (NotFoundException "SOCIAL_UID_NOT_FOUND"), w)
  else (Ok (safe_user id u, shown_relation (pair_state (w_db w) requester id)), w).
Proof.
  intros Hf Huid H1 H2. unfold lookupByUid.
  rewrite act_require_run, query_run, (act_require_some_run _ _ _ _ (id, u)) by done. cbn [fst snd].
  destruct (user_open u); cbn [negb orb]; [|done].
  rewrite act_require_run by done. by rewrite withRelationship_run.
Qed.

(** ** Witnesses *)

(** A visit service for the witnesses: it ends the sessions in one update. *)
Definition demo_gateway : VisitGateway.
Proof.
  refine {| InvitationView := unit; SessionView := unit; listInvitations _ _ _ _ := []; listSessions _ _ := [];
    endSessionsBetween a b reason now := statement (λ d, d <| db_sessions :=
      update_many (λ _ s, session_between a b s) (λ s, s <| ses_state := S_ended |>) (db_sessions d) |>) |}; try done.
  intros a b reason now w i s Hs Hb. simpl in Hs.
  apply lookup_update_many_Some in Hs as (s0 & Hs0 & ->).
  destruct (session_between a b s0) eqn:E; [done|congruence].
Defined.

Definition demo_db : DB := empty_db <| db_users := demo_users |>.
Definition demo_world (d : DB) : World := mkWorld d [].
(** The worlds after Alice asked Bob, and after Bob asked back. *)
Definition after_ask : World := (sendFriendRequest "alice" "bob" "r1" 10 (demo_world demo_db)).2.
Definition after_friends : World := (sendFriendRequest "bob" "alice" "r2" 20 after_ask).2.

Lemma demo_step_users : social_step empty_db demo_db.
Proof. by apply step_elsewhere. Qed.

Lemma demo_db_reachable : social_reachable demo_db.
Proof. by apply rtc_once, step_elsewhere. Qed.

Lemma after_ask_reachable : social_reachable (w_db after_ask).
Proof. unfold social_reachable. etrans; [apply demo_db_reachable|]. apply (send_runs_steps _ _ _ _ (demo_world demo_db)). Qed.

Lemma after_friends_reachable : social_reachable (w_db after_friends).
Proof. unfold social_reachable. etrans; [apply after_ask_reachable|]. apply (send_runs_steps _ _ _ _ after_ask). Qed.

Lemma sendFriendRequest_refines_witness :
  pair_state (w_db after_ask) "bob" "alice" = PS_requested_back ∧
  (∃ k request w', sendFriendRequest "bob" "alice" "r2" 20 after_ask = (Ok (SentAccepted k request), w') ∧
    pair_state (w_db w') "bob" "alice" = PS_friends ∧ other_pairs_unchanged "bob" "alice" (w_db after_ask) (w_db w')) ∧
  sendFriendRequest "bob" "bob" "r2" 20 after_ask = (Err (ForbiddenException "CANNOT_FRIEND_SELF"), after_ask).
Proof.
  assert (pair_state (w_db after_ask) "bob" "alice" = PS_requested_back) as Hps by by vm_compute.
  assert (open_user (w_db after_ask) "bob") as Hb by (exists (demo_user "bob"); split; vm_compute; reflexivity).
  assert (open_user (w_db after_ask) "alice") as Ha by (exists (demo_user "alice"); split; vm_compute; reflexivity).
  assert (SocialInv (w_db after_ask)) as Hinv by apply social_reachable_inv, after_ask_reachable.
  assert (db_friendRequests (w_db after_ask) !! "r2" = None) as Hnew by by vm_compute.
  split; [exact Hps|]. split.
  - pose proof (proj2 (proj2 (sendFriendRequest_refines "bob" "alice" "r2" 20 after_ask Hinv Hnew)) ltac:(done) Hb Ha) as Hrun.
    rewrite Hps in Hrun. exact Hrun.
  - exact (proj1 (sendFriendRequest_refines "bob" "bob" "r2" 20 after_ask Hinv Hnew) eq_refl).
Defined.

Lemma closing_request_refines_witness :
  ∃ w', rejectFriendRequest "bob" "r1" 20 after_ask = (Ok (), w') ∧
    pair_state (w_db w') "alice" "bob" = PS_none ∧ other_pairs_unchanged "alice" "bob" (w_db after_ask) (w_db w').
Proof.
  destruct (closing_request_refines "r1" (mkFriendRequest "alice" "bob" FR_pending 10 10) 20 after_ask) as (_ & H & _).
  - apply social_reachable_inv, after_ask_reachable.
  - by vm_compute.
  - exists (demo_user "alice"). by vm_compute.
  - exists (demo_user "bob"). by vm_compute.
  - exact H.
Defined.

Lemma blockUser_refines_witness :
  ∃ w', @blockUser demo_gateway "alice" "bob" 30 after_friends = (Ok (), w') ∧
    pair_state (w_db w') "alice" "bob" = PS_blocked.
Proof.
  eexists. split; [by vm_compute|].
  eapply (@blockUser_refines demo_gateway "alice" "bob" 30 after_friends).
  - apply social_reachable_inv, after_friends_reachable.
  - by vm_compute.
Defined.

Lemma social_tables_wellformed_witness :
  ("alice", "bob") ∈ db_friendships (w_db after_friends) ∧ ("bob", "alice") ∈ db_friendships (w_db after_friends).
Proof.
  split; [by apply (bool_decide_unpack _); vm_compute|].
  apply (social_tables_wellformed (w_db after_friends) "alice" "bob" after_friends_reachable).
  by apply (bool_decide_unpack _); vm_compute.
Defined.

Lemma lookupByUid_relation_witness :
  is_uid (to_upper (trim (lit " oc-ALICE234 "))) = true ∧
  ∃ d, (lookupByUid (lit " oc-ALICE234 ") (Some "bob") (demo_world d)).1 =
    Ok (safe_user "alice" ((demo_user "alice") <| u_uid := lit "OC-ALICE234" |>), rel_none).
Proof.
  split; [by vm_compute|].
  exists (demo_db <| db_users := <["alice" := (demo_user "alice") <| u_uid := lit "OC-ALICE234" |>]> demo_users |>).
  rewrite (lookupByUid_relation _ _ "alice" ((demo_user "alice") <| u_uid := lit "OC-ALICE234" |>));
    [by vm_compute|by vm_compute|by vm_compute|done|done].
Defined.
