(* ===== verification/AssetManifest.v ===== *)
(** * Companion asset manifests ([companion/asset-manifest.ts])

    Parsing and checking of an uploaded manifest, its canonical form and hash,
    and the test whether a pack can back a visual visit.  Parameters: SHA-256
    and the collation of [localeCompare], which are not this repository's, and
    the Unicode table of [toLowerCase]. *)

From stdpp Require Import sorting.
From S2P Require Import Prelude Tables JsText JsNumber Json.
Local Open Scope Z_scope.

Definition VISUAL_VISIT_REQUIRED_ANIMATIONS : list text :=
  lit <$> ["Idle_Neutral"; "Enter"; "Leave"; "Walk_Left"; "Walk_Right"; "Walk_Up"; "Walk_Down"].

Definition ALLOWED_EXTENSIONS (extension : text) : option (text * list text) :=
  let image m := Some (lit m, lit <$> ["animation"; "portrait"; "icon"]) in
  if bool_decide (extension = lit ".png") then image "image/png"
  else if bool_decide (extension = lit ".jpg") then image "image/jpeg"
  else if bool_decide (extension = lit ".jpeg") then image "image/jpeg"
  else if bool_decide (extension = lit ".webp") then image "image/webp"
  else if bool_decide (extension = lit ".gif") then image "image/gif"
  else if bool_decide (extension = lit ".json") then Some (lit "application/json", [lit "metadata"])
  else if bool_decide (extension = lit ".mp3") then Some (lit "audio/mpeg", [lit "voice"])
  else if bool_decide (extension = lit ".wav") then Some (lit "audio/wav", [lit "voice"])
  else if bool_decide (extension = lit ".ogg") then Some (lit "audio/ogg", [lit "voice"])
  else None.

(** [supportsVisualVisit] *)
Definition supportsVisualVisit (manifest : json) : bool :=
  match as_array (as_record (get "runtime" manifest) ≫= prop (lit "animations")) with
  | None => false
  | Some animations =>
      let names := omap (λ animation, as_string (get "name" animation)) animations in
      forallb (λ name, bool_decide (name ∈ names)) VISUAL_VISIT_REQUIRED_ANIMATIONS
  end.

(** ** Canonical JSON *)

Fixpoint decimal_digits (fuel : nat) (n : Z) (acc : text) : text :=
  match fuel with
  | O => acc
  | S fuel => if n <? 10 then (48 + n) :: acc else decimal_digits fuel (n / 10) ((48 + n mod 10) :: acc)
  end.
(** [String(n)] of an integer below 10^21 *)
Definition decimal (n : Z) : text :=
  if n <? 0 then 45 :: decimal_digits (S (Z.to_nat (Z.log2 (- n)))) (- n) []
  else decimal_digits (S (Z.to_nat (Z.log2 n))) n [].

Definition hex_digit (n : Z) : Z := if n <? 10 then 48 + n else 87 + n.
Definition u_escape (c : Z) : text :=
  [92; 117; hex_digit (c / 4096 mod 16); hex_digit (c / 256 mod 16); hex_digit (c / 16 mod 16); hex_digit (c mod 16)].

(** [JSON.stringify] of a string; a surrogate without its partner is escaped. *)
Fixpoint json_chars (l : text) : text :=
  match l with
  | [] => []
  | c :: l' =>
      if c =? 34 then [92; 34] ++ json_chars l'
      else if c =? 92 then [92; 92] ++ json_chars l'
      else if c =? 8 then [92; 98] ++ json_chars l'
      else if c =? 9 then [92; 116] ++ json_chars l'
      else if c =? 10 then [92; 110] ++ json_chars l'
      else if c =? 12 then [92; 102] ++ json_chars l'
      else if c =? 13 then [92; 114] ++ json_chars l'
      else if c <? 32 then u_escape c ++ json_chars l'
      else if (55296 <=? c) && (c <=? 56319) then
        match l' with
        | d :: l'' => if (56320 <=? d) && (d <=? 57343) then c :: d :: json_chars l''
                      else u_escape c ++ json_chars l'
        | [] => u_escape c
        end
      else if (56320 <=? c) && (c <=? 57343) then u_escape c ++ json_chars l'
      else c :: json_chars l'
  end.
Definition json_string (s : text) : text := [34] ++ json_chars s ++ [34].

(** [l.join(separator)] *)
Fixpoint join (separator : text) (l : list text) : text :=
  match l with
  | [] => []
  | [x] => x
  | x :: l' => x ++ separator ++ join separator l'
  end.

Definition key_leb (a b : text * text) : bool := text_leb a.1 b.1.

Fixpoint canonicalJsonStringify (value : json) : text :=
  match value with
  | JNull => lit "null"
  | JBool b => if b then lit "true" else lit "false"
  | JInt n => decimal n
  | JFrac repr => repr
  | JStr s => json_string s
  | JArr l =>
      lit "[" ++ join (lit ",") (map canonicalJsonStringify l) ++ lit "]"
  | JObj l =>
      let entries := map (λ kv, (kv.1, canonicalJsonStringify kv.2)) l in
      lit "{" ++ join (lit ",") (map (λ kv, json_string kv.1 ++ lit ":" ++ kv.2) (sort_by key_leb entries)) ++ lit "}"
  end.

(** [String(value)] *)
Fixpoint ToString (value : json) : text :=
  match value with
  | JNull => lit "null"
  | JBool b => if b then lit "true" else lit "false"
  | JInt n => decimal n
  | JFrac repr => repr
  | JStr s => s
  | JArr l => join (lit ",") (map (λ x, match x with JNull => [] | _ => ToString x end) l)
  | JObj _ => lit "[object Object]"
  end.

(** [value === 'literal'] *)
Definition is_string (s : string) (value : json) : bool :=
  match value with JStr t => bool_decide (t = lit s) | _ => false end.

(** ** Validation *)

Definition invalid {A} : result A := Err (BadRequestException "ASSET_PACK_MANIFEST_INVALID").

Fixpoint contains (p : text) (l : text) : bool :=
  starts_with p l || match l with [] => false | _ :: l' => contains p l' end.
(** [%2e], [%2f], [%5c], in either case *)
Definition percent_escape (l : text) : bool :=
  existsb (λ p, contains (lit p) l) ["%2e"; "%2E"; "%2f"; "%2F"; "%5c"; "%5C"].

Definition normalizeRelativePath (value : text) : option text :=
  if negb (truthy value) || bool_decide (0 ∈ value) || bool_decide (92 ∈ value)
     || starts_with (lit "/") value || bool_decide (63 ∈ value) || bool_decide (35 ∈ value) || percent_escape value
  then None else
  let segments := split_on 47 [] value in
  if existsb (λ segment, negb (truthy segment) || starts_with (lit ".") segment) segments then None else
  let normalized := join (lit "/") segments in
  if starts_with (lit "assets/") normalized then Some normalized else None.

Definition is_sha256_hex (s : text) : bool :=
  bool_decide (length s = 64%nat) && forallb (λ c, ((97 <=? c) && (c <=? 102)) || ((48 <=? c) && (c <=? 57))) s.

Record ManifestLimits := mkManifestLimits { maxFileBytes : Z; maxPackBytes : Z; maxPackFiles : Z }.

(** [value ?? 0], then [Number.isSafeInteger]: a missing or null number counts
    as zero, anything that is not a safe integer is refused. *)
Definition integer_or_zero (o : option json) : option Z :=
  match o with
  | None | Some JNull => Some 0
  | Some (JInt n) => if Z.abs n <=? MAX_SAFE_INTEGER then Some n else None
  | _ => None
  end.

Section validation.
Variable toLowerCase : text → text.
Variable sha256_hex : text → text.
Variable localeCompare_le : text → text → bool.
Variable limits : ManifestLimits.

Definition extensionOf (value : text) : text := toLowerCase (slice_last_index 46 value).

Record FileEntry := mkFileEntry { fe_path : text; fe_mimeType : text; fe_sizeBytes : Z }.

(** One round of the loop over [manifest.files]. *)
Definition check_file (file : json) (seen : list text) : option FileEntry :=
  path ← as_string (get "relativePath" file);
  mimeType ← as_string (get "mimeType" file);
  category ← as_string (get "category" file);
  sha256 ← as_string (get "sha256" file);
  sizeBytes ← get "sizeBytes" file;
  relativePath ← normalizeRelativePath path;
  guard (relativePath = path);;
  guard (toLowerCase relativePath ∉ seen);;
  allowed ← ALLOWED_EXTENSIONS (extensionOf relativePath);
  guard (category ∈ allowed.2 ∧ allowed.1 = mimeType);;
  match sizeBytes with
  | JInt n => guard (0 < n ∧ n ≤ maxFileBytes limits ∧ n ≤ MAX_SAFE_INTEGER);;
              guard (is_sha256_hex sha256 = true);;
              Some (mkFileEntry relativePath mimeType n)
  | _ => None
  end.

Fixpoint check_files (files : list json) (seen : list text) (totalBytes : Z) : option (list FileEntry * Z) :=
  match files with
  | [] => Some ([], totalBytes)
  | file :: files' =>
      e ← check_file file seen;
      rest ← check_files files' (toLowerCase (fe_path e) :: seen) (round_double (totalBytes + fe_sizeBytes e));
      Some (e :: rest.1, rest.2)
  end.

Definition find_file (entries : list FileEntry) (path : text) : option FileEntry :=
  head (filter (λ e, fe_path e = path) entries).

(** [typeof filePath === 'string' && paths.has(filePath)] *)
Definition names_file (entries : list FileEntry) (f : json) : bool :=
  match f with JStr p => bool_decide (p ∈ fe_path <$> entries) | _ => false end.

(** One round of the loop over [manifest.runtime.animations]. *)
Definition check_animation (entries : list FileEntry) (animation : json) (names : list text) : option text :=
  name ← as_string (get "name" animation);
  format ← get "format" animation;
  guard (ToString format ∈ lit <$> ["sprite_sheet"; "frame_sequence"; "gif"; "static"]);;
  files ← as_array (get "files" animation);
  match get "loop" animation with
  | Some (JBool _) =>
      guard (name ∉ names ∧ name ≠ []);;
      guard (length files ≠ 0%nat);;
      guard (forallb (names_file entries) files = true);;
      if is_string "sprite_sheet" format then
        frameWidth ← integer_or_zero (get "frameWidth" animation);
        frameHeight ← integer_or_zero (get "frameHeight" animation);
        frameCount ← integer_or_zero (get "frameCount" animation);
        frameDurationMs ← integer_or_zero (get "frameDurationMs" animation);
        guard (300 ≤ frameWidth ≤ 4096 ∧ 300 ≤ frameHeight ≤ 4096 ∧ 1 ≤ frameCount ≤ 120 ∧ 16 ≤ frameDurationMs ≤ 10000);;
        first ← head files ≫= λ f, as_string (Some f);
        file ← find_file entries first;
        guard (fe_mimeType file = lit "image/png");;
        Some name
      else Some name
  | _ => None
  end.

Fixpoint check_animations (entries : list FileEntry) (animations : list json) (names : list text) : option (list text) :=
  match animations with
  | [] => Some names
  | animation :: rest =>
      name ← check_animation entries animation names;
      check_animations entries rest (names ++ [name])
  end.

(** A runtime image reference: absent, or one of the paths. *)
Definition check_reference (entries : list FileEntry) (o : option json) : option (option text) :=
  match o with
  | None => Some None
  | Some (JStr path) =>
      guard (path ∈ fe_path <$> entries ∧ normalizeRelativePath path = Some path);; Some (Some path)
  | Some _ => None
  end.

Definition set_prop (key : string) (v : json) (l : list (text * json)) : list (text * json) :=
  if bool_decide (lit key ∈ l.*1) then (λ kv, if bool_decide (kv.1 = lit key) then (kv.1, v) else kv) <$> l
  else l ++ [(lit key, v)].

Definition text_of (j : json) : text := match j with JStr s => s | _ => [] end.
Definition field_leb (key : string) (a b : json) : bool :=
  localeCompare_le (default [] (as_string (get key a))) (default [] (as_string (get key b))).

(** [canonicalManifest] *)
Definition canonicalManifest (portraitPath iconPath : option text) (animations files : list json) : json :=
  let sorted_files (animation : json) : json :=
    match animation with
    | JObj l => JObj (set_prop "files" (JArr (JStr <$> sort_by text_leb
                        (text_of <$> default [] (as_array (prop (lit "files") l))))) l)
    | _ => animation
    end in
  let image key (o : option text) := match o with
                                     | Some p => if truthy p then [(lit key, JStr p)] else []
                                     | None => []
                                     end in
  JObj [(lit "format", JStr (lit "our-companion-asset-pack")); (lit "schemaVersion", JInt 1);
        (lit "runtime", JObj ([(lit "defaultAnimation", JStr (lit "Idle_Neutral"))]
           ++ image "portraitPath" portraitPath ++ image "iconPath" iconPath
           ++ [(lit "animations", JArr (sort_by (field_leb "name") (sorted_files <$> animations)))]));
        (lit "files", JArr (sort_by (field_leb "relativePath") files))].

Record ValidManifest := mkValidManifest {
  vm_manifest : json; vm_canonicalJson : text; vm_totalBytes : Z;
  vm_entries : list FileEntry; vm_names : list text;
}.

Definition validateManifest_opt (input : json) (expectedHash : text) : option ValidManifest :=
  format ← get "format" input;
  guard (is_string "our-companion-asset-pack" format = true);;
  schemaVersion ← get "schemaVersion" input;
  guard (match schemaVersion with JInt n => n =? 1 | _ => false end = true);;
  runtime ← as_record (get "runtime" input);
  files ← as_array (get "files" input);
  defaultAnimation ← prop (lit "defaultAnimation") runtime;
  guard (is_string "Idle_Neutral" defaultAnimation = true);;
  animations ← as_array (prop (lit "animations") runtime);
  guard (length files ≠ 0%nat ∧ Z.of_nat (length files) ≤ maxPackFiles limits);;
  checked ← check_files files [] 0;
  let entries := checked.1 in
  let totalBytes := checked.2 in
  guard (totalBytes ≤ MAX_SAFE_INTEGER ∧ totalBytes ≤ maxPackBytes limits);;
  names ← check_animations entries animations [];
  guard (Forall (λ required, required ∈ names) (lit <$> ["Idle_Neutral"; "Enter"; "Leave"]));;
  portraitPath ← check_reference entries (prop (lit "portraitPath") runtime);
  iconPath ← check_reference entries (prop (lit "iconPath") runtime);
  let normalized := canonicalManifest portraitPath iconPath animations files in
  let canonicalJson := canonicalJsonStringify normalized in
  guard (is_sha256_hex expectedHash = true ∧ sha256_hex canonicalJson = expectedHash);;
  Some (mkValidManifest normalized canonicalJson totalBytes entries names).

(** [validateManifest]; every refusal is the same exception. *)
Definition validateManifest (input : json) (expectedHash : text) : result ValidManifest :=
  match validateManifest_opt input expectedHash with Some v => Ok v | None => invalid end.
End validation.

(** ** Lemmas *)

Lemma round_double_below n : 0 ≤ n → round_double n ≤ MAX_SAFE_INTEGER → round_double n = n.
Proof.
  intros Hn. unfold round_double, MAX_SAFE_INTEGER.
  destruct (Z.leb_spec (Z.abs n) (2 ^ 53)); [done|]. rewrite Z.abs_eq in * by done.
  set (u := 2 ^ (Z.log2 n - 52)). intros Hr. exfalso.
  assert (53 ≤ Z.log2 n) as Hlog by (apply Z.log2_le_pow2; lia).
  assert (0 < u) as Hu by (apply Z.pow_pos_nonneg; lia).
  assert (u * 2 ^ 52 ≤ n) as Hlow.
  { unfold u. rewrite <- Z.pow_add_r by lia. replace (Z.log2 n - 52 + 52) with (Z.log2 n) by lia.
    apply Z.log2_spec. lia. }
  assert (2 ≤ u) as Hu2.
  { change 2 with (2 ^ 1) at 1. apply Z.pow_le_mono_r; lia. }
  assert (2 ^ 52 ≤ n / u) as Hq by (apply Z.div_le_lower_bound; lia).
  destruct (_ || _); nia.
Qed.

Section facts.
Variable toLowerCase : text → text.
Variable limits : ManifestLimits.

(** The exact sum of the sizes. *)
Definition total_size (entries : list FileEntry) : Z := foldr (λ e acc, fe_sizeBytes e + acc) 0 entries.

(** What is known of an accepted file entry. *)
Definition entry_ok (e : FileEntry) : Prop :=
  normalizeRelativePath (fe_path e) = Some (fe_path e) ∧ 0 < fe_sizeBytes e ≤ maxFileBytes limits.

Lemma check_file_ok file seen e :
  check_file toLowerCase limits file seen = Some e → entry_ok e ∧ toLowerCase (fe_path e) ∉ seen.
Proof.
  unfold check_file. intros H. simplify_option_eq; repeat case_match; simplify_option_eq.
  unfold entry_ok. simpl. split; [|done]. split; [done|lia].
Qed.

Lemma check_files_ok files seen total entries total' :
  check_files toLowerCase limits files seen total = Some (entries, total') → 0 ≤ total →
  total' ≤ MAX_SAFE_INTEGER →
  length entries = length files ∧ Forall entry_ok entries ∧ NoDup (toLowerCase ∘ fe_path <$> entries) ∧
  (∀ e, e ∈ entries → toLowerCase (fe_path e) ∉ seen) ∧
  total' = total + total_size entries ∧ total ≤ total'.
Proof.
  revert seen total entries. induction files as [|file files IH]; intros seen total entries; simpl.
  - intros [= <- <-]. intros. split_and!; [done|constructor|constructor|set_solver|simpl; lia|lia].
  - intros H Ht Hs. simplify_option_eq.
    match goal with E : check_file _ _ _ _ = Some ?x |- _ => rename x into e0; apply check_file_ok in E as [He Hn] end.
    match goal with E : check_files _ _ _ _ _ = Some ?r |- _ => destruct r as [es t]; simpl in * end.
    destruct He as [Hp Hsz].
    assert (0 ≤ round_double (total + fe_sizeBytes e0)) as Hpos.
    { unfold round_double. destruct (_ <=? _); [lia|].
      pose proof (Z.div_pos (total + fe_sizeBytes e0) (2 ^ (Z.log2 (Z.abs (total + fe_sizeBytes e0)) - 52))).
      assert (0 < 2 ^ (Z.log2 (Z.abs (total + fe_sizeBytes e0)) - 52) ∨ 2 ^ (Z.log2 (Z.abs (total + fe_sizeBytes e0)) - 52) = 0) as [?|Hz]
        by (pose proof (Z.pow_nonneg 2 (Z.log2 (Z.abs (total + fe_sizeBytes e0)) - 52)); lia);
        [destruct (_ || _); nia|rewrite Hz, !Z.mul_0_r; by destruct (_ || _)]. }
    edestruct IH as (Hlen & Hall & Hnd & Hseen & Htot & Hle); [eassumption|done|done|].
    assert (round_double (total + fe_sizeBytes e0) = total + fe_sizeBytes e0) as Hr
      by (apply round_double_below; lia).
    rewrite Hr in *.
    split_and!; [lia| | | | |lia].
    + by constructor.
    + constructor; [|done]. intros (e & Heq & He)%list_elem_of_fmap. apply Hseen in He. simpl in Heq. set_solver.
    + intros e [->|He]%elem_of_cons; [done|]. apply Hseen in He. set_solver.
    + rewrite Htot. simpl. lia.
Qed.

End facts.

Lemma check_animations_ok entries animations names names' :
  check_animations entries animations names = Some names' → NoDup names →
  NoDup names' ∧ length names' = (length names + length animations)%nat.
Proof.
  revert names. induction animations as [|a l IH]; intros names; simpl.
  - intros [= <-] ?. split; [done|lia].
  - intros H Hnd. simplify_option_eq.
    match goal with E : check_animation _ _ _ = Some ?n |- _ =>
      assert (n ∉ names) as Hn by (unfold check_animation in E; simplify_option_eq; repeat case_match; simplify_option_eq; naive_solver) end.
    edestruct IH as [? Hlen]; [eassumption| |].
    + apply NoDup_app. split_and!; [done|set_solver|apply NoDup_singleton].
    + split; [done|]. rewrite Hlen, length_app. simpl. lia.
Qed.

Lemma split_on_nonempty c cur l : split_on c cur l ≠ [].
Proof. revert cur. induction l as [|d l IH]; intros cur; simpl; [done|]. by destruct (_ =? _). Qed.

Lemma join_split c cur l : join [c] (split_on c cur l) = reverse cur ++ l.
Proof.
  revert cur. induction l as [|d l IH]; intros cur; simpl; [by rewrite app_nil_r|].
  destruct (Z.eqb_spec d c) as [->|].
  - destruct (split_on c [] l) as [|x xs] eqn:E.
    + by apply split_on_nonempty in E.
    + change (join [c] (reverse cur :: x :: xs)) with (reverse cur ++ [c] ++ join [c] (x :: xs)).
      by rewrite <- E, IH.
  - rewrite IH, reverse_cons, <- app_assoc. done.
Qed.

(** The segments of a path. *)
Definition segments (path : text) : list text := split_on 47 [] path.

(** A path that names a file below [assets/] and cannot leave it. *)
Definition safe_path (path : text) : Prop :=
  take 7 path = lit "assets/" ∧ 0 ∉ path ∧ 92 ∉ path ∧
  ∀ segment, segment ∈ segments path → segment ≠ [] ∧ segment ≠ lit "." ∧ segment ≠ lit "..".

Lemma normalizeRelativePath_ok value path :
  normalizeRelativePath value = Some path → path = value ∧ safe_path path.
Proof.
  unfold normalizeRelativePath. intros H.
  destruct (_ || _) eqn:E1 in H; [done|]. destruct (existsb _ _) eqn:E2 in H; [done|].
  destruct (starts_with _ _) eqn:E3 in H; [|done]. injection H as <-.
  change (lit "/") with [47] in *. rewrite join_split in *. simpl in *.
  bool_inv. split; [done|]. unfold safe_path, starts_with in *. bool_inv. split_and!; try done.
  intros segment Hs. apply not_true_iff_false in E2. rewrite existsb_exists in E2.
  assert (negb (truthy segment) || bool_decide (take 1 segment = lit ".") = false) as Hb.
  { apply not_true_iff_false. intros Ht. apply E2. exists segment. split; [by apply list_elem_of_In|done]. }
  bool_inv. split_and!; intros ->; done.
Qed.

(** ** What an accepted manifest says *)

(** The types a file may have: extension, media type and categories. *)
Definition file_types : list (string * string * list string) :=
  [(".png", "image/png", ["animation"; "portrait"; "icon"]); (".jpg", "image/jpeg", ["animation"; "portrait"; "icon"]);
   (".jpeg", "image/jpeg", ["animation"; "portrait"; "icon"]); (".webp", "image/webp", ["animation"; "portrait"; "icon"]);
   (".gif", "image/gif", ["animation"; "portrait"; "icon"]); (".json", "application/json", ["metadata"]);
   (".mp3", "audio/mpeg", ["voice"]); (".wav", "audio/wav", ["voice"]); (".ogg", "audio/ogg", ["voice"])].

(** An entry of [manifest.files] as it was read: its path, its size, and one of
    the types for its extension (in any case), its media type and category. *)
Definition describes (toLowerCase : text → text) (limits : ManifestLimits) (file : json) (e : FileEntry) : Prop :=
  get "relativePath" file = Some (JStr (fe_path e)) ∧ safe_path (fe_path e) ∧
  get "sizeBytes" file = Some (JInt (fe_sizeBytes e)) ∧ 0 < fe_sizeBytes e ≤ maxFileBytes limits ∧
  get "mimeType" file = Some (JStr (fe_mimeType e)) ∧
  ∃ extension mimeType categories category, (extension, mimeType, categories) ∈ file_types ∧ category ∈ categories ∧
    extensionOf toLowerCase (fe_path e) = lit extension ∧ fe_mimeType e = lit mimeType ∧
    get "category" file = Some (JStr (lit category)).

(** An animation has a name and one file or more, all of them in the pack. *)
Definition plays (entries : list FileEntry) (animation : json) (name : text) : Prop :=
  get "name" animation = Some (JStr name) ∧
  ∃ files, get "files" animation = Some (JArr files) ∧ files ≠ [] ∧
    Forall (λ f, ∃ e, e ∈ entries ∧ f = JStr (fe_path e)) files.

Lemma as_string_Some o s : as_string o = Some s → o = Some (JStr s).
Proof. destruct o as [[]|]; simpl; congruence. Qed.
Lemma as_array_Some o l : as_array o = Some l → o = Some (JArr l).
Proof. destruct o as [[]|]; simpl; congruence. Qed.

Lemma ALLOWED_EXTENSIONS_types extension allowed category : ALLOWED_EXTENSIONS extension = Some allowed → category ∈ allowed.2 →
  ∃ x m cs c, (x, m, cs) ∈ file_types ∧ c ∈ cs ∧ extension = lit x ∧ allowed.1 = lit m ∧ category = lit c.
Proof.
  unfold ALLOWED_EXTENSIONS. intros H Hc.
  enough (∃ x m cs c, extension = lit x ∧ allowed.1 = lit m ∧ category = lit c ∧ (x, m, cs) ∈ file_types ∧ c ∈ cs) as (x & m & cs & c & H')
    by (exists x, m, cs, c; naive_solver).
  repeat case_bool_decide; simplify_eq; cbn [fst snd] in *.
  all: first [apply list_elem_of_fmap in Hc as (c & -> & Hc) | apply list_elem_of_singleton in Hc as ->].
  all: eexists _, _, _, _; do 3 (split; [reflexivity|]).
  all: split; [unfold file_types; repeat first [apply list_elem_of_here | apply list_elem_of_further]|].
  all: first [exact Hc | apply list_elem_of_here].
Qed.
Lemma check_file_describes toLowerCase limits file seen e : check_file toLowerCase limits file seen = Some e → describes toLowerCase limits file e.
Proof.
  unfold check_file. intros H. repeat (apply bind_Some in H as (? & ? & H)).
  case_match; simplify_eq. option_inv. subst e.
  repeat match goal with H : as_string _ = Some _ |- _ => apply as_string_Some in H | H : _ ∧ _ |- _ => destruct H end.
  match goal with H : normalizeRelativePath _ = Some _ |- _ => apply normalizeRelativePath_ok in H as [_ ?] end.
  match goal with H : ALLOWED_EXTENSIONS _ = Some ?a, Hc : _ ∈ ?a.2 |- _ =>
    destruct (ALLOWED_EXTENSIONS_types _ _ _ H Hc) as (y & m & cs & c & ? & ? & Hx & Hm & ->) end.
  unfold describes. cbn [fe_path fe_mimeType fe_sizeBytes]. subst. split_and!; try done; try lia.
  exists y, m, cs, c. split_and!; congruence.
Qed.
Lemma check_files_describe toLowerCase limits files seen total entries total' :
  check_files toLowerCase limits files seen total = Some (entries, total') → Forall2 (describes toLowerCase limits) files entries.
Proof.
  revert seen total entries. induction files as [|file files IH]; intros seen total entries; simpl; intros H; simplify_option_eq; [constructor|].
  match goal with E : check_files _ _ _ _ _ = Some ?r |- _ => destruct r end. constructor; [by eapply check_file_describes|by eapply IH].
Qed.

Lemma check_animation_plays entries animation names name : check_animation entries animation names = Some name → plays entries animation name.
Proof.
  unfold check_animation. intros H.
  apply bind_Some in H as (n & Hn%as_string_Some & H). apply bind_Some in H as (format & _ & H). apply bind_Some in H as (_ & _ & H).
  apply bind_Some in H as (files & Hf%as_array_Some & H).
  assert (name = n ∧ length files ≠ 0%nat ∧ forallb (names_file entries) files = true) as (-> & Hne & Hall)
    by (repeat case_match; simplify_option_eq; naive_solver).
  split; [done|]. exists files. split_and!; [done|by intros ->|].
  apply Forall_forall. intros f Hin. rewrite forallb_forall in Hall. specialize (Hall f (proj1 (list_elem_of_In _ _) Hin)).
  destruct f; try done. simpl in Hall. apply bool_decide_eq_true, list_elem_of_fmap in Hall as (e & -> & He). eauto.
Qed.
Lemma check_animations_play entries animations names names' : check_animations entries animations names = Some names' →
  ∃ new, names' = names ++ new ∧ Forall2 (plays entries) animations new.
Proof.
  revert names. induction animations as [|a l IH]; intros names; simpl; intros H.
  - simplify_eq. exists []. by rewrite app_nil_r.
  - apply bind_Some in H as (n & Hn & H). apply IH in H as (new & -> & Hnew). exists (n :: new).
    rewrite <- app_assoc. split; [done|]. constructor; [by eapply check_animation_plays|done].
Qed.

(** ** Properties *)

Section properties.
Variable toLowerCase : text → text.
Variable sha256_hex : text → text.
Variable localeCompare_le : text → text → bool.
Variable limits : ManifestLimits.

Lemma validateManifest_bytes input expectedHash v :
  validateManifest toLowerCase sha256_hex localeCompare_le limits input expectedHash = Ok v → 0 ≤ vm_totalBytes v.
Proof.
  unfold validateManifest. intros H.
  destruct (validateManifest_opt _ _ _ _ _ _) as [v'|] eqn:Ho; [|done]. injection H as <-.
  unfold validateManifest_opt in Ho. option_inv. subst v'. destruct_and!. cbn [vm_totalBytes].
  match goal with E : check_files _ _ _ _ _ = Some ?r |- _ => destruct r as [es t]; cbn [fst snd] in *;
    by eapply check_files_ok in E as (_ & _ & _ & _ & _ & Hle); [|lia|lia] end.
Qed.

(** C40: In a manifest that [validateManifest] accepts, every file is inside the
    managed root, no two paths are equal up to case, and each has the size and
    one of the types of [file_types] that its entry announces; the limits on the
    number of files, on each file and on the exact total hold; every animation has
    a name of its own and files that are all in the pack, and the three required
    animations are there; and the canonical form hashes to the announced value. *)
Theorem validateManifest_sound input expectedHash v :
  validateManifest toLowerCase sha256_hex localeCompare_le limits input expectedHash = Ok v →
  (∃ files runtime animations,
     get "files" input = Some (JArr files) ∧ as_record (get "runtime" input) = Some runtime ∧
     prop (lit "animations") runtime = Some (JArr animations) ∧
     Forall2 (describes toLowerCase limits) files (vm_entries v) ∧ Forall2 (plays (vm_entries v)) animations (vm_names v)) ∧
  NoDup (toLowerCase ∘ fe_path <$> vm_entries v) ∧
  (0 < Z.of_nat (length (vm_entries v)) ≤ maxPackFiles limits) ∧
  vm_totalBytes v = total_size (vm_entries v) ∧ vm_totalBytes v ≤ maxPackBytes limits ∧
  NoDup (vm_names v) ∧ Forall (λ name, lit name ∈ vm_names v) ["Idle_Neutral"; "Enter"; "Leave"] ∧
  vm_canonicalJson v = canonicalJsonStringify (vm_manifest v) ∧ sha256_hex (vm_canonicalJson v) = expectedHash.
Proof.
  unfold validateManifest. intros H.
  destruct (validateManifest_opt _ _ _ _ _ _) as [v'|] eqn:Ho; [|done]. injection H as <-.
  unfold validateManifest_opt in Ho. option_inv. subst v'. destruct_and!.
  cbn [vm_entries vm_totalBytes vm_names vm_canonicalJson vm_manifest].
  repeat match goal with H : as_array _ = Some _ |- _ => apply as_array_Some in H end.
  match goal with E : check_files _ _ _ _ _ = Some ?r |- _ => destruct r as [es t]; cbn [fst snd] in *;
    pose proof (check_files_describe _ _ _ _ _ _ _ E) as Htypes;
    eapply check_files_ok in E as (Hlen & Hall & Hnd & _ & Htot & _); [|lia|lia] end.
  match goal with E : check_animations _ _ _ = Some _ |- _ =>
    pose proof (check_animations_ok _ _ _ _ E ltac:(constructor)) as [Hnames _];
    apply check_animations_play in E as (new & Hnew & Hplay); simpl in Hnew; subst end.
  match goal with E : Forall _ (lit <$> _) |- _ => rewrite Forall_fmap in E end.
  split_and!; try done; try lia. eexists _, _, _. split_and!; [done..|exact Htypes|exact Hplay].
Qed.
End properties.

(** ** The canonical form *)

(** The same document up to the order in which objects list their properties,
    at any depth. *)
Inductive same_document : json → json → Prop :=
  | same_refl j : same_document j j
  | same_arr l l' : Forall2 same_document l l' → same_document (JArr l) (JArr l')
  | same_obj l l1 l' : NoDup l.*1 → l ≡ₚ l1 → Forall2 (λ a b, a.1 = b.1 ∧ same_document a.2 b.2) l1 l' →
      same_document (JObj l) (JObj l').

Lemma insert_by_Forall2 {A} (le : A → A → bool) (R : A → A → Prop) x y l l' :
  (∀ a a' b b', R a a' → R b b' → le a b = le a' b') → R x y → Forall2 R l l' →
  Forall2 R (insert_by le x l) (insert_by le y l').
Proof.
  intros Hle Hxy. induction 1 as [|a b l l' Hab Hl IH]; simpl; [by repeat constructor|].
  rewrite (Hle x y a b) by done. destruct (le y b); by repeat constructor.
Qed.

Lemma key_leb_total a b : key_leb a b = true ∨ key_leb b a = true.
Proof. apply text_leb_total. Qed.
Lemma key_leb_trans a b c : key_leb a b = true → key_leb b c = true → key_leb a c = true.
Proof. apply text_leb_trans. Qed.

(** Sorting by distinct keys forgets the original order. *)
Lemma sort_by_key_perm (l1 l2 : list (text * text)) :
  NoDup l1.*1 → l1 ≡ₚ l2 → sort_by key_leb l1 = sort_by key_leb l2.
Proof.
  intros Hnd Hp.
  assert (sort_by key_leb l1 ≡ₚ sort_by key_leb l2) as Hsp by (by rewrite !sort_by_perm).
  pose proof (sort_by_sorted key_leb key_leb_total key_leb_trans l1) as S1.
  pose proof (sort_by_sorted key_leb key_leb_total key_leb_trans l2) as S2.
  assert (NoDup (sort_by key_leb l1).*1) as Hnd1 by (by rewrite sort_by_perm).
  revert S1 S2 Hsp Hnd1. generalize (sort_by key_leb l1) (sort_by key_leb l2). clear.
  induction l as [|a l IH]; intros l' S1 S2 Hp Hnd.
  - by apply Permutation_nil_l in Hp as ->.
  - destruct l' as [|b l']; [by apply Permutation_nil_r in Hp|].
    apply StronglySorted_inv in S1 as [S1 F1], S2 as [S2 F2].
    rewrite Forall_forall in F1, F2. rewrite fmap_cons, NoDup_cons in Hnd. destruct Hnd as [Ha Hnd].
    assert (a = b) as <-.
    { assert (a ∈ b :: l') as Hin by (rewrite <- Hp; set_solver).
      assert (b ∈ a :: l) as Hin' by (rewrite Hp; set_solver).
      apply elem_of_cons in Hin as [->|Hin]; [done|]. apply elem_of_cons in Hin' as [->|Hin']; [done|].
      exfalso. apply Ha. apply list_elem_of_fmap. exists b. split; [|done].
      apply text_leb_antisym; [by apply F1|by apply F2]. }
    f_equal. apply IH; try done. by apply Permutation_cons_inv in Hp.
Qed.

(** [canonicalJsonStringify] only depends on the document, not on the order
    in which its objects list their properties: the hash of a manifest is a hash
    of its content. *)
Theorem canonicalJsonStringify_order j j' :
  same_document j j' → canonicalJsonStringify j = canonicalJsonStringify j'.
Proof.
  revert j j'. fix IH 3. intros j j' [k|l l' Hl|l l1 l' Hnd Hp Hl]; [done| |].
  - simpl. do 3 f_equal. induction Hl as [|x y l l' Hxy _ IHl]; simpl; [done|]. by rewrite (IH x y Hxy), IHl.
  - assert (map (λ kv : text * json, (kv.1, canonicalJsonStringify kv.2)) l1 =
            map (λ kv, (kv.1, canonicalJsonStringify kv.2)) l') as Heq.
    { clear Hnd Hp. induction Hl as [|x y l1 l' [Hk Hxy] _ IHl]; simpl; [done|].
      by rewrite Hk, (IH _ _ Hxy), IHl. }
    simpl. rewrite <- Heq. do 4 f_equal. apply sort_by_key_perm; [|by rewrite Hp].
    change (NoDup (fst <$> ((λ kv : text * json, (kv.1, canonicalJsonStringify kv.2)) <$> l))).
    rewrite <- list_fmap_compose. done.
Qed.

(** ** Concrete manifests *)

Definition demo_file : json :=
  JObj [(lit "relativePath", JStr (lit "assets/a.png")); (lit "category", JStr (lit "animation"));
        (lit "mimeType", JStr (lit "image/png")); (lit "sizeBytes", JInt 10); (lit "sha256", JStr (replicate 64 97))].
Definition demo_animation (format : json) (name : text) : json :=
  JObj [(lit "name", JStr name); (lit "format", format); (lit "files", JArr [JStr (lit "assets/a.png")]); (lit "loop", JBool true)].
Definition demo_manifest (format : json) (names : list text) : json :=
  JObj [(lit "schemaVersion", JInt 1); (lit "format", JStr (lit "our-companion-asset-pack"));
        (lit "files", JArr [demo_file]);
        (lit "runtime", JObj [(lit "animations", JArr (demo_animation format <$> names)); (lit "defaultAnimation", JStr (lit "Idle_Neutral"))])].
Definition demo_validate (format : json) : result ValidManifest :=
  validateManifest id (λ _, replicate 64 97) text_leb (mkManifestLimits 100 1000 10)
    (demo_manifest format VISUAL_VISIT_REQUIRED_ANIMATIONS) (replicate 64 97).
Definition is_ok {A} (r : result A) : bool := match r with Ok _ => true | Err _ => false end.

Lemma validateManifest_sound_witness :
  ∃ v, demo_validate (JStr (lit "static")) = Ok v ∧ vm_totalBytes v = total_size (vm_entries v) ∧ vm_totalBytes v = 10.
Proof.
  eexists. split; [vm_compute; reflexivity|]. split; [|done].
  eapply (validateManifest_sound id (λ _, replicate 64 97) text_leb (mkManifestLimits 100 1000 10)
    (demo_manifest (JStr (lit "static")) VISUAL_VISIT_REQUIRED_ANIMATIONS) (replicate 64 97)).
  vm_compute. reflexivity.
Defined.

Lemma canonicalJsonStringify_order_witness :
  canonicalJsonStringify (JObj [(lit "b", JInt 2); (lit "a", JStr (lit "x"))]) =
  canonicalJsonStringify (JObj [(lit "a", JStr (lit "x")); (lit "b", JInt 2)]).
Proof.
  apply (canonicalJsonStringify_order (JObj [(lit "b", JInt 2); (lit "a", JStr (lit "x"))])
    (JObj [(lit "a", JStr (lit "x")); (lit "b", JInt 2)])).
  eapply (same_obj _ [(lit "a", JStr (lit "x")); (lit "b", JInt 2)]).
  - vm_compute. repeat constructor; set_solver.
  - apply perm_swap.
  - repeat (constructor; [split; [done|apply same_refl]|]). constructor.
Defined.

(** The sprite-sheet rules (frame sizes and counts, a PNG file) are applied to
    [animation.format === 'sprite_sheet'], while the admission test looks at
    [String(animation.format)]: a manifest whose sprite sheet has no frame
    metadata is refused, but accepted when its format is the one-element array,
    which has the same string. *)
Theorem sprite_sheet_rules_bypassed :
  is_ok (demo_validate (JStr (lit "sprite_sheet"))) = false ∧
  is_ok (demo_validate (JArr [JStr (lit "sprite_sheet")])) = true.
Proof. split; by vm_compute. Qed.

Example demo_manifest_visual :
  supportsVisualVisit (demo_manifest (JStr (lit "static")) VISUAL_VISIT_REQUIRED_ANIMATIONS) = true ∧
  supportsVisualVisit (demo_manifest (JStr (lit "static")) (lit <$> ["Idle_Neutral"; "Enter"; "Leave"])) = false.
Proof. split; by vm_compute. Qed.
