(* ===== verification/Visit.v ===== *)
(** * The visit service ([visit/visit.service.ts])

    Invitations, the sessions they become, and the end of both.  A companion's
    owner reserves themself with every invitation they send ([VisitReservation]);
    accepting turns the reservation of the owner into one of the session and
    adds one for the host.  The interactive transactions are the [_tx]
    definitions; [endSessionsBetween], [endSessionsForCompanion] and the
    cleanup run statement by statement outside a transaction. *)

From S2P Require Import Prelude Tables JsText Json Schema Interfaces Config AssetManifest.
Local Open Scope Z_scope.

Definition SESSION_HEARTBEAT : list SessionState := [S_preparing; S_ready; S_active].
Definition SESSION_TERMINAL : list SessionState := [S_ended; S_cancelled; S_failed].
Definition MAX_CONCURRENT_HOST_VISITORS : nat := 2.

(** [if (id)] on an optional identifier: set and not empty. *)
Definition truthy_id (o : option rowid) : bool := match o with Some i => i != "" | None => false end.

Definition notAvailable : exc := ConflictException "VISIT_INVITATION_NOT_AVAILABLE".
Definition assetNotAvailable : exc := NotFoundException "VISIT_ASSET_NOT_AVAILABLE".

(** The query every [assertEligible] makes: friends both ways, no block, two
    open accounts. *)
Definition eligible (first second : rowid) (d : DB) : bool :=
  bool_decide ((first, second) ∈ db_friendships d) && bool_decide ((second, first) ∈ db_friendships d)
  && negb (blocked_between first second d) && (count_open_users [first; second] d == 2%nat).

Definition assertEligible (first second : rowid) : Tx DB unit :=
  b ← gets (eligible first second); require b notAvailable.

Definition assertNoReservation (userId : rowid) : Tx DB unit :=
  reservation ← gets (λ d, db_reservations d !! userId);
  require (negb (is_set reservation)) (ConflictException "VISIT_RESERVATION_EXISTS").

(** [roleFor] *)
Inductive SessionRole := as_owner | as_host.
#[export] Instance SessionRole_eq_dec : EqDecision SessionRole.
Proof. solve_decision. Defined.
Definition roleFor (s : Session) (userId : rowid) : option SessionRole :=
  if ses_visitorOwnerUserId s == userId then Some as_owner
  else if ses_hostUserId s == userId then Some as_host else None.

Definition takes_part (userId : rowid) (s : Session) : bool :=
  (ses_visitorOwnerUserId s == userId) || (ses_hostUserId s == userId).

(** ** Row updates *)

Definition alter_invitation (k : rowid) (f : Invitation → Invitation) : Tx DB unit :=
  modify (λ d, d <| db_invitations := alter f k (db_invitations d) |>).
Definition alter_session (k : rowid) (f : Session → Session) : Tx DB unit :=
  modify (λ d, d <| db_sessions := alter f k (db_sessions d) |>).
Definition update_participants (p : Participant → bool) (f : Participant → Participant) (d : DB) : DB :=
  d <| db_participants := update_many (λ _ r, p r) f (db_participants d) |>.
Definition delete_reservations (p : rowid → Reservation → bool) (d : DB) : DB :=
  d <| db_reservations := delete_many p (db_reservations d) |>.

Definition reservation_clash (r1 r2 : Reservation) : bool :=
  (is_set (res_invitationId r1) && (res_invitationId r1 == res_invitationId r2))
  || (is_set (res_joinRequestId r1) && (res_joinRequestId r1 == res_joinRequestId r2)).
Definition create_reservation (userId : rowid) (r : Reservation) : Tx DB unit :=
  modify_or (λ d, m ← create_row reservation_clash userId r (db_reservations d); Some (d <| db_reservations := m |>))
    (P2002 "VisitReservation").

Definition participant_clash (r1 r2 : Participant) : bool :=
  (par_sessionId r1 == par_sessionId r2)
  && ((par_userId r1 == par_userId r2) || (par_networkCompanionId r1 == par_networkCompanionId r2)).
Definition create_participant (k : rowid) (r : Participant) : Tx DB unit :=
  modify_or (λ d, m ← create_row participant_clash k r (db_participants d); Some (d <| db_participants := m |>))
    (P2002 "VisitSessionParticipant").

Definition create_session (k : rowid) (r : Session) : Tx DB unit :=
  modify_or (λ d, m ← create_row (λ r1 r2, ses_invitationId r1 == ses_invitationId r2) k r (db_sessions d);
                  Some (d <| db_sessions := m |>)) (P2002 "invitationId").
Definition create_invitation (k : rowid) (r : Invitation) : Tx DB unit :=
  modify_or (λ d, m ← create_row (λ _ _, false) k r (db_invitations d); Some (d <| db_invitations := m |>)) (P2002 "id").
Definition create_room_topic (k : rowid) (r : RoomTopic) : Tx DB unit :=
  modify_or (λ d, m ← create_row (λ r1 r2, (rt_sessionId r1 == rt_sessionId r2) && (rt_sequence r1 == rt_sequence r2)) k r (db_roomTopics d);
                  Some (d <| db_roomTopics := m |>)) (P2002 "sessionId_sequence").
Definition create_share (sessionId : rowid) (r : Share) : Tx DB unit :=
  modify_or (λ d, m ← create_row (λ r1 r2, is_set (sh_roomTopicId r1) && (sh_roomTopicId r1 == sh_roomTopicId r2)) sessionId r (db_shares d);
                  Some (d <| db_shares := m |>)) (P2002 "VisitShareEnvelope").

(** [participant.updateMany({ sessionId, state: { not: 'left' } }, { left })] *)
Definition leave_all (sessionId : rowid) (now : instant) (d : DB) : DB :=
  update_participants (λ r, (par_sessionId r == sessionId) && (par_state r != P_left))
    (λ r, r <| par_state := P_left |> <| par_leftAt := Some now |> <| par_assetPackRefId := None |> <| par_updatedAt := now |>) d.
Definition release_session (sessionId : rowid) : DB → DB :=
  delete_reservations (λ _ r, res_sessionId r == Some sessionId).
Definition release_invitation (invitationId : rowid) : DB → DB :=
  delete_reservations (λ _ r, res_invitationId r == Some invitationId).

Definition releaseSessionReservations (sessionId : rowid) (now : instant) : Tx DB unit :=
  modify (release_session sessionId) ;; modify (leave_all sessionId now).

(** ** Snapshots and topics *)

Record Snapshot := mkSnapshot { sn_companionId : rowid; sn_companion : Companion; sn_packId : rowid; sn_pack : AssetPack }.

(** The companion an owner currently publishes, with its active pack. *)
Definition current_snapshot (owner_ok : User → bool) (ownerId : rowid) (d : DB) : option Snapshot :=
  owner ← db_users d !! ownerId;
  if owner_ok owner then
    companionId ← u_activeNetworkCompanionId owner;
    companion ← db_companions d !! companionId;
    if (co_ownerUserId companion == ownerId) && co_published companion && (co_visibility companion == "friends_only") then
      packId ← co_activeAssetPackId companion;
      pack ← db_assetPacks d !! packId;
      if (pk_companionId pack == companionId) && (pk_status pack == PK_active)
      then Some (mkSnapshot companionId companion packId pack) else None
    else None
  else None.

(** [loadCurrentSnapshotInTransaction]: an active account is enough. *)
Definition loadCurrentSnapshotInTransaction (ownerId : rowid) : DB → option Snapshot :=
  current_snapshot (λ owner, u_accountStatus owner == ACTIVE) ownerId.

Definition no_topic : TopicColumns := mkTopicColumns None None None None None [] None None false.

(** [topicSnapshot]: the source address travels only when its scope allows it. *)
Definition topicSnapshot (topicId : rowid) (topic : ShareableTopic) (createdByUserId : rowid) : TopicColumns :=
  mkTopicColumns (Some topicId) (Some (st_companionId topic)) (Some createdByUserId) (Some (st_title topic))
    (Some (st_summary topic)) (st_tags topic)
    (if st_shareScope topic == summary_and_source then st_sourceUrl topic else None)
    (Some (st_shareScope topic)) (st_allowRecipientSave topic).

(** [revokedAt: null, OR: [{ expiresAt: null }, { expiresAt: { gt: now } }]]
    on a friends topic of the companion *)
Definition topic_usable (companionId : rowid) (now : instant) (t : ShareableTopic) : bool :=
  (st_companionId t == companionId) && (st_audience t == "friends") && negb (is_set (st_revokedAt t))
  && match st_expiresAt t with Some e => now <? e | None => true end.

(** [orderBy: [{ lastUsedAt: asc, nulls first }, { updatedAt: desc }]] *)
Definition topic_order (a b : rowid * ShareableTopic) : bool :=
  match st_lastUsedAt a.2, st_lastUsedAt b.2 with
  | None, Some _ => true
  | Some _, None => false
  | Some x, Some y => (x <? y) || ((x =? y) && (st_updatedAt b.2 <=? st_updatedAt a.2))
  | None, None => st_updatedAt b.2 <=? st_updatedAt a.2
  end.

(** ** What the clients see *)

Record TopicView := mkTopicView {
  tv_ownerCompanionId : option rowid; tv_title : text; tv_summary : option text; tv_tags : list text;
  tv_sourceUrl : option text; tv_shareScope : option ShareScope; tv_allowRecipientSave : bool;
}.
Definition topic_view (t : TopicColumns) : option TopicView :=
  match tc_title t with
  | Some title =>
      if truthy title then
        Some (mkTopicView (tc_ownerCompanionId t) title (tc_summary t) (tc_tags t)
          (if tc_shareScope t == Some summary_and_source then tc_sourceUrl t else None)
          (tc_shareScope t) (tc_allowRecipientSave t))
      else None
  | None => None
  end.

Record InvitationSummary := mkInvitationSummary {
  is_id : rowid; is_visitorOwnerUserId : rowid; is_hostUserId : rowid; is_networkCompanionId : rowid;
  is_assetPackId : rowid; is_companionName : text; is_companionDescription : option text; is_companionTags : list text;
  is_visitMode : VisitMode; is_status : InvitationStatus; is_topic : option TopicView; is_topicSelectedAt : option instant;
  is_expiresAt : instant; is_respondedAt : option instant; is_cancelledAt : option instant;
  is_createdAt : instant; is_updatedAt : instant;
}.
Definition invitationSummary (kr : rowid * Invitation) : InvitationSummary :=
  let r := kr.2 in
  mkInvitationSummary kr.1 (inv_visitorOwnerUserId r) (inv_hostUserId r) (inv_networkCompanionId r)
    (inv_assetPackSnapshotId r) (inv_companionName r) (inv_companionDescription r) (inv_companionTags r)
    (inv_visitMode r) (inv_status r) (topic_view (inv_topic r)) (inv_topicSelectedAt r)
    (inv_expiresAt r) (inv_respondedAt r) (inv_cancelledAt r) (inv_createdAt r) (inv_updatedAt r).

Record SessionSummary := mkSessionSummary {
  ss_id : rowid; ss_invitationId : rowid; ss_visitorOwnerUserId : rowid; ss_hostUserId : rowid;
  ss_networkCompanionId : rowid; ss_assetPackId : rowid; ss_visitMode : VisitMode; ss_state : SessionState;
  ss_visitorOwnerReady : bool; ss_hostReady : bool; ss_readyAt : option instant; ss_startedAt : option instant;
  ss_endedAt : option instant; ss_endReason : option string; ss_failureCode : option string;
  ss_createdAt : instant; ss_updatedAt : instant;
}.
Definition sessionSummary (kr : rowid * Session) : SessionSummary :=
  let r := kr.2 in
  mkSessionSummary kr.1 (ses_invitationId r) (ses_visitorOwnerUserId r) (ses_hostUserId r)
    (ses_networkCompanionId r) (ses_assetPackSnapshotId r) (ses_visitMode r) (ses_state r)
    (is_set (ses_visitorOwnerReadyAt r)) (is_set (ses_hostReadyAt r)) (ses_readyAt r) (ses_startedAt r)
    (ses_endedAt r) (ses_endReason r) (ses_failureCode r) (ses_createdAt r) (ses_updatedAt r).

Definition state_name (st : SessionState) : string :=
  match st with
  | S_preparing => "preparing" | S_ready => "ready" | S_active => "active" | S_ending => "ending"
  | S_ended => "ended" | S_cancelled => "cancelled" | S_failed => "failed"
  end.

Definition publishInvitation (kr : rowid * Invitation) (event : string) : Act World unit :=
  publishToUser (inv_visitorOwnerUserId kr.2) event [("invitationId", JStr (lit kr.1))] ;;
  publishToUser (inv_hostUserId kr.2) event [("invitationId", JStr (lit kr.1))].

Definition publishSession (kr : rowid * Session) (event : string) : Act World unit :=
  let payload := [("sessionId", JStr (lit kr.1)); ("state", JStr (lit (state_name (ses_state kr.2))))] in
  publishToUser (ses_visitorOwnerUserId kr.2) event payload ;;
  publishToUser (ses_hostUserId kr.2) event payload.

(** ** Operations *)

(** The ids of the rows one acceptance creates. *)
Record AcceptIds := mkAcceptIds { ai_session : rowid; ai_hostParticipant : rowid; ai_ownerParticipant : rowid; ai_roomTopic : rowid; ai_share : rowid }.

Inductive AcceptResult :=
  | AR_unchanged (invitation : rowid * Invitation) (session : rowid * Session)
  | AR_expired (invitation : rowid * Invitation)
  | AR_accepted (invitation : rowid * Invitation) (session : rowid * Session) (displaced : list (rowid * Invitation)).

Section operations.
Context `{!ScanOrder}.
Variable limits : VisitRuntimeLimits.
Variable capability : StorageCapability.

(** [listInvitations] *)
Definition listInvitations (userId : rowid) (direction : option string) (status : option InvitationStatus) (d : DB)
    : list InvitationSummary :=
  invitationSummary <$> find_many_by
    (λ _ r, (if direction == Some "incoming" then inv_hostUserId r == userId
             else if direction == Some "outgoing" then inv_visitorOwnerUserId r == userId
             else (inv_hostUserId r == userId) || (inv_visitorOwnerUserId r == userId))
            && match status with Some st => inv_status r == st | None => true end)
    (λ a b, inv_updatedAt b.2 <=? inv_updatedAt a.2) (db_invitations d).

(** [participants: { some: { userId, state: { not: 'left' } } }] *)
Definition present_in (userId sessionId : rowid) (d : DB) : bool :=
  exists_where (λ _ p, (par_sessionId p == sessionId) && (par_userId p == userId) && (par_state p != P_left)) (db_participants d).

Definition listSessions (userId : rowid) (d : DB) : list SessionSummary :=
  sessionSummary <$> find_many_by (λ k s, takes_part userId s || present_in userId k d)
    (λ a b, ses_updatedAt b.2 <=? ses_updatedAt a.2) (db_sessions d).

Definition assertVisitorOwnerAvailable (visitorOwnerUserId : rowid) : Tx DB unit :=
  session ← gets (λ d, find_first (λ _ s, live (ses_state s) && takes_part visitorOwnerUserId s) (db_sessions d));
  match session with
  | None => mret ()
  | Some (_, s) => throw (ConflictException (if ses_hostUserId s == visitorOwnerUserId
                            then "VISIT_HOST_HAS_ACTIVE_GUESTS" else "VISIT_SESSION_ALREADY_ACTIVE"))
  end.

Definition assertHostCapacity (hostUserId : rowid) : Tx DB unit :=
  outgoing ← gets (λ d, exists_where (λ _ s, (ses_visitorOwnerUserId s == hostUserId) && live (ses_state s)) (db_sessions d));
  occupied ← gets (λ d, count_where (λ _ s, (ses_hostUserId s == hostUserId) && live (ses_state s)) (db_sessions d));
  require (negb outgoing) (ConflictException "VISIT_HOST_COMPANION_AWAY") ;;
  require (negb (bool_decide (MAX_CONCURRENT_HOST_VISITORS ≤ occupied)%nat)) (ConflictException "VISIT_HOST_CAPACITY_REACHED").

Definition resolveInvitationTopic (visitorOwnerUserId hostUserId visitorCompanionId : rowid) (mode : VisitMode)
    (topicId : option rowid) (now : instant) : Tx DB (option (TopicColumns * instant)) :=
  match mode with
  | VM_standard =>
      require (negb (truthy_id topicId)) (ConflictException "VISIT_TOPIC_NOT_AVAILABLE") ;; mret None
  | VM_visitor_topic =>
      require (truthy_id topicId) (ConflictException "VISIT_TOPIC_REQUIRED") ;;
      topic ← gets (λ d, find_first (λ k t, (Some k == topicId) && topic_usable visitorCompanionId now t) (db_shareableTopics d));
      t ← require_some topic (ConflictException "VISIT_TOPIC_NOT_AVAILABLE");
      mret (Some (topicSnapshot t.1 t.2 visitorOwnerUserId, now))
  | VM_random_host_topic =>
      host ← gets (λ d, u ← db_users d !! hostUserId; c ← u_activeNetworkCompanionId u;
                        r ← db_companions d !! c; Some (c, r));
      hostCompanion ← require_some host (ConflictException "RANDOM_VISIT_NOT_AVAILABLE");
      require (co_published hostCompanion.2 && (co_visibility hostCompanion.2 == "friends_only")
               && truthy_id (co_activeAssetPackId hostCompanion.2) && co_randomVisitsEnabled hostCompanion.2
               && (co_randomVisitAudience hostCompanion.2 == "friends")) (ConflictException "RANDOM_VISIT_NOT_AVAILABLE") ;;
      topic ← gets (λ d, head (find_many_by (λ _ t, topic_usable hostCompanion.1 now t && st_eligibleForRandomVisit t)
                                 topic_order (db_shareableTopics d)));
      t ← require_some topic (ConflictException "RANDOM_VISIT_TOPIC_NOT_AVAILABLE");
      modify (λ d, d <| db_shareableTopics := alter (λ r, r <| st_lastUsedAt := Some now |> <| st_updatedAt := now |>) t.1 (db_shareableTopics d) |>) ;;
      mret (Some (topicSnapshot t.1 t.2 hostUserId, now))
  end.

Definition createInvitation_tx (visitorOwnerUserId hostUserId : rowid) (mode : option VisitMode) (topicId : option rowid)
    (newId : rowid) (now : instant) : Tx DB (rowid * Invitation) :=
  assertEligible visitorOwnerUserId hostUserId ;;
  assertNoReservation visitorOwnerUserId ;;
  assertVisitorOwnerAvailable visitorOwnerUserId ;;
  current ← gets (loadCurrentSnapshotInTransaction visitorOwnerUserId);
  snapshot ← require_some current notAvailable;
  require (supportsVisualVisit (pk_manifest (sn_pack snapshot))) (ConflictException "VISIT_VISUAL_ASSETS_UNAVAILABLE") ;;
  let visitMode := default VM_standard mode in
  topic ← resolveInvitationTopic visitorOwnerUserId hostUserId (sn_companionId snapshot) visitMode topicId now;
  existing ← gets (λ d, exists_where (λ _ r, (inv_visitorOwnerUserId r == visitorOwnerUserId) && (inv_hostUserId r == hostUserId)
      && (inv_networkCompanionId r == sn_companionId snapshot) && (inv_status r == I_pending) && (now <? inv_expiresAt r)) (db_invitations d));
  require (negb existing) (ConflictException "VISIT_INVITATION_ALREADY_EXISTS") ;;
  let expiresAt := now + invitationTtlHours limits * 3600000 in
  let companion := sn_companion snapshot in
  let created := mkInvitation visitorOwnerUserId hostUserId (sn_companionId snapshot) (sn_packId snapshot) (Some (sn_packId snapshot))
    (co_name companion) (co_publicDescription companion) (co_publicTags companion) visitMode
    (default no_topic (fst <$> topic)) (snd <$> topic) I_pending expiresAt None None now now in
  create_invitation newId created ;;
  create_reservation visitorOwnerUserId
    (mkReservation (sn_companionId snapshot) K_outgoing_invitation (Some newId) None None (Some expiresAt) now now) ;;
  mret (newId, created).

Definition createInvitation (visitorOwnerUserId hostUserId : rowid) (mode : option VisitMode) (topicId : option rowid)
    (newId : rowid) (now : instant) : Act World InvitationSummary :=
  requireFeature capability ;;
  act_require (visitorOwnerUserId != hostUserId) notAvailable ;;
  invitation ← transaction (createInvitation_tx visitorOwnerUserId hostUserId mode topicId newId now);
  publishInvitation invitation "visit.invitation.created" ;;
  mret (invitationSummary invitation).

(** The pack an invitation carries, still usable. *)
Definition invitation_pack (invitation : Invitation) (d : DB) : option (rowid * AssetPack) :=
  companion ← db_companions d !! inv_networkCompanionId invitation;
  if co_published companion && (co_visibility companion == "friends_only") then
    packId ← inv_assetPackRefId invitation;
    pack ← db_assetPacks d !! packId;
    if (packId == inv_assetPackSnapshotId invitation) && (pk_companionId pack == inv_networkCompanionId invitation)
       && bool_decide (pk_status pack ∈ [PK_active; PK_superseded])
    then Some (packId, pack) else None
  else None.

(** The first topic of the room and its share, from the invitation's topic. *)
Definition open_first_topic (invitation : Invitation) (sessionId : rowid) (ids : AcceptIds) (now : instant) : Tx DB unit :=
  let t := inv_topic invitation in
  match tc_title t, tc_summary t, tc_createdByUserId t, tc_ownerCompanionId t with
  | Some title, Some summary, Some createdByUserId, Some ownerCompanionId =>
      if truthy title && truthy summary && truthy_id (Some createdByUserId) && truthy_id (Some ownerCompanionId) then
        let sourceUrl := if tc_shareScope t == Some summary_and_source then tc_sourceUrl t else None in
        create_room_topic (ai_roomTopic ids)
          (mkRoomTopic sessionId 1 T_active ownerCompanionId createdByUserId title summary (tc_tags t) sourceUrl
             (default summary_only (tc_shareScope t)) (tc_allowRecipientSave t) 3 6 (Some now) None now now) ;;
        create_share sessionId (mkShare (ai_share ids) (Some (ai_roomTopic ids)) title summary (tc_tags t) sourceUrl createdByUserId now)
      else mret ()
  | _, _, _, _ => mret ()
  end.

(** Decline the host's other pending invitations and free their senders. *)
Definition displace_invitations (hostUserId invitationId : rowid) (now : instant) : Tx DB (list (rowid * Invitation)) :=
  displaced ← gets (λ d, find_many (λ k r, (inv_hostUserId r == hostUserId) && (inv_status r == I_pending) && (k != invitationId)) (db_invitations d));
  modify (λ d, d <| db_invitations := update_many (λ k r, bool_decide (k ∈ displaced.*1) && (inv_status r == I_pending))
    (λ r, r <| inv_status := I_declined |> <| inv_respondedAt := Some now |> <| inv_assetPackRefId := None |> <| inv_updatedAt := now |>)
    (db_invitations d) |>) ;;
  modify (delete_reservations (λ _ r, match res_invitationId r with Some i => bool_decide (i ∈ displaced.*1) | None => false end)) ;;
  mret displaced.

(** The writes of an acceptance, once every check has passed: the invitation,
    the session, its two participants and their reservations. *)
Definition open_session (invitationId : rowid) (invitation : Invitation) (packId : rowid) (ids : AcceptIds) (now : instant)
    : Tx DB ((rowid * Invitation) * (rowid * Session)) :=
  let accepted := invitation <| inv_status := I_accepted |> <| inv_respondedAt := Some now |> <| inv_assetPackRefId := None |> <| inv_updatedAt := now |> in
  alter_invitation invitationId (λ _, accepted) ;;
  current ← gets (loadCurrentSnapshotInTransaction (inv_hostUserId invitation));
  let random := inv_visitMode invitation == VM_random_host_topic in
  let hostNetworkCompanionId := if random then tc_ownerCompanionId (inv_topic invitation) else sn_companionId <$> current in
  hostSnapshot ← require_some current notAvailable;
  require (truthy_id hostNetworkCompanionId) notAvailable ;;
  hostCompanionId ← require_some hostNetworkCompanionId notAvailable;
  require (negb (random && (sn_companionId hostSnapshot != hostCompanionId))) (ConflictException "VISIT_HOST_COMPANION_CHANGED") ;;
  let session := mkSession invitationId (inv_visitorOwnerUserId invitation) (inv_hostUserId invitation) (Some hostCompanionId)
    (inv_networkCompanionId invitation) (inv_assetPackSnapshotId invitation) (Some packId) (inv_visitMode invitation)
    3 1 S_preparing None None None None None None None None None None now now in
  create_session (ai_session ids) session ;;
  create_participant (ai_hostParticipant ids) (mkParticipant (ai_session ids) (inv_hostUserId invitation) hostCompanionId
    (sn_packId hostSnapshot) (Some (sn_packId hostSnapshot)) R_host P_preparing None (Some now) now None now now) ;;
  create_participant (ai_ownerParticipant ids) (mkParticipant (ai_session ids) (inv_visitorOwnerUserId invitation) (inv_networkCompanionId invitation)
    (inv_assetPackSnapshotId invitation) (Some packId) R_visitor P_preparing None (Some now) now None now now) ;;
  modify (λ d, d <| db_reservations := alter (λ r, r <| res_kind := K_session_participant |> <| res_invitationId := None |>
    <| res_sessionId := Some (ai_session ids) |> <| res_expiresAt := None |> <| res_updatedAt := now |>)
    (inv_visitorOwnerUserId invitation) (db_reservations d) |>) ;;
  create_reservation (inv_hostUserId invitation)
    (mkReservation hostCompanionId K_session_participant None (Some (ai_session ids)) None None now now) ;;
  mret ((invitationId, accepted), (ai_session ids, session)).

Definition accept_writes (invitationId : rowid) (invitation : Invitation) (packId : rowid) (ids : AcceptIds) (now : instant) : Tx DB AcceptResult :=
  opened ← open_session invitationId invitation packId ids now;
  displaced ← displace_invitations (inv_hostUserId invitation) invitationId now;
  open_first_topic invitation (ai_session ids) ids now ;;
  mret (AR_accepted opened.1 opened.2 displaced).

Definition acceptInvitation_tx (hostUserId invitationId : rowid) (ids : AcceptIds) (now : instant) : Tx DB AcceptResult :=
  found ← gets (λ d, db_invitations d !! invitationId);
  invitation ← require_some found (NotFoundException "VISIT_INVITATION_NOT_FOUND");
  require (inv_hostUserId invitation == hostUserId) (ForbiddenException "VISIT_INVITATION_NOT_HOST") ;;
  session ← gets (λ d, find_unique (λ _ s, ses_invitationId s == invitationId) (db_sessions d));
  match (if inv_status invitation == I_accepted then session else None) with
  | Some s => mret (AR_unchanged (invitationId, invitation) s)
  | None =>
      require (inv_status invitation == I_pending) (ConflictException "VISIT_INVITATION_NOT_PENDING") ;;
      if inv_expiresAt invitation <=? now then
        let expired := invitation <| inv_status := I_expired |> <| inv_respondedAt := Some now |> <| inv_assetPackRefId := None |> <| inv_updatedAt := now |> in
        alter_invitation invitationId (λ _, expired) ;;
        modify (delete_reservations (λ k r, (k == inv_visitorOwnerUserId invitation) && (res_invitationId r == Some invitationId))) ;;
        mret (AR_expired (invitationId, expired))
      else
        assertEligible (inv_visitorOwnerUserId invitation) (inv_hostUserId invitation) ;;
        ownerReservation ← gets (λ d, db_reservations d !! inv_visitorOwnerUserId invitation);
        require match ownerReservation with
                | Some r => (res_kind r == K_outgoing_invitation) && (res_invitationId r == Some invitationId)
                | None => false
                end (ConflictException "VISIT_RESERVATION_CHANGED") ;;
        assertNoReservation (inv_hostUserId invitation) ;;
        assertVisitorOwnerAvailable (inv_visitorOwnerUserId invitation) ;;
        assertHostCapacity (inv_hostUserId invitation) ;;
        usable ← gets (invitation_pack invitation);
        pack ← require_some usable notAvailable;
        require (supportsVisualVisit (pk_manifest pack.2)) (ConflictException "VISIT_VISUAL_ASSETS_UNAVAILABLE") ;;
        accept_writes invitationId invitation pack.1 ids now
  end.

Definition acceptInvitation (hostUserId invitationId : rowid) (ids : AcceptIds) (now : instant)
    : Act World (InvitationSummary * SessionSummary) :=
  result ← transaction (acceptInvitation_tx hostUserId invitationId ids now);
  match result with
  | AR_expired invitation =>
      publishInvitation invitation "visit.invitation.updated" ;;
      act_throw (ConflictException "VISIT_INVITATION_EXPIRED")
  | AR_unchanged invitation session =>
      publishInvitation invitation "visit.invitation.updated" ;;
      mret (invitationSummary invitation, sessionSummary session)
  | AR_accepted invitation session displaced =>
      publishInvitation invitation "visit.invitation.updated" ;;
      act_for displaced (λ i, publishInvitation i "visit.invitation.updated") ;;
      publishSession session "visit.session.created" ;;
      mret (invitationSummary invitation, sessionSummary session)
  end.

(** [respondToInvitation] *)
Definition respondToInvitation_tx (userId invitationId : rowid) (role : SessionRole) (now : instant) : Tx DB (rowid * Invitation) :=
  let status := match role with as_host => I_declined | as_owner => I_cancelled end in
  found ← gets (λ d, db_invitations d !! invitationId);
  current ← require_some found (NotFoundException "VISIT_INVITATION_NOT_FOUND");
  require ((match role with as_host => inv_hostUserId current | as_owner => inv_visitorOwnerUserId current end) == userId)
    (ForbiddenException match role with as_host => "VISIT_INVITATION_NOT_HOST" | as_owner => "VISIT_INVITATION_NOT_OWNED" end) ;;
  if inv_status current == status then mret (invitationId, current) else
  require (inv_status current == I_pending) (ConflictException "VISIT_INVITATION_NOT_PENDING") ;;
  let updated := match role with
                 | as_host => current <| inv_status := status |> <| inv_respondedAt := Some now |> <| inv_assetPackRefId := None |> <| inv_updatedAt := now |>
                 | as_owner => current <| inv_status := status |> <| inv_cancelledAt := Some now |> <| inv_assetPackRefId := None |> <| inv_updatedAt := now |>
                 end in
  alter_invitation invitationId (λ _, updated) ;;
  modify (delete_reservations (λ k r, (k == inv_visitorOwnerUserId current) && (res_invitationId r == Some invitationId))) ;;
  mret (invitationId, updated).

Definition respondToInvitation (userId invitationId : rowid) (role : SessionRole) (now : instant) : Act World InvitationSummary :=
  invitation ← transaction (respondToInvitation_tx userId invitationId role now);
  publishInvitation invitation "visit.invitation.updated" ;;
  mret (invitationSummary invitation).
Definition declineInvitation (hostUserId invitationId : rowid) (now : instant) := respondToInvitation hostUserId invitationId as_host now.
Definition cancelInvitation (visitorOwnerUserId invitationId : rowid) (now : instant) := respondToInvitation visitorOwnerUserId invitationId as_owner now.

Definition find_participant (sessionId userId : rowid) (d : DB) : option (rowid * Participant) :=
  find_unique (λ _ p, (par_sessionId p == sessionId) && (par_userId p == userId)) (db_participants d).

(** [requireParticipantSession], as [getSession] uses it *)
Definition requireParticipantSession (userId sessionId : rowid) : Act World (rowid * Session) :=
  found ← query (λ d, db_sessions d !! sessionId);
  session ← act_require_some found (NotFoundException "VISIT_SESSION_NOT_FOUND");
  participant ← query (find_participant sessionId userId);
  act_require (is_set (roleFor session userId)
               || match participant with Some (_, p) => par_state p != P_left | None => false end)
    (ForbiddenException "VISIT_SESSION_NOT_PARTICIPANT") ;;
  mret (sessionId, session).

Definition getSession (userId sessionId : rowid) : Act World SessionSummary :=
  session ← requireParticipantSession userId sessionId; mret (sessionSummary session).

Definition markReady_tx (userId sessionId : rowid) (now : instant) : Tx DB (rowid * Session) :=
  found ← gets (λ d, db_sessions d !! sessionId);
  current ← require_some found (NotFoundException "VISIT_SESSION_NOT_FOUND");
  role ← require_some (roleFor current userId) (ForbiddenException "VISIT_SESSION_NOT_PARTICIPANT");
  assertEligible (ses_visitorOwnerUserId current) (ses_hostUserId current) ;;
  if (ses_state current == S_ready) || (ses_state current == S_active) then mret (sessionId, current) else
  require (ses_state current == S_preparing) (ConflictException "VISIT_SESSION_NOT_PREPARING") ;;
  let or_now (o : option instant) := Some (default now o) in
  let updated := match role with
                 | as_owner => current <| ses_visitorOwnerReadyAt := or_now (ses_visitorOwnerReadyAt current) |> <| ses_visitorOwnerSeenAt := Some now |> <| ses_updatedAt := now |>
                 | as_host => current <| ses_hostReadyAt := or_now (ses_hostReadyAt current) |> <| ses_hostSeenAt := Some now |> <| ses_updatedAt := now |>
                 end in
  alter_session sessionId (λ _, updated) ;;
  modify (update_participants (λ p, (par_sessionId p == sessionId) && (par_userId p == userId))
    (λ p, p <| par_state := P_ready |> <| par_readyAt := Some now |> <| par_seenAt := Some now |> <| par_updatedAt := now |>)) ;;
  if is_set (ses_visitorOwnerReadyAt updated) && is_set (ses_hostReadyAt updated) then
    let ready := updated <| ses_state := S_ready |> <| ses_readyAt := or_now (ses_readyAt updated) |> in
    alter_session sessionId (λ _, ready) ;; mret (sessionId, ready)
  else mret (sessionId, updated).

Definition markReady (userId sessionId : rowid) (now : instant) : Act World SessionSummary :=
  session ← transaction (markReady_tx userId sessionId now);
  publishSession session "visit.session.updated" ;; mret (sessionSummary session).

Definition startSession_tx (hostUserId sessionId : rowid) (now : instant) : Tx DB (rowid * Session) :=
  found ← gets (λ d, db_sessions d !! sessionId);
  current ← require_some found (NotFoundException "VISIT_SESSION_NOT_FOUND");
  require (ses_hostUserId current == hostUserId) (ForbiddenException "VISIT_SESSION_NOT_PARTICIPANT") ;;
  assertEligible (ses_visitorOwnerUserId current) (ses_hostUserId current) ;;
  if ses_state current == S_active then mret (sessionId, current) else
  require (ses_state current == S_ready) (ConflictException "VISIT_SESSION_NOT_READY") ;;
  modify (update_participants (λ p, (par_sessionId p == sessionId) && (par_state p == P_ready))
    (λ p, p <| par_state := P_active |> <| par_seenAt := Some now |> <| par_updatedAt := now |>)) ;;
  let started := current <| ses_state := S_active |> <| ses_startedAt := Some now |> <| ses_updatedAt := now |> in
  alter_session sessionId (λ _, started) ;; mret (sessionId, started).

Definition startSession (hostUserId sessionId : rowid) (now : instant) : Act World SessionSummary :=
  session ← transaction (startSession_tx hostUserId sessionId now);
  publishSession session "visit.session.updated" ;; mret (sessionSummary session).

(** [endSessionInTransaction] *)
Definition endSessionInTransaction (sessionId userId : rowid) (requestedReason : option string) (now : instant) : Tx DB (rowid * Session) :=
  found ← gets (λ d, db_sessions d !! sessionId);
  current ← require_some found (NotFoundException "VISIT_SESSION_NOT_FOUND");
  role ← require_some (roleFor current userId) (ForbiddenException "VISIT_SESSION_NOT_PARTICIPANT");
  if bool_decide (ses_state current ∈ SESSION_TERMINAL) then mret (sessionId, current) else
  require (live (ses_state current)) (ConflictException "VISIT_SESSION_STATE_CHANGED") ;;
  let reason := default (match role with as_owner => "visitor_owner_ended" | as_host => "host_ended" end) requestedReason in
  let ended := current
    <| ses_state := if bool_decide (ses_state current ∈ [S_preparing; S_ready]) then S_cancelled else S_ended |>
    <| ses_endingAt := if bool_decide (ses_state current ∈ [S_active; S_ending]) then Some now else None |>
    <| ses_endedAt := Some now |> <| ses_endReason := Some reason |> <| ses_assetPackRefId := None |> <| ses_updatedAt := now |> in
  alter_session sessionId (λ _, ended) ;; mret (sessionId, ended).

Definition endSession_tx (userId sessionId : rowid) (reason : option string) (now : instant) : Tx DB (rowid * Session) :=
  ended ← endSessionInTransaction sessionId userId reason now;
  releaseSessionReservations sessionId now ;;
  mret ended.

Definition endSession (userId sessionId : rowid) (reason : option string) (now : instant) : Act World SessionSummary :=
  session ← transaction (endSession_tx userId sessionId reason now);
  publishSession session "visit.session.ended" ;; mret (sessionSummary session).
End operations.

(** ** Statement by statement *)

(** [visitSession.updateMany({ where: { id, state }, data })]: the claim a
    closing loop makes on a session it read earlier, and how many rows it
    changed. *)
Definition close_session (reason : string) (now : instant) (s : Session) : Session :=
  s <| ses_state := if ses_state s == S_active then S_ended else S_cancelled |>
    <| ses_endedAt := Some now |> <| ses_endReason := Some reason |> <| ses_assetPackRefId := None |> <| ses_updatedAt := now |>.

Definition claim_session (k : rowid) (seen : SessionState) (reason : string) (now : instant) : Tx DB bool :=
  claimed ← gets (λ d, match db_sessions d !! k with Some s => ses_state s == seen | None => false end);
  modify (λ d, d <| db_sessions := alter (λ s, if ses_state s == seen then close_session reason now s else s) k (db_sessions d) |>) ;;
  mret claimed.

(** The three writes and the event of one closed session, each on its own. *)
Definition close_one (reason : string) (now : instant) (kr : rowid * Session) : Act World unit :=
  claimed ← transaction (claim_session kr.1 (ses_state kr.2) reason now);
  if claimed : bool then
    statement (release_session kr.1) ;;
    statement (leave_all kr.1 now) ;;
    found ← query (λ d, db_sessions d !! kr.1);
    session ← act_require_some found P2025;
    publishSession (kr.1, session) "visit.session.ended"
  else mret ().

Section closing.
Context `{!ScanOrder}.

Definition endSessionsBetween (userA userB : rowid) (reason : string) (now : instant) : Act World unit :=
  sessions ← query (λ d, find_many (λ _ s, live (ses_state s) && session_between userA userB s) (db_sessions d));
  act_for sessions (close_one reason now).

Definition endSessionsForCompanion (companionId : rowid) (reason : string) (now : instant) : Act World unit :=
  sessions ← query (λ d, find_many (λ _ s, (ses_networkCompanionId s == companionId) && live (ses_state s)) (db_sessions d));
  act_for sessions (close_one reason now).

(** One transaction cancels the companion's pending invitations and closes its
    live sessions. *)
Definition cancel_claimed (now : instant) (k : rowid) : Tx DB unit :=
  claimed ← gets (λ d, match db_invitations d !! k with Some r => inv_status r == I_pending | None => false end);
  modify (λ d, d <| db_invitations := alter (λ r, if inv_status r == I_pending then
    r <| inv_status := I_cancelled |> <| inv_cancelledAt := Some now |> <| inv_assetPackRefId := None |> <| inv_updatedAt := now |> else r) k (db_invitations d) |>) ;;
  if claimed : bool then modify (release_invitation k) else mret ().

Definition close_claimed (reason : string) (now : instant) (kr : rowid * Session) : Tx DB unit :=
  claimed ← claim_session kr.1 (ses_state kr.2) reason now;
  if claimed : bool then releaseSessionReservations kr.1 now else mret ().

Definition revokeCompanionVisits_tx (companionId : rowid) (reason : string) (now : instant)
    : Tx DB (list (rowid * Invitation) * list (rowid * Session)) :=
  pending ← gets (λ d, find_many (λ _ r, (inv_networkCompanionId r == companionId) && (inv_status r == I_pending)) (db_invitations d));
  live_ ← gets (λ d, find_many (λ _ s, (ses_networkCompanionId s == companionId) && live (ses_state s)) (db_sessions d));
  tx_for pending.*1 (cancel_claimed now) ;;
  tx_for live_ (close_claimed reason now) ;;
  changed ← gets (λ d, (omap (λ k, r ← db_invitations d !! k; Some (k, r)) pending.*1,
                        omap (λ k, s ← db_sessions d !! k; Some (k, s)) live_.*1));
  mret changed.

Definition revokeCompanionVisits (companionId : rowid) (reason : string) (now : instant) : Act World unit :=
  changed ← transaction (revokeCompanionVisits_tx companionId reason now);
  act_for changed.1 (λ i, publishInvitation i "visit.invitation.updated") ;;
  act_for changed.2 (λ s, publishSession s "visit.session.ended").

Section timeouts.
Variable limits : VisitRuntimeLimits.

(** [timeoutReason] *)
Definition timeoutReason (s : Session) (now : instant) : option string :=
  let since_start := match ses_startedAt s with Some t => sessionMaxMinutes limits * 60000 <? now - t | None => false end in
  let prepared := default (ses_createdAt s) (ses_readyAt s) in
  let threshold := now - heartbeatTimeoutSeconds limits * 1000 in
  let fallback := default prepared (ses_startedAt s) in
  if (ses_state s == S_active) && since_start then Some "session_timeout"
  else if (ses_state s != S_active) && (preparationTtlMinutes limits * 60000 <? now - prepared) then Some "preparation_timeout"
  else if (default fallback (ses_visitorOwnerSeenAt s) <? threshold) || (default fallback (ses_hostSeenAt s) <? threshold)
  then Some "heartbeat_timeout"
  else None.

Definition claim_invitation (now : instant) (k : rowid) : Tx DB bool :=
  let due r := (inv_status r == I_pending) && (inv_expiresAt r <? now) in
  claimed ← gets (λ d, match db_invitations d !! k with Some r => due r | None => false end);
  modify (λ d, d <| db_invitations := alter (λ r, if due r then
    r <| inv_status := I_expired |> <| inv_respondedAt := Some now |> <| inv_assetPackRefId := None |> <| inv_updatedAt := now |> else r) k (db_invitations d) |>) ;;
  mret claimed.

Definition expire_invitation (now : instant) (k : rowid) : Act World unit :=
  claimed ← transaction (claim_invitation now k);
  if claimed : bool then
    statement (release_invitation k) ;;
    found ← query (λ d, db_invitations d !! k);
    record ← act_require_some found P2025;
    publishInvitation (k, record) "visit.invitation.updated"
  else mret ().

(** [updateMany] of a join request; the unique index on (sessionId,
    requesterUserId, status) may refuse the new status. *)
Definition join_clash (r1 r2 : JoinRequest) : bool :=
  (jr_sessionId r1 == jr_sessionId r2) && (jr_requesterUserId r1 == jr_requesterUserId r2) && (jr_status r1 == jr_status r2).
Definition set_join_request (k : rowid) (f : JoinRequest → JoinRequest) : Tx DB unit :=
  modify_or (λ d, m ← update_row join_clash k f (db_joinRequests d); Some (d <| db_joinRequests := m |>))
    (P2002 "sessionId_requesterUserId_status").

Definition claim_join_request (now : instant) (k : rowid) : Tx DB bool :=
  claimed ← gets (λ d, match db_joinRequests d !! k with
                       | Some r => (jr_status r == J_pending) && (jr_expiresAt r <? now) | None => false end);
  (if claimed : bool then set_join_request k (λ r, r <| jr_status := J_expired |> <| jr_respondedAt := Some now |> <| jr_assetPackRefId := None |> <| jr_updatedAt := now |>)
   else mret ()) ;;
  mret claimed.

Definition present_users (sessionId : rowid) (d : DB) : list rowid :=
  (λ kp, par_userId kp.2) <$> find_many (λ _ p, (par_sessionId p == sessionId) && (par_state p != P_left)) (db_participants d).

Definition expire_join_request (now : instant) (kr : rowid * JoinRequest) : Act World unit :=
  claimed ← transaction (claim_join_request now kr.1);
  if claimed : bool then
    statement (delete_reservations (λ k r, (k == jr_requesterUserId kr.2) && (res_joinRequestId r == Some kr.1))) ;;
    let payload := [("sessionId", JStr (lit (jr_sessionId kr.2))); ("joinRequestId", JStr (lit kr.1))] in
    publishToUser (jr_requesterUserId kr.2) "visit.join_request.updated" payload ;;
    participants ← query (present_users (jr_sessionId kr.2));
    act_for participants (λ u, publishToUser u "visit.join_request.updated" payload)
  else mret ().

Definition close_if_timed_out (now : instant) (kr : rowid * Session) : Act World unit :=
  match timeoutReason kr.2 now with
  | None => mret ()
  | Some reason => close_one reason now kr
  end.

(** [cleanupExpiredAndTimedOut]; [cleanupRunning] is the flag of the
    service, set while a run is in progress and reset by its [finally]. *)
Definition cleanupExpiredAndTimedOut (cleanupRunning : bool) (limit : nat) (now : instant) : Act World unit :=
  if cleanupRunning then mret () else
  expired ← query (λ d, take limit (find_many (λ _ r, (inv_status r == I_pending) && (inv_expiresAt r <? now)) (db_invitations d)));
  act_for expired.*1 (expire_invitation now) ;;
  expiredJoinRequests ← query (λ d, take limit (find_many (λ _ r, (jr_status r == J_pending) && (jr_expiresAt r <? now)) (db_joinRequests d)));
  act_for expiredJoinRequests (expire_join_request now) ;;
  sessions ← query (λ d, take limit (find_many (λ _ s, live (ses_state s)) (db_sessions d)));
  act_for sessions (close_if_timed_out now).
End timeouts.

(** ** Heartbeats and assets *)

Definition assertEligible_now (first second : rowid) : Act World unit :=
  b ← query (eligible first second); act_require b notAvailable.

Definition heartbeat (userId sessionId : rowid) (now : instant) : Act World SessionSummary :=
  found ← query (λ d, db_sessions d !! sessionId);
  session ← act_require_some found (NotFoundException "VISIT_SESSION_NOT_FOUND");
  act_require (bool_decide (ses_state session ∈ SESSION_HEARTBEAT)) (ConflictException "VISIT_SESSION_STATE_CHANGED") ;;
  participant ← query (find_participant sessionId userId);
  act_require (is_set (roleFor session userId)
               || match participant with Some (_, p) => par_state p != P_left | None => false end)
    (ForbiddenException "VISIT_SESSION_NOT_PARTICIPANT") ;;
  peers ← query (λ d, find_many (λ _ p, (par_sessionId p == sessionId) && (par_state p != P_left) && (par_userId p != userId)) (db_participants d));
  act_for peers (λ kp, assertEligible_now userId (par_userId kp.2)) ;;
  statement (update_participants (λ p, (par_sessionId p == sessionId) && (par_userId p == userId) && (par_state p != P_left))
    (λ p, p <| par_seenAt := Some now |> <| par_updatedAt := now |>)) ;;
  match roleFor session userId with
  | None => mret (sessionSummary (sessionId, session))
  | Some role =>
      statement (λ d, d <| db_sessions := alter (λ s, match role with
                                                      | as_owner => s <| ses_visitorOwnerSeenAt := Some now |> <| ses_updatedAt := now |>
                                                      | as_host => s <| ses_hostSeenAt := Some now |> <| ses_updatedAt := now |>
                                                      end) sessionId (db_sessions d) |>) ;;
      updated ← query (λ d, db_sessions d !! sessionId);
      s ← act_require_some updated P2025;
      mret (sessionSummary (sessionId, s))
  end.

Record FileView := mkFileView { fl_id : rowid; fl_relativePath : text; fl_sizeBytes : Z; fl_sha256 : text; fl_mimeType : text }.
Definition file_view (kf : rowid * AssetFile) : FileView :=
  mkFileView kf.1 (af_relativePath kf.2) (af_sizeBytes kf.2) (af_sha256 kf.2) (af_mimeType kf.2).
Definition pack_files (packId : rowid) (d : DB) : list (rowid * AssetFile) :=
  find_many (λ _ f, af_assetPackId f == packId) (db_assetFiles d).

(** [!fileIds.length || fileIds.length > 50 || duplicates] *)
Definition file_ids_ok (fileIds : list rowid) : bool :=
  (0 <? Z.of_nat (length fileIds)) && (Z.of_nat (length fileIds) <=? 50)
  && bool_decide (length (dedup fileIds) = length fileIds).

Section assets.
Variable capability : StorageCapability.
(** [storage.createGetUrl]: the signed address of an object and its expiry. *)
Variable createGetUrl : text → instant → text * instant.

(** [authorizeSessionAsset] *)
Definition authorizeSessionAsset (hostUserId sessionId : rowid) : Act World (rowid * AssetPack) :=
  requireFeature capability ;;
  found ← query (λ d, db_sessions d !! sessionId);
  session ← act_require_some found assetNotAvailable;
  act_require ((ses_hostUserId session == hostUserId) && bool_decide (ses_state session ∈ SESSION_HEARTBEAT)) assetNotAvailable ;;
  act_catch (assertEligible_now (ses_visitorOwnerUserId session) (ses_hostUserId session)) (λ _, act_throw assetNotAvailable) ;;
  packId ← act_require_some (ses_assetPackRefId session) assetNotAvailable;
  found_pack ← query (λ d, db_assetPacks d !! packId);
  pack ← act_require_some found_pack assetNotAvailable;
  act_require ((packId == ses_assetPackSnapshotId session) && (pk_companionId pack == ses_networkCompanionId session)
               && bool_decide (pk_status pack ∈ [PK_active; PK_superseded])) assetNotAvailable ;;
  mret (packId, pack).

Definition getSessionManifest (hostUserId sessionId : rowid) : Act World (json * list FileView) :=
  pack ← authorizeSessionAsset hostUserId sessionId;
  files ← query (pack_files pack.1);
  mret (pk_manifest pack.2, file_view <$> files).

Definition createSessionDownloadUrls (hostUserId sessionId : rowid) (fileIds : list rowid) (now : instant)
    : Act World (list (FileView * (text * instant))) :=
  act_require (file_ids_ok fileIds) (ConflictException "VISIT_ASSET_NOT_AVAILABLE") ;;
  pack ← authorizeSessionAsset hostUserId sessionId;
  all ← query (pack_files pack.1);
  let files := filter (λ kf, kf.1 ∈ fileIds) all in
  act_require (bool_decide (length files = length fileIds)) assetNotAvailable ;;
  mret ((λ kf, (file_view kf, createGetUrl (af_objectKey kf.2) now)) <$> files).
End assets.

(** [assertCanSwitchToCompanion], [assertCompanionMutationAllowed] *)
Definition assertCanSwitchToCompanion (userId companionId : rowid) : Act World unit :=
  reservation ← query (λ d, db_reservations d !! userId);
  act_require match reservation with Some r => res_networkCompanionId r == companionId | None => true end
    (ConflictException "VISIT_COMPANION_RESERVED").
Definition assertCompanionMutationAllowed (userId companionId : rowid) : Act World unit :=
  reservation ← query (λ d, db_reservations d !! userId);
  act_require match reservation with Some r => res_networkCompanionId r != companionId | None => true end
    (ConflictException "VISIT_COMPANION_RESERVED").
End closing.

(** ** Closing sessions *)

Lemma close_session_dead reason now s : live (ses_state (close_session reason now s)) = false.
Proof. unfold close_session. simpl. by destruct (ses_state s == S_active). Qed.

(** The database after a session was closed. *)
Definition closed_db (reason : string) (now : instant) (k : rowid) (s : Session) (d : DB) : DB :=
  leave_all k now (release_session k (d <| db_sessions := <[k := close_session reason now s]> (db_sessions d) |>)).

Lemma claim_session_run k s reason now d :
  db_sessions d !! k = Some s →
  claim_session k (ses_state s) reason now d =
  Ok (true, d <| db_sessions := <[k := close_session reason now s]> (db_sessions d) |>).
Proof.
  intros Hk. unfold claim_session. rewrite tx_gets_run, tx_modify_run, Hk.
  rewrite (alter_as_insert _ _ _ _ Hk). by rewrite bool_decide_eq_true_2.
Qed.

Lemma close_one_run reason now k s w :
  db_sessions (w_db w) !! k = Some s →
  ∃ w', close_one reason now (k, s) w = (Ok (), w') ∧ w_db w' = closed_db reason now k s (w_db w).
Proof.
  intros Hk. unfold close_one. cbn [fst snd].
  erewrite act_bind_run by (apply transaction_ok; eexists; split; [by apply claim_session_run|done]).
  unfold statement. do 2 (erewrite act_bind_run by (apply transaction_ok; eexists; split; [done|done])).
  rewrite query_run.
  erewrite act_require_some_run by (cbn; apply lookup_insert_eq).
  eexists. split; [done|]. done.
Qed.

(** A closing loop over the sessions of a query closes them all. *)
Lemma close_all_run reason now (l : list (rowid * Session)) w :
  NoDup l.*1 → (∀ k s, (k, s) ∈ l → db_sessions (w_db w) !! k = Some s) →
  ∃ w', act_for l (close_one reason now) w = (Ok (), w') ∧
    social_tables (w_db w') = social_tables (w_db w) ∧
    (∀ k s, db_sessions (w_db w') !! k = Some s →
       (k ∈ l.*1 ∧ live (ses_state s) = false) ∨ (k ∉ l.*1 ∧ db_sessions (w_db w) !! k = Some s)).
Proof.
  revert w. induction l as [|[k s] l IH]; intros w Hnd Hl; simpl.
  - exists w. split_and!; [done|done|]. intros k s Hk. right. split; [set_solver|done].
  - apply NoDup_cons in Hnd as [Hk Hnd].
    destruct (close_one_run reason now k s w) as (w1 & Hrun & Hdb); [apply Hl; set_solver|].
    rewrite (act_bind_run _ _ _ _ _ Hrun).
    destruct (IH w1 Hnd) as (w2 & Hrun2 & Hsoc & Hses).
    { intros k' s' Hin. rewrite Hdb. cbn. rewrite lookup_insert_ne; [apply Hl; set_solver|].
      intros ->. apply Hk. apply list_elem_of_fmap. by exists (k', s'). }
    exists w2. split_and!; [done| |].
    + rewrite Hsoc, Hdb. done.
    + intros k' s' Hk'. destruct (decide (k' = k)) as [->|Hne].
      * left. split; [set_solver|]. apply Hses in Hk' as [[? ?]|[_ Hk']]; [done|].
        rewrite Hdb in Hk'. cbn in Hk'. rewrite lookup_insert_eq in Hk'. injection Hk' as <-.
        apply close_session_dead.
      * apply Hses in Hk' as [[? ?]|[? Hk']]; [left; set_solver|].
        right. split; [set_solver|]. rewrite Hdb in Hk'. cbn in Hk'. by rewrite lookup_insert_ne in Hk'.
Qed.

Lemma find_many_keys_NoDup `{!ScanOrder} {R} (p : rowid → R → bool) (m : gmap rowid R) : NoDup (find_many p m).*1.
Proof.
  unfold find_many. apply (NoDup_fmap_fst _).
  - intros x y1 y2 [_ H1]%list_elem_of_filter [_ H2]%list_elem_of_filter.
    apply elem_of_scan in H1, H2. congruence.
  - apply NoDup_filter. rewrite scan_perm. apply NoDup_map_to_list.
Qed.

Lemma endSessionsBetween_run `{!ScanOrder} a b reason now w :
  ∃ w', endSessionsBetween a b reason now w = (Ok (), w') ∧
    social_tables (w_db w') = social_tables (w_db w) ∧
    ∀ k s, db_sessions (w_db w') !! k = Some s → session_between a b s = true → live (ses_state s) = false.
Proof.
  unfold endSessionsBetween. rewrite query_run.
  set (l := find_many _ _).
  destruct (close_all_run reason now l w) as (w' & Hrun & Hsoc & Hses).
  - apply find_many_keys_NoDup.
  - intros k s Hin. by apply elem_of_find_many in Hin as [? _].
  - exists w'. split_and!; [done|done|]. intros k s Hk Hb.
    apply Hses in Hk as [[_ ?]|[Hn Hk]]; [done|]. apply not_true_iff_false. intros Hlive.
    apply Hn. apply list_elem_of_fmap. exists (k, s). split; [done|].
    apply elem_of_find_many. split; [done|]. by rewrite Hlive.
Qed.

(** The visit service keeps its promises to the friend service. *)
#[export] Instance visit_gateway `{!ScanOrder} : VisitGateway.
Proof.
  refine {| InvitationView := InvitationSummary; SessionView := SessionSummary;
    Interfaces.listInvitations := listInvitations; Interfaces.listSessions := listSessions;
    Interfaces.endSessionsBetween := endSessionsBetween |}.
  - intros a b reason now w. destruct (endSessionsBetween_run a b reason now w) as (w' & -> & _). done.
  - intros a b reason now w. destruct (endSessionsBetween_run a b reason now w) as (w' & -> & ? & _). done.
  - intros a b reason now w. destruct (endSessionsBetween_run a b reason now w) as (w' & -> & _ & ?). done.
Defined.
