(* ===== verification/VisitCore.v ===== *)
(** * The reservation protocol, abstractly

    Invitations, sessions, reservations, participants and join requests are
    five tables that must agree: who is reserved, who is invited and who is in
    a room.  This file states how they may change - [micro], the atomic actions
    the visit services are made of - and the agreement, [VisitInv], that every
    action preserves.  [VisitSteps] shows that the transactions and statements
    of the services are sequences of these actions.

    Outside a transaction a closing loop first claims a row and deletes the
    reservations later: [Task] is such work still to be done. *)

From S2P Require Import Prelude Tables JsText Json Schema Interfaces Visit.
Local Open Scope Z_scope.

Inductive Task := RelInv (i : rowid) | RelSes (s : rowid) | RelJoin (k : rowid).
#[export] Instance Task_eq_dec : EqDecision Task.
Proof. solve_decision. Defined.

Record Core := mkCore {
  k_inv : gmap rowid Invitation;
  k_ses : gmap rowid Session;
  k_res : gmap rowid Reservation;
  k_par : gmap rowid Participant;
  k_join : gmap rowid JoinRequest;
}.
#[export] Instance eta_Core : Eta Core := λ c, mkCore (k_inv c) (k_ses c) (k_res c) (k_par c) (k_join c).

Definition core_of (d : DB) : Core :=
  mkCore (db_invitations d) (db_sessions d) (db_reservations d) (db_participants d) (db_joinRequests d).

(** ** What never changes in a row *)

Definition same_invitation (r r' : Invitation) : Prop :=
  inv_visitorOwnerUserId r' = inv_visitorOwnerUserId r ∧ inv_hostUserId r' = inv_hostUserId r.
Definition same_session (s s' : Session) : Prop :=
  ses_invitationId s' = ses_invitationId s ∧ ses_visitorOwnerUserId s' = ses_visitorOwnerUserId s ∧
  ses_hostUserId s' = ses_hostUserId s ∧ ses_roomCapacity s' = ses_roomCapacity s.
Definition same_participant (p p' : Participant) : Prop :=
  par_sessionId p' = par_sessionId p ∧ par_userId p' = par_userId p ∧
  par_networkCompanionId p' = par_networkCompanionId p ∧ par_role p' = par_role p.
Definition same_join (j j' : JoinRequest) : Prop :=
  jr_sessionId j' = jr_sessionId j ∧ jr_requesterUserId j' = jr_requesterUserId j.

(** The states a session moves through before it closes. *)
Definition forward (a b : SessionState) : bool :=
  bool_decide (a = b) || bool_decide ((a, b) ∈ [(S_preparing, S_ready); (S_ready, S_active)]).

Definition present (p : Participant) : bool := par_state p != P_left.
Definition present_count (s : rowid) (m : gmap rowid Participant) : nat :=
  count_where (λ _ p, (par_sessionId p == s) && present p) m.

Definition outgoing (i : rowid) (r : Reservation) : Prop :=
  res_kind r = K_outgoing_invitation ∧ res_invitationId r = Some i ∧ res_sessionId r = None ∧ res_joinRequestId r = None.
Definition in_session (s : rowid) (r : Reservation) : Prop :=
  res_kind r = K_session_participant ∧ res_invitationId r = None ∧ res_sessionId r = Some s ∧ res_joinRequestId r = None.
Definition asking (s k : rowid) (r : Reservation) : Prop :=
  res_kind r = K_join_request ∧ res_invitationId r = None ∧ res_sessionId r = Some s ∧ res_joinRequestId r = Some k.

(** [ts'] forgets at most the tasks of [done]. *)
Definition drops (done : Task → Prop) (ts ts' : list Task) : Prop :=
  (∀ t, t ∈ ts → done t ∨ t ∈ ts') ∧ (∀ t, t ∈ ts' → t ∈ ts).

(** ** The actions *)

Definition Config : Type := Core * list Task.

Inductive micro : Config → Config → Prop :=
  | mi_invite c ts i r u v :
      k_inv c !! i = None → inv_status r = I_pending → inv_visitorOwnerUserId r = u → inv_hostUserId r ≠ u →
      k_res c !! u = None → outgoing i v →
      micro (c, ts) (c <| k_inv := <[i := r]> (k_inv c) |> <| k_res := <[u := v]> (k_res c) |>, ts)
  | mi_close_invitations c ts (X : list rowid) f :
      (∀ r, inv_status (f r) ≠ I_pending ∧ same_invitation r (f r)) →
      micro (c, ts) (c <| k_inv := update_many (λ k r, bool_decide (k ∈ X) && (inv_status r == I_pending)) f (k_inv c) |>, (RelInv <$> X) ++ ts)
  | mi_release_invitations c ts ts' (X : list rowid) p :
      (∀ i r, i ∈ X → k_inv c !! i = Some r → inv_status r ≠ I_pending) →
      (∀ u v, k_res c !! u = Some v → p u v = true ↔ ∃ i, i ∈ X ∧ res_invitationId v = Some i) →
      drops (λ t, ∃ i, i ∈ X ∧ t = RelInv i) ts ts' →
      micro (c, ts) (c <| k_res := delete_many p (k_res c) |>, ts')
  | mi_accept c ts i r r' s se hk hp ok op u v v' h w :
      k_inv c !! i = Some r → inv_status r = I_pending → inv_status r' = I_accepted → same_invitation r r' →
      inv_visitorOwnerUserId r = u → inv_hostUserId r = h → u ≠ h →
      k_res c !! u = Some v → outgoing i v → in_session s v' → k_res c !! h = None → in_session s w →
      k_ses c !! s = None → (∀ s' se', k_ses c !! s' = Some se' → ses_invitationId se' ≠ i) →
      ses_invitationId se = i → ses_visitorOwnerUserId se = u → ses_hostUserId se = h → ses_state se = S_preparing → ses_roomCapacity se = 3 →
      create_row participant_clash hk hp (k_par c) ≫= create_row participant_clash ok op =
        Some (<[ok := op]> (<[hk := hp]> (k_par c))) →
      par_sessionId hp = s → par_userId hp = h → par_role hp = R_host → par_state hp = P_preparing →
      par_sessionId op = s → par_userId op = u → par_role op = R_visitor → par_state op = P_preparing →
      micro (c, ts) (mkCore (<[i := r']> (k_inv c)) (<[s := se]> (k_ses c)) (<[h := w]> (<[u := v']> (k_res c)))
                      (<[ok := op]> (<[hk := hp]> (k_par c))) (k_join c), ts)
  | mi_session c ts s se se' :
      k_ses c !! s = Some se → same_session se se' → forward (ses_state se) (ses_state se') = true →
      micro (c, ts) (c <| k_ses := <[s := se']> (k_ses c) |>, ts)
  | mi_terminate c ts s se se' :
      k_ses c !! s = Some se → same_session se se' → live (ses_state se) = true → live (ses_state se') = false →
      micro (c, ts) (c <| k_ses := <[s := se']> (k_ses c) |>, RelSes s :: ts)
  | mi_release_session c ts ts' s :
      (∀ se, k_ses c !! s = Some se → live (ses_state se) = false) →
      drops (eq (RelSes s)) ts ts' →
      micro (c, ts) (c <| k_res := delete_many (λ _ v, res_sessionId v == Some s) (k_res c) |>, ts')
  | mi_leave_all c ts s f :
      (∀ se, k_ses c !! s = Some se → live (ses_state se) = false) →
      (∀ q, same_participant q (f q) ∧ par_state (f q) = P_left) →
      micro (c, ts) (c <| k_par := update_many (λ _ q, (par_sessionId q == s) && present q) f (k_par c) |>, ts)
  | mi_participants c ts p f :
      (∀ k q, k_par c !! k = Some q → p q = true → same_participant q (f q) ∧ par_state (f q) ≠ P_left ∧
         (par_state q ≠ P_left ∨ (par_role q = R_visitor ∧ ∃ se, k_ses c !! par_sessionId q = Some se ∧ ses_state se = S_preparing))) →
      micro (c, ts) (c <| k_par := update_many (λ _ q, p q) f (k_par c) |>, ts)
  | mi_leave_one c ts k q q' se :
      k_par c !! k = Some q → same_participant q q' → par_state q' = P_left →
      k_ses c !! par_sessionId q = Some se → ses_hostUserId se ≠ par_userId q →
      micro (c, ts) (c <| k_par := <[k := q']> (k_par c) |>
                       <| k_res := delete_many (λ u v, (u == par_userId q) && (res_sessionId v == Some (par_sessionId q))) (k_res c) |>, ts)
  | mi_join_request c ts k j u v se :
      k_join c !! k = None → jr_status j = J_pending → jr_requesterUserId j = u → k_ses c !! jr_sessionId j = Some se →
      live (ses_state se) = true →
      k_res c !! u = None → asking (jr_sessionId j) k v →
      micro (c, ts) (c <| k_join := <[k := j]> (k_join c) |> <| k_res := <[u := v]> (k_res c) |>, ts)
  | mi_close_join c ts k j j' :
      k_join c !! k = Some j → jr_status j = J_pending → jr_status j' ≠ J_pending → same_join j j' →
      micro (c, ts) (c <| k_join := <[k := j']> (k_join c) |>, RelJoin k :: ts)
  | mi_release_join c ts ts' k j :
      k_join c !! k = Some j → jr_status j ≠ J_pending → drops (eq (RelJoin k)) ts ts' →
      micro (c, ts) (c <| k_res := delete_many (λ u v, (u == jr_requesterUserId j) && (res_joinRequestId v == Some k)) (k_res c) |>, ts')
  | mi_join_accept c ts k j j' pk p u v v' se :
      k_join c !! k = Some j → jr_status j = J_pending → jr_status j' = J_accepted → same_join j j' →
      jr_requesterUserId j = u → k_ses c !! jr_sessionId j = Some se → ses_state se ∈ [S_ready; S_active] →
      k_res c !! u = Some v → res_kind v = K_join_request → res_joinRequestId v = Some k → in_session (jr_sessionId j) v' →
      create_row participant_clash pk p (k_par c) = Some (<[pk := p]> (k_par c)) →
      par_sessionId p = jr_sessionId j → par_userId p = u → par_role p = R_guest → par_state p = P_preparing →
      Z.of_nat (present_count (jr_sessionId j) (k_par c)) < ses_roomCapacity se →
      micro (c, ts) (c <| k_join := <[k := j']> (k_join c) |> <| k_par := <[pk := p]> (k_par c) |> <| k_res := <[u := v']> (k_res c) |>, ts).

(** ** The agreement of the tables *)

(** A reservation is justified by a pending invitation of its user, by their
    place in a live session or by their pending join request - or its deletion
    is already under way. *)
Definition justified (c : Core) (ts : list Task) (u : rowid) (v : Reservation) : Prop :=
  (∃ i r, outgoing i v ∧ k_inv c !! i = Some r ∧ inv_visitorOwnerUserId r = u ∧ (inv_status r = I_pending ∨ RelInv i ∈ ts)) ∨
  (∃ s se k q, in_session s v ∧ k_ses c !! s = Some se ∧ k_par c !! k = Some q ∧ par_sessionId q = s ∧ par_userId q = u ∧
     ((live (ses_state se) = true ∧ par_state q ≠ P_left) ∨ RelSes s ∈ ts)) ∨
  (∃ s se k j, asking s k v ∧ k_ses c !! s = Some se ∧ k_join c !! k = Some j ∧ jr_sessionId j = s ∧ jr_requesterUserId j = u ∧
     ((live (ses_state se) = true ∧ jr_status j = J_pending) ∨ RelSes s ∈ ts ∨ RelJoin k ∈ ts)).

Record VisitInv (cfg : Config) : Prop := {
  vi_justified u v : k_res cfg.1 !! u = Some v → justified cfg.1 cfg.2 u v;
  vi_invited i r : k_inv cfg.1 !! i = Some r → inv_status r = I_pending →
    ∃ v, k_res cfg.1 !! inv_visitorOwnerUserId r = Some v ∧ outgoing i v;
  vi_distinct i r : k_inv cfg.1 !! i = Some r → inv_hostUserId r ≠ inv_visitorOwnerUserId r;
  vi_seated k q se : k_par cfg.1 !! k = Some q → par_state q ≠ P_left → par_role q ≠ R_visitor →
    k_ses cfg.1 !! par_sessionId q = Some se → live (ses_state se) = true →
    ∃ v, k_res cfg.1 !! par_userId q = Some v ∧ in_session (par_sessionId q) v;
  vi_unique k1 q1 k2 q2 : k_par cfg.1 !! k1 = Some q1 → k_par cfg.1 !! k2 = Some q2 →
    par_sessionId q1 = par_sessionId q2 → par_userId q1 = par_userId q2 → k1 = k2;
  vi_one_session s1 se1 s2 se2 : k_ses cfg.1 !! s1 = Some se1 → k_ses cfg.1 !! s2 = Some se2 →
    ses_invitationId se1 = ses_invitationId se2 → s1 = s2;
  vi_host s se : k_ses cfg.1 !! s = Some se →
    ∃ k q, k_par cfg.1 !! k = Some q ∧ par_sessionId q = s ∧ par_userId q = ses_hostUserId se ∧ par_role q = R_host ∧
      (live (ses_state se) = true → par_state q ≠ P_left);
  vi_owner s se : k_ses cfg.1 !! s = Some se →
    ses_visitorOwnerUserId se ≠ ses_hostUserId se ∧
    ∃ k q, k_par cfg.1 !! k = Some q ∧ par_sessionId q = s ∧ par_userId q = ses_visitorOwnerUserId se ∧ par_role q = R_visitor;
  vi_session k q : k_par cfg.1 !! k = Some q → is_Some (k_ses cfg.1 !! par_sessionId q);
  vi_visitor k q se : k_par cfg.1 !! k = Some q → k_ses cfg.1 !! par_sessionId q = Some se →
    par_role q = R_visitor → par_userId q = ses_visitorOwnerUserId se;
  vi_preparing k q se : k_par cfg.1 !! k = Some q → k_ses cfg.1 !! par_sessionId q = Some se → ses_state se = S_preparing →
    par_userId q ∈ [ses_hostUserId se; ses_visitorOwnerUserId se];
  vi_capacity s se : k_ses cfg.1 !! s = Some se →
    2 ≤ ses_roomCapacity se ∧ Z.of_nat (present_count s (k_par cfg.1)) ≤ ses_roomCapacity se;
}.

(** ** Lemmas *)

Lemma outgoing_not_in_session i s v : outgoing i v → in_session s v → False.
Proof. intros (? & _) (? & _). congruence. Qed.
Lemma outgoing_not_asking i s k v : outgoing i v → asking s k v → False.
Proof. intros (? & _) (? & _). congruence. Qed.
Lemma in_session_not_asking s s' k v : in_session s v → asking s' k v → False.
Proof. intros (? & _) (? & _). congruence. Qed.
Lemma outgoing_inj i i' v : outgoing i v → outgoing i' v → i = i'.
Proof. intros (_ & ? & _) (_ & ? & _). congruence. Qed.
Lemma in_session_inj s s' v : in_session s v → in_session s' v → s = s'.
Proof. intros (_ & _ & ? & _) (_ & _ & ? & _). congruence. Qed.

Lemma forward_live a b : forward a b = true → live b = live a.
Proof. unfold forward. rewrite orb_true_iff, !bool_decide_eq_true, !elem_of_cons, elem_of_nil. destruct a, b; naive_solver. Qed.
Lemma forward_preparing a b : forward a b = true → b = S_preparing → a = S_preparing.
Proof. unfold forward. rewrite orb_true_iff, !bool_decide_eq_true, !elem_of_cons, elem_of_nil. destruct a, b; naive_solver. Qed.
Lemma not_live_preparing a : live a = false → a ≠ S_preparing.
Proof. by destruct a. Qed.

Ltac lookup_inv :=
  repeat match goal with
  | H : <[_ := _]> _ !! _ = Some _ |- _ => apply lookup_insert_Some in H as [[? ?]|[? ?]]
  | H : update_many _ _ _ !! _ = Some _ |- _ => apply lookup_update_many_Some in H as (? & ? & ?)
  | H : delete_many _ _ !! _ = Some _ |- _ => apply lookup_delete_many_Some in H as [? ?]
  end; simplify_eq.

(** The row of an updated table, before the update. *)
Lemma par_update_old (p : Participant → bool) f (m : gmap rowid Participant) k q' :
  update_many (λ _ q, p q) f m !! k = Some q' → ∃ q, m !! k = Some q ∧ ((p q = true ∧ q' = f q) ∨ (p q = false ∧ q' = q)).
Proof. intros (q & Hk & ->)%lookup_update_many_Some. exists q. destruct (p q); auto. Qed.

Lemma par_update_new (p : Participant → bool) f (m : gmap rowid Participant) k q :
  m !! k = Some q → update_many (λ _ q, p q) f m !! k = Some (if p q then f q else q).
Proof. intros Hk. apply lookup_update_many_Some. eauto. Qed.

(** A count of rows with pairwise distinct users among [l] is at most the
    length of [l]. *)
Lemma count_users_le (p : Participant → bool) (m : gmap rowid Participant) (l : list rowid) :
  (∀ k1 q1 k2 q2, m !! k1 = Some q1 → m !! k2 = Some q2 → p q1 = true → p q2 = true → par_userId q1 = par_userId q2 → k1 = k2) →
  (∀ k q, m !! k = Some q → p q = true → par_userId q ∈ l) →
  (count_where (λ _ q, p q) m ≤ length l)%nat.
Proof. apply (count_where_inj_le (λ _ q, p q) par_userId). Qed.

Lemma present_count_le s m m' :
  (∀ k q', m' !! k = Some q' → par_sessionId q' = s → present q' = true →
     ∃ q, m !! k = Some q ∧ par_sessionId q = s ∧ present q = true) →
  (present_count s m' ≤ present_count s m)%nat.
Proof.
  intros Hsub. apply count_where_le. intros k q' Hk Hp. apply andb_true_iff in Hp as [Hs Hp].
  apply bool_decide_eq_true in Hs. destruct (Hsub k q' Hk Hs Hp) as (q & ? & ? & ?).
  exists q. split; [done|]. apply andb_true_iff. split; [by apply bool_decide_eq_true|done].
Qed.

Lemma present_true q : present q = true ↔ par_state q ≠ P_left.
Proof. unfold present. by rewrite negb_true_iff, bool_decide_eq_false. Qed.

(** [justified] only needs the rows it names, up to what never changes. *)
Lemma justified_mono c ts c' ts' u v :
  justified c ts u v →
  (∀ i r, outgoing i v → k_inv c !! i = Some r → inv_visitorOwnerUserId r = u → inv_status r = I_pending ∨ RelInv i ∈ ts →
     ∃ r', k_inv c' !! i = Some r' ∧ inv_visitorOwnerUserId r' = u ∧ (inv_status r' = I_pending ∨ RelInv i ∈ ts')) →
  (∀ s se k q, in_session s v → k_ses c !! s = Some se → k_par c !! k = Some q → par_sessionId q = s → par_userId q = u →
     (live (ses_state se) = true ∧ par_state q ≠ P_left) ∨ RelSes s ∈ ts →
     ∃ se' q', k_ses c' !! s = Some se' ∧ k_par c' !! k = Some q' ∧ par_sessionId q' = s ∧ par_userId q' = u ∧
       ((live (ses_state se') = true ∧ par_state q' ≠ P_left) ∨ RelSes s ∈ ts')) →
  (∀ s se k j, asking s k v → k_ses c !! s = Some se → k_join c !! k = Some j → jr_sessionId j = s → jr_requesterUserId j = u →
     (live (ses_state se) = true ∧ jr_status j = J_pending) ∨ RelSes s ∈ ts ∨ RelJoin k ∈ ts →
     ∃ se' j', k_ses c' !! s = Some se' ∧ k_join c' !! k = Some j' ∧ jr_sessionId j' = s ∧ jr_requesterUserId j' = u ∧
       ((live (ses_state se') = true ∧ jr_status j' = J_pending) ∨ RelSes s ∈ ts' ∨ RelJoin k ∈ ts')) →
  justified c' ts' u v.
Proof.
  intros [(i & r & ? & ? & ? & ?)|[(s & se & k & q & ? & ? & ? & ? & ? & ?)|(s & se & k & j & ? & ? & ? & ? & ? & ?)]] M1 M2 M3.
  - left. destruct (M1 i r) as (r' & ? & ? & ?); eauto 10.
  - right; left. destruct (M2 s se k q) as (se' & q' & ? & ? & ? & ? & ?); eauto 15.
  - right; right. destruct (M3 s se k j) as (se' & j' & ? & ? & ? & ? & ?); eauto 15.
Qed.

(** Reservations that survive a deletion keep their justification, if the
    dropped tasks were those of the deleted ones. *)
Lemma justified_release c ts ts' (p : rowid → Reservation → bool) (done : Task → Prop) u v :
  justified c ts u v → drops done ts ts' → p u v = false →
  (∀ i, done (RelInv i) → outgoing i v → p u v = true) →
  (∀ s, done (RelSes s) → res_sessionId v = Some s → p u v = true) →
  (∀ s k j, done (RelJoin k) → asking s k v → k_join c !! k = Some j → jr_requesterUserId j = u → p u v = true) →
  justified (c <| k_res := delete_many p (k_res c) |>) ts' u v.
Proof.
  intros Hj [Hd _] Hp D1 D2 D3. eapply justified_mono; [exact Hj|..]; simpl.
  - intros i r Ho Hi Hu [?|Hin]; [eauto 10|]. destruct (Hd _ Hin) as [Hdone|?]; [|eauto 10].
    rewrite (D1 i Hdone Ho) in Hp. done.
  - intros s se k q Hs Hse Hk ?? [?|Hin]; [eauto 10|]. destruct (Hd _ Hin) as [Hdone|?]; [|eauto 10].
    rewrite (D2 s Hdone) in Hp; [done|by destruct Hs as (_ & _ & ? & _)].
  - intros s se k j Ha Hse Hk ? Hu [?|[Hin|Hin]]; [eauto 15| |]; (destruct (Hd _ Hin) as [Hdone|?]; [|eauto 15]).
    + rewrite (D2 s Hdone) in Hp; [done|by destruct Ha as (_ & _ & ? & _)].
    + rewrite (D3 s k j Hdone Ha Hk Hu) in Hp. done.
Qed.

Lemma inv_invite c ts i r u v :
  VisitInv (c, ts) → k_inv c !! i = None → inv_status r = I_pending → inv_visitorOwnerUserId r = u → inv_hostUserId r ≠ u →
  k_res c !! u = None → outgoing i v →
  VisitInv (c <| k_inv := <[i := r]> (k_inv c) |> <| k_res := <[u := v]> (k_res c) |>, ts).
Proof.
  intros Hinv Hi Hp Hu Hne Hres Hout. destruct Hinv; simpl in *. split; simpl; eauto.
  - intros u' v' Hv. lookup_inv.
    + left. exists i, r. simpl. rewrite lookup_insert_eq. auto.
    + eapply justified_mono; [by eauto|..]; simpl; [|eauto 10..].
      intros i' r' ? Hi' ? ?. exists r'. rewrite lookup_insert_ne by naive_solver. auto.
  - intros i' r' Hr' Hp'. lookup_inv.
    + exists v. by rewrite lookup_insert_eq.
    + edestruct vi_invited0 as (v' & Hv' & ?); [done..|]. exists v'. split; [|done].
      rewrite lookup_insert_ne; [done|congruence].
  - intros i' r' Hr'. lookup_inv; [done|eauto].
  - intros k q se Hk Hq Hr Hse Hl. edestruct vi_seated0 as (v' & Hv' & ?); [done..|].
    exists v'. rewrite lookup_insert_ne; [done|congruence].
Qed.

Lemma inv_close_invitations c ts (X : list rowid) f :
  VisitInv (c, ts) → (∀ r, inv_status (f r) ≠ I_pending ∧ same_invitation r (f r)) →
  VisitInv (c <| k_inv := update_many (λ k r, bool_decide (k ∈ X) && (inv_status r == I_pending)) f (k_inv c) |>, (RelInv <$> X) ++ ts).
Proof.
  intros Hinv Hf. destruct Hinv; simpl in *. split; simpl; eauto.
  - intros u v Hv. eapply justified_mono; [by eauto|..]; simpl.
    + intros i r Ho Hi Hu Hst. rewrite lookup_update_many, Hi. simpl. eexists. split; [done|].
      destruct (bool_decide (i ∈ X)) eqn:Ex, (inv_status r == I_pending) eqn:Ep; simpl; bool_inv.
      * destruct (Hf r) as [_ [-> _]]. split; [done|]. right. apply elem_of_app. left. by apply list_elem_of_fmap_2.
      * split; [done|]. destruct Hst; [done|]. right. apply elem_of_app. auto.
      * auto.
      * split; [done|]. destruct Hst; [done|]. right. apply elem_of_app. auto.
    + intros s se k q ?????[?|?]; exists se, q; split_and!; auto. right. apply elem_of_app. auto.
    + intros s se k j ?????[?|[?|?]]; exists se, j; split_and!; auto; right; rewrite !elem_of_app; auto.
  - intros i r' (r & Hi & ->)%lookup_update_many_Some Hp.
    destruct (_ && _); [by destruct (Hf r)|eauto].
  - intros i r' (r & Hi & ->)%lookup_update_many_Some.
    destruct (_ && _); [|eauto]. destruct (Hf r) as [_ [-> ->]]. eauto.
Qed.

Lemma inv_release_invitations c ts ts' (X : list rowid) p :
  VisitInv (c, ts) → (∀ i r, i ∈ X → k_inv c !! i = Some r → inv_status r ≠ I_pending) →
  (∀ u v, k_res c !! u = Some v → p u v = true ↔ ∃ i, i ∈ X ∧ res_invitationId v = Some i) →
  drops (λ t, ∃ i, i ∈ X ∧ t = RelInv i) ts ts' →
  VisitInv (c <| k_res := delete_many p (k_res c) |>, ts').
Proof.
  intros Hinv HX Hp Hd. destruct Hinv; simpl in *. split; simpl; eauto.
  - intros u v [Hv Hpv]%lookup_delete_many_Some. eapply justified_release; eauto.
    + intros i (i' & Hi' & [= <-]) Ho. apply (Hp u v Hv). exists i. split; [done|]. by destruct Ho as (_ & ? & _).
    + naive_solver.
    + naive_solver.
  - intros i r Hi Hst. edestruct vi_invited0 as (v & Hv & Ho); [done..|]. exists v. split; [|done].
    apply lookup_delete_many_Some. split; [done|]. apply not_true_iff_false. rewrite (Hp _ _ Hv).
    intros (i' & Hi' & Heq). destruct Ho as (_ & Heq' & _). rewrite Heq' in Heq. injection Heq as ->. by eapply HX.
  - intros k q se Hk Hq Hr Hse Hl. edestruct vi_seated0 as (v & Hv & Hs); [done..|]. exists v. split; [|done].
    apply lookup_delete_many_Some. split; [done|]. apply not_true_iff_false. rewrite (Hp _ _ Hv).
    intros (i' & _ & Heq). destruct Hs as (_ & ? & _). congruence.
Qed.

Lemma inv_session c ts s se se' :
  VisitInv (c, ts) → k_ses c !! s = Some se → same_session se se' → forward (ses_state se) (ses_state se') = true →
  VisitInv (c <| k_ses := <[s := se']> (k_ses c) |>, ts).
Proof.
  intros Hinv Hs (E1 & E2 & E3 & E4) Hf. pose proof (forward_live _ _ Hf) as Hlive.
  pose proof (forward_preparing _ _ Hf) as Hprep. destruct Hinv; simpl in *. split; simpl; eauto.
  - intros u v Hv. eapply justified_mono; [by eauto|..]; simpl; [eauto 10|..].
    + intros s' se0 k q ? Hs' ????. destruct (decide (s' = s)) as [->|].
      * rewrite lookup_insert_eq. simplify_eq. exists se', q. rewrite Hlive. auto 10.
      * rewrite lookup_insert_ne by done. eauto 10.
    + intros s' se0 k j ? Hs' ????. destruct (decide (s' = s)) as [->|].
      * rewrite lookup_insert_eq. simplify_eq. exists se', j. rewrite Hlive. auto 10.
      * rewrite lookup_insert_ne by done. eauto 10.
  - intros k q se0 Hk Hq Hr Hse Hl. lookup_inv; [|eauto]. rewrite Hlive in Hl. eauto.
  - intros s1 se1 s2 se2 H1 H2 Heq. lookup_inv; try done; eauto; rewrite E1 in *; [|symmetry]; eauto.
  - intros s' se0 Hse. lookup_inv; [|eauto]. rewrite E3, Hlive. eauto.
  - intros s' se0 Hse. lookup_inv; [|eauto]. rewrite E2, E3. eauto.
  - intros k q Hk. apply vi_session0 in Hk as [se0 Hk]. destruct (decide (par_sessionId q = s)) as [->|].
    + rewrite lookup_insert_eq. eauto.
    + rewrite lookup_insert_ne by done. eauto.
  - intros k q se0 Hk Hse Hr. lookup_inv; [|eauto]. rewrite E2. eauto.
  - intros k q se0 Hk Hse Hst. lookup_inv; [|eauto]. rewrite E2, E3. eauto.
  - intros s' se0 Hse. lookup_inv; [|eauto]. rewrite E4. eauto.
Qed.

Lemma inv_terminate c ts s se se' :
  VisitInv (c, ts) → k_ses c !! s = Some se → same_session se se' → live (ses_state se') = false →
  VisitInv (c <| k_ses := <[s := se']> (k_ses c) |>, RelSes s :: ts).
Proof.
  intros Hinv Hs (E1 & E2 & E3 & E4) Hdead. destruct Hinv; simpl in *. split; simpl; eauto.
  - intros u v Hv. eapply justified_mono; [by eauto|..]; simpl.
    + intros i r ???[?|?]; exists r; split_and!; auto. right. apply elem_of_cons. auto.
    + intros s' se0 k q ? Hs' ??? Hj. destruct (decide (s' = s)) as [->|].
      * rewrite lookup_insert_eq. exists se', q. split_and!; auto. right. apply elem_of_cons. auto.
      * rewrite lookup_insert_ne by done. exists se0, q. split_and!; auto. rewrite elem_of_cons. naive_solver.
    + intros s' se0 k j ? Hs' ??? Hj. destruct (decide (s' = s)) as [->|].
      * rewrite lookup_insert_eq. exists se', j. split_and!; auto. right. left. apply elem_of_cons. auto.
      * rewrite lookup_insert_ne by done. exists se0, j. split_and!; auto. rewrite !elem_of_cons. naive_solver.
  - intros k q se0 Hk Hq Hr Hse Hl. lookup_inv; [congruence|eauto].
  - intros s1 se1 s2 se2 H1 H2 Heq. lookup_inv; try done; eauto; rewrite E1 in *; [|symmetry]; eauto.
  - intros s' se0 Hse. lookup_inv; [|eauto]. rewrite E3, Hdead. destruct (vi_host0 _ _ Hs) as (k & q & ? & ? & ? & ? & _). eauto 10.
  - intros s' se0 Hse. lookup_inv; [|eauto]. rewrite E2, E3. eauto.
  - intros k q Hk. apply vi_session0 in Hk as [se0 Hk]. destruct (decide (par_sessionId q = s)) as [->|].
    + rewrite lookup_insert_eq. eauto.
    + rewrite lookup_insert_ne by done. eauto.
  - intros k q se0 Hk Hse Hr. lookup_inv; [|eauto]. rewrite E2. eauto.
  - intros k q se0 Hk Hse Hst. lookup_inv; [by apply not_live_preparing in Hdead|eauto].
  - intros s' se0 Hse. lookup_inv; [|eauto]. rewrite E4. eauto.
Qed.

Lemma inv_release_session c ts ts' s :
  VisitInv (c, ts) → (∀ se, k_ses c !! s = Some se → live (ses_state se) = false) → drops (eq (RelSes s)) ts ts' →
  VisitInv (c <| k_res := delete_many (λ _ v, res_sessionId v == Some s) (k_res c) |>, ts').
Proof.
  intros Hinv Hdead Hd. destruct Hinv; simpl in *. split; simpl; eauto.
  - intros u v [Hv Hpv]%lookup_delete_many_Some. eapply (justified_release _ _ _ (λ _ v, res_sessionId v == Some s)); eauto.
    + naive_solver.
    + intros s' [= <-] Hs'. by apply bool_decide_eq_true.
    + naive_solver.
  - intros i r Hi Hst. edestruct vi_invited0 as (v & Hv & Ho); [done..|]. exists v. split; [|done].
    apply lookup_delete_many_Some. split; [done|]. apply bool_decide_eq_false. destruct Ho as (_ & _ & -> & _). done.
  - intros k q se Hk Hq Hr Hse Hl. edestruct vi_seated0 as (v & Hv & Hs); [done..|]. exists v. split; [|done].
    apply lookup_delete_many_Some. split; [done|]. apply bool_decide_eq_false. destruct Hs as (_ & _ & -> & _).
    intros [= Heq]. rewrite Heq in Hse. apply Hdead in Hse. congruence.
Qed.

(** Participants evolve in place: the fields that identify a row stay, so only
    the facts about states and reservations have to be shown again. *)
Lemma inv_par_evolves c ts m' r' :
  VisitInv (c, ts) →
  (∀ k q', m' !! k = Some q' → ∃ q, k_par c !! k = Some q ∧ same_participant q q') →
  (∀ k q, k_par c !! k = Some q → ∃ q', m' !! k = Some q' ∧ same_participant q q') →
  let c' := c <| k_par := m' |> <| k_res := r' |> in
  (∀ u v, r' !! u = Some v → justified c' ts u v) →
  (∀ i r v, k_inv c !! i = Some r → inv_status r = I_pending → k_res c !! inv_visitorOwnerUserId r = Some v → outgoing i v →
     r' !! inv_visitorOwnerUserId r = Some v) →
  (∀ k q' se, m' !! k = Some q' → par_state q' ≠ P_left → par_role q' ≠ R_visitor →
    k_ses c !! par_sessionId q' = Some se → live (ses_state se) = true →
    ∃ v, r' !! par_userId q' = Some v ∧ in_session (par_sessionId q') v) →
  (∀ s se k q q', k_ses c !! s = Some se → live (ses_state se) = true → k_par c !! k = Some q → m' !! k = Some q' →
     par_sessionId q = s → par_userId q = ses_hostUserId se → par_state q ≠ P_left → par_state q' ≠ P_left) →
  (∀ s se, k_ses c !! s = Some se → Z.of_nat (present_count s m') ≤ ses_roomCapacity se) →
  VisitInv (c', ts).
Proof.
  intros Hinv Hold Hnew c' Hj Hi Hseat Hhost Hcap. destruct Hinv; simpl in *. split; simpl; eauto.
  - intros i r Hr Hp. edestruct vi_invited0 as (v & ? & ?); eauto.
  - intros k1 q1 k2 q2 (q & ? & Es & Eu & _)%Hold (q' & ? & Es' & Eu' & _)%Hold ??. eapply (vi_unique0 k1 q k2 q'); congruence.
  - intros s se Hse. destruct (vi_host0 s se Hse) as (k & q & Hk & Es & Eu & Er & Hl).
    destruct (Hnew _ _ Hk) as (q' & Hk' & Es' & Eu' & _ & Er'). exists k, q'. split_and!; try congruence. intros. by eapply Hhost; eauto.
  - intros s se Hse. destruct (vi_owner0 s se Hse) as (? & k & q & Hk & Es & Eu & Er). split; [done|].
    destruct (Hnew _ _ Hk) as (q' & Hk' & Es' & Eu' & _ & Er'). exists k, q'. split_and!; congruence.
  - intros k q' (q & Hk & -> & _)%Hold. eauto.
  - intros k q' se (q & Hk & -> & -> & _ & ->)%Hold. eauto.
  - intros k q' se (q & Hk & -> & -> & _ & _)%Hold. eauto.
  - intros s se Hse. split; [exact (proj1 (vi_capacity0 _ _ Hse))|eauto].
Qed.

Lemma inv_leave_all c ts s f :
  VisitInv (c, ts) → (∀ se, k_ses c !! s = Some se → live (ses_state se) = false) →
  (∀ q, same_participant q (f q) ∧ par_state (f q) = P_left) →
  VisitInv (c <| k_par := update_many (λ _ q, (par_sessionId q == s) && present q) f (k_par c) |>, ts).
Proof.
  intros Hinv Hdead Hf. set (p := λ q, (par_sessionId q == s) && present q).
  assert (∀ q, p q = true → par_sessionId q = s) as Hp by (intros q Hq; unfold p in Hq; by bool_inv).
  apply (inv_par_evolves c ts (update_many (λ _ q, p q) f (k_par c)) (k_res c) Hinv); destruct Hinv; simpl in *; eauto.
  - intros k q' (q & Hk & [[_ ->]|[_ ->]])%par_update_old; exists q; (split; [done|]); [by destruct (Hf q)|done].
  - intros k q Hk. eexists. split; [by apply par_update_new|]. destruct (p q); [by destruct (Hf q)|done].
  - intros u v Hv. eapply justified_mono; [by eauto|..]; simpl; [by eauto 10| |by eauto 15].
    intros s' se k q Hs' Hse Hk ?? Hj. exists se, (if p q then f q else q).
    split_and!; [done|by apply par_update_new|destruct (p q) eqn:Eq..].
    + by destruct (Hf q) as [(-> & _) _].
    + done.
    + by destruct (Hf q) as [(_ & -> & _) _].
    + done.
    + apply Hp in Eq. destruct Hj as [[Hl _]|]; [|auto]. rewrite (Hdead se) in Hl by congruence. done.
    + auto.
  - intros k q' se (q & Hk & [[Hq ->]|[_ ->]])%par_update_old Hl; [|eauto]. by destruct (Hf q).
  - intros s' se k q q' Hse Hl Hk (q0 & Hk0 & [[Hq ->]|[_ ->]])%par_update_old; simplify_eq; [|done].
    apply Hp in Hq. intros <-. rewrite Hq in Hse. rewrite (Hdead _ Hse) in Hl. done.
  - intros s' se Hse. etrans; [|exact (proj2 (vi_capacity0 _ _ Hse))]. apply inj_le, present_count_le.
    intros k q' (q & Hk & [[Hq ->]|[_ ->]])%par_update_old ? Hl; [|eauto]. apply present_true in Hl. by destruct (Hf q).
Qed.

Lemma inv_participants c ts p f :
  VisitInv (c, ts) →
  (∀ k q, k_par c !! k = Some q → p q = true → same_participant q (f q) ∧ par_state (f q) ≠ P_left ∧
     (par_state q ≠ P_left ∨ (par_role q = R_visitor ∧ ∃ se, k_ses c !! par_sessionId q = Some se ∧ ses_state se = S_preparing))) →
  VisitInv (c <| k_par := update_many (λ _ q, p q) f (k_par c) |>, ts).
Proof.
  intros Hinv Hf.
  apply (inv_par_evolves c ts (update_many (λ _ q, p q) f (k_par c)) (k_res c) Hinv); destruct Hinv; simpl in *; eauto.
  - intros k q' (q & Hk & [[Hp ->]|[_ ->]])%par_update_old; exists q; (split; [done|]); [by destruct (Hf k q)|done].
  - intros k q Hk. eexists. split; [by apply par_update_new|]. destruct (p q) eqn:Hp; [by destruct (Hf k q)|done].
  - intros u v Hv. eapply justified_mono; [by eauto|..]; simpl; [by eauto 10| |by eauto 15].
    intros s' se k q Hs' Hse Hk ?? Hj. exists se, (if p q then f q else q).
    assert (if p q then same_participant q (f q) ∧ par_state (f q) ≠ P_left else True) as Hq
      by (destruct (p q) eqn:Hp; [by destruct (Hf k q Hk Hp) as (? & ? & _)|done]).
    split_and!; [done|by apply par_update_new|..]; destruct (p q); try done.
    + by destruct Hq as [(-> & _) _].
    + by destruct Hq as [(_ & -> & _) _].
    + destruct Hj as [[Hl _]|]; [|auto]. left. by destruct Hq.
  - intros k q' se (q & Hk & [[Hq ->]|[_ ->]])%par_update_old; [|eauto].
    destruct (Hf k q Hk Hq) as ((-> & -> & _ & ->) & _ & [Hl|[Hv _]]); [eauto|done].
  - intros s' se k q q' Hse Hl Hk (q0 & Hk0 & [[Hq ->]|[_ ->]])%par_update_old; simplify_eq; [|done].
    by destruct (Hf _ _ Hk Hq) as (_ & ? & _).
  - intros s se Hse. destruct (vi_capacity0 s se Hse) as [H2 Hc]. destruct (decide (ses_state se = S_preparing)) as [Hprep|Hprep].
    + etrans; [|exact H2]. change 2 with (Z.of_nat (length [ses_hostUserId se; ses_visitorOwnerUserId se])).
      apply inj_le, count_users_le.
      * intros k1 q1 k2 q2 H1 H2' [E1 _]%andb_true_iff [E2 _]%andb_true_iff Eu. bool_inv.
        apply par_update_old in H1 as (p1 & K1 & C1), H2' as (p2 & K2 & C2).
        assert (same_participant p1 q1) as (? & ? & _) by (destruct C1 as [[X ->]|[_ ->]]; [by destruct (Hf _ _ K1 X)|done]).
        assert (same_participant p2 q2) as (? & ? & _) by (destruct C2 as [[X ->]|[_ ->]]; [by destruct (Hf _ _ K2 X)|done]).
        eapply (vi_unique0 k1 p1 k2 p2); congruence.
      * intros k q (q0 & K & C)%par_update_old [E _]%andb_true_iff. bool_inv.
        assert (same_participant q0 q) as (Es & -> & _) by (destruct C as [[X ->]|[_ ->]]; [by destruct (Hf _ _ K X)|done]).
        eapply (vi_preparing0 k q0); congruence.
    + etrans; [|exact Hc]. apply inj_le, present_count_le.
      intros k q' (q & Hk & [[Hq ->]|[_ ->]])%par_update_old Hs Hl; [|eauto].
      destruct (Hf k q Hk Hq) as ((Es & _) & _ & [Hpr|(_ & se' & Hse' & Hp)]).
      * exists q. rewrite present_true. split_and!; congruence.
      * rewrite Es in Hs. rewrite Hs in Hse'. congruence.
Qed.

Lemma inv_leave_one c ts k q q' se :
  VisitInv (c, ts) → k_par c !! k = Some q → same_participant q q' → par_state q' = P_left →
  k_ses c !! par_sessionId q = Some se → ses_hostUserId se ≠ par_userId q →
  VisitInv (c <| k_par := <[k := q']> (k_par c) |>
              <| k_res := delete_many (λ u v, (u == par_userId q) && (res_sessionId v == Some (par_sessionId q))) (k_res c) |>, ts).
Proof.
  intros Hinv Hk Hsame Hleft Hse Hnh.
  assert (∀ u v, delete_many (λ u v, (u == par_userId q) && (res_sessionId v == Some (par_sessionId q))) (k_res c) !! u = Some v →
            k_res c !! u = Some v ∧ (u = par_userId q → ¬ in_session (par_sessionId q) v)) as Hdel.
  { intros u v [? E]%lookup_delete_many_Some. split; [done|]. intros -> (_ & _ & Es & _). rewrite Es in E.
    apply andb_false_iff in E as [E|E]; by apply bool_decide_eq_false in E. }
  apply (inv_par_evolves c ts _ _ Hinv); destruct Hinv; simpl in *.
  - intros k' p' Hk'. lookup_inv; [eauto|]. by exists p'.
  - intros k' p Hk'. destruct (decide (k' = k)) as [->|]; [rewrite lookup_insert_eq; simplify_eq; eauto|].
    rewrite lookup_insert_ne by done. by exists p.
  - intros u v [Hv Hns]%Hdel. eapply justified_mono; [by eauto|..]; simpl; [by eauto 10| |by eauto 15].
    intros s' se' k' p Hs' Hse' Hk' Es Eu Hj. destruct (decide (k' = k)) as [->|].
    + simplify_eq. by destruct (Hns eq_refl).
    + exists se', p. rewrite lookup_insert_ne by done. done.
  - intros i r v Hi Hp Hv Ho. apply lookup_delete_many_Some. split; [done|].
    destruct Ho as (_ & _ & -> & _). by rewrite andb_false_r.
  - intros k' p se' Hk' Hl Hr Hse' Hlive. lookup_inv.
    edestruct vi_seated0 as (v & Hv & Hs); [done..|]. exists v. split; [|done].
    apply lookup_delete_many_Some. split; [done|]. apply andb_false_iff.
    destruct (decide (par_userId p = par_userId q)) as [E|]; [right|left; by apply bool_decide_eq_false].
    apply bool_decide_eq_false. destruct Hs as (_ & _ & -> & _). intros [= E']. by destruct (vi_unique0 k' p k q).
  - intros s' se' k' p p' Hse' Hl Hk' Hp' Es Eu. lookup_inv; congruence.
  - intros s' se' Hse'. etrans; [|exact (proj2 (vi_capacity0 _ _ Hse'))]. apply inj_le, present_count_le.
    intros k' p Hk' ? Hpr. lookup_inv; [|eauto]. by apply present_true in Hpr.
Qed.

Lemma inv_join_request c ts k j u v se :
  VisitInv (c, ts) → k_join c !! k = None → jr_status j = J_pending → jr_requesterUserId j = u →
  k_ses c !! jr_sessionId j = Some se → live (ses_state se) = true → k_res c !! u = None → asking (jr_sessionId j) k v →
  VisitInv (c <| k_join := <[k := j]> (k_join c) |> <| k_res := <[u := v]> (k_res c) |>, ts).
Proof.
  intros Hinv Hk Hst Hu Hse Hl Hres Ha. destruct Hinv; simpl in *. split; simpl; eauto.
  - intros u' v' Hv. lookup_inv.
    + right; right. exists (jr_sessionId j), se, k, j. simpl. rewrite lookup_insert_eq. auto 10.
    + eapply justified_mono; [by eauto|..]; simpl; [by eauto 10|by eauto 10|].
      intros s' se' k' j' ?? Hj' ???. exists se', j'. rewrite lookup_insert_ne by congruence. done.
  - intros i r Hr Hp. edestruct vi_invited0 as (v' & Hv' & ?); [done..|]. exists v'. split; [|done].
    rewrite lookup_insert_ne; [done|congruence].
  - intros k' q se' Hk' Hq Hr Hse' Hl'. edestruct vi_seated0 as (v' & Hv' & ?); [done..|].
    exists v'. rewrite lookup_insert_ne; [done|congruence].
Qed.

Lemma inv_close_join c ts k j j' :
  VisitInv (c, ts) → k_join c !! k = Some j → same_join j j' →
  VisitInv (c <| k_join := <[k := j']> (k_join c) |>, RelJoin k :: ts).
Proof.
  intros Hinv Hk (Es & Eu). destruct Hinv; simpl in *. split; simpl; eauto.
  intros u v Hv. eapply justified_mono; [by eauto|..]; simpl.
  - intros i r ????. exists r. rewrite elem_of_cons. naive_solver.
  - intros s se k' q ?????[?|?]; exists se, q; rewrite elem_of_cons; naive_solver.
  - intros s se k' j0 ?? Hj ?? Hc. destruct (decide (k' = k)) as [->|].
    + simplify_eq. exists se, j'. rewrite lookup_insert_eq. split_and!; try done. right. right. apply elem_of_cons. auto.
    + exists se, j0. rewrite lookup_insert_ne, !elem_of_cons by done. naive_solver.
Qed.

Lemma inv_release_join c ts ts' k j :
  VisitInv (c, ts) → k_join c !! k = Some j → jr_status j ≠ J_pending → drops (eq (RelJoin k)) ts ts' →
  VisitInv (c <| k_res := delete_many (λ u v, (u == jr_requesterUserId j) && (res_joinRequestId v == Some k)) (k_res c) |>, ts').
Proof.
  intros Hinv Hk Hst Hd. destruct Hinv; simpl in *.
  assert (∀ u v, k_res c !! u = Some v → res_joinRequestId v = None →
    delete_many (λ u v, (u == jr_requesterUserId j) && (res_joinRequestId v == Some k)) (k_res c) !! u = Some v) as Hkeep.
  { intros u v Hv E. apply lookup_delete_many_Some. split; [done|]. rewrite E. by rewrite andb_false_r. }
  split; simpl; eauto.
  - intros u v [Hv Hpv]%lookup_delete_many_Some.
    eapply (justified_release _ _ _ (λ u v, (u == jr_requesterUserId j) && (res_joinRequestId v == Some k))); eauto.
    + naive_solver.
    + naive_solver.
    + intros s k' j0 [= <-] (_ & _ & _ & E) ? Hu. simplify_eq. rewrite E.
      apply andb_true_iff. split; by apply bool_decide_eq_true.
  - intros i r Hi Hp. edestruct vi_invited0 as (v & Hv & Ho); [done..|]. exists v. split; [|done].
    apply Hkeep; [done|]. by destruct Ho as (_ & _ & _ & ?).
  - intros k' q se Hk' Hq Hr Hse Hl. edestruct vi_seated0 as (v & Hv & Ho); [done..|]. exists v. split; [|done].
    apply Hkeep; [done|]. by destruct Ho as (_ & _ & _ & ?).
Qed.

Lemma participant_clash_false p q :
  participant_clash p q = false → par_sessionId p = par_sessionId q → par_userId p ≠ par_userId q.
Proof.
  unfold participant_clash. intros Hc Es Eu.
  rewrite (bool_decide_eq_true_2 _ Es), (bool_decide_eq_true_2 _ Eu) in Hc. done.
Qed.

Lemma inv_join_accept c ts k j j' pk p u v v' se :
  VisitInv (c, ts) → k_join c !! k = Some j → jr_status j' = J_accepted → same_join j j' →
  jr_requesterUserId j = u → k_ses c !! jr_sessionId j = Some se → ses_state se ∈ [S_ready; S_active] →
  k_res c !! u = Some v → res_kind v = K_join_request → res_joinRequestId v = Some k → in_session (jr_sessionId j) v' →
  create_row participant_clash pk p (k_par c) = Some (<[pk := p]> (k_par c)) →
  par_sessionId p = jr_sessionId j → par_userId p = u → par_role p = R_guest → par_state p = P_preparing →
  Z.of_nat (present_count (jr_sessionId j) (k_par c)) < ses_roomCapacity se →
  VisitInv (c <| k_join := <[k := j']> (k_join c) |> <| k_par := <[pk := p]> (k_par c) |> <| k_res := <[u := v']> (k_res c) |>, ts).
Proof.
  intros Hinv Hk Hst (Ejs & Eju) Hu Hse Hlive Hv Hkind Hjid Hs' (Hpk & Hclash & _)%create_row_Some Eps Epu Epr Epst Hcap.
  assert (live (ses_state se) = true) as Hl by (rewrite !elem_of_cons, elem_of_nil in Hlive; by destruct Hlive as [->|[->|[]]]).
  destruct Hinv; simpl in *. split; simpl; eauto.
  - intros u' v0 Hv0. lookup_inv.
    + right; left. exists (jr_sessionId j), se, pk, p. simpl. rewrite lookup_insert_eq, Epst. split_and!; auto.
    + eapply justified_mono; [by eauto|..]; simpl; [by eauto 10|..].
      * intros s0 se0 k0 q0 ?? Hk0 ???. exists se0, q0. rewrite lookup_insert_ne by congruence. done.
      * intros s0 se0 k0 j0 ?? Hj0 ???. exists se0, j0. rewrite lookup_insert_ne by congruence. done.
  - intros i r Hr Hp. edestruct vi_invited0 as (v0 & Hv0 & Ho); [done..|]. exists v0. split; [|done].
    rewrite lookup_insert_ne; [done|]. intros E. destruct Ho as (Ek & _). rewrite <- E in Hv0. congruence.
  - intros k' q se' Hk' Hq Hr Hse' Hl'. lookup_inv.
    + exists v'. by rewrite Epu, lookup_insert_eq, Eps.
    + edestruct vi_seated0 as (v0 & Hv0 & Ho); [done..|]. exists v0. split; [|done].
      rewrite lookup_insert_ne; [done|]. intros E. destruct Ho as (Ek & _). rewrite <- E in Hv0. congruence.
  - intros k1 q1 k2 q2 H1 H2 Es Eu. lookup_inv; try done.
    1-2: exfalso; eapply participant_clash_false; [by eapply Hclash|congruence|congruence].
    eauto.
  - intros s se0 Hs. destruct (vi_host0 s se0 Hs) as (k0 & q & Hk0 & ?). exists k0, q. rewrite lookup_insert_ne by congruence. done.
  - intros s se0 Hs. destruct (vi_owner0 s se0 Hs) as (? & k0 & q & Hk0 & ?). split; [done|].
    exists k0, q. rewrite lookup_insert_ne by congruence. done.
  - intros k0 q Hk0. lookup_inv; [|eauto]. rewrite Eps. eauto.
  - intros k0 q se0 Hk0 Hse0 Hr. lookup_inv; [congruence|eauto].
  - intros k0 q se0 Hk0 Hse0 Hpr. lookup_inv; [|eauto]. rewrite Eps, Hse in Hse0. simplify_eq. rewrite Hpr in Hlive.
    by apply elem_of_cons in Hlive as [?|[?|?%elem_of_nil]%elem_of_cons].
  - intros s se0 Hs. destruct (vi_capacity0 s se0 Hs) as [? Hc]. split; [done|].
    unfold present_count in *. rewrite count_where_insert by done. rewrite Eps.
    destruct (jr_sessionId j == s) eqn:E; simpl; bool_inv; [|done].
    simplify_eq. destruct (present p); lia.
Qed.

Lemma inv_accept c ts i r r' s se hk hp ok op u v v' h w :
  VisitInv (c, ts) → k_inv c !! i = Some r → inv_status r' = I_accepted → same_invitation r r' →
  inv_visitorOwnerUserId r = u → inv_hostUserId r = h → u ≠ h →
  k_res c !! u = Some v → outgoing i v → in_session s v' → k_res c !! h = None → in_session s w →
  k_ses c !! s = None → (∀ s' se', k_ses c !! s' = Some se' → ses_invitationId se' ≠ i) →
  ses_invitationId se = i → ses_visitorOwnerUserId se = u → ses_hostUserId se = h → ses_state se = S_preparing → ses_roomCapacity se = 3 →
  create_row participant_clash hk hp (k_par c) ≫= create_row participant_clash ok op =
    Some (<[ok := op]> (<[hk := hp]> (k_par c))) →
  par_sessionId hp = s → par_userId hp = h → par_role hp = R_host → par_state hp = P_preparing →
  par_sessionId op = s → par_userId op = u → par_role op = R_visitor → par_state op = P_preparing →
  VisitInv (mkCore (<[i := r']> (k_inv c)) (<[s := se]> (k_ses c)) (<[h := w]> (<[u := v']> (k_res c)))
                  (<[ok := op]> (<[hk := hp]> (k_par c))) (k_join c), ts).
Proof.
  intros Hinv Hi Hst (Eu & Eh) Hu Hh Huh Hv Ho Hv' Hnone Hw Hs Hfresh Ei Eou Ehu Est Ecap Hcr Es1 Eu1 Er1 Ep1 Es2 Eu2 Er2 Ep2.
  destruct (create_row participant_clash hk hp (k_par c)) as [m|] eqn:Hc1; [|done]. simpl in Hcr.
  apply create_row_Some in Hc1 as (Hhk & Hcl1 & ->), Hcr as (Hok & Hcl2 & _).
  assert (hk ≠ ok) as Hne by (intros ->; by rewrite lookup_insert_eq in Hok).
  rewrite lookup_insert_ne in Hok by done.
  destruct Hinv; simpl in *.
  assert (∀ k q, k_par c !! k = Some q → par_sessionId q ≠ s) as Hold.
  { intros k q [? Hse]%vi_session0 E. rewrite E in Hse. congruence. }
  set (m := <[ok := op]> (<[hk := hp]> (k_par c))).
  assert (m !! ok = Some op) as Mok by (unfold m; by rewrite lookup_insert_eq).
  assert (m !! hk = Some hp) as Mhk by (unfold m; by rewrite lookup_insert_ne, lookup_insert_eq).
  assert (∀ k q, k_par c !! k = Some q → m !! k = Some q) as Mold
    by (intros; unfold m; rewrite !lookup_insert_ne by congruence; done).
  assert (∀ k q, m !! k = Some q → (k = ok ∧ q = op) ∨ (k = hk ∧ q = hp) ∨ (k_par c !! k = Some q ∧ par_sessionId q ≠ s)) as Mcase.
  { unfold m. intros k q Hk. lookup_inv; eauto 10. }
  clearbody m. split; simpl.
  - intros u0 v0 Hv0. apply lookup_insert_Some in Hv0 as [[<- <-]|[Hn Hv0]]; [|apply lookup_insert_Some in Hv0 as [[<- <-]|[Hn' Hv0]]].
    + right; left. exists s, se, hk, hp. simpl. rewrite lookup_insert_eq, Ep1, Est. split_and!; auto.
    + right; left. exists s, se, ok, op. simpl. rewrite lookup_insert_eq, Ep2, Est. split_and!; auto.
    + eapply justified_mono; [by eauto|..]; simpl.
      * intros i0 r0 ????. exists r0. rewrite lookup_insert_ne by congruence. done.
      * intros s0 se0 k0 q0 ??????. exists se0, q0. rewrite lookup_insert_ne by congruence. auto.
      * intros s0 se0 k0 j0 ??????. exists se0, j0. rewrite lookup_insert_ne by congruence. auto.
  - intros i0 r0 Hi0 Hp0. apply lookup_insert_Some in Hi0 as [[<- <-]|[Hn Hi0]]; [congruence|].
    edestruct vi_invited0 as (v0 & Hv0 & Ho0); [done..|]. exists v0. split; [|done].
    rewrite !lookup_insert_ne; [done|..].
    + intros E. rewrite <- E in Hv0. simplify_eq. by apply Hn, (outgoing_inj _ _ v).
    + congruence.
  - intros i0 r0 Hi0. apply lookup_insert_Some in Hi0 as [[<- <-]|[Hn Hi0]]; [rewrite Eu, Eh|]; eauto.
  - intros k0 q se0 Hk0 Hq Hr Hse Hl. destruct (Mcase _ _ Hk0) as [[-> ->]|[[-> ->]|[Hk0' Hns]]]; [congruence|..].
    + exists w. by rewrite Eu1, lookup_insert_eq, Es1.
    + rewrite lookup_insert_ne in Hse by done. edestruct vi_seated0 as (v0 & Hv0 & Ho0); [done..|]. exists v0. split; [|done].
      rewrite !lookup_insert_ne; [done|..].
      * intros E. rewrite <- E in Hv0. simplify_eq. by eapply outgoing_not_in_session.
      * congruence.
  - intros k1 q1 k2 q2 H1 H2 Es Eq.
    destruct (Mcase _ _ H1) as [[-> ->]|[[-> ->]|[? ?]]], (Mcase _ _ H2) as [[-> ->]|[[-> ->]|[? ?]]]; try congruence. eauto.
  - intros s1 se1 s2 se2 H1 H2 Eq. lookup_inv; try done; eauto; exfalso; eapply Hfresh; eauto.
  - intros s0 se0 Hse0. apply lookup_insert_Some in Hse0 as [[<- <-]|[Hn Hse0]].
    + exists hk, hp. split_and!; congruence.
    + destruct (vi_host0 _ _ Hse0) as (k0 & q & ? & ?). eauto 10.
  - intros s0 se0 Hse0. apply lookup_insert_Some in Hse0 as [[<- <-]|[Hn Hse0]].
    + split; [congruence|]. exists ok, op. split_and!; congruence.
    + destruct (vi_owner0 _ _ Hse0) as (? & k0 & q & ? & ?). eauto 10.
  - intros k0 q Hk0. destruct (Mcase _ _ Hk0) as [[-> ->]|[[-> ->]|[? ?]]]; rewrite ?Es1, ?Es2, ?lookup_insert_eq by done; eauto.
    rewrite lookup_insert_ne by done. eauto.
  - intros k0 q se0 Hk0 Hse0 Hr. destruct (Mcase _ _ Hk0) as [[-> ->]|[[-> ->]|[? ?]]]; [|congruence|].
    + rewrite Es2, lookup_insert_eq in Hse0. congruence.
    + rewrite lookup_insert_ne in Hse0 by done. eauto.
  - intros k0 q se0 Hk0 Hse0 Hpr. destruct (Mcase _ _ Hk0) as [[-> ->]|[[-> ->]|[? ?]]].
    + rewrite Es2, lookup_insert_eq in Hse0. simplify_eq. rewrite Eou, Eu2. apply elem_of_cons. right. apply elem_of_cons. auto.
    + rewrite Es1, lookup_insert_eq in Hse0. simplify_eq. rewrite Ehu, Eu1. apply elem_of_cons. auto.
    + rewrite lookup_insert_ne in Hse0 by done. eauto.
  - intros s0 se0 Hse0. apply lookup_insert_Some in Hse0 as [[<- <-]|[Hn Hse0]].
    + rewrite Ecap. split; [lia|]. etrans; [|by apply (Z.le_succ_diag_r 2)].
      change 2 with (Z.of_nat (length [h; u])). apply inj_le, count_users_le.
      * intros k1 q1 k2 q2 H1 H2 [E1 _]%andb_true_iff [E2 _]%andb_true_iff Eq. bool_inv.
        destruct (Mcase _ _ H1) as [[-> ->]|[[-> ->]|[? ?]]], (Mcase _ _ H2) as [[-> ->]|[[-> ->]|[? ?]]]; congruence.
      * intros k q Hk [E _]%andb_true_iff. bool_inv. rewrite !elem_of_cons.
        destruct (Mcase _ _ Hk) as [[-> ->]|[[-> ->]|[? ?]]]; [auto|auto|done].
    + split; [exact (proj1 (vi_capacity0 _ _ Hse0))|]. etrans; [|exact (proj2 (vi_capacity0 _ _ Hse0))]. apply inj_le, present_count_le.
      intros k q Hk Hks Hp. destruct (Mcase _ _ Hk) as [[-> ->]|[[-> ->]|[? ?]]]; [congruence..|eauto].
Qed.

(** ** The agreement is preserved *)

Lemma micro_inv cfg cfg' : micro cfg cfg' → VisitInv cfg → VisitInv cfg'.
Proof.
  intros [] Hinv.
  - eapply inv_invite; eauto.
  - by eapply inv_close_invitations.
  - by eapply inv_release_invitations.
  - eapply (inv_accept c ts i r r' s se hk hp ok op u v v' h w); eauto.
  - by eapply inv_session.
  - by eapply inv_terminate.
  - by eapply inv_release_session.
  - by eapply inv_leave_all.
  - by eapply inv_participants.
  - by eapply inv_leave_one.
  - by eapply inv_join_request.
  - by eapply inv_close_join.
  - by eapply inv_release_join.
  - by eapply (inv_join_accept c ts k j j' pk p u v v' se).
Qed.

Lemma micros_inv cfg cfg' : rtc micro cfg cfg' → VisitInv cfg → VisitInv cfg'.
Proof. induction 1; eauto using micro_inv. Qed.

(** ** Rows only move forward *)

Definition rank (a : SessionState) : nat :=
  match a with S_preparing => 0 | S_ready => 1 | S_active => 2 | S_ending => 3 | _ => 4 end.

Record evolves (c c' : Core) : Prop := {
  ev_invitation i r : k_inv c !! i = Some r →
    ∃ r', k_inv c' !! i = Some r' ∧ same_invitation r r' ∧ (inv_status r' = inv_status r ∨ inv_status r = I_pending);
  ev_session s se : k_ses c !! s = Some se →
    ∃ se', k_ses c' !! s = Some se' ∧ same_session se se' ∧
      (ses_state se' = ses_state se ∨ (live (ses_state se) = true ∧ (rank (ses_state se) < rank (ses_state se'))%nat));
  ev_join k j : k_join c !! k = Some j →
    ∃ j', k_join c' !! k = Some j' ∧ same_join j j' ∧ (jr_status j' = jr_status j ∨ jr_status j = J_pending);
}.

#[export] Instance evolves_preorder : PreOrder evolves.
Proof.
  split.
  - intros c. split; intros k r Hk; exists r; (split; [done|]); split; unfold same_invitation, same_session, same_join; auto.
  - intros c1 c2 c3 [I1 S1 J1] [I2 S2 J2]. split.
    + intros i r (r' & (r'' & ? & [] & C2)%I2 & [] & C1)%I1. exists r''. unfold same_invitation. split_and!; [done|congruence..|].
      destruct C1 as [E|]; [|auto]. rewrite <- E. done.
    + intros s se (se' & (se'' & ? & (?&?&?&?) & C2)%S2 & (?&?&?&?) & C1)%S1. exists se''. unfold same_session.
      split_and!; try congruence. destruct C1 as [E|[Hl Hr]]; [by rewrite <- E|]. right. split; [done|].
      destruct C2 as [E'|[Hl' Hr']]; [by rewrite E'|lia].
    + intros i r (r' & (r'' & ? & [] & C2)%J2 & [] & C1)%J1. exists r''. unfold same_join. split_and!; [done|congruence..|].
      destruct C1 as [E|]; [|auto]. rewrite <- E. done.
Qed.

Lemma forward_rank a b : forward a b = true → b = a ∨ (live a = true ∧ (rank a < rank b)%nat).
Proof.
  unfold forward. rewrite orb_true_iff, !bool_decide_eq_true, !elem_of_cons, elem_of_nil.
  destruct a, b; naive_solver (by vm_compute; lia).
Qed.
Lemma rank_dead a b : live a = true → live b = false → (rank a < rank b)%nat.
Proof. destruct a, b; try done; simpl; lia. Qed.

(** Only the tables an action writes can change. *)
Lemma evolves_insert c c' :
  (∀ i r, k_inv c !! i = Some r → ∃ r', k_inv c' !! i = Some r' ∧ same_invitation r r' ∧ (inv_status r' = inv_status r ∨ inv_status r = I_pending)) →
  (∀ s se, k_ses c !! s = Some se → ∃ se', k_ses c' !! s = Some se' ∧ same_session se se' ∧
      (ses_state se' = ses_state se ∨ (live (ses_state se) = true ∧ (rank (ses_state se) < rank (ses_state se'))%nat))) →
  (∀ k j, k_join c !! k = Some j → ∃ j', k_join c' !! k = Some j' ∧ same_join j j' ∧ (jr_status j' = jr_status j ∨ jr_status j = J_pending)) →
  evolves c c'.
Proof. by split. Qed.

(** A row that was inserted or rewritten is found again. *)
Lemma lookup_insert_cases {A} (m : gmap rowid A) k x i r (P : A → Prop) :
  m !! i = Some r → P r → (∀ r0, m !! k = Some r0 → i = k → P x) → ∃ r', <[k := x]> m !! i = Some r' ∧ P r'.
Proof.
  intros Hi Hr Hx. destruct (decide (i = k)) as [->|].
  - exists x. rewrite lookup_insert_eq. eauto.
  - exists r. by rewrite lookup_insert_ne.
Qed.

Lemma micro_evolves cfg cfg' : micro cfg cfg' → evolves cfg.1 cfg'.1.
Proof.
  intros [].
  all: apply evolves_insert; simpl; intros k0 r0 Hk0;
    try (exists r0; split; [exact Hk0|]; unfold same_invitation, same_session, same_join; by auto 10).
  - apply (lookup_insert_cases _ _ _ _ r0); [done|unfold same_invitation; auto|congruence].
  - rewrite lookup_update_many, Hk0. simpl. eexists. split; [done|].
    destruct (_ && _) eqn:E; [|unfold same_invitation; auto]. bool_inv. split; [by apply H|auto].
  - apply (lookup_insert_cases _ _ _ _ r0); [done|unfold same_invitation; auto|]. intros. simplify_eq. auto.
  - apply (lookup_insert_cases _ _ _ _ r0); [done|unfold same_session; auto|]. intros. simplify_eq.
  - apply (lookup_insert_cases _ _ _ _ r0); [done|unfold same_session; auto|]. intros. simplify_eq. auto using forward_rank.
  - apply (lookup_insert_cases _ _ _ _ r0); [done|unfold same_session; auto|]. intros. simplify_eq. auto using rank_dead.
  - apply (lookup_insert_cases _ _ _ _ r0); [done|unfold same_join; auto|]. congruence.
  - apply (lookup_insert_cases _ _ _ _ r0); [done|unfold same_join; auto|]. intros. simplify_eq. auto.
  - apply (lookup_insert_cases _ _ _ _ r0); [done|unfold same_join; auto|]. intros. simplify_eq. auto.
Qed.

Lemma micros_evolve cfg cfg' : rtc micro cfg cfg' → evolves cfg.1 cfg'.1.
Proof. induction 1 as [|c1 c2 c3 H _ IH]; [done|]. etrans; [by apply micro_evolves|done]. Qed.
