(* ===== verification/VisitRoom.v ===== *)
(** * The visit room service ([visit/visit-room.service.ts])

    Rooms are live sessions with more than the two first participants: a third
    companion asks to join ([VisitJoinRequest]), the host decides.  The
    requester reserves themself with the request, as an inviter does with an
    invitation. *)

From S2P Require Import Prelude Tables JsText Json Schema Interfaces Config AssetManifest Visit.
Local Open Scope Z_scope.

Definition room_error (code : string) : exc := ConflictException code.
Definition joinable (st : SessionState) : bool := bool_decide (st ∈ [S_ready; S_active]).

(** [assertEligible] of the rooms: the same query, another refusal. *)
Definition assertRoomEligible (first second : rowid) : Tx DB unit :=
  b ← gets (eligible first second); require b (room_error "VISIT_ROOM_NOT_AVAILABLE").

(** [loadCurrentSnapshot]: unlike the visit service's, an account that asked to
    be deleted is refused here. *)
Definition loadCurrentSnapshot (ownerId : rowid) : DB → option Snapshot :=
  current_snapshot user_open ownerId.

Definition create_join_request (k : rowid) (r : JoinRequest) : Tx DB unit :=
  modify_or (λ d, m ← create_row join_clash k r (db_joinRequests d); Some (d <| db_joinRequests := m |>))
    (P2002 "sessionId_requesterUserId_status").

(** ** Views *)

Record ReservationView := mkReservationView {
  rv_kind : ReservationKind; rv_networkCompanionId : rowid; rv_invitationId : option rowid; rv_sessionId : option rowid;
  rv_joinRequestId : option rowid; rv_expiresAt : option instant; rv_createdAt : instant; rv_updatedAt : instant;
}.
(** [getReservation]: [None] is [{ locked: false }]. *)
Definition getReservation (userId : rowid) (d : DB) : option ReservationView :=
  r ← db_reservations d !! userId;
  Some (mkReservationView (res_kind r) (res_networkCompanionId r) (res_invitationId r) (res_sessionId r) (res_joinRequestId r)
    (res_expiresAt r) (res_createdAt r) (res_updatedAt r)).

Record ParticipantView := mkParticipantView {
  pv_id : rowid; pv_sessionId : rowid; pv_userId : rowid; pv_networkCompanionId : rowid; pv_companionName : option text;
  pv_assetPackId : rowid; pv_role : ParticipantRole; pv_state : ParticipantState; pv_readyAt : option instant; pv_seenAt : option instant;
  pv_joinedAt : instant; pv_leftAt : option instant; pv_createdAt : instant; pv_updatedAt : instant;
}.
Definition companion_name (id : rowid) (d : DB) : option text := co_name <$> db_companions d !! id.
Definition participantSummary (d : DB) (kp : rowid * Participant) : ParticipantView :=
  let p := kp.2 in
  mkParticipantView kp.1 (par_sessionId p) (par_userId p) (par_networkCompanionId p) (companion_name (par_networkCompanionId p) d)
    (par_assetPackSnapshotId p) (par_role p) (par_state p) (par_readyAt p) (par_seenAt p) (par_joinedAt p) (par_leftAt p)
    (par_createdAt p) (par_updatedAt p).

(** [topicSummary]: the row, its source address only within its scope. *)
Definition topicSummary (kt : rowid * RoomTopic) : rowid * RoomTopic :=
  (kt.1, kt.2 <| rt_sourceUrl := if rt_shareScope kt.2 == summary_and_source then rt_sourceUrl kt.2 else None |>).

(** [joinSummary] *)
Record JoinView := mkJoinView {
  jv_id : rowid; jv_sessionId : rowid; jv_requesterUserId : rowid; jv_networkCompanionId : rowid; jv_companionName : option text;
  jv_assetPackId : rowid; jv_status : JoinStatus; jv_topic : option TopicView; jv_topicSourceUrl : option text;
  jv_expiresAt : instant; jv_respondedAt : option instant; jv_cancelledAt : option instant; jv_createdAt : instant; jv_updatedAt : instant;
}.
Definition joinSummary (d : DB) (kr : rowid * JoinRequest) : JoinView :=
  let r := kr.2 in
  mkJoinView kr.1 (jr_sessionId r) (jr_requesterUserId r) (jr_networkCompanionId r) (companion_name (jr_networkCompanionId r) d)
    (jr_assetPackSnapshotId r) (jr_status r) (topic_view (jr_topic r)) (tc_sourceUrl (jr_topic r))
    (jr_expiresAt r) (jr_respondedAt r) (jr_cancelledAt r) (jr_createdAt r) (jr_updatedAt r).

Definition joined_order (a b : rowid * Participant) : bool :=
  (par_joinedAt a.2 <? par_joinedAt b.2)
  || ((par_joinedAt a.2 =? par_joinedAt b.2) && bool_decide (String.compare a.1 b.1 ≠ Gt)).

Section operations.
Context `{!ScanOrder}.

(** The participants a room still has. *)
Definition present_participants (sessionId : rowid) (d : DB) : list (rowid * Participant) :=
  find_many (λ _ p, (par_sessionId p == sessionId) && (par_state p != P_left)) (db_participants d).

Record RoomView := mkRoomView {
  rm_sessionId : rowid; rm_state : SessionState; rm_hostUserId : rowid; rm_hostUsername : option text;
  rm_hostNetworkCompanionId : option rowid; rm_hostCompanionName : option text; rm_roomCapacity : Z; rm_participantCount : nat;
  rm_currentTopicSequence : Z; rm_participants : list (rowid * rowid * option text * ParticipantRole);
  rm_activeTopic : option (rowid * RoomTopic); rm_updatedAt : instant;
}.

(** [listJoinableRooms] *)
Definition room_candidates (userId : rowid) (d : DB) : list (rowid * Session) :=
  take 20 (find_many_by
    (λ k s, joinable (ses_state s)
       && match ses_hostNetworkCompanionId s ≫= λ c, db_companions d !! c with Some c => co_allowJoinRequests c | None => false end
       && negb (present_in userId k d))
    (λ a b, ses_updatedAt b.2 <=? ses_updatedAt a.2) (db_sessions d)).

Definition welcome (userId : rowid) (d : DB) (ks : rowid * Session) : bool :=
  let present := present_participants ks.1 d in
  (Z.of_nat (length present) <? ses_roomCapacity ks.2)
  && forallb (λ kp, (par_userId kp.2 == userId)
       || (bool_decide ((userId, par_userId kp.2) ∈ db_friendships d) && negb (blocked_between userId (par_userId kp.2) d))) present.

Definition room_view (d : DB) (ks : rowid * Session) : RoomView :=
  let present := sort_by joined_order (present_participants ks.1 d) in
  mkRoomView ks.1 (ses_state ks.2) (ses_hostUserId ks.2) (u_username <$> db_users d !! ses_hostUserId ks.2)
    (ses_hostNetworkCompanionId ks.2) (ses_hostNetworkCompanionId ks.2 ≫= λ c, companion_name c d)
    (ses_roomCapacity ks.2) (length present) (ses_currentTopicSequence ks.2)
    ((λ kp, (par_userId kp.2, par_networkCompanionId kp.2, companion_name (par_networkCompanionId kp.2) d, par_role kp.2)) <$> present)
    (topicSummary <$> head (find_many_by (λ _ t, (rt_sessionId t == ks.1) && (rt_state t == T_active))
       (λ a b, rt_sequence a.2 <=? rt_sequence b.2) (db_roomTopics d)))
    (ses_updatedAt ks.2).

Definition listJoinableRooms (userId : rowid) (d : DB) : list RoomView :=
  if is_set (db_reservations d !! userId) then [] else
  let sessions := room_candidates userId d in
  let peerIds := filter (λ p, p ≠ userId) (sessions ≫= λ ks, (λ kp, par_userId kp.2) <$> present_participants ks.1 d) in
  match peerIds with
  | [] => []
  | _ => room_view d <$> filter (λ ks, welcome userId d ks = true) sessions
  end.

(** [requireParticipant] *)
Definition requireParticipant (userId sessionId : rowid) (states : list ParticipantState) : Act World (rowid * Participant) :=
  found ← query (find_participant sessionId userId);
  participant ← act_require_some found (ForbiddenException "VISIT_SESSION_NOT_PARTICIPANT");
  act_require (bool_decide (par_state participant.2 ∈ states)) (ForbiddenException "VISIT_SESSION_NOT_PARTICIPANT") ;;
  mret participant.

Record RoomState := mkRoomState {
  rs_session : rowid * Session; rs_participants : list ParticipantView; rs_topics : list (rowid * RoomTopic);
  rs_activeTopic : option (rowid * RoomTopic); rs_pendingJoinRequests : list JoinView;
}.

Definition getRoom (userId sessionId : rowid) : Act World RoomState :=
  requireParticipant userId sessionId [P_preparing; P_ready; P_active; P_left] ;;
  found ← query (λ d, db_sessions d !! sessionId);
  participants ← query (λ d, participantSummary d <$> find_many_by (λ _ p, par_sessionId p == sessionId) joined_order (db_participants d));
  topics ← query (λ d, find_many_by (λ _ t, rt_sessionId t == sessionId) (λ a b, rt_sequence a.2 <=? rt_sequence b.2) (db_roomTopics d));
  joinRequests ← query (λ d, joinSummary d <$> find_many_by (λ _ r, (jr_sessionId r == sessionId) && (jr_status r == J_pending))
                               (λ a b, jr_createdAt a.2 <=? jr_createdAt b.2) (db_joinRequests d));
  session ← act_require_some found (NotFoundException "VISIT_SESSION_NOT_FOUND");
  mret (mkRoomState (sessionId, session) participants (topicSummary <$> topics)
          (topicSummary <$> head (filter (λ kt, rt_state kt.2 = T_active) topics)) joinRequests).

(** [publishRoom] *)
Definition publishRoom (sessionId : rowid) (event : string) (payload : list (string * json)) : Act World unit :=
  participants ← query (present_users sessionId);
  act_for participants (λ u, publishToUser u event (("sessionId", JStr (lit sessionId)) :: payload)).

(** [resolveOwnedTopic] *)
Definition resolveOwnedTopic (userId companionId topicId : rowid) (now : instant) : Tx DB TopicColumns :=
  topic ← gets (λ d, find_first (λ k t, (k == topicId) && topic_usable companionId now t) (db_shareableTopics d));
  t ← require_some topic (room_error "VISIT_TOPIC_NOT_AVAILABLE");
  mret (topicSnapshot t.1 t.2 userId).

Definition createJoinRequest_tx (userId sessionId : rowid) (topicId : option rowid) (newId : rowid) (now : instant) : Tx DB (rowid * JoinRequest) :=
  found ← gets (λ d, db_sessions d !! sessionId);
  session ← require_some found (room_error "VISIT_ROOM_NOT_JOINABLE");
  require (joinable (ses_state session)) (room_error "VISIT_ROOM_NOT_JOINABLE") ;;
  present ← gets (present_participants sessionId);
  require (negb (existsb (λ kp, par_userId kp.2 == userId) present)) (room_error "VISIT_ROOM_ALREADY_PARTICIPANT") ;;
  require (Z.of_nat (length present) <? ses_roomCapacity session) (room_error "VISIT_ROOM_CAPACITY_REACHED") ;;
  assertNoReservation userId ;;
  allows ← gets (λ d, match ses_hostNetworkCompanionId session ≫= λ c, db_companions d !! c with
                      | Some c => co_allowJoinRequests c | None => false end);
  require allows (room_error "VISIT_JOIN_REQUESTS_DISABLED") ;;
  tx_for present (λ kp, assertRoomEligible userId (par_userId kp.2)) ;;
  current ← gets (loadCurrentSnapshot userId);
  snapshot ← require_some current (room_error "VISIT_PARTICIPANT_UNAVAILABLE");
  require (supportsVisualVisit (pk_manifest (sn_pack snapshot))) (room_error "VISIT_PARTICIPANT_UNAVAILABLE") ;;
  require (negb (existsb (λ kp, par_networkCompanionId kp.2 == sn_companionId snapshot) present)) (room_error "VISIT_ROOM_COMPANION_DUPLICATE") ;;
  existing ← gets (λ d, exists_where (λ _ r, (jr_sessionId r == sessionId) && (jr_requesterUserId r == userId)
                          && (jr_status r == J_pending) && (now <? jr_expiresAt r)) (db_joinRequests d));
  require (negb existing) (room_error "VISIT_JOIN_REQUEST_EXISTS") ;;
  topic ← (if truthy_id topicId then resolveOwnedTopic userId (sn_companionId snapshot) (default "" topicId) now else mret no_topic);
  let expiresAt := now + 2 * 60 * 60000 in
  let created := mkJoinRequest sessionId userId (sn_companionId snapshot) (sn_packId snapshot) (Some (sn_packId snapshot))
                   J_pending topic expiresAt None None now now in
  create_join_request newId created ;;
  create_reservation userId (mkReservation (sn_companionId snapshot) K_join_request None (Some sessionId) (Some newId) (Some expiresAt) now now) ;;
  mret (newId, created).

Definition createJoinRequest (userId sessionId : rowid) (topicId : option rowid) (newId : rowid) (now : instant) : Act World JoinView :=
  request ← transaction (createJoinRequest_tx userId sessionId topicId newId now);
  publishRoom (jr_sessionId request.2) "visit.join_request.created" [("joinRequestId", JStr (lit request.1))] ;;
  view ← query (λ d, joinSummary d request);
  mret view.

Definition listJoinRequests (userId sessionId : rowid) : Act World (list JoinView) :=
  requireParticipant userId sessionId [P_preparing; P_ready; P_active] ;;
  requests ← query (λ d, joinSummary d <$> find_many_by (λ _ r, jr_sessionId r == sessionId)
                           (λ a b, jr_createdAt b.2 <=? jr_createdAt a.2) (db_joinRequests d));
  mret requests.

(** [visitRoomTopic.aggregate({ _max: { sequence } })], 0 for no topic *)
Definition max_sequence (sessionId : rowid) (d : DB) : Z :=
  foldr (λ kt acc, if rt_sessionId kt.2 == sessionId then Z.max (rt_sequence kt.2) acc else acc) 0 (map_to_list (db_roomTopics d)).

(** The topic a requester brings waits in the queue. *)
Definition queue_topic (request : JoinRequest) (sessionId topicRowId : rowid) (now : instant) : Tx DB unit :=
  let t := jr_topic request in
  match tc_title t, tc_summary t, tc_createdByUserId t, tc_ownerCompanionId t with
  | Some title, Some summary, Some createdByUserId, Some ownerCompanionId =>
      if truthy title && truthy summary && truthy_id (Some createdByUserId) && truthy_id (Some ownerCompanionId) then
        last ← gets (max_sequence sessionId);
        create_room_topic topicRowId
          (mkRoomTopic sessionId (last + 1) T_queued ownerCompanionId createdByUserId title summary (tc_tags t)
             (if tc_shareScope t == Some summary_and_source then tc_sourceUrl t else None)
             (default summary_only (tc_shareScope t)) (tc_allowRecipientSave t) 3 6 None None now now)
      else mret ()
  | _, _, _, _ => mret ()
  end.

Inductive JoinResult :=
  | JR_unchanged (sessionId : rowid)
  | JR_accepted (sessionId : rowid) (participant : rowid * Participant).

Definition acceptJoinRequest_tx (hostUserId joinRequestId participantId topicRowId : rowid) (now : instant) : Tx DB JoinResult :=
  found ← gets (λ d, db_joinRequests d !! joinRequestId);
  request ← require_some found (NotFoundException "VISIT_JOIN_REQUEST_NOT_FOUND");
  let sessionId := jr_sessionId request in
  found_session ← gets (λ d, db_sessions d !! sessionId);
  session ← require_some found_session (NotFoundException "VISIT_JOIN_REQUEST_NOT_FOUND");
  present ← gets (present_participants sessionId);
  require (ses_hostUserId session == hostUserId) (ForbiddenException "VISIT_JOIN_REQUEST_NOT_HOST") ;;
  if jr_status request == J_accepted then mret (JR_unchanged sessionId) else
  require (jr_status request == J_pending) (room_error "VISIT_JOIN_REQUEST_NOT_PENDING") ;;
  if jr_expiresAt request <=? now then
    set_join_request joinRequestId (λ r, r <| jr_status := J_expired |> <| jr_respondedAt := Some now |> <| jr_assetPackRefId := None |> <| jr_updatedAt := now |>) ;;
    modify (delete_reservations (λ k r, (k == jr_requesterUserId request) && (res_joinRequestId r == Some joinRequestId))) ;;
    throw (room_error "VISIT_JOIN_REQUEST_EXPIRED")
  else
  require (joinable (ses_state session)) (room_error "VISIT_ROOM_NOT_JOINABLE") ;;
  require (Z.of_nat (length present) <? ses_roomCapacity session) (room_error "VISIT_ROOM_CAPACITY_REACHED") ;;
  tx_for present (λ kp, assertRoomEligible (jr_requesterUserId request) (par_userId kp.2)) ;;
  reservation ← gets (λ d, db_reservations d !! jr_requesterUserId request);
  require match reservation with
          | Some r => (res_joinRequestId r == Some joinRequestId) && (res_kind r == K_join_request)
          | None => false
          end (room_error "VISIT_RESERVATION_CHANGED") ;;
  packRef ← require_some (jr_assetPackRefId request) (room_error "VISIT_PARTICIPANT_UNAVAILABLE");
  let participant := mkParticipant sessionId (jr_requesterUserId request) (jr_networkCompanionId request) (jr_assetPackSnapshotId request)
                       (Some packRef) R_guest P_preparing None (Some now) now None now now in
  create_participant participantId participant ;;
  set_join_request joinRequestId (λ r, r <| jr_status := J_accepted |> <| jr_respondedAt := Some now |> <| jr_assetPackRefId := None |> <| jr_updatedAt := now |>) ;;
  modify (λ d, d <| db_reservations := alter (λ r, r <| res_kind := K_session_participant |> <| res_sessionId := Some sessionId |>
    <| res_joinRequestId := None |> <| res_expiresAt := None |> <| res_updatedAt := now |>) (jr_requesterUserId request) (db_reservations d) |>) ;;
  queue_topic request sessionId topicRowId now ;;
  mret (JR_accepted sessionId (participantId, participant)).

Definition acceptJoinRequest (hostUserId joinRequestId participantId topicRowId : rowid) (now : instant) : Act World RoomState :=
  result ← transaction (acceptJoinRequest_tx hostUserId joinRequestId participantId topicRowId now);
  match result with
  | JR_unchanged sessionId => getRoom hostUserId sessionId
  | JR_accepted sessionId participant =>
      publishRoom sessionId "visit.participant.joined" [("joinRequestId", JStr (lit joinRequestId)); ("participantId", JStr (lit participant.1))] ;;
      getRoom hostUserId sessionId
  end.

(** [respondJoinRequest] *)
Inductive JoinRole := by_host | by_requester.
Definition respondJoinRequest_tx (userId joinRequestId : rowid) (role : JoinRole) (now : instant) : Tx DB (rowid * JoinRequest) :=
  let status := match role with by_host => J_declined | by_requester => J_cancelled end in
  found ← gets (λ d, db_joinRequests d !! joinRequestId);
  current ← require_some found (NotFoundException "VISIT_JOIN_REQUEST_NOT_FOUND");
  session ← gets (λ d, db_sessions d !! jr_sessionId current);
  require match role with
          | by_host => match session with Some s => ses_hostUserId s == userId | None => false end
          | by_requester => jr_requesterUserId current == userId
          end (ForbiddenException "VISIT_JOIN_REQUEST_NOT_AVAILABLE") ;;
  if jr_status current == status then mret (joinRequestId, current) else
  require (jr_status current == J_pending) (room_error "VISIT_JOIN_REQUEST_NOT_PENDING") ;;
  let upd r := match role with
               | by_host => r <| jr_status := status |> <| jr_respondedAt := Some now |> <| jr_assetPackRefId := None |> <| jr_updatedAt := now |>
               | by_requester => r <| jr_status := status |> <| jr_cancelledAt := Some now |> <| jr_assetPackRefId := None |> <| jr_updatedAt := now |>
               end in
  set_join_request joinRequestId upd ;;
  modify (delete_reservations (λ k r, (k == jr_requesterUserId current) && (res_joinRequestId r == Some joinRequestId))) ;;
  mret (joinRequestId, upd current).

Definition respondJoinRequest (userId joinRequestId : rowid) (role : JoinRole) (now : instant) : Act World JoinView :=
  request ← transaction (respondJoinRequest_tx userId joinRequestId role now);
  publishToUser (jr_requesterUserId request.2) "visit.join_request.updated"
    [("sessionId", JStr (lit (jr_sessionId request.2))); ("joinRequestId", JStr (lit request.1))] ;;
  publishRoom (jr_sessionId request.2) "visit.join_request.updated" [("joinRequestId", JStr (lit request.1))] ;;
  view ← query (λ d, joinSummary d request);
  mret view.
Definition declineJoinRequest (hostUserId joinRequestId : rowid) (now : instant) := respondJoinRequest hostUserId joinRequestId by_host now.
Definition cancelJoinRequest (requesterUserId joinRequestId : rowid) (now : instant) := respondJoinRequest requesterUserId joinRequestId by_requester now.

Definition alter_participant (k : rowid) (f : Participant → Participant) : Tx DB unit :=
  modify (λ d, d <| db_participants := alter f k (db_participants d) |>).

(** [visitParticipantReadiness.upsert] on (subjectParticipantId, viewerUserId) *)
Definition upsert_readiness (sessionId subjectParticipantId viewerUserId : rowid) (now : instant) : Tx DB unit :=
  modify (λ d, d <| db_readiness := <[(subjectParticipantId, viewerUserId) :=
    match db_readiness d !! (subjectParticipantId, viewerUserId) with Some (s, _) => (s, now) | None => (sessionId, now) end]> (db_readiness d) |>).

Definition markParticipantReady_tx (userId sessionId : rowid) (now : instant) : Tx DB (rowid * Participant) :=
  found ← gets (find_participant sessionId userId);
  current ← require_some found (ForbiddenException "VISIT_SESSION_NOT_PARTICIPANT");
  if par_state current.2 == P_active then mret current else
  require (bool_decide (par_state current.2 ∈ [P_preparing; P_ready])) (room_error "VISIT_PARTICIPANT_STATE_CHANGED") ;;
  peers ← gets (λ d, find_many (λ _ p, (par_sessionId p == sessionId) && bool_decide (par_state p ∈ [P_ready; P_active])
                                       && (par_userId p != userId)) (db_participants d));
  tx_for peers (λ kp, upsert_readiness sessionId kp.1 userId now) ;;
  let upd p := p <| par_state := P_active |> <| par_readyAt := Some now |> <| par_seenAt := Some now |> <| par_updatedAt := now |> in
  alter_participant current.1 upd ;;
  mret (current.1, upd current.2).

Definition markParticipantReady (userId sessionId : rowid) (now : instant) : Act World ParticipantView :=
  participant ← transaction (markParticipantReady_tx userId sessionId now);
  publishRoom sessionId "visit.participant.ready" [("participantId", JStr (lit participant.1))] ;;
  view ← query (λ d, participantSummary d participant);
  mret view.

Definition leaveRoom_tx (userId sessionId : rowid) (now : instant) : Tx DB (rowid * Participant) :=
  found_session ← gets (λ d, db_sessions d !! sessionId);
  found ← gets (find_participant sessionId userId);
  session ← require_some found_session (ForbiddenException "VISIT_SESSION_NOT_PARTICIPANT");
  current ← require_some found (ForbiddenException "VISIT_SESSION_NOT_PARTICIPANT");
  require (ses_hostUserId session != userId) (room_error "VISIT_HOST_MUST_END_ROOM") ;;
  if par_state current.2 == P_left then mret current else
  let upd p := p <| par_state := P_left |> <| par_leftAt := Some now |> <| par_assetPackRefId := None |> <| par_updatedAt := now |> in
  alter_participant current.1 upd ;;
  modify (delete_reservations (λ k r, (k == userId) && (res_sessionId r == Some sessionId))) ;;
  mret (current.1, upd current.2).

Definition leaveRoom (userId sessionId : rowid) (now : instant) : Act World ParticipantView :=
  participant ← transaction (leaveRoom_tx userId sessionId now);
  publishRoom sessionId "visit.participant.left" [("participantId", JStr (lit participant.1))] ;;
  view ← query (λ d, participantSummary d participant);
  mret view.

(** [authorizeParticipantAsset] *)
Definition authorizeParticipantAsset (userId sessionId participantId : rowid) : Act World (rowid * AssetPack) :=
  viewer ← requireParticipant userId sessionId [P_preparing; P_ready; P_active];
  found ← query (λ d, db_participants d !! participantId);
  subject ← act_require_some found (room_error "VISIT_ASSET_NOT_AVAILABLE");
  act_require ((par_sessionId subject == sessionId) && (par_state subject != P_left)
               && (par_userId subject != par_userId viewer.2)) (room_error "VISIT_ASSET_NOT_AVAILABLE") ;;
  packId ← act_require_some (par_assetPackRefId subject) (room_error "VISIT_ASSET_NOT_AVAILABLE");
  found_pack ← query (λ d, db_assetPacks d !! packId);
  pack ← act_require_some found_pack (room_error "VISIT_ASSET_NOT_AVAILABLE");
  act_require ((packId == par_assetPackSnapshotId subject) && (pk_companionId pack == par_networkCompanionId subject)
               && bool_decide (pk_status pack ∈ [PK_active; PK_superseded])) (room_error "VISIT_ASSET_NOT_AVAILABLE") ;;
  mret (packId, pack).

Definition getParticipantManifest (userId sessionId participantId : rowid) : Act World (json * list FileView) :=
  pack ← authorizeParticipantAsset userId sessionId participantId;
  files ← query (pack_files pack.1);
  mret (pk_manifest pack.2, file_view <$> files).

Definition createParticipantDownloadUrls (createGetUrl : text → instant → text * instant)
    (userId sessionId participantId : rowid) (fileIds : list rowid) (now : instant) : Act World (list (FileView * (text * instant))) :=
  act_require (file_ids_ok fileIds) (room_error "VISIT_ASSET_NOT_AVAILABLE") ;;
  pack ← authorizeParticipantAsset userId sessionId participantId;
  all ← query (pack_files pack.1);
  let files := filter (λ kf, kf.1 ∈ fileIds) all in
  act_require (bool_decide (length files = length fileIds)) (room_error "VISIT_ASSET_NOT_AVAILABLE") ;;
  mret ((λ kf, (file_view kf, createGetUrl (af_objectKey kf.2) now)) <$> files).
End operations.
