(* ===== verification/VisitSocial.v ===== *)
(** * The visit dialogue ([visit-social/visit-social.service.ts],
    [visit-social/visit-social.policy.ts])

    Inside an active room the companions speak in turns about one topic at a
    time; when the topics or the turns run out the room ends, a shared moment is
    written once and the relationships of the companions are settled once per
    pair.  The services' fall-backs for a Prisma client without the room models
    are dead code with the schema of the repository and are not modelled. *)

From Stdlib Require Import Floats.SpecFloat.
From S2P Require Import Prelude Tables JsText JsNumber Json Schema Interfaces Config AssetManifest Visit.
Local Open Scope Z_scope.

(** ** Policy *)

Definition VISIT_SOCIAL_MAX_TURNS : Z := 12.
Definition VISIT_SOCIAL_INTENTS : list string :=
  ["GREET"; "ASK"; "ANSWER"; "SHARE"; "REACT"; "AGREE"; "DISAGREE"; "COMFORT"; "PAUSE"; "LEAVE"].
Definition VISIT_SOCIAL_EMOTIONS : list string := ["neutral"; "gentle"; "curious"; "happy"; "thoughtful"; "concerned"].

Definition normalizeText (value : text) (maximumLength : nat) : text := take maximumLength (trim (replace_spaces value)).

Record ShareInput := mkShareInput { si_title : text; si_summary : text; si_tags : option (list text); si_sourceUrl : option text }.
Record SanitizedShare := mkSanitizedShare { sa_title : text; sa_summary : text; sa_tags : list text; sa_sourceUrl : option text }.

Definition sanitizeVisitShareEnvelope (input : ShareInput) : result SanitizedShare :=
  let title := normalizeText (si_title input) 120 in
  let summary := normalizeText (si_summary input) 600 in
  if negb (truthy title) || negb (truthy summary) then Err (ErrorException "VISIT_SHARE_INVALID") else
  let tags := take 5 (dedup (filter (λ t, truthy t = true) ((λ t, normalizeText t 40) <$> default [] (si_tags input)))) in
  let sourceUrl := trim <$> si_sourceUrl input in
  if match sourceUrl with Some u => truthy u && (2000 <? Z.of_nat (length u)) | None => false end
  then Err (ErrorException "VISIT_SHARE_INVALID")
  else Ok (mkSanitizedShare title summary tags (if truthy_opt sourceUrl then sourceUrl else None)).

(** [assertNextVisitTurn]: [None] when the turn is allowed. *)
Definition assertNextVisitTurn (senderUserId visitorOwnerUserId : rowid) (lastSenderUserId : option rowid)
    (currentTurnCount : Z) (maxTurns : option Z) : option string :=
  if default VISIT_SOCIAL_MAX_TURNS maxTurns <=? currentTurnCount then Some "VISIT_TURN_LIMIT_REACHED"
  else if negb (truthy_id lastSenderUserId) && (senderUserId != visitorOwnerUserId) then Some "VISIT_TURN_OWNER_START_REQUIRED"
  else if lastSenderUserId == Some senderUserId then Some "VISIT_TURN_ORDER_INVALID"
  else None.

Definition assertSharedMomentEligible (state : SessionState) (turnCount : number) : option string :=
  if state != S_ended then Some "VISIT_SESSION_NOT_COMPLETED"
  else match integer_of turnCount with
       | Some n => if n <? 1 then Some "VISIT_SHARED_MOMENT_EMPTY" else None
       | None => Some "VISIT_SHARED_MOMENT_EMPTY"
       end.

(** ** Reading the room *)

Definition ROOM_MAX_TURNS : Z := 15.
Definition LEGACY_MAX_TURNS : Z := 12.
Definition TOPIC_BOUNDARY_INTENTS : list string := ["LEAVE"; "PAUSE"].

Definition social_error (code : string) : exc := ConflictException code.

Definition participantRank (p : Participant) : Z := match par_role p with R_visitor => 0 | R_host => 1 | R_guest => 2 end.
(** The order in which the participants speak: the visitor, the host, then the
    guests as they joined; ids, which are UUIDs, break ties. *)
Definition speaking_order (a b : rowid * Participant) : bool :=
  (participantRank a.2 <? participantRank b.2)
  || ((participantRank a.2 =? participantRank b.2)
      && ((par_joinedAt a.2 <? par_joinedAt b.2)
          || ((par_joinedAt a.2 =? par_joinedAt b.2) && bool_decide (String.compare a.1 b.1 ≠ Gt)))).

Definition turn_order (a b : rowid * Turn) : bool := tu_sequence a.2 <=? tu_sequence b.2.
Definition topic_sequence_order (a b : rowid * RoomTopic) : bool := rt_sequence a.2 <=? rt_sequence b.2.

(** [nextActor] *)
Definition nextActor (state : SessionState) (participants : list rowid) (lastTurn : option Turn) : option rowid :=
  if (state != S_active) || (ROOM_MAX_TURNS <=? match lastTurn with Some t => tu_sequence t | None => 0 end) then None else
  match participants with
  | [] => None
  | first :: _ =>
      match lastTurn with
      | None => Some first
      | Some t =>
          let index := match list_find (λ u, u = tu_senderUserId t) participants with
                       | Some (i, _) => (i + 1)%nat
                       | None => 0%nat
                       end in
          participants !! (index mod length participants)%nat
      end
  end.

(** The last turn of a room. *)
Definition latest_turn (sessionId : rowid) (d : DB) : option (rowid * Turn) :=
  last (sort_by turn_order (filter (λ kt, tu_sessionId kt.2 = sessionId) (map_to_list (db_turns d)))).
Definition count_turns (sessionId : rowid) (d : DB) : Z :=
  Z.of_nat (count_where (λ _ t, tu_sessionId t == sessionId) (db_turns d)).
Definition count_topic_turns (topicId : rowid) (d : DB) : Z :=
  Z.of_nat (count_where (λ _ t, tu_roomTopicId t == Some topicId) (db_turns d)).

(** [tagsFromShare]: the column is a JSON array of strings. *)
Definition tagsFromShare (s : Share) : list text := take 20 (sh_tags s).

(** ** Relationships *)

(** [SELECT DISTINCT ...] returns each element once, in an order PostgreSQL
    does not specify. *)
Class DistinctOrder := {
  scan_distinct : list text → list text;
  scan_distinct_NoDup l : NoDup (scan_distinct l);
  elem_of_scan_distinct l t : t ∈ scan_distinct l ↔ t ∈ l;
}.
Definition first_occurrence : DistinctOrder :=
  {| scan_distinct := dedup; scan_distinct_NoDup := NoDup_dedup; elem_of_scan_distinct := elem_of_dedup |}.

(** [[a, b].sort()] on identifiers *)
Definition sort_pair (a b : rowid) : rowid * rowid :=
  match String.compare a b with Gt => (b, a) | _ => (a, b) end.

Definition score_step (current increment : number) : number :=
  let sum := SFadd prec emax current increment in if SFltb (of_Z 1) sum then of_Z 1 else sum.
Definition score_008 : number := Eval vm_compute in of_decimal false 8 (-2).
Definition score_005 : number := Eval vm_compute in of_decimal false 5 (-2).

Definition stage_of (visits : Z) : RelationshipStage :=
  if 12 <=? visits then RS_trusted else if 8 <=? visits then RS_close else if 4 <=? visits then RS_friendly
  else if 2 <=? visits then RS_familiar else RS_acquainted.

(** [unique]: the last participant of each companion, at the place of the
    first. *)
Definition by_companion (l : list (rowid * Participant)) : list (rowid * Participant) :=
  omap (λ c, last (filter (λ kp, par_networkCompanionId kp.2 = c) l)) (dedup ((λ kp, par_networkCompanionId kp.2) <$> l)).

(** All pairs, the earlier element first. *)
Fixpoint pairs {A} (l : list A) : list (A * A) :=
  match l with
  | [] => []
  | x :: l' => ((λ y, (x, y)) <$> l') ++ pairs l'
  end.

Section service.
Context `{!ScanOrder} `{!DistinctOrder}.
(** [randomUUID()], by what the identifier is for. *)
Variable uuid : string → rowid.

Definition readShare (sessionId : rowid) (d : DB) : option Share := db_shares d !! sessionId.
Definition loadRoomTopics (sessionId : rowid) (d : DB) : list (rowid * RoomTopic) :=
  find_many_by (λ _ t, rt_sessionId t == sessionId) topic_sequence_order (db_roomTopics d).
Definition loadParticipants (sessionId : rowid) (activeOnly : bool) (d : DB) : list (rowid * Participant) :=
  find_many_by (λ _ p, (par_sessionId p == sessionId) && (negb activeOnly || (par_state p == P_active))) speaking_order (db_participants d).
Definition active_topic (topics : list (rowid * RoomTopic)) : option (rowid * RoomTopic) :=
  head (filter (λ kt, rt_state kt.2 = T_active) topics).

(** [requireParticipantSession] *)
Definition requireParticipantSession (userId sessionId : rowid) : Tx DB Session :=
  found ← gets (λ d, db_sessions d !! sessionId);
  session ← require_some found (NotFoundException "VISIT_SESSION_NOT_FOUND");
  participant ← gets (find_participant sessionId userId);
  require (is_set (roleFor session userId)
           || match participant with Some (_, p) => par_state p != P_left | None => false end)
    (ForbiddenException "VISIT_SESSION_NOT_PARTICIPANT") ;;
  mret session.

(** [assertRoomEligible]: every two of the users. *)
Definition assertRoomEligible (userIds : list rowid) : Tx DB unit :=
  tx_for (pairs (dedup userIds)) (λ p,
    b ← gets (eligible p.1 p.2); require b (social_error "VISIT_SOCIAL_NOT_AVAILABLE")).

(** [updateRelationshipPair] *)
Definition updateRelationshipPair (first second : rowid) (turnCount : Z) (tags : list text) (now : instant) : Tx DB unit :=
  if first == second then mret () else
  let pair := sort_pair first second in
  modify (λ d, d <| db_relationships := <[pair :=
    match db_relationships d !! pair with
    | None => mkRelationship (uuid "relationship") RS_acquainted 1 1 turnCount score_008 score_005 tags now now
    | Some r => r <| rel_visitCount := rel_visitCount r + 1 |>
                  <| rel_interactionCount := rel_interactionCount r + 1 |>
                  <| rel_totalTurnCount := rel_totalTurnCount r + turnCount |>
                  <| rel_rapportScore := score_step (rel_rapportScore r) score_008 |>
                  <| rel_topicAffinityScore := score_step (rel_topicAffinityScore r) score_005 |>
                  <| rel_sharedTopicTags := take 20 (scan_distinct (rel_sharedTopicTags r ++ tags)) |>
                  <| rel_stage := stage_of (rel_visitCount r + 1) |>
                  <| rel_lastInteractionAt := now |>
    end]> (db_relationships d) |>).

(** One round of the double loop of [settleRelationships]. *)
Definition settle_pair (sessionId : rowid) (tags : list text) (now : instant)
    (p : (rowid * Participant) * (rowid * Participant)) : Tx DB unit :=
  let pair := sort_pair (par_networkCompanionId p.1.2) (par_networkCompanionId p.2.2) in
  pairTurnCount ← gets (λ d, Z.of_nat (count_where (λ _ t, (tu_sessionId t == sessionId)
    && bool_decide (tu_senderUserId t ∈ [par_userId p.1.2; par_userId p.2.2])) (db_turns d)));
  inserted ← gets (λ d, negb (is_set (db_settlements d !! (sessionId, pair))));
  if inserted : bool then
    modify (λ d, d <| db_settlements := <[(sessionId, pair) := mkSettlement (uuid "settlement") pairTurnCount tags now]> (db_settlements d) |>) ;;
    updateRelationshipPair pair.1 pair.2 pairTurnCount tags now
  else mret ().

Definition settlement_tags (topics : list (rowid * RoomTopic)) (share : Share) : list text :=
  take 20 (dedup (filter (λ t, truthy t = true)
    (match topics with [] => tagsFromShare share | _ => topics ≫= λ kt, rt_tags kt.2 end))).

Definition settleRelationships (sessionId : rowid) (loadedParticipants : list (rowid * Participant))
    (topics : list (rowid * RoomTopic)) (share : Share) (now : instant) : Tx DB unit :=
  let participants := filter (λ kp, is_Some (par_readyAt kp.2)) loadedParticipants in
  tx_for (pairs (by_companion participants)) (settle_pair sessionId (settlement_tags topics share) now).

Definition moment_title (titles : list text) : text :=
  take 160 (lit "Shared room: " ++ join ([32; 8594; 32]) (take 2 titles)).
Definition moment_summary (participantCount turnCount : Z) (titles : list text) : text :=
  take 600 (decimal participantCount ++ lit " Companions discussed "
    ++ join (lit ", ") ((λ v, [8220] ++ v ++ [8221]) <$> titles) ++ lit " across " ++ decimal turnCount ++ lit " turns.").

(** [ensureMoment] *)
Definition ensureMoment (sessionId : rowid) (turnCount : Z) (share : Share) (now : instant) : Tx DB Moment :=
  topics ← gets (loadRoomTopics sessionId);
  let completedTopics := filter (λ kt, rt_state kt.2 = T_completed) topics in
  let topicTitles := match completedTopics with [] => [sh_title share] | _ => (λ kt, rt_title kt.2) <$> completedTopics end in
  participants ← gets (loadParticipants sessionId false);
  let companions := dedup ((λ kp, par_networkCompanionId kp.2) <$> filter (λ kp, is_Some (par_readyAt kp.2)) participants) in
  let participantCount := match Z.of_nat (length companions) with 0 => 2 | n => n end in
  existing ← gets (λ d, db_moments d !! sessionId);
  match existing with
  | Some m => mret m
  | None =>
      let m := mkMoment (uuid "moment") (moment_title topicTitles) (moment_summary participantCount turnCount topicTitles) turnCount now in
      modify (λ d, d <| db_moments := <[sessionId := m]> (db_moments d) |>) ;;
      settleRelationships sessionId participants completedTopics share now ;;
      mret m
  end.

(** [endRoom] *)
Definition endRoom (sessionId : rowid) (reason : string) (now : instant) : Tx DB unit :=
  alter_session sessionId (λ s, s <| ses_state := S_ended |> <| ses_endingAt := Some now |> <| ses_endedAt := Some now |>
    <| ses_endReason := Some reason |> <| ses_assetPackRefId := None |> <| ses_updatedAt := now |>) ;;
  releaseSessionReservations sessionId now.

Definition alter_room_topic (k : rowid) (f : RoomTopic → RoomTopic) : Tx DB unit :=
  modify (λ d, d <| db_roomTopics := alter f k (db_roomTopics d) |>).

Record Progress := mkProgress { pg_autoEnded : bool; pg_topicSwitched : bool }.

(** [progressRoom] *)
Definition progressRoom (sessionId : rowid) (activeTopic : rowid * RoomTopic) (totalTurns : Z) (intent : string)
    (share : Share) (now : instant) : Tx DB Progress :=
  topicTurnCount ← gets (count_topic_turns activeTopic.1);
  let reachedRoomLimit := ROOM_MAX_TURNS <=? totalTurns in
  let reachedTopicLimit := rt_maximumTurns activeTopic.2 <=? topicTurnCount in
  let naturalBoundary := (rt_minimumTurns activeTopic.2 <=? topicTurnCount) && bool_decide (intent ∈ TOPIC_BOUNDARY_INTENTS) in
  if negb reachedRoomLimit && negb reachedTopicLimit && negb naturalBoundary then mret (mkProgress false false) else
  alter_room_topic activeTopic.1 (λ t, t <| rt_state := T_completed |> <| rt_completedAt := Some now |> <| rt_updatedAt := now |>) ;;
  nextTopic ← gets (λ d, if reachedRoomLimit then None else
    head (find_many_by (λ _ t, (rt_sessionId t == sessionId) && (rt_state t == T_queued) && (rt_sequence activeTopic.2 <? rt_sequence t))
      topic_sequence_order (db_roomTopics d)));
  match nextTopic with
  | Some (k, t) =>
      alter_room_topic k (λ t, t <| rt_state := T_active |> <| rt_startedAt := Some now |> <| rt_updatedAt := now |>) ;;
      alter_session sessionId (λ s, s <| ses_currentTopicSequence := rt_sequence t |> <| ses_updatedAt := now |>) ;;
      modify (λ d, d <| db_shares := alter (λ sh, sh <| sh_roomTopicId := Some k |> <| sh_title := rt_title t |> <| sh_summary := rt_summary t |>
        <| sh_tags := rt_tags t |> <| sh_sourceUrl := if rt_shareScope t == summary_and_source then rt_sourceUrl t else None |>
        <| sh_createdByUserId := rt_createdByUserId t |>) sessionId (db_shares d) |>) ;;
      mret (mkProgress false true)
  | None =>
      endRoom sessionId "social_topics_completed" now ;;
      ensureMoment sessionId totalTurns share now ;;
      mret (mkProgress true false)
  end.

(** [progressLegacyRoom] *)
Definition progressLegacyRoom (sessionId : rowid) (sequence : Z) (share : Share) (now : instant) : Tx DB Progress :=
  if sequence <? LEGACY_MAX_TURNS then mret (mkProgress false false) else
  endRoom sessionId "social_turn_limit" now ;;
  ensureMoment sessionId sequence share now ;;
  mret (mkProgress true false).

Record AppendTurnInput := mkAppendTurnInput { at_clientTurnId : rowid; at_intent : string; at_message : text; at_emotion : option string; at_topic : option text }.

Record AppendResult := mkAppendResult { ar_turn : rowid * Turn; ar_progress : Progress; ar_duplicate : bool }.

Definition turn_clash (t1 t2 : Turn) : bool :=
  (tu_sessionId t1 == tu_sessionId t2) && ((tu_sequence t1 == tu_sequence t2) || (tu_clientTurnId t1 == tu_clientTurnId t2)).
Definition create_turn (k : rowid) (t : Turn) : Tx DB unit :=
  modify_or (λ d, m ← create_row turn_clash k t (db_turns d); Some (d <| db_turns := m |>)) (P2002 "VisitTurn").

Definition appendTurn_tx (userId sessionId : rowid) (input : AppendTurnInput) (now : instant) : Tx DB AppendResult :=
  session ← requireParticipantSession userId sessionId;
  require (ses_state session == S_active) (social_error "VISIT_SESSION_NOT_ACTIVE") ;;
  participants ← gets (loadParticipants sessionId true);
  let users := (λ kp, par_userId kp.2) <$> participants in
  require (bool_decide (userId ∈ users)) (social_error "VISIT_PARTICIPANT_NOT_READY") ;;
  assertRoomEligible users ;;
  found_share ← gets (readShare sessionId);
  share ← require_some found_share (social_error "VISIT_SHARE_REQUIRED");
  topics ← gets (loadRoomTopics sessionId);
  let activeTopic := active_topic topics in
  require (match topics with [] => true | _ => is_set activeTopic end) (social_error "VISIT_TOPIC_STATE_CHANGED") ;;
  duplicate ← gets (λ d, find_unique (λ _ t, (tu_sessionId t == sessionId) && (tu_clientTurnId t == at_clientTurnId input)) (db_turns d));
  match duplicate with
  | Some kt => mret (mkAppendResult kt (mkProgress false false) true)
  | None =>
      latest ← gets (latest_turn sessionId);
      require (nextActor (ses_state session) users (snd <$> latest) == Some userId) (social_error "VISIT_TURN_ORDER_INVALID") ;;
      let sequence := match latest with Some (_, t) => tu_sequence t | None => 0 end + 1 in
      require (sequence <=? ROOM_MAX_TURNS) (social_error "VISIT_TURN_LIMIT_REACHED") ;;
      let message := normalizeText (at_message input) 800 in
      require (truthy message) (social_error "VISIT_TURN_INVALID") ;;
      let label := (λ t, normalizeText t 80) <$> at_topic input in
      let turn := mkTurn sessionId sequence (at_clientTurnId input) userId
        (match activeTopic with Some (k, _) => Some k | None => sh_roomTopicId share end)
        (at_intent input) message (at_emotion input) (if truthy_opt label then label else None) now in
      create_turn (uuid "turn") turn ;;
      progress ← match activeTopic with
                 | Some t => progressRoom sessionId t sequence (at_intent input) share now
                 | None => progressLegacyRoom sessionId sequence share now
                 end;
      mret (mkAppendResult (uuid "turn", turn) progress false)
  end.

(** [publish]: every participant the session ever had. *)
Definition publish (sessionId actorUserId : rowid) (event : string) (extra : list (string * json)) : Act World unit :=
  recipients ← query (λ d, dedup ((λ kp, par_userId kp.2) <$> find_many (λ _ p, par_sessionId p == sessionId) (db_participants d)));
  act_for recipients (λ u, publishToUser u event ([("sessionId", JStr (lit sessionId)); ("actorUserId", JStr (lit actorUserId))] ++ extra)).

Definition appendTurn (userId sessionId : rowid) (input : AppendTurnInput) (now : instant) : Act World (rowid * Turn) :=
  result ← transaction (appendTurn_tx userId sessionId input now);
  (if ar_duplicate result then mret () else publish sessionId userId "visit.turn.created" [("sequence", JInt (tu_sequence (ar_turn result).2))]) ;;
  (if pg_topicSwitched (ar_progress result) then publish sessionId userId "visit.topic.changed" [] else mret ()) ;;
  (if pg_autoEnded (ar_progress result) then
     publish sessionId userId "visit.shared_moment.created" [] ;;
     publish sessionId userId "visit.session.ended" [("state", JStr (lit "ended"))]
   else mret ()) ;;
  mret (ar_turn result).

Definition finalizeMoment_tx (userId sessionId : rowid) (now : instant) : Tx DB Moment :=
  session ← requireParticipantSession userId sessionId;
  require (ses_state session == S_ended) (social_error "VISIT_SESSION_NOT_COMPLETED") ;;
  found_share ← gets (readShare sessionId);
  share ← require_some found_share (social_error "VISIT_SHARE_REQUIRED");
  turnCount ← gets (count_turns sessionId);
  require (2 <=? turnCount) (social_error "VISIT_SHARED_MOMENT_TOO_SHORT") ;;
  ensureMoment sessionId turnCount share now.

Definition finalizeMoment (userId sessionId : rowid) (now : instant) : Act World Moment :=
  moment ← transaction (finalizeMoment_tx userId sessionId now);
  publish sessionId userId "visit.shared_moment.created" [] ;;
  mret moment.

(** [setShare] *)
Definition upsert_first_topic (session : Session) (userId sessionId : rowid) (share : SanitizedShare) (now : instant) : Tx DB rowid :=
  let scope := if is_set (sa_sourceUrl share) then summary_and_source else summary_only in
  existing ← gets (λ d, find_unique (λ _ t, (rt_sessionId t == sessionId) && (rt_sequence t =? 1)) (db_roomTopics d));
  match existing with
  | Some (k, _) =>
      alter_room_topic k (λ t, t <| rt_state := T_active |> <| rt_title := sa_title share |> <| rt_summary := sa_summary share |>
        <| rt_tags := sa_tags share |> <| rt_sourceUrl := sa_sourceUrl share |> <| rt_shareScope := scope |> <| rt_updatedAt := now |>) ;;
      mret k
  | None =>
      create_room_topic (uuid "topic") (mkRoomTopic sessionId 1 T_active (ses_networkCompanionId session) userId (sa_title share) (sa_summary share)
        (sa_tags share) (sa_sourceUrl share) scope false 3 6 (Some now) None now now) ;;
      mret (uuid "topic")
  end.

Definition setShare_tx (userId sessionId : rowid) (share : SanitizedShare) (now : instant) : Tx DB Share :=
  session ← requireParticipantSession userId sessionId;
  require (ses_visitorOwnerUserId session == userId) (ForbiddenException "VISIT_SHARE_NOT_OWNER") ;;
  require (ses_state session == S_preparing) (social_error "VISIT_SHARE_STATE_CHANGED") ;;
  participants ← gets (loadParticipants sessionId false);
  assertRoomEligible ((λ kp, par_userId kp.2) <$> participants) ;;
  topicId ← upsert_first_topic session userId sessionId share now;
  existing ← gets (readShare sessionId);
  let row := match existing with
             | Some s => s <| sh_roomTopicId := Some topicId |> <| sh_title := sa_title share |> <| sh_summary := sa_summary share |>
                           <| sh_tags := sa_tags share |> <| sh_sourceUrl := sa_sourceUrl share |> <| sh_createdByUserId := userId |>
             | None => mkShare (uuid "share") (Some topicId) (sa_title share) (sa_summary share) (sa_tags share) (sa_sourceUrl share) userId now
             end in
  modify (λ d, d <| db_shares := <[sessionId := row]> (db_shares d) |>) ;;
  mret row.

Definition setShare (userId sessionId : rowid) (input : ShareInput) (now : instant) : Act World Share :=
  match sanitizeVisitShareEnvelope input with
  | Err e => act_throw e
  | Ok share =>
      row ← transaction (setShare_tx userId sessionId share now);
      publish sessionId userId "visit.share.updated" [] ;;
      mret row
  end.

(** ** The state a participant reads *)

(** [shareSummary], [topicAsShare], [topicSummary]: at most five tags, and the
    source address of a topic only within its scope. *)
Record ShareView := mkShareView { sv_id : rowid; sv_sessionId : rowid; sv_title : text; sv_summary : text; sv_tags : list text; sv_sourceUrl : option text; sv_createdAt : instant }.
Definition shareSummary (sessionId : rowid) (s : Share) : ShareView :=
  mkShareView (sh_rowId s) sessionId (sh_title s) (sh_summary s) (take 5 (tagsFromShare s)) (if truthy_opt (sh_sourceUrl s) then sh_sourceUrl s else None) (sh_createdAt s).
Definition topic_source (t : RoomTopic) : option text :=
  if (rt_shareScope t == summary_and_source) && truthy_opt (rt_sourceUrl t) then rt_sourceUrl t else None.
Definition topicAsShare (kt : rowid * RoomTopic) : ShareView :=
  mkShareView kt.1 (rt_sessionId kt.2) (rt_title kt.2) (rt_summary kt.2) (take 5 (rt_tags kt.2)) (topic_source kt.2) (rt_createdAt kt.2).
Definition topicSummary (kt : rowid * RoomTopic) : rowid * RoomTopic := (kt.1, kt.2 <| rt_sourceUrl := topic_source kt.2 |>).

Record SocialState := mkSocialState {
  ss_maxTurns : Z; ss_currentTopicSequence : Z; ss_nextActorUserId : option rowid; ss_share : option ShareView;
  ss_activeTopic : option (rowid * RoomTopic); ss_topics : list (rowid * RoomTopic); ss_participants : list (rowid * Participant);
  ss_turns : list (rowid * Turn); ss_sharedMoment : option Moment;
}.

Definition social_state (sessionId : rowid) (session : Session) (d : DB) : SocialState :=
  let topics := loadRoomTopics sessionId d in
  let turns := sort_by turn_order (find_many (λ _ t, tu_sessionId t == sessionId) (db_turns d)) in
  let participants := loadParticipants sessionId false d in
  let activeTopic := active_topic topics in
  let activeParticipants := filter (λ kp, par_state kp.2 = P_active) participants in
  mkSocialState ROOM_MAX_TURNS
    (match activeTopic with Some (_, t) => rt_sequence t | None => ses_currentTopicSequence session end)
    (nextActor (ses_state session) ((λ kp, par_userId kp.2) <$> activeParticipants) (snd <$> last turns))
    (match activeTopic with Some t => Some (topicAsShare t) | None => shareSummary sessionId <$> readShare sessionId d end)
    (topicSummary <$> activeTopic) (topicSummary <$> topics) participants turns (db_moments d !! sessionId).

Definition getState (userId sessionId : rowid) : Act World SocialState :=
  session ← transaction (requireParticipantSession userId sessionId);
  state ← query (social_state sessionId session);
  mret state.
End service.
