(* ===== verification/VisitSteps.v ===== *)
(** * The visit services, step by step

    Every transaction and statement of the visit services is a sequence of the
    actions of [VisitCore] ([_implements], [exec_micros]).  A database reached
    through them ([reachable]) therefore keeps invitations, sessions,
    reservations, participants and join requests in agreement ([StepInv]). *)

From S2P Require Import Prelude Tables JsText Json Schema Interfaces Config AssetManifest Visit VisitCore VisitRoom VisitSocial.
Local Open Scope Z_scope.

(** ** The actions on one row *)

Lemma micro_eq cfg c1 c2 ts : micro cfg (c1, ts) → c1 = c2 → micro cfg (c2, ts).
Proof. by intros ? ->. Qed.

Lemma drops_self (done : Task → Prop) t ts : done t → drops done (t :: ts) ts.
Proof. intros Ht. split; intros t'; rewrite elem_of_cons; naive_solver. Qed.
Lemma drops_nothing (done : Task → Prop) ts : drops done ts ts.
Proof. split; auto. Qed.

Lemma close_invitation_micro c ts i r r' :
  k_inv c !! i = Some r → inv_status r = I_pending → inv_status r' ≠ I_pending → same_invitation r r' →
  micro (c, ts) (c <| k_inv := <[i := r']> (k_inv c) |>, RelInv i :: ts).
Proof.
  intros Hi Hp Hp' [E1 E2].
  set (f := λ r0, r' <| inv_visitorOwnerUserId := inv_visitorOwnerUserId r0 |> <| inv_hostUserId := inv_hostUserId r0 |>).
  replace (<[i := r']> (k_inv c)) with
    (update_many (λ k r, bool_decide (k ∈ [i]) && (inv_status r == I_pending)) f (k_inv c)).
  { apply (mi_close_invitations c ts [i] f). intros r0. done. }
  apply map_eq. intros k. rewrite lookup_update_many. destruct (decide (k = i)) as [->|Hne].
  - rewrite lookup_insert_eq, Hi. simpl. rewrite bool_decide_eq_true_2 by set_solver.
    rewrite bool_decide_eq_true_2 by done. unfold f. rewrite <- E1, <- E2. by destruct r'.
  - rewrite lookup_insert_ne by done. destruct (k_inv c !! k); simpl; [|done].
    by rewrite bool_decide_eq_false_2 by set_solver.
Qed.

(** An invitation is closed and its sender released. *)
Lemma close_invitation_micros c ts i r r' :
  VisitInv (c, ts) → k_inv c !! i = Some r → inv_status r = I_pending → inv_status r' ≠ I_pending → same_invitation r r' →
  rtc micro (c, ts) (c <| k_inv := <[i := r']> (k_inv c) |>
                       <| k_res := delete_many (λ u v, (u == inv_visitorOwnerUserId r) && (res_invitationId v == Some i)) (k_res c) |>, ts).
Proof.
  intros Hinv Hi Hp Hp' Hs. pose proof (close_invitation_micro c ts i r r' Hi Hp Hp' Hs) as Hm.
  eapply rtc_l; [exact Hm|]. apply rtc_once.
  refine (mi_release_invitations (c <| k_inv := <[i := r']> (k_inv c) |>) (RelInv i :: ts) ts [i]
    (λ u v, (u == inv_visitorOwnerUserId r) && (res_invitationId v == Some i)) _ _ _).
  - intros i' r0 ->%list_elem_of_singleton. simpl. rewrite lookup_insert_eq. intros [= <-]. done.
  - intros u v Hv. rewrite andb_true_iff, !bool_decide_eq_true. split; [intros [_ ?]; exists i; set_solver|].
    intros (i' & ->%list_elem_of_singleton & E). split; [|done].
    destruct (vi_justified _ Hinv u v Hv) as [(i' & r0 & Ho & Hr0 & <- & _)|[(s & se & k & q & (_ & ? & _) & _)|(s & se & k & q & (_ & ? & _) & _)]]; [|congruence..].
    destruct Ho as (_ & E' & _). simpl in *. congruence.
  - apply drops_self. exists i. set_solver.
Qed.

Lemma release_invitation_eq c ts i r :
  VisitInv (c, ts) → k_inv c !! i = Some r →
  delete_many (λ u v, (u == inv_visitorOwnerUserId r) && (res_invitationId v == Some i)) (k_res c)
  = delete_many (λ _ v, res_invitationId v == Some i) (k_res c).
Proof.
  intros Hinv Hi. apply map_eq. intros u. rewrite !lookup_delete_many.
  destruct (k_res c !! u) as [v|] eqn:Hv; [|done]. simpl.
  destruct (res_invitationId v == Some i) eqn:E; [|by rewrite andb_false_r].
  bool_inv. destruct (vi_justified _ Hinv u v Hv) as [(i' & r0 & Ho & Hr0 & <- & _)|[(s & se & k & q & (_ & ? & _) & _)|(s & se & k & q & (_ & ? & _) & _)]]; [|congruence..].
  destruct Ho as (_ & E' & _). simpl in *. rewrite bool_decide_eq_true_2 by congruence. done.
Qed.

Lemma participant_micro c ts k q q' :
  VisitInv (c, ts) → k_par c !! k = Some q → same_participant q q' → par_state q ≠ P_left → par_state q' ≠ P_left →
  micro (c, ts) (c <| k_par := <[k := q']> (k_par c) |>, ts).
Proof.
  intros Hinv Hk Hs Hq Hq'.
  set (p := λ q0, (par_sessionId q0 == par_sessionId q) && (par_userId q0 == par_userId q)).
  assert (∀ k0 q0, k_par c !! k0 = Some q0 → p q0 = true → k0 = k ∧ q0 = q) as Hp.
  { intros k0 q0 Hk0 Hp0. unfold p in Hp0. bool_inv. assert (k0 = k) as ->; [|split; congruence].
    eapply (vi_unique _ Hinv); eauto. }
  replace (<[k := q']> (k_par c)) with (update_many (λ _ q0, p q0) (λ _, q') (k_par c)).
  { apply mi_participants. intros k0 q0 Hk0 Hp0. destruct (Hp _ _ Hk0 Hp0) as [-> ->]. auto. }
  apply map_eq. intros k0. rewrite lookup_update_many. destruct (decide (k0 = k)) as [->|Hne].
  - rewrite lookup_insert_eq, Hk. simpl. unfold p. by rewrite !bool_decide_eq_true_2 by done.
  - rewrite lookup_insert_ne by done. destruct (k_par c !! k0) as [q0|] eqn:E; simpl; [|done].
    destruct (p q0) eqn:Ep; [|done]. by destruct (Hp _ _ E Ep).
Qed.

(** A session ends, with the reservations and participants it held. *)
Lemma end_session_micros c ts s se se' f :
  k_ses c !! s = Some se → same_session se se' → live (ses_state se) = true → live (ses_state se') = false →
  (∀ q, same_participant q (f q) ∧ par_state (f q) = P_left) →
  rtc micro (c, ts) (c <| k_ses := <[s := se']> (k_ses c) |>
                       <| k_res := delete_many (λ _ v, res_sessionId v == Some s) (k_res c) |>
                       <| k_par := update_many (λ _ q, (par_sessionId q == s) && present q) f (k_par c) |>, ts).
Proof.
  intros Hs Hsame Hl Hd Hf. eapply rtc_l; [by apply (mi_terminate c ts s se se')|].
  eapply rtc_l; [apply (mi_release_session (c <| k_ses := <[s := se']> (k_ses c) |>) (RelSes s :: ts) ts s)|].
  - simpl. intros se0. rewrite lookup_insert_eq. intros [= <-]. done.
  - by apply drops_self.
  - apply rtc_once.
    eapply micro_eq; [apply mi_leave_all; [|exact Hf]|done]. simpl. intros se0. rewrite lookup_insert_eq. intros [= <-]. done.
Qed.

(** A session that is already closed is released again. *)
Lemma release_dead_micros c ts s f :
  (∀ se, k_ses c !! s = Some se → live (ses_state se) = false) →
  (∀ q, same_participant q (f q) ∧ par_state (f q) = P_left) →
  rtc micro (c, ts) (c <| k_res := delete_many (λ _ v, res_sessionId v == Some s) (k_res c) |>
                       <| k_par := update_many (λ _ q, (par_sessionId q == s) && present q) f (k_par c) |>, ts).
Proof.
  intros Hd Hf. eapply rtc_l; [apply (mi_release_session c ts ts s); [done|apply drops_nothing]|].
  apply rtc_once. eapply micro_eq; [by apply mi_leave_all|done].
Qed.

Lemma session_micro c ts s se se' :
  k_ses c !! s = Some se → same_session se se' → ses_state se' = ses_state se →
  micro (c, ts) (c <| k_ses := <[s := se']> (k_ses c) |>, ts).
Proof. intros Hs Hsame E. eapply mi_session; [done..|]. rewrite E. unfold forward. by rewrite bool_decide_eq_true_2. Qed.

(** ** Transactions *)

(** [implements m]: a committed run of [m] is a sequence of actions that leaves
    no work behind. *)
Definition implements {A} (m : Tx DB A) : Prop := ∀ d a d' ts,
  VisitInv (core_of d, ts) → m d = Ok (a, d') → rtc micro (core_of d, ts) (core_of d', ts).

(** [core_frame m]: [m] leaves the five tables alone. *)
Notation core_frame := (frame_on core_of).

Lemma frame_implements {A} (m : Tx DB A) : core_frame m → implements m.
Proof. intros Hm d a d' ts _ Hrun. by rewrite (Hm _ _ _ Hrun). Qed.

Lemma implements_bind {A B} (m : Tx DB A) (f : A → Tx DB B) : implements m → (∀ a, implements (f a)) → implements (m ≫= f).
Proof.
  intros Hm Hf d b d' ts Hinv (a & d1 & H1 & H2)%tx_bind_ok. pose proof (Hm _ _ _ _ Hinv H1) as Hr.
  etrans; [exact Hr|]. eapply Hf; [|exact H2]. by eapply micros_inv.
Qed.

Lemma implements_for {A} (l : list A) (f : A → Tx DB unit) : (∀ a, a ∈ l → implements (f a)) → implements (tx_for l f).
Proof.
  induction l as [|x l IH]; simpl; intros Hf.
  - intros d a d' ts _ [_ ->]%tx_ret_ok. done.
  - apply implements_bind; [apply Hf; set_solver|]. intros _. apply IH. intros y Hy. apply Hf. set_solver.
Qed.

(** The store before the writes of a run, which frames separate from the first. *)
Ltac base_state t := lazymatch t with set _ _ ?t' => base_state t' | ?f _ ?t' => base_state t' | _ => t end.
Ltac rebase :=
  match goal with |- rtc micro (core_of ?d, _) (core_of ?d', _) =>
    let b := base_state d' in
    lazymatch b with d => idtac | _ => replace (core_of d) with (core_of b) in * by congruence end end.

Lemma assertEligible_ok a b d u d' : Visit.assertEligible a b d = Ok (u, d') → a ≠ b ∧ d' = d.
Proof.
  unfold Visit.assertEligible, eligible. intros. step_inv. bool_inv.
  split; [by eapply count_open_users_distinct|done].
Qed.
Lemma assertNoReservation_ok u d x d' : assertNoReservation u d = Ok (x, d') → db_reservations d !! u = None ∧ d' = d.
Proof. unfold assertNoReservation. intros. step_inv. by destruct (db_reservations d !! u). Qed.
Lemma frame_create_room_topic k r : core_frame (create_room_topic k r).
Proof. unfold create_room_topic. frame. Qed.
Lemma frame_create_share k r : core_frame (create_share k r).
Proof. unfold create_share. frame. Qed.
#[local] Hint Resolve frame_create_room_topic frame_create_share : frame.

Lemma core_eq d d' : core_of d = core_of d' →
  db_invitations d = db_invitations d' ∧ db_sessions d = db_sessions d' ∧ db_reservations d = db_reservations d' ∧
  db_participants d = db_participants d' ∧ db_joinRequests d = db_joinRequests d'.
Proof. unfold core_of. intros. simplify_eq. done. Qed.

(** The kind of a reservation determines its other columns. *)
Lemma reservation_outgoing c ts u v i :
  VisitInv (c, ts) → k_res c !! u = Some v → res_kind v = K_outgoing_invitation → res_invitationId v = Some i → outgoing i v.
Proof.
  intros Hinv Hv Hk Hi. destruct (vi_justified _ Hinv u v Hv) as [(i' & r & Ho & _)|[(s & se & k & q & (? & _) & _)|(s & se & k & q & (? & _) & _)]]; [|congruence..].
  destruct Ho as (? & ? & ?). unfold outgoing. naive_solver congruence.
Qed.
Lemma reservation_asking c ts u v k :
  VisitInv (c, ts) → k_res c !! u = Some v → res_kind v = K_join_request → res_joinRequestId v = Some k → ∃ s, asking s k v.
Proof.
  intros Hinv Hv Hk Hi. destruct (vi_justified _ Hinv u v Hv) as [(i & r & (? & _) & _)|[(s & se & k' & q & (? & _) & _)|(s & se & k' & q & Ha & _)]]; [congruence..|].
  destruct Ha as (? & ? & ? & ?). exists s. unfold asking. naive_solver congruence.
Qed.

Section transactions.
Context `{!ScanOrder}.
Variable limits : VisitRuntimeLimits.

Lemma assertVisitorOwnerAvailable_ok u d x d' : assertVisitorOwnerAvailable u d = Ok (x, d') → d' = d.
Proof. unfold assertVisitorOwnerAvailable. intros. by step_inv. Qed.
Lemma assertHostCapacity_ok u d x d' : assertHostCapacity u d = Ok (x, d') → d' = d.
Proof. unfold assertHostCapacity. intros. by step_inv. Qed.
Lemma frame_resolveInvitationTopic o h c m t now : core_frame (resolveInvitationTopic o h c m t now).
Proof. unfold resolveInvitationTopic. frame. Qed.
Lemma frame_open_first_topic r s ids now : core_frame (open_first_topic r s ids now).
Proof. unfold open_first_topic. frame. Qed.

Ltac checks :=
  repeat match goal with
  | H : assertNoReservation _ _ = Ok _ |- _ => apply assertNoReservation_ok in H as [? ->]
  | H : Visit.assertEligible _ _ _ = Ok _ |- _ => apply assertEligible_ok in H as [? ->]
  | H : assertVisitorOwnerAvailable _ _ = Ok _ |- _ => apply assertVisitorOwnerAvailable_ok in H as ->
  | H : assertHostCapacity _ _ = Ok _ |- _ => apply assertHostCapacity_ok in H as ->
  | H : open_first_topic _ _ _ _ _ = Ok _ |- _ => apply frame_open_first_topic in H
  | H : resolveInvitationTopic _ _ _ _ _ _ _ = Ok _ |- _ => apply frame_resolveInvitationTopic in H
  end.

Lemma createInvitation_implements owner host mode topicId newId now :
  implements (createInvitation_tx limits owner host mode topicId newId now).
Proof.
  intros d a d' ts Hinv Hrun. unfold createInvitation_tx, create_invitation, create_reservation in Hrun.
  step_inv; option_inv; simplify_eq.
  repeat match goal with H : create_row _ _ _ _ = Some _ |- _ => apply create_row_Some in H as (? & _ & ->) end.
  checks.
  rebase.
  apply rtc_once. eapply micro_eq; [eapply (mi_invite _ _ newId _ owner)|done]; try done; simpl; auto using not_eq_sym.
Qed.

Lemma respondToInvitation_implements userId i role now : implements (respondToInvitation_tx userId i role now).
Proof.
  intros d a d' ts Hinv Hrun. unfold respondToInvitation_tx, alter_invitation in Hrun.
  step_inv; [done|]. unfold delete_reservations. simpl.
  match goal with H : db_invitations _ !! i = Some ?r |- _ => rename r into cur, H into Hcur end.
  rewrite (alter_as_insert _ _ _ _ Hcur). bool_inv.
  match goal with |- context [<[i := ?r']> _] =>
    exact (close_invitation_micros (core_of d) ts i cur r' Hinv Hcur ltac:(done) ltac:(by destruct role) ltac:(by destruct role)) end.
Qed.

Lemma displace_implements host i now : implements (displace_invitations host i now).
Proof.
  intros d a d' ts Hinv Hrun. unfold displace_invitations in Hrun. step_inv.
  set (X := (find_many _ _).*1). eapply rtc_l.
  - refine (mi_close_invitations (core_of d) ts X (λ r, r <| inv_status := I_declined |> <| inv_respondedAt := Some now |> <| inv_assetPackRefId := None |> <| inv_updatedAt := now |>) _).
    intros r. done.
  - apply rtc_once. eapply micro_eq; [eapply (mi_release_invitations _ _ ts X)|done].
    + intros k r HX. simpl. intros (r0 & Hr0 & ->)%lookup_update_many_Some. rewrite bool_decide_eq_true_2 by done. simpl.
      destruct (inv_status r0 == I_pending) eqn:E; [done|]. by bool_inv.
    + intros u v _. simpl. destruct (res_invitationId v) as [k|]; [|naive_solver].
      rewrite bool_decide_eq_true. naive_solver.
    + split; [|set_solver]. intros t [(k & -> & Hk)%list_elem_of_fmap|?]%elem_of_app; eauto.
Qed.

Lemma open_session_micro i r packId ids now d a d' ts v :
  open_session i r packId ids now d = Ok (a, d') →
  db_invitations d !! i = Some r → inv_status r = I_pending → inv_visitorOwnerUserId r ≠ inv_hostUserId r →
  db_reservations d !! inv_visitorOwnerUserId r = Some v → outgoing i v →
  micro (core_of d, ts) (core_of d', ts).
Proof.
  intros Hrun Hi Hp Hne Hv Ho. unfold open_session, alter_invitation, create_session, create_participant, create_reservation in Hrun.
  step_inv; option_inv; simplify_eq. cbn [set db_invitations db_sessions db_participants db_reservations] in *.
  repeat match goal with H : create_row _ _ _ _ = Some _ |- _ =>
    let C := fresh "C" in pose proof H as C; apply create_row_Some in H as (? & ? & ->) end.
  rewrite (alter_as_insert _ _ _ _ Hi) in *. rewrite (alter_as_insert _ _ _ _ Hv) in *.
  eapply micro_eq; [eapply (mi_accept (core_of d) ts i r _ (ai_session ids) _ (ai_hostParticipant ids) _ (ai_ownerParticipant ids) _
    (inv_visitorOwnerUserId r) v _ (inv_hostUserId r) _)|reflexivity].
  all: simpl; auto.
  - done.
  - destruct Ho as (_ & _ & _ & ?). done.
  - match goal with H : <[_ := _]> _ !! inv_hostUserId r = None |- _ => by rewrite lookup_insert_ne in H end.
  - done.
  - intros s' se' Hs' E. match goal with H : ∀ k r', db_sessions d !! k = Some r' → _ |- _ => apply H in Hs' end.
    simpl in Hs'. by rewrite bool_decide_eq_true_2 in Hs'.
  - match goal with H : create_row participant_clash (ai_hostParticipant ids) _ _ = _ |- _ => rewrite H end. done.
Qed.

Lemma acceptInvitation_implements host i ids now : implements (acceptInvitation_tx host i ids now).
Proof.
  intros d a d' ts Hinv Hrun. unfold acceptInvitation_tx, alter_invitation, accept_writes in Hrun.
  step_inv; [done|..];
    match goal with H : db_invitations d !! i = Some ?r |- _ => rename r into cur, H into Hcur end.
  - simpl. rewrite (alter_as_insert _ _ _ _ Hcur). unfold delete_reservations. simpl. bool_inv.
    by apply (close_invitation_micros (core_of d) ts i cur).
  - checks. destruct (db_reservations _ !! inv_visitorOwnerUserId cur) as [v|] eqn:Hv; [|done]. bool_inv.
    match goal with H : open_session _ _ _ _ _ _ = Ok _, H' : displace_invitations _ _ _ _ = Ok _ |- _ =>
      eapply (open_session_micro i cur _ _ _ _ _ _ ts v) in H as Hm; [|try done..]; [|by eapply (reservation_outgoing _ _ _ _ _ Hinv Hv)];
      rename H' into Hdis end.
    match goal with H : core_of d' = _ |- _ => rewrite H end.
    eapply rtc_l; [exact Hm|]. eapply displace_implements; [|exact Hdis]. by eapply micro_inv.
Qed.

(** The participant a session member marks ready is one that may be. *)
Lemma markReady_participants c ts s se userId f role :
  VisitInv (c, ts) → k_ses c !! s = Some se → ses_state se = S_preparing → roleFor se userId = Some role →
  (∀ q, same_participant q (f q) ∧ par_state (f q) = P_ready) →
  micro (c, ts) (c <| k_par := update_many (λ _ q, (par_sessionId q == s) && (par_userId q == userId)) f (k_par c) |>, ts).
Proof.
  intros Hinv Hs Hst Hrole Hf. apply (mi_participants c ts (λ q, (par_sessionId q == s) && (par_userId q == userId))).
  intros k q Hk Hp. bool_inv. destruct (Hf q) as [? E]. split; [done|]. split; [by rewrite E|]. subst.
  unfold roleFor in Hrole. destruct (ses_visitorOwnerUserId se == par_userId q) eqn:Eo; bool_inv.
  - right. split; [|eauto]. destruct (vi_owner _ Hinv _ _ Hs) as (_ & k' & q' & Hk' & Es & Eu & Er). simpl in *.
    assert (k' = k) as -> by (eapply (vi_unique _ Hinv); simpl; eauto; congruence). congruence.
  - destruct (ses_hostUserId se == par_userId q) eqn:Eh; [|done]. bool_inv. left.
    destruct (vi_host _ Hinv _ _ Hs) as (k' & q' & Hk' & Es & Eu & _ & Hl). simpl in *.
    assert (k' = k) as -> by (eapply (vi_unique _ Hinv); simpl; eauto; congruence).
    assert (q' = q) as -> by congruence. apply Hl. by rewrite Hst.
Qed.

Lemma markReady_micros c ts s se se1 userId f role :
  VisitInv (c, ts) → k_ses c !! s = Some se → ses_state se = S_preparing → roleFor se userId = Some role →
  same_session se se1 → ses_state se1 = S_preparing → (∀ q, same_participant q (f q) ∧ par_state (f q) = P_ready) →
  rtc micro (c, ts) (c <| k_ses := <[s := se1]> (k_ses c) |>
    <| k_par := update_many (λ _ q, (par_sessionId q == s) && (par_userId q == userId)) f (k_par c) |>, ts).
Proof.
  intros Hinv Hs Hst Hrole Hsame Hst1 Hf.
  assert (micro (c, ts) (c <| k_ses := <[s := se1]> (k_ses c) |>, ts)) as Hm by (apply (session_micro c ts s se); congruence).
  eapply rtc_l; [exact Hm|]. apply rtc_once.
  eapply micro_eq; [eapply (markReady_participants _ ts s se1 userId f role); [by eapply micro_inv| | | |done]|done].
  - simpl. by rewrite lookup_insert_eq.
  - done.
  - destruct Hsame as (_ & E1 & E2 & _). unfold roleFor in *. by rewrite E1, E2.
Qed.

Lemma markReady_implements userId s now : implements (markReady_tx userId s now).
Proof.
  intros d a d' ts Hinv Hrun. unfold markReady_tx, alter_session in Hrun. cbv zeta in Hrun.
  step_inv; checks; [done|..]; match goal with H : db_sessions d !! s = Some ?se |- _ => rename se into se, H into Hs end;
    unfold update_participants; cbn [set db_sessions]; rewrite (alter_as_insert _ _ _ _ Hs); bool_inv;
    match goal with H : roleFor ?se _ = Some ?role |- context [<[s := ?se1]> (db_sessions d)] =>
      assert (same_session se se1) as Hsame by (by destruct role); assert (ses_state se1 = S_preparing) as Hst by (by destruct role);
      set (se1_ := se1) in *; clearbody se1_;
      match goal with |- context [update_many _ ?f _] =>
        pose proof (markReady_micros (core_of d) ts s se se1_ userId f role Hinv Hs ltac:(done) H Hsame Hst ltac:(done)) as Hms end end.
  - etrans; [exact Hms|]. apply rtc_once.
    rewrite (alter_as_insert _ _ _ _ (lookup_insert_eq _ _ _)). eapply micro_eq; [eapply mi_session|done].
    + simpl. by rewrite lookup_insert_eq.
    + done.
    + simpl. by rewrite Hst.
  - exact Hms.
Qed.

Lemma startSession_implements host s now : implements (startSession_tx host s now).
Proof.
  intros d a d' ts Hinv Hrun. unfold startSession_tx, alter_session in Hrun. step_inv; checks; [done|].
  match goal with H : db_sessions d !! s = Some ?x |- _ => rename x into se, H into Hs end. bool_inv.
  unfold update_participants. cbn [set db_sessions]. rewrite (alter_as_insert _ _ _ _ Hs).
  eapply rtc_l.
  - refine (mi_participants (core_of d) ts (λ p, (par_sessionId p == s) && (par_state p == P_ready))
      (λ p, p <| par_state := P_active |> <| par_seenAt := Some now |> <| par_updatedAt := now |>) _).
    intros k q _ Hq. bool_inv. split; [done|]. split; [done|]. left. congruence.
  - apply rtc_once. eapply micro_eq; [eapply (mi_session _ ts s se)|done]; [done|done|].
    simpl. match goal with E : ses_state se = S_ready |- _ => by rewrite E end.
Qed.

Lemma leave_fields now q :
  same_participant q (q <| par_state := P_left |> <| par_leftAt := Some now |> <| par_assetPackRefId := None |> <| par_updatedAt := now |>) ∧
  par_state (q <| par_state := P_left |> <| par_leftAt := Some now |> <| par_assetPackRefId := None |> <| par_updatedAt := now |>) = P_left.
Proof. done. Qed.

(** Releasing a session: in a state where it is closed, or right after it was
    closed. *)
Lemma releaseSessionReservations_dead s now d u d' ts :
  releaseSessionReservations s now d = Ok (u, d') → (∀ se, db_sessions d !! s = Some se → live (ses_state se) = false) →
  rtc micro (core_of d, ts) (core_of d', ts).
Proof.
  unfold releaseSessionReservations. intros Hrun Hd. step_inv.
  exact (release_dead_micros (core_of d) ts s _ Hd (leave_fields now)).
Qed.

Lemma close_micros s se se' now d u d' ts :
  db_sessions d !! s = Some se → same_session se se' → live (ses_state se) = true → live (ses_state se') = false →
  releaseSessionReservations s now (d <| db_sessions := <[s := se']> (db_sessions d) |>) = Ok (u, d') →
  rtc micro (core_of d, ts) (core_of d', ts).
Proof.
  unfold releaseSessionReservations. intros Hs Hsame Hl Hd Hrun. step_inv.
  exact (end_session_micros (core_of d) ts s se se' _ Hs Hsame Hl Hd (leave_fields now)).
Qed.

Lemma endSession_implements userId s reason now : implements (endSession_tx userId s reason now).
Proof.
  intros d a d' ts Hinv Hrun. unfold endSession_tx, endSessionInTransaction, alter_session in Hrun. cbv zeta in Hrun.
  step_inv; match goal with H : db_sessions _ !! s = Some ?x, H' : releaseSessionReservations _ _ _ = _ |- _ =>
    rename x into se, H into Hs, H' into Hrel end.
  - eapply releaseSessionReservations_dead; [exact Hrel|]. intros se0 ?. simplify_eq. bool_inv.
    unfold SESSION_TERMINAL in *. set_unfold. destruct (ses_state se); naive_solver.
  - rewrite (alter_as_insert _ _ _ _ Hs) in Hrel. refine (close_micros s se _ now d _ d' ts Hs _ _ _ Hrel); [done|done|].
    simpl. by destruct (bool_decide (ses_state se ∈ [S_preparing; S_ready])).
Qed.

Lemma claim_session_ok s seen reason now d b d' :
  claim_session s seen reason now d = Ok (b, d') →
  (b = false ∧ d' = d) ∨
  (∃ se, b = true ∧ db_sessions d !! s = Some se ∧ ses_state se = seen ∧
     d' = d <| db_sessions := <[s := close_session reason now se]> (db_sessions d) |>).
Proof.
  unfold claim_session. intros. step_inv. destruct (db_sessions d !! s) as [se|] eqn:Hs.
  - destruct (ses_state se == seen) eqn:E; bool_inv.
    + right. exists se. rewrite (alter_as_insert _ _ _ _ Hs). by rewrite bool_decide_eq_true_2.
    + left. split; [done|]. rewrite (alter_as_insert _ _ _ _ Hs), bool_decide_eq_false_2, insert_id by done. by destruct d.
  - left. split; [done|]. rewrite alter_id; [by destruct d|]. intros; simplify_eq.
Qed.

Lemma close_session_same reason now se : same_session se (close_session reason now se).
Proof. done. Qed.

Lemma close_claimed_implements reason now kr : live (ses_state kr.2) = true → implements (close_claimed reason now kr).
Proof.
  intros Hl d a d' ts Hinv Hrun. unfold close_claimed in Hrun.
  apply tx_bind_ok in Hrun as (b & d1 & [[-> ->]|(se & -> & Hs & Hst & ->)]%claim_session_ok & Hrun).
  - by step_inv.
  - refine (close_micros kr.1 se _ now d _ d' ts Hs _ _ _ Hrun); [done|by rewrite Hst|apply close_session_dead].
Qed.

Lemma cancel_claimed_implements now k : implements (cancel_claimed now k).
Proof.
  intros d a d' ts Hinv Hrun. unfold cancel_claimed in Hrun. step_inv.
  all: destruct (db_invitations d !! k) as [r|] eqn:Hr; try done; bool_inv.
  - unfold release_invitation, delete_reservations. cbn [set db_invitations db_reservations].
    rewrite (alter_as_insert _ _ _ _ Hr), bool_decide_eq_true_2 by done.
    pose proof (release_invitation_eq _ _ _ _ Hinv Hr) as E. simpl in E. rewrite <- E.
    match goal with |- context [<[k := ?r']> _] =>
      exact (close_invitation_micros (core_of d) ts k r r' Hinv Hr ltac:(done) ltac:(done) ltac:(done)) end.
  - rewrite (alter_as_insert _ _ _ _ Hr), bool_decide_eq_false_2, insert_id by done. by destruct d.
  - rewrite alter_id; [by destruct d|]. intros; simplify_eq.
Qed.

Lemma revokeCompanionVisits_implements companionId reason now : implements (revokeCompanionVisits_tx companionId reason now).
Proof.
  unfold revokeCompanionVisits_tx. intros d a d' ts Hinv Hrun. rewrite !tx_gets_run in Hrun.
  revert d a d' ts Hinv Hrun. intros d.
  assert (∀ (pending : list (rowid * Invitation)) (live_ : list (rowid * Session)), (∀ kr, kr ∈ live_ → live (ses_state (snd kr)) = true) →
    implements (tx_for (fst <$> pending) (cancel_claimed now) ;; tx_for live_ (close_claimed reason now) ;;
      changed ← gets (λ d, (omap (λ k, r ← db_invitations d !! k; Some (k, r)) (fst <$> pending),
                        omap (λ k, s ← db_sessions d !! k; Some (k, s)) live_.*1)); mret changed)) as Himp.
  { intros pending live_ Hl. apply implements_bind; [|intros _; apply implements_bind; [|intros _; apply frame_implements; frame]].
    - apply implements_for. intros. apply cancel_claimed_implements.
    - apply implements_for. intros kr Hkr. by apply close_claimed_implements, Hl. }
  intros a d' ts Hinv Hrun. eapply Himp; [|exact Hinv|exact Hrun].
  intros [k se] Hin%elem_of_find_many. destruct Hin as [_ Hin]. by bool_inv.
Qed.

(** *** Rooms *)

Lemma assertRoomEligible_ok a b d u d' : VisitRoom.assertRoomEligible a b d = Ok (u, d') → d' = d.
Proof. unfold VisitRoom.assertRoomEligible. intros. by step_inv. Qed.
Lemma tx_for_same {A} (l : list A) (f : A → Tx DB unit) d u d' :
  (∀ x d1 u1 d2, f x d1 = Ok (u1, d2) → d2 = d1) → tx_for l f d = Ok (u, d') → d' = d.
Proof. intros Hf. apply (tx_for_inv (λ d1, d1 = d)); [|done]. intros x d1 u1 d2 _ <- Hx. by apply Hf in Hx. Qed.

Lemma length_present s d : length (present_participants s d) = present_count s (db_participants d).
Proof.
  exact (length_find_many _ _).
Qed.

Lemma joinable_live st : joinable st = true → st ∈ [S_ready; S_active] ∧ live st = true.
Proof. unfold joinable. intros. bool_inv. split; [done|]. set_unfold. naive_solver. Qed.

Lemma createJoinRequest_implements userId s topicId newId now : implements (createJoinRequest_tx userId s topicId newId now).
Proof.
  intros d a d' ts Hinv Hrun. unfold createJoinRequest_tx, resolveOwnedTopic, create_join_request, create_reservation in Hrun. cbv zeta in Hrun.
  step_inv; option_inv; simplify_eq; checks;
    repeat match goal with H : create_row _ _ _ _ = Some _ |- _ => apply create_row_Some in H as (? & _ & ->) end;
    match goal with H : tx_for _ _ _ = Ok _ |- _ => apply tx_for_same in H as ->; [|intros; by eapply assertRoomEligible_ok] end;
    bool_inv; apply rtc_once; match goal with H : db_sessions _ !! s = Some ?se |- _ =>
    eapply micro_eq; [eapply (mi_join_request _ _ newId _ userId _ se)|reflexivity] end; try done.
  all: by eapply joinable_live.
Qed.

Lemma set_join_request_ok k f d u d' :
  set_join_request k f d = Ok (u, d') →
  ∃ j, db_joinRequests d !! k = Some j ∧ d' = d <| db_joinRequests := <[k := f j]> (db_joinRequests d) |>.
Proof.
  unfold set_join_request. intros. step_inv. option_inv.
  match goal with H : update_row _ _ _ _ = Some _ |- _ => apply update_row_Some in H as (j & ? & -> & _) end. eauto.
Qed.

(** A join request is closed and its requester released. *)
Lemma close_join_micros c ts k j j' :
  VisitInv (c, ts) → k_join c !! k = Some j → jr_status j = J_pending → jr_status j' ≠ J_pending → same_join j j' →
  rtc micro (c, ts) (c <| k_join := <[k := j']> (k_join c) |>
    <| k_res := delete_many (λ u v, (u == jr_requesterUserId j) && (res_joinRequestId v == Some k)) (k_res c) |>, ts).
Proof.
  intros Hinv Hk Hp Hp' [E1 E2]. eapply rtc_l; [by apply (mi_close_join c ts k j j')|]. apply rtc_once.
  eapply micro_eq; [apply (mi_release_join _ (RelJoin k :: ts) ts k j'); [simpl; by rewrite lookup_insert_eq|done|by apply drops_self]|].
  simpl. by rewrite E2.
Qed.

Lemma respondJoinRequest_implements userId k role now : implements (respondJoinRequest_tx userId k role now).
Proof.
  intros d a d' ts Hinv Hrun. unfold respondJoinRequest_tx in Hrun. cbv zeta in Hrun.
  step_inv; [done|]. match goal with H : set_join_request _ _ _ = Ok _ |- _ => apply set_join_request_ok in H as (j & Hj & ->) end.
  simplify_eq. bool_inv.
  match goal with Hj : db_joinRequests d !! k = Some ?j |- context [<[k := ?j']> _] =>
    exact (close_join_micros (core_of d) ts k j j' Hinv Hj ltac:(done) ltac:(by destruct role) ltac:(by destruct role)) end.
Qed.

Lemma frame_queue_topic r s k now : core_frame (queue_topic r s k now).
Proof. unfold queue_topic. frame. Qed.

Lemma acceptJoinRequest_implements host k pk tk now : implements (acceptJoinRequest_tx host k pk tk now).
Proof.
  intros d a d' ts Hinv Hrun. unfold acceptJoinRequest_tx, create_participant in Hrun. cbv zeta in Hrun.
  step_inv; [done|]; option_inv; simplify_eq.
  match goal with H1 : db_joinRequests d !! k = Some ?x |- _ => rename x into req, H1 into Hreq end.
  match goal with H : tx_for _ _ _ = Ok _ |- _ => apply tx_for_same in H as ->; [|intros; by eapply assertRoomEligible_ok] end.
  match goal with H : set_join_request _ _ _ = Ok _ |- _ => apply set_join_request_ok in H as (j & Hj & ->) end.
  match goal with H : queue_topic _ _ _ _ _ = Ok _ |- _ => apply frame_queue_topic in H as -> end.
  match goal with H : create_row participant_clash _ _ _ = Some _ |- _ =>
    let C := fresh "C" in pose proof H as C; apply create_row_Some in H as (? & ? & ->) end.
  cbn [set db_reservations db_joinRequests db_participants] in *.
  assert (j = req) as -> by congruence.
  destruct (db_reservations d !! jr_requesterUserId req) as [v|] eqn:Hv; [|done]. bool_inv.
  rewrite (alter_as_insert _ _ _ _ Hv).
  destruct (reservation_asking _ _ _ _ k Hinv Hv) as (s' & Ha); [done..|].
  match goal with H : joinable _ = true |- _ => apply joinable_live in H as [? _] end.
  match goal with H : db_sessions d !! _ = Some ?se |- _ =>
    apply rtc_once; eapply micro_eq; [eapply (mi_join_accept (core_of d) ts k req _ pk _ (jr_requesterUserId req) v _ se)|reflexivity] end; try done.
  - destruct Ha as (_ & ? & _). done.
  - simpl. by rewrite <- length_present.
Qed.

Lemma find_participant_ok s u d k q :
  find_participant s u d = Some (k, q) → db_participants d !! k = Some q ∧ par_sessionId q = s ∧ par_userId q = u.
Proof. unfold find_participant. intros [? ?]%find_unique_Some. by bool_inv. Qed.

Lemma markParticipantReady_implements userId s now : implements (markParticipantReady_tx userId s now).
Proof.
  intros d a d' ts Hinv Hrun. unfold markParticipantReady_tx, alter_participant in Hrun. cbv zeta in Hrun.
  step_inv; [done|]. match goal with H : find_participant _ _ _ = Some ?x |- _ => destruct x as [k q]; apply find_participant_ok in H as (Hk & ? & ?) end.
  match goal with H : tx_for _ _ _ = Ok (_, ?y) |- _ => assert (core_of y = core_of d) as E end.
  { match goal with H : tx_for _ _ _ = Ok _ |- _ => revert H end. apply frame_for. intros. unfold upsert_readiness. frame. }
  rewrite <- E in *. apply core_eq in E as (_ & _ & _ & E & _). rewrite <- E in Hk. cbn [fst snd] in *.
  rewrite (alter_as_insert _ _ _ _ Hk). bool_inv. apply rtc_once. 
  eapply micro_eq; [eapply participant_micro; [exact Hinv|exact Hk|..]|reflexivity]; try done.
  set_unfold. naive_solver congruence.
Qed.

Lemma leaveRoom_implements userId s now : implements (leaveRoom_tx userId s now).
Proof.
  intros d a d' ts Hinv Hrun. unfold leaveRoom_tx, alter_participant in Hrun. cbv zeta in Hrun.
  step_inv; [done|]. match goal with H : find_participant _ _ _ = Some ?x |- _ => destruct x as [k q]; apply find_participant_ok in H as (Hk & <- & <-) end.
  cbn [fst snd] in *. unfold delete_reservations. cbn [set db_participants db_reservations].
  rewrite (alter_as_insert _ _ _ _ Hk). bool_inv. apply rtc_once.
  eapply micro_eq; [eapply (mi_leave_one _ _ k q)|reflexivity]; done.
Qed.

(** *** Dialogues *)

Context `{!DistinctOrder}.
Variable uuid : string → rowid.

Lemma frame_ensureMoment s n share now : core_frame (ensureMoment uuid s n share now).
Proof.
  unfold ensureMoment, settleRelationships, settle_pair, updateRelationshipPair. cbv zeta. frame.
Qed.
Lemma frame_requireParticipantSession userId s : core_frame (VisitSocial.requireParticipantSession userId s).
Proof. unfold VisitSocial.requireParticipantSession. frame. Qed.
Lemma socialEligible_ok l d u d' : VisitSocial.assertRoomEligible l d = Ok (u, d') → d' = d.
Proof. apply tx_for_same. intros. by step_inv. Qed.
Lemma frame_assertRoomEligible l : core_frame (VisitSocial.assertRoomEligible l).
Proof. unfold VisitSocial.assertRoomEligible. frame. Qed.
Lemma frame_alter_room_topic k f : core_frame (alter_room_topic k f).
Proof. unfold alter_room_topic. frame. Qed.
Lemma frame_create_turn k t : core_frame (create_turn k t).
Proof. unfold create_turn. frame. Qed.
#[local] Hint Resolve frame_ensureMoment frame_requireParticipantSession frame_assertRoomEligible frame_alter_room_topic frame_create_turn : frame.

Lemma finalizeMoment_implements userId s now : implements (finalizeMoment_tx uuid userId s now).
Proof. apply frame_implements. unfold finalizeMoment_tx. frame. Qed.
Lemma setShare_implements userId s share now : implements (setShare_tx uuid userId s share now).
Proof. apply frame_implements. unfold setShare_tx, upsert_first_topic. cbv zeta. frame. Qed.

Lemma endRoom_implements s reason now d u d' ts :
  endRoom s reason now d = Ok (u, d') → (∀ se, db_sessions d !! s = Some se → live (ses_state se) = true) →
  is_Some (db_sessions d !! s) → rtc micro (core_of d, ts) (core_of d', ts).
Proof.
  unfold endRoom, alter_session. intros Hrun Hl [se Hs]. apply tx_bind_ok in Hrun as (? & ? & ->%tx_modify_ok & Hrun).
  rewrite (alter_as_insert _ _ _ _ Hs) in Hrun.
  by refine (close_micros s se _ now d _ d' ts Hs _ (Hl _ Hs) _ Hrun).
Qed.

(** Inside a turn the session is active. *)
Definition in_active (s : rowid) (d : DB) : Prop := ∃ se, db_sessions d !! s = Some se ∧ ses_state se = S_active.

Lemma finish_implements s reason n share now d p p' d' ts :
  in_active s d → (endRoom s reason now ;; ensureMoment uuid s n share now ;; mret p : Tx DB Progress) d = Ok (p', d') →
  rtc micro (core_of d, ts) (core_of d', ts).
Proof.
  intros (se & Hs & Hst) Hrun. apply tx_bind_ok in Hrun as (? & d1 & Hend & Hrun).
  etrans; [eapply (endRoom_implements s reason now d); [exact Hend|congruence || (intros; simplify_eq; by rewrite Hst)|eauto]|].
  apply tx_bind_ok in Hrun as (? & d2 & H2%frame_ensureMoment & [_ <-]%tx_ret_ok). by rewrite H2.
Qed.

Lemma progressRoom_implements s t n intent share now d p d' ts :
  in_active s d → VisitInv (core_of d, ts) → progressRoom uuid s t n intent share now d = Ok (p, d') →
  rtc micro (core_of d, ts) (core_of d', ts).
Proof.
  intros Hact Hinv Hrun. unfold progressRoom in Hrun. cbv zeta in Hrun. rewrite tx_gets_run in Hrun.
  destruct (negb _ && negb _ && negb _); [by step_inv|].
  apply tx_bind_ok in Hrun as (? & d1 & H1%frame_alter_room_topic & Hrun). rewrite tx_gets_run in Hrun.
  assert (in_active s d1) as Hact1.
  { destruct Hact as (se & ? & ?). exists se. apply core_eq in H1 as (_ & -> & _). done. }
  rewrite <- H1 in *. match type of Hrun with context [if ?b then None else ?o] => destruct (if b then None else o) as [[k t']|] end.
  - destruct Hact1 as (se & Hs & _). unfold alter_session in Hrun. step_inv.
    match goal with H : alter_room_topic _ _ _ = Ok (_, ?y) |- _ => apply frame_alter_room_topic in H as E end.
    rewrite <- E in *. apply core_eq in E as (_ & E & _). rewrite <- E in Hs. rewrite (alter_as_insert _ _ _ _ Hs).
    apply rtc_once.
    eapply micro_eq; [eapply (session_micro _ _ s se); [exact Hs|..]|reflexivity]; done.
  - eapply finish_implements; [exact Hact1|exact Hrun].
Qed.

Lemma appendTurn_implements userId s input now : implements (appendTurn_tx uuid userId s input now).
Proof.
  intros d a d' ts Hinv Hrun. unfold appendTurn_tx, VisitSocial.requireParticipantSession in Hrun. cbv zeta in Hrun.
  step_inv.
  all: match goal with H : VisitSocial.assertRoomEligible _ _ = Ok _ |- _ => apply socialEligible_ok in H as -> end.
  1: done.
  all: match goal with H : create_turn _ _ _ = Ok _ |- _ => apply frame_create_turn in H as E end; rewrite <- E in *; bool_inv.
  all: match goal with H : db_sessions _ !! _ = Some ?se, H' : ses_state ?se = S_active |- _ => rename H into Hs, H' into Hst end.
  all: apply core_eq in E as (_ & E & _); rewrite <- E in Hs.
  - eapply progressRoom_implements; [by eexists|done|done].
  - match goal with H : progressLegacyRoom _ _ _ _ _ _ = Ok _ |- _ => rename H into Hrun end.
    unfold progressLegacyRoom in Hrun. destruct (_ <? _); [by step_inv|].
    eapply finish_implements; [by eexists|exact Hrun].
Qed.

End transactions.

(** ** The program as steps

    A command is one committed transaction, or one of the statements a closing
    loop or a heartbeat runs on its own.  [exec] is [None] when the command is
    not one the program can issue then, or when its transaction throws. *)

Inductive Command :=
  | CreateInvitation (owner host : rowid) (mode : option VisitMode) (topicId : option rowid) (newId : rowid) (now : instant)
  | AcceptInvitation (host invitationId : rowid) (ids : AcceptIds) (now : instant)
  | RespondToInvitation (userId invitationId : rowid) (role : SessionRole) (now : instant)
  | MarkReady (userId sessionId : rowid) (now : instant)
  | StartSession (host sessionId : rowid) (now : instant)
  | EndSession (userId sessionId : rowid) (reason : option string) (now : instant)
  | RevokeCompanionVisits (companionId : rowid) (reason : string) (now : instant)
  | CreateJoinRequest (userId sessionId : rowid) (topicId : option rowid) (newId : rowid) (now : instant)
  | AcceptJoinRequest (host joinRequestId participantId topicRowId : rowid) (now : instant)
  | RespondJoinRequest (userId joinRequestId : rowid) (role : JoinRole) (now : instant)
  | MarkParticipantReady (userId sessionId : rowid) (now : instant)
  | LeaveRoom (userId sessionId : rowid) (now : instant)
  | AppendTurn (uuid : string → rowid) (userId sessionId : rowid) (input : AppendTurnInput) (now : instant)
  | FinalizeMoment (uuid : string → rowid) (userId sessionId : rowid) (now : instant)
  | SetShare (uuid : string → rowid) (userId sessionId : rowid) (share : SanitizedShare) (now : instant)
  | ClaimSession (sessionId : rowid) (seen : SessionState) (reason : string) (now : instant)
  | ClaimInvitation (invitationId : rowid) (now : instant)
  | ClaimJoinRequest (joinRequestId : rowid) (now : instant)
  | ReleaseClaim (t : Task)
  | LeaveClosed (sessionId : rowid) (now : instant)
  | SeenParticipant (userId sessionId : rowid) (now : instant)
  | SeenSession (sessionId : rowid) (role : SessionRole) (now : instant).

(** The statements of [heartbeat]. *)
Definition seen_participant (userId sessionId : rowid) (now : instant) : DB → DB :=
  update_participants (λ p, (par_sessionId p == sessionId) && (par_userId p == userId) && (par_state p != P_left))
    (λ p, p <| par_seenAt := Some now |> <| par_updatedAt := now |>).
Definition seen_session (sessionId : rowid) (role : SessionRole) (now : instant) (d : DB) : DB :=
  d <| db_sessions := alter (λ s, match role with
                                  | as_owner => s <| ses_visitorOwnerSeenAt := Some now |> <| ses_updatedAt := now |>
                                  | as_host => s <| ses_hostSeenAt := Some now |> <| ses_updatedAt := now |>
                                  end) sessionId (db_sessions d) |>.

(** The deletion a claim still owes. *)
Definition release_claim (t : Task) (d : DB) : DB :=
  match t with
  | RelInv i => release_invitation i d
  | RelSes s => release_session s d
  | RelJoin k =>
      match db_joinRequests d !! k with
      | Some j => delete_reservations (λ u r, (u == jr_requesterUserId j) && (res_joinRequestId r == Some k)) d
      | None => d
      end
  end.

Fixpoint forget (t : Task) (ts : list Task) : list Task :=
  match ts with [] => [] | t' :: ts' => if bool_decide (t' = t) then ts' else t' :: forget t ts' end.

Section steps.
Context `{!ScanOrder} `{!DistinctOrder}.
Variable limits : VisitRuntimeLimits.

Definition committed {A} (m : Tx DB A) (cfg : DB * list Task) : option (DB * list Task) :=
  match m cfg.1 with Ok (_, d) => Some (d, cfg.2) | Err _ => None end.
Definition claimed (m : Tx DB bool) (t : Task) (cfg : DB * list Task) : option (DB * list Task) :=
  match m cfg.1 with Ok (b, d) => Some (d, if b then t :: cfg.2 else cfg.2) | Err _ => None end.

Definition exec (c : Command) (cfg : DB * list Task) : option (DB * list Task) :=
  match c with
  | CreateInvitation o h m t k now => committed (createInvitation_tx limits o h m t k now) cfg
  | AcceptInvitation h i ids now => committed (acceptInvitation_tx h i ids now) cfg
  | RespondToInvitation u i role now => committed (respondToInvitation_tx u i role now) cfg
  | MarkReady u s now => committed (markReady_tx u s now) cfg
  | StartSession h s now => committed (startSession_tx h s now) cfg
  | EndSession u s reason now => committed (endSession_tx u s reason now) cfg
  | RevokeCompanionVisits c reason now => committed (revokeCompanionVisits_tx c reason now) cfg
  | CreateJoinRequest u s t k now => committed (createJoinRequest_tx u s t k now) cfg
  | AcceptJoinRequest h k p t now => committed (acceptJoinRequest_tx h k p t now) cfg
  | RespondJoinRequest u k role now => committed (respondJoinRequest_tx u k role now) cfg
  | MarkParticipantReady u s now => committed (markParticipantReady_tx u s now) cfg
  | LeaveRoom u s now => committed (leaveRoom_tx u s now) cfg
  | AppendTurn uuid u s input now => committed (appendTurn_tx uuid u s input now) cfg
  | FinalizeMoment uuid u s now => committed (finalizeMoment_tx uuid u s now) cfg
  | SetShare uuid u s share now => committed (setShare_tx uuid u s share now) cfg
  | ClaimSession s seen reason now => if live seen then claimed (claim_session s seen reason now) (RelSes s) cfg else None
  | ClaimInvitation i now => claimed (claim_invitation now i) (RelInv i) cfg
  | ClaimJoinRequest k now => claimed (claim_join_request now k) (RelJoin k) cfg
  | ReleaseClaim t => if bool_decide (t ∈ cfg.2) then Some (release_claim t cfg.1, forget t cfg.2) else None
  | LeaveClosed s now =>
      match db_sessions cfg.1 !! s with
      | Some se => if live (ses_state se) then None else Some (leave_all s now cfg.1, cfg.2)
      | None => None
      end
  | SeenParticipant u s now => Some (seen_participant u s now cfg.1, cfg.2)
  | SeenSession s role now => Some (seen_session s role now cfg.1, cfg.2)
  end.

(** A step of the program: a command, or anything that leaves the five tables
    alone. *)
Inductive visit_step : DB * list Task → DB * list Task → Prop :=
  | vs_command c cfg cfg' : exec c cfg = Some cfg' → visit_step cfg cfg'
  | vs_elsewhere d d' ts : core_of d' = core_of d → visit_step (d, ts) (d', ts).

(** The databases of a deployment: reached from one without visits. *)
Definition reachable (cfg : DB * list Task) : Prop :=
  ∃ d0, core_of d0 = core_of empty_db ∧ rtc visit_step (d0, []) cfg.
End steps.

(** ** Steps implement actions *)

Section refinement.
Context `{!ScanOrder} `{!DistinctOrder}.
Variable limits : VisitRuntimeLimits.

Lemma claim_invitation_ok now i d b d' :
  claim_invitation now i d = Ok (b, d') →
  (b = false ∧ d' = d) ∨
  (∃ r r', b = true ∧ db_invitations d !! i = Some r ∧ inv_status r = I_pending ∧ inv_status r' = I_expired ∧
     same_invitation r r' ∧ d' = d <| db_invitations := <[i := r']> (db_invitations d) |>).
Proof.
  unfold claim_invitation. intros. step_inv. destruct (db_invitations d !! i) as [r|] eqn:Hr.
  - rewrite (alter_as_insert _ _ _ _ Hr). destruct (_ && _) eqn:E; bool_inv.
    + right. match goal with |- context [<[i := ?r']> _] => by exists r, r' end.
    + left. split; [done|]. rewrite insert_id by done. by destruct d.
  - left. split; [done|]. rewrite alter_id; [by destruct d|]. intros; simplify_eq.
Qed.

Lemma claim_join_ok now k d b d' :
  claim_join_request now k d = Ok (b, d') →
  (b = false ∧ d' = d) ∨
  (∃ j j', b = true ∧ db_joinRequests d !! k = Some j ∧ jr_status j = J_pending ∧ jr_status j' = J_expired ∧
     same_join j j' ∧ d' = d <| db_joinRequests := <[k := j']> (db_joinRequests d) |>).
Proof.
  unfold claim_join_request. intros. step_inv.
  - match goal with H : set_join_request _ _ _ = Ok _ |- _ => apply set_join_request_ok in H as (j & Hj & ->) end.
    right. rewrite Hj in *. bool_inv. match goal with |- context [<[k := ?j']> _] => by exists j, j' end.
  - left. done.
Qed.

Lemma forget_drops (done : Task → Prop) t ts : done t → drops done ts (forget t ts).
Proof.
  intros Ht. induction ts as [|t' ts [IH1 IH2]]; simpl; [apply drops_nothing|].
  case_bool_decide as E; [subst; by apply drops_self|]. split; intros t0; rewrite !elem_of_cons; naive_solver.
Qed.


Lemma seen_participant_micro u s now d ts : micro (core_of d, ts) (core_of (seen_participant u s now d), ts).
Proof.
  refine (mi_participants (core_of d) ts (λ p, (par_sessionId p == s) && (par_userId p == u) && (par_state p != P_left))
    (λ p, p <| par_seenAt := Some now |> <| par_updatedAt := now |>) _).
  intros k q _ Hq. bool_inv. split_and!; [done|done|by left].
Qed.

Lemma seen_session_micros s role now d ts : rtc micro (core_of d, ts) (core_of (seen_session s role now d), ts).
Proof.
  unfold seen_session. destruct (db_sessions d !! s) as [se|] eqn:Hs.
  - rewrite (alter_as_insert _ _ _ _ Hs). apply rtc_once.
    eapply micro_eq; [eapply (session_micro _ _ s se); [exact Hs|..]|reflexivity]; by destruct role.
  - rewrite alter_id; [by destruct d|]. intros; simplify_eq.
Qed.

Lemma leave_closed_micro s se now d ts :
  db_sessions d !! s = Some se → live (ses_state se) = false → micro (core_of d, ts) (core_of (leave_all s now d), ts).
Proof.
  intros Hs Hl. refine (mi_leave_all (core_of d) ts s _ _ (leave_fields now)). simpl. intros se' Hse'. congruence.
Qed.
(** The rows of the tasks are closed. *)
Definition task_closed (c : Core) (t : Task) : Prop :=
  match t with
  | RelInv i => ∃ r, k_inv c !! i = Some r ∧ inv_status r ≠ I_pending
  | RelSes s => ∃ se, k_ses c !! s = Some se ∧ live (ses_state se) = false
  | RelJoin k => ∃ j, k_join c !! k = Some j ∧ jr_status j ≠ J_pending
  end.
Lemma task_closed_evolves c c' t : evolves c c' → task_closed c t → task_closed c' t.
Proof.
  intros [I S J]. destruct t; simpl; intros (r & Hr & Hc).
  - apply I in Hr as (r' & ? & _ & ?). exists r'. split; [done|]. naive_solver congruence.
  - apply S in Hr as (r' & ? & _ & C). exists r'. split; [done|]. destruct C as [E|[? _]]; [by rewrite E|congruence].
  - apply J in Hr as (r' & ? & _ & ?). exists r'. split; [done|]. naive_solver congruence.
Qed.

Definition StepInv (cfg : DB * list Task) : Prop :=
  VisitInv (core_of cfg.1, cfg.2) ∧ ∀ t, t ∈ cfg.2 → task_closed (core_of cfg.1) t.

Lemma release_micro t d ts :
  StepInv (d, ts) → t ∈ ts → micro (core_of d, ts) (core_of (release_claim t d), forget t ts).
Proof.
  intros [Hinv Hcl] Ht. specialize (Hcl t Ht). simpl in *. destruct t as [i|s|k]; destruct Hcl as (r & Hr & Hc); simpl in *.
  - refine (mi_release_invitations (core_of d) ts (forget (RelInv i) ts) [i] (λ _ v, res_invitationId v == Some i) _ _ _).
    + simpl. intros i' r' ->%list_elem_of_singleton ?. congruence.
    + intros u v _. rewrite bool_decide_eq_true. set_solver.
    + apply forget_drops. exists i. set_solver.
  - refine (mi_release_session (core_of d) ts (forget (RelSes s) ts) s _ _); [simpl; congruence|by apply forget_drops].
  - rewrite Hr. refine (mi_release_join (core_of d) ts (forget (RelJoin k) ts) k r Hr Hc _). by apply forget_drops.
Qed.

Lemma claimed_case {m t d ts d' ts'} :
  claimed m t (d, ts) = Some (d', ts') → ∃ b, m d = Ok (b, d') ∧ ts' = if b then t :: ts else ts.
Proof. unfold claimed. simpl. destruct (m d) as [[b ?]|]; intros; simplify_eq. eauto. Qed.

Lemma committed_case {A} {m : Tx DB A} {d ts d' ts'} :
  committed m (d, ts) = Some (d', ts') → ∃ a, m d = Ok (a, d') ∧ ts' = ts.
Proof. unfold committed. simpl. destruct (m d) as [[a ?]|]; intros; simplify_eq. eauto. Qed.

Lemma committed_micros {A} (m : Tx DB A) d ts d' ts' :
  implements m → VisitInv (core_of d, ts) → committed m (d, ts) = Some (d', ts') →
  rtc micro (core_of d, ts) (core_of d', ts') ∧ ∀ t, t ∈ ts' → t ∈ ts ∨ task_closed (core_of d') t.
Proof. intros Hm Hinv (a & Hrun & ->)%committed_case. split; [by eapply Hm|auto]. Qed.

Lemma forget_subset t ts t' : t' ∈ forget t ts → t' ∈ ts.
Proof. intros Ht. by apply (forget_drops (λ _, True) t ts). Qed.

Lemma exec_micros c d ts d' ts' :
  StepInv (d, ts) → exec limits c (d, ts) = Some (d', ts') →
  rtc micro (core_of d, ts) (core_of d', ts') ∧ ∀ t, t ∈ ts' → t ∈ ts ∨ task_closed (core_of d') t.
Proof.
  intros Hst Hrun. pose proof (proj1 Hst) as Hinv. simpl in Hinv.
  destruct c; cbn [exec] in Hrun; try (eapply committed_micros; [|exact Hinv|exact Hrun]).
  - apply createInvitation_implements.
  - apply acceptInvitation_implements.
  - apply respondToInvitation_implements.
  - apply markReady_implements.
  - apply startSession_implements.
  - apply endSession_implements.
  - apply revokeCompanionVisits_implements.
  - apply createJoinRequest_implements.
  - apply acceptJoinRequest_implements.
  - apply respondJoinRequest_implements.
  - apply markParticipantReady_implements.
  - apply leaveRoom_implements.
  - apply appendTurn_implements.
  - apply finalizeMoment_implements.
  - apply setShare_implements.
  - destruct (live seen) eqn:Hl; [|done].
    apply claimed_case in Hrun as (b & [[-> ->]|(se & -> & Hs & Hse & ->)]%claim_session_ok & ->); [split; [done|auto]|]. split.
    + apply rtc_once. refine (mi_terminate (core_of d) ts sessionId se _ Hs _ _ _); [done|by rewrite Hse|apply close_session_dead].
    + intros t [->|?]%elem_of_cons; [|auto]. right. simpl. rewrite lookup_insert_eq. eexists. split; [done|apply close_session_dead].
  - apply claimed_case in Hrun as (b & [[-> ->]|(r & r' & -> & Hr & Hp & Hp' & Hsame & ->)]%claim_invitation_ok & ->); [split; [done|auto]|]. split.
    + apply rtc_once. refine (close_invitation_micro (core_of d) ts invitationId r r' Hr Hp _ Hsame). by rewrite Hp'.
    + intros t [->|?]%elem_of_cons; [|auto]. right. simpl. rewrite lookup_insert_eq. eexists. split; [done|]. by rewrite Hp'.
  - apply claimed_case in Hrun as (b & [[-> ->]|(j & j' & -> & Hj & Hp & Hp' & Hsame & ->)]%claim_join_ok & ->); [split; [done|auto]|]. split.
    + apply rtc_once. refine (mi_close_join (core_of d) ts joinRequestId j j' Hj Hp _ Hsame). by rewrite Hp'.
    + intros t [->|?]%elem_of_cons; [|auto]. right. simpl. rewrite lookup_insert_eq. eexists. split; [done|]. by rewrite Hp'.
  - case_bool_decide as Ht; [|done]. simplify_eq. split; [by apply rtc_once, release_micro|]. intros t' ?%forget_subset. auto.
  - simpl in Hrun. destruct (db_sessions d !! sessionId) as [se|] eqn:Hs; [|done]. destruct (live (ses_state se)) eqn:Hl; [done|].
    simplify_eq. split; [|auto]. by eapply rtc_once, leave_closed_micro.
  - simplify_eq. split; [|auto]. apply rtc_once, seen_participant_micro.
  - simplify_eq. split; [|auto]. apply seen_session_micros.
Qed.

Lemma step_micros cfg cfg' :
  StepInv cfg → visit_step limits cfg cfg' →
  rtc micro (core_of cfg.1, cfg.2) (core_of cfg'.1, cfg'.2) ∧ StepInv cfg'.
Proof.
  intros Hst Hstep. assert (rtc micro (core_of cfg.1, cfg.2) (core_of cfg'.1, cfg'.2) ∧
    ∀ t, t ∈ cfg'.2 → t ∈ cfg.2 ∨ task_closed (core_of cfg'.1) t) as [Hm Hnew].
  { destruct Hstep as [c [d ts] [d2 ts2] Hrun|d d2 ts E]; simpl; [by eapply exec_micros|]. rewrite E. split; [done|auto]. }
  split; [done|]. destruct Hst as [Hinv Hcl]. split; [by eapply micros_inv|].
  intros t [?|?]%Hnew; [|done]. eapply (task_closed_evolves (core_of cfg.1)); [|auto]. by apply micros_evolve in Hm.
Qed.

Lemma steps_micros cfg cfg' :
  StepInv cfg → rtc (visit_step limits) cfg cfg' →
  rtc micro (core_of cfg.1, cfg.2) (core_of cfg'.1, cfg'.2) ∧ StepInv cfg'.
Proof.
  intros Hst Hsteps. induction Hsteps as [|c1 c2 c3 H1 _ IH]; [done|].
  destruct (step_micros _ _ Hst H1) as [Hm Hst2]. destruct (IH Hst2). split; [by etrans|done].
Qed.

Lemma StepInv_empty d : core_of d = core_of empty_db → StepInv (d, []).
Proof.
  intros E. split; [|by intros t ?%elem_of_nil]. simpl. rewrite E.
  split; simpl; intros *; try (rewrite lookup_empty; done).
Qed.

Lemma reachable_inv cfg : reachable limits cfg → StepInv cfg.
Proof. intros (d0 & E & Hsteps). by apply (steps_micros _ _ (StepInv_empty _ E)) in Hsteps as [_ ?]. Qed.
End refinement.
