(* ===== verification/VisitSafety.v ===== *)
(** * Safety of visits

    What holds in every database a deployment can reach, whatever the requests
    and however the closing loops interleave with them; and, at the end, the
    run that leaves a participant without a reservation. *)

From S2P Require Import Prelude Tables JsText Json Schema Interfaces Config AssetManifest Visit VisitCore VisitRoom VisitSocial VisitSteps.
Local Open Scope Z_scope.

(** ** A small deployment

    Three friends, each with a published companion that may visit, and a run of
    commands on it. *)

Definition demo_pack (companion : rowid) : AssetPack :=
  mkAssetPack companion (lit "hash") 1 (demo_manifest (JStr (lit "static")) VISUAL_VISIT_REQUIRED_ANIMATIONS) PK_active
    (lit "prefix") 1 10 None None None 0 0 None None None.
Definition demo_companion (owner pack : rowid) : Companion :=
  mkCompanion owner (lit owner) None [] "friends_only" true false "friends" true (Some pack) 0 0 None.
Definition demo_member (name companion : rowid) : User := (demo_user name) <| u_activeNetworkCompanionId := Some companion |>.
Definition all_pairs (l : list rowid) : list (rowid * rowid) :=
  l ≫= λ a, omap (λ b, if bool_decide (a = b) then None else Some (a, b)) l.

Definition demo_visits : DB :=
  empty_db
    <| db_users := list_to_map [("alice", demo_member "alice" "ca"); ("bob", demo_member "bob" "cb"); ("carol", demo_member "carol" "cc"); ("dave", demo_member "dave" "cd")] |>
    <| db_friendships := list_to_set (all_pairs ["alice"; "bob"; "carol"; "dave"]) |>
    <| db_companions := list_to_map [("ca", demo_companion "alice" "pa"); ("cb", demo_companion "bob" "pb"); ("cc", demo_companion "carol" "pc"); ("cd", demo_companion "dave" "pd")] |>
    <| db_assetPacks := list_to_map [("pa", demo_pack "ca"); ("pb", demo_pack "cb"); ("pc", demo_pack "cc"); ("pd", demo_pack "cd")] |>.

Definition demo_limits : VisitRuntimeLimits := mkVisitRuntimeLimits 24 10 45 20 60.

#[local] Existing Instance key_order.
#[local] Existing Instance first_occurrence.

Fixpoint run_commands (cs : list Command) (cfg : DB * list Task) : option (DB * list Task) :=
  match cs with [] => Some cfg | c :: cs' => exec demo_limits c cfg ≫= run_commands cs' end.

Lemma run_commands_steps cs cfg cfg' : run_commands cs cfg = Some cfg' → rtc (visit_step demo_limits) cfg cfg'.
Proof.
  revert cfg. induction cs as [|c cs IH]; simpl; intros cfg Hrun; [by simplify_eq|].
  apply bind_Some in Hrun as (cfg1 & H1 & H2). eapply rtc_l; [by eapply vs_command|eauto].
Qed.

(** alice visits bob; carol asks to join and is let in. *)
Definition demo_ids (n : string) : AcceptIds := mkAcceptIds (n +:+ "s") (n +:+ "h") (n +:+ "o") (n +:+ "t") (n +:+ "e").
Definition demo_run : list Command :=
  [CreateInvitation "alice" "bob" None None "i1" 1; AcceptInvitation "bob" "i1" (demo_ids "1") 2;
   MarkReady "alice" "1s" 3; MarkReady "bob" "1s" 4;
   CreateJoinRequest "carol" "1s" None "j1" 5; AcceptJoinRequest "bob" "j1" "1g" "t2" 6].

Definition finish (o : option (DB * list Task)) : DB * list Task := default (demo_visits, []) o.
Definition settled (cs : list Command) : bool :=
  match run_commands cs (demo_visits, []) with Some (_, []) => true | _ => false end.
Definition db_after (cs : list Command) : DB := (finish (run_commands cs (demo_visits, []))).1.

Lemma settled_reachable cs : settled cs = true → reachable demo_limits (db_after cs, []).
Proof.
  unfold settled, db_after. destruct (run_commands cs (demo_visits, [])) as [[d [|t ts]]|] eqn:E; try done.
  intros _. exists demo_visits. split; [done|]. by eapply run_commands_steps.
Qed.

Definition demo_db : DB := db_after demo_run.
Lemma demo_reachable : reachable demo_limits (demo_db, []).
Proof. apply settled_reachable. vm_compute. reflexivity. Qed.

Definition participant_at (d : DB) (k : rowid) : Participant :=
  default (mkParticipant "" "" "" "" None R_host P_left None None 0 None 0 0) (db_participants d !! k).
Definition session_at (d : DB) (s : rowid) : Session :=
  default (mkSession "" "" "" None "" "" None VM_standard 3 1 S_ended None None None None None None None None None None 0 0) (db_sessions d !! s).

Section safety.
Context `{!ScanOrder} `{!DistinctOrder}.
Variable limits : VisitRuntimeLimits.

(** What a reservation stands for. *)
Definition backs_invitation (d : DB) (u : rowid) (v : Reservation) : Prop :=
  ∃ i r, outgoing i v ∧ db_invitations d !! i = Some r ∧ inv_visitorOwnerUserId r = u ∧ inv_status r = I_pending.
Definition backs_session (d : DB) (u : rowid) (v : Reservation) : Prop :=
  ∃ s se k q, in_session s v ∧ db_sessions d !! s = Some se ∧ live (ses_state se) = true ∧
    db_participants d !! k = Some q ∧ par_sessionId q = s ∧ par_userId q = u ∧ par_state q ≠ P_left.
Definition backs_join_request (d : DB) (u : rowid) (v : Reservation) : Prop :=
  ∃ s se k j, asking s k v ∧ db_sessions d !! s = Some se ∧ live (ses_state se) = true ∧
    db_joinRequests d !! k = Some j ∧ jr_sessionId j = s ∧ jr_requesterUserId j = u ∧ jr_status j = J_pending.


(** whoever has sent a pending invitation is reserved for it, and the host
    and the guests who are in a live session are reserved for that session -
    at every moment, closing loops in progress included. *)
Theorem members_are_reserved d ts :
  reachable limits (d, ts) →
  (∀ i r, db_invitations d !! i = Some r → inv_status r = I_pending →
     ∃ v, db_reservations d !! inv_visitorOwnerUserId r = Some v ∧ outgoing i v) ∧
  (∀ k q se, db_participants d !! k = Some q → par_state q ≠ P_left → par_role q ≠ R_visitor →
     db_sessions d !! par_sessionId q = Some se → live (ses_state se) = true →
     ∃ v, db_reservations d !! par_userId q = Some v ∧ in_session (par_sessionId q) v).
Proof. intros [Hinv _]%reachable_inv. split; [apply Hinv|apply (vi_seated _ Hinv)]. Qed.


(** C30: a room never holds more participants than its capacity, and each
    session comes from one invitation, is never of a companion visiting its own
    host, and keeps the host present while it lives. *)
Theorem rooms_within_capacity d ts s se :
  reachable limits (d, ts) → db_sessions d !! s = Some se →
  Z.of_nat (length (present_participants s d)) ≤ ses_roomCapacity se ∧
  (∀ s' se', db_sessions d !! s' = Some se' → ses_invitationId se' = ses_invitationId se → s' = s) ∧
  ses_visitorOwnerUserId se ≠ ses_hostUserId se ∧
  (live (ses_state se) = true → ∃ k q, (k, q) ∈ present_participants s d ∧ par_userId q = ses_hostUserId se ∧ par_role q = R_host).
Proof.
  intros [Hinv _]%reachable_inv Hs. split_and!.
  - rewrite length_present. apply (vi_capacity _ Hinv s se Hs).
  - intros s' se' Hs' E. by eapply (vi_one_session _ Hinv).
  - by apply (vi_owner _ Hinv s se Hs).
  - intros Hl. destruct (vi_host _ Hinv s se Hs) as (k & q & Hk & Es & Eu & Er & Hp). exists k, q. split; [|done].
    unfold present_participants. apply elem_of_find_many. simpl in *. rewrite Es, bool_decide_eq_true_2 by done.
    split; [done|]. simpl. apply negb_true_iff, bool_decide_eq_false. auto.
Qed.

(** sessions, invitations and join requests only move forward: later on
    they are the same visit between the same users, a session is in the same
    state or has advanced from a live one, and an invitation or a join request
    that was answered keeps its answer. *)
Theorem visits_only_advance d ts d' ts' :
  reachable limits (d, ts) → rtc (visit_step limits) (d, ts) (d', ts') →
  (∀ s se, db_sessions d !! s = Some se → ∃ se', db_sessions d' !! s = Some se' ∧ same_session se se' ∧
     (ses_state se' = ses_state se ∨ (live (ses_state se) = true ∧ (rank (ses_state se) < rank (ses_state se'))%nat))) ∧
  (∀ i r, db_invitations d !! i = Some r → ∃ r', db_invitations d' !! i = Some r' ∧ same_invitation r r' ∧
     (inv_status r' = inv_status r ∨ inv_status r = I_pending)) ∧
  (∀ k j, db_joinRequests d !! k = Some j → ∃ j', db_joinRequests d' !! k = Some j' ∧ same_join j j' ∧
     (jr_status j' = jr_status j ∨ jr_status j = J_pending)).
Proof.
  intros Hinv%reachable_inv Hsteps. destruct (steps_micros _ _ _ Hinv Hsteps) as [Hm _].
  apply micros_evolve in Hm as [I S J]. done.
Qed.

(** C28: the services refine the reservation protocol: every transaction and
    every statement of a closing loop, run in a reachable database, is a
    sequence of the protocol's atomic actions - closing an invitation or a
    session and owing the deletion of its reservations, paying that debt,
    opening a session from an invitation, entering and leaving a room. *)
Theorem services_refine_protocol d ts d' ts' :
  reachable limits (d, ts) → visit_step limits (d, ts) (d', ts') →
  rtc micro (core_of d, ts) (core_of d', ts').
Proof. intros Hinv%reachable_inv Hstep. by apply (step_micros _ _ _ Hinv Hstep). Qed.
End safety.

(** ** Witnesses *)


Lemma members_are_reserved_witness :
  let host := participant_at demo_db "1h" in
  par_userId host = "bob" ∧ ∃ v, db_reservations demo_db !! par_userId host = Some v ∧ in_session (par_sessionId host) v.
Proof.
  split; [by vm_compute|].
  apply (proj2 (members_are_reserved demo_limits demo_db [] demo_reachable) "1h" _ (session_at demo_db "1s")); by vm_compute.
Defined.

Lemma rooms_within_capacity_witness :
  ∃ se, db_sessions demo_db !! "1s" = Some se ∧ length (present_participants "1s" demo_db) = 3%nat ∧ Z.of_nat (length (present_participants "1s" demo_db)) ≤ ses_roomCapacity se.
Proof.
  eexists. split; [vm_compute; reflexivity|]. split; [by vm_compute|].
  apply (rooms_within_capacity demo_limits demo_db [] "1s" _ demo_reachable). vm_compute. reflexivity.
Defined.

Definition demo_end : list Command := demo_run ++ [EndSession "bob" "1s" None 7].
Lemma demo_end_step : visit_step demo_limits (demo_db, []) (db_after demo_end, []).
Proof. apply (vs_command _ (EndSession "bob" "1s" None 7)). vm_compute. reflexivity. Qed.
Lemma demo_session_row : db_sessions demo_db !! "1s" = Some (session_at demo_db "1s").
Proof. vm_compute. reflexivity. Qed.

Lemma visits_only_advance_witness :
  ∃ se', db_sessions (db_after demo_end) !! "1s" = Some se' ∧ same_session (session_at demo_db "1s") se' ∧
    (ses_state se' = ses_state (session_at demo_db "1s") ∨
     (live (ses_state (session_at demo_db "1s")) = true ∧ (rank (ses_state (session_at demo_db "1s")) < rank (ses_state se'))%nat)).
Proof.
  exact (proj1 (visits_only_advance demo_limits _ _ _ _ demo_reachable (rtc_once _ _ demo_end_step)) "1s" _ demo_session_row).
Defined.

Lemma services_refine_protocol_witness : rtc micro (core_of demo_db, []) (core_of (db_after demo_end), []).
Proof. exact (services_refine_protocol demo_limits _ _ _ _ demo_reachable demo_end_step). Defined.

(** ** A visitor who left can come back unreserved

    [leaveRoom] frees the visitor owner of a room that is still being prepared,
    but [markReady] of the visit service updates the participant whatever its
    state: alice leaves bob's room, joins carol's as a guest, and marks herself
    ready in bob's again. *)
Definition demo_return : list Command :=
  [CreateInvitation "alice" "bob" None None "i1" 1; AcceptInvitation "bob" "i1" (demo_ids "1") 2; LeaveRoom "alice" "1s" 3;
   CreateInvitation "dave" "carol" None None "i2" 4; AcceptInvitation "carol" "i2" (demo_ids "2") 5;
   MarkReady "dave" "2s" 6; MarkReady "carol" "2s" 7;
   CreateJoinRequest "alice" "2s" None "j1" 8; AcceptJoinRequest "carol" "j1" "2g" "t3" 9; MarkReady "alice" "1s" 10].

(** a user can nevertheless be present in two live rooms, with a reservation
    for only one of them: the visitor owner who left a room in preparation and
    marks themself ready in it again. *)
Theorem left_visitor_in_two_rooms :
  reachable demo_limits (db_after demo_return, []) ∧
  present_in "alice" "1s" (db_after demo_return) = true ∧ present_in "alice" "2s" (db_after demo_return) = true ∧
  (live ∘ ses_state <$> db_sessions (db_after demo_return) !! "1s") = Some true ∧
  (live ∘ ses_state <$> db_sessions (db_after demo_return) !! "2s") = Some true ∧
  (res_sessionId <$> db_reservations (db_after demo_return) !! "alice") = Some (Some "2s").
Proof. split; [apply settled_reachable; vm_compute; reflexivity|]. by vm_compute. Qed.

(** There, alice has a row in each of the rooms and is a guest in one. *)
Definition alice_elsewhere (d : DB) (k : rowid) (q : Participant) : Prop :=
  par_userId q = "alice" → par_state q ≠ P_left → par_role q ≠ R_visitor → live (ses_state (session_at d (par_sessionId q))) = true →
  is_Some (db_sessions d !! par_sessionId q) → k = "2g".

(** ** An expired join request survives its acceptance *)

(** accepting a join request after its deadline changes nothing: the
    transaction that marks the request expired and frees its requester throws
    in the same breath, so both writes are rolled back. *)
Theorem expired_join_request_stays `{!ScanOrder} w k j se pk tk now :
  db_joinRequests (w_db w) !! k = Some j → jr_status j = J_pending → jr_expiresAt j ≤ now →
  db_sessions (w_db w) !! jr_sessionId j = Some se →
  ∃ e, acceptJoinRequest (ses_hostUserId se) k pk tk now w = (Err e, w) ∧
       e ∈ [room_error "VISIT_JOIN_REQUEST_EXPIRED"; P2002 "sessionId_requesterUserId_status"].
Proof.
  intros Hj Hst Hexp Hs.
  assert (∃ e, acceptJoinRequest_tx (ses_hostUserId se) k pk tk now (w_db w) = Err e ∧
    e ∈ [room_error "VISIT_JOIN_REQUEST_EXPIRED"; P2002 "sessionId_requesterUserId_status"]) as (e & Hrun & He).
  { unfold acceptJoinRequest_tx. rewrite tx_gets_run, (tx_require_some_run _ _ _ _ _ Hj), tx_gets_run.
    rewrite (tx_require_some_run _ _ _ _ _ Hs), tx_gets_run, tx_require_run by (by apply bool_decide_eq_true_2).
    rewrite bool_decide_eq_false_2 by congruence. rewrite tx_require_run by (by apply bool_decide_eq_true_2).
    rewrite (proj2 (Z.leb_le _ _) Hexp). unfold set_join_request, modify_or.
    unfold mbind at 1, tx_bind at 1. destruct (m ← _; Some _) as [d1|]; [|eexists; split; [done|set_solver]].
    rewrite tx_modify_run. eexists. split; [done|set_solver]. }
  exists e. split; [|done]. unfold acceptJoinRequest. by rewrite (act_bind_throw _ _ _ e w) by (by apply transaction_err).
Qed.

(** carol asked to join and bob answers too late. *)
Definition demo_ask : DB := db_after (take 5 demo_run).
Lemma expired_join_request_stays_witness :
  let w := mkWorld demo_ask [] in
  ∃ e, acceptJoinRequest "bob" "j1" "1g" "t2" 99999999 w = (Err e, w) ∧
       e ∈ [room_error "VISIT_JOIN_REQUEST_EXPIRED"; P2002 "sessionId_requesterUserId_status"].
Proof.
  assert (∃ j, db_joinRequests demo_ask !! "j1" = Some j ∧ jr_status j = J_pending ∧ jr_expiresAt j ≤ 99999999 ∧ jr_sessionId j = "1s") as (j & Hj & Hst & He & Es).
  { eexists. split; [vm_compute; reflexivity|]. by vm_compute. }
  assert (∃ se, db_sessions demo_ask !! "1s" = Some se ∧ ses_hostUserId se = "bob") as (se & Hs & Eh).
  { eexists. split; [vm_compute; reflexivity|]. done. }
  rewrite <- Eh. apply (expired_join_request_stays (mkWorld demo_ask []) "j1" j se); [exact Hj|exact Hst|exact He|rewrite Es; exact Hs].
Defined.
