(* ===== verification/VisitDialogue.v ===== *)
(** * The dialogue of a room

    Turns are numbered and alternate, a room ends with its last turn, and the
    relationships of the companions count exactly the visits that were
    settled. *)

From Stdlib Require Import Floats.SpecFloat Sorted.
From S2P Require Import Prelude Tables JsText JsNumber Json Schema Interfaces Config AssetManifest Visit VisitCore VisitRoom VisitSocial VisitSteps VisitSafety.
Local Open Scope Z_scope.

(** ** What only dialogues write *)

Definition dialogue_of (d : DB) := (db_turns d, db_settlements d, db_relationships d).

Section frames.
Context `{!ScanOrder} `{!DistinctOrder}.
Variable limits : VisitRuntimeLimits.
Variable uuid : string → rowid.
Notation dialogue_frame := (frame_on dialogue_of).

Lemma dialogue_frame_eligible a b : dialogue_frame (Visit.assertEligible a b).
Proof. unfold Visit.assertEligible. frame. Qed.
Lemma dialogue_frame_reservation u : dialogue_frame (assertNoReservation u).
Proof. unfold assertNoReservation. frame. Qed.
Lemma dialogue_frame_create_topic k r : dialogue_frame (create_room_topic k r).
Proof. unfold create_room_topic. frame. Qed.
Lemma dialogue_frame_create_share k r : dialogue_frame (create_share k r).
Proof. unfold create_share. frame. Qed.
Lemma dialogue_frame_create_reservation k r : dialogue_frame (create_reservation k r).
Proof. unfold create_reservation. frame. Qed.
Lemma dialogue_frame_create_participant k r : dialogue_frame (create_participant k r).
Proof. unfold create_participant. frame. Qed.
Lemma dialogue_frame_release s now : dialogue_frame (releaseSessionReservations s now).
Proof. unfold releaseSessionReservations. frame. Qed.
Lemma dialogue_frame_claim_session s seen reason now : dialogue_frame (claim_session s seen reason now).
Proof. unfold claim_session. frame. Qed.
Lemma dialogue_frame_set_join k f : dialogue_frame (set_join_request k f).
Proof. unfold set_join_request. frame. Qed.
Lemma dialogue_frame_room_topic k f : dialogue_frame (alter_room_topic k f).
Proof. unfold alter_room_topic. frame. Qed.
Lemma dialogue_frame_require_session u s : dialogue_frame (VisitSocial.requireParticipantSession u s).
Proof. unfold VisitSocial.requireParticipantSession. frame. Qed.
Lemma dialogue_frame_room_eligible l : dialogue_frame (VisitSocial.assertRoomEligible l).
Proof. unfold VisitSocial.assertRoomEligible. frame. Qed.
Hint Resolve dialogue_frame_eligible dialogue_frame_reservation dialogue_frame_create_topic dialogue_frame_create_share
  dialogue_frame_create_reservation dialogue_frame_create_participant dialogue_frame_release dialogue_frame_claim_session
  dialogue_frame_set_join dialogue_frame_room_topic dialogue_frame_require_session dialogue_frame_room_eligible : frame.

Lemma dialogue_frame_createInvitation o h m t k now : dialogue_frame (createInvitation_tx limits o h m t k now).
Proof. unfold createInvitation_tx, assertVisitorOwnerAvailable, resolveInvitationTopic, create_invitation. frame. Qed.
Lemma dialogue_frame_acceptInvitation h i ids now : dialogue_frame (acceptInvitation_tx h i ids now).
Proof.
  unfold acceptInvitation_tx, accept_writes, open_session, displace_invitations, open_first_topic, assertVisitorOwnerAvailable,
    assertHostCapacity, alter_invitation, create_session. frame.
Qed.
Lemma dialogue_frame_respond u i role now : dialogue_frame (respondToInvitation_tx u i role now).
Proof. unfold respondToInvitation_tx, alter_invitation. frame. Qed.
Lemma dialogue_frame_markReady u s now : dialogue_frame (markReady_tx u s now).
Proof. unfold markReady_tx, alter_session. frame. Qed.
Lemma dialogue_frame_start h s now : dialogue_frame (startSession_tx h s now).
Proof. unfold startSession_tx, alter_session. frame. Qed.
Lemma dialogue_frame_end u s reason now : dialogue_frame (endSession_tx u s reason now).
Proof. unfold endSession_tx, endSessionInTransaction, alter_session. frame. Qed.
Lemma dialogue_frame_revoke c reason now : dialogue_frame (revokeCompanionVisits_tx c reason now).
Proof. unfold revokeCompanionVisits_tx, cancel_claimed, close_claimed. frame. Qed.
Lemma dialogue_frame_createJoin u s t k now : dialogue_frame (createJoinRequest_tx u s t k now).
Proof. unfold createJoinRequest_tx, resolveOwnedTopic, create_join_request, VisitRoom.assertRoomEligible. frame. Qed.
Lemma dialogue_frame_acceptJoin h k p t now : dialogue_frame (acceptJoinRequest_tx h k p t now).
Proof. unfold acceptJoinRequest_tx, VisitRoom.assertRoomEligible, queue_topic. frame. Qed.
Lemma dialogue_frame_respondJoin u k role now : dialogue_frame (respondJoinRequest_tx u k role now).
Proof. unfold respondJoinRequest_tx. frame. Qed.
Lemma dialogue_frame_participantReady u s now : dialogue_frame (markParticipantReady_tx u s now).
Proof. unfold markParticipantReady_tx, upsert_readiness, alter_participant. frame. Qed.
Lemma dialogue_frame_leave u s now : dialogue_frame (leaveRoom_tx u s now).
Proof. unfold leaveRoom_tx, alter_participant. frame. Qed.
Lemma dialogue_frame_setShare u s share now : dialogue_frame (setShare_tx uuid u s share now).
Proof. unfold setShare_tx, upsert_first_topic. frame. Qed.
Lemma dialogue_frame_endRoom s reason now : dialogue_frame (endRoom s reason now).
Proof. unfold endRoom, alter_session. frame. Qed.
Lemma dialogue_frame_claim_invitation now i : dialogue_frame (claim_invitation now i).
Proof. unfold claim_invitation. frame. Qed.
Lemma dialogue_frame_claim_join now k : dialogue_frame (claim_join_request now k).
Proof. unfold claim_join_request. frame. Qed.
End frames.

(** ** Turns *)

(** The turns of each room are numbered 1, 2, ..., n, with n at most 15. *)
Record TurnInv (d : DB) : Prop := {
  ti_limit s : count_turns s d ≤ ROOM_MAX_TURNS;
  ti_range k t : db_turns d !! k = Some t → 1 ≤ tu_sequence t ≤ count_turns (tu_sessionId t) d;
  ti_distinct k1 t1 k2 t2 : db_turns d !! k1 = Some t1 → db_turns d !! k2 = Some t2 →
    tu_sessionId t1 = tu_sessionId t2 → tu_sequence t1 = tu_sequence t2 → k1 = k2;
}.

Lemma StronglySorted_last {A} (R : A → A → Prop) (l : list A) x :
  StronglySorted R l → last l = Some x → ∀ y, y ∈ l → R y x ∨ y = x.
Proof.
  intros Hs. induction Hs as [|a l Hs IH Ha]; [done|]. intros Hl y Hy.
  destruct l as [|b l'].
  - simpl in Hl. simplify_eq. set_solver.
  - change (last (b :: l') = Some x) in Hl. apply elem_of_cons in Hy as [->|Hy]; [|by apply IH].
    left. rewrite Forall_forall in Ha. apply Ha. apply last_Some in Hl as [l'' ->]. set_solver.
Qed.

Lemma latest_turn_Some s d k t :
  latest_turn s d = Some (k, t) →
  db_turns d !! k = Some t ∧ tu_sessionId t = s ∧
  ∀ k' t', db_turns d !! k' = Some t' → tu_sessionId t' = s → tu_sequence t' ≤ tu_sequence t.
Proof.
  unfold latest_turn. intros Hl. set (l := filter _ _) in Hl.
  assert (∀ k' t', (k', t') ∈ sort_by turn_order l ↔ db_turns d !! k' = Some t' ∧ tu_sessionId t' = s) as Hin.
  { intros k' t'. unfold l. rewrite elem_of_sort_by, list_elem_of_filter, elem_of_map_to_list. naive_solver. }
  assert ((k, t) ∈ sort_by turn_order l) as [??]%Hin by (apply last_Some in Hl as [l' ->]; set_solver).
  split_and!; [done..|]. intros k' t' Hk' Hs'.
  assert (StronglySorted (λ a b, turn_order a b = true) (sort_by turn_order l)) as Hsort.
  { apply sort_by_sorted; unfold turn_order; intros *; [destruct (Z.leb_spec (tu_sequence x.2) (tu_sequence y.2)); [auto|right; apply Z.leb_le; lia]|].
    rewrite !Z.leb_le. lia. }
  destruct (StronglySorted_last _ _ _ Hsort Hl (k', t')) as [Hle|[= -> ->]]; [by apply Hin| |done].
  by apply Z.leb_le in Hle.
Qed.

Lemma latest_turn_None s d k t : latest_turn s d = None → db_turns d !! k = Some t → tu_sessionId t ≠ s.
Proof.
  unfold latest_turn. intros Hl%last_None Hk Hs.
  assert ((k, t) ∈ sort_by turn_order (filter (λ kt, tu_sessionId kt.2 = s) (map_to_list (db_turns d)))) as Hin.
  { rewrite elem_of_sort_by, list_elem_of_filter, elem_of_map_to_list. done. }
  rewrite Hl in Hin. by apply elem_of_nil in Hin.
Qed.

(** The last turn carries the number of turns so far. *)
Lemma latest_sequence s d :
  TurnInv d → match latest_turn s d with Some (_, t) => tu_sequence t | None => 0 end = count_turns s d.
Proof.
  intros Hinv. destruct (latest_turn s d) as [[k t]|] eqn:E.
  - apply latest_turn_Some in E as (Hk & Hs & Hmax). pose proof (ti_range _ Hinv _ _ Hk) as Hr. rewrite Hs in Hr.
    enough (count_turns s d ≤ tu_sequence t) by lia. unfold count_turns.
    transitivity (Z.of_nat (length (seqZ 1 (tu_sequence t)))); [|rewrite length_seqZ; lia].
    apply inj_le, (count_where_inj_le _ tu_sequence).
    + intros k1 t1 k2 t2 H1 H2 ???. bool_inv. eapply (ti_distinct _ Hinv); eauto. congruence.
    + intros k' t' Hk' ?. bool_inv. apply elem_of_seqZ. pose proof (ti_range _ Hinv _ _ Hk'). pose proof (Hmax _ _ Hk'). naive_solver lia.
  - symmetry. unfold count_turns. change 0 with (Z.of_nat 0). f_equal. apply Nat.le_0_r.
    apply (count_where_inj_le _ tu_sequence _ []); intros * Hk; intros.
    + bool_inv. by apply (latest_turn_None _ _ _ _ E) in Hk.
    + bool_inv. by apply (latest_turn_None _ _ _ _ E) in Hk.
Qed.

Lemma TurnInv_create d k t d' :
  TurnInv d → create_turn k t d = Ok ((), d') → tu_sequence t = count_turns (tu_sessionId t) d + 1 →
  tu_sequence t ≤ ROOM_MAX_TURNS → TurnInv d' ∧ count_turns (tu_sessionId t) d' = tu_sequence t.
Proof.
  intros Hinv Hrun Hseq Hmax. unfold create_turn in Hrun. step_inv. option_inv. simplify_eq.
  match goal with H : create_row _ _ _ _ = Some _ |- _ => apply create_row_Some in H as (Hk & Hcl & ->) end.
  set (d' := set db_turns _ d).
  assert (∀ s, count_turns s d' = (if tu_sessionId t == s then 1 else 0) + count_turns s d) as Hc.
  { intros s. unfold count_turns, d'. simpl. rewrite count_where_insert by done. destruct (tu_sessionId t == s); lia. }
  assert (count_turns (tu_sessionId t) d' = tu_sequence t) as Hcs by (rewrite Hc, bool_decide_eq_true_2 by done; lia).
  split; [|done]. split.
  - intros s. destruct (decide (tu_sessionId t = s)) as [<-|]; [by rewrite Hcs|].
    rewrite Hc, bool_decide_eq_false_2 by done. apply (ti_limit _ Hinv).
  - intros k' t' Hk'. unfold d' in Hk'. simpl in Hk'. apply lookup_insert_Some in Hk' as [[<- <-]|[_ Hk']].
    + rewrite Hcs. unfold count_turns in Hseq. lia.
    + pose proof (ti_range _ Hinv _ _ Hk'). rewrite Hc. destruct (_ == _); lia.
  - intros k1 t1 k2 t2 H1 H2 Es Eq. unfold d' in H1, H2. simpl in H1, H2.
    apply lookup_insert_Some in H1 as [[<- <-]|[? H1]], H2 as [[<- <-]|[? H2]]; [done| | |by eapply (ti_distinct _ Hinv)].
    + apply Hcl in H2. unfold turn_clash in H2. rewrite (bool_decide_eq_true_2 _ Es), (bool_decide_eq_true_2 _ Eq) in H2. done.
    + apply Hcl in H1. unfold turn_clash in H1. rewrite (bool_decide_eq_true_2 _ (eq_sym Es)), (bool_decide_eq_true_2 _ (eq_sym Eq)) in H1. done.
Qed.

(** ** Relationships *)

Definition settled_visits (pair : rowid * rowid) (d : DB) : Z :=
  Z.of_nat (count_where (λ k _, k.2 == pair) (db_settlements d)).
Definition settled_turns (pair : rowid * rowid) (d : DB) : Z :=
  map_fold (λ k se acc, if k.2 == pair then se_turnCount se + acc else acc) 0 (db_settlements d).

(** A relationship counts the settlements of its pair; a pair without
    relationship has none. *)
Definition counts_settlements (pair : rowid * rowid) (d : DB) : Prop :=
  match db_relationships d !! pair with
  | None => settled_visits pair d = 0 ∧ settled_turns pair d = 0
  | Some r =>
      rel_visitCount r = settled_visits pair d ∧ rel_interactionCount r = settled_visits pair d ∧
      rel_totalTurnCount r = settled_turns pair d ∧ rel_stage r = stage_of (settled_visits pair d) ∧ 1 ≤ rel_visitCount r
  end.
Definition RelationshipInv (d : DB) : Prop := ∀ pair, pair.1 ≠ pair.2 → counts_settlements pair d.

Lemma sort_pair_fst_snd a b : sort_pair (sort_pair a b).1 (sort_pair a b).2 = sort_pair a b.
Proof.
  unfold sort_pair. destruct (String.compare a b) eqn:E; simpl; rewrite ?E; try done.
  rewrite String.compare_antisym, E. done.
Qed.

Lemma settled_insert d d' s pair se pair' :
  db_settlements d !! (s, pair) = None → db_settlements d' = <[(s, pair) := se]> (db_settlements d) →
  settled_visits pair' d' = (if bool_decide (pair = pair') then 1 else 0) + settled_visits pair' d ∧
  settled_turns pair' d' = (if bool_decide (pair = pair') then se_turnCount se else 0) + settled_turns pair' d.
Proof.
  intros Hnone E. unfold settled_visits, settled_turns. rewrite E. split.
  - rewrite count_where_insert by done. simpl.
    change (pair == pair') with (bool_decide (pair = pair')). destruct (bool_decide (pair = pair')); lia.
  - rewrite map_fold_insert_L; [|intros; repeat destruct (_ == _); lia|done].
    simpl. change (pair == pair') with (bool_decide (pair = pair')). by destruct (bool_decide (pair = pair')).
Qed.

Section relationships.
Context `{!ScanOrder} `{!DistinctOrder}.
Variable uuid : string → rowid.

Lemma settle_pair_inv s tags now p d u d' :
  RelationshipInv d → settle_pair uuid s tags now p d = Ok (u, d') → RelationshipInv d' ∧ db_turns d' = db_turns d.
Proof.
  intros Hinv Hrun. unfold settle_pair in Hrun. cbv zeta in Hrun.
  set (pair := sort_pair _ _) in Hrun. rewrite !tx_gets_run in Hrun.
  destruct (is_set (db_settlements d !! (s, pair))) eqn:Hset; simpl in Hrun; [by step_inv|].
  assert (db_settlements d !! (s, pair) = None) as Hnone.
  { destruct (db_settlements d !! (s, pair)); [done|done]. }
  rewrite tx_modify_run in Hrun. unfold updateRelationshipPair in Hrun.
  assert (sort_pair pair.1 pair.2 = pair) as Hsort by apply sort_pair_fst_snd. clearbody pair.
  set (n := Z.of_nat _) in Hrun. set (se := mkSettlement _ _ _ _) in Hrun.
  assert (db_turns d' = db_turns d ∧ db_settlements d' = <[(s, pair) := se]> (db_settlements d)) as [Ht Es]
    by (destruct (pair.1 == pair.2); by step_inv).
  split; [|done]. intros pair' Hne. specialize (Hinv pair' Hne). unfold counts_settlements in *.
  destruct (settled_insert d d' s pair se pair' Hnone Es) as [-> ->].
  destruct (pair.1 == pair.2) eqn:Heq.
  - step_inv. bool_inv. rewrite (bool_decide_eq_false_2 (pair = pair')) by congruence. rewrite !Z.add_0_l. exact Hinv.
  - rewrite Hsort in Hrun. step_inv. cbn [set db_relationships]. destruct (decide (pair = pair')) as [<-|Ep].
    + rewrite !(bool_decide_eq_true_2 (pair = pair)) by done. rewrite lookup_insert_eq.
      destruct (db_relationships d !! pair) as [r|]; cbn.
      * destruct Hinv as (E1 & E2 & E3 & E4 & E5). rewrite E1, E2, E3. split_and!; try lia. f_equal. lia.
      * destruct Hinv as [-> ->]. split_and!; try lia. done.
    + rewrite !(bool_decide_eq_false_2 (pair = pair')) by done. rewrite lookup_insert_ne by done. rewrite !Z.add_0_l. exact Hinv.
Qed.

Lemma ensureMoment_inv s n share now d m d' :
  RelationshipInv d → ensureMoment uuid s n share now d = Ok (m, d') → RelationshipInv d' ∧ db_turns d' = db_turns d.
Proof.
  intros Hinv Hrun. unfold ensureMoment, settleRelationships in Hrun. cbv zeta in Hrun. rewrite !tx_gets_run in Hrun.
  destruct (db_moments d !! s); [by step_inv|]. rewrite tx_modify_run in Hrun.
  apply tx_bind_ok in Hrun as (u & d1 & Hfor & [_ <-]%tx_ret_ok).
  eapply (tx_for_inv (λ d2, RelationshipInv d2 ∧ db_turns d2 = db_turns d)) in Hfor; [done| |done].
  intros p d2 u2 d3 _ [Hinv2 E] Hp. apply settle_pair_inv in Hp as [? ->]; done.
Qed.

Lemma relationship_frame d d' : dialogue_of d' = dialogue_of d → RelationshipInv d → RelationshipInv d' ∧ db_turns d' = db_turns d.
Proof.
  unfold dialogue_of. intros [= E1 E2 E3] Hinv. split; [|done]. intros pair Hne. specialize (Hinv pair Hne).
  unfold counts_settlements, settled_visits, settled_turns in *. by rewrite E2, E3.
Qed.

(** The end of a room: it is closed and its moment is written. *)
Lemma finish_inv s reason n share now (p : Progress) d p' d' :
  RelationshipInv d → (endRoom s reason now ;; ensureMoment uuid s n share now ;; mret p : Tx DB Progress) d = Ok (p', d') →
  RelationshipInv d' ∧ db_turns d' = db_turns d.
Proof.
  intros Hinv (? & d1 & H1%dialogue_frame_endRoom & Hrun)%tx_bind_ok.
  apply (relationship_frame d d1) in H1 as [Hinv1 E1]; [|done].
  apply tx_bind_ok in Hrun as (? & d2 & H2%ensureMoment_inv & [_ <-]%tx_ret_ok); [|done]. destruct H2 as [? E2]. split; [done|congruence].
Qed.

(** A second settlement of the same pair of companions in the same session
    changes nothing. *)
Lemma settle_pair_again s tags tags' now now' p d u d1 :
  settle_pair uuid s tags now p d = Ok (u, d1) → settle_pair uuid s tags' now' p d1 = Ok ((), d1).
Proof.
  unfold settle_pair. cbv zeta. rewrite !tx_gets_run. set (pair := sort_pair _ _). intros Hrun.
  assert (is_set (db_settlements d1 !! (s, pair)) = true) as ->; [|done].
  destruct (is_set (db_settlements d !! (s, pair))) eqn:E; simpl in Hrun; [by step_inv|].
  rewrite tx_modify_run in Hrun. unfold updateRelationshipPair in Hrun.
  destruct (pair.1 == pair.2); step_inv; cbn [set db_settlements]; by rewrite lookup_insert_eq.
Qed.

Lemma progressRoom_inv s t n intent share now d p d' :
  RelationshipInv d → progressRoom uuid s t n intent share now d = Ok (p, d') → RelationshipInv d' ∧ db_turns d' = db_turns d.
Proof.
  intros Hinv Hrun. unfold progressRoom in Hrun. cbv zeta in Hrun. rewrite tx_gets_run in Hrun.
  destruct (negb _ && negb _ && negb _); [by step_inv|].
  apply tx_bind_ok in Hrun as (? & d1 & H1%dialogue_frame_room_topic & Hrun). rewrite tx_gets_run in Hrun.
  apply (relationship_frame d d1) in H1 as [Hinv1 Et]; [|done]. rewrite <- Et.
  match type of Hrun with context [if ?b then None else ?o] => destruct (if b then None else o) as [[k t']|] end.
  - unfold alter_session in Hrun. step_inv.
    match goal with H : alter_room_topic _ _ _ = Ok (_, ?y) |- _ => apply dialogue_frame_room_topic in H; by apply (relationship_frame d1 y) in H end.
  - by eapply finish_inv.
Qed.
End relationships.

(** ** The transaction of a turn *)

(** What an accepted turn did, for a turn that was not sent before. *)
Record accepted_turn (userId s : rowid) (input : AppendTurnInput) (d : DB) (kt : rowid * Turn) (d1 : DB) : Prop := {
  ac_created : create_turn kt.1 kt.2 d = Ok ((), d1);
  ac_session : tu_sessionId kt.2 = s;
  ac_sender : tu_senderUserId kt.2 = userId;
  ac_client : tu_clientTurnId kt.2 = at_clientTurnId input;
  ac_sequence : tu_sequence kt.2 = match latest_turn s d with Some (_, t) => tu_sequence t | None => 0 end + 1;
  ac_limit : tu_sequence kt.2 ≤ ROOM_MAX_TURNS;
}.

Section appendTurn.
Context `{!ScanOrder} `{!DistinctOrder}.
Variable uuid : string → rowid.

Lemma socialEligible_same l d u d' : VisitSocial.assertRoomEligible l d = Ok (u, d') → d' = d.
Proof. apply tx_for_same. intros. by step_inv. Qed.

(** A successful [appendTurn] found the turn, or created it and moved the room
    on. *)
Lemma appendTurn_cases userId s input now d r d' :
  appendTurn_tx uuid userId s input now d = Ok (r, d') →
  let users := (λ kp, par_userId kp.2) <$> loadParticipants s true d in
  ∃ share se, readShare s d = Some share ∧ db_sessions d !! s = Some se ∧ ses_state se = S_active ∧ userId ∈ users ∧
    ((ar_duplicate r = true ∧ d' = d ∧ ar_progress r = mkProgress false false ∧
      find_unique (λ _ t, (tu_sessionId t == s) && (tu_clientTurnId t == at_clientTurnId input)) (db_turns d) = Some (ar_turn r)) ∨
     (ar_duplicate r = false ∧ nextActor S_active users (snd <$> latest_turn s d) = Some userId ∧
      find_unique (λ _ t, (tu_sessionId t == s) && (tu_clientTurnId t == at_clientTurnId input)) (db_turns d) = None ∧
      ∃ d1, accepted_turn userId s input d (ar_turn r) d1 ∧
      match active_topic (loadRoomTopics s d) with
      | Some t => progressRoom uuid s t (tu_sequence (ar_turn r).2) (at_intent input) share now
      | None => progressLegacyRoom uuid s (tu_sequence (ar_turn r).2) share now
      end d1 = Ok (ar_progress r, d'))).
Proof.
  intros Hrun users. unfold appendTurn_tx, VisitSocial.requireParticipantSession in Hrun. cbv zeta in Hrun.
  step_inv;
    match goal with H : VisitSocial.assertRoomEligible _ _ = Ok _ |- _ => apply socialEligible_same in H as -> end; bool_inv;
    repeat match goal with x : unit |- _ => destruct x end;
    match goal with H : db_sessions _ !! s = Some ?se, H' : ses_state ?se = S_active, H2 : readShare s _ = Some ?share |- _ =>
      exists share, se; split_and!; [done..|] end.
  - left. done.
  - right. simpl. match goal with H : ses_state _ = S_active |- _ => rewrite H in * end. split_and!; [done..|].
    eexists. split; [by split|]. by match goal with E : active_topic _ = _ |- _ => rewrite E end.
  - right. simpl. match goal with H : ses_state _ = S_active |- _ => rewrite H in * end. split_and!; [done..|].
    eexists. split; [by split|]. by match goal with E : active_topic _ = _ |- _ => rewrite E end.
Qed.

(** Moving the room on leaves the turns alone and settles at most. *)
Lemma progress_inv s o share n intent now d p d' :
  RelationshipInv d →
  match o with Some t => progressRoom uuid s t n intent share now | None => progressLegacyRoom uuid s n share now end d = Ok (p, d') →
  RelationshipInv d' ∧ db_turns d' = db_turns d.
Proof.
  intros Hinv Hrun. destruct o as [t|]; [by eapply progressRoom_inv|].
  unfold progressLegacyRoom in Hrun. destruct (_ <? _); [by step_inv|]. by eapply finish_inv.
Qed.

Lemma turns_only d d' : db_turns d' = db_turns d → TurnInv d → TurnInv d'.
Proof.
  intros E [H1 H2 H3]. split; unfold count_turns in *; rewrite E; done.
Qed.

Lemma create_turn_frame k t d u d' : create_turn k t d = Ok (u, d') →
  db_settlements d' = db_settlements d ∧ db_relationships d' = db_relationships d.
Proof. unfold create_turn. intros. step_inv. option_inv. by simplify_eq. Qed.

Lemma appendTurn_inv userId s input now d r d' :
  TurnInv d → RelationshipInv d → appendTurn_tx uuid userId s input now d = Ok (r, d') → TurnInv d' ∧ RelationshipInv d'.
Proof.
  intros Ht Hr (share & se & _ & _ & _ & _ & [(_ & -> & _)|(_ & _ & _ & d1 & Hacc & Hprog)])%appendTurn_cases; [done|].
  destruct Hacc as [Hc Es _ _ Eseq Hmax]. pose proof (latest_sequence s d Ht) as Hl.
  apply TurnInv_create in Hc as Hc'; [|done|rewrite Es; lia|done]. destruct Hc' as [Ht1 _].
  apply create_turn_frame in Hc as [E1 E2].
  apply progress_inv in Hprog as [Hr' E].
  - split; [by eapply turns_only|done].
  - intros pair Hne. specialize (Hr pair Hne). unfold counts_settlements, settled_visits, settled_turns in *. by rewrite E1, E2.
Qed.

(** ** Commands *)

Definition command_step (limits : VisitRuntimeLimits) (cfg cfg' : DB * list Task) : Prop := ∃ c, exec limits c cfg = Some cfg'.

Lemma committed_frame {A X} (π : DB → X) (m : Tx DB A) d ts cfg' :
  frame_on π m → committed m (d, ts) = Some cfg' → π cfg'.1 = π d.
Proof. unfold committed. simpl. destruct (m d) as [[a d']|] eqn:E; intros Hf [= <-]. by apply Hf in E. Qed.
Lemma claimed_frame {X} (π : DB → X) (m : Tx DB bool) t d ts cfg' :
  frame_on π m → claimed m t (d, ts) = Some cfg' → π cfg'.1 = π d.
Proof. unfold claimed. simpl. destruct (m d) as [[a d']|] eqn:E; intros Hf [= <-]. by apply Hf in E. Qed.

Lemma dialogue_inv_frame d d' : dialogue_of d' = dialogue_of d → TurnInv d ∧ RelationshipInv d → TurnInv d' ∧ RelationshipInv d'.
Proof. intros E [Ht Hr]. apply (relationship_frame d d') in E as [? ?]; [|done]. split; [by eapply turns_only|done]. Qed.
End appendTurn.

Section commands.
Context `{!ScanOrder} `{!DistinctOrder}.
Variable limits : VisitRuntimeLimits.

Lemma exec_dialogue_inv c d ts cfg' :
  exec limits c (d, ts) = Some cfg' → TurnInv d ∧ RelationshipInv d → TurnInv cfg'.1 ∧ RelationshipInv cfg'.1.
Proof.
  intros Hrun Hinv. destruct c; cbn [exec] in Hrun;
    try (eapply dialogue_inv_frame; [|exact Hinv]; eapply committed_frame; [|exact Hrun];
         auto using dialogue_frame_createInvitation, dialogue_frame_acceptInvitation, dialogue_frame_respond, dialogue_frame_markReady,
           dialogue_frame_start, dialogue_frame_end, dialogue_frame_revoke, dialogue_frame_createJoin, dialogue_frame_acceptJoin,
           dialogue_frame_respondJoin, dialogue_frame_participantReady, dialogue_frame_leave, dialogue_frame_setShare; fail).
  - unfold committed in Hrun. simpl in Hrun. destruct (appendTurn_tx _ _ _ _ _ d) as [[r d']|] eqn:E; simplify_eq. simpl.
    destruct Hinv. by eapply appendTurn_inv.
  - unfold committed in Hrun. simpl in Hrun. destruct (finalizeMoment_tx _ _ _ _ d) as [[m d']|] eqn:E; simplify_eq. simpl.
    destruct Hinv as [Ht Hr]. unfold finalizeMoment_tx in E.
    apply tx_bind_ok in E as (se & d1 & H1%dialogue_frame_require_session & E).
    apply (dialogue_inv_frame d d1) in H1 as [Ht1 Hr1]; [|done]. step_inv.
    match goal with H : ensureMoment _ _ _ _ _ _ = _ |- _ => apply ensureMoment_inv in H as [? E] end; [|done].
    split; [by eapply turns_only|done].
  - eapply dialogue_inv_frame; [|exact Hinv]. destruct (live seen); [|done]. eapply claimed_frame; [|exact Hrun]. apply dialogue_frame_claim_session.
  - eapply dialogue_inv_frame; [|exact Hinv]. eapply claimed_frame; [|exact Hrun]. apply dialogue_frame_claim_invitation.
  - eapply dialogue_inv_frame; [|exact Hinv]. eapply claimed_frame; [|exact Hrun]. apply dialogue_frame_claim_join.
  - case_bool_decide; [|done]. simplify_eq. eapply dialogue_inv_frame; [|exact Hinv]. destruct t; [done..|]. simpl. by destruct (db_joinRequests d !! k).
  - simpl in Hrun. destruct (db_sessions d !! sessionId) as [se|]; [|done]. destruct (live (ses_state se)); [done|]. simplify_eq.
    eapply dialogue_inv_frame; [|exact Hinv]. done.
  - simplify_eq. eapply dialogue_inv_frame; [|exact Hinv]. done.
  - simplify_eq. eapply dialogue_inv_frame; [|exact Hinv]. done.
Qed.

Lemma commands_dialogue_inv cfg cfg' :
  rtc (command_step limits) cfg cfg' → TurnInv cfg.1 ∧ RelationshipInv cfg.1 → TurnInv cfg'.1 ∧ RelationshipInv cfg'.1.
Proof. induction 1 as [|[d ts] c2 c3 [c Hc] _ IH]; [done|]. intros Hinv. by apply IH, (exec_dialogue_inv c d ts). Qed.

Lemma dialogue_inv_empty d : dialogue_of d = dialogue_of empty_db → TurnInv d ∧ RelationshipInv d.
Proof.
  unfold dialogue_of. intros [= E1 E2 E3]. split.
  - split; unfold count_turns; rewrite E1; [done|intros *..]; intros; simplify_map_eq.
  - intros pair _. unfold counts_settlements, settled_visits, settled_turns. by rewrite E2, E3.
Qed.

(** A numbering without gaps. *)
Lemma TurnInv_no_gap d s i : TurnInv d → 1 ≤ i ≤ count_turns s d → ∃ k t, db_turns d !! k = Some t ∧ tu_sessionId t = s ∧ tu_sequence t = i.
Proof.
  intros Hinv Hi. apply dec_stable. intros Hno.
  assert (count_turns s d ≤ Z.of_nat (length (seqZ 1 (i - 1) ++ seqZ (i + 1) (count_turns s d - i)))) as Hle;
    [|rewrite length_app, !length_seqZ in Hle; lia].
  apply inj_le. apply (count_where_inj_le _ tu_sequence).
  - intros k1 t1 k2 t2 H1 H2 ???. bool_inv. eapply (ti_distinct _ Hinv); eauto. congruence.
  - intros k t Hk Hs. bool_inv. rewrite elem_of_app, !elem_of_seqZ. pose proof (ti_range _ Hinv _ _ Hk) as Hr. rewrite Hs in Hr.
    assert (tu_sequence t ≠ i) by (intros <-; apply Hno; eauto). fold (count_turns s d). lia.
Qed.

(** C3: in every database the visit services produce, the turns of each room
    are numbered 1, 2, ..., n without gaps or repetitions, and n is at most
    15. *)
Theorem turns_are_numbered d0 ts0 d ts s :
  dialogue_of d0 = dialogue_of empty_db → rtc (command_step limits) (d0, ts0) (d, ts) →
  count_turns s d ≤ 15 ∧
  (∀ k t, db_turns d !! k = Some t → tu_sessionId t = s → 1 ≤ tu_sequence t ≤ count_turns s d) ∧
  (∀ i, 1 ≤ i ≤ count_turns s d → ∃ k t, db_turns d !! k = Some t ∧ tu_sessionId t = s ∧ tu_sequence t = i ∧
     ∀ k' t', db_turns d !! k' = Some t' → tu_sessionId t' = s → tu_sequence t' = i → k' = k).
Proof.
  intros Hd0 Hsteps. apply commands_dialogue_inv in Hsteps as [Hinv _]; [|by apply dialogue_inv_empty]. simpl in Hinv. split_and!.
  - apply (ti_limit _ Hinv).
  - intros k t Hk <-. by apply (ti_range _ Hinv k).
  - intros i Hi. destruct (TurnInv_no_gap d s i Hinv Hi) as (k & t & Hk & Hs & Ht). exists k, t. split_and!; [done..|].
    intros k' t' Hk' Hs' Ht'. eapply (ti_distinct _ Hinv); eauto; congruence.
Qed.

(** a relationship counts exactly the settled visits of its pair of
    companions - its visits, its turns and its stage follow from the
    settlements - and companions without a relationship settled no visit. *)
Theorem relationships_count_settlements d0 ts0 d ts pair :
  dialogue_of d0 = dialogue_of empty_db → rtc (command_step limits) (d0, ts0) (d, ts) → pair.1 ≠ pair.2 →
  match db_relationships d !! pair with
  | None => settled_visits pair d = 0
  | Some r => rel_visitCount r = settled_visits pair d ∧ rel_interactionCount r = settled_visits pair d ∧
              rel_totalTurnCount r = settled_turns pair d ∧ rel_stage r = stage_of (settled_visits pair d)
  end.
Proof.
  intros Hd0 Hsteps Hne. apply commands_dialogue_inv in Hsteps as [_ Hinv]; [|by apply dialogue_inv_empty].
  specialize (Hinv pair Hne). unfold counts_settlements in Hinv. simpl in Hinv. destruct (db_relationships d !! pair); naive_solver.
Qed.
End commands.

(** ** Taking turns *)

(** The senders of a history of turns, each chosen by [nextActor] after the one
    before. *)
Definition follows_order (users : list rowid) (history : list Turn) : Prop :=
  ∀ n t, history !! n = Some t →
    tu_sequence t = Z.of_nat n + 1 ∧
    nextActor S_active users (match n with O => None | S m => history !! m end) = Some (tu_senderUserId t).

(** the conversation goes round the room: while the participants of an
    active room stay the same, its n-th turn is spoken by participant n modulo
    their number, and every turn up to the fifteenth has a speaker. *)
Theorem turns_go_round users history n t :
  NoDup users → users ≠ [] → follows_order users history → history !! n = Some t →
  users !! (n mod length users)%nat = Some (tu_senderUserId t) ∧
  (tu_sequence t < 15 → nextActor S_active users (Some t) = users !! (S n mod length users)%nat).
Proof.
  intros Hnd Hne Hord Ht. assert (length users ≠ 0%nat) as Hlen by (by destruct users).
  assert (∀ n t, users !! (n mod length users)%nat = Some (tu_senderUserId t) → tu_sequence t < 15 →
    nextActor S_active users (Some t) = users !! (S n mod length users)%nat) as Hnext.
  { clear n t Ht. intros n t Hn Hlt. unfold nextActor. rewrite bool_decide_eq_true_2 by done. cbn [negb orb].
    unfold ROOM_MAX_TURNS. rewrite (proj2 (Z.leb_gt 15 (tu_sequence t)) Hlt).
    destruct users as [|first rest] eqn:Eu; [done|]. rewrite <- Eu in *.
    assert (list_find (λ u, u = tu_senderUserId t) users = Some ((n mod length users)%nat, tu_senderUserId t)) as ->.
    { apply list_find_Some. split_and!; [done|done|]. intros j y Hj Hlt' ->. eapply NoDup_lookup in Hj; [|done|exact Hn]. lia. }
    f_equal. rewrite Nat.add_1_r. rewrite <- (Nat.add_1_r (n mod _)), <- (Nat.add_1_r n). by rewrite Nat.Div0.add_mod_idemp_l. }
  enough (users !! (n mod length users)%nat = Some (tu_senderUserId t)) as Hn by (split; [done|intros Hlt; by apply (Hnext n t)]).
  revert t Ht. induction n as [|n IH]; intros t Ht; destruct (Hord _ _ Ht) as [_ Hact].
  - rewrite Nat.Div0.mod_0_l. by destruct users.
  - destruct (history !! n) as [t0|] eqn:Ht0; [|apply lookup_ge_None in Ht0; apply lookup_lt_Some in Ht; lia].
    rewrite <- (Hnext n t0); [done|by apply IH|].
    unfold nextActor in Hact. destruct (ROOM_MAX_TURNS <=? tu_sequence t0) eqn:El; [by rewrite orb_true_r in Hact|].
    by apply Z.leb_gt in El.
Qed.

(** ** The end of a room *)

Section ending.
Context `{!ScanOrder} `{!DistinctOrder}.
Variable uuid : string → rowid.

(** What is left of a room that ended: a closed session, no reservation, no
    participant present, one shared moment. *)
Definition room_over (s : rowid) (d : DB) : Prop :=
  (∃ se, db_sessions d !! s = Some se ∧ ses_state se = S_ended) ∧
  (∀ u v, db_reservations d !! u = Some v → res_sessionId v ≠ Some s) ∧
  present_participants s d = [] ∧ is_Some (db_moments d !! s).

Lemma present_nil s d : (∀ k q, db_participants d !! k = Some q → par_sessionId q = s → par_state q = P_left) → present_participants s d = [].
Proof.
  intros Hall. destruct (present_participants s d) as [|[k q] l] eqn:E; [done|].
  assert ((k, q) ∈ present_participants s d) as [Hk Hp]%elem_of_find_many by (rewrite E; set_solver).
  bool_inv. by destruct (Hall _ _ Hk).
Qed.

Lemma endRoom_closes s reason now d u d' :
  is_Some (db_sessions d !! s) → endRoom s reason now d = Ok (u, d') →
  (∃ se, db_sessions d' !! s = Some se ∧ ses_state se = S_ended) ∧
  (∀ u v, db_reservations d' !! u = Some v → res_sessionId v ≠ Some s) ∧ present_participants s d' = [].
Proof.
  unfold endRoom, alter_session, releaseSessionReservations. intros [se Hs] Hrun. step_inv. split_and!.
  - cbn. rewrite lookup_alter_eq, Hs. by eexists.
  - cbn. intros u0 v [_ Hv]%lookup_delete_many_Some. by bool_inv.
  - apply present_nil. cbn. intros k q (q0 & _ & ->)%lookup_update_many_Some.
    destruct ((par_sessionId q0 == s) && (par_state q0 != P_left)) eqn:E; [done|]. intros Es.
    rewrite (bool_decide_eq_true_2 _ Es) in E. simpl in E. by bool_inv.
Qed.

(** [ensureMoment] writes moments, settlements and relationships only. *)
Definition but_moments (d : DB) := (db_sessions d, db_reservations d, db_participants d, db_roomTopics d, db_turns d, db_shares d).
Lemma ensureMoment_frame s n share now : frame_on but_moments (ensureMoment uuid s n share now).
Proof. unfold ensureMoment, settleRelationships, settle_pair, updateRelationshipPair. frame. Qed.

Definition moments_of (d : DB) := db_moments d.
Lemma settle_pair_moments s tags now p : frame_on moments_of (settle_pair uuid s tags now p).
Proof. unfold settle_pair, updateRelationshipPair. frame. Qed.

Lemma ensureMoment_writes s n share now d m d' :
  ensureMoment uuid s n share now d = Ok (m, d') → db_moments d' !! s = Some m.
Proof.
  unfold ensureMoment, settleRelationships. cbv zeta. intros Hrun. rewrite !tx_gets_run in Hrun.
  destruct (db_moments d !! s) as [m0|] eqn:E; [by step_inv|]. rewrite tx_modify_run in Hrun.
  apply tx_bind_ok in Hrun as (u & d1 & Hfor & [<- <-]%tx_ret_ok).
  apply (frame_for moments_of) in Hfor; [|intros; apply settle_pair_moments]. unfold moments_of in Hfor. rewrite Hfor. cbn. apply lookup_insert_eq.
Qed.

Lemma finish_over s reason n share now (p p' : Progress) d d' :
  is_Some (db_sessions d !! s) → (endRoom s reason now ;; ensureMoment uuid s n share now ;; mret p : Tx DB Progress) d = Ok (p', d') →
  room_over s d' ∧ p' = p.
Proof.
  intros Hs (? & d1 & Hend & Hrun)%tx_bind_ok. apply endRoom_closes in Hend as (Hse & Hres & Hpar); [|done].
  apply tx_bind_ok in Hrun as (m & d2 & Hm & [<- <-]%tx_ret_ok).
  apply ensureMoment_frame in Hm as Hf. unfold but_moments in Hf. injection Hf as E1 E2 E3 _ _ _.
  split; [|done]. split_and!.
  - by rewrite E1.
  - by rewrite E2.
  - unfold present_participants in *. by rewrite E3.
  - by rewrite (ensureMoment_writes _ _ _ _ _ _ _ Hm).
Qed.

Lemma progress_ends s o share n intent now d p d' :
  is_Some (db_sessions d !! s) →
  match o with Some t => progressRoom uuid s t n intent share now | None => progressLegacyRoom uuid s n share now end d = Ok (p, d') →
  (pg_autoEnded p = true → room_over s d') ∧ (ROOM_MAX_TURNS ≤ n → pg_autoEnded p = true).
Proof.
  intros Hs Hrun. destruct o as [t|].
  - unfold progressRoom in Hrun. cbv zeta in Hrun. rewrite tx_gets_run in Hrun.
    destruct (ROOM_MAX_TURNS <=? n) eqn:El; cbn [negb andb] in Hrun.
    + apply tx_bind_ok in Hrun as (? & d1 & H1 & Hrun). rewrite tx_gets_run in Hrun.
      apply finish_over in Hrun as [Hov ->]; [done|]. unfold alter_room_topic in H1. by step_inv.
    + apply Z.leb_gt in El. destruct (negb _ && negb _); [step_inv; simpl; split; [done|lia]|].
      apply tx_bind_ok in Hrun as (? & d1 & H1 & Hrun). rewrite tx_gets_run in Hrun.
      destruct (head _) as [[k t']|]; [step_inv; simpl; split; [done|lia]|].
      apply finish_over in Hrun as [Hov ->]; [split; [done|lia]|]. unfold alter_room_topic in H1. by step_inv.
  - unfold progressLegacyRoom in Hrun. destruct (n <? LEGACY_MAX_TURNS) eqn:El.
    + step_inv. simpl. apply Z.ltb_lt in El. unfold ROOM_MAX_TURNS, LEGACY_MAX_TURNS in *. split; [done|lia].
    + apply finish_over in Hrun as [Hov ->]; done.
Qed.

Lemma create_turn_sessions k t : frame_on db_sessions (create_turn k t).
Proof. unfold create_turn. frame. Qed.

(** the room closes with its last turn: when a new turn ends the room, its
    session is ended, its reservations are deleted, nobody is present and the
    shared moment exists - and the fifteenth turn always ends it. *)
Theorem last_turn_closes_room userId s input now d r d' :
  appendTurn_tx uuid userId s input now d = Ok (r, d') → ar_duplicate r = false →
  (pg_autoEnded (ar_progress r) = true → room_over s d') ∧
  (tu_sequence (ar_turn r).2 = 15 → pg_autoEnded (ar_progress r) = true).
Proof.
  intros (share & se & _ & Hs & _ & _ & [(? & _)|(_ & _ & _ & d1 & Hacc & Hprog)])%appendTurn_cases Hdup; [congruence|].
  apply (progress_ends s (active_topic (loadRoomTopics s d)) share _ (at_intent input) now) in Hprog as [H1 H2].
  - split; [done|]. intros E. apply H2. unfold ROOM_MAX_TURNS. lia.
  - destruct Hacc as [Hc _ _ _ _ _]. apply create_turn_sessions in Hc. rewrite Hc. by eexists.
Qed.

Lemma progress_turns s o share n intent now :
  frame_on db_turns (match o with Some t => progressRoom uuid s t n intent share now | None => progressLegacyRoom uuid s n share now end).
Proof.
  unfold progressRoom, progressLegacyRoom, endRoom, ensureMoment, settleRelationships, settle_pair, updateRelationshipPair,
    alter_room_topic, alter_session, releaseSessionReservations. frame.
Qed.

(** After a turn was accepted, its client id finds it. *)
Lemma appendTurn_found userId s input now d r d1 :
  appendTurn_tx uuid userId s input now d = Ok (r, d1) →
  find_unique (λ _ t, (tu_sessionId t == s) && (tu_clientTurnId t == at_clientTurnId input)) (db_turns d1) = Some (ar_turn r).
Proof.
  intros (share & se & _ & _ & _ & _ & [(_ & -> & _ & ?)|(_ & _ & Hnone & d2 & [Hc Es _ Ecl _ _] & Hprog)])%appendTurn_cases; [done|].
  apply progress_turns in Hprog. rewrite Hprog. unfold create_turn in Hc. apply tx_modify_or_ok in Hc. option_inv. simplify_eq.
  match goal with H : create_row _ _ _ _ = Some _ |- _ => apply create_row_Some in H as (Hk & Hcl & ->) end. cbn.
  destruct (ar_turn r) as [k t]. cbn [fst snd] in *. apply find_unique_iff.
  - rewrite find_unique_None in Hnone.
    intros k1 t1 k2 t2 [[<- <-]|[_ H1]]%lookup_insert_Some [[<- <-]|[_ H2]]%lookup_insert_Some Hp1 Hp2; [done| | |];
      exfalso; first [rewrite (Hnone _ _ H1) in Hp1|rewrite (Hnone _ _ H2) in Hp2]; done.
  - rewrite lookup_insert_eq. split; [done|]. rewrite !bool_decide_eq_true_2 by done. done.
Qed.

(** sending a turn again is harmless: a second [appendTurn] with the same
    client id that succeeds returns the turn already stored, changes nothing
    and reports no progress. *)
Theorem repeated_turn_is_idempotent uuid' userId userId' s input input' now now' d r d1 r' d2 :
  appendTurn_tx uuid userId s input now d = Ok (r, d1) → at_clientTurnId input' = at_clientTurnId input →
  appendTurn_tx uuid' userId' s input' now' d1 = Ok (r', d2) →
  d2 = d1 ∧ ar_turn r' = ar_turn r ∧ ar_duplicate r' = true ∧ ar_progress r' = mkProgress false false.
Proof.
  intros H1%appendTurn_found Hid H2%appendTurn_cases. rewrite Hid, H1 in H2.
  destruct H2 as (share & se & _ & _ & _ & _ & [(? & -> & ? & [= ->])|(_ & _ & ? & _)]); done.
Qed.

(** the shared moment of a session is written once: asking for it again,
    by anyone and later, returns the same moment and changes nothing. *)
Theorem moment_is_written_once uuid' userId userId' s now now' d m d1 m' d2 :
  finalizeMoment_tx uuid userId s now d = Ok (m, d1) → finalizeMoment_tx uuid' userId' s now' d1 = Ok (m', d2) →
  m' = m ∧ d2 = d1.
Proof.
  unfold finalizeMoment_tx. intros H1 H2.
  assert (db_moments d1 !! s = Some m) as Hm.
  { apply tx_bind_ok in H1 as (? & ? & _ & H1). step_inv. by eapply ensureMoment_writes. }
  clear H1. apply tx_bind_ok in H2 as (? & d3 & H3 & H2).
  assert (d3 = d1) as -> by (unfold VisitSocial.requireParticipantSession in H3; clear H2; by step_inv).
  clear H3. step_inv. match goal with H : ensureMoment _ _ _ _ _ _ = _ |- _ => unfold ensureMoment in H; cbv zeta in H; rewrite !tx_gets_run, Hm in H end.
  by step_inv.
Qed.
End ending.

(** ** Shared text *)

Lemma normalizeText_spec value n :
  let t := normalizeText value n in
  (length t ≤ n)%nat ∧ single_spaced t = true ∧ match t with c :: _ => is_space c = false | [] => True end.
Proof.
  intros t. unfold t, normalizeText. split_and!.
  - rewrite length_take. lia.
  - eapply (single_spaced_prefix _ (drop n (trim (replace_spaces value)))). rewrite take_drop.
    apply trim_single_spaced. apply collapse_single_spaced.
  - destruct (trim (replace_spaces value)) as [|c l] eqn:E; [by rewrite take_nil|]. destruct n; [done|]. simpl. by eapply trim_head.
Qed.

(** what a visitor shares is bounded and clean: a title of 1 to 120 code
    units, a summary of 1 to 600, at most five different tags of 1 to 40, an
    address of 1 to 2000 if any, white space collapsed to single spaces. *)
Theorem shared_envelope_bounds input share :
  sanitizeVisitShareEnvelope input = Ok share →
  (1 ≤ length (sa_title share) ≤ 120)%nat ∧ (1 ≤ length (sa_summary share) ≤ 600)%nat ∧
  (length (sa_tags share) ≤ 5)%nat ∧ NoDup (sa_tags share) ∧ (∀ t, t ∈ sa_tags share → (1 ≤ length t ≤ 40)%nat ∧ single_spaced t = true) ∧
  (∀ u, sa_sourceUrl share = Some u → (1 ≤ length u ≤ 2000)%nat ∧ ∃ v, si_sourceUrl input = Some v ∧ u = trim v) ∧
  single_spaced (sa_title share) = true ∧ single_spaced (sa_summary share) = true.
Proof.
  unfold sanitizeVisitShareEnvelope. cbv zeta. intros Hs.
  destruct (negb _ || negb _) eqn:Et; [done|]. bool_inv. destruct (match trim <$> si_sourceUrl input with Some _ => _ | None => _ end) eqn:Eu; [done|].
  injection Hs as <-. cbn.
  assert (∀ l n, truthy (normalizeText l n) = true → (1 ≤ length (normalizeText l n) ≤ n)%nat ∧ single_spaced (normalizeText l n) = true) as Hn.
  { intros l n Ht. destruct (normalizeText_spec l n) as (? & ? & _). destruct (normalizeText l n); [done|]. simpl in *. split; [lia|done]. }
  split_and!; try (by apply Hn).
  - rewrite length_take. lia.
  - eapply sublist_NoDup; [apply NoDup_dedup|apply sublist_take].
  - intros t Ht%elem_of_take. destruct Ht as (i & Ht & _). apply list_elem_of_lookup_2, elem_of_dedup, list_elem_of_filter in Ht as [Ht (l & -> & _)%list_elem_of_fmap].
    by apply Hn.
  - intros u Hu. destruct (si_sourceUrl input) as [v|]; simpl in *; [|done]. destruct (truthy (trim v)) eqn:Ev; [|done]. injection Hu as <-.
    split; [|by exists v]. simpl in Eu. apply Z.ltb_ge in Eu. destruct (trim v); [done|]. simpl in *. lia.
Qed.

(** ** Witnesses: alice and bob talk about one topic until it is exhausted *)

#[local] Existing Instance key_order.
#[local] Existing Instance first_occurrence.

Definition demo_share : SanitizedShare := mkSanitizedShare (lit "Tea") (lit "A new shop") [lit "tea"] None.
Definition demo_uuid (n : string) (p : string) : rowid := p +:+ n.
Definition say (n : string) (intent : string) : AppendTurnInput := mkAppendTurnInput ("c" +:+ n) intent (lit "hello") None None.
Definition demo_talk : list Command :=
  [CreateInvitation "alice" "bob" None None "i1" 1; AcceptInvitation "bob" "i1" (demo_ids "1") 2;
   SetShare (demo_uuid "0") "alice" "1s" demo_share 3; MarkReady "alice" "1s" 4; MarkReady "bob" "1s" 5; StartSession "bob" "1s" 6;
   AppendTurn (demo_uuid "1") "alice" "1s" (say "1" "GREET") 7; AppendTurn (demo_uuid "2") "bob" "1s" (say "2" "ASK") 8;
   AppendTurn (demo_uuid "3") "alice" "1s" (say "3" "ANSWER") 9].
Definition talking : DB := db_after demo_talk.
Definition talked : DB := db_after (demo_talk ++ [AppendTurn (demo_uuid "4") "bob" "1s" (say "4" "LEAVE") 10]).

Definition succeeds {A} (o : result (A * DB)) (P : A → bool) : bool := match o with Ok (a, _) => P a | Err _ => false end.
Lemma succeeds_spec {A} (o : result (A * DB)) P : succeeds o P = true → ∃ a d, o = Ok (a, d) ∧ P a = true.
Proof. destruct o as [[a d]|]; simpl; [eauto|done]. Qed.

Lemma commands_run cs cfg cfg' : run_commands cs cfg = Some cfg' → rtc (command_step demo_limits) cfg cfg'.
Proof.
  revert cfg. induction cs as [|c cs IH]; simpl; intros cfg Hrun; [by simplify_eq|].
  apply bind_Some in Hrun as (cfg1 & H1 & H2). eapply rtc_l; [by exists c|eauto].
Qed.
Lemma settled_commands cs : settled cs = true → rtc (command_step demo_limits) (demo_visits, []) (db_after cs, []).
Proof.
  unfold settled, db_after. destruct (run_commands cs (demo_visits, [])) as [[d [|t ts]]|] eqn:E; try done.
  intros _. by apply commands_run in E.
Qed.
Lemma talked_steps : rtc (command_step demo_limits) (demo_visits, []) (talked, []).
Proof. apply settled_commands. vm_compute. reflexivity. Qed.

Lemma turns_are_numbered_witness : count_turns "1s" talked = 4 ∧ count_turns "1s" talked ≤ 15.
Proof.
  split; [vm_compute; reflexivity|].
  exact (proj1 (turns_are_numbered demo_limits demo_visits [] talked [] "1s" eq_refl talked_steps)).
Defined.

Lemma relationships_count_settlements_witness :
  ∃ r, db_relationships talked !! ("ca", "cb") = Some r ∧ rel_visitCount r = 1 ∧ rel_totalTurnCount r = 4 ∧
       rel_visitCount r = settled_visits ("ca", "cb") talked.
Proof.
  assert (∃ r, db_relationships talked !! ("ca", "cb") = Some r ∧ rel_visitCount r = 1 ∧ rel_totalTurnCount r = 4) as (r & Hr & ? & ?).
  { eexists. split; [vm_compute; reflexivity|done]. }
  pose proof (relationships_count_settlements demo_limits demo_visits [] talked [] ("ca", "cb") eq_refl talked_steps ltac:(done)) as Hc.
  rewrite Hr in Hc. exists r. split_and!; [done..|apply Hc].
Defined.

Definition demo_turn (n : Z) (sender : rowid) : Turn := mkTurn "1s" n "" sender None "ASK" [] None None 0.
Lemma turns_go_round_witness :
  ["alice"; "bob"; "carol"] !! (3 mod 3)%nat = Some "alice" ∧
  nextActor S_active ["alice"; "bob"; "carol"] (Some (demo_turn 4 "alice")) = Some "bob".
Proof.
  destruct (turns_go_round ["alice"; "bob"; "carol"] [demo_turn 1 "alice"; demo_turn 2 "bob"; demo_turn 3 "carol"; demo_turn 4 "alice"]
    3 (demo_turn 4 "alice")) as [H1 H2].
  - by apply (bool_decide_unpack _).
  - done.
  - intros [|[|[|[|n]]]] t Ht; simplify_eq/=; by vm_compute.
  - done.
  - split; [exact H1|]. by apply H2.
Defined.

Lemma fourth_turn_ends :
  succeeds (appendTurn_tx (demo_uuid "4") "bob" "1s" (say "4" "LEAVE") 10 talking) (λ r, negb (ar_duplicate r) && pg_autoEnded (ar_progress r)) = true.
Proof. vm_compute. reflexivity. Qed.
Lemma last_turn_closes_room_witness :
  ∃ r d', appendTurn_tx (demo_uuid "4") "bob" "1s" (say "4" "LEAVE") 10 talking = Ok (r, d') ∧ room_over "1s" d'.
Proof.
  destruct (succeeds_spec _ _ fourth_turn_ends) as (r & d' & Hrun & Hr).
  exists r, d'. split; [exact Hrun|]. apply andb_true_iff in Hr as [Hdup Hend]. apply negb_true_iff in Hdup.
  exact (proj1 (last_turn_closes_room (demo_uuid "4") "bob" "1s" (say "4" "LEAVE") 10 talking r d' Hrun Hdup) Hend).
Defined.

(** The fourth turn is sent again, by alice and with another text. *)
Definition fourth : Tx DB AppendResult := appendTurn_tx (demo_uuid "4") "bob" "1s" (say "4" "ASK") 10.
Definition fourth_again : Tx DB AppendResult := appendTurn_tx (demo_uuid "5") "alice" "1s" (say "4" "REACT") 11.
Lemma fourth_twice : match fourth talking with Ok (_, d1) => succeeds (fourth_again d1) (λ _, true) | Err _ => false end = true.
Proof. vm_compute. reflexivity. Qed.
Lemma repeated_turn_is_idempotent_witness :
  ∃ r d1 r', fourth talking = Ok (r, d1) ∧ fourth_again d1 = Ok (r', d1) ∧ ar_turn r' = ar_turn r.
Proof.
  pose proof fourth_twice as Hs. destruct (fourth talking) as [[r d1]|] eqn:H1; [|done].
  apply succeeds_spec in Hs as (r' & d2 & H2 & _).
  destruct (repeated_turn_is_idempotent (demo_uuid "4") (demo_uuid "5") "bob" "alice" "1s" (say "4" "ASK") (say "4" "REACT") 10 11 talking r d1 r' d2 H1 eq_refl H2)
    as (E1 & E2 & _). rewrite E1 in H2.
  exists r, d1, r'. split; [reflexivity|]. split; [exact H2|exact E2].
Defined.

Notation remember := (finalizeMoment_tx (demo_uuid "7") "alice" "1s" 11) (only parsing).
Notation remember_again := (finalizeMoment_tx (demo_uuid "8") "bob" "1s" 12) (only parsing).
Lemma remember_twice : match remember talked with Ok (_, d1) => succeeds (remember_again d1) (λ _, true) | Err _ => false end = true.
Proof. vm_compute. reflexivity. Qed.
Lemma moment_is_written_once_witness : ∃ m d1, remember talked = Ok (m, d1) ∧ remember_again d1 = Ok (m, d1).
Proof.
  pose proof remember_twice as Hs. destruct (remember talked) as [[m d1]|] eqn:H1; [|done].
  apply succeeds_spec in Hs as (m' & d2 & H2 & _).
  destruct (moment_is_written_once (demo_uuid "7") (demo_uuid "8") "alice" "bob" "1s" 11 12 talked m d1 m' d2 H1 H2) as [E1 E2].
  rewrite E1, E2 in H2. exists m, d1. split; [reflexivity|exact H2].
Defined.

Lemma shared_envelope_bounds_witness :
  ∃ share, sanitizeVisitShareEnvelope (mkShareInput (lit " Tea  time ") (lit "new") (Some [lit "a"; lit "a"; lit " "]) None) = Ok share ∧
    sa_title share = lit "Tea time" ∧ sa_tags share = [lit "a"] ∧ (1 ≤ length (sa_title share) ≤ 120)%nat.
Proof.
  eexists. split; [vm_compute; reflexivity|]. split; [done|]. split; [done|].
  apply (shared_envelope_bounds (mkShareInput (lit " Tea  time ") (lit "new") (Some [lit "a"; lit "a"; lit " "]) None)). vm_compute. reflexivity.
Defined.
