(* ===== verification/Companion.v ===== *)
(** * Companion profiles and topics ([companion/companion.service.ts], the
    methods up to [updateSocialPolicy])

    What an owner may change about a companion, and who is told.  The views
    handed to clients are the selected columns of the rows; a row with its id
    stands for them.  Prisma leaves a column alone whose value in [data] is
    [undefined]: an optional column of an update is an [option] here, and
    [default]s to the column's value. *)

From S2P Require Import Prelude Tables JsText Json Schema Interfaces Config AssetManifest Visit.
Local Open Scope Z_scope.

Record UpsertCompanionDto := mkUpsertCompanionDto {
  ud_name : text; ud_publicDescription : option text; ud_publicTags : option (list text) }.
Record UpsertShareableTopicDto := mkUpsertShareableTopicDto {
  td_title : text; td_summary : text; td_tags : option (list text); td_sourceUrl : option text;
  td_audience : option string; td_shareScope : option ShareScope; td_allowRecipientSave : option bool;
  td_eligibleForRandomVisit : option bool; td_expiresAt : option text }.
Record UpdateCompanionSocialPolicyDto := mkUpdateCompanionSocialPolicyDto {
  pd_randomVisitsEnabled : option bool; pd_randomVisitAudience : option string; pd_allowJoinRequests : option bool }.

Record Profile := mkProfile { pf_name : text; pf_publicDescription : option text; pf_publicTags : list text }.
Record TopicData := mkTopicData {
  td'_title : text; td'_summary : text; td'_tags : list text; td'_sourceUrl : option text; td'_audience : string;
  td'_shareScope : ShareScope; td'_allowRecipientSave : bool; td'_eligibleForRandomVisit : bool; td'_expiresAt : option instant }.

Definition COMPANION_NOT_FOUND : exc := NotFoundException "COMPANION_NOT_FOUND".
Definition COMPANION_NOT_OWNED : exc := ForbiddenException "COMPANION_NOT_OWNED".
Definition companionNotAvailable : exc := NotFoundException "COMPANION_NOT_AVAILABLE".

Definition longer (n : Z) (l : text) : bool := n <? Z.of_nat (length l).
(** [l || undefined] *)
Definition nonempty (l : text) : option text := if truthy l then Some l else None.
Definition control_unit (c : Z) : bool := (0 <=? c) && (c <=? 31) || (c =? 127).

Section companion.
Context `{!ScanOrder}.
Variable toLowerCase : text → text.
(** What [new Date(text)] is of an ISO 8601 text; [None] is an invalid date,
    which Prisma refuses to store. *)
Variable parse_date : text → option instant.

(** [[...new Set(tags.map(tag => tag.trim().toLowerCase()).filter(Boolean))]] *)
Definition normalize_tags (tags : option (list text)) : list text :=
  dedup (filter (λ t, truthy t = true) ((λ t, toLowerCase (trim t)) <$> default [] tags)).

(** [normalizeProfile] *)
Definition normalizeProfile (dto : UpsertCompanionDto) : Act World Profile :=
  let name := trim (ud_name dto) in
  let publicDescription := ud_publicDescription dto ≫= λ d, nonempty (trim d) in
  let tags := normalize_tags (ud_publicTags dto) in
  if negb (truthy name) || longer 60 name || match publicDescription with Some d => longer 500 d | None => false end
     || (10 <? Z.of_nat (length tags)) || existsb (λ tag, longer 30 tag || existsb control_unit tag) tags
  then act_throw (BadRequestException "PUBLIC_PROFILE_INVALID")
  else mret (mkProfile name publicDescription tags).

(** [normalizeShareableTopic] *)
Definition normalizeShareableTopic (dto : UpsertShareableTopicDto) (now : instant) : Act World TopicData :=
  let title := replace_spaces (trim (td_title dto)) in
  let summary := replace_spaces (trim (td_summary dto)) in
  let tags := normalize_tags (td_tags dto) in
  let sourceUrl := if td_shareScope dto == Some summary_and_source then trim <$> td_sourceUrl dto else None in
  if negb (truthy title) || negb (truthy summary) || longer 120 title || longer 600 summary
     || (8 <? Z.of_nat (length tags)) || existsb (longer 30) tags
  then act_throw (BadRequestException "SHAREABLE_TOPIC_INVALID")
  else
    expiresAt ← match td_expiresAt dto with
      | Some d => if truthy d then
                    match parse_date d with
                    | Some e => if e <=? now then act_throw (BadRequestException "SHAREABLE_TOPIC_EXPIRED") else mret (Some e)
                    | None => act_throw (ErrorException "PrismaClientValidationError")
                    end
                  else mret None
      | None => mret None
      end;
    mret (mkTopicData title summary tags sourceUrl (default "friends" (td_audience dto)) (default summary_only (td_shareScope dto))
      (default false (td_allowRecipientSave dto)) (default false (td_eligibleForRandomVisit dto)) expiresAt).

(** ** Reads and checks *)

(** [areEligibleFriends] *)
Definition areEligibleFriends (userId otherUserId : rowid) (d : DB) : bool :=
  (userId == otherUserId)
  || (bool_decide ((userId, otherUserId) ∈ db_friendships d) && negb (blocked_between userId otherUserId d)).

(** [publishInvalidation] *)
Definition friends_of (userId : rowid) (d : DB) : list rowid :=
  omap (λ p, if p.1 == userId then Some p.2 else None) (scan_pairs (db_friendships d)).
Definition publishInvalidation (ownerUserId : rowid) (event : string) (payload : list (string * json)) : Act World unit :=
  publishToUser ownerUserId event payload ;;
  friends ← query (friends_of ownerUserId);
  act_for friends (λ friend,
    eligible ← query (areEligibleFriends ownerUserId friend);
    if eligible : bool then publishToUser friend event payload else mret ()).

Definition about_companion (userId companionId : rowid) : list (string * json) :=
  [("ownerUserId", JStr (lit userId)); ("companionId", JStr (lit companionId))].
Definition about_topic (userId companionId topicId : rowid) : list (string * json) :=
  about_companion userId companionId ++ [("topicId", JStr (lit topicId))].

(** [requireOwnedCompanion], [requireOwnedTopic] *)
Definition requireOwnedCompanion (userId companionId : rowid) : Act World Companion :=
  row ← query (λ d, db_companions d !! companionId);
  companion ← act_require_some row COMPANION_NOT_FOUND;
  act_require (co_ownerUserId companion == userId) COMPANION_NOT_OWNED ;; mret companion.
Definition requireOwnedTopic (userId companionId topicId : rowid) : Act World ShareableTopic :=
  row ← query (λ d, t ← db_shareableTopics d !! topicId; c ← db_companions d !! st_companionId t; Some (t, c));
  topic ← act_require_some row (NotFoundException "SHAREABLE_TOPIC_NOT_FOUND");
  act_require ((st_companionId topic.1 == companionId) && (co_ownerUserId topic.2 == userId)) (ForbiddenException "SHAREABLE_TOPIC_NOT_OWNED") ;;
  mret topic.1.

(** [networkCompanion.update({ where: { id }, data, select })]; [updatedAt] is
    written with every update. *)
Definition update_companion (companionId : rowid) (now : instant) (f : Companion → Companion) : Tx DB Companion :=
  row ← gets (λ d, db_companions d !! companionId);
  c ← require_some row P2025;
  let c' := (f c) <| co_updatedAt := now |> in
  modify (λ d, d <| db_companions := <[companionId := c']> (db_companions d) |>) ;; mret c'.
Definition update_topic (topicId : rowid) (now : instant) (f : ShareableTopic → ShareableTopic) : Tx DB ShareableTopic :=
  row ← gets (λ d, db_shareableTopics d !! topicId);
  t ← require_some row P2025;
  let t' := (f t) <| st_updatedAt := now |> in
  modify (λ d, d <| db_shareableTopics := <[topicId := t']> (db_shareableTopics d) |>) ;; mret t'.

(** ** The methods *)

(** [getMine] *)
Definition getMine (userId : rowid) : Act World (option rowid * list ((rowid * Companion) * list (rowid * AssetPack))) :=
  companions ← query (λ d, (λ kc, (kc, find_many_by (λ _ p, pk_companionId p == kc.1) (λ a b, pk_createdAt b.2 <=? pk_createdAt a.2) (db_assetPacks d)))
    <$> find_many_by (λ _ c, co_ownerUserId c == userId) (λ a b, co_updatedAt b.2 <=? co_updatedAt a.2) (db_companions d));
  user ← query (λ d, db_users d !! userId);
  mret (user ≫= u_activeNetworkCompanionId, companions).

(** [create] *)
Definition create (userId : rowid) (dto : UpsertCompanionDto) (newId : rowid) (now : instant) : Act World (rowid * Companion) :=
  profile ← normalizeProfile dto;
  let companion := mkCompanion userId (pf_name profile) (pf_publicDescription profile) (pf_publicTags profile)
    "friends_only" false false "friends" true None now now None in
  transaction (modify_or (λ d, m ← create_row (λ _ _, false) newId companion (db_companions d); Some (d <| db_companions := m |>)) (P2002 "id")) ;;
  mret (newId, companion).

(** [update] *)
Definition update (userId companionId : rowid) (dto : UpsertCompanionDto) (now : instant) : Act World (rowid * Companion) :=
  requireOwnedCompanion userId companionId ;;
  profile ← normalizeProfile dto;
  companion ← transaction (update_companion companionId now (λ c, c <| co_name := pf_name profile |>
    <| co_publicDescription := option_union (pf_publicDescription profile) (co_publicDescription c) |> <| co_publicTags := pf_publicTags profile |>));
  publishInvalidation (co_ownerUserId companion) "companion.profile.updated" (about_companion (co_ownerUserId companion) companionId) ;;
  mret (companionId, companion).

(** [activate] *)
Definition activate (userId companionId : rowid) : Act World (rowid * bool) :=
  assertCanSwitchToCompanion userId companionId ;;
  requireOwnedCompanion userId companionId ;;
  user ← query (λ d, db_users d !! userId);
  if user ≫= u_activeNetworkCompanionId == Some companionId then mret (companionId, false)
  else
    transaction (row ← gets (λ d, db_users d !! userId); u ← require_some row P2025;
      modify (λ d, d <| db_users := <[userId := u <| u_activeNetworkCompanionId := Some companionId |>]> (db_users d) |>)) ;;
    publishInvalidation userId "companion.profile.updated" (about_companion userId companionId) ;;
    mret (companionId, true).

(** [publish] *)
Definition publish (userId companionId : rowid) (now : instant) : Act World (rowid * Companion) :=
  companion ← requireOwnedCompanion userId companionId;
  act_require (truthy_id (co_activeAssetPackId companion)) (ConflictException "ASSET_PACK_NOT_COMPLETE") ;;
  published ← transaction (update_companion companionId now (λ c, c <| co_published := true |> <| co_publishedAt := Some now |>));
  publishInvalidation userId "companion.profile.updated" (about_companion userId companionId) ;;
  mret (companionId, published).

(** [unpublish] *)
Definition unpublish_tx (userId companionId : rowid) (now : instant) : Tx DB Companion :=
  row ← gets (λ d, db_companions d !! companionId);
  owned ← require_some row COMPANION_NOT_FOUND;
  require (co_ownerUserId owned == userId) COMPANION_NOT_OWNED ;;
  update_companion companionId now (λ c, c <| co_published := false |> <| co_publishedAt := None |>).
Definition unpublish (userId companionId : rowid) (now : instant) : Act World (rowid * Companion) :=
  assertCompanionMutationAllowed userId companionId ;;
  companion ← transaction (unpublish_tx userId companionId now);
  revokeCompanionVisits companionId "companion_unpublished" now ;;
  publishInvalidation userId "companion.profile.unpublished" (about_companion userId companionId) ;;
  mret (companionId, companion).

(** [getFriendCompanion] *)
Definition getFriendCompanion (requesterId friendUserId : rowid) : Act World (rowid * Companion) :=
  eligible ← query (areEligibleFriends requesterId friendUserId);
  act_require eligible companionNotAvailable ;;
  row ← query (λ d, u ← db_users d !! friendUserId; c ← u_activeNetworkCompanionId u; r ← db_companions d !! c; Some (u, (c, r)));
  found ← act_require_some row companionNotAvailable;
  let '(user, companion) := found in
  act_require ((u_accountStatus user == ACTIVE) && co_published companion.2 && (co_visibility companion.2 == "friends_only")
    && truthy_id (co_activeAssetPackId companion.2)) companionNotAvailable ;;
  mret companion.

(** [orderBy: [{ eligibleForRandomVisit: 'desc' }, { updatedAt: 'desc' }]] *)
Definition listed_before (a b : rowid * ShareableTopic) : bool :=
  match st_eligibleForRandomVisit a.2, st_eligibleForRandomVisit b.2 with
  | true, false => true
  | false, true => false
  | _, _ => st_updatedAt b.2 <=? st_updatedAt a.2
  end.
(** [listShareableTopics] *)
Definition listShareableTopics (userId companionId : rowid) : Act World (list (rowid * ShareableTopic)) :=
  requireOwnedCompanion userId companionId ;;
  query (λ d, find_many_by (λ _ t, (st_companionId t == companionId) && negb (is_set (st_revokedAt t))) listed_before (db_shareableTopics d)).

(** [createShareableTopic] *)
Definition createShareableTopic (userId companionId : rowid) (dto : UpsertShareableTopicDto) (newId : rowid) (now : instant)
    : Act World (rowid * ShareableTopic) :=
  requireOwnedCompanion userId companionId ;;
  t ← normalizeShareableTopic dto now;
  let topic := mkShareableTopic companionId (td'_title t) (td'_summary t) (td'_tags t) (td'_sourceUrl t) (td'_audience t) (td'_shareScope t)
    (td'_allowRecipientSave t) (td'_eligibleForRandomVisit t) (td'_expiresAt t) None None now now in
  transaction (modify_or (λ d, m ← create_row (λ _ _, false) newId topic (db_shareableTopics d); Some (d <| db_shareableTopics := m |>)) (P2002 "id")) ;;
  publishInvalidation userId "companion.topic.updated" (about_topic userId companionId newId) ;;
  mret (newId, topic).

Definition write_topic (t : TopicData) (r : ShareableTopic) : ShareableTopic :=
  r <| st_title := td'_title t |> <| st_summary := td'_summary t |> <| st_tags := td'_tags t |>
    <| st_sourceUrl := option_union (td'_sourceUrl t) (st_sourceUrl r) |> <| st_audience := td'_audience t |>
    <| st_shareScope := td'_shareScope t |> <| st_allowRecipientSave := td'_allowRecipientSave t |>
    <| st_eligibleForRandomVisit := td'_eligibleForRandomVisit t |>
    <| st_expiresAt := option_union (td'_expiresAt t) (st_expiresAt r) |> <| st_revokedAt := None |>.
(** [updateShareableTopic] *)
Definition updateShareableTopic (userId companionId topicId : rowid) (dto : UpsertShareableTopicDto) (now : instant)
    : Act World (rowid * ShareableTopic) :=
  requireOwnedTopic userId companionId topicId ;;
  t ← normalizeShareableTopic dto now;
  topic ← transaction (update_topic topicId now (write_topic t));
  publishInvalidation userId "companion.topic.updated" (about_topic userId companionId topicId) ;;
  mret (topicId, topic).

(** The topics a random visit may pick now: [shareableTopic.count] of
    [revokeShareableTopic] and [updateSocialPolicy]. *)
Definition random_topic (companionId : rowid) (now : instant) (t : ShareableTopic) : bool :=
  (st_companionId t == companionId) && st_eligibleForRandomVisit t && negb (is_set (st_revokedAt t))
  && match st_expiresAt t with Some e => now <? e | None => true end.
Definition random_topics (companionId : rowid) (now : instant) (d : DB) : nat :=
  count_where (λ _ t, random_topic companionId now t) (db_shareableTopics d).

(** [revokeShareableTopic] *)
Definition revoke_tx (userId companionId topicId : rowid) (now : instant) : Tx DB (ShareableTopic * bool) :=
  topic ← update_topic topicId now (λ t, t <| st_revokedAt := Some now |> <| st_eligibleForRandomVisit := false |>);
  remaining ← gets (random_topics companionId now);
  let disables (c : Companion) := (co_ownerUserId c == userId) && co_randomVisitsEnabled c in
  disabled ← gets (λ d, (remaining == 0%nat) && match db_companions d !! companionId with Some c => disables c | None => false end);
  (if (disabled : bool) then modify (λ d, d <| db_companions := alter (λ c, c <| co_randomVisitsEnabled := false |> <| co_updatedAt := now |>) companionId (db_companions d) |>)
   else mret ()) ;;
  mret (topic, disabled).
Definition revokeShareableTopic (userId companionId topicId : rowid) (now : instant) : Act World (rowid * ShareableTopic) :=
  requireOwnedTopic userId companionId topicId ;;
  result ← transaction (revoke_tx userId companionId topicId now);
  publishInvalidation userId "companion.topic.revoked" (about_topic userId companionId topicId) ;;
  (if (result.2 : bool) then publishInvalidation userId "companion.profile.updated" (about_companion userId companionId) else mret ()) ;;
  mret (topicId, result.1).

(** [updateSocialPolicy] *)
Definition updateSocialPolicy (userId companionId : rowid) (dto : UpdateCompanionSocialPolicyDto) (now : instant) : Act World (rowid * Companion) :=
  companion ← requireOwnedCompanion userId companionId;
  let randomVisitsEnabled := default (co_randomVisitsEnabled companion) (pd_randomVisitsEnabled dto) in
  (if randomVisitsEnabled then
     act_require (co_published companion && truthy_id (co_activeAssetPackId companion)) (ConflictException "RANDOM_VISIT_COMPANION_NOT_READY") ;;
     topicCount ← query (random_topics companionId now);
     act_require (negb (topicCount == 0%nat)) (ConflictException "RANDOM_VISIT_TOPIC_REQUIRED")
   else mret ()) ;;
  updated ← transaction (update_companion companionId now (λ c, c <| co_randomVisitsEnabled := randomVisitsEnabled |>
    <| co_randomVisitAudience := default (co_randomVisitAudience companion) (pd_randomVisitAudience dto) |>
    <| co_allowJoinRequests := default (co_allowJoinRequests companion) (pd_allowJoinRequests dto) |>));
  publishInvalidation userId "companion.profile.updated" (about_companion userId companionId) ;;
  mret (companionId, updated).
End companion.

(** ** Who may change what *)

(** A method that keeps the relation [R] between the databases before and
    after it, whether it returns or throws. *)
Definition within (R : DB → DB → Prop) {A} (m : Act World A) (w : World) : Prop := R (w_db w) (w_db (m w).2).

Section within.
Context (R : DB → DB → Prop) `{!PreOrder R}.

Lemma within_pure {A} (m : Act World A) w : db_preserving m → within R m w.
Proof. intros Hm. unfold within. by rewrite Hm. Qed.
Lemma within_bind {A B} (m : Act World A) (f : A → Act World B) w :
  within R m w → (∀ a w1, m w = (Ok a, w1) → within R (f a) w1) → within R (m ≫= f) w.
Proof.
  unfold within. intros Hm Hf. destruct (m w) as [[a|e] w1] eqn:E; simpl in Hm.
  - rewrite (act_bind_run _ _ _ _ _ E). etrans; [exact Hm|by apply Hf].
  - by rewrite (act_bind_throw _ _ _ _ _ E).
Qed.
Lemma within_tx {A} (body : Tx DB A) w : (∀ a d', body (w_db w) = Ok (a, d') → R (w_db w) d') → within R (transaction body) w.
Proof. unfold within, transaction. intros Hb. destruct (body (w_db w)) as [[a d']|e]; [by eapply Hb|done]. Qed.
End within.

Lemma db_preserving_query {A} (f : DB → A) : db_preserving (query f).
Proof. done. Qed.
Lemma db_preserving_require b e : db_preserving (act_require b e).
Proof. intros w. unfold act_require. by destruct b. Qed.
Lemma db_preserving_require_some {A} (o : option A) e : db_preserving (act_require_some o e).
Proof. intros w. unfold act_require_some. by destruct o. Qed.
Lemma db_preserving_ret {A} (a : A) : db_preserving (mret a).
Proof. done. Qed.
Lemma db_preserving_throw {A} e : db_preserving (act_throw (A := A) e).
Proof. done. Qed.
Lemma db_preserving_publish u e p : db_preserving (publishToUser u e p).
Proof. done. Qed.
#[export] Hint Resolve db_preserving_publish db_preserving_query db_preserving_require db_preserving_require_some db_preserving_ret db_preserving_throw : ocn.

(** [reads] proves that a method that only reads and publishes leaves the
    database as it was. *)
Ltac reads :=
  repeat first
    [ solve [auto with ocn nocore]
    | apply db_preserving_bind; [|intros]
    | apply db_preserving_for; intros
    | match goal with |- db_preserving (match ?x with _ => _ end) => destruct x end
    | match goal with |- db_preserving (let _ := _ in _) => cbv zeta end ].

Section owner.
Context {Hscan : ScanOrder}.
Variable toLowerCase : text → text.
Variable parse_date : text → option instant.

Lemma publishInvalidation_reads u e p : db_preserving (publishInvalidation u e p).
Proof. unfold publishInvalidation. reads. Qed.
Lemma normalizeProfile_reads dto : db_preserving (normalizeProfile toLowerCase dto).
Proof. unfold normalizeProfile. reads. Qed.
Lemma normalizeShareableTopic_reads dto now : db_preserving (normalizeShareableTopic toLowerCase parse_date dto now).
Proof. unfold normalizeShareableTopic. reads. Qed.
Lemma revokeCompanionVisits_frame c reason now {X} (π : DB → X) :
  frame_on π (revokeCompanionVisits_tx c reason now) → ∀ w, π (w_db (revokeCompanionVisits c reason now w).2) = π (w_db w).
Proof.
  intros Hf w. unfold revokeCompanionVisits. destruct (transaction (revokeCompanionVisits_tx c reason now) w) as [[a|e] w1] eqn:E.
  - rewrite (act_bind_run _ _ _ _ _ E). apply transaction_ok in E as (d & Hb & ->).
    rewrite db_preserving_bind; [by apply (Hf _ _ _ Hb)| |intros]; unfold publishInvitation, publishSession; reads.
  - rewrite (act_bind_throw _ _ _ _ _ E). by apply transaction_err in E as [_ ->].
Qed.

(** The rows the profile methods write, and nothing of anybody else's. *)
Definition owned_by (d : DB) (userId companionId : rowid) : Prop :=
  ∃ c, db_companions d !! companionId = Some c ∧ co_ownerUserId c = userId.
Definition spares_others (userId : rowid) (d d' : DB) : Prop :=
  (∀ k c, db_companions d !! k = Some c → co_ownerUserId c ≠ userId → db_companions d' !! k = Some c)
  ∧ (∀ k t, db_shareableTopics d !! k = Some t → is_Some (db_companions d !! st_companionId t) → ¬ owned_by d userId (st_companionId t) → db_shareableTopics d' !! k = Some t)
  ∧ (∀ u, u ≠ userId → db_users d' !! u = db_users d !! u)
  ∧ db_assetPacks d' = db_assetPacks d ∧ db_friendships d' = db_friendships d.
#[local] Instance spares_others_preorder userId : PreOrder (spares_others userId).
Proof.
  split; [by intros d; split_and!|]. intros d1 d2 d3 (C1 & T1 & U1 & P1 & F1) (C2 & T2 & U2 & P2 & F2).
  split_and!; [by eauto| |intros u Hu; by rewrite U2, U1|by rewrite P2|by rewrite F2].
  intros k t Ht [c Hc] Hn.
  assert (co_ownerUserId c ≠ userId) as Hne by (intros ?; apply Hn; by exists c).
  apply T2; [by apply T1; eauto|exists c; by apply C1|]. intros (c' & Hc' & ?). rewrite (C1 _ _ Hc Hne) in Hc'. by simplify_eq.
Qed.

Lemma spares_companion userId k f d : owned_by d userId k →
  spares_others userId d (d <| db_companions := <[k := f]> (db_companions d) |>).
Proof.
  intros (c & Hc & Ho). split_and!; [|done..]. intros k' c' Hc' Hne. simpl. rewrite lookup_insert_ne; [done|]. intros ->. by simplify_eq.
Qed.
Lemma spares_alter_companion userId k f d : owned_by d userId k →
  spares_others userId d (d <| db_companions := alter f k (db_companions d) |>).
Proof. intros Ho. pose proof Ho as (c & Hc & _). rewrite (alter_as_insert _ _ _ _ Hc). by apply spares_companion. Qed.
Lemma spares_topic userId k f t d : db_shareableTopics d !! k = Some t → owned_by d userId (st_companionId t) →
  spares_others userId d (d <| db_shareableTopics := <[k := f]> (db_shareableTopics d) |>).
Proof. intros Ht Ho. split_and!; [done| |done..]. intros k' t' Ht' _ Hn. simpl. rewrite lookup_insert_ne; [done|]. intros ->. by simplify_eq. Qed.

Lemma within_update_companion userId k now f w : owned_by (w_db w) userId k →
  within (spares_others userId) (transaction (update_companion k now f)) w.
Proof. intros Ho. apply within_tx; [apply _|]. unfold update_companion. intros a d' Hrun. step_inv. by apply spares_companion. Qed.

(** After a check, what the row was when it passed. *)
Lemma within_owned_companion userId k w {A} (f : Companion → Act World A) :
  (owned_by (w_db w) userId k → ∀ c, db_companions (w_db w) !! k = Some c → within (spares_others userId) (f c) w) →
  within (spares_others userId) (requireOwnedCompanion userId k ≫= f) w.
Proof.
  intros Hf. apply within_bind; [apply _| |].
  - apply within_pure; [apply _|]. unfold requireOwnedCompanion. reads.
  - intros c w1 Hrun. unfold requireOwnedCompanion in Hrun. service_inv. bool_inv. apply Hf; [eexists; eauto|done].
Qed.
Lemma within_owned_topic userId k t w {A} (f : ShareableTopic → Act World A) :
  (owned_by (w_db w) userId k → ∀ r, db_shareableTopics (w_db w) !! t = Some r → st_companionId r = k → within (spares_others userId) (f r) w) →
  within (spares_others userId) (requireOwnedTopic userId k t ≫= f) w.
Proof.
  intros Hf. apply within_bind; [apply _| |].
  - apply within_pure; [apply _|]. unfold requireOwnedTopic. reads.
  - intros r w1 Hrun. unfold requireOwnedTopic in Hrun. service_inv. bool_inv. simplify_eq.
    apply bind_Some in H0 as (r & Hr & (c & Hc & [= <-])%bind_Some). simpl in *. eapply Hf; [by exists c|done|done].
Qed.

(** The requests an owner makes. *)
Inductive CompanionRequest :=
  | RQ_create (dto : UpsertCompanionDto) (newId : rowid)
  | RQ_update (companionId : rowid) (dto : UpsertCompanionDto)
  | RQ_activate (companionId : rowid)
  | RQ_publish (companionId : rowid)
  | RQ_unpublish (companionId : rowid)
  | RQ_createTopic (companionId : rowid) (dto : UpsertShareableTopicDto) (newId : rowid)
  | RQ_updateTopic (companionId topicId : rowid) (dto : UpsertShareableTopicDto)
  | RQ_revokeTopic (companionId topicId : rowid)
  | RQ_policy (companionId : rowid) (dto : UpdateCompanionSocialPolicyDto).
Definition serve (userId : rowid) (now : instant) (request : CompanionRequest) : Act World unit :=
  match request with
  | RQ_create dto newId => create toLowerCase userId dto newId now ;; mret ()
  | RQ_update c dto => update toLowerCase userId c dto now ;; mret ()
  | RQ_activate c => activate userId c ;; mret ()
  | RQ_publish c => publish userId c now ;; mret ()
  | RQ_unpublish c => unpublish userId c now ;; mret ()
  | RQ_createTopic c dto newId => createShareableTopic toLowerCase parse_date userId c dto newId now ;; mret ()
  | RQ_updateTopic c t dto => updateShareableTopic toLowerCase parse_date userId c t dto now ;; mret ()
  | RQ_revokeTopic c t => revokeShareableTopic userId c t now ;; mret ()
  | RQ_policy c dto => updateSocialPolicy userId c dto now ;; mret ()
  end.

Lemma within_pure_bind userId {A B} (m : Act World A) (f : A → Act World B) w :
  db_preserving m → (∀ a w1, w_db w1 = w_db w → within (spares_others userId) (f a) w1) → within (spares_others userId) (m ≫= f) w.
Proof.
  intros Hm Hf. apply within_bind; [apply _|by apply within_pure; [apply _|]|]. intros a w1 E. apply Hf.
  specialize (Hm w). by rewrite E in Hm.
Qed.
Lemma within_then_publish userId {A B} (m : Act World A) (f : A → Act World B) w :
  within (spares_others userId) m w → (∀ a, db_preserving (f a)) → within (spares_others userId) (m ≫= f) w.
Proof. intros Hm Hf. apply within_bind; [apply _|done|]. intros a w1 _. by apply within_pure; [apply _|]. Qed.
Lemma create_row_frame {R} (userId newId : rowid) (r : R) (m m' : gmap rowid R) k x :
  create_row (λ _ _, false) newId r m = Some m' → m !! k = Some x → m' !! k = Some x.
Proof. intros (Hn & _ & ->)%create_row_Some Hk. rewrite lookup_insert_ne; [done|]. congruence. Qed.

(** Whatever a user asks of the profile and topic methods, and whether the
    request is granted or refused, the companions of other owners, the topics
    of those companions, all other accounts, all asset packs and all
    friendships stay as they are. *)
Theorem requests_touch_own_companions userId now request w :
  spares_others userId (w_db w) (w_db (serve userId now request w).2).
Proof.
  change (within (spares_others userId) (serve userId now request) w).
  destruct request; simpl; (apply within_then_publish; [|reads]).
  - apply within_pure_bind; [apply normalizeProfile_reads|]. intros profile w1 _. apply within_then_publish; [|reads].
    apply within_tx; [apply _|]. intros a d' Hrun. step_inv. option_inv. simplify_eq. split_and!; [|done..].
    intros k c Hk _. by eapply create_row_frame.
  - apply within_owned_companion. intros Ho c Hc. apply within_pure_bind; [apply normalizeProfile_reads|]. intros profile w1 Hw.
    apply within_then_publish; [apply within_update_companion; by rewrite Hw|]. intros. pose proof publishInvalidation_reads. reads.
  - apply within_pure_bind; [unfold assertCanSwitchToCompanion; reads|]. intros [] w1 Hw.
    apply within_owned_companion. intros Ho c Hc. apply within_pure_bind; [reads|]. intros u w2 Hw2.
    case_bool_decide; [by apply within_pure; [apply _|reads]|].
    apply within_then_publish; [|intros; pose proof publishInvalidation_reads; reads].
    apply within_tx; [apply _|]. intros a d' Hrun. step_inv. split_and!; [done..| |done|done]. intros u' Hu. simpl. by rewrite lookup_insert_ne.
  - apply within_owned_companion. intros Ho c Hc. apply within_pure_bind; [reads|]. intros [] w1 Hw.
    apply within_then_publish; [apply within_update_companion; by rewrite Hw|]. intros. pose proof publishInvalidation_reads. reads.
  - apply within_pure_bind; [unfold assertCompanionMutationAllowed; reads|]. intros [] w1 Hw.
    apply within_bind; [apply _| |].
    + apply within_tx; [apply _|]. unfold unpublish_tx, update_companion. intros a d' Hrun. step_inv. bool_inv. apply spares_companion. by eexists.
    + intros a w2 _. apply within_bind; [apply _| |intros; apply within_pure; [apply _|]; pose proof publishInvalidation_reads; reads].
      unfold within. set (π d := (db_companions d, db_shareableTopics d, db_users d, db_assetPacks d, db_friendships d)).
      assert (frame_on π (revokeCompanionVisits_tx companionId "companion_unpublished" now)) as Hfr
        by (unfold revokeCompanionVisits_tx, cancel_claimed, close_claimed; frame).
      apply revokeCompanionVisits_frame with (w := w2) in Hfr. unfold π in Hfr. simplify_eq. split_and!; congruence.
  - apply within_owned_companion. intros Ho c Hc. apply within_pure_bind; [apply normalizeShareableTopic_reads|]. intros t w1 Hw.
    apply within_then_publish; [|intros; pose proof publishInvalidation_reads; reads].
    apply within_tx; [apply _|]. intros a d' Hrun. step_inv. option_inv. simplify_eq. split_and!; [done| |done..].
    intros k t' Hk _ _. by eapply create_row_frame.
  - apply within_owned_topic. intros Ho r Hr Hk. apply within_pure_bind; [apply normalizeShareableTopic_reads|]. intros t w1 Hw.
    apply within_then_publish; [|intros; pose proof publishInvalidation_reads; reads].
    apply within_tx; [apply _|]. unfold update_topic. intros a d' Hrun. rewrite Hw in *. step_inv. simplify_eq. by eapply spares_topic.
  - apply within_owned_topic. intros Ho r Hr Hk.
    apply within_then_publish; [|intros; pose proof publishInvalidation_reads; reads].
    apply within_tx; [apply _|]. unfold revoke_tx, update_topic. intros a d' Hrun. step_inv.
    all: simplify_eq; etrans; [by eapply spares_topic|]; try done.
    by apply spares_alter_companion.
  - apply within_owned_companion. intros Ho c Hc. apply within_pure_bind; [reads|]. intros [] w1 Hw.
    apply within_then_publish; [apply within_update_companion; by rewrite Hw|]. intros. pose proof publishInvalidation_reads. reads.
Qed.

(** ** Random visits have something to talk about *)

Lemma publishInvalidation_run u e p w : ∃ w', publishInvalidation u e p w = (Ok (), w') ∧ w_db w' = w_db w.
Proof.
  unfold publishInvalidation. erewrite act_bind_run by done. rewrite query_run. simpl.
  set (w0 := w <| w_events := _ |>). assert (w_db w0 = w_db w) as <- by done. clearbody w0.
  generalize (friends_of u (w_db w0)). intros l. revert w0. induction l as [|x l IH]; intros w0; [by exists w0|].
  simpl. unfold mbind at 1, act_bind at 1. rewrite query_run. destruct (areEligibleFriends _ _ _); simpl; [|apply IH].
  destruct (IH (w0 <| w_events := w_events w0 ++ [mkEvent x e p] |>)) as (w' & -> & Hd). by exists w'.
Qed.

Ltac published :=
  repeat match goal with
  | H : publishInvalidation ?u ?e ?p ?w = (Ok _, ?w') |- _ =>
      let E := fresh "Hdb" in
      assert (w_db w' = w_db w) as E by (pose proof (publishInvalidation_reads u e p w) as E; by rewrite H in E); clear H
  end.

Definition has_random_topic (companionId : rowid) (now : instant) (d : DB) : Prop :=
  ∃ k t, db_shareableTopics d !! k = Some t ∧ random_topic companionId now t = true.
Lemma random_topics_pos c now d : random_topics c now d ≠ 0%nat ↔ has_random_topic c now d.
Proof. unfold random_topics. by rewrite count_where_pos, exists_where_true. Qed.

Lemma random_topics_frame c now d d' : db_shareableTopics d' = db_shareableTopics d → has_random_topic c now d → has_random_topic c now d'.
Proof. unfold has_random_topic. by intros ->. Qed.

Lemma revoke_tx_policy userId companionId topicId now d a d' c :
  owned_by d userId companionId → revoke_tx userId companionId topicId now d = Ok (a, d') →
  db_companions d' !! companionId = Some c → co_randomVisitsEnabled c = true → has_random_topic companionId now d'.
Proof.
  intros (c0 & Hc0 & Ho) Hrun Hc Hon. unfold revoke_tx, update_topic in Hrun. step_inv; cbn in *.
  - rewrite (alter_as_insert _ _ _ _ Hc0), lookup_insert_eq in Hc. by simplify_eq.
  - simplify_eq. apply random_topics_pos. intros H0. match goal with H : _ && _ = false |- _ => revert H end.
    rewrite H0, Hc0. by rewrite !bool_decide_eq_true_2, Hon.
Qed.

(** When a topic was revoked, or a social policy written, a companion that
    takes random visits still has a topic a random visitor may be given. *)
Theorem random_visits_have_topics userId companionId now request w w' c :
  (∃ topicId, request = RQ_revokeTopic companionId topicId) ∨ (∃ dto, request = RQ_policy companionId dto) →
  serve userId now request w = (Ok (), w') →
  db_companions (w_db w') !! companionId = Some c → co_randomVisitsEnabled c = true →
  has_random_topic companionId now (w_db w').
Proof.
  intros [[topicId ->]|[dto ->]]; simpl.
  - unfold revokeShareableTopic, requireOwnedTopic. intros Hrun Hc Hon. service_inv; published; bool_inv; subst.
    all: repeat match goal with H : w_db _ = _ |- _ => rewrite H in *; clear H end; cbn in *.
    all: match goal with H : _ ≫= _ = Some _ |- _ => apply bind_Some in H as (r & Hr & (c0 & Hc0 & [= <-])%bind_Some) end.
    all: eapply revoke_tx_policy; [by exists c0|done..].
  - unfold updateSocialPolicy, requireOwnedCompanion. intros Hrun Hc Hon. unfold update_companion in Hrun. service_inv; published; bool_inv; subst.
    all: repeat match goal with H : w_db _ = _ |- _ => rewrite H in *; clear H end; cbn in *.
    all: step_inv; cbn in *; rewrite lookup_insert_eq in Hc; simplify_eq/=.
    eapply random_topics_frame; [|by apply random_topics_pos]. done.
Qed.

(** ** What a friend sees *)

(** The companion [friend] shows to [requester]. *)
Definition shown_companion (requester friend : rowid) (d : DB) (k : rowid) (c : Companion) : Prop :=
  areEligibleFriends requester friend d = true
  ∧ (∃ u, db_users d !! friend = Some u ∧ u_accountStatus u = ACTIVE ∧ u_activeNetworkCompanionId u = Some k)
  ∧ db_companions d !! k = Some c ∧ co_published c = true ∧ co_visibility c = "friends_only"
  ∧ truthy_id (co_activeAssetPackId c) = true.

(** [getFriendCompanion] answers with a companion exactly when it is the
    active, published companion of an active account, and the two accounts are
    friends without a block between them; every other case is the same
    exception, and nothing is changed. *)
Theorem getFriendCompanion_exact requester friend w :
  (getFriendCompanion requester friend w).2 = w
  ∧ (∀ k c, (getFriendCompanion requester friend w).1 = Ok (k, c) ↔ shown_companion requester friend (w_db w) k c)
  ∧ (∀ e, (getFriendCompanion requester friend w).1 = Err e → e = companionNotAvailable).
Proof.
  unfold getFriendCompanion, shown_companion. rewrite query_run.
  destruct (areEligibleFriends requester friend (w_db w)) eqn:He;
    [rewrite act_require_run by done|rewrite act_require_stop by done; split_and!; naive_solver].
  rewrite query_run.
  destruct (db_users (w_db w) !! friend) as [u|] eqn:Hu; [|split_and!; naive_solver]. simpl.
  destruct (u_activeNetworkCompanionId u) as [k|] eqn:Hk; [|split_and!; naive_solver]. simpl.
  destruct (db_companions (w_db w) !! k) as [c|] eqn:Hc; [|split_and!; naive_solver]. simpl.
  erewrite act_require_some_run by done. simpl. unfold mbind, act_bind, act_require.
  destruct (_ && _ && _ && _) eqn:Hb; bool_inv; simpl.
  - split_and!; [done| |done]. naive_solver.
  - split_and!; [done| |naive_solver]. intros k' c'. split; [done|]. intros (_ & (u' & ? & ? & ?) & ? & Hp & ? & Ht). simplify_eq.
    exfalso. revert Hb. rewrite Hp, Ht. rewrite !bool_decide_eq_true_2 by done. done.
Qed.

(** ** Columns an update cannot empty *)

Lemma normalizeProfile_ok dto w profile w' : normalizeProfile toLowerCase dto w = (Ok profile, w') →
  pf_publicDescription profile = ud_publicDescription dto ≫= λ d, nonempty (trim d).
Proof. unfold normalizeProfile. intros H. step_inv. done. Qed.
Lemma normalizeShareableTopic_expiry dto now w d w' : normalizeShareableTopic toLowerCase parse_date dto now w = (Ok d, w') →
  td_expiresAt dto = None ∨ td_expiresAt dto = Some [] → td'_expiresAt d = None.
Proof. unfold normalizeShareableTopic. intros H He. destruct He as [He|He]; rewrite He in H; step_inv; done. Qed.
Lemma normalizeProfile_state dto w r w' : normalizeProfile toLowerCase dto w = (Ok r, w') → w' = w.
Proof. unfold normalizeProfile. intros H. by step_inv. Qed.
Lemma normalizeShareableTopic_state dto now w r w' : normalizeShareableTopic toLowerCase parse_date dto now w = (Ok r, w') → w' = w.
Proof. unfold normalizeShareableTopic. intros H. by step_inv. Qed.
Lemma update_ok userId k dto now w k' c' w' : update toLowerCase userId k dto now w = (Ok (k', c'), w') →
  ∃ c profile, db_companions (w_db w) !! k = Some c ∧ normalizeProfile toLowerCase dto w = (Ok profile, w)
    ∧ c' = c <| co_name := pf_name profile |> <| co_publicDescription := option_union (pf_publicDescription profile) (co_publicDescription c) |>
             <| co_publicTags := pf_publicTags profile |> <| co_updatedAt := now |>.
Proof.
  unfold update, requireOwnedCompanion, update_companion. intros Hrun. service_inv. bool_inv.
  match goal with H : normalizeProfile _ _ _ = _ |- _ => pose proof (normalizeProfile_state _ _ _ _ H) as ->; rename H into Hp end.
  step_inv. eauto.
Qed.
Lemma updateTopic_ok userId k t dto now w t' r w' : updateShareableTopic toLowerCase parse_date userId k t dto now w = (Ok (t', r), w') →
  ∃ t0 d, db_shareableTopics (w_db w) !! t = Some t0 ∧ normalizeShareableTopic toLowerCase parse_date dto now w = (Ok d, w)
    ∧ r = (write_topic d t0) <| st_updatedAt := now |>.
Proof.
  unfold updateShareableTopic, requireOwnedTopic, update_topic. intros Hrun. service_inv. bool_inv.
  match goal with H : normalizeShareableTopic _ _ _ _ _ = _ |- _ => pose proof (normalizeShareableTopic_state _ _ _ _ _ H) as ->; rename H into Hp end.
  step_inv. eauto.
Qed.

(** An update whose optional text is left out, or blank, keeps the text the
    row had: the description of a companion, and the expiry and the source
    address of a topic, can be replaced but never removed. *)
Theorem optional_columns_survive userId companionId topicId pdto tdto now w w1 w2 c c' t t' :
  update toLowerCase userId companionId pdto now w = (Ok (companionId, c'), w1) →
  updateShareableTopic toLowerCase parse_date userId companionId topicId tdto now w = (Ok (topicId, t'), w2) →
  db_companions (w_db w) !! companionId = Some c → db_shareableTopics (w_db w) !! topicId = Some t →
  ((∀ d, ud_publicDescription pdto = Some d → trim d = []) → co_publicDescription c' = co_publicDescription c)
  ∧ (is_Some (co_publicDescription c) → is_Some (co_publicDescription c'))
  ∧ ((∀ d, td_expiresAt tdto = Some d → d = []) → st_expiresAt t' = st_expiresAt t)
  ∧ (is_Some (st_expiresAt t) → is_Some (st_expiresAt t'))
  ∧ (is_Some (st_sourceUrl t) → is_Some (st_sourceUrl t')).
Proof.
  intros Hup Htop Hc Ht.
  apply update_ok in Hup as (c0 & profile & Hc0 & Hp & ->). apply updateTopic_ok in Htop as (t0 & d & Ht0 & Hd & ->).
  rewrite Hc in Hc0. injection Hc0 as <-. rewrite Ht in Ht0. injection Ht0 as <-.
  apply normalizeProfile_ok in Hp. pose proof (normalizeShareableTopic_expiry _ _ _ _ _ Hd) as He. simpl. rewrite Hp. split_and!.
  - intros Hblank. destruct (ud_publicDescription pdto) as [x|]; [|by destruct (co_publicDescription c)]. simpl. rewrite (Hblank _ eq_refl). by destruct (co_publicDescription c).
  - intros [x ->]. by destruct (_ ≫= _).
  - intros Hblank. assert (td'_expiresAt d = None) as ->; [|by destruct (st_expiresAt t)].
    apply He. destruct (td_expiresAt tdto) as [x|]; [|by left]. right. f_equal. by apply Hblank.
  - intros [x ->]. by destruct (td'_expiresAt d).
  - intros [x ->]. by destruct (td'_sourceUrl d).
Qed.
End owner.

(** ** A concrete deployment *)

Section demo.
#[local] Existing Instance key_order.

Definition demo_lower (t : text) : text := t.
Definition demo_parse_date (t : text) : option instant := if t == lit "2030-01-01" then Some 1893456000000 else None.
Definition demo_own : Companion := mkCompanion "alice" (lit "Mo") (Some (lit "a cat")) [] "friends_only" true false "friends" true (Some "p") 0 0 (Some 0).
Definition demo_topic (eligible : bool) : ShareableTopic :=
  mkShareableTopic "ca" (lit "tea") (lit "green tea") [] (Some (lit "https://tea")) "friends" summary_and_source false eligible (Some 500) None None 0 0.
Definition demo_companions : DB :=
  empty_db <| db_users := <["alice" := (demo_user "alice") <| u_activeNetworkCompanionId := Some "ca" |>]> demo_users |>
    <| db_companions := {["ca" := demo_own]} |> <| db_shareableTopics := {["t" := demo_topic true]} |>
    <| db_friendships := {[("alice", "bob"); ("bob", "alice")]} |>.
Definition demo_social : World := mkWorld demo_companions [].
Definition demo_serve := serve demo_lower demo_parse_date.
Definition policy_on : CompanionRequest := RQ_policy "ca" (mkUpdateCompanionSocialPolicyDto (Some true) None None).
Definition topic_off : CompanionRequest :=
  RQ_updateTopic "ca" "t" (mkUpsertShareableTopicDto (lit "tea") (lit "black tea") None None None None None None None).
Definition after_policy : World := (demo_serve "alice" 100 policy_on demo_social).2.
Definition after_topic_off : World := (demo_serve "alice" 110 topic_off after_policy).2.

(** Nothing but a revocation withdraws the offer: a topic that is updated
    without [eligibleForRandomVisit] is no longer one, and the companion goes on
    taking random visits without any topic for them. *)
Theorem updated_topic_leaves_random_visits_on :
  (demo_serve "alice" 100 policy_on demo_social).1 = Ok () ∧ (demo_serve "alice" 110 topic_off after_policy).1 = Ok ()
  ∧ co_randomVisitsEnabled <$> db_companions (w_db after_topic_off) !! "ca" = Some true
  ∧ random_topics "ca" 110 (w_db after_topic_off) = 0%nat.
Proof. split_and!; vm_compute; reflexivity. Qed.

Lemma random_visits_have_topics_witness : has_random_topic "ca" 100 (w_db after_policy).
Proof.
  apply (random_visits_have_topics demo_lower demo_parse_date "alice" "ca" 100 policy_on demo_social after_policy
    (demo_own <| co_randomVisitsEnabled := true |> <| co_updatedAt := 100 |>)).
  - right. by eexists.
  - vm_compute. reflexivity.
  - vm_compute. reflexivity.
  - reflexivity.
Defined.

Definition blank_profile : UpsertCompanionDto := mkUpsertCompanionDto (lit "Mo") (Some (lit "  ")) None.
Definition black_tea : UpsertShareableTopicDto := mkUpsertShareableTopicDto (lit "tea") (lit "black tea") None None None None None None None.
Definition ok_or {A} (a : A) (r : result A) : A := match r with Ok x => x | Err _ => a end.
Definition new_profile : rowid * Companion := ok_or ("", demo_own) (update demo_lower "alice" "ca" blank_profile 100 demo_social).1.
Definition new_topic : rowid * ShareableTopic :=
  ok_or ("", demo_topic true) (updateShareableTopic demo_lower demo_parse_date "alice" "ca" "t" black_tea 100 demo_social).1.
Lemma optional_columns_survive_witness :
  co_publicDescription new_profile.2 = Some (lit "a cat") ∧ is_Some (st_expiresAt new_topic.2).
Proof.
  destruct (optional_columns_survive demo_lower demo_parse_date "alice" "ca" "t" blank_profile black_tea 100 demo_social
    (update demo_lower "alice" "ca" blank_profile 100 demo_social).2
    (updateShareableTopic demo_lower demo_parse_date "alice" "ca" "t" black_tea 100 demo_social).2
    demo_own new_profile.2 (demo_topic true) new_topic.2) as (Hp & _ & _ & He & _).
  - vm_compute. reflexivity.
  - vm_compute. reflexivity.
  - vm_compute. reflexivity.
  - vm_compute. reflexivity.
  - split; [|apply He; vm_compute; by eexists]. rewrite Hp; [vm_compute; reflexivity|]. intros d [= <-]. vm_compute. reflexivity.
Defined.

Lemma requests_touch_own_companions_witness : spares_others "bob" demo_companions (w_db (demo_serve "bob" 100 topic_off demo_social).2).
Proof. apply (requests_touch_own_companions demo_lower demo_parse_date "bob" 100 topic_off demo_social). Defined.
Lemma getFriendCompanion_exact_witness : (getFriendCompanion "bob" "alice" demo_social).1 = Ok ("ca", demo_own).
Proof.
  apply (getFriendCompanion_exact "bob" "alice" demo_social). unfold shown_companion.
  split_and!; try (vm_compute; reflexivity). eexists. split_and!; vm_compute; reflexivity.
Defined.
End demo.
