(* ===== verification/AssetPack.v ===== *)
(** * Asset packs ([companion/companion.service.ts] from [initiateAssetPack] on,
    [companion/companion-cleanup.service.ts])

    A pack is declared by its manifest, uploaded into a staging area of the
    bucket through signed addresses, verified and copied by [completeAssetPack],
    and then active until another pack of the companion takes its place.  Three
    cleanup phases abandon uploads, empty the staging area of active packs and
    delete the packs that were replaced.

    These methods work on the database and on the bucket in turns, and other
    requests and the uploading clients run whenever one of them awaits:
    [others n] is what happened to the whole world, the clock included, during
    the [n]th await. *)

From S2P Require Import Prelude Tables JsText Json Schema Interfaces Config AssetManifest Storage Visit Companion.
Local Open Scope Z_scope.

Record CWorld (B : Type) := mkCWorld { cw_world : World; cw_storage : Storage B; cw_now : instant; cw_awaits : nat }.
Arguments mkCWorld {B} _ _ _ _.
Arguments cw_world {B} _.
Arguments cw_storage {B} _.
Arguments cw_now {B} _.
Arguments cw_awaits {B} _.
#[export] Instance eta_CWorld {B} : Eta (CWorld B) := λ w, mkCWorld (cw_world w) (cw_storage w) (cw_now w) (cw_awaits w).
Abbreviation cw_db w := (w_db (cw_world w)).
Abbreviation cw_bucket w := (sg_bucket (cw_storage w)).

Definition UPLOAD_URL_EXPIRY_SKEW_MS : Z := 5000.

Record InitiateAssetPackDto := mkInitiateAssetPackDto {
  ad_schemaVersion : Z; ad_manifestHash : text; ad_totalFiles : Z; ad_totalBytes : Z; ad_manifest : json }.

(** [PACK_SELECT], as [pack] hands it out *)
Record PackView := mkPackView {
  pv_id : rowid; pv_companionId : rowid; pv_manifestHash : text; pv_schemaVersion : Z; pv_status : PackStatus;
  pv_totalFiles : Z; pv_totalBytes : Z; pv_failureCode : option string; pv_createdAt : instant; pv_updatedAt : instant;
  pv_completedAt : option instant; pv_activatedAt : option instant; pv_supersededAt : option instant }.
Definition pack (kp : rowid * AssetPack) : PackView :=
  let p := kp.2 in
  mkPackView kp.1 (pk_companionId p) (pk_manifestHash p) (pk_schemaVersion p) (pk_status p) (pk_totalFiles p) (pk_totalBytes p)
    (pk_failureCode p) (pk_createdAt p) (pk_updatedAt p) (pk_completedAt p) (pk_activatedAt p) (pk_supersededAt p).

Inductive InitiateResult :=
  | IR_reused (requiresActivation : bool) (assetPack : PackView)
  | IR_resumed (assetPack : PackView) (fileIds : list rowid)
  | IR_created (assetPack : rowid * AssetPack) (fileIds : list rowid).

Record OwnedPack := mkOwnedPack { op_pack : AssetPack; op_companion : Companion; op_files : list (rowid * AssetFile) }.

Definition STATE_CHANGED : exc := ConflictException "ASSET_PACK_STATE_CHANGED".
Definition NOT_UPLOADABLE : exc := ConflictException "ASSET_PACK_NOT_UPLOADABLE".
Definition one_active : string := "CompanionAssetPack_one_active_per_companion".

(** ** Rows *)

Definition pack_row_clash (a b : AssetPack) : bool := (pk_companionId a == pk_companionId b) && (pk_manifestHash a == pk_manifestHash b).
Definition file_clash (a b : AssetFile) : bool :=
  (af_objectKey a == af_objectKey b) || ((af_assetPackId a == af_assetPackId b) && (af_relativePath a == af_relativePath b)).
(** [companionAssetPack.updateMany]; [updatedAt] is written with the rows. *)
Definition update_packs (p : rowid → AssetPack → bool) (now : instant) (f : AssetPack → AssetPack) (d : DB) : DB :=
  d <| db_assetPacks := update_many p (λ r, (f r) <| pk_updatedAt := now |>) (db_assetPacks d) |>.
(** [updateMany({ where: { id, ... }, ... })]: whether one row was claimed *)
Definition claim_pack (k : rowid) (p : AssetPack → bool) (now : instant) (f : AssetPack → AssetPack) : Tx DB bool :=
  claimed ← gets (λ d, match db_assetPacks d !! k with Some r => p r | None => false end);
  modify (update_packs (λ k' r, (k' == k) && p r) now f) ;; mret claimed.

(** [companionAssetPack.delete] with what its foreign keys ask for: the files
    go, the visits and companions that refer to the pack forget it. *)
Definition delete_pack (k : rowid) (d : DB) : DB :=
  let forgets (o : option rowid) := o == Some k in
  d <| db_assetPacks := delete k (db_assetPacks d) |>
    <| db_assetFiles := delete_many (λ _ f, af_assetPackId f == k) (db_assetFiles d) |>
    <| db_companions := update_many (λ _ c, forgets (co_activeAssetPackId c)) (λ c, c <| co_activeAssetPackId := None |>) (db_companions d) |>
    <| db_invitations := update_many (λ _ r, forgets (inv_assetPackRefId r)) (λ r, r <| inv_assetPackRefId := None |>) (db_invitations d) |>
    <| db_sessions := update_many (λ _ r, forgets (ses_assetPackRefId r)) (λ r, r <| ses_assetPackRefId := None |>) (db_sessions d) |>
    <| db_participants := update_many (λ _ r, forgets (par_assetPackRefId r)) (λ r, r <| par_assetPackRefId := None |>) (db_participants d) |>
    <| db_joinRequests := update_many (λ _ r, forgets (jr_assetPackRefId r)) (λ r, r <| jr_assetPackRefId := None |>) (db_joinRequests d) |>.

(** The bytes a user's packs count for. *)
Definition COUNTED : list PackStatus := [PK_uploading; PK_verifying; PK_active; PK_superseded].
Definition counts_for (userId : rowid) (d : DB) (p : AssetPack) : bool :=
  bool_decide (pk_status p ∈ COUNTED) && match db_companions d !! pk_companionId p with Some c => co_ownerUserId c == userId | None => false end.
Definition usage (userId : rowid) (d : DB) : Z :=
  sum_map (λ p, if counts_for userId d p then pk_totalBytes p else 0) (db_assetPacks d).

Definition stagingObjectKey (objectPrefix : text) (fileId : rowid) : text := objectPrefix ++ lit "/staging/" ++ lit fileId.
Definition publishedKey (objectPrefix relativePath : text) : text := objectPrefix ++ lit "/files/" ++ relativePath.
Definition manifestKey (objectPrefix : text) : text := objectPrefix ++ lit "/manifest.json".
(** [objectKeysForDeletion] *)
Definition objectKeysForDeletion (objectPrefix : text) (files : list (rowid * AssetFile)) : list text :=
  (af_objectKey ∘ snd <$> files) ++ ((λ kf, stagingObjectKey objectPrefix kf.1) <$> filter (λ kf, (kf.1 != "") = true) files) ++ [manifestKey objectPrefix].

(** A file as the normalized manifest lists it. *)
Record FileColumns := mkFileColumns { fc_relativePath : text; fc_mimeType : text; fc_sizeBytes : Z; fc_sha256 : text; fc_category : text }.
Definition file_columns (j : json) : FileColumns :=
  let str key := match get key j with Some v => text_of v | None => [] end in
  mkFileColumns (str "relativePath") (str "mimeType") (match get "sizeBytes" j with Some (JInt n) => n | _ => 0 end) (str "sha256") (str "category").
Definition manifest_files (manifest : json) : list FileColumns := file_columns <$> default [] (as_array (get "files" manifest)).

(** [[...].map(async x => f(x))] under [Promise.all] *)
Fixpoint act_map {W A C} (l : list A) (f : A → Act W C) : Act W (list C) :=
  match l with [] => mret [] | x :: l' => y ← f x; ys ← act_map l' f; mret (y :: ys) end.

Section pack.
Context {Hscan : ScanOrder} {B : Type} `{!ObjectStore B}.
Variable others : nat → CWorld B → CWorld B.
Variable toLowerCase : text → text.
Variable sha256_hex : text → text.
Variable localeCompare_le : text → text → bool.
Variable limits : StorageLimits.
Variable downloadUrlTtlSeconds : Z.
Variable sign_put : text → text → Z → instant → text.
Variable sign_get : text → Z → instant → text.
(** bound on the rounds of [deleteObjectPrefix] *)
Variable fuel : nat.
Abbreviation CW := (CWorld B).

Definition await : Act CW unit := act_modify (λ w, (others (cw_awaits w) w) <| cw_awaits := S (cw_awaits w) |>).
(** A database call, a storage call. *)
Definition in_db {A} (m : Act World A) : Act CW A := λ w, let '(r, w') := m (cw_world w) in (r, w <| cw_world := w' |>).
Definition in_storage {A} (m : Act (Storage B) A) : Act CW A := λ w, let '(r, s') := m (cw_storage w) in (r, w <| cw_storage := s' |>).
Definition db_call {A} (m : Act World A) : Act CW A := await ;; in_db m.
Definition storage_call {A} (m : Act (Storage B) A) : Act CW A := await ;; in_storage m.
Definition clock : Act CW instant := act_gets cw_now.
Definition pack_query {A} (f : DB → A) : Act CW A := db_call (query f).
Definition pack_tx {A} (body : Tx DB A) : Act CW A := db_call (transaction body).

Definition manifest_limits : ManifestLimits := mkManifestLimits (sl_maxFileBytes limits) (sl_maxPackBytes limits) (sl_maxPackFiles limits).
Definition validate (manifest : json) (hash : text) : result ValidManifest :=
  validateManifest toLowerCase sha256_hex localeCompare_le manifest_limits manifest hash.
Definition lift_result {A} (r : result A) : Act CW A := λ w, (r, w).

(** ** Checks *)

(** [requireStorage] *)
Definition requireStorage : Act CW unit := λ w,
  act_require (sc_uploadsEnabled (sg_capability (cw_storage w))) (ServiceUnavailableException "ASSET_STORAGE_UNAVAILABLE") w.

(** [assertUploadSessionCurrent], [assertUploadable], [assertUploadUrlsExpired] *)
Definition session_expired (p : AssetPack) (now : instant) : bool := sl_uploadSessionTtlHours limits * 3600000 <? now - pk_createdAt p.
Definition SESSION_EXPIRED : exc := ConflictException "ASSET_UPLOAD_SESSION_EXPIRED".
Definition assertUploadable (p : AssetPack) (now : instant) : Act CW unit :=
  act_require (negb (session_expired p now)) SESSION_EXPIRED ;; act_require (pk_status p == PK_uploading) NOT_UPLOADABLE.
Definition assertUploadUrlsExpired (lastIssuedAt : option instant) (now : instant) : Act CW unit :=
  act_require match lastIssuedAt with
    | Some t => negb (now <? t + sl_uploadUrlTtlSeconds limits * 1000 + UPLOAD_URL_EXPIRY_SKEW_MS) | None => true end
    (ConflictException "ASSET_UPLOAD_URLS_ACTIVE").

(** [uploadUrlExpiredBefore], [activeStagingCleanupBefore], [uploadUrlsExpiredWhere] *)
Definition uploadUrlExpiredBefore (now : instant) : instant := now - sl_uploadUrlTtlSeconds limits * 1000 - UPLOAD_URL_EXPIRY_SKEW_MS.
Definition activeStagingCleanupBefore (now : instant) : instant :=
  now - Z.max (sl_uploadUrlTtlSeconds limits * 1000) (sl_uploadSessionTtlHours limits * 3600000) - UPLOAD_URL_EXPIRY_SKEW_MS.
Definition before (o : option instant) (t : instant) : bool := match o with Some x => x <? t | None => false end.
Definition uploadUrlsExpiredWhere (now : instant) (p : AssetPack) : bool :=
  negb (is_set (pk_lastUploadUrlIssuedAt p)) || before (pk_lastUploadUrlIssuedAt p) (uploadUrlExpiredBefore now).

(** [lockActiveAccountForAssetMutation] *)
Definition lockActiveAccountForAssetMutation (userId : rowid) : Tx DB unit :=
  ok ← gets (λ d, match db_users d !! userId with Some u => user_open u | None => false end);
  require ok (ConflictException "ACCOUNT_DELETION_PENDING").

Definition pack_files (assetPackId : rowid) (d : DB) : list (rowid * AssetFile) := find_many (λ _ f, af_assetPackId f == assetPackId) (db_assetFiles d).
(** [requireOwnedPack(userId, assetPackId, true)] *)
Definition owned_pack (assetPackId : rowid) (d : DB) : option OwnedPack :=
  p ← db_assetPacks d !! assetPackId; c ← db_companions d !! pk_companionId p; Some (mkOwnedPack p c (pack_files assetPackId d)).
Definition requireOwnedPack (userId assetPackId : rowid) : Act CW OwnedPack :=
  row ← pack_query (owned_pack assetPackId);
  p ← act_require_some row (NotFoundException "ASSET_PACK_NOT_FOUND");
  act_require (co_ownerUserId (op_companion p) == userId) (ForbiddenException "ASSET_PACK_NOT_OWNED") ;; mret p.

(** [requireDownloadablePack] *)
Definition requireDownloadablePack (userId assetPackId : rowid) : Act CW OwnedPack :=
  row ← pack_query (owned_pack assetPackId);
  p ← act_require_some row companionNotAvailable;
  act_require ((pk_status (op_pack p) == PK_active) && (co_activeAssetPackId (op_companion p) == Some assetPackId)) companionNotAvailable ;;
  if co_ownerUserId (op_companion p) == userId then mret p
  else
    act_require (co_published (op_companion p)) companionNotAvailable ;;
    eligible ← pack_query (areEligibleFriends userId (co_ownerUserId (op_companion p)));
    act_require eligible companionNotAvailable ;; mret p.

(** ** Declaring and uploading *)

(** The transaction of [initiateAssetPack]. *)
Definition create_pack (k : rowid) (r : AssetPack) : Tx DB unit :=
  modify_or (λ d, m ← create_row pack_row_clash k r (db_assetPacks d); Some (d <| db_assetPacks := m |>)) (P2002 "companionId_manifestHash").
Definition create_file (kf : rowid * AssetFile) : Tx DB unit :=
  modify_or (λ d, m ← create_row file_clash kf.1 kf.2 (db_assetFiles d); Some (d <| db_assetFiles := m |>)) (P2002 "CompanionAssetFile").
Definition resume_pack (k : rowid) (p : AssetPack) (now : instant) : Tx DB InitiateResult :=
  require (negb (session_expired p now)) SESSION_EXPIRED ;;
  (if pk_status p == PK_verifying then
     claimed ← claim_pack k (λ r, pk_status r == PK_verifying) now (λ r, r <| pk_status := PK_uploading |> <| pk_failureCode := None |>);
     require claimed STATE_CHANGED
   else mret ()) ;;
  row ← gets (λ d, db_assetPacks d !! k);
  resumed ← require_some row P2025;
  files ← gets (pack_files k);
  mret (IR_resumed (pack (k, resumed)) files.*1).
Definition new_files (assetPackId : rowid) (prefix : text) (fileId : nat → rowid) (files : list FileColumns) : list (rowid * AssetFile) :=
  imap (λ i f, (fileId i, mkAssetFile assetPackId (fc_relativePath f) (publishedKey prefix (fc_relativePath f)) (fc_mimeType f) (fc_sizeBytes f)
    (fc_sha256 f) (fc_category f) false None)) files.
Definition object_prefix (userId companionId : rowid) (manifestHash : text) : text :=
  lit "companion-assets/" ++ lit userId ++ lit "/" ++ lit companionId ++ lit "/" ++ manifestHash.
Definition declare_pack (userId companionId : rowid) (hash : text) (v : ValidManifest) (newId : rowid) (fileId : nat → rowid) (now : instant)
    : Tx DB InitiateResult :=
  used ← gets (usage userId);
  require (used + vm_totalBytes v <=? sl_maxUserStorageBytes limits) (ConflictException "ASSET_PACK_STORAGE_QUOTA_EXCEEDED") ;;
  let prefix := object_prefix userId companionId hash in
  let files := manifest_files (vm_manifest v) in
  let created := mkAssetPack companionId hash 1 (vm_manifest v) PK_uploading prefix (Z.of_nat (length files)) (vm_totalBytes v)
    None None None now now None None None in
  create_pack newId created ;;
  tx_for (new_files newId prefix fileId files) create_file ;;
  mret (IR_created (newId, created) (new_files newId prefix fileId files).*1).
Definition initiate_tx (userId companionId : rowid) (hash : text) (v : ValidManifest) (newId : rowid) (fileId : nat → rowid) (now : instant)
    : Tx DB InitiateResult :=
  lockActiveAccountForAssetMutation userId ;;
  row ← gets (λ d, db_companions d !! companionId);
  companion ← require_some row COMPANION_NOT_FOUND;
  require (co_ownerUserId companion == userId) COMPANION_NOT_OWNED ;;
  existing ← gets (λ d, find_unique (λ _ p, (pk_companionId p == companionId) && (pk_manifestHash p == hash)) (db_assetPacks d));
  match existing with
  | Some (k, p) =>
      match pk_status p with
      | PK_active | PK_superseded =>
          mret (IR_reused ((pk_status p == PK_superseded) || (co_activeAssetPackId companion != Some k)) (pack (k, p)))
      | PK_uploading | PK_verifying => resume_pack k p now
      | _ => throw (ConflictException "ASSET_PACK_ALREADY_EXISTS")
      end
  | None => declare_pack userId companionId hash v newId fileId now
  end.

(** [initiateAssetPack] *)
Definition initiateAssetPack (userId companionId : rowid) (dto : InitiateAssetPackDto) (newId : rowid) (fileId : nat → rowid) : Act CW InitiateResult :=
  requireStorage ;;
  validated ← lift_result (validate (ad_manifest dto) (ad_manifestHash dto));
  act_require ((ad_schemaVersion dto =? 1) && (ad_totalFiles dto =? Z.of_nat (length (manifest_files (vm_manifest validated))))
    && (ad_totalBytes dto =? vm_totalBytes validated)) (BadRequestException "ASSET_PACK_MANIFEST_INVALID") ;;
  now ← clock;
  pack_tx (initiate_tx userId companionId (ad_manifestHash dto) validated newId fileId now).

(** [getAssetPacks] *)
Definition getAssetPacks (userId companionId : rowid) : Act CW (list PackView) :=
  db_call (requireOwnedCompanion userId companionId) ;;
  packs ← pack_query (λ d, find_many_by (λ _ p, pk_companionId p == companionId) (λ a b, pk_createdAt b.2 <=? pk_createdAt a.2) (db_assetPacks d));
  mret (pack <$> packs).

Definition file_ids_valid (fileIds : list rowid) : bool :=
  negb (bool_decide (fileIds = [])) && (Z.of_nat (length fileIds) <=? 50) && bool_decide (length (dedup fileIds) = length fileIds).
Definition files_of (assetPackId : rowid) (fileIds : list rowid) (d : DB) : list (rowid * AssetFile) :=
  find_many (λ k f, (af_assetPackId f == assetPackId) && bool_decide (k ∈ fileIds)) (db_assetFiles d).

Record UploadUrl := mkUploadUrl { uu_fileId : rowid; uu_relativePath : text; uu_url : text; uu_expiresAt : instant; uu_contentType : text }.
(** [createUploadUrls] *)
Definition issue_tx (userId assetPackId : rowid) (issuedAt : instant) : Tx DB unit :=
  lockActiveAccountForAssetMutation userId ;;
  owned ← gets (λ d, match owned_pack assetPackId d with Some p => co_ownerUserId (op_companion p) == userId | None => false end);
  issued ← claim_pack assetPackId (λ p, (pk_status p == PK_uploading) && owned) issuedAt (λ p, p <| pk_lastUploadUrlIssuedAt := Some issuedAt |>);
  require issued STATE_CHANGED.
Definition createUploadUrls (userId assetPackId : rowid) (fileIds : list rowid) : Act CW (list UploadUrl) :=
  requireStorage ;;
  p ← requireOwnedPack userId assetPackId;
  now ← clock;
  assertUploadable (op_pack p) now ;;
  act_require (file_ids_valid fileIds) (BadRequestException "ASSET_PACK_FILE_INVALID") ;;
  files ← pack_query (files_of assetPackId fileIds);
  act_require (bool_decide (length files = length fileIds)) (NotFoundException "ASSET_PACK_FILE_MISSING") ;;
  issuedAt ← clock;
  pack_tx (issue_tx userId assetPackId issuedAt) ;;
  act_map files (λ kf,
    signed ← storage_call (createPutUrl sign_put (sl_uploadUrlTtlSeconds limits) (stagingObjectKey (pk_objectPrefix (op_pack p)) kf.1) (af_mimeType kf.2) issuedAt);
    mret (mkUploadUrl kf.1 (af_relativePath kf.2) signed.1 signed.2 (af_mimeType kf.2))).

(** ** Activation *)

Definition active_of (companionId : rowid) (p : AssetPack) : bool := (pk_companionId p == companionId) && (pk_status p == PK_active).
(** The partial index [one_active] over the rows of a companion. *)
Definition one_active_index (companionId : rowid) (d : DB) : option DB :=
  if (1 <? count_where (λ _ p, active_of companionId p) (db_assetPacks d))%nat then None else Some d.
Definition supersede_others (companionId targetPackId : rowid) (supersededAt now : instant) : DB → DB :=
  update_packs (λ k p, active_of companionId p && (k != targetPackId)) now (λ p, p <| pk_status := PK_superseded |> <| pk_supersededAt := Some supersededAt |>).
Definition active_clash (a b : Companion) : bool := is_set (co_activeAssetPackId a) && (co_activeAssetPackId a == co_activeAssetPackId b).
Definition set_active (companionId targetPackId : rowid) (now : instant) : Tx DB Companion :=
  modify_or (λ d, m ← update_row active_clash companionId (λ c, c <| co_activeAssetPackId := Some targetPackId |> <| co_updatedAt := now |>) (db_companions d);
                  Some (d <| db_companions := m |>)) (P2002 "activeAssetPackId") ;;
  row ← gets (λ d, db_companions d !! companionId); require_some row P2025.

(** [activateVerifiedPackInTransaction] *)
Definition activateVerifiedPackInTransaction (companionId targetPackId : rowid) (allowedTargetStatuses : list PackStatus) (completedAt : option instant)
    (afterTargetActivated : Tx DB unit) (now : instant) : Tx DB Companion :=
  row ← gets (λ d, db_companions d !! companionId);
  current ← require_some row COMPANION_NOT_FOUND;
  trow ← gets (λ d, db_assetPacks d !! targetPackId);
  target ← require_some trow (NotFoundException "ASSET_PACK_NOT_FOUND");
  require (pk_companionId target == companionId) STATE_CHANGED ;;
  if pk_status target == PK_active then
    if co_activeAssetPackId current == Some targetPackId then mret current
    else modify (supersede_others companionId targetPackId now now) ;; set_active companionId targetPackId now
  else
    require (bool_decide (pk_status target ∈ allowedTargetStatuses)) STATE_CHANGED ;;
    let activatedAt := default now completedAt in
    modify (supersede_others companionId targetPackId activatedAt now) ;;
    claimed ← claim_pack targetPackId (λ p, (pk_companionId p == companionId) && (pk_status p == pk_status target)) now
      (λ p, p <| pk_status := PK_active |> <| pk_activatedAt := Some activatedAt |> <| pk_supersededAt := None |> <| pk_failureCode := None |>
              <| pk_completedAt := option_union completedAt (pk_completedAt p) |>);
    modify_or (one_active_index companionId) (P2002 one_active) ;;
    require claimed STATE_CHANGED ;;
    afterTargetActivated ;;
    set_active companionId targetPackId now.

(** [isActivePackUniqueConflict], [withActivePackUniqueRetry] *)
Definition isActivePackUniqueConflict (e : exc) : bool :=
  match e with P2002 target => (target == one_active) || (target == "companionId") | _ => false end.
Definition withActivePackUniqueRetry {A} (operation : Act CW A) : Act CW A :=
  act_catch operation (λ e,
    if isActivePackUniqueConflict e
    then act_catch operation (λ e', act_throw (if isActivePackUniqueConflict e' then STATE_CHANGED else e'))
    else act_throw e).
Definition activation (companionId targetPackId : rowid) (allowed : list PackStatus) (completedAt : option instant) (after : Tx DB unit) : Act CW Companion :=
  withActivePackUniqueRetry (now ← clock; pack_tx (activateVerifiedPackInTransaction companionId targetPackId allowed completedAt after now)).

Definition about_pack (userId companionId assetPackId : rowid) : list (string * json) :=
  about_companion userId companionId ++ [("assetPackId", JStr (lit assetPackId))].
(** [activateAssetPack] *)
Definition activateAssetPack (userId assetPackId : rowid) : Act CW (rowid * Companion) :=
  p ← requireOwnedPack userId assetPackId;
  let companionId := pk_companionId (op_pack p) in
  db_call (assertCompanionMutationAllowed userId companionId) ;;
  companion ← activation companionId assetPackId [PK_superseded] None (mret ());
  db_call (publishInvalidation userId "companion.asset_pack.activated" (about_pack userId companionId assetPackId)) ;;
  mret (companionId, companion).

(** ** Verification *)

Definition INTEGRITY_FAILED : exc := ErrorException "ASSET_INTEGRITY_FAILED".
Definition matches_file (f : AssetFile) (o : Digest) : bool :=
  (dg_sizeBytes o =? af_sizeBytes f) && (dg_mimeType o == Some (af_mimeType f)) && (dg_sha256 o == af_sha256 f).
(** The body of the loop over [started.files]. *)
Definition verify_file (objectPrefix : text) (kf : rowid * AssetFile) : Act CW unit :=
  let f := kf.2 in
  let stagingKey := stagingObjectKey objectPrefix kf.1 in
  found ← storage_call (inspectObjectSha256 sha256_hex stagingKey (af_sizeBytes f));
  staging ← act_require_some found (ErrorException "ASSET_PACK_FILE_MISSING");
  act_require (matches_file f staging) INTEGRITY_FAILED ;;
  etag ← act_require_some (dg_etag staging ≫= nonempty) (ErrorException "ASSET_STORAGE_SOURCE_ETAG_MISSING");
  storage_call (copyVerifiedObject stagingKey (af_objectKey f) etag (af_mimeType f) (af_sha256 f)) ;;
  published ← storage_call (inspectObjectSha256 sha256_hex (af_objectKey f) (af_sizeBytes f));
  act_require (match published with Some o => matches_file f o | None => false end) INTEGRITY_FAILED.

Inductive CompleteResult :=
  | CR_already_active (assetPack : OwnedPack) (companion : Companion)
  | CR_completed (assetPack : PackView) (companion : Companion).
(** [completeEnvelopeForActivePack] *)
Definition completeEnvelopeForActivePack (p : OwnedPack) : Act CW CompleteResult :=
  row ← pack_query (λ d, db_companions d !! pk_companionId (op_pack p));
  companion ← act_require_some row P2025;
  mret (CR_already_active p companion).

Definition mark_verified (assetPackId : rowid) (now : instant) : Tx DB unit :=
  modify (λ d, d <| db_assetFiles := update_many (λ _ f, af_assetPackId f == assetPackId)
    (λ f, f <| af_uploaded := true |> <| af_verifiedAt := Some now |>) (db_assetFiles d) |>).
(** The [try] block of [completeAssetPack]. *)
Definition publish_pack (userId assetPackId : rowid) (started : OwnedPack) : Act CW CompleteResult :=
  let p := op_pack started in
  act_for (op_files started) (verify_file (pk_objectPrefix p)) ;;
  validated ← lift_result (validate (pk_manifest p) (pk_manifestHash p));
  storage_call (putManifest (manifestKey (pk_objectPrefix p)) (vm_canonicalJson validated)) ;;
  completedAt ← clock;
  result ← activation (pk_companionId p) assetPackId [PK_verifying] (Some completedAt) (mark_verified assetPackId completedAt);
  db_call (publishInvalidation userId "companion.asset_pack.activated" (about_pack userId (pk_companionId p) assetPackId)) ;;
  row ← pack_query (λ d, db_assetPacks d !! assetPackId);
  latest ← act_require_some row P2025;
  mret (CR_completed (pack (assetPackId, latest)) result).
(** The [catch] block. *)
Definition publish_failed (assetPackId : rowid) (error : exc) : Act CW CompleteResult :=
  match error with
  | ServiceUnavailableException _ | ConflictException _ => act_throw error
  | _ =>
      now ← clock;
      if error == INTEGRITY_FAILED then
        pack_tx (claim_pack assetPackId (λ p, pk_status p == PK_verifying) now
          (λ p, p <| pk_status := PK_failed |> <| pk_failureCode := Some "ASSET_INTEGRITY_FAILED" |>)) ;;
        act_throw (BadRequestException "ASSET_INTEGRITY_FAILED")
      else
        pack_tx (claim_pack assetPackId (λ p, pk_status p == PK_verifying) now (λ p, p <| pk_failureCode := Some "ASSET_VERIFICATION_RETRYABLE" |>)) ;;
        act_throw (ServiceUnavailableException "ASSET_VERIFICATION_RETRYABLE")
  end.

Definition verify_started (userId assetPackId : rowid) : Act CW CompleteResult :=
  started ← requireOwnedPack userId assetPackId;
  if pk_status (op_pack started) == PK_active then completeEnvelopeForActivePack started
  else
    act_require (pk_status (op_pack started) == PK_verifying) NOT_UPLOADABLE ;;
    act_catch (publish_pack userId assetPackId started) (publish_failed assetPackId).
(** [completeAssetPack] *)
Definition completeAssetPack (userId assetPackId : rowid) : Act CW CompleteResult :=
  ownedPack ← requireOwnedPack userId assetPackId;
  if pk_status (op_pack ownedPack) == PK_active then completeEnvelopeForActivePack ownedPack
  else
    db_call (assertCompanionMutationAllowed userId (pk_companionId (op_pack ownedPack))) ;;
    requireStorage ;;
    act_require (bool_decide (pk_status (op_pack ownedPack) ∈ [PK_uploading; PK_verifying])) NOT_UPLOADABLE ;;
    now ← clock;
    act_require (negb (session_expired (op_pack ownedPack) now)) SESSION_EXPIRED ;;
    if pk_status (op_pack ownedPack) == PK_uploading then
      now' ← clock;
      claimed ← pack_tx (claim_pack assetPackId (λ p, pk_status p == PK_uploading) now' (λ p, p <| pk_status := PK_verifying |> <| pk_failureCode := None |>));
      if claimed : bool then verify_started userId assetPackId
      else
        latest ← requireOwnedPack userId assetPackId;
        if pk_status (op_pack latest) == PK_active then completeEnvelopeForActivePack latest
        else act_require (pk_status (op_pack latest) == PK_verifying) STATE_CHANGED ;; verify_started userId assetPackId
    else verify_started userId assetPackId.

(** ** Deletion and downloads *)

(** The objects of a pack, gone and seen to be gone. *)
Definition delete_objects_of (objectPrefix : text) (files : list (rowid * AssetFile)) : Act CW unit :=
  storage_call (deleteObjects (objectKeysForDeletion objectPrefix files)) ;;
  storage_call (assertObjectPrefixDeleted objectPrefix).
Definition cleanup_failed (assetPackId : rowid) (st : PackStatus) : Act CW unit :=
  now ← clock;
  pack_tx (claim_pack assetPackId (λ p, pk_status p == st) now (λ p, p <| pk_failureCode := Some "ASSET_CLEANUP_FAILED" |>)) ;; mret ().

(** [deleteAssetPack] *)
Definition deleteAssetPack (userId assetPackId : rowid) : Act CW unit :=
  owned ← requireOwnedPack userId assetPackId;
  let p := op_pack owned in
  act_require (bool_decide (pk_status p ∈ [PK_draft; PK_failed; PK_abandoned])) NOT_UPLOADABLE ;;
  requireStorage ;;
  now ← clock;
  assertUploadUrlsExpired (pk_lastUploadUrlIssuedAt p) now ;;
  claimed ← pack_tx (mine ← gets (λ d, match owned_pack assetPackId d with Some q => co_ownerUserId (op_companion q) == userId | None => false end);
                     claim_pack assetPackId (λ r, (pk_status r == pk_status p) && mine) now (λ r, r <| pk_status := PK_deleting |> <| pk_failureCode := None |>));
  act_require claimed STATE_CHANGED ;;
  files ← pack_query (pack_files assetPackId);
  act_catch (delete_objects_of (pk_objectPrefix p) files) (λ e, cleanup_failed assetPackId PK_deleting ;; act_throw e) ;;
  pack_tx (modify (λ d, match db_assetPacks d !! assetPackId with
                        | Some r => if pk_status r == PK_deleting then delete_pack assetPackId d else d | None => d end)).

(** [getManifest] *)
Definition getManifest (userId assetPackId : rowid) : Act CW (json * list FileView) :=
  p ← requireDownloadablePack userId assetPackId;
  mret (pk_manifest (op_pack p), file_view <$> op_files p).

(** [createDownloadUrls] *)
Definition createDownloadUrls (userId assetPackId : rowid) (fileIds : list rowid) : Act CW (list (FileView * (text * instant))) :=
  requireStorage ;;
  requireDownloadablePack userId assetPackId ;;
  act_require (file_ids_valid fileIds) (BadRequestException "ASSET_PACK_FILE_INVALID") ;;
  files ← pack_query (files_of assetPackId fileIds);
  act_require (bool_decide (length files = length fileIds)) companionNotAvailable ;;
  act_map files (λ kf,
    now ← clock;
    signed ← storage_call (createGetUrl sign_get downloadUrlTtlSeconds (af_objectKey kf.2) now);
    mret (file_view kf, signed)).

(** ** The cleanup phases *)

Definition oldest_first (a b : rowid * AssetPack) : bool :=
  (pk_updatedAt a.2 <? pk_updatedAt b.2) || ((pk_updatedAt a.2 =? pk_updatedAt b.2) && String.leb a.1 b.1).
(** [findMany({ take, where, orderBy, include: { files } })] *)
Definition packs_to_clean (limit : nat) (p : rowid → AssetPack → bool) (d : DB) : list ((rowid * AssetPack) * list (rowid * AssetFile)) :=
  (λ kp, (kp, pack_files kp.1 d)) <$> take limit (find_many_by p oldest_first (db_assetPacks d)).
Definition uploadsEnabled : Act CW bool := act_gets (λ w, sc_uploadsEnabled (sg_capability (cw_storage w))).
(** [try { delete } catch { mark; refresh }]: whether the objects are gone *)
Definition try_delete (deletion mark : Act CW unit) : Act CW bool :=
  act_catch (deletion ;; mret true) (λ _, mark ;; storage_call refreshCapability ;; mret false).

(** A cleanup loop: it stops when uploads are switched off, and counts the
    packs it is done with. *)
Fixpoint clean_loop {A} (clean : A → Act CW bool) (packs : list A) (count : Z) : Act CW Z :=
  match packs with
  | [] => mret count
  | p :: packs' =>
      enabled ← uploadsEnabled;
      if enabled : bool then done ← clean p; clean_loop clean packs' (if done : bool then count + 1 else count)
      else mret count
  end.

(** [abandonExpiredUploads] *)
Definition upload_expired (before_ : instant) (p : AssetPack) : bool :=
  ((pk_status p == PK_uploading) && (pk_createdAt p <? before_)) || ((pk_status p == PK_verifying) && (pk_updatedAt p <? before_)).
Definition abandon (started before_ : instant) (e : (rowid * AssetPack) * list (rowid * AssetFile)) : Act CW bool :=
  let '((k, p), files) := e in
  claimed ← (if pk_status p == PK_abandoning then mret true
             else now ← clock; pack_tx (claim_pack k (λ r, upload_expired before_ r && uploadUrlsExpiredWhere started r) now
                                          (λ r, r <| pk_status := PK_abandoning |> <| pk_failureCode := None |>)));
  if negb claimed then mret false
  else
    deleted ← try_delete (delete_objects_of (pk_objectPrefix p) files) (cleanup_failed k PK_abandoning);
    if negb deleted then mret false
    else
      now ← clock;
      pack_tx (found ← claim_pack k (λ _, true) now (λ r, r <| pk_status := PK_abandoned |>); require found P2025) ;; mret true.
Definition abandonExpiredUploads (limit : nat) : Act CW Z :=
  started ← clock;
  let before_ := started - sl_uploadSessionTtlHours limits * 3600000 in
  packs ← pack_query (packs_to_clean limit (λ _ p, (upload_expired before_ p || (pk_status p == PK_abandoning)) && uploadUrlsExpiredWhere started p));
  clean_loop (abandon started before_) packs 0.

(** [cleanupActivePackStaging] *)
Definition staging_fence (now : instant) (p : AssetPack) : bool :=
  (pk_status p == PK_active) && negb (is_set (pk_stagingCleanedAt p)) && before (pk_activatedAt p) (activeStagingCleanupBefore now)
  && uploadUrlsExpiredWhere now p
  && (negb (is_set (pk_failureCode p)) || (pk_failureCode p == Some "ASSET_STAGING_CLEANUP_RETRYABLE")
      || ((pk_failureCode p == Some "ASSET_STAGING_CLEANUP_RUNNING") && (pk_updatedAt p <? uploadUrlExpiredBefore now))).
Definition staging_claimed (p : AssetPack) : bool :=
  (pk_status p == PK_active) && negb (is_set (pk_stagingCleanedAt p)) && (pk_failureCode p == Some "ASSET_STAGING_CLEANUP_RUNNING").
Definition clean_staging (started : instant) (kp : rowid * AssetPack) : Act CW bool :=
  let '(k, p) := kp in
  now ← clock;
  claimed ← pack_tx (claim_pack k (staging_fence started) now (λ r, r <| pk_failureCode := Some "ASSET_STAGING_CLEANUP_RUNNING" |>));
  if negb claimed then mret false
  else
    deleted ← try_delete (storage_call (deleteObjectPrefix fuel (pk_objectPrefix p ++ lit "/staging")))
      (now ← clock; pack_tx (claim_pack k staging_claimed now (λ r, r <| pk_failureCode := Some "ASSET_STAGING_CLEANUP_RETRYABLE" |>)) ;; mret ());
    if negb deleted then mret false
    else
      now ← clock;
      pack_tx (claim_pack k staging_claimed now (λ r, r <| pk_stagingCleanedAt := Some now |> <| pk_failureCode := None |>)).
Definition cleanupActivePackStaging (limit : nat) : Act CW Z :=
  started ← clock;
  packs ← pack_query (packs_to_clean limit (λ _ p, staging_fence started p));
  clean_loop (clean_staging started) packs.*1 0.

(** [cleanupSupersededPacks] *)
Definition noLiveVisit (assetPackId : rowid) (d : DB) : bool :=
  negb (exists_where (λ _ i, (inv_status i == I_pending) && (inv_assetPackRefId i == Some assetPackId)) (db_invitations d))
  && negb (exists_where (λ _ s, live (ses_state s) && (ses_assetPackRefId s == Some assetPackId)) (db_sessions d)).
Definition retired (before_ : instant) (k : rowid) (p : AssetPack) (d : DB) : bool :=
  (pk_status p == PK_superseded) && before (pk_supersededAt p) before_ && noLiveVisit k d.
Definition remove_superseded (started before_ : instant) (e : (rowid * AssetPack) * list (rowid * AssetFile)) : Act CW bool :=
  let '((k, p), files) := e in
  claimed ← (if pk_status p == PK_deleting then mret true
             else now ← clock; pack_tx (free ← gets (noLiveVisit k);
                    claim_pack k (λ r, (pk_status r == PK_superseded) && before (pk_supersededAt r) before_ && free && uploadUrlsExpiredWhere started r) now
                      (λ r, r <| pk_status := PK_deleting |> <| pk_failureCode := None |>)));
  if negb claimed then mret false
  else
    deleted ← try_delete (delete_objects_of (pk_objectPrefix p) files) (cleanup_failed k PK_deleting);
    if negb deleted then mret false
    else pack_tx (row ← gets (λ d, db_assetPacks d !! k); require_some row P2025 ;; modify (delete_pack k)) ;; mret true.
Definition cleanupSupersededPacks (limit : nat) : Act CW Z :=
  started ← clock;
  let before_ := started - sl_supersededPackRetentionDays limits * 24 * 3600000 in
  packs ← pack_query (λ d, packs_to_clean limit (λ k p, (retired before_ k p d || (pk_status p == PK_deleting)) && uploadUrlsExpiredWhere started p) d);
  clean_loop (remove_superseded started before_) packs 0.

(** [CompanionCleanupService.run]: one pass; a phase that throws does not keep
    the next from running. *)
Definition cleanup_pass : Act CW unit :=
  let phase m := act_catch (m ;; mret ()) (λ _, mret ()) in
  phase (abandonExpiredUploads 100) ;; phase (cleanupActivePackStaging 100) ;; phase (cleanupSupersededPacks 100).
End pack.
