(* ===== verification/AssetPackInv.v ===== *)
(** * What every pack request keeps

    The invariant of the pack tables: the active pack of a companion is the one
    it points to, and nobody's packs exceed the storage quota.  It is kept by
    every request and cleanup phase, whatever other requests that keep it do
    while one of them awaits. *)

From S2P Require Import Prelude Tables JsText Json Schema Interfaces Config AssetManifest Storage Visit Companion AssetPack.
Local Open Scope Z_scope.

Definition is_active (p : AssetPack) : Prop := pk_status p = PK_active.
Definition counted (p : AssetPack) : Prop := pk_status p ∈ COUNTED.

Record PackInv (maxUserStorageBytes : Z) (d : DB) : Prop := {
  pi_pointer c co p : db_companions d !! c = Some co → co_activeAssetPackId co = Some p →
    ∃ r, db_assetPacks d !! p = Some r ∧ pk_companionId r = c ∧ is_active r;
  pi_active p r : db_assetPacks d !! p = Some r → is_active r →
    ∃ co, db_companions d !! pk_companionId r = Some co ∧ co_activeAssetPackId co = Some p;
  pi_companion p r : db_assetPacks d !! p = Some r → is_Some (db_companions d !! pk_companionId r);
  pi_bytes p r : db_assetPacks d !! p = Some r → 0 ≤ pk_totalBytes r;
  pi_quota u : usage u d ≤ maxUserStorageBytes;
}.

(** A change of a row that does not concern the invariant. *)
Definition tame (r r' : AssetPack) : Prop :=
  pk_companionId r' = pk_companionId r ∧ pk_totalBytes r' = pk_totalBytes r ∧ (is_active r' ↔ is_active r) ∧ (counted r' → counted r).
#[export] Instance tame_refl : Reflexive tame.
Proof. by intros r. Qed.

Section invariant.
Context {max : Z}.
Abbreviation Inv := (PackInv max).

Lemma usage_le u d d' :
  (∀ k r', db_assetPacks d' !! k = Some r' → counts_for u d' r' = true →
     ∃ r, db_assetPacks d !! k = Some r ∧ counts_for u d r = true ∧ pk_totalBytes r' = pk_totalBytes r) →
  (∀ k r, db_assetPacks d !! k = Some r → 0 ≤ pk_totalBytes r) → usage u d' ≤ usage u d.
Proof.
  intros Hsub Hpos. apply sum_map_le.
  - intros k r' Hk. destruct (counts_for u d' r') eqn:E.
    + destruct (Hsub k r' Hk E) as (r & -> & -> & ->). lia.
    + destruct (db_assetPacks d !! k) as [r|] eqn:Hr; [|done]. case_match; [by apply (Hpos k)|done].
  - intros k r Hk. case_match; [by apply (Hpos k)|lia].
Qed.

Lemma counts_for_spec u d r : counts_for u d r = true ↔
  counted r ∧ ∃ c, db_companions d !! pk_companionId r = Some c ∧ co_ownerUserId c = u.
Proof.
  unfold counts_for, counted. rewrite andb_true_iff, bool_decide_eq_true.
  destruct (db_companions d !! _) as [c|]; [rewrite bool_decide_eq_true|]; naive_solver.
Qed.

Lemma PackInv_tame d d' :
  Inv d → db_companions d' = db_companions d →
  (∀ k r', db_assetPacks d' !! k = Some r' → ∃ r, db_assetPacks d !! k = Some r ∧ tame r r') →
  (∀ k r, db_assetPacks d !! k = Some r → is_active r → is_Some (db_assetPacks d' !! k)) →
  Inv d'.
Proof.
  intros [Hptr Hact Hcomp Hbytes Hq] Hc Hrows Hkept. split; rewrite ?Hc.
  - intros c co p Hco Hp. destruct (Hptr _ _ _ Hco Hp) as (r & Hr & Hrc & Ha).
    destruct (Hkept _ _ Hr Ha) as [r' Hr']. destruct (Hrows _ _ Hr') as (r0 & Hr0 & T1 & T2 & T3 & T4). simplify_eq.
    exists r'. split_and!; [done|congruence|by apply T3].
  - intros p r' Hr' Ha. destruct (Hrows _ _ Hr') as (r & Hr & T1 & T2 & T3 & T4). rewrite T1. apply Hact; [done|by apply T3].
  - intros p r' Hr'. destruct (Hrows _ _ Hr') as (r & Hr & T1 & _). rewrite T1. eauto.
  - intros p r' Hr'. destruct (Hrows _ _ Hr') as (r & Hr & _ & T2 & _). rewrite T2. eauto.
  - intros u. etrans; [|apply (Hq u)]. apply usage_le; [|done]. intros k r' Hr' (Hcnt & c & Hcc & Ho)%counts_for_spec.
    destruct (Hrows _ _ Hr') as (r & Hr & T1 & T2 & T3 & T4). exists r. split_and!; [done| |done].
    apply counts_for_spec. split; [by apply T4|]. exists c. by rewrite Hc, T1 in Hcc.
Qed.
Lemma PackInv_frame d d' : Inv d → db_companions d' = db_companions d → db_assetPacks d' = db_assetPacks d → Inv d'.
Proof. intros Hinv Hc Hp. apply (PackInv_tame d); [done|done|rewrite Hp; intros k r Hk; by exists r|rewrite Hp; by eauto]. Qed.

Lemma update_packs_tame d p now f :
  Inv d → (∀ k r, p k r = true → tame r (f r)) → Inv (update_packs p now f d).
Proof.
  intros Hinv Ht. apply (PackInv_tame d); [done|done| |].
  - intros k r' Hk. apply lookup_update_many_Some in Hk as (r & Hr & ->). exists r. split; [done|].
    destruct (p k r) eqn:E; [by destruct (Ht k r E) as (? & ? & ? & ?)|done].
  - intros k r Hk _. simpl. rewrite lookup_update_many, Hk. by eexists.
Qed.
Lemma claim_pack_inv k p now f d b d' :
  Inv d → (∀ r, p r = true → tame r (f r)) → claim_pack k p now f d = Ok (b, d') → Inv d'.
Proof.
  intros Hinv Ht Hrun. unfold claim_pack in Hrun. step_inv. apply update_packs_tame; [done|].
  intros k' r [_ Hp]%andb_true_iff. by apply Ht.
Qed.

Lemma delete_pack_inv k d : Inv d → Inv (delete_pack k d).
Proof.
  intros [Hptr Hact Hcomp Hbytes Hq]. unfold delete_pack. split; cbn.
  - intros c co p Hco Hp. apply lookup_update_many_Some in Hco as (c0 & Hc0 & ->).
    destruct (co_activeAssetPackId c0 == Some k) eqn:E; [done|]. bool_inv.
    destruct (Hptr _ _ _ Hc0 Hp) as (r & Hr & ? & ?). exists r. rewrite lookup_delete_ne; [done|]. congruence.
  - intros p r [Hne Hr]%lookup_delete_Some Ha. destruct (Hact _ _ Hr Ha) as (co & Hco & Hp).
    rewrite lookup_update_many, Hco. simpl. exists co. split; [|done].
    rewrite bool_decide_eq_false_2; [done|]. congruence.
  - intros p r [Hne Hr]%lookup_delete_Some. rewrite lookup_update_many, fmap_is_Some. eauto.
  - intros p r [Hne Hr]%lookup_delete_Some. eauto.
  - intros u. etrans; [|apply (Hq u)]. apply usage_le; [|done]. cbn.
    intros p r [Hne Hr]%lookup_delete_Some (Hcnt & c & Hc & Ho)%counts_for_spec. exists r. split_and!; [done| |done].
    cbn in Hc. apply lookup_update_many_Some in Hc as (c0 & Hc0 & ->).
    apply counts_for_spec. split; [done|]. exists c0. split; [done|]. rewrite <- Ho. by case_match.
Qed.

(** ** Declaring a pack *)

Lemma create_pack_inv k r u d x d' :
  Inv d → (∃ c, db_companions d !! pk_companionId r = Some c ∧ co_ownerUserId c = u) → ¬ is_active r → 0 ≤ pk_totalBytes r →
  usage u d + pk_totalBytes r ≤ max → create_pack k r d = Ok (x, d') → Inv d' ∧ db_companions d' = db_companions d.
Proof.
  intros [Hptr Hact Hcomp Hbytes Hq] (c & Hc & Ho) Hna Hpos Hroom Hrun. unfold create_pack in Hrun. step_inv. option_inv.
  match goal with H : create_row _ _ _ _ = Some _ |- _ => apply create_row_Some in H as (Hk & _ & ->) end. simplify_eq.
  split; [|done]. split; cbn.
  - intros c' co p Hco Hp. destruct (Hptr _ _ _ Hco Hp) as (r' & Hr' & ? & ?). exists r'. rewrite lookup_insert_ne; [done|]. congruence.
  - intros p r' [[<- <-]|[Hne Hr']]%lookup_insert_Some Ha; [done|]. eauto.
  - intros p r' [[<- <-]|[Hne Hr']]%lookup_insert_Some; [by exists c|]. eauto.
  - intros p r' [[<- <-]|[Hne Hr']]%lookup_insert_Some; [done|]. eauto.
  - intros u'. unfold usage, counts_for. cbn. rewrite sum_map_insert by done. fold (counts_for u' d). fold (usage u' d).
    change (sum_map _ (db_assetPacks d)) with (usage u' d). specialize (Hq u'). case_match; [|lia].
    assert (u' = co_ownerUserId c) as -> by (bool_inv; rewrite Hc in *; by bool_inv). lia.
Qed.

Lemma create_files_frame files d u d' : tx_for files create_file d = Ok (u, d') → db_companions d' = db_companions d ∧ db_assetPacks d' = db_assetPacks d.
Proof.
  intros Hrun. assert (frame_on (λ d, (db_companions d, db_assetPacks d)) (tx_for files create_file)) as Hf by (unfold create_file; frame).
  apply Hf in Hrun. by simplify_eq.
Qed.
End invariant.

Section requests.
Context {Hscan : ScanOrder} {B : Type} `{!ObjectStore B}.
Variable others : nat → CWorld B → CWorld B.
Variable toLowerCase : text → text.
Variable sha256_hex : text → text.
Variable localeCompare_le : text → text → bool.
Variable limits : StorageLimits.
Abbreviation Inv := (PackInv (sl_maxUserStorageBytes limits)).
Abbreviation CW := (CWorld B).

Lemma resume_pack_inv k p now d a d' : Inv d → resume_pack limits k p now d = Ok (a, d') → Inv d'.
Proof.
  intros Hinv Hrun. unfold resume_pack in Hrun. step_inv; [|done].
  eapply claim_pack_inv; [done| |done]. intros r Hr. cbn in Hr. bool_inv.
  unfold tame, is_active, counted, COUNTED. cbn. rewrite Hr. split_and!; [done|done|done|intros; by right; left].
Qed.

Lemma validate_bytes manifest hash v : validate toLowerCase sha256_hex localeCompare_le limits manifest hash = Ok v → 0 ≤ vm_totalBytes v.
Proof. apply validateManifest_bytes. Qed.

Lemma initiate_tx_inv userId companionId hash v newId fileId now d a d' :
  0 ≤ vm_totalBytes v → Inv d → initiate_tx limits userId companionId hash v newId fileId now d = Ok (a, d') → Inv d'.
Proof.
  intros Hpos Hinv Hrun. unfold initiate_tx, lockActiveAccountForAssetMutation in Hrun. step_inv.
  - destruct (pk_status a0) eqn:Est; step_inv; try done; by eapply resume_pack_inv.
  - unfold declare_pack in *. step_inv. bool_inv.
    match goal with H : create_pack _ _ _ = _ |- _ => eapply create_pack_inv in H as [Hi Hc]; [|done|by eexists|done|done|done] end.
    match goal with H : tx_for _ _ _ = _ |- _ => apply create_files_frame in H as [Hcs Hps] end. by eapply PackInv_frame.
Qed.

(** ** Activation *)

(** What activation does to the rows: the target becomes active, the pack that
    was is superseded, and the companion points to the target. *)
Definition activated (companionId targetPackId : rowid) (d d' : DB) : Prop :=
  (∃ c, db_companions d !! companionId = Some c
     ∧ ∃ c', db_companions d' = <[companionId := c']> (db_companions d) ∧ co_ownerUserId c' = co_ownerUserId c ∧ co_activeAssetPackId c' = Some targetPackId)
  ∧ ∀ k r', db_assetPacks d' !! k = Some r' → ∃ r, db_assetPacks d !! k = Some r
      ∧ pk_companionId r' = pk_companionId r ∧ pk_totalBytes r' = pk_totalBytes r
      ∧ (if decide (k = targetPackId) then pk_companionId r = companionId ∧ is_active r' ∧ counted r
         else if decide (is_active r ∧ pk_companionId r = companionId) then pk_status r' = PK_superseded else pk_status r' = pk_status r).

Lemma activated_inv c t d d' : Inv d → is_Some (db_assetPacks d' !! t) →
  (∀ k, is_Some (db_assetPacks d !! k) → is_Some (db_assetPacks d' !! k)) → activated c t d d' → Inv d'.
Proof.
  intros [Hptr Hact Hcomp Hbytes Hq] [rt Ht] Hkept [(c0 & Hc0 & c' & Hc' & Ho & Hp') Hrows]. split; rewrite ?Hc'.
  - intros c1 co p [[<- <-]|[Hne Hco]]%lookup_insert_Some Hp.
    + assert (p = t) as -> by congruence. exists rt. destruct (Hrows _ _ Ht) as (r & _ & Hcc & _ & Hst).
      rewrite decide_True in Hst by done. split_and!; [done|naive_solver congruence|naive_solver].
    + destruct (Hptr _ _ _ Hco Hp) as (r & Hr & Hrc & Ha). destruct (Hkept p) as [r' Hr']; [by eexists|].
      destruct (Hrows _ _ Hr') as (r0 & Hr0 & Hcc & _ & Hst). simplify_eq. exists r'. split_and!; [done|congruence|].
      destruct (decide (p = t)); [naive_solver|]. rewrite decide_False in Hst by naive_solver. unfold is_active in *. congruence.
  - intros k r' Hr' Ha. destruct (Hrows _ _ Hr') as (r & Hr & Hcc & _ & Hst). rewrite Hcc.
    destruct (decide (k = t)) as [->|]; [destruct Hst as (-> & _); exists c'; by rewrite lookup_insert_eq|].
    destruct (decide (is_active r ∧ pk_companionId r = c)); [unfold is_active in *; congruence|].
    assert (is_active r) as Hra by (unfold is_active in *; congruence).
    rewrite lookup_insert_ne by naive_solver. by apply Hact.
  - intros k r' Hr'. destruct (Hrows _ _ Hr') as (r & Hr & -> & _). rewrite lookup_insert_is_Some'. right. eauto.
  - intros k r' Hr'. destruct (Hrows _ _ Hr') as (r & Hr & _ & -> & _). eauto.
  - intros u. etrans; [|apply (Hq u)]. apply usage_le; [|done]. intros k r' Hr' (Hcnt & c1 & Hc1 & Hu)%counts_for_spec.
    destruct (Hrows _ _ Hr') as (r & Hr & Hcc & Hb & Hst). exists r. split_and!; [done| |done]. apply counts_for_spec.
    rewrite Hc', Hcc in Hc1. split.
    + unfold counted in *. destruct (decide (k = t)); [naive_solver|].
      destruct (decide (is_active r ∧ pk_companionId r = c)) as [[-> _]|]; [by right; right; left|by rewrite <- Hst].
    + apply lookup_insert_Some in Hc1 as [[<- <-]|[_ Hc1]]; [|by eauto]. exists c0. split; [done|congruence].
Qed.

Lemma set_active_ok c t now d a d' : set_active c t now d = Ok (a, d') →
  ∃ c0, db_companions d !! c = Some c0
    ∧ d' = d <| db_companions := <[c := c0 <| co_activeAssetPackId := Some t |> <| co_updatedAt := now |>]> (db_companions d) |>.
Proof.
  unfold set_active. intros Hrun. step_inv. option_inv.
  match goal with H : update_row _ _ _ _ = Some _ |- _ => apply update_row_Some in H as (c0 & Hc0 & -> & _) end. simplify_eq. eauto.
Qed.

Definition pack_tables (d : DB) := (db_companions d, db_assetPacks d).

Lemma activate_tx_inv c t allowed completedAt after now d a d' :
  Inv d → (∀ st, st ∈ allowed → st ∈ COUNTED) → frame_on pack_tables after →
  activateVerifiedPackInTransaction c t allowed completedAt after now d = Ok (a, d') → Inv d'.
Proof.
  intros Hinv Hallowed Hafter Hrun. unfold activateVerifiedPackInTransaction in Hrun. step_inv; bool_inv.
  - done.
  - (* an active pack that is not the one pointed to *)
    exfalso. match goal with H : db_assetPacks d !! t = Some _ |- _ => destruct (pi_active _ _ Hinv _ _ H) as (co & Hco & Hp); [done|] end. congruence.
  - match goal with H : db_assetPacks d !! t = Some ?r |- _ => rename H into Ht; rename r into target end.
    match goal with H : db_companions d !! _ = Some ?r |- _ => rename H into Hc; rename r into current end.
    match goal with H : claim_pack _ _ _ _ _ = Ok (?b, _) |- _ => unfold claim_pack in H end. step_inv.
    match goal with H : one_active_index _ _ = Some _ |- _ => unfold one_active_index in H; case_match; [done|]; injection H as <- end.
    match goal with H : after _ = Ok _ |- _ => apply Hafter in H; unfold pack_tables in H; injection H as Hfc Hfp end.
    match goal with H : set_active _ _ _ _ = Ok _ |- _ => apply set_active_ok in H as (c0 & Hc0 & ->) end.
    rewrite Hfc in Hc0. simplify_eq.
    apply (activated_inv (pk_companionId target) t d); cbn; rewrite ?Hfp.
    + done.
    + rewrite !lookup_update_many, Ht. by eexists.
    + intros k [r Hr]. rewrite !lookup_update_many, Hr. by eexists.
    + split; [exists current; split; [done|]; eexists; by rewrite Hfc|].
      intros k r' Hk. cbn in Hk. rewrite Hfp, !lookup_update_many in Hk. destruct (db_assetPacks d !! k) as [r|] eqn:Hr; [|done].
      injection Hk as <-. exists r. split; [done|]. unfold active_of, is_active, counted in *.
      repeat case_bool_decide; repeat case_decide; simplify_eq/=; naive_solver.
Qed.

End requests.

(** ** Requests *)

Section keeping.
Context {B : Type} `{!ObjectStore B}.
Variable P : DB → Prop.
Variable others : nat → CWorld B → CWorld B.
Abbreviation CW := (CWorld B).

(** A method after which a condition on the database holds that held before,
    whether it returned or threw. *)
Definition keeps {A} (m : Act CW A) : Prop := preserves (λ w, P (cw_db w)) m.

Lemma keeps_bind' {A C} (m : Act CW A) (f : A → Act CW C) :
  keeps m → (∀ a w w', P (cw_db w) → m w = (Ok a, w') → keeps (f a)) → keeps (m ≫= f).
Proof. apply preserves_bind'. Qed.
Lemma keeps_bind {A C} (m : Act CW A) (f : A → Act CW C) : keeps m → (∀ a, keeps (f a)) → keeps (m ≫= f).
Proof. apply preserves_bind. Qed.
Lemma keeps_require {C} b e (f : unit → Act CW C) : (b = true → keeps (f ())) → keeps (act_require b e ≫= f).
Proof. apply preserves_require. Qed.
Lemma keeps_pure {A} (m : Act CW A) : (∀ w, (m w).2 = w) → keeps m.
Proof. apply preserves_pure. Qed.
Lemma keeps_catch {A} (m : Act CW A) h : keeps m → (∀ e, keeps (h e)) → keeps (act_catch m h).
Proof. apply preserves_catch. Qed.
Lemma keeps_for {A} (l : list A) (f : A → Act CW unit) : (∀ x, keeps (f x)) → keeps (act_for l f).
Proof. apply preserves_for. Qed.
Lemma keeps_map {A C} (l : list A) (f : A → Act CW C) : (∀ x, keeps (f x)) → keeps (act_map l f).
Proof.
  intros Hf. induction l; simpl; [by apply keeps_pure|]. apply keeps_bind; [done|]. intros. apply keeps_bind; [done|]. intros. by apply keeps_pure.
Qed.

Lemma keeps_ret {A} (a : A) : keeps (mret a).
Proof. by apply keeps_pure. Qed.
Lemma keeps_throw {A} e : keeps (act_throw (A := A) e).
Proof. by apply keeps_pure. Qed.
Lemma keeps_clock : keeps clock.
Proof. by apply keeps_pure. Qed.
Lemma keeps_uploadsEnabled : keeps uploadsEnabled.
Proof. by apply keeps_pure. Qed.
Lemma keeps_requireStorage : keeps requireStorage.
Proof. apply keeps_pure. intros w. unfold requireStorage, act_require. by case_match. Qed.
Lemma keeps_require_only b e : keeps (act_require b e).
Proof. apply keeps_pure. intros w. unfold act_require. by case_match. Qed.
Lemma keeps_require_some {A} (o : option A) e : keeps (act_require_some o e).
Proof. apply keeps_pure. intros w. unfold act_require_some. by destruct o. Qed.
Lemma keeps_lift_result {A} (r : result A) : keeps (lift_result r).
Proof. by apply keeps_pure. Qed.

(** What other requests do during an await keeps the condition. *)
Context (others_keep : ∀ n w, P (cw_db w) → P (cw_db (others n w))).

Lemma keeps_await : keeps (await others).
Proof. intros w Hw. by apply others_keep. Qed.
Lemma keeps_db_call {A} (m : Act World A) : (∀ w, P (w_db w) → P (w_db (m w).2)) → keeps (db_call others m).
Proof.
  intros Hm. apply keeps_bind; [apply keeps_await|]. intros [] w Hw. unfold in_db.
  specialize (Hm (cw_world w) Hw). by destruct (m (cw_world w)).
Qed.
Lemma keeps_reads {A} (m : Act World A) : db_preserving m → keeps (db_call others m).
Proof. intros Hm. apply keeps_db_call. intros w Hw. by rewrite Hm. Qed.
Lemma keeps_query {A} (f : DB → A) : keeps (pack_query others f).
Proof. by apply keeps_reads. Qed.
Lemma keeps_tx {A} (body : Tx DB A) : (∀ d a d', P d → body d = Ok (a, d') → P d') → keeps (pack_tx others body).
Proof.
  intros Hb. apply keeps_db_call. intros w Hw. unfold transaction. destruct (body (w_db w)) as [[a d]|e] eqn:E; [|done]. simpl. by eapply Hb.
Qed.
Lemma keeps_storage {A} (m : Act (Storage B) A) : keeps (storage_call others m).
Proof.
  apply keeps_bind; [apply keeps_await|]. intros [] w Hw. unfold in_storage. by destruct (m (cw_storage w)).
Qed.
End keeping.

Create HintDb keeps.
#[export] Hint Resolve keeps_ret keeps_throw keeps_clock keeps_uploadsEnabled keeps_requireStorage keeps_require_only keeps_require_some keeps_lift_result
  keeps_query keeps_storage : keeps.
(** [keeps] proves [keeps] of a method from its steps; what is left are the
    transactions that write pack rows. *)
Ltac keeps :=
  repeat first
    [ solve [eauto 2 with keeps nocore]
    | match goal with |- keeps _ (act_require _ _ ≫= _) => apply keeps_require; intros end
    | match goal with |- keeps _ (_ ≫= _) => apply keeps_bind; [|intros] end
    | match goal with |- keeps _ (act_catch _ _) => apply keeps_catch; [|intros] end
    | match goal with |- keeps _ (act_for _ _) => apply keeps_for; intros end
    | match goal with |- keeps _ (act_map _ _) => apply keeps_map; intros end
    | match goal with |- keeps _ (match ?x with _ => _ end) => destruct x eqn:? end
    | match goal with |- keeps _ (let _ := _ in _) => cbv zeta end ].
(** A claim that leaves active packs alone. *)
Ltac tame_claim :=
  intros; cbv beta in *; bool_inv; unfold tame, is_active, counted, COUNTED in *; cbn;
  repeat match goal with H : pk_status _ = _ |- _ => rewrite H in * end;
  rewrite ?elem_of_cons, ?elem_of_nil in *; naive_solver.

Section served.
Context {Hscan : ScanOrder} {B : Type} `{!ObjectStore B}.
Context (others : nat → CWorld B → CWorld B) (toLowerCase sha256_hex : text → text) (localeCompare_le : text → text → bool).
Context (limits : StorageLimits) (ttl : Z) (sign_put : text → text → Z → instant → text) (sign_get : text → Z → instant → text) (fuel : nat).
Abbreviation Inv := (PackInv (sl_maxUserStorageBytes limits)).
Abbreviation CW := (CWorld B).
Context (others_keep : ∀ n w, Inv (cw_db w) → Inv (cw_db (others n w))).
Abbreviation keeps := (keeps Inv).

Lemma requireOwnedPack_keeps u k : keeps (requireOwnedPack others u k).
Proof. unfold requireOwnedPack. keeps. Qed.
Lemma requireDownloadablePack_keeps u k : keeps (requireDownloadablePack others u k).
Proof. unfold requireDownloadablePack. keeps. Qed.
#[local] Hint Resolve requireOwnedPack_keeps requireDownloadablePack_keeps : keeps.

Lemma initiateAssetPack_keeps u c dto newId fileId :
  keeps (initiateAssetPack others toLowerCase sha256_hex localeCompare_le limits u c dto newId fileId).
Proof.
  unfold initiateAssetPack. apply keeps_bind; [keeps|]. intros []. apply keeps_bind'; [keeps|]. intros v w w' _ Hv.
  assert (0 ≤ vm_totalBytes v) as Hpos by (unfold lift_result in Hv; eapply (validate_bytes toLowerCase sha256_hex localeCompare_le limits); by injection Hv).
  keeps. apply keeps_tx; [done|]. intros d r d' Hi Hrun. by eapply initiate_tx_inv.
Qed.
Lemma createUploadUrls_keeps u k ids : keeps (createUploadUrls others limits sign_put u k ids).
Proof.
  unfold createUploadUrls, assertUploadable. keeps. apply keeps_tx; [done|]. unfold issue_tx, lockActiveAccountForAssetMutation.
  intros d r d' Hi Hrun. step_inv. eapply claim_pack_inv; [done| |done]. tame_claim.
Qed.

Lemma activation_keeps c t allowed completedAt after :
  (∀ st, st ∈ allowed → st ∈ COUNTED) → frame_on pack_tables after → keeps (activation others c t allowed completedAt after).
Proof.
  intros Ha Hf. assert (keeps (now ← clock; pack_tx others (activateVerifiedPackInTransaction c t allowed completedAt after now))) as Hop.
  { keeps. apply keeps_tx; [done|]. intros d r d' Hi Hrun. by eapply activate_tx_inv. }
  unfold activation, withActivePackUniqueRetry. keeps; done.
Qed.
Lemma completeEnvelope_keeps p : keeps (completeEnvelopeForActivePack others p).
Proof. unfold completeEnvelopeForActivePack. keeps. Qed.
Lemma publishInvalidation_keeps u e p : keeps (db_call others (publishInvalidation u e p)).
Proof. apply keeps_reads; [done|apply publishInvalidation_reads]. Qed.
Lemma assertMutation_keeps u c : keeps (db_call others (assertCompanionMutationAllowed u c)).
Proof. apply keeps_reads; [done|unfold assertCompanionMutationAllowed; reads]. Qed.
#[local] Hint Resolve completeEnvelope_keeps publishInvalidation_keeps assertMutation_keeps : keeps.

Lemma verify_file_keeps prefix kf : keeps (verify_file others sha256_hex prefix kf).
Proof. unfold verify_file. keeps. Qed.
#[local] Hint Resolve verify_file_keeps : keeps.
Lemma activateAssetPack_keeps u k : keeps (activateAssetPack others u k).
Proof.
  unfold activateAssetPack. keeps. apply activation_keeps; [|apply frame_ret]. intros st [->|[]%not_elem_of_nil]%elem_of_cons. unfold COUNTED. set_solver.
Qed.
Lemma publish_pack_keeps u k started : keeps (publish_pack others toLowerCase sha256_hex localeCompare_le limits u k started).
Proof.
  unfold publish_pack. keeps. apply activation_keeps; [|unfold mark_verified; frame]. unfold COUNTED. set_solver.
Qed.
Lemma publish_failed_keeps k e : keeps (publish_failed others k e).
Proof.
  unfold publish_failed. keeps; (apply keeps_tx; [done|]; intros d r d' Hi Hrun; eapply claim_pack_inv; [done| |done]; tame_claim).
Qed.
#[local] Hint Resolve publish_pack_keeps publish_failed_keeps : keeps.
Lemma completeAssetPack_keeps u k : keeps (completeAssetPack others toLowerCase sha256_hex localeCompare_le limits u k).
Proof.
  unfold completeAssetPack, verify_started. keeps; (apply keeps_tx; [done|]; intros d r d' Hi Hrun; eapply claim_pack_inv; [done| |done]; tame_claim).
Qed.

Lemma cleanup_failed_keeps k st : keeps (cleanup_failed others k st).
Proof. unfold cleanup_failed. keeps. apply keeps_tx; [done|]. intros d r d' Hi Hrun. eapply claim_pack_inv; [done| |done]. by intros. Qed.
Lemma delete_objects_keeps prefix files : keeps (delete_objects_of others prefix files).
Proof. unfold delete_objects_of. keeps. Qed.
#[local] Hint Resolve cleanup_failed_keeps delete_objects_keeps : keeps.
Lemma deleteAssetPack_keeps u k : keeps (deleteAssetPack others limits u k).
Proof.
  unfold deleteAssetPack, assertUploadUrlsExpired. keeps; (apply keeps_tx; [done|]; intros d r d' Hi Hrun); step_inv; bool_inv.
  - eapply claim_pack_inv; [done| |done]. intros r0 [Hst _]%andb_true_iff. bool_inv.
    assert (pk_status r0 = PK_draft ∨ pk_status r0 = PK_failed ∨ pk_status r0 = PK_abandoned) as Hcases by (rewrite Hst; set_solver).
    unfold tame, is_active, counted. cbn. destruct Hcases as [->|[->| ->]]; split_and!; set_solver.
  - repeat case_match; try done; by apply delete_pack_inv.
Qed.
Lemma createDownloadUrls_keeps u k ids : keeps (createDownloadUrls others ttl sign_get u k ids).
Proof. unfold createDownloadUrls. keeps. Qed.

(** *** The cleanup phases *)

Lemma clean_loop_keeps {A} (clean : A → Act CW bool) l n : (∀ x, keeps (clean x)) → keeps (clean_loop clean l n).
Proof. intros Hc. revert n. induction l; intros n; simpl; keeps. Qed.
Lemma try_delete_keeps deletion mark : keeps deletion → keeps mark → keeps (try_delete others deletion mark).
Proof. intros. unfold try_delete. keeps. Qed.
Lemma cleanupActivePackStaging_keeps limit : keeps (cleanupActivePackStaging others limits fuel limit).
Proof.
  unfold cleanupActivePackStaging. keeps. apply clean_loop_keeps. intros [k p]. unfold clean_staging. keeps.
  2: apply try_delete_keeps; keeps.
  all: apply keeps_tx; [done|]; intros d r d' Hi Hrun; eapply claim_pack_inv; [done| |done]; by intros.
Qed.
Lemma cleanupSupersededPacks_keeps limit : keeps (cleanupSupersededPacks others limits limit).
Proof.
  unfold cleanupSupersededPacks. keeps. apply clean_loop_keeps. intros [[k p] files]. unfold remove_superseded. keeps.
  2: apply try_delete_keeps; keeps.
  all: apply keeps_tx; [done|]; intros d r d' Hi Hrun; step_inv.
  - eapply claim_pack_inv; [done| |done]. tame_claim.
  - by apply delete_pack_inv.
Qed.

(** *** Abandoned uploads

    [abandonExpiredUploads] marks a pack abandoned by its id alone: it relies on
    no second worker finishing, meanwhile, a pack that is being abandoned. *)

Definition abandoning (k : rowid) (d : DB) : Prop := ∃ r, db_assetPacks d !! k = Some r ∧ pk_status r = PK_abandoning.
Definition InvWith (K : list rowid) (d : DB) : Prop := Inv d ∧ ∀ k, k ∈ K → abandoning k d.
Context (others_leave : ∀ n w k, abandoning k (cw_db w) → abandoning k (cw_db (others n w))).

Lemma others_keep_with K n w : InvWith K (cw_db w) → InvWith K (cw_db (others n w)).
Proof. intros [Hi Hk]. split; [by apply others_keep|]. intros k Hin. by apply others_leave, Hk. Qed.

Lemma claim_with K k p now f d b d' :
  InvWith K d → (∀ r, p r = true → tame r (f r)) → (k ∈ K → ∀ r, p r = true → pk_status r = PK_abandoning → pk_status (f r) = PK_abandoning) →
  claim_pack k p now f d = Ok (b, d') → InvWith K d' ∧ (b = true → (∀ r, p r = true → pk_status (f r) = PK_abandoning) → abandoning k d').
Proof.
  intros [Hi Hk] Ht Hst Hrun. split; [split; [by eapply claim_pack_inv|]|]; unfold claim_pack in Hrun; step_inv.
  - intros k' Hin. destruct (Hk k' Hin) as (r & Hr & Hs). unfold abandoning. cbn. rewrite lookup_update_many, Hr. cbn. eexists. split; [done|].
    destruct ((k' == k) && p r) eqn:E; [|done]. bool_inv. subst. cbn. by apply Hst.
  - intros Hb Hf. destruct (db_assetPacks d !! k) as [r|] eqn:Hr; [|done].
    eexists. cbn. rewrite lookup_update_many, Hr. split; [done|]. rewrite bool_decide_eq_true_2, Hb by done. simpl. by apply Hf.
Qed.

Lemma with_less k K d : InvWith (k :: K) d → InvWith K d.
Proof. intros [Hi Hk]. split; [done|]. intros k' Hin. apply Hk. by right. Qed.
(** The last step, on a row that is still being abandoned. *)
Lemma finish_with K k now d b d' :
  k ∉ K → InvWith (k :: K) d →
  (found ← claim_pack k (λ _, true) now (λ r, r <| pk_status := PK_abandoned |>); require found P2025) d = Ok (b, d') → InvWith K d'.
Proof.
  intros Hn [Hi Hk] Hrun. unfold claim_pack in Hrun. step_inv. destruct (Hk k) as (r & Hr & Hst); [by left|]. split.
  - apply (PackInv_tame d); [done|done| |].
    + intros k' r' Hk'. cbn in Hk'. apply lookup_update_many_Some in Hk' as (r0 & Hr0 & ->). exists r0. split; [done|].
      rewrite andb_true_r. case_bool_decide; [|done]. simplify_eq. unfold tame, is_active, counted. cbn. rewrite Hst.
      split_and!; set_solver.
    + intros k' r' Hr' _. cbn. rewrite lookup_update_many, Hr'. by eexists.
  - intros k' Hin. destruct (Hk k') as (r' & Hr' & Hs); [by right|]. unfold abandoning. cbn. rewrite lookup_update_many, Hr'. simpl.
    rewrite bool_decide_eq_false_2; [by exists r'|]. intros ->. by apply Hn.
Qed.
Lemma pack_tx_run {A} (body : Tx DB A) w : ∃ w1, (w1 = (others (cw_awaits w) w) <| cw_awaits := S (cw_awaits w) |>)
  ∧ pack_tx others body w = match body (cw_db w1) with
      | Ok (a, d) => (Ok a, w1 <| cw_world := (cw_world w1) <| w_db := d |> |>) | Err e => (Err e, w1) end.
Proof.
  eexists. split; [done|]. unfold pack_tx, db_call, await, mbind, act_bind, act_modify, in_db, transaction. simpl.
  destruct (body _) as [[a d]|e]; [done|]. by destruct (others _ _) as [[] ? ? ?].
Qed.
Lemma pack_tx_then (P Q : DB → Prop) {A C} (body : Tx DB A) (x : C) w :
  (∀ n w, P (cw_db w) → P (cw_db (others n w))) → (∀ d, P d → Q d) → (∀ d a d', P d → body d = Ok (a, d') → Q d') →
  P (cw_db w) → Q (cw_db ((pack_tx others body ≫= λ _, mret x) w).2).
Proof.
  intros Hok Hpq Hb Hw. destruct (pack_tx_run body w) as (w1 & -> & E). specialize (Hok (cw_awaits w) w Hw).
  destruct (body _) as [[a d]|e] eqn:Eb in E.
  - rewrite (act_bind_run _ _ _ _ _ E). cbn. eapply Hb; [exact Hok|exact Eb].
  - rewrite (act_bind_throw _ _ _ _ _ E). cbn. by apply Hpq.
Qed.

Lemma claim_now_then K k p f (rest : bool → Act CW bool) w :
  k ∉ K → InvWith K (cw_db w) → (∀ r, p r = true → tame r (f r)) → (∀ r, p r = true → pk_status (f r) = PK_abandoning) →
  (∀ w1, InvWith (k :: K) (cw_db w1) → InvWith K (cw_db (rest true w1).2)) →
  (∀ w1, InvWith K (cw_db w1) → InvWith K (cw_db (rest false w1).2)) →
  InvWith K (cw_db (((now ← clock; pack_tx others (claim_pack k p now f)) ≫= rest) w).2).
Proof.
  intros Hk Hw Ht Hf Htrue Hfalse. destruct (pack_tx_run (claim_pack k p (cw_now w) f) w) as (w1 & -> & E).
  pose proof (others_keep_with K (cw_awaits w) w Hw) as H1.
  destruct (claim_pack _ _ _ _ _) as [[b d]|e] eqn:Eb in E.
  - rewrite (act_bind_run (now ← clock; pack_tx others (claim_pack k p now f)) rest w _ _ E).
    eapply claim_with in Eb as [Hd Hab]; [|exact H1|done|done].
    destruct b; [|by apply Hfalse]. apply Htrue. split; [apply Hd|]. intros k' [->|Hin]%elem_of_cons; [by apply Hab|by apply Hd].
  - rewrite (act_bind_throw (now ← clock; pack_tx others (claim_pack k p now f)) rest w _ _ E). exact H1.
Qed.

Lemma failed_with K k : AssetPackInv.keeps (InvWith K) (cleanup_failed others k PK_abandoning).
Proof.
  unfold cleanup_failed. keeps. apply keeps_tx; [apply others_keep_with|]. intros d b d' Hi Hrun.
  by eapply claim_with in Hrun as [? _].
Qed.
Lemma try_delete_with K prefix files k :
  AssetPackInv.keeps (InvWith K) (try_delete others (delete_objects_of others prefix files) (cleanup_failed others k PK_abandoning)).
Proof. pose proof (failed_with K k). pose proof (others_keep_with K) as Hok. unfold try_delete, delete_objects_of. keeps. Qed.

Lemma abandon_with K started before_ k p files w :
  k ∉ K → InvWith K (cw_db w) → (pk_status p = PK_abandoning → abandoning k (cw_db w)) →
  InvWith K (cw_db (abandon others limits started before_ ((k, p), files) w).2).
Proof.
  intros Hk Hw Hp. unfold abandon.
  set (rest := λ claimed : bool, if negb claimed then mret false else _).
  assert (∀ w1, InvWith (k :: K) (cw_db w1) → InvWith K (cw_db (rest true w1).2)) as Hrest.
  { intros w1 H1. unfold rest. cbn. pose proof (try_delete_with (k :: K) (pk_objectPrefix p) files k w1 H1) as H2.
    destruct (try_delete _ _ _ w1) as [[done_|e] w2] eqn:E; simpl in H2.
    2: { rewrite (act_bind_throw _ _ _ _ _ E). split; [apply H2|intros k' Hin; apply H2; by right]. }
    rewrite (act_bind_run _ _ _ _ _ E). destruct done_; simpl; [|split; [apply H2|intros k' Hin; apply H2; by right]].
    unfold clock; rewrite act_gets_run. apply (pack_tx_then (InvWith (k :: K))); [apply others_keep_with|intros d Hd; by eapply with_less|by intros ? ? ? Hd ?; eapply finish_with|done]. }
  destruct (pk_status p == PK_abandoning) eqn:Est; bool_inv.
  - rewrite (act_bind_run _ _ _ true w) by done. apply Hrest. split; [apply Hw|].
    intros k' [->|Hin]%elem_of_cons; [by apply Hp|by apply Hw].
  - apply claim_now_then; [done|done| | |done|done]; [|done].
    intros r [Hr _]%andb_true_iff. unfold upload_expired in Hr. unfold tame, is_active, counted. cbn.
    apply orb_true_iff in Hr as [Hr|Hr]; bool_inv; match goal with H : pk_status r = _ |- _ => rewrite H end; split_and!; set_solver.
Qed.

Definition listed_abandoning (l : list ((rowid * AssetPack) * list (rowid * AssetFile))) : list rowid :=
  omap (λ e, if pk_status e.1.2 == PK_abandoning then Some e.1.1 else None) l.
Lemma abandon_loop_keeps started before_ l n w :
  NoDup (fst ∘ fst <$> l) → InvWith (listed_abandoning l) (cw_db w) → Inv (cw_db (clean_loop (abandon others limits started before_) l n w).2).
Proof.
  revert n w. induction l as [|[[k p] files] l IH]; intros n w Hnd Hw; [apply Hw|].
  apply NoDup_cons in Hnd as [Hk Hnd]. cbn [clean_loop]. unfold uploadsEnabled. rewrite act_gets_run. case_match; [|apply Hw].
  assert (k ∉ listed_abandoning l) as Hk'.
  { intros (e & He & Hek)%list_elem_of_omap. apply Hk. apply list_elem_of_fmap. exists e. split; [|done]. simpl. by case_match; simplify_eq. }
  assert (InvWith (listed_abandoning l) (cw_db w)) as Hl.
  { split; [apply Hw|]. intros k' Hin. apply Hw. unfold listed_abandoning. simpl. case_match; [by right|done]. }
  pose proof (abandon_with (listed_abandoning l) started before_ k p files w Hk' Hl) as H1.
  destruct (abandon _ _ _ _ _ w) as [[b|e] w1] eqn:E in H1; simpl in H1.
  - rewrite (act_bind_run _ _ _ _ _ E). apply IH; [done|]. apply H1. intros Hst. apply Hw. unfold listed_abandoning. simpl.
    rewrite bool_decide_eq_true_2 by done. by left.
  - rewrite (act_bind_throw _ _ _ _ _ E). apply H1. intros Hst. apply Hw. unfold listed_abandoning. simpl.
    rewrite bool_decide_eq_true_2 by done. by left.
Qed.

Lemma packs_to_clean_spec limit p d :
  NoDup (fst ∘ fst <$> packs_to_clean limit p d) ∧
  ∀ e, e ∈ packs_to_clean limit p d → db_assetPacks d !! e.1.1 = Some e.1.2 ∧ p e.1.1 e.1.2 = true ∧ e.2 = pack_files e.1.1 d.
Proof.
  unfold packs_to_clean. set (l := find_many_by _ _ _).
  assert (∀ x, x ∈ take limit l → x ∈ l) as Htake by (intros x Hx; rewrite <- (take_drop limit l); apply elem_of_app; by left).
  split.
  - rewrite <- list_fmap_compose. change (NoDup (fst <$> take limit l)). rewrite fmap_take. apply (sublist_NoDup _ (fst <$> l)); [|apply sublist_take].
    unfold l, find_many_by. rewrite sort_by_perm. apply find_many_keys_NoDup.
  - intros e (x & -> & Hx%Htake)%list_elem_of_fmap. destruct x as [k r]. unfold l, find_many_by in Hx.
    apply elem_of_sort_by, elem_of_find_many in Hx as [? ?]. done.
Qed.
Lemma abandonExpiredUploads_keeps limit : keeps (abandonExpiredUploads others limits limit).
Proof.
  intros w Hw. unfold abandonExpiredUploads, clock. rewrite act_gets_run. unfold pack_query, db_call, await, in_db, query, act_gets, act_modify, mbind, act_bind. cbn.
  match goal with |- context [clean_loop _ ?l 0 ?w1] => set (packs := l); set (w' := w1) end.
  assert (cw_db w' = cw_db (others (cw_awaits w) w)) as Hdb by (unfold w'; by destruct (others _ _) as [[] ? ? ?]).
  destruct (packs_to_clean_spec limit (λ _ p, (upload_expired (cw_now w - sl_uploadSessionTtlHours limits * 3600000) p || (pk_status p == PK_abandoning))
    && uploadUrlsExpiredWhere limits (cw_now w) p) (cw_db w')) as [Hnd Hrows].
  apply abandon_loop_keeps; [unfold packs; by rewrite <- Hdb|]. split; [rewrite Hdb; by apply others_keep|].
  intros k (e & He & Hek)%list_elem_of_omap. case_match eqn:Hst; [|done]. injection Hek as <-. bool_inv.
  exists e.1.2. split; [|done]. apply Hrows. by rewrite Hdb.
Qed.

(** A client's request, or a cleanup phase. *)
Inductive PackRequest :=
  | PQ_initiate (companionId : rowid) (dto : InitiateAssetPackDto) (newId : rowid) (fileId : nat → rowid)
  | PQ_uploadUrls (assetPackId : rowid) (fileIds : list rowid)
  | PQ_complete (assetPackId : rowid)
  | PQ_activate (assetPackId : rowid)
  | PQ_delete (assetPackId : rowid)
  | PQ_list (companionId : rowid)
  | PQ_manifest (assetPackId : rowid)
  | PQ_downloadUrls (assetPackId : rowid) (fileIds : list rowid)
  | PQ_abandon (limit : nat)
  | PQ_cleanStaging (limit : nat)
  | PQ_cleanSuperseded (limit : nat).
Definition serve_pack (userId : rowid) (request : PackRequest) : Act CW unit :=
  match request with
  | PQ_initiate c dto newId fileId => initiateAssetPack others toLowerCase sha256_hex localeCompare_le limits userId c dto newId fileId ;; mret ()
  | PQ_uploadUrls k ids => createUploadUrls others limits sign_put userId k ids ;; mret ()
  | PQ_complete k => completeAssetPack others toLowerCase sha256_hex localeCompare_le limits userId k ;; mret ()
  | PQ_activate k => activateAssetPack others userId k ;; mret ()
  | PQ_delete k => deleteAssetPack others limits userId k
  | PQ_list c => getAssetPacks others userId c ;; mret ()
  | PQ_manifest k => getManifest others userId k ;; mret ()
  | PQ_downloadUrls k ids => createDownloadUrls others ttl sign_get userId k ids ;; mret ()
  | PQ_abandon n => abandonExpiredUploads others limits n ;; mret ()
  | PQ_cleanStaging n => cleanupActivePackStaging others limits fuel n ;; mret ()
  | PQ_cleanSuperseded n => cleanupSupersededPacks others limits n ;; mret ()
  end.

Lemma serve_pack_keeps userId request : keeps (serve_pack userId request).
Proof.
  destruct request; simpl;
    try (apply keeps_bind; [|intros; apply keeps_ret]);
    auto using initiateAssetPack_keeps, createUploadUrls_keeps, completeAssetPack_keeps, activateAssetPack_keeps, deleteAssetPack_keeps,
      createDownloadUrls_keeps, abandonExpiredUploads_keeps, cleanupActivePackStaging_keeps, cleanupSupersededPacks_keeps.
  - unfold getAssetPacks. keeps. apply keeps_reads; [done|]. unfold requireOwnedCompanion. reads.
  - unfold getManifest. keeps.
Qed.
End served.
