(* ===== verification/AssetPackPublish.v ===== *)
(** * What a published pack consists of

    [completeAssetPack] inspects each uploaded object, copies it to the address
    clients download from and inspects the copy.  The uploader may replace the
    staging objects at any moment, so the theorem is about the copies: it holds
    whatever happens during the awaits, provided nobody else changes the rows of
    the pack's files or spoils a published object once it is right. *)

From S2P Require Import Prelude Tables JsText Json Schema Interfaces Config AssetManifest Storage Visit Companion AssetPack AssetPackInv.
Local Open Scope Z_scope.

Section publish.
Context {Hscan : ScanOrder} {B : Type} `{!ObjectStore B} `{!ObjectStoreLaws B}.
Context (others : nat → CWorld B → CWorld B) (toLowerCase sha256_hex : text → text) (localeCompare_le : text → text → bool) (limits : StorageLimits).
Abbreviation CW := (CWorld B).

(** The object under the address of a file is the file the manifest declares. *)
Definition intact (b : B) (f : AssetFile) : Prop :=
  ∃ o, object_at b (af_objectKey f) = Some o ∧ so_mime o = Some (af_mimeType f) ∧ sha256_hex (so_body o) = af_sha256 f
    ∧ Z.of_nat (length (so_body o)) = af_sizeBytes f.
(** The columns that say so, which no update changes. *)
Definition same_columns (f g : AssetFile) : Prop :=
  af_objectKey f = af_objectKey g ∧ af_relativePath f = af_relativePath g ∧ af_mimeType f = af_mimeType g ∧ af_sizeBytes f = af_sizeBytes g
  ∧ af_sha256 f = af_sha256 g.
Definition file_of (k : rowid) (d : DB) (id : rowid) (f : AssetFile) : Prop := db_assetFiles d !! id = Some f ∧ af_assetPackId f = k.

(** What others leave alone: the file rows of the pack, its prefix, and its
    published objects once they are right. *)
Record undisturbed (k : rowid) (w w' : CW) : Prop := {
  ud_files id f' : file_of k (cw_db w') id f' → ∃ f, file_of k (cw_db w) id f ∧ same_columns f' f;
  ud_prefix p' : db_assetPacks (cw_db w') !! k = Some p' → ∃ p, db_assetPacks (cw_db w) !! k = Some p ∧ pk_objectPrefix p' = pk_objectPrefix p;
  ud_objects id f : file_of k (cw_db w') id f → intact (cw_bucket w) f → intact (cw_bucket w') f;
}.
(** How [initiateAssetPack] names the objects of a pack. *)
Definition keys_ok (k : rowid) (d : DB) : Prop :=
  (∀ i j f g, file_of k d i f → file_of k d j g → af_objectKey f = af_objectKey g → i = j)
  ∧ (∀ i f p, file_of k d i f → db_assetPacks d !! k = Some p → af_objectKey f = publishedKey (pk_objectPrefix p) (af_relativePath f)).

Lemma intact_columns b f g : same_columns f g → intact b f ↔ intact b g.
Proof. unfold intact. by intros (-> & _ & -> & -> & ->). Qed.
Lemma same_columns_trans f g h : same_columns f g → same_columns g h → same_columns f h.
Proof. unfold same_columns. intuition congruence. Qed.
Lemma same_columns_sym f g : same_columns f g → same_columns g f.
Proof. unfold same_columns. intuition congruence. Qed.
Lemma undisturbed_refl k w : undisturbed k w w.
Proof. split; [intros id f Hf; by exists f|by eauto|done]. Qed.

Lemma keys_ok_undisturbed k w w' : undisturbed k w w' → keys_ok k (cw_db w) → keys_ok k (cw_db w').
Proof.
  intros [Hf Hp _] [Hinj Hkey]. split.
  - intros i j f g Hi Hj Hk. destruct (Hf _ _ Hi) as (f0 & Hi0 & Hc), (Hf _ _ Hj) as (g0 & Hj0 & Hd).
    apply (Hinj i j f0 g0); [done|done|]. destruct Hc as [<- _], Hd as [<- _]. done.
  - intros i f p' Hi Hpk. destruct (Hf _ _ Hi) as (f0 & Hi0 & Hc & Hr & _). destruct (Hp _ Hpk) as (p & Hp0 & ->).
    rewrite Hc, Hr. by eapply Hkey.
Qed.

Lemma manifest_not_file prefix path : manifestKey prefix ≠ publishedKey prefix path.
Proof. unfold manifestKey, publishedKey. intros H%app_inv_head. vm_compute in H. discriminate. Qed.

Variable k : rowid.
Context (Hothers : ∀ n w, undisturbed k w (others n w)).

(** The loop: the rows still there are those read when it started, and the
    objects of the files done are right. *)
Definition known (started : list (rowid * AssetFile)) (d : DB) : Prop :=
  ∀ id f, file_of k d id f → ∃ f0, (id, f0) ∈ started ∧ same_columns f f0.
Definition verified (done_ : list (rowid * AssetFile)) (w : CW) : Prop :=
  ∀ id f0 f, (id, f0) ∈ done_ → file_of k (cw_db w) id f → intact (cw_bucket w) f0.
Definition progress (started done_ : list (rowid * AssetFile)) (w : CW) : Prop := known started (cw_db w) ∧ verified done_ w.

Lemma progress_others started done_ n w :
  (∀ id f0 f1, (id, f0) ∈ started → (id, f1) ∈ started → f0 = f1) → (∀ x, x ∈ done_ → x ∈ started) →
  progress started done_ w → progress started done_ (others n w).
Proof.
  intros Huniq Hsub [Hk Hv]. destruct (Hothers n w) as [Hf _ Ho]. split.
  - intros id f' Hf'. destruct (Hf id f' Hf') as (f & Hrow & Hc). destruct (Hk id f Hrow) as (f0 & Hin & Hc0).
    exists f0. split; [done|by eapply same_columns_trans].
  - intros id f0 f' Hin Hf'. destruct (Hf id f' Hf') as (f & Hrow & Hc). destruct (Hk id f Hrow) as (f1 & Hin1 & Hc1).
    assert (f1 = f0) as -> by eauto. rewrite <- (intact_columns _ f' f0) by (by eapply same_columns_trans).
    apply (Ho id); [done|]. rewrite (intact_columns _ f' f0) by (by eapply same_columns_trans). by eapply Hv.
Qed.

(** *** One call *)

Lemma storage_call_run {A} (m : Act (Storage B) A) w :
  ∃ w1, w1 = (others (cw_awaits w) w) <| cw_awaits := S (cw_awaits w) |>
    ∧ storage_call others m w = ((m (cw_storage w1)).1, w1 <| cw_storage := (m (cw_storage w1)).2 |>).
Proof. eexists. split; [done|]. unfold storage_call, await, in_storage, mbind, act_bind, act_modify. simpl. by destruct (m _). Qed.

Section loop.
Variable started : list (rowid * AssetFile).
Hypothesis started_rows : ∀ id f0 f1, (id, f0) ∈ started → (id, f1) ∈ started → f0 = f1.
Hypothesis started_keys : ∀ i j f g, (i, f) ∈ started → (j, g) ∈ started → af_objectKey f = af_objectKey g → i = j.

Lemma progress_await done_ w : (∀ x, x ∈ done_ → x ∈ started) → progress started done_ w →
  progress started done_ ((others (cw_awaits w) w) <| cw_awaits := S (cw_awaits w) |>).
Proof. intros Hsub Hp. pose proof (progress_others started done_ (cw_awaits w) w started_rows Hsub Hp) as [Hk Hv]. by split. Qed.

(** A storage call that leaves the objects of the files done alone. *)
Lemma storage_call_progress {A} (m : Act (Storage B) A) done_ w r w' :
  (∀ x, x ∈ done_ → x ∈ started) →
  (∀ s id f, (id, f) ∈ done_ → object_at (sg_bucket (m s).2) (af_objectKey f) = object_at (sg_bucket s) (af_objectKey f)) →
  progress started done_ w → storage_call others m w = (r, w') →
  progress started done_ w' ∧ ∃ s, m s = (r, cw_storage w').
Proof.
  intros Hsub Hm Hp Hrun. destruct (storage_call_run m w) as (w1 & Hw1 & E). rewrite E in Hrun. injection Hrun as <- <-.
  destruct (progress_await done_ w Hsub Hp) as [Hk Hv]. rewrite <- Hw1 in Hk, Hv. split; [split|].
  - done.
  - intros id f0 f Hin Hf. destruct (Hv id f0 f Hin Hf) as (o & Ho & Hrest). exists o. simpl. by rewrite (Hm _ id f0 Hin).
  - exists (cw_storage w1). simpl. by destruct (m _).
Qed.

Lemma verify_file_progress prefix id f0 done_ w w' :
  (∀ x, x ∈ done_ → x ∈ started) → (id, f0) ∈ started → id ∉ done_.*1 →
  progress started done_ w → verify_file others sha256_hex prefix (id, f0) w = (Ok (), w') →
  progress started (done_ ++ [(id, f0)]) w'.
Proof.
  intros Hsub Hin Hnew Hp Hrun. unfold verify_file in Hrun. cbn [fst snd] in Hrun. step_inv.
  assert (∀ key, af_objectKey f0 ≠ key ∨ True) as _ by auto.
  match goal with H : storage_call _ _ w = _ |- _ => eapply storage_call_progress in H as [Hp1 _]; [|done|by intros; rewrite inspect_bucket|done] end.
  match goal with H : storage_call _ (copyVerifiedObject _ _ _ _ _) _ = _ |- _ => eapply storage_call_progress in H as [Hp2 _]; [|done| |done] end.
  2: { intros s i f Hi. apply copy_bucket. intros Heq. apply Hnew. apply list_elem_of_fmap. exists (i, f). split; [|done]. simpl.
       symmetry. eapply started_keys; eauto. }
  match goal with H : storage_call _ (inspectObjectSha256 _ (af_objectKey _) _) _ = _ |- _ => eapply storage_call_progress in H as [[Hk3 Hv3] [s Hs]]; [|done|by intros; rewrite inspect_bucket|done] end.
  split; [done|]. intros i g f [Hd|Heq%list_elem_of_singleton]%elem_of_app Hf; [by eapply Hv3|]. injection Heq as -> ->.
  match goal with H : match ?o with Some _ => _ | None => _ end = true |- _ => destruct o as [dg|]; [|done] end.
  apply inspect_reports in Hs as (Hb & o & Ho & Hsha & Hsize & _ & Hmime). unfold matches_file in *. bool_inv.
  exists o. rewrite Hb. split_and!; [done|congruence|congruence|]. rewrite <- Hsize. by apply Z.eqb_eq.
Qed.
Lemma verify_files_progress prefix l done_ w u w' :
  started = done_ ++ l → NoDup started.*1 → progress started done_ w →
  act_for l (verify_file others sha256_hex prefix) w = (Ok u, w') → progress started started w'.
Proof.
  revert done_ w. induction l as [|[id f0] l IH]; intros done_ w Heq Hnd Hp Hrun; simpl in Hrun.
  - rewrite app_nil_r in Heq. step_inv. by subst.
  - apply act_bind_ok in Hrun as ([] & w1 & H1 & H2). apply (IH (done_ ++ [(id, f0)]) w1); [by rewrite <- (assoc_L app)|done| |done].
    rewrite Heq, fmap_app in Hnd. eapply verify_file_progress; [| | |exact Hp|exact H1].
    + intros x Hx. rewrite Heq. apply elem_of_app. by left.
    + rewrite Heq. apply elem_of_app. right. by left.
    + intros Hin. apply NoDup_app in Hnd as (_ & Hnd & _). apply (Hnd id Hin). by left.
Qed.
End loop.

(** *** After the loop *)

Definition all_intact (w : CW) : Prop := ∀ id f, file_of k (cw_db w) id f → intact (cw_bucket w) f.
Lemma all_intact_others n w : all_intact w → all_intact (others n w).
Proof.
  intros Ha id f' Hf'. destruct (Hothers n w) as [Hf _ Ho]. destruct (Hf id f' Hf') as (f & Hrow & Hc).
  apply (Ho id); [done|]. rewrite (intact_columns _ f' f) by done. by apply (Ha id).
Qed.

Lemma pack_files_spec d id f : (id, f) ∈ pack_files k d ↔ file_of k d id f.
Proof. unfold pack_files, file_of. rewrite elem_of_find_many, bool_decide_eq_true. done. Qed.
Lemma pack_files_progress d : NoDup (pack_files k d).*1 ∧ known (pack_files k d) d ∧ (∀ id f0 f1, (id, f0) ∈ pack_files k d → (id, f1) ∈ pack_files k d → f0 = f1).
Proof.
  split_and!; [apply find_many_keys_NoDup| |].
  - intros id f Hf. exists f. by rewrite pack_files_spec.
  - intros id f0 f1. rewrite !pack_files_spec. intros [? _] [? _]. congruence.
Qed.

(** The columns of all file rows. *)
Definition file_columns_of (f : AssetFile) := (af_assetPackId f, af_objectKey f, af_relativePath f, af_mimeType f, af_sizeBytes f, af_sha256 f).
Definition files_view (d : DB) := file_columns_of <$> db_assetFiles d.
Lemma files_view_file d d' id f' : files_view d' = files_view d → file_of k d' id f' → ∃ f, file_of k d id f ∧ same_columns f' f.
Proof.
  intros Hv [Hf' Hk]. assert (files_view d' !! id = Some (file_columns_of f')) as Hl by (unfold files_view; by rewrite lookup_fmap, Hf').
  rewrite Hv in Hl. unfold files_view in Hl. rewrite lookup_fmap in Hl. apply fmap_Some in Hl as (f & Hf & Hc).
  exists f. unfold file_columns_of in Hc. injection Hc as H1 H2 H3 H4 H5 H6. split; [split; [done|congruence]|by split_and!].
Qed.
Lemma mark_verified_frame id now : frame_on files_view (mark_verified id now).
Proof.
  apply frame_modify. intros d. unfold files_view. apply map_eq. intros i. cbn. rewrite !lookup_fmap, lookup_update_many.
  destruct (db_assetFiles d !! i) as [f|]; [|done]. simpl. by case_match.
Qed.
Lemma activate_tx_frame c t allowed completedAt after now : frame_on files_view after →
  frame_on files_view (activateVerifiedPackInTransaction c t allowed completedAt after now).
Proof.
  intros Hafter. unfold activateVerifiedPackInTransaction, claim_pack, set_active. frame.
  apply frame_modify_or. unfold one_active_index. intros d d' Hd. case_match; by simplify_eq.
Qed.

(** Methods that spoil nothing. *)
Definition spares {A} (m : Act CW A) : Prop := ∀ w, all_intact w → all_intact (m w).2.
Lemma spares_bind {A C} (m : Act CW A) (f : A → Act CW C) : spares m → (∀ a, spares (f a)) → spares (m ≫= f).
Proof. intros Hm Hf w Hw. specialize (Hm w Hw). unfold mbind, act_bind. destruct (m w) as [[a|e] w1]; [by apply Hf|done]. Qed.
Lemma spares_catch {A} (m : Act CW A) h : spares m → (∀ e, spares (h e)) → spares (act_catch m h).
Proof. intros Hm Hh w Hw. specialize (Hm w Hw). unfold act_catch. destruct (m w) as [[a|e] w1]; [done|by apply Hh]. Qed.
Lemma spares_db_call {A} (m : Act World A) : (∀ w, files_view (w_db (m w).2) = files_view (w_db w)) → spares (db_call others m).
Proof.
  intros Hm w Hw. pose proof (all_intact_others (cw_awaits w) w Hw) as H1.
  unfold db_call, await, in_db, mbind, act_bind, act_modify. cbn. specialize (Hm (cw_world (others (cw_awaits w) w))).
  destruct (m _) as [r w2]. cbn in *. intros id f' Hf'. destruct (files_view_file _ _ _ _ Hm Hf') as (f & Hf & Hc).
  rewrite (intact_columns _ f' f) by done. by apply (H1 id).
Qed.
Lemma spares_tx {A} (body : Tx DB A) : frame_on files_view body → spares (pack_tx others body).
Proof.
  intros Hb. apply spares_db_call. intros w. unfold transaction. destruct (body (w_db w)) as [[a d]|e] eqn:E; [|done]. by apply Hb in E.
Qed.
Lemma activation_spares c t allowed completedAt after : frame_on files_view after → spares (activation others c t allowed completedAt after).
Proof.
  intros Ha. assert (spares (now ← clock; pack_tx others (activateVerifiedPackInTransaction c t allowed completedAt after now))) as Hop.
  { apply spares_bind; [by intros w|]. intros now. by apply spares_tx, activate_tx_frame. }
  unfold activation, withActivePackUniqueRetry. apply spares_catch; [done|]. intros e. case_match; [|by intros w].
  apply spares_catch; [done|]. by intros e' w.
Qed.

Lemma publish_pack_intact u started w r w' :
  keys_ok k (cw_db w) → db_assetPacks (cw_db w) !! k = Some (op_pack started) → op_files started = pack_files k (cw_db w) →
  publish_pack others toLowerCase sha256_hex localeCompare_le limits u k started w = (Ok r, w') → all_intact w'.
Proof.
  intros [Hinj Hkey] Hrow Hfiles Hrun. unfold publish_pack in Hrun. destruct (pack_files_progress (cw_db w)) as (Hnd & Hknown & Hrows).
  rewrite Hfiles in Hrun. apply act_bind_ok in Hrun as (u1 & w1 & H1 & Hrun).
  assert (∀ i j f g, (i, f) ∈ pack_files k (cw_db w) → (j, g) ∈ pack_files k (cw_db w) → af_objectKey f = af_objectKey g → i = j) as Hkeys.
  { intros i j f g. rewrite !pack_files_spec. by apply Hinj. }
  eapply (verify_files_progress (pack_files k (cw_db w)) Hrows Hkeys _ _ []) in H1; [|done|done|split; [done|by intros ? ? ? ?%not_elem_of_nil]].
  apply act_bind_ok in Hrun as (v & w2 & H2 & Hrun). unfold lift_result in H2. injection H2 as _ <-.
  apply act_bind_ok in Hrun as ([] & w3 & H3 & Hrun).
  eapply (storage_call_progress (pack_files k (cw_db w)) Hrows) in H3 as [[Hk3 Hv3] _]; [|done| |done].
  2: { intros s id f Hin%pack_files_spec. apply put_bucket. rewrite (Hkey _ _ _ Hin Hrow). intros Heq. by eapply manifest_not_file. }
  assert (all_intact w3) as Hall.
  { intros id f Hf. destruct (Hk3 id f Hf) as (f0 & Hin & Hc). rewrite (intact_columns _ f f0) by done. by eapply Hv3. }
  match type of Hrun with ?m w3 = _ => assert (spares m) as Hs end.
  { apply spares_bind; [by intros w4|]. intros completedAt. apply spares_bind; [apply activation_spares, mark_verified_frame|].
    intros c. apply spares_bind; [apply spares_db_call; intros w4; by rewrite publishInvalidation_reads|].
    intros _. apply spares_bind; [by apply spares_db_call|]. intros row. apply spares_bind; [|by intros ? w4].
    intros w4. unfold act_require_some. by destruct row. }
  specialize (Hs w3 Hall). by rewrite Hrun in Hs.
Qed.

(** *** The whole request *)

Lemma keys_ok_others n w : keys_ok k (cw_db w) → keys_ok k (cw_db (others n w)).
Proof. by apply keys_ok_undisturbed. Qed.
Lemma claim_pack_keys j p now f d b d' : (∀ r, pk_objectPrefix (f r) = pk_objectPrefix r) →
  keys_ok k d → claim_pack j p now f d = Ok (b, d') → keys_ok k d'.
Proof.
  intros Hf [Hinj Hkey] Hrun. unfold claim_pack in Hrun. step_inv. split; [done|].
  intros i g q Hg Hq. cbn in Hq. apply lookup_update_many_Some in Hq as (q0 & Hq0 & ->). rewrite (Hkey i g q0 Hg Hq0). case_match; [|done].
  simpl. by rewrite Hf.
Qed.
Lemma requireOwnedPack_ok u w p w' : requireOwnedPack others u k w = (Ok p, w') → keys_ok k (cw_db w) →
  keys_ok k (cw_db w') ∧ db_assetPacks (cw_db w') !! k = Some (op_pack p) ∧ op_files p = pack_files k (cw_db w').
Proof.
  intros Hrun Hw. pose proof (keys_ok_others (cw_awaits w) w Hw) as H1. unfold requireOwnedPack in Hrun.
  apply act_bind_ok in Hrun as (row & w1 & Hq & Hrun). step_inv.
  unfold pack_query, db_call, await, in_db, query, act_gets, act_modify, mbind, act_bind in Hq. cbn in Hq. injection Hq as Hrow <-.
  unfold owned_pack in Hrow. cbn. option_inv. by simplify_eq.
Qed.
Lemma verify_started_intact u w v c w' : keys_ok k (cw_db w) →
  verify_started others toLowerCase sha256_hex localeCompare_le limits u k w = (Ok (CR_completed v c), w') → all_intact w'.
Proof.
  intros Hw Hrun. unfold verify_started in Hrun. apply act_bind_ok in Hrun as (started & w1 & H1 & Hrun).
  apply requireOwnedPack_ok in H1 as (Hk & Hrow & Hfiles); [|done]. case_match.
  - unfold completeEnvelopeForActivePack in Hrun. by step_inv.
  - apply act_bind_ok in Hrun as ([] & w1' & [_ ->]%act_require_ok & Hrun). unfold act_catch in Hrun. destruct (publish_pack _ _ _ _ _ _ _ _ _) as [[r|e] w2] eqn:E.
    + injection Hrun as _ <-. by eapply publish_pack_intact in E.
    + unfold publish_failed in Hrun. repeat case_match; step_inv.
Qed.

End publish.
