(* ===== verification/AssetPackSafety.v ===== *)
(** * Safety of asset packs

    What holds after any sequence of pack requests and cleanup phases, and a
    concrete upload that runs through them. *)

From S2P Require Import Prelude Tables JsText Json Schema Interfaces Config AssetManifest Storage Visit Companion AssetPack AssetPackInv AssetPackPublish.
Local Open Scope Z_scope.

Section safety.
Context {Hscan : ScanOrder} {B : Type} `{!ObjectStore B}.
Context (others : nat → CWorld B → CWorld B) (toLowerCase sha256_hex : text → text) (localeCompare_le : text → text → bool).
Context (limits : StorageLimits) (ttl : Z) (sign_put : text → text → Z → instant → text) (sign_get : text → Z → instant → text) (fuel : nat).
Abbreviation CW := (CWorld B).
Abbreviation max := (sl_maxUserStorageBytes limits).
Abbreviation serve := (serve_pack others toLowerCase sha256_hex localeCompare_le limits ttl sign_put sign_get fuel).

(** Requests one after the other, each possibly refused. *)
Definition run_packs (requests : list (rowid * PackRequest)) (w : CW) : CW := foldl (λ w r, (serve r.1 r.2 w).2) w requests.
(** No pack yet. *)
Definition no_packs (d : DB) : Prop := db_assetPacks d = ∅ ∧ ∀ c co, db_companions d !! c = Some co → co_activeAssetPackId co = None.
(** What the requests of others do while one awaits: they keep the invariant of
    the tables, and leave a pack alone that is being abandoned. *)
Definition well_behaved : Prop :=
  (∀ n w, PackInv max (cw_db w) → PackInv max (cw_db (others n w))) ∧ (∀ n w k, abandoning k (cw_db w) → abandoning k (cw_db (others n w))).

Lemma no_packs_inv d : 0 ≤ max → no_packs d → PackInv max d.
Proof.
  intros Hmax [Hp Hc]. split; try (intros p r; by rewrite Hp).
  - intros c co p Hco. by rewrite (Hc _ _ Hco).
  - intros u. unfold usage, sum_map. by rewrite Hp, map_fold_empty.
Qed.
Lemma run_packs_inv requests w : well_behaved → PackInv max (cw_db w) → PackInv max (cw_db (run_packs requests w)).
Proof.
  intros [Hk Hl]. revert w. induction requests as [|[u r] l IH]; intros w Hw; simpl; [done|]. apply IH.
  by apply (serve_pack_keeps others toLowerCase sha256_hex localeCompare_le limits ttl sign_put sign_get fuel Hk Hl u r w).
Qed.

(** C7: A companion has at most one active asset pack, and it is the one the
    companion points to, after any sequence of uploads, completions,
    activations, deletions and cleanup phases and whatever other requests do in
    between. *)
Theorem one_active_pack requests w c co p :
  well_behaved → 0 ≤ max → no_packs (cw_db w) →
  let d := cw_db (run_packs requests w) in
  db_companions d !! c = Some co →
  co_activeAssetPackId co = Some p ↔ ∃ r, db_assetPacks d !! p = Some r ∧ pk_companionId r = c ∧ pk_status r = PK_active.
Proof.
  intros Hok Hmax Hw d Hco. pose proof (run_packs_inv requests w Hok (no_packs_inv _ Hmax Hw)) as Hinv. split.
  - intros Hp. by eapply (pi_pointer _ _ Hinv).
  - intros (r & Hr & <- & Ha). destruct (pi_active _ _ Hinv _ _ Hr Ha) as (co' & Hco' & ?). unfold d in Hco. congruence.
Qed.

(** C8: The packs of a user that are stored or being uploaded never exceed the
    storage quota together, whatever the order of requests. *)
Theorem storage_quota_holds requests w u :
  well_behaved → 0 ≤ max → no_packs (cw_db w) → usage u (cw_db (run_packs requests w)) ≤ max.
Proof. intros Hok Hmax Hw. eapply pi_quota, run_packs_inv; [done|by apply no_packs_inv]. Qed.

(** ** Packs visits refer to *)

Definition in_use (k : rowid) (d : DB) : Prop :=
  (∃ r, db_assetPacks d !! k = Some r ∧ pk_status r = PK_superseded) ∧ noLiveVisit k d = false.

Section in_use.
Variable k : rowid.
Context (others_keep : ∀ n w, in_use k (cw_db w) → in_use k (cw_db (others n w))).

Lemma in_use_frame d d' : in_use k d → db_assetPacks d' !! k = db_assetPacks d !! k → noLiveVisit k d' = noLiveVisit k d → in_use k d'.
Proof. intros [Hr Hn] Hp Hv. split; [by rewrite Hp|by rewrite Hv]. Qed.
Lemma claim_other_in_use j p now f d b d' : in_use k d → (j = k → ∀ r, p r = false) → claim_pack j p now f d = Ok (b, d') →
  in_use k d' ∧ (j = k → b = false).
Proof.
  intros Hu Hj Hrun. unfold claim_pack in Hrun. step_inv. split.
  - apply (in_use_frame d); [done| |done]. cbn. rewrite lookup_update_many. destruct (db_assetPacks d !! k) as [r|]; [|done]. simpl.
    case_bool_decide; [|done]. by rewrite Hj.
  - intros ->. destruct (db_assetPacks d !! k); [by apply Hj|done].
Qed.
Lemma exists_where_forget {R} (q : R → bool) (get_ref : R → option rowid) (f : R → R) (j : rowid) (m : gmap rowid R) :
  j ≠ k → (∀ r, q (f r) = q r) → (∀ r, get_ref (f r) = None) →
  exists_where (λ _ r, q r && (get_ref r == Some k)) (update_many (λ _ r, get_ref r == Some j) f m)
  = exists_where (λ _ r, q r && (get_ref r == Some k)) m.
Proof.
  intros Hne Hq Hf. apply eq_true_iff_eq. rewrite !exists_where_true. split.
  - intros (i & r' & Hr' & Hb). apply lookup_update_many_Some in Hr' as (r & Hr & ->). case_bool_decide; [|by eauto].
    bool_inv. rewrite Hf in *. done.
  - intros (i & r & Hr & Hb). exists i, r. split; [|done]. rewrite lookup_update_many, Hr. simpl.
    rewrite bool_decide_eq_false_2; [done|]. bool_inv. congruence.
Qed.
Lemma delete_other_in_use j d : j ≠ k → in_use k d → in_use k (delete_pack j d).
Proof.
  intros Hne Hu. apply (in_use_frame d); [done|by apply lookup_delete_ne|]. unfold noLiveVisit, delete_pack. cbn.
  rewrite (exists_where_forget (λ r, inv_status r == I_pending) inv_assetPackRefId (λ r, r <| inv_assetPackRefId := None |>) j (db_invitations d)) by done.
  by rewrite (exists_where_forget (λ r, live (ses_state r)) ses_assetPackRefId (λ r, r <| ses_assetPackRefId := None |>) j (db_sessions d)).
Qed.

Abbreviation keeps := (AssetPackInv.keeps (in_use k)).
Lemma cleanup_failed_in_use j : keeps (cleanup_failed others j PK_deleting).
Proof.
  intros w Hw. assert (keeps (cleanup_failed others j PK_deleting)) as Hc; [|by apply Hc].
  unfold cleanup_failed. keeps. apply keeps_tx; [done|]. intros d b d' Hd Hrun.
  destruct Hd as [(r & Hr & Hs) Hn]. unfold claim_pack in Hrun. step_inv. split; [|done]. cbn. rewrite lookup_update_many, Hr. simpl.
  eexists. split; [done|]. rewrite Hs. by rewrite andb_false_r.
Qed.
Lemma remove_superseded_in_use started before_ j p files :
  (j = k → pk_status p ≠ PK_deleting) → keeps (remove_superseded others limits started before_ ((j, p), files)).
Proof.
  intros Hj. unfold remove_superseded. pose proof (cleanup_failed_in_use j) as Hfail.
  destruct (decide (j = k)) as [->|Hne].
  - rewrite bool_decide_eq_false_2 by auto. apply keeps_bind'.
    + keeps. apply keeps_tx; [done|]. intros d b d' Hd Hrun. step_inv. eapply claim_other_in_use; [done| |done].
      intros _ r. destruct Hd as [_ ->]. by rewrite andb_false_r.
    + intros b w w' Hw Hrun. destruct b; [|by apply keeps_ret]. exfalso. unfold clock in Hrun. rewrite act_gets_run in Hrun.
      match type of Hrun with pack_tx _ ?body _ = _ => destruct (pack_tx_run others body w) as (w1 & -> & E) end.
      pose proof (others_keep (cw_awaits w) w Hw) as Hu. rewrite Hrun in E. rewrite tx_gets_run in E.
      destruct (claim_pack _ _ _ _ _) as [[b d]|e] eqn:Hc in E; [|done]. injection E as <- _.
      eapply claim_other_in_use in Hc as [_ Hb]; [by specialize (Hb eq_refl)|exact Hu|].
      intros _ r. destruct Hu as [_ Hn]. cbn. rewrite Hn. by rewrite andb_false_r.
  - keeps.
    + apply keeps_tx; [done|]. intros d b d' Hd Hrun. step_inv. eapply claim_other_in_use; [done| |done]; by intros ->.
    + unfold try_delete, delete_objects_of. keeps.
    + apply keeps_tx; [done|]. intros d b d' Hd Hrun. step_inv. by apply delete_other_in_use.
Qed.
Lemma remove_loop_in_use started before_ l n :
  (∀ e, e ∈ l → e.1.1 = k → pk_status e.1.2 ≠ PK_deleting) → keeps (clean_loop (remove_superseded others limits started before_) l n).
Proof.
  revert n. induction l as [|[[j p] files] l IH]; intros n Hl; simpl; [apply keeps_ret|].
  apply keeps_bind; [by apply keeps_uploadsEnabled|]. intros []; [|apply keeps_ret].
  apply keeps_bind; [|intros done_; apply IH; intros e He; apply Hl; by right].
  apply remove_superseded_in_use. apply (Hl ((j, p), files)). by left.
Qed.

(** A replaced pack that a pending invitation or an open session still
    refers to is neither claimed nor deleted by [cleanupSupersededPacks],
    however old it is. *)
Theorem used_pack_survives_cleanup limit w :
  in_use k (cw_db w) → in_use k (cw_db (cleanupSupersededPacks others limits limit w).2).
Proof.
  intros Hw. unfold cleanupSupersededPacks, clock. rewrite act_gets_run. unfold pack_query, db_call, await, in_db, query, act_gets, act_modify, mbind, act_bind. cbn.
  match goal with |- context [clean_loop _ ?l 0 ?w1] => set (packs := l); set (w' := w1) end.
  assert (cw_db w' = cw_db (others (cw_awaits w) w)) as Hdb by (unfold w'; by destruct (others _ _) as [[] ? ? ?]).
  pose proof (others_keep (cw_awaits w) w Hw) as Hu. rewrite <- Hdb in Hu.
  apply remove_loop_in_use; [|exact Hu]. intros e He Hek. unfold packs in He. rewrite <- Hdb in He.
  apply packs_to_clean_spec in He as (Hr & _). destruct Hu as [(r & Hr' & Hs) _]. rewrite Hek in Hr. simplify_eq. by rewrite Hs.
Qed.
End in_use.
End safety.

(** ** A concrete upload

    alice uploads a pack with one file; [w_uploaded] is the world when the file
    is in the staging area.  [meddler] is an uploader who replaces the staging
    object as soon as it has been copied. *)

Section demo.
#[local] Existing Instance key_order.
Abbreviation bucket := (gmap text S3Object).

Definition junk : text := [66; 65; 68].
Definition demo_hash (c : Z) : text := replicate 64 c.
Definition demo_sha (t : text) : text := if t == junk then demo_hash 98 else demo_hash 97.
Definition demo_storage_limits : StorageLimits := mkStorageLimits 100 1000 10 24 900 25 30.
Definition demo_dto : InitiateAssetPackDto :=
  mkInitiateAssetPackDto 1 (demo_hash 97) 1 10 (demo_manifest (JStr (lit "static")) VISUAL_VISIT_REQUIRED_ANIMATIONS).
Definition quiet (n : nat) (w : CWorld bucket) : CWorld bucket := w.
Definition demo_owner_db : DB :=
  empty_db <| db_users := demo_users |> <| db_companions := {["ca" := demo_own <| co_activeAssetPackId := None |>]} |>.
Definition w_start : CWorld bucket := mkCWorld (mkWorld demo_owner_db []) (demo_storage ∅) 100 0.
Definition demo_serve_pack (others : nat → CWorld bucket → CWorld bucket) :=
  run_packs others demo_lower demo_sha text_leb demo_storage_limits 900 (λ key _ _ _, key) (λ key _ _, key) 10.
Definition initiate_request : rowid * PackRequest := ("alice", PQ_initiate "ca" demo_dto "p1" (λ _, "f1")).
Definition w_initiated : CWorld bucket := demo_serve_pack quiet [initiate_request] w_start.
Definition staged_key : text := stagingObjectKey (object_prefix "alice" "ca" (demo_hash 97)) "f1".
Definition staged (body : text) (w : CWorld bucket) : CWorld bucket :=
  w <| cw_storage := demo_storage (<[staged_key := mkS3Object body (Some (lit "image/png")) None]> (cw_bucket w)) |>.
Definition w_uploaded : CWorld bucket := (staged (replicate 10 7) w_initiated) <| cw_awaits := 0%nat |>.
Definition meddler (first : nat) (n : nat) (w : CWorld bucket) : CWorld bucket :=
  if (first <=? n)%nat && negb (exists_where (λ _ f, af_objectKey f == staged_key) (db_assetFiles (cw_db w))) then staged junk w else w.
Definition complete (first : nat) : result CompleteResult * CWorld bucket :=
  completeAssetPack (meddler first) demo_lower demo_sha text_leb demo_storage_limits "alice" "p1" w_uploaded.

(** Replaced after the copy, the staging object does no harm; replaced before,
    the upload fails. *)
Example complete_after_copy : match (complete 6).1 with Ok (CR_completed v _) => pv_status v | _ => PK_failed end = PK_active.
Proof. vm_compute. reflexivity. Qed.
Example complete_before_copy : (complete 5).1 = Err (BadRequestException "ASSET_INTEGRITY_FAILED").
Proof. vm_compute. reflexivity. Qed.

(** The file is uploaded while the first await of the completion lasts. *)
Definition uploader (n : nat) (w : CWorld bucket) : CWorld bucket := if bool_decide (n = 1%nat) then staged (replicate 10 7) w else w.
Lemma uploader_well_behaved : well_behaved uploader demo_storage_limits.
Proof. split; intros; unfold uploader; by case_bool_decide. Qed.
Definition two_requests : list (rowid * PackRequest) := [initiate_request; ("alice", PQ_complete "p1")].
Definition w_two : CWorld bucket := demo_serve_pack uploader two_requests w_start.
Definition owner_after : Companion := default demo_own (db_companions (cw_db w_two) !! "ca").
Lemma w_start_no_packs : no_packs (cw_db w_start).
Proof. split; [done|]. intros c co Hco.
  assert (db_companions (cw_db w_start) = {["ca" := demo_own <| co_activeAssetPackId := None |>]}) as Hc by done.
  rewrite Hc in Hco. apply lookup_singleton_Some in Hco as [_ <-]. done.
Qed.

Lemma one_active_pack_witness :
  ∃ r, db_assetPacks (cw_db w_two) !! "p1" = Some r ∧ pk_companionId r = "ca" ∧ pk_status r = PK_active.
Proof.
  apply (one_active_pack uploader demo_lower demo_sha text_leb demo_storage_limits 900 (λ key _ _ _, key) (λ key _ _, key) 10
    two_requests w_start "ca" owner_after "p1" uploader_well_behaved).
  - vm_compute. discriminate.
  - apply w_start_no_packs.
  - vm_compute. reflexivity.
  - vm_compute. reflexivity.
Defined.
Lemma storage_quota_holds_witness : usage "alice" (cw_db w_two) ≤ 25 ∧ usage "alice" (cw_db w_two) = 10.
Proof.
  split; [|vm_compute; reflexivity].
  apply (storage_quota_holds uploader demo_lower demo_sha text_leb demo_storage_limits 900 (λ key _ _ _, key) (λ key _ _, key) 10
    two_requests w_start "alice" uploader_well_behaved); [vm_compute; discriminate|apply w_start_no_packs].
Defined.

Lemma meddler_undisturbed first n w : undisturbed demo_sha "p1" w (meddler first n w).
Proof.
  unfold meddler. destruct (_ && _) eqn:Hb; [|apply undisturbed_refl]. apply andb_true_iff in Hb as [_ Hb]. apply negb_true_iff in Hb.
  split; [intros id f Hf; by exists f|by eauto|].
  intros id f Hf (o & Ho & Hrest). exists o. split; [|done]. cbn. rewrite lookup_insert_ne; [done|]. intros Heq.
  destruct Hf as [Hf _]. rewrite exists_where_false in Hb. specialize (Hb id f Hf). simpl in Hb. rewrite <- Heq in Hb. by rewrite bool_decide_eq_true_2 in Hb.
Qed.
Definition uploaded_file : AssetFile := default (mkAssetFile "" [] [] [] 0 [] [] false None) (db_assetFiles (cw_db w_uploaded) !! "f1").
Lemma w_uploaded_keys : keys_ok "p1" (cw_db w_uploaded).
Proof.
  assert (db_assetFiles (cw_db w_uploaded) = {["f1" := uploaded_file]}) as Hf by (vm_compute; reflexivity).
  split.
  - intros i j f g [Hi _] [Hj _] _. rewrite Hf in Hi, Hj. apply lookup_singleton_Some in Hi as [<- _], Hj as [<- _]. done.
  - intros i f p [Hi _] Hp. rewrite Hf in Hi. apply lookup_singleton_Some in Hi as [_ <-].
    assert (db_assetPacks (cw_db w_uploaded) !! "p1" = Some p) as Hp' by exact Hp. vm_compute in Hp'. injection Hp' as <-. vm_compute. reflexivity.
Qed.
Definition demo_pack_row : AssetPack :=
  mkAssetPack "ca" (lit "h") 1 JNull PK_superseded (lit "pre") 1 10 None None None 0 0 None None (Some 0).
Definition completed : CompleteResult := match (complete 6).1 with Ok r => r | Err _ => CR_already_active (mkOwnedPack demo_pack_row demo_own []) demo_own end.

(** A pack replaced long ago goes, unless an invitation still carries it. *)
Definition with_invitation (ref : option rowid) : DB :=
  demo_owner_db <| db_assetPacks := {["p0" := demo_pack_row]} |>
    <| db_invitations := {["i" := mkInvitation "alice" "bob" "ca" "p0" ref [] None [] VM_standard no_topic None I_pending 0 None None 0 0]} |>.
Definition w_old (ref : option rowid) : CWorld bucket := mkCWorld (mkWorld (with_invitation ref) []) (demo_storage ∅) 10000000000 0.
Example unused_pack_goes : (cleanupSupersededPacks quiet demo_storage_limits 100 (w_old None)).1 = Ok 1.
Proof. vm_compute. reflexivity. Qed.
Lemma used_pack_survives_cleanup_witness :
  in_use "p0" (cw_db (cleanupSupersededPacks quiet demo_storage_limits 100 (w_old (Some "p0"))).2).
Proof.
  apply (used_pack_survives_cleanup quiet demo_storage_limits "p0"); [by intros n w|].
  split; [exists demo_pack_row; split; vm_compute; reflexivity|vm_compute; reflexivity].
Defined.
End demo.
