(* ===== verification/Server.v ===== *)
(** * The running server: database, bucket, sockets and clock

    What the methods that reach beyond one request work on.  Whenever such a
    method awaits, other requests run: [others n] is what happened to the whole
    server, the clock included, during its [n]th await. *)

From S2P Require Import Prelude Tables JsText Json Schema Storage Presence.
Local Open Scope Z_scope.

Record Server (B : Type) := mkServer {
  sv_world : World; sv_storage : Storage B; sv_gate : Gateway; sv_threads : list Thread; sv_now : instant; sv_awaits : nat }.
Arguments mkServer {B} _ _ _ _ _ _.
Arguments sv_world {B} _.
Arguments sv_storage {B} _.
Arguments sv_gate {B} _.
Arguments sv_threads {B} _.
Arguments sv_now {B} _.
Arguments sv_awaits {B} _.
#[export] Instance eta_Server {B} : Eta (Server B) := λ s,
  mkServer (sv_world s) (sv_storage s) (sv_gate s) (sv_threads s) (sv_now s) (sv_awaits s).
Abbreviation sv_db s := (w_db (sv_world s)).
Abbreviation sv_bucket s := (sg_bucket (sv_storage s)).

Section server.
Context {B : Type}.
Variable others : nat → Server B → Server B.
Abbreviation Srv := (Server B).

Definition sv_await : Act Srv unit := act_modify (λ s, (others (sv_awaits s) s) <| sv_awaits := S (sv_awaits s) |>).
Definition sv_clock : Act Srv instant := act_gets sv_now.
(** One database call, one storage call. *)
Definition on_world {A} (m : Act World A) : Act Srv A := λ s, let '(r, w) := m (sv_world s) in (r, s <| sv_world := w |>).
Definition on_storage {A} (m : Act (Storage B) A) : Act Srv A := λ s, let '(r, b) := m (sv_storage s) in (r, s <| sv_storage := b |>).
Definition sv_call {A} (m : Act World A) : Act Srv A := sv_await ;; on_world m.
Definition sv_storage_call {A} (m : Act (Storage B) A) : Act Srv A := sv_await ;; on_storage m.
Definition sv_query {A} (f : DB → A) : Act Srv A := sv_call (query f).
Definition sv_tx {A} (body : Tx DB A) : Act Srv A := sv_call (transaction body).

(** [await this.presence?.disconnectDevice(...)], [.disconnectUser(...)]: the
    gateway runs its part in one piece; what is left of it (the publication of
    the user's status) runs while the caller awaits. *)
Definition sv_disconnectDevice (userId deviceId : rowid) : Act Srv unit :=
  act_modify (λ s, s <| sv_gate := disconnectDevice userId deviceId (sv_gate s) |>) ;; sv_await.
Definition sv_disconnectUser (userId : rowid) : Act Srv unit :=
  act_modify (λ s, let '(g, ths) := disconnectUser userId (sv_gate s) in s <| sv_gate := g |> <| sv_threads := sv_threads s ++ ths |>) ;; sv_await.
End server.

(** ** Methods that keep a condition on the database *)

Section keeping.
Context {B : Type}.
Variable P : DB → Prop.
Variable others : nat → Server B → Server B.
Abbreviation Srv := (Server B).
Abbreviation PS := (λ s : Srv, P (sv_db s)).

Lemma preserves_gate (f : Srv → Srv) : (∀ s, sv_world (f s) = sv_world s) → preserves PS (act_modify f).
Proof. intros Hf s Hs. simpl. by rewrite Hf. Qed.
Lemma preserves_clock : preserves PS sv_clock.
Proof. by apply preserves_gets. Qed.

(** What other requests do during an await keeps the condition. *)
Context (others_keep : ∀ n s, P (sv_db s) → P (sv_db (others n s))).

Lemma preserves_await : preserves PS (sv_await others).
Proof. intros s Hs. by apply others_keep. Qed.
Lemma preserves_call {A} (m : Act World A) : (∀ w, P (w_db w) → P (w_db (m w).2)) → preserves PS (sv_call others m).
Proof.
  intros Hm. apply preserves_bind; [apply preserves_await|]. intros [] s Hs. unfold on_world.
  specialize (Hm (sv_world s) Hs). by destruct (m (sv_world s)).
Qed.
Lemma preserves_query {A} (f : DB → A) : preserves PS (sv_query others f).
Proof. by apply preserves_call. Qed.
Lemma preserves_tx {A} (body : Tx DB A) : (∀ d a d', P d → body d = Ok (a, d') → P d') → preserves PS (sv_tx others body).
Proof.
  intros Hb. apply preserves_call. intros w Hw. unfold transaction. destruct (body (w_db w)) as [[a d]|e] eqn:E; [|done]. by eapply Hb.
Qed.
Lemma preserves_storage_call {A} (m : Act (Storage B) A) : preserves PS (sv_storage_call others m).
Proof. apply preserves_bind; [apply preserves_await|]. intros [] s Hs. unfold on_storage. by destruct (m (sv_storage s)). Qed.
Lemma preserves_disconnectDevice userId deviceId : preserves PS (sv_disconnectDevice others userId deviceId).
Proof. apply preserves_bind; [by apply preserves_gate|intros; apply preserves_await]. Qed.
Lemma preserves_disconnectUser userId : preserves PS (sv_disconnectUser others userId).
Proof.
  apply preserves_bind; [|intros; apply preserves_await]. apply preserves_gate. intros s. by destruct (disconnectUser userId (sv_gate s)).
Qed.
End keeping.

#[export] Hint Resolve preserves_clock preserves_await preserves_query preserves_storage_call preserves_disconnectDevice preserves_disconnectUser : preserves.

(** The runs of a server call. *)
Section calls.
Context {B A C : Type} (others : nat → Server B → Server B).
Implicit Types (s : Server B).

(** The server as a method finds it after an await. *)
Definition resumed s : Server B := (others (sv_awaits s) s) <| sv_awaits := S (sv_awaits s) |>.

Lemma await_run (f : unit → Act (Server B) C) s : (sv_await others ≫= f) s = f () (resumed s).
Proof. done. Qed.
Lemma clock_run (f : instant → Act (Server B) C) s : (sv_clock ≫= f) s = f (sv_now s) s.
Proof. done. Qed.
Lemma query_call_run (g : DB → A) (f : A → Act (Server B) C) s : (sv_query others g ≫= f) s = f (g (sv_db (resumed s))) (resumed s).
Proof. unfold sv_query, sv_call. unfold mbind, act_bind, on_world, query, act_gets. simpl. done. Qed.
Lemma tx_call_run (body : Tx DB A) (f : A → Act (Server B) C) s a d :
  body (sv_db (resumed s)) = Ok (a, d) →
  (sv_tx others body ≫= f) s = f a ((resumed s) <| sv_world := (sv_world (resumed s)) <| w_db := d |> |>).
Proof. intros Hb. unfold sv_tx, sv_call, mbind, act_bind, on_world, transaction. simpl in *. by rewrite Hb. Qed.
Lemma tx_call_stop (body : Tx DB A) (f : A → Act (Server B) C) s e :
  body (sv_db (resumed s)) = Err e → (sv_tx others body ≫= f) s = (Err e, resumed s).
Proof. intros Hb. unfold sv_tx, sv_call, mbind, act_bind, on_world, transaction. simpl in *. rewrite Hb. done. Qed.
End calls.

(** ** Taking runs apart *)

Section runs.
Context {B A : Type} (others : nat → Server B → Server B).
Implicit Types (s : Server B).

Lemma sv_await_ok s u s' : sv_await others s = (Ok u, s') ↔ s' = resumed others s.
Proof. destruct u. unfold sv_await, resumed. rewrite act_modify_ok. done. Qed.
Lemma sv_clock_ok s now s' : sv_clock s = (Ok now, s') ↔ now = sv_now s ∧ s' = s.
Proof. apply act_gets_ok. Qed.
Lemma sv_query_ok (f : DB → A) s a s' : sv_query others f s = (Ok a, s') ↔ a = f (sv_db (resumed others s)) ∧ s' = resumed others s.
Proof. unfold sv_query, sv_call, mbind, act_bind, on_world, query, act_gets. simpl. split; [intros [= <- <-]; done|]. by intros [-> ->]. Qed.
Lemma sv_tx_ok (body : Tx DB A) s a s' :
  sv_tx others body s = (Ok a, s') ↔
  ∃ d, body (sv_db (resumed others s)) = Ok (a, d) ∧ s' = (resumed others s) <| sv_world := (sv_world (resumed others s)) <| w_db := d |> |>.
Proof.
  unfold sv_tx, sv_call, mbind, act_bind, on_world, transaction. simpl. destruct (body _) as [[b d]|e]; simpl; split.
  - intros [= <- <-]. eauto.
  - intros (d' & [= <- <-] & ->). done.
  - done.
  - by intros (? & ? & ?).
Qed.
Lemma sv_disconnectDevice_ok u dv s x s' :
  sv_disconnectDevice others u dv s = (Ok x, s') ↔ s' = resumed others (s <| sv_gate := disconnectDevice u dv (sv_gate s) |>).
Proof. unfold sv_disconnectDevice. destruct x. unfold mbind, act_bind, act_modify. apply (sv_await_ok (s <| sv_gate := _ |>) ()). Qed.
End runs.

(** [step_inv] on methods of the server *)
Ltac server_inv :=
  repeat (progress step_inv ||
    match goal with
    | H : sv_await _ _ = (Ok _, _) |- _ => apply sv_await_ok in H; simplify_eq
    | H : sv_clock _ = (Ok _, _) |- _ => apply sv_clock_ok in H as [? ?]; simplify_eq
    | H : sv_query _ _ _ = (Ok _, _) |- _ => apply sv_query_ok in H as [? ?]; simplify_eq
    | H : sv_tx _ _ _ = (Ok _, _) |- _ => apply sv_tx_ok in H as (? & ? & ?); simplify_eq
    | H : sv_disconnectDevice _ _ _ _ = (Ok _, _) |- _ => apply sv_disconnectDevice_ok in H; simplify_eq
    end).

(** A server nobody else uses meanwhile. *)
Definition alone {B} : nat → Server B → Server B := λ _ s, s.
Lemma resumed_alone {B} (s : Server B) : sv_world (resumed alone s) = sv_world s ∧ sv_now (resumed alone s) = sv_now s.
Proof. done. Qed.
