(* ===== verification/Identity.v ===== *)
(** * Accounts and device sessions ([identity/identity.service.ts],
    [common/strategies/jwt.strategy.ts])

    An account is known by its mail address and its public identifiers; every
    device of it has one row of [DeviceSession], which holds the hashes of the
    refresh token that is current and of the one before.  An access token counts
    only while its session is neither revoked nor expired.

    bcrypt, the signing of tokens, the salts and the random bytes are not code of
    this program: [Credentials] holds the functions, and each method takes what
    it draws. *)

From S2P Require Import Prelude Tables JsText Json Schema Storage Presence Server.
Local Open Scope Z_scope.

(** ** Random identifiers *)

Definition UID_ALPHABET : text := lit "ABCDEFGHJKMNPQRSTUVWXYZ23456789".
Definition UID_LENGTH : nat := 8.
Definition uid_limit : Z := 256 `div` Z.of_nat (length UID_ALPHABET) * Z.of_nat (length UID_ALPHABET).
Definition uid_symbol (byte : Z) : Z := default 0 (UID_ALPHABET !! Z.to_nat (byte mod Z.of_nat (length UID_ALPHABET))).

(** One pass of [for (const byte of randomBytes(UID_LENGTH))] *)
Fixpoint uid_pass (value : text) (bytes : list Z) : text :=
  match bytes with
  | [] => value
  | byte :: bytes' =>
      if uid_limit <=? byte then uid_pass value bytes'
      else let value' := value ++ [uid_symbol byte] in
           if bool_decide (length value' = UID_LENGTH) then value' else uid_pass value' bytes'
  end.
(** The [while] loop over the blocks that [randomBytes] returns; [None] when
    the list of blocks ends first. *)
Fixpoint uid_loop (value : text) (blocks : list (list Z)) : option text :=
  if bool_decide (length value < UID_LENGTH)%nat then
    match blocks with [] => None | bytes :: blocks' => uid_loop (uid_pass value bytes) blocks' end
  else Some value.
(** [generateUid] *)
Definition generateUid (blocks : list (list Z)) : option text := app (lit "OC-") <$> uid_loop [] blocks.

(** [toString('hex').toUpperCase()] *)
Definition hex_digit (n : Z) : Z := if n <? 10 then 48 + n else 55 + n.
Definition generateFriendCode (bytes : list Z) : text := bytes ≫= λ b, [hex_digit (b `div` 16); hex_digit (b mod 16)].

(** The symbols of the bytes below the limit, in order. *)
Definition uid_symbols (bytes : list Z) : text := uid_symbol <$> filter (λ b, b < uid_limit) bytes.
Lemma uid_pass_spec value bytes : (length value < UID_LENGTH)%nat → uid_pass value bytes = take UID_LENGTH (value ++ uid_symbols bytes).
Proof.
  revert value. induction bytes as [|b bytes IH]; intros value Hv; cbn [uid_pass].
  - unfold uid_symbols. by rewrite filter_nil, app_nil_r, take_ge by lia.
  - unfold uid_symbols. rewrite filter_cons. destruct (uid_limit <=? b) eqn:Hb; bool_inv.
    + rewrite decide_False by lia. by apply IH.
    + rewrite decide_True by lia. cbv zeta. rewrite fmap_cons. fold (uid_symbols bytes).
      set (value' := value ++ [uid_symbol b]). replace (value ++ uid_symbol b :: uid_symbols bytes) with (value' ++ uid_symbols bytes)
        by (unfold value'; by rewrite <- (assoc_L app)).
      assert (length value' = S (length value)) as Hlen by (unfold value'; rewrite length_app; simpl; lia).
      case_bool_decide as H8; [by rewrite take_app_length'|]. apply IH. lia.
Qed.
Lemma uid_loop_spec value blocks : (length value <= UID_LENGTH)%nat →
  uid_loop value blocks = if bool_decide (UID_LENGTH <= length (value ++ uid_symbols (mjoin blocks)))%nat
                          then Some (take UID_LENGTH (value ++ uid_symbols (mjoin blocks))) else None.
Proof.
  revert value. induction blocks as [|bytes blocks IH]; intros value Hv; cbn [uid_loop].
  - change (mjoin []) with (@nil Z). unfold uid_symbols. rewrite filter_nil, app_nil_r. repeat case_bool_decide; try lia; [done|]. by rewrite take_ge by lia.
  - change (mjoin (bytes :: blocks)) with (bytes ++ mjoin blocks).
    assert (uid_symbols (bytes ++ mjoin blocks) = uid_symbols bytes ++ uid_symbols (mjoin blocks)) as -> by (unfold uid_symbols; by rewrite filter_app, fmap_app).
    destruct (bool_decide_reflect (length value < UID_LENGTH)%nat) as [Hlt|Hge].
    + rewrite IH, uid_pass_spec by (try done; rewrite ?uid_pass_spec, ?length_take; lia).
      rewrite (assoc_L app). set (w := value ++ uid_symbols bytes). set (rest := uid_symbols (mjoin blocks)).
      destruct (decide (length w <= UID_LENGTH)%nat) as [Hw|Hw]; [by rewrite (take_ge w) by done|].
      rewrite !bool_decide_eq_true_2 by (rewrite length_app, ?length_take; lia). f_equal.
      rewrite !take_app_le by (rewrite ?length_take; lia). by rewrite take_take, Nat.min_id.
    + rewrite bool_decide_eq_true_2 by (rewrite length_app; lia). assert (length value = UID_LENGTH) as H8 by lia.
      by rewrite take_app_length'.
Qed.

(** [generateUid] is rejection sampling: the identifier is [OC-] with the
    symbols of the first eight random bytes below 248, however the bytes come in
    blocks; it waits for more blocks only while there are fewer. *)
Theorem generateUid_samples blocks : generateUid blocks =
  if bool_decide (UID_LENGTH <= length (uid_symbols (mjoin blocks)))%nat then Some (lit "OC-" ++ take UID_LENGTH (uid_symbols (mjoin blocks))) else None.
Proof. unfold generateUid. rewrite uid_loop_spec by (simpl; lia). rewrite app_nil_l. by case_bool_decide. Qed.

Lemma uid_symbol_in b : uid_symbol b ∈ UID_ALPHABET.
Proof.
  unfold uid_symbol. pose proof (Z.mod_pos_bound b (Z.of_nat (length UID_ALPHABET)) ltac:(by vm_compute)) as Hb.
  destruct (UID_ALPHABET !! Z.to_nat (b mod Z.of_nat (length UID_ALPHABET))) eqn:E; [by eapply list_elem_of_lookup_2|].
  apply lookup_ge_None in E. lia.
Qed.

(** Every symbol an identifier can have is one of the 31, and every one of
    them stands for the same number of bytes: no symbol is likelier. *)
Theorem uid_symbols_are_uniform c :
  length (filter (λ b, b < uid_limit ∧ uid_symbol b = c) (seqZ 0 256)) = if bool_decide (c ∈ UID_ALPHABET) then 8%nat else 0%nat.
Proof.
  case_bool_decide as Hc.
  - assert (forallb (λ c, Nat.eqb (length (filter (λ b, b < uid_limit ∧ uid_symbol b = c) (seqZ 0 256))) 8) UID_ALPHABET = true) as Hall
      by (vm_compute; reflexivity).
    rewrite forallb_forall in Hall. by apply Nat.eqb_eq, Hall, list_elem_of_In.
  - apply length_zero_iff_nil. destruct (filter _ _) as [|b l] eqn:Hf; [done|].
    assert (b ∈ filter (λ b, b < uid_limit ∧ uid_symbol b = c) (seqZ 0 256)) as Hin by (rewrite Hf; by left).
    apply list_elem_of_filter in Hin as [[_ <-] _]. by destruct (Hc (uid_symbol_in b)).
Qed.

(** ** Durations *)

(** [/^(\d+)([smhd])$/] *)
Definition is_digit (c : Z) : bool := (48 <=? c) && (c <=? 57).
Definition digits_value (l : text) : Z := foldl (λ n c, 10 * n + (c - 48)) 0 l.
Definition unit_ms (c : Z) : option Z :=
  if c =? 115 then Some 1000 else if c =? 109 then Some 60000 else if c =? 104 then Some 3600000 else if c =? 100 then Some 86400000 else None.
Definition duration (value : text) : option Z :=
  match reverse value with
  | u :: ds => if negb (bool_decide (ds = [])) && forallb is_digit ds then (λ m, digits_value (reverse ds) * m) <$> unit_ms u else None
  | [] => None
  end.
(** The last instant a [Date] can hold; later ones are the invalid date, which
    Prisma refuses to store.  Every product below it is exact in a binary64. *)
Definition MAX_DATE : Z := 8640000000000000.
(** [parseExpiry]: [None] when it throws, [Some None] for the invalid date *)
Definition parseExpiry (value : text) (now : instant) : option (option instant) :=
  (λ ms, if now + ms <=? MAX_DATE then Some (now + ms) else None) <$> duration value.

(** ** Requests *)

Class Credentials := {
  (** [bcrypt.hash] with its salt, [bcrypt.compare] *)
  bcrypt_hash : text → text → text;
  bcrypt_compare : text → text → bool;
  (** [signAsync({ sub, email, deviceId })] at an instant, and with the refresh
      secret and a [jti] *)
  sign_access : rowid → text → rowid → instant → text;
  sign_refresh : rowid → text → rowid → string → instant → text;
}.

Record RegisterDto := mkRegisterDto { rd_email : text; rd_username : text; rd_password : text; rd_deviceId : rowid }.
Record LoginDto := mkLoginDto { ld_email : text; ld_password : text; ld_deviceId : rowid }.
(** What a request draws for the tokens it issues. *)
Record Fresh := mkFresh { fr_salt : text; fr_jti : string; fr_sessionId : rowid }.
(** ... and for one attempt to create an account. *)
Record Draw := mkDraw { dr_userId : rowid; dr_blocks : list (list Z); dr_bytes : list Z }.
Record PublicTokens := mkPublicTokens { tk_access : text; tk_refresh : text }.

Definition EMAIL_ALREADY_EXISTS : exc := ConflictException "EMAIL_ALREADY_EXISTS".
Definition UID_FAILED : exc := ConflictException "SOCIAL_UID_GENERATION_FAILED".
Definition ACCOUNT_SUSPENDED : exc := ForbiddenException "ACCOUNT_SUSPENDED".
Definition invalid_date : exc := ErrorException "PrismaClientValidationError".
Definition no_user : exc := ErrorException "P2003".

(** ** Rows *)

Definition of_device (userId deviceId : rowid) (s : DeviceSession) : bool := (ds_userId s == userId) && (ds_deviceId s == deviceId).
(** [findUnique({ where: { userId_deviceId } })] *)
Definition session_of (userId deviceId : rowid) (d : DB) : option (rowid * DeviceSession) :=
  find_unique (λ _ s, of_device userId deviceId s) (db_deviceSessions d).
Definition device_clash (a b : DeviceSession) : bool := of_device (ds_userId a) (ds_deviceId a) b.
(** [deviceSession.update({ where: { id }, data })]; [lastUsedAt] is written
    with every update. *)
Definition update_session (k : rowid) (now : instant) (f : DeviceSession → DeviceSession) : Tx DB unit :=
  row ← gets (λ d, db_deviceSessions d !! k);
  s ← require_some row P2025;
  modify (λ d, d <| db_deviceSessions := <[k := (f s) <| ds_lastUsedAt := now |>]> (db_deviceSessions d) |>).
Definition update_sessions (p : DeviceSession → bool) (now : instant) (f : DeviceSession → DeviceSession) (d : DB) : DB :=
  d <| db_deviceSessions := update_many (λ _ s, p s) (λ s, (f s) <| ds_lastUsedAt := now |>) (db_deviceSessions d) |>.
(** [{ revokedAt, csrfTokenHash: null }] *)
Definition revoke (revokedAt : instant) (s : DeviceSession) : DeviceSession := s <| ds_revokedAt := Some revokedAt |> <| ds_csrfTokenHash := None |>.

(** [deviceSession.upsert] of [createSessionTokens] *)
Definition create_session (k userId deviceId : rowid) (hash : text) (expiresAt now : instant) : Tx DB unit :=
  user ← gets (λ d, db_users d !! userId);
  require_some user no_user ;;
  modify_or (λ d, m ← create_row device_clash k (mkDeviceSession userId deviceId hash None None now now expiresAt None) (db_deviceSessions d);
                  Some (d <| db_deviceSessions := m |>)) (P2002 "id").
Definition upsert_session (k userId deviceId : rowid) (hash : text) (expiresAt now : instant) : Tx DB unit :=
  found ← gets (session_of userId deviceId);
  match found with
  | Some (k', _) => update_session k' now (λ s, s <| ds_refreshTokenHash := hash |> <| ds_previousRefreshTokenHash := None |>
      <| ds_csrfTokenHash := None |> <| ds_expiresAt := expiresAt |> <| ds_revokedAt := None |>)
  | None => create_session k userId deviceId hash expiresAt now
  end.

(** The unique indexes of [User] that a new row would violate. *)
Definition violated (u : User) (d : DB) : list string :=
  let taken (f : User → text) := exists_where (λ _ u', f u' == f u) (db_users d) in
  (if taken u_uid then ["uid"] else []) ++ (if taken u_normalizedEmail then ["normalizedEmail"] else [])
  ++ (if taken u_friendCode then ["friendCode"] else []).

(** [isUniqueConflict] *)
Definition isUniqueConflict (e : exc) (field : string) : bool := match e with P2002 target => target == field | _ => false end.

Section identity.
Context {Hscan : ScanOrder} `{!Credentials} {B : Type}.
Variable others : nat → Server B → Server B.
Variable toLowerCase : text → text.
(** Which of several violated indexes the database reports. *)
Variable reported : list string → string.
(** JWT_REFRESH_EXPIRATION, by default [7d] *)
Variable refreshExpiration : text.
Abbreviation Srv := (Server B).

(** [normalizeEmail] *)
Definition normalizeEmail (email : text) : text := toLowerCase (trim email).

(** ** Tokens *)

(** [issueTokens]: the tokens and [refreshExpiresAt] *)
Definition issueTokens (userId : rowid) (email : text) (deviceId : rowid) (jti : string) : Act Srv (PublicTokens * option instant) :=
  now ← sv_clock;
  let tokens := mkPublicTokens (sign_access userId email deviceId now) (sign_refresh userId email deviceId jti now) in
  sv_await others ;;
  now' ← sv_clock;
  expiresAt ← act_require_some (parseExpiry refreshExpiration now') (ErrorException "JWT_REFRESH_EXPIRATION");
  mret (tokens, expiresAt).

(** [createSessionTokens] *)
Definition createSessionTokens (userId : rowid) (email : text) (deviceId : rowid) (fresh : Fresh) : Act Srv PublicTokens :=
  issued ← issueTokens userId email deviceId (fr_jti fresh);
  let '(tokens, expiry) := issued in
  sv_await others ;;
  let refreshTokenHash := bcrypt_hash (fr_salt fresh) (tk_refresh tokens) in
  expiresAt ← act_require_some expiry invalid_date;
  now ← sv_clock;
  sv_tx others (upsert_session (fr_sessionId fresh) userId deviceId refreshTokenHash expiresAt now) ;;
  mret tokens.

(** [rotateSessionTokens] *)
Definition rotateSessionTokens (sessionId userId : rowid) (email : text) (deviceId : rowid) (fresh : Fresh) : Act Srv PublicTokens :=
  issued ← issueTokens userId email deviceId (fr_jti fresh);
  let '(tokens, expiry) := issued in
  sv_await others ;;
  let refreshTokenHash := bcrypt_hash (fr_salt fresh) (tk_refresh tokens) in
  row ← sv_query others (λ d, db_deviceSessions d !! sessionId);
  session ← act_require_some row P2025;
  expiresAt ← act_require_some expiry invalid_date;
  now ← sv_clock;
  sv_tx others (update_session sessionId now (λ s, s <| ds_refreshTokenHash := refreshTokenHash |>
    <| ds_previousRefreshTokenHash := Some (ds_refreshTokenHash session) |> <| ds_expiresAt := expiresAt |> <| ds_revokedAt := None |>)) ;;
  mret tokens.

(** [findMatchingSession]; a comparison is awaited only when there is a hash. *)
Fixpoint findMatchingSession (sessions : list (rowid * DeviceSession)) (token : text) (field : DeviceSession → option text)
    : Act Srv (option (rowid * DeviceSession)) :=
  match sessions with
  | [] => mret None
  | session :: sessions' =>
      match field session.2 with
      | Some hash => sv_await others ;; if bcrypt_compare token hash then mret (Some session) else findMatchingSession sessions' token field
      | None => findMatchingSession sessions' token field
      end
  end.

(** ** Registration and login *)

Definition create_user (reported : list string → string) (k : rowid) (u : User) : Tx DB (rowid * User) :=
  bad ← gets (violated u);
  require (bool_decide (bad = [])) (P2002 (reported bad)) ;;
  taken ← gets (λ d, is_set (db_users d !! k));
  require (negb taken) (P2002 "id") ;;
  modify (λ d, d <| db_users := <[k := u]> (db_users d) |>
                 <| db_profiles := <[k := mkUserProfile (Some (u_username u)) None None false]> (db_profiles d) |>) ;;
  mret (k, u).

(** [createUserWithUniquePublicIdentity]; attempt [n] draws [draw n]. *)
Definition attempt_user (email normalizedEmail username passwordHash : text) (draw : Draw) : Act Srv (rowid * User) :=
  uid ← act_require_some (generateUid (dr_blocks draw)) (ErrorException "random bytes");
  now ← sv_clock;
  sv_tx others (create_user reported (dr_userId draw) (mkUser uid email normalizedEmail username passwordHash
    (generateFriendCode (dr_bytes draw)) USER ACTIVE None None None 0 now None)).
Fixpoint attempts (left attempt : nat) (create : nat → Act Srv (rowid * User)) : Act Srv (rowid * User) :=
  match left with
  | O => act_throw UID_FAILED
  | S left' => act_catch (create attempt) (λ error,
      if isUniqueConflict error "uid" || isUniqueConflict error "friendCode"
      then if bool_decide (attempt = 4)%nat then act_throw UID_FAILED else attempts left' (S attempt) create
      else act_throw error)
  end.
Definition createUserWithUniquePublicIdentity (email normalizedEmail username passwordHash : text) (draw : nat → Draw) : Act Srv (rowid * User) :=
  attempts 5 0 (λ n, attempt_user email normalizedEmail username passwordHash (draw n)).

(** [register] *)
Definition register (dto : RegisterDto) (passwordSalt : text) (draw : nat → Draw) (fresh : Fresh) : Act Srv (rowid * User * PublicTokens) :=
  let normalizedEmail := normalizeEmail (rd_email dto) in
  existing ← sv_query others (λ d, find_unique (λ _ u, u_normalizedEmail u == normalizedEmail) (db_users d));
  act_require (negb (is_set existing)) EMAIL_ALREADY_EXISTS ;;
  sv_await others ;;
  let passwordHash := bcrypt_hash passwordSalt (rd_password dto) in
  user ← act_catch (createUserWithUniquePublicIdentity (trim (rd_email dto)) normalizedEmail (trim (rd_username dto)) passwordHash draw)
    (λ error, if isUniqueConflict error "normalizedEmail" then act_throw EMAIL_ALREADY_EXISTS else act_throw error);
  tokens ← createSessionTokens user.1 (u_email user.2) (rd_deviceId dto) fresh;
  mret (user, tokens).

(** [login] *)
Definition login (dto : LoginDto) (fresh : Fresh) : Act Srv (rowid * User * PublicTokens) :=
  row ← sv_query others (λ d, find_unique (λ _ u, u_normalizedEmail u == normalizeEmail (ld_email dto)) (db_users d));
  user ← act_require_some row UnauthorizedException;
  sv_await others ;;
  act_require (bcrypt_compare (ld_password dto) (u_passwordHash user.2)) UnauthorizedException ;;
  act_require (u_accountStatus user.2 == ACTIVE) ACCOUNT_SUSPENDED ;;
  tokens ← createSessionTokens user.1 (u_email user.2) (ld_deviceId dto) fresh;
  mret (user, tokens).

(** ** Refresh and logout *)

(** [findMany({ where: { deviceId }, include: { user } })] *)
Definition sessions_on (deviceId : rowid) (d : DB) : list (rowid * DeviceSession) := find_many (λ _ s, ds_deviceId s == deviceId) (db_deviceSessions d).
(** [activeSession], with the user the query included *)
Definition refreshable (now : instant) (s : DeviceSession) (user : option User) : bool :=
  negb (is_set (ds_revokedAt s)) && (now <? ds_expiresAt s) && match user with Some u => u_accountStatus u == ACTIVE | None => false end.

(** [refreshToken] *)
Definition refreshToken (token : text) (deviceId : rowid) (fresh : Fresh) : Act Srv PublicTokens :=
  found ← sv_query others (λ d, (sessions_on deviceId d, db_users d));
  let '(sessions, users) := found in
  reused ← findMatchingSession sessions token ds_previousRefreshTokenHash;
  match reused with
  | Some (k, s) =>
      now ← sv_clock;
      sv_tx others (update_session k now (revoke now)) ;;
      sv_disconnectDevice others (ds_userId s) deviceId ;;
      act_throw UnauthorizedException
  | None =>
      active ← findMatchingSession sessions token (λ s, Some (ds_refreshTokenHash s));
      session ← act_require_some active UnauthorizedException;
      let '(k, s) := session in
      now ← sv_clock;
      user ← act_require_some (users !! ds_userId s) UnauthorizedException;
      act_require (refreshable now s (Some user)) UnauthorizedException ;;
      rotateSessionTokens k (ds_userId s) (u_email user) deviceId fresh
  end.

(** [logout] *)
Definition logout (userId accessTokenDeviceId deviceId : rowid) : Act Srv unit :=
  act_require (accessTokenDeviceId == deviceId) (ForbiddenException "DEVICE_SESSION_MISMATCH") ;;
  now ← sv_clock;
  sv_tx others (modify (update_sessions (λ s, of_device userId deviceId s && negb (is_set (ds_revokedAt s))) now (revoke now))) ;;
  sv_disconnectDevice others userId deviceId.

(** [getProfile]: the user and the profile row *)
Definition getProfile (userId : rowid) : Act Srv (User * option UserProfile) :=
  found ← sv_query others (λ d, (λ u, (u, db_profiles d !! userId)) <$> db_users d !! userId);
  act_require_some found UnauthorizedException.
End identity.

(** ** Access tokens *)

Record Principal := mkPrincipal { pc_id : rowid; pc_email : text; pc_username : text; pc_deviceId : rowid }.

(** [JwtStrategy.validate], of the payload of a token whose signature and
    expiry passport-jwt has verified: its two queries find the database in
    states [d] and [d'] *)
Definition validate_token (sub deviceId : rowid) (now : instant) (d d' : DB) : result Principal :=
  if deviceId == "" then Err UnauthorizedException
  else match session_of sub deviceId d with
  | Some (_, s) =>
      if is_set (ds_revokedAt s) || (ds_expiresAt s <=? now) then Err UnauthorizedException
      else match db_users d' !! sub with
      | Some u => if u_accountStatus u == ACTIVE then Ok (mkPrincipal sub (u_email u) (u_username u) deviceId) else Err UnauthorizedException
      | None => Err UnauthorizedException
      end
  | None => Err UnauthorizedException
  end.
