(* ===== verification/Browser.v ===== *)
(** * Browser sessions ([common/browser-security.service.ts],
    [common/guards/browser-*.guard.ts], [portal/browser-auth.service.ts], and the
    cookie extractor of [common/strategies/jwt.strategy.ts])

    The portal keeps its tokens in cookies.  A request that changes something and
    carries the access cookie must come from an allowed origin and repeat the
    CSRF token that was bound to its session at login. *)

From S2P Require Import Prelude Tables JsText Json Schema Storage Presence Server Identity.
Local Open Scope Z_scope.

(** ** [decodeURIComponent] *)

Definition hex_value (c : Z) : option Z :=
  if (48 <=? c) && (c <=? 57) then Some (c - 48)
  else if (65 <=? c) && (c <=? 70) then Some (c - 55)
  else if (97 <=? c) && (c <=? 102) then Some (c - 87) else None.
(** [%XX] at the head of the text *)
Definition percent_byte (l : text) : option (Z * text) :=
  match l with
  | c :: h :: k :: l' => if c =? 37 then a ← hex_value h; b ← hex_value k; Some (16 * a + b, l') else None
  | _ => None
  end.
Fixpoint continuation (n : nat) (value : Z) (l : text) : option (Z * text) :=
  match n with
  | O => Some (value, l)
  | S n => '(b, l') ← percent_byte l;
           if (128 <=? b) && (b <=? 191) then continuation n (64 * value + (b - 128)) l' else None
  end.
(** The code point whose UTF-8 form starts with byte [b]: no overlong form, no
    surrogate, nothing beyond U+10FFFF. *)
Definition utf8_point (b : Z) (l : text) : option (Z * text) :=
  if b <=? 127 then Some (b, l)
  else if (192 <=? b) && (b <=? 223) then '(v, l') ← continuation 1 (b - 192) l; if 128 <=? v then Some (v, l') else None
  else if (224 <=? b) && (b <=? 239) then
    '(v, l') ← continuation 2 (b - 224) l; if (2048 <=? v) && negb ((55296 <=? v) && (v <=? 57343)) then Some (v, l') else None
  else if (240 <=? b) && (b <=? 247) then '(v, l') ← continuation 3 (b - 240) l; if (65536 <=? v) && (v <=? 1114111) then Some (v, l') else None
  else None.
Definition utf16 (v : Z) : text := if v <? 65536 then [v] else [55296 + (v - 65536) `div` 1024; 56320 + (v - 65536) mod 1024].
(** [None] when it throws; every step consumes a code unit, so that [length l]
    is fuel enough. *)
Fixpoint decode_from (fuel : nat) (l : text) : option text :=
  match fuel, l with
  | _, [] => Some []
  | O, _ => None
  | S fuel, c :: l' =>
      if c =? 37 then
        '(b, l1) ← percent_byte l; '(v, l2) ← utf8_point b l1; app (utf16 v) <$> decode_from fuel l2
      else cons c <$> decode_from fuel l'
  end.
Definition decodeURIComponent (l : text) : option text := decode_from (length l) l.

(** ** Cookies *)

(** The text before the first [c], and the text after it. *)
Fixpoint cut (c : Z) (l : text) : option (text * text) :=
  match l with
  | [] => None
  | d :: l' => if d =? c then Some ([], l') else '(a, b) ← cut c l'; Some (d :: a, b)
  end.
Definition semicolon : Z := 59.
Definition equals : Z := 61.

(** [cookies[key] = value] on a plain object; a string assigned to [__proto__]
    is dropped. *)
Definition set_cookie (key value : text) (cookies : gmap text text) : gmap text text :=
  if key == lit "__proto__" then cookies else <[key := value]> cookies.
Definition add_cookie (cookies : gmap text text) (part : text) : gmap text text :=
  match cut equals part with
  | Some ((_ :: _) as before, after) =>
      let raw := trim after in set_cookie (trim before) (default raw (decodeURIComponent raw)) cookies
  | _ => cookies
  end.
(** [parseCookies] *)
Definition parseCookies (header : option text) : gmap text text :=
  match header with
  | Some h => if truthy h then foldl add_cookie ∅ (split_on semicolon [] h) else ∅
  | None => ∅
  end.

(** [BROWSER_COOKIE_NAMES] *)
Definition access_cookie : text := lit "oc_access".
Definition refresh_cookie : text := lit "oc_refresh".
Definition device_cookie : text := lit "oc_device".
Definition csrf_cookie : text := lit "oc_csrf".

(** The extractor of [JwtStrategy]: the first part of that name. *)
Fixpoint access_from_parts (parts : list text) : option text :=
  match parts with
  | [] => None
  | part :: parts' =>
      let '(name, value) := default (trim part, []) (cut equals (trim part)) in
      if name == access_cookie then decodeURIComponent value else access_from_parts parts'
  end.
Definition token_from_cookie (header : option text) : option text :=
  match header with
  | Some h => if truthy h then access_from_parts (split_on semicolon [] h) else None
  | None => None
  end.
(** [ExtractJwt.fromExtractors]: the bearer token, or else the cookie *)
Definition jwtFromRequest (bearer cookie : option text) : option text :=
  if truthy_opt bearer then bearer else token_from_cookie cookie.

(** ** Origins *)

(** What [new URL(value)] says of a text, if it parses. *)
Record Url := mkUrl { url_protocol : text; url_username : text; url_password : text; url_pathname : text; url_search : text; url_hash : text; url_origin : text }.

Definition ORIGIN_NOT_ALLOWED : exc := ForbiddenException "ORIGIN_NOT_ALLOWED".
Definition csrfFailure : exc := ForbiddenException "CSRF_VALIDATION_FAILED".

Section origins.
Variable parse_url : text → option Url.

(** [normalizeOrigin] *)
Definition normalizeOrigin (value : text) : option text :=
  u ← parse_url value;
  if (bool_decide (url_protocol u ∈ [lit "http:"; lit "https:"])) && negb (truthy (url_username u)) && negb (truthy (url_password u))
     && (url_pathname u == lit "/") && negb (truthy (url_search u)) && negb (truthy (url_hash u))
  then Some (url_origin u) else None.
(** The constructor: [None] when it throws. *)
Definition comma : Z := 44.
Definition configured (portalOrigins corsOrigin : option text) : list text :=
  filter (λ v, truthy v = true)
    (trim <$> (split_on comma [] (default [] portalOrigins) ++ split_on comma [] (default (lit "http://localhost:3000") corsOrigin))).
Definition browser_origins (portalOrigins corsOrigin : option text) : option (list text) :=
  mapM normalizeOrigin (configured portalOrigins corsOrigin).
(** [isAllowedOrigin] *)
Definition isAllowedOrigin (origins : list text) (origin : option text) : bool :=
  match origin with
  | Some o => if truthy o then match normalizeOrigin o with Some n => bool_decide (n ∈ origins) | None => false end else false
  | None => false
  end.
End origins.

(** ** CSRF *)

Record SetCookie := mkSetCookie {
  sc_name : text; sc_value : text; sc_httpOnly : bool; sc_secure : bool; sc_lax : bool; sc_maxAge : Z; sc_path : text }.
(** [request.headers], with the principal passport attached *)
Record Request := mkRequest {
  rq_method : string; rq_origin : option text; rq_cookie : option text; rq_csrf : option text; rq_user : option (rowid * rowid) }.

Record BrowserConfig := mkBrowserConfig {
  bc_origins : list text; bc_sameSite : option text; bc_secure : option text; bc_accessExpiration : text }.

Section browser.
Context {Hscan : ScanOrder} `{!Credentials} {B : Type}.
Variable others : nat → Server B → Server B.
Variable toLowerCase : text → text.
Variable sha256_hex : text → text.
Variable parse_url : text → option Url.
Variable refreshExpiration : text.
Variable config : BrowserConfig.
(** [jwt.verifyAsync] under the refresh secret: the [sub] and [deviceId] *)
Variable verify_refresh : text → instant → option (rowid * rowid).
Abbreviation Srv := (Server B).

(** [requireAllowedOrigin], which is all of [BrowserOriginGuard] *)
Definition requireAllowedOrigin (request : Request) : Act Srv unit :=
  act_require (isAllowedOrigin parse_url (bc_origins config) (rq_origin request)) ORIGIN_NOT_ALLOWED.

(** [bindCsrfToken] *)
Definition bindCsrfToken (userId deviceId : rowid) (token : text) : Act Srv unit :=
  now ← sv_clock;
  sv_tx others (found ← gets (session_of userId deviceId);
                session ← require_some found P2025;
                update_session session.1 now (λ s, s <| ds_csrfTokenHash := Some (sha256_hex token) |>)).

(** The test of [requireCsrf] on the session found. *)
Definition csrf_bound (headerHash : text) (now : instant) (s : DeviceSession) : bool :=
  negb (is_set (ds_revokedAt s)) && (now <? ds_expiresAt s) && truthy_opt (ds_csrfTokenHash s) && (ds_csrfTokenHash s == Some headerHash).
(** [requireCsrf] *)
Definition requireCsrf (userId deviceId : rowid) (headerToken cookieToken : option text) : Act Srv unit :=
  header ← act_require_some headerToken csrfFailure;
  cookie ← act_require_some cookieToken csrfFailure;
  act_require (sha256_hex header == sha256_hex cookie) csrfFailure ;;
  found ← sv_query others (session_of userId deviceId);
  session ← act_require_some found csrfFailure;
  now ← sv_clock;
  act_require (csrf_bound (sha256_hex header) now session.2) csrfFailure.

(** [BrowserCsrfGuard.canActivate] *)
Definition SAFE_METHODS : list string := ["GET"; "HEAD"; "OPTIONS"].
Definition canActivate (isPublic : bool) (request : Request) : Act Srv unit :=
  if bool_decide (rq_method request ∈ SAFE_METHODS) then mret ()
  else if isPublic then mret ()
  else
    let cookies := parseCookies (rq_cookie request) in
    if negb (truthy_opt (cookies !! access_cookie)) then mret ()
    else
      requireAllowedOrigin request ;;
      let user := default ("", "") (rq_user request) in
      requireCsrf user.1 user.2 (rq_csrf request) (cookies !! csrf_cookie).

(** ** The portal's login *)

(** [cookieOptions] *)
Definition cookieOptions (name value : text) (maxAgeMs : Z) (httpOnly : bool) (path : string) : SetCookie :=
  mkSetCookie name value httpOnly (default (lit "true") (bc_secure config) != lit "false")
    (toLowerCase (default (lit "strict") (bc_sameSite config)) == lit "lax") maxAgeMs (lit path).
Definition max_age (value : text) : Act Srv Z := act_require_some (duration value) (ErrorException "JWT expiration").
(** [setTokenCookies], [setCookies], [clearCookies] *)
Definition setTokenCookies (tokens : PublicTokens) : Act Srv (list SetCookie) :=
  accessMaxAge ← max_age (bc_accessExpiration config);
  refreshMaxAge ← max_age refreshExpiration;
  mret [cookieOptions access_cookie (tk_access tokens) accessMaxAge true "/api";
        cookieOptions refresh_cookie (tk_refresh tokens) refreshMaxAge true "/api/portal/auth"].
Definition setCookies (tokens : PublicTokens) (deviceId : rowid) (csrfToken : text) : Act Srv (list SetCookie) :=
  cookies ← setTokenCookies tokens;
  refreshMaxAge ← max_age refreshExpiration;
  mret (cookies ++ [cookieOptions device_cookie (lit deviceId) refreshMaxAge true "/api/portal/auth";
                    cookieOptions csrf_cookie csrfToken refreshMaxAge false "/"]).
Definition clearCookies : list SetCookie :=
  [cookieOptions access_cookie [] 0 true "/api"; cookieOptions refresh_cookie [] 0 true "/api/portal/auth";
   cookieOptions device_cookie [] 0 true "/api/portal/auth"; cookieOptions csrf_cookie [] 0 false "/"].

(** [login]; [deviceId] is the [randomUUID()], [csrfToken] the random
    token, [auditId] the id of the audit row *)
Definition record_audit (l : AuditLog) : Tx DB unit := modify (λ d, d <| db_auditLogs := db_auditLogs d ++ [l] |>).
Definition portal_login (email password : text) (deviceId : rowid) (csrfToken : text) (auditId : rowid) (fresh : Fresh)
    : Act Srv (rowid * User * UserRole * list SetCookie) :=
  result ← login others toLowerCase refreshExpiration (mkLoginDto email password deviceId) fresh;
  let '(user, tokens) := result in
  bindCsrfToken user.1 deviceId csrfToken ;;
  account ← sv_query others (λ d, u_role <$> db_users d !! user.1);
  now ← sv_clock;
  (if account == Some SUPERADMIN
   then sv_tx others (record_audit (mkAuditLog auditId user.1 "ADMIN_LOGIN" "User" (Some user.1) None
     (Some (JObj [(lit "source", JStr (lit "browser_portal"))])) now)) else mret ()) ;;
  cookies ← setCookies tokens deviceId csrfToken;
  mret (user, default USER account, cookies).

(** [session] *)
Definition portal_session (userId : rowid) : Act Srv (User * option UserProfile * UserRole) :=
  profile ← getProfile others userId;
  account ← sv_query others (λ d, u_role <$> db_users d !! userId);
  role ← act_require_some account UnauthorizedException;
  mret (profile, role).

(** [refresh] *)
Definition portal_refresh (refresh deviceId csrfHeader csrfCookie : option text) (fresh : Fresh) : Act Srv (list SetCookie) :=
  act_require (truthy_opt refresh && truthy_opt deviceId) UnauthorizedException ;;
  let token := default [] refresh in
  sv_await others ;;
  now ← sv_clock;
  payload ← act_require_some (verify_refresh token now) UnauthorizedException;
  let '(sub, payloadDevice) := payload in
  act_require (Some (lit payloadDevice) == deviceId) UnauthorizedException ;;
  requireCsrf sub payloadDevice csrfHeader csrfCookie ;;
  tokens ← refreshToken others refreshExpiration token payloadDevice fresh;
  setTokenCookies tokens.

(** [logout] *)
Definition portal_logout (userId deviceId : rowid) : Act Srv (list SetCookie) :=
  logout others userId deviceId deviceId ;; mret clearCookies.
End browser.

(** ** Reading cookies back *)

(** A code unit of a cookie name, a token or an encoded value without escapes. *)
Definition plain (c : Z) : bool := negb (is_space c) && negb (c =? semicolon) && negb (c =? equals) && negb (c =? 37).
Definition render (cookie : text * text) : text := cookie.1 ++ equals :: cookie.2.
(** The [Cookie] header of a browser. *)
Fixpoint cookie_header (cookies : list (text * text)) : text :=
  match cookies with
  | [] => []
  | [cookie] => render cookie
  | cookie :: cookies' => render cookie ++ semicolon :: 32 :: cookie_header cookies'
  end.
Definition plain_cookie (cookie : text * text) : Prop :=
  Forall (λ c, plain c = true) cookie.1 ∧ Forall (λ c, plain c = true) cookie.2 ∧ cookie.1 ≠ [] ∧ cookie.1 ≠ lit "__proto__".

Section reading.
Implicit Types (l a b : text).

Lemma split_on_app c cur a b : Forall (λ d, d =? c = false) a → split_on c cur (a ++ c :: b) = (reverse cur ++ a) :: split_on c [] b.
Proof.
  intros Ha. revert cur. induction Ha as [|d a Hd Ha IH]; intros cur; simpl.
  - by rewrite Z.eqb_refl, app_nil_r.
  - rewrite Hd, IH, reverse_cons, <- (assoc_L app). done.
Qed.
Lemma split_on_last c cur a : Forall (λ d, d =? c = false) a → split_on c cur a = [reverse cur ++ a].
Proof.
  intros Ha. revert cur. induction Ha as [|d a Hd Ha IH]; intros cur; simpl; [by rewrite app_nil_r|].
  rewrite Hd, IH, reverse_cons, <- (assoc_L app). done.
Qed.
Lemma cut_app c a b : Forall (λ d, d =? c = false) a → cut c (a ++ c :: b) = Some (a, b).
Proof. induction 1 as [|d a Hd Ha IH]; simpl; [by rewrite Z.eqb_refl|]. by rewrite Hd, IH. Qed.
Lemma decode_plain l : Forall (λ c, c =? 37 = false) l → decodeURIComponent l = Some l.
Proof. intros Hl. unfold decodeURIComponent. induction Hl as [|c l Hc Hl IH]; simpl; [done|]. by rewrite Hc, IH. Qed.
Lemma trim_start_plain l : Forall (λ c, is_space c = false) l → trim_start l = l.
Proof. destruct 1 as [|c l Hc]; simpl; [done|]. by rewrite Hc. Qed.
Lemma trim_plain l : Forall (λ c, is_space c = false) l → trim l = l.
Proof. intros Hl. unfold trim. rewrite (trim_start_plain l), trim_start_plain by (by rewrite ?Forall_reverse). apply reverse_involutive. Qed.
Lemma trim_space l : trim ([32] ++ l) = trim l.
Proof. done. Qed.

Lemma plain_parts l : Forall (λ c, plain c = true) l →
  Forall (λ c, is_space c = false) l ∧ Forall (λ c, c =? semicolon = false) l ∧ Forall (λ c, c =? equals = false) l ∧ Forall (λ c, c =? 37 = false) l.
Proof. intros Hl. split_and!; (eapply Forall_impl; [exact Hl|]); unfold plain; intros; bool_inv; done. Qed.

Lemma add_plain cookies name value pre : plain_cookie (name, value) → pre = [] ∨ pre = [32] →
  add_cookie cookies (pre ++ render (name, value)) = <[name := value]> cookies.
Proof.
  intros (Hn & Hv & Hne & Hp) Hpre. apply plain_parts in Hn as (Hns & _ & Hne' & _). apply plain_parts in Hv as (Hvs & _ & _ & Hvp).
  unfold add_cookie, render. simpl in *. rewrite (assoc_L app), cut_app.
  2: { apply Forall_app. split; [|done]. destruct Hpre as [-> | ->]; repeat constructor. }
  assert (trim (pre ++ name) = name) as Htrim by (destruct Hpre as [-> | ->]; [|rewrite trim_space]; by apply trim_plain).
  destruct (pre ++ name) as [|c before] eqn:Hb; [by destruct Hpre as [-> | ->], name|].
  rewrite Htrim, trim_plain, decode_plain by done. unfold set_cookie. by rewrite bool_decide_eq_false_2.
Qed.
Lemma render_no_semicolon pre cookie : plain_cookie cookie → pre = [] ∨ pre = [32] → Forall (λ c, c =? semicolon = false) (pre ++ render cookie).
Proof.
  intros (Hn & Hv & _) Hpre. apply plain_parts in Hn as (_ & Hn & _). apply plain_parts in Hv as (_ & Hv & _).
  unfold render. rewrite !Forall_app, Forall_cons. split_and!; [|done..]. destruct Hpre as [-> | ->]; repeat constructor.
Qed.
Lemma split_header cookies pre : Forall plain_cookie cookies → cookies ≠ [] → pre = [] ∨ pre = [32] →
  ∃ part parts, split_on semicolon [] (pre ++ cookie_header cookies) = part :: parts
    ∧ ∀ m, foldl add_cookie m (part :: parts) = foldl (λ m cookie, <[cookie.1 := cookie.2]> m) m cookies.
Proof.
  intros Hp. revert pre. induction Hp as [|[name value] cookies Hc Hp IH]; intros pre Hne Hpre; [done|].
  destruct cookies as [|cookie2 cookies].
  - eexists _, _. split; [apply split_on_last; by apply render_no_semicolon|]. intros m. simpl. by rewrite add_plain.
  - change (cookie_header ((name, value) :: cookie2 :: cookies)) with (render (name, value) ++ semicolon :: ([32] ++ cookie_header (cookie2 :: cookies))).
    rewrite (assoc_L app), split_on_app by (by apply render_no_semicolon).
    destruct (IH [32]) as (part & parts & -> & Hm); [done|by right|]. eexists _, _. split; [done|].
    intros m. simpl foldl at 1. rewrite (add_plain m name value pre) by done. apply Hm.
Qed.

Lemma parse_header cookies : Forall plain_cookie cookies →
  parseCookies (Some (cookie_header cookies)) = foldl (λ m cookie, <[cookie.1 := cookie.2]> m) ∅ cookies.
Proof.
  intros Hp. destruct cookies as [|[name value] cookies]; [done|]. unfold parseCookies.
  destruct (split_header _ [] Hp) as (part & parts & Hs & Hm); [done|by left|]. rewrite app_nil_l in Hs.
  assert (truthy (cookie_header ((name, value) :: cookies)) = true) as ->.
  { apply Forall_cons in Hp as [(_ & _ & Hne & _) _]. simpl in Hne. destruct name, cookies; done. }
  rewrite Hs. apply Hm.
Qed.

(** [parseCookies] reads a browser's [Cookie] header back: every name maps to
    its value, and to the last one when the header repeats the name. *)
Theorem parseCookies_reads_header cookies : Forall plain_cookie cookies →
  parseCookies (Some (cookie_header cookies)) = foldl (λ m cookie, <[cookie.1 := cookie.2]> m) ∅ cookies.
Proof. apply parse_header. Qed.
Lemma parseCookies_reads_header_witness :
  parseCookies (Some (cookie_header [(access_cookie, lit "a.b.c"); (csrf_cookie, lit "x-1"); (access_cookie, lit "d")]))
  = foldl (λ m cookie, <[cookie.1 := cookie.2]> m) ∅ [(access_cookie, lit "a.b.c"); (csrf_cookie, lit "x-1"); (access_cookie, lit "d")].
Proof.
  apply (parseCookies_reads_header [(access_cookie, lit "a.b.c"); (csrf_cookie, lit "x-1"); (access_cookie, lit "d")]).
  repeat constructor; done.
Defined.
End reading.

(** ** What the CSRF guard checks *)

Section guard.
Context {Hscan : ScanOrder} {B : Type}.
Variable others : nat → Server B → Server B.
Variable sha256_hex : text → text.
Variable parse_url : text → option Url.
Variable config : BrowserConfig.


(** ... but which cookie is the access cookie is decided twice.  When the
    header repeats the name, passport takes the first value and the guard the
    last one: with an empty second cookie a request from anywhere, without any
    CSRF token, passes the guard and is authenticated by the first. *)
Theorem repeated_cookie_passes_guard token method origin user (s : Server B) :
  Forall (λ c, plain c = true) token →
  let cookie := Some (cookie_header [(access_cookie, token); (access_cookie, [])]) in
  canActivate others sha256_hex parse_url config false (mkRequest method origin cookie None user) s = (Ok (), s)
  ∧ jwtFromRequest None cookie = Some token.
Proof.
  intros Ht cookie. assert (plain_cookie (access_cookie, token) ∧ plain_cookie (access_cookie, [])) as [H1 H2].
  { split; split_and!; try done; by repeat constructor. }
  split.
  - assert (parseCookies cookie !! access_cookie = Some []) as Hc.
    { unfold cookie. rewrite parse_header by (by repeat constructor). simpl. by rewrite lookup_insert_eq. }
    unfold canActivate. case_bool_decide; [done|]. change (rq_cookie _) with cookie. by rewrite Hc.
  - unfold cookie, jwtFromRequest, token_from_cookie. simpl truthy_opt. cbv iota.
    assert (cookie_header [(access_cookie, token); (access_cookie, [])] = render (access_cookie, token) ++ semicolon :: (32 :: render (access_cookie, []))) as -> by done.
    replace (truthy _) with true by done. rewrite split_on_app by (by apply (render_no_semicolon [] (access_cookie, token)); [|left]).
    apply plain_parts in Ht as (Hs & Hsc & He & Hp). simpl app. cbn [access_from_parts].
    rewrite trim_plain by (unfold render; rewrite Forall_app, Forall_cons; split_and!; [by repeat constructor|done|done]).
    unfold render. simpl fst. simpl snd. rewrite cut_app by (by repeat constructor). simpl. rewrite decode_plain by done. done.
Qed.
End guard.

Definition demo_request : Request :=
  mkRequest "POST" (Some (lit "https://portal.example")) (Some (cookie_header [(access_cookie, lit "t"); (csrf_cookie, lit "c")])) (Some (lit "c")) (Some ("alice", "laptop")).
Definition demo_url (t : text) : option Url := Some (mkUrl (lit "https:") [] [] (lit "/") [] [] t).
Definition demo_browser : BrowserConfig := mkBrowserConfig [lit "https://portal.example"] None None (lit "15m").
Definition demo_bound : DeviceSession := mkDeviceSession "alice" "laptop" [] None (Some (lit "c")) 0 0 100 None.
Definition demo_browser_server : Server () :=
  mkServer (mkWorld (empty_db <| db_deviceSessions := {["s1" := demo_bound]} |>) []) (mkStorage true (Config.mkStorageCapability true true true) ())
    (mkGateway ∅ ∅ ∅ ∅ ∅ ∅ ∅ ∅ ∅ [] ∅) [] 10 0.
Definition guarded := canActivate alone (λ t, t) demo_url demo_browser false demo_request demo_browser_server.
Lemma repeated_cookie_passes_guard_witness :
  let cookie := Some (cookie_header [(access_cookie, lit "t"); (access_cookie, [])]) in
  canActivate alone (λ t, t) demo_url demo_browser false (mkRequest "POST" (Some (lit "https://evil.example")) cookie None (Some ("alice", "laptop"))) demo_browser_server
  = (Ok (), demo_browser_server)
  ∧ jwtFromRequest None cookie = Some (lit "t").
Proof. apply (repeated_cookie_passes_guard alone (λ t, t) demo_url demo_browser (lit "t")). by repeat constructor. Defined.
