(* ===== verification/Account.v ===== *)
(** * The account in the portal ([portal/portal.service.ts]: devices, password
    and deletion; [portal/account-deletion-cleanup.service.ts])

    A user revokes devices, changes the password, or asks for the account to be
    deleted.  Deletion locks the account at once; its rows and objects go when
    no upload address can still be used, at once or in a later pass of the
    cleanup, which backs off when it fails. *)

From S2P Require Import Prelude Tables JsText Json Schema Interfaces Visit Storage Presence AssetPack Server Identity.
Local Open Scope Z_scope.

Definition ACCOUNT_DELETION_EXPIRY_SAFETY_MS : Z := 5000.
Definition ACCOUNT_DELETION_PACK_BATCH_SIZE : nat := 100.
Definition ACCOUNT_DELETION_RETRY_BASE_MS : Z := 60000.
Definition ACCOUNT_DELETION_MAX_BACKOFF_MS : Z := 60 * 60000.
Definition ACCOUNT_DELETION_MAX_BACKOFF_EXPONENT : Z := 10.

(** [accountDeletionNotBefore] *)
Definition accountDeletionNotBefore (requestedAt : instant) (lastUploadUrlIssuedAt : option instant) (uploadUrlTtlSeconds : Z) : instant :=
  match lastUploadUrlIssuedAt with
  | Some t => Z.max requestedAt (t + uploadUrlTtlSeconds * 1000 + ACCOUNT_DELETION_EXPIRY_SAFETY_MS)
  | None => requestedAt
  end.

(** ** What the account owns *)

Definition owned_companion (userId : rowid) (d : DB) (companionId : rowid) : bool :=
  match db_companions d !! companionId with Some c => co_ownerUserId c == userId | None => false end.
Definition owned_by (userId : rowid) (d : DB) (p : AssetPack) : bool := owned_companion userId d (pk_companionId p).
(** [aggregate]: the count and the latest [lastUploadUrlIssuedAt] *)
Definition latest (a b : option instant) : option instant :=
  match a, b with Some x, Some y => Some (Z.max x y) | Some x, None => Some x | None, _ => b end.
Definition pack_summary (userId : rowid) (d : DB) : nat * option instant :=
  let packs := filter (λ kp, owned_by userId d kp.2 = true) (map_to_list (db_assetPacks d)) in
  (length packs, foldr (λ kp m, latest (pk_lastUploadUrlIssuedAt kp.2) m) None packs).

Definition visit_of (userId : rowid) (s : Session) : bool := (ses_visitorOwnerUserId s == userId) || (ses_hostUserId s == userId).
Definition invitation_of (userId : rowid) (r : Invitation) : bool := (inv_visitorOwnerUserId r == userId) || (inv_hostUserId r == userId).
(** [participants: { some: { userId, state: { not: 'left' } } }] *)
Definition takes_part (userId sessionId : rowid) (d : DB) : bool :=
  exists_where (λ _ p, (par_sessionId p == sessionId) && (par_userId p == userId) && (par_state p != P_left)) (db_participants d).

(** ** The request *)

(** The writes of the transaction of [deleteAccount], in order. *)
Definition lock_user (userId : rowid) (account : User) (at_ : instant) : DB → DB := λ d,
  d <| db_users := <[userId := account <| u_activeNetworkCompanionId := None |> <| u_accountStatus := SUSPENDED |>
         <| u_suspendedAt := Some (default at_ (u_suspendedAt account)) |> <| u_deletionRequestedAt := Some at_ |>
         <| u_deletionNextAttemptAt := Some at_ |> <| u_deletionAttemptCount := 0 |>]> (db_users d) |>.
Definition cancel_invitations (userId : rowid) (at_ now : instant) : DB → DB := λ d,
  d <| db_invitations := update_many (λ _ r, (inv_status r == I_pending) && invitation_of userId r)
         (λ r, r <| inv_status := I_cancelled |> <| inv_cancelledAt := Some at_ |> <| inv_assetPackRefId := None |> <| inv_updatedAt := now |>)
         (db_invitations d) |>.
Definition REQUESTED : string := "account_deletion_requested".
Definition end_visits (userId : rowid) (at_ now : instant) : DB → DB := λ d,
  d <| db_sessions := update_many (λ _ s, bool_decide (ses_state s ∈ [S_active; S_ending]) && visit_of userId s)
         (λ s, s <| ses_state := S_ended |> <| ses_endingAt := Some at_ |> <| ses_endedAt := Some at_ |> <| ses_endReason := Some REQUESTED |>
                 <| ses_assetPackRefId := None |> <| ses_updatedAt := now |>)
         (update_many (λ _ s, bool_decide (ses_state s ∈ [S_preparing; S_ready]) && visit_of userId s)
         (λ s, s <| ses_state := S_cancelled |> <| ses_endedAt := Some at_ |> <| ses_endReason := Some REQUESTED |>
                 <| ses_assetPackRefId := None |> <| ses_updatedAt := now |>) (db_sessions d)) |>.
(** [{ column: { in: ids } }] on a nullable column *)
Definition among (o : option rowid) (ids : list rowid) : bool := match o with Some k => bool_decide (k ∈ ids) | None => false end.
Definition leave_rooms (userId : rowid) (invitations sessions : list rowid) (at_ now : instant) : DB → DB := λ d,
  d <| db_reservations := delete_many (λ k r, (k == userId) || among (res_invitationId r) invitations || among (res_sessionId r) sessions) (db_reservations d) |>
    <| db_participants := update_many (λ _ p, bool_decide (par_sessionId p ∈ sessions) && (par_state p != P_left))
         (λ p, p <| par_state := P_left |> <| par_leftAt := Some at_ |> <| par_assetPackRefId := None |> <| par_updatedAt := now |>) (db_participants d) |>
    <| db_joinRequests := update_many (λ _ j, (jr_requesterUserId j == userId) && (jr_status j == J_pending))
         (λ j, j <| jr_status := J_cancelled |> <| jr_cancelledAt := Some at_ |> <| jr_assetPackRefId := None |> <| jr_updatedAt := now |>) (db_joinRequests d) |>.
Definition withdraw (userId : rowid) (now : instant) : DB → DB := λ d,
  d <| db_companions := update_many (λ _ c, co_ownerUserId c == userId)
         (λ c, c <| co_published := false |> <| co_publishedAt := None |> <| co_activeAssetPackId := None |> <| co_updatedAt := now |>) (db_companions d) |>
    <| db_assetPacks := update_many (λ _ p, owned_by userId d p)
         (λ p, p <| pk_status := PK_deleting |> <| pk_failureCode := None |> <| pk_updatedAt := now |>) (db_assetPacks d) |>
    <| db_friendRequests := update_many (λ _ r, (fr_status r == FR_pending) && ((fr_senderId r == userId) || (fr_receiverId r == userId)))
         (λ r, r <| fr_status := FR_cancelled |> <| fr_updatedAt := now |>) (db_friendRequests d) |>.
Definition revoke_devices (userId : rowid) (now : instant) : DB → DB :=
  update_sessions (λ s, (ds_userId s == userId) && negb (is_set (ds_revokedAt s))) now (revoke now).

(** The transaction; it returns [deletionRequestedAt]. *)
Definition deleteAccount_tx (userId : rowid) (now : instant) : Tx DB instant :=
  row ← gets (λ d, db_users d !! userId);
  account ← require_some row UnauthorizedException;
  require (u_role account != SUPERADMIN) (ForbiddenException "SUPERADMIN_SELF_DELETE_FORBIDDEN") ;;
  let at_ := default now (u_deletionRequestedAt account) in
  affected ← gets (λ d,
    ((filter (λ kr, (inv_status kr.2 == I_pending) && invitation_of userId kr.2 = true) (map_to_list (db_invitations d))).*1,
     (filter (λ ks, live (ses_state ks.2) && (visit_of userId ks.2 || takes_part userId ks.1 d) = true) (map_to_list (db_sessions d))).*1));
  let '(invitations, sessions) := affected in
  modify (lock_user userId account at_) ;;
  modify (cancel_invitations userId at_ now) ;;
  modify (end_visits userId at_ now) ;;
  modify (leave_rooms userId invitations sessions at_ now) ;;
  modify (withdraw userId now) ;;
  modify (revoke_devices userId now) ;;
  mret at_.

(** ** The end of the account *)

(** [visitSession.deleteMany] with what its foreign keys take along. *)
Definition delete_sessions (gone : rowid → bool) (d : DB) : DB :=
  d <| db_sessions := delete_many (λ k _, gone k) (db_sessions d) |>
    <| db_readiness := delete_many (λ _ r, gone r.1) (db_readiness d) |>
    <| db_participants := delete_many (λ _ p, gone (par_sessionId p)) (db_participants d) |>
    <| db_joinRequests := delete_many (λ _ j, gone (jr_sessionId j)) (db_joinRequests d) |>
    <| db_roomTopics := delete_many (λ _ t, gone (rt_sessionId t)) (db_roomTopics d) |>
    <| db_shares := delete_many (λ k _, gone k) (db_shares d) |>
    <| db_turns := delete_many (λ _ t, gone (tu_sessionId t)) (db_turns d) |>
    <| db_moments := delete_many (λ k _, gone k) (db_moments d) |>
    <| db_settlements := delete_many (λ k _, gone k.1) (db_settlements d) |>.

(** The rows that keep a user from being deleted: the foreign keys that
    [Restrict].  The foreign keys of the companions are older than those of the
    visits and act first. *)
Definition restricted (userId : rowid) (d : DB) : bool :=
  let mine := owned_companion userId d in
  exists_where (λ _ t, tu_senderUserId t == userId) (db_turns d)
  || exists_where (λ _ t, (rt_createdByUserId t == userId) || mine (rt_ownerCompanionId t)) (db_roomTopics d)
  || exists_where (λ _ s, sh_createdByUserId s == userId) (db_shares d)
  || exists_where (λ _ p, mine (par_networkCompanionId p)) (db_participants d)
  || exists_where (λ _ j, mine (jr_networkCompanionId j)) (db_joinRequests d)
  || exists_where (λ _ r, mine (inv_networkCompanionId r)) (db_invitations d)
  || exists_where (λ _ s, mine (ses_networkCompanionId s)) (db_sessions d).

(** [user.delete]: refused while a restricting row is there; otherwise the rows
    the foreign keys take along go, and references are cleared.  The visits of
    the user are gone by then. *)
Definition delete_user (userId : rowid) (d : DB) : option DB :=
  let mine := owned_companion userId d in
  let pack_mine (k : rowid) := match db_assetPacks d !! k with Some p => mine (pk_companionId p) | None => false end in
  let forgets (o : option rowid) := match o with Some k => pack_mine k | None => false end in
  let topic_mine (k : rowid) := match db_shareableTopics d !! k with Some t => mine (st_companionId t) | None => false end in
  let is_user (k : rowid) := k == userId in
  if restricted userId d || negb (is_set (db_users d !! userId)) then None
  else Some (
  d <| db_users := delete userId (db_users d) |>
    <| db_profiles := delete userId (db_profiles d) |>
    <| db_deviceSessions := delete_many (λ _ s, is_user (ds_userId s)) (db_deviceSessions d) |>
    <| db_friendRequests := delete_many (λ _ r, is_user (fr_senderId r) || is_user (fr_receiverId r)) (db_friendRequests d) |>
    <| db_friendships := filter (λ p, is_user p.1 || is_user p.2 = false) (db_friendships d) |>
    <| db_blockedUsers := delete_many (λ k _, is_user k.1 || is_user k.2) (db_blockedUsers d) |>
    <| db_presences := delete userId (db_presences d) |>
    <| db_companions := delete_many (λ k _, mine k) (db_companions d) |>
    <| db_shareableTopics := delete_many (λ _ t, mine (st_companionId t)) (db_shareableTopics d) |>
    <| db_assetPacks := delete_many (λ _ p, mine (pk_companionId p)) (db_assetPacks d) |>
    <| db_assetFiles := delete_many (λ _ f, pack_mine (af_assetPackId f)) (db_assetFiles d) |>
    <| db_invitations := update_many (λ _ r, match tc_refId (inv_topic r) with Some k => topic_mine k | None => false end)
         (λ r, r <| inv_topic := (inv_topic r) <| tc_refId := None |> |>)
         (update_many (λ _ r, forgets (inv_assetPackRefId r)) (λ r, r <| inv_assetPackRefId := None |>)
         (delete_many (λ _ r, invitation_of userId r) (db_invitations d))) |>
    <| db_sessions := update_many (λ _ s, match ses_hostNetworkCompanionId s with Some k => mine k | None => false end)
         (λ s, s <| ses_hostNetworkCompanionId := None |>)
         (update_many (λ _ s, forgets (ses_assetPackRefId s)) (λ s, s <| ses_assetPackRefId := None |>)
         (delete_many (λ _ s, visit_of userId s) (db_sessions d))) |>
    <| db_reservations := delete_many (λ k r, is_user k || mine (res_networkCompanionId r)) (db_reservations d) |>
    <| db_readiness := delete_many (λ k _, is_user k.2 || match db_participants d !! k.1 with Some p => is_user (par_userId p) | None => false end) (db_readiness d) |>
    <| db_participants := update_many (λ _ p, forgets (par_assetPackRefId p)) (λ p, p <| par_assetPackRefId := None |>)
         (delete_many (λ _ p, is_user (par_userId p)) (db_participants d)) |>
    <| db_joinRequests := update_many (λ _ j, forgets (jr_assetPackRefId j)) (λ j, j <| jr_assetPackRefId := None |>)
         (delete_many (λ _ j, is_user (jr_requesterUserId j)) (db_joinRequests d)) |>
    <| db_settlements := delete_many (λ k _, mine k.2.1 || mine k.2.2) (db_settlements d) |>
    <| db_relationships := delete_many (λ k _, mine k.1 || mine k.2) (db_relationships d) |>
    <| db_notifications := delete_many (λ _ n, is_user (nt_userId n)) (db_notifications d) |>
    <| db_discoveries := delete_many (λ _ x, is_user (di_userId x)) (db_discoveries d) |>
    <| db_debugEvents := delete_many (λ _ e, is_user (de_userId e)) (db_debugEvents d) |>).

Inductive Finalized := F_deleted | F_pending (deleteAfter : instant).

(** The transaction that ends [finalizePendingAccountDeletion]. *)
Definition finalize_tx (userId : rowid) (uploadUrlTtlSeconds : Z) (firstCount processedPacks : nat) (now : instant) : Tx DB Finalized :=
  row ← gets (λ d, u ← db_users d !! userId; u_deletionRequestedAt u);
  match row with
  | None => mret F_deleted
  | Some requestedAt =>
      summary ← gets (pack_summary userId);
      let deleteAfter := accountDeletionNotBefore requestedAt summary.2 uploadUrlTtlSeconds in
      if (now <? deleteAfter) || negb (bool_decide (summary.1 = processedPacks)) || negb (bool_decide (firstCount = processedPacks))
      then mret (F_pending deleteAfter)
      else
        modify (λ d, delete_sessions (λ k, match db_sessions d !! k with
          | Some s => visit_of userId s || owned_companion userId d (ses_networkCompanionId s) | None => false end) d) ;;
        modify_or (λ d, let gone r := invitation_of userId r || owned_companion userId d (inv_networkCompanionId r) in
                        if exists_where (λ _ s, match db_invitations d !! ses_invitationId s with Some r => gone r | None => false end) (db_sessions d)
                        then None else Some (d <| db_invitations := delete_many (λ _ r, gone r) (db_invitations d) |>)) (ErrorException "P2003") ;;
        modify_or (delete_user userId) (ErrorException "P2003") ;;
        mret F_deleted
  end.

(** ** The service *)

Section account.
Context {Hscan : ScanOrder} `{!Credentials} {B : Type} `{!ObjectStore B}.
Variable others : nat → Server B → Server B.
Variable limits : StorageLimits.
(** The collation of the database on ids. *)
Variable id_le : rowid → rowid → bool.
(** bounds on the rounds of [deleteObjectPrefix] and of the paging loops *)
Variable fuel : nat.
Abbreviation Srv := (Server B).

(** ** Devices and password *)

(** [revokeDevice]; whether the current device was revoked *)
Definition revokeDevice (userId sessionId currentDeviceId : rowid) : Act Srv bool :=
  row ← sv_query others (λ d, s ← db_deviceSessions d !! sessionId; if ds_userId s == userId then Some s else None);
  session ← act_require_some row (NotFoundException "DEVICE_SESSION_NOT_FOUND");
  now ← sv_clock;
  sv_tx others (update_session sessionId now (revoke now)) ;;
  sv_disconnectDevice others userId (ds_deviceId session) ;;
  mret (ds_deviceId session == currentDeviceId).

Definition other_device (userId currentDeviceId : rowid) (s : DeviceSession) : bool := (ds_userId s == userId) && (ds_deviceId s != currentDeviceId).
Definition revoke_others (userId currentDeviceId : rowid) (revokedAt now : instant) : DB → DB :=
  update_sessions (λ s, other_device userId currentDeviceId s && negb (is_set (ds_revokedAt s))) now (revoke revokedAt).
(** The second half of [revokeOtherDevices] and of [changePassword]: the
    sessions revoked at that instant are disconnected. *)
Definition disconnect_others (userId currentDeviceId : rowid) (revokedAt : instant) : Act Srv unit :=
  sessions ← sv_query others (λ d, find_many (λ _ s, other_device userId currentDeviceId s && (ds_revokedAt s == Some revokedAt)) (db_deviceSessions d));
  act_for sessions (λ ks, sv_disconnectDevice others userId (ds_deviceId ks.2)).
(** [revokeOtherDevices] *)
Definition revokeOtherDevices (userId currentDeviceId : rowid) : Act Srv nat :=
  revokedAt ← sv_clock;
  count ← sv_tx others (count ← gets (λ d, count_where (λ _ s, other_device userId currentDeviceId s && negb (is_set (ds_revokedAt s))) (db_deviceSessions d));
                        modify (revoke_others userId currentDeviceId revokedAt revokedAt) ;; mret count);
  disconnect_others userId currentDeviceId revokedAt ;;
  mret count.

(** [changePassword] *)
Definition change_tx (userId currentDeviceId : rowid) (passwordHash : text) (revokedAt : instant) : Tx DB unit :=
  row ← gets (λ d, db_users d !! userId);
  u ← require_some row P2025;
  modify (λ d, d <| db_users := <[userId := u <| u_passwordHash := passwordHash |>]> (db_users d) |>) ;;
  modify (revoke_others userId currentDeviceId revokedAt revokedAt).
Definition changePassword (userId currentDeviceId : rowid) (currentPassword newPassword salt : text) : Act Srv unit :=
  row ← sv_query others (λ d, u_passwordHash <$> db_users d !! userId);
  hash ← act_require_some row (ForbiddenException "CURRENT_PASSWORD_INVALID");
  sv_await others ;;
  act_require (bcrypt_compare currentPassword hash) (ForbiddenException "CURRENT_PASSWORD_INVALID") ;;
  sv_await others ;;
  act_require (negb (bcrypt_compare newPassword hash)) (ConflictException "PASSWORD_UNCHANGED") ;;
  sv_await others ;;
  let passwordHash := bcrypt_hash salt newPassword in
  revokedAt ← sv_clock;
  sv_tx others (change_tx userId currentDeviceId passwordHash revokedAt) ;;
  disconnect_others userId currentDeviceId revokedAt.

(** ** Paging *)

(** [findMany({ where, take: 100, orderBy: { id: 'asc' }, cursor, skip: 1 })]:
    the rows from the cursor on, without the first; none when the row of the
    cursor is gone. *)
Definition page_after {R} (where_ : R → bool) (cursor : option rowid) (table : gmap rowid R) : list (rowid * R) :=
  let rows := find_many_by (λ _ r, where_ r) (λ a b, id_le a.1 b.1) table in
  take 100 match cursor with
  | None => rows
  | Some c => if is_set (table !! c) then drop 1 (filter (λ kr, id_le c kr.1 = true) rows) else []
  end.
(** [for (;;) { fetch a page; body of each row; if (page.length < 100) break;
    cursor = last id }]; it returns the number of rows. *)
Fixpoint pages {R} (fuel : nat) (fetch : option rowid → DB → list (rowid * R)) (body : rowid * R → Act Srv unit) (cursor : option rowid) : Act Srv nat :=
  match fuel with
  | O => act_throw (ErrorException "fuel")
  | S fuel =>
      page ← sv_query others (fetch cursor);
      act_for page body ;;
      if bool_decide (length page < 100)%nat then mret (length page)
      else rest ← pages fuel fetch body (fst <$> last page); mret (length page + rest)%nat
  end.

(** ** Deletion *)

(** [publishAccountDeletionTerminalEvents] *)
Definition counterpart (userId visitorOwnerUserId hostUserId : rowid) : rowid := if visitorOwnerUserId == userId then hostUserId else visitorOwnerUserId.
Definition tell_invitation (userId : rowid) (kr : rowid * Invitation) : Act Srv unit :=
  on_world (publishToUser (counterpart userId (inv_visitorOwnerUserId kr.2) (inv_hostUserId kr.2)) "visit.invitation.updated"
    [("invitationId", JStr (lit kr.1))]).
Definition tell_session (userId : rowid) (ks : rowid * Session) : Act Srv unit :=
  on_world (publishToUser (counterpart userId (ses_visitorOwnerUserId ks.2) (ses_hostUserId ks.2)) "visit.session.ended"
    [("sessionId", JStr (lit ks.1)); ("state", JStr (lit (state_name (ses_state ks.2))))]).
Definition publishAccountDeletionTerminalEvents (userId : rowid) (requestedAt : instant) : Act Srv unit :=
  pages fuel (λ cursor d, page_after (λ r, (inv_status r == I_cancelled) && (inv_cancelledAt r == Some requestedAt) && invitation_of userId r) cursor (db_invitations d))
    (tell_invitation userId) None ;;
  pages fuel (λ cursor d, page_after (λ s, (ses_endedAt s == Some requestedAt) && (ses_endReason s == Some REQUESTED) && visit_of userId s) cursor (db_sessions d))
    (tell_session userId) None ;;
  mret ().

(** The body of the loop of [finalizePendingAccountDeletion]. *)
Definition cleanup_failed (userId : rowid) (kp : rowid * AssetPack) (e : exc) : Act Srv unit :=
  now ← sv_clock;
  act_catch (sv_tx others (modify (λ d, update_packs (λ k p, (k == kp.1) && (pk_status p == PK_deleting) && owned_by userId d p) now
    (λ p, p <| pk_failureCode := Some "ASSET_CLEANUP_FAILED" |>) d))) (λ _, mret ()) ;;
  act_throw e.
Definition delete_pack_objects (userId : rowid) (kp : rowid * AssetPack) : Act Srv unit :=
  act_catch (sv_storage_call others (deleteObjectPrefix fuel (pk_objectPrefix kp.2))) (cleanup_failed userId kp).

(** [finalizePendingAccountDeletion] *)
Definition packs_page (userId : rowid) (cursor : option rowid) (d : DB) : list (rowid * AssetPack) :=
  page_after (owned_by userId d) cursor (db_assetPacks d).
Definition finalizePendingAccountDeletion (userId : rowid) (requestedAt : instant) : Act Srv Finalized :=
  summary ← sv_query others (pack_summary userId);
  let deleteAfter := accountDeletionNotBefore requestedAt summary.2 (sl_uploadUrlTtlSeconds limits) in
  now ← sv_clock;
  if now <? deleteAfter then mret (F_pending deleteAfter)
  else
    processedPacks ← pages fuel (packs_page userId) (delete_pack_objects userId) None;
    now' ← sv_clock;
    sv_tx others (finalize_tx userId (sl_uploadUrlTtlSeconds limits) summary.1 processedPacks now').

(** [deferAccountDeletion] *)
Definition backoff (attemptCount : Z) : Z :=
  let attempt := Z.min (attemptCount + 1) ACCOUNT_DELETION_MAX_BACKOFF_EXPONENT in
  Z.min ACCOUNT_DELETION_MAX_BACKOFF_MS (ACCOUNT_DELETION_RETRY_BASE_MS * 2 ^ (attempt - 1)).
Definition defer_write (userId : rowid) (nextAttemptAt : instant) (failed : bool) (d : DB) : DB :=
  d <| db_users := alter (λ u, if is_set (u_deletionRequestedAt u)
         then u <| u_deletionNextAttemptAt := Some nextAttemptAt |> <| u_deletionAttemptCount := if failed then u_deletionAttemptCount u + 1 else 0 |>
         else u) userId (db_users d) |>.
Definition deferAccountDeletion (userId : rowid) (requestedNextAttempt : instant) (failed : bool) : Act Srv instant :=
  nextAttemptAt ← (if failed then
      account ← sv_query others (λ d, u_deletionAttemptCount <$> db_users d !! userId);
      now ← sv_clock;
      mret (now + backoff (default 0 account))
    else mret requestedNextAttempt);
  sv_tx others (modify (defer_write userId nextAttemptAt failed)) ;;
  mret nextAttemptAt.

(** [deleteAccount] *)
Definition finish_or_defer (userId : rowid) (requestedAt : instant) : Act Srv Finalized :=
  act_catch
    (result ← finalizePendingAccountDeletion userId requestedAt;
     match result with
     | F_pending deleteAfter => deferAccountDeletion userId deleteAfter false ;; mret result
     | F_deleted => mret result
     end)
    (λ _, now ← sv_clock; deleteAfter ← deferAccountDeletion userId now true; mret (F_pending deleteAfter)).
Definition deleteAccount (userId : rowid) : Act Srv Finalized :=
  now ← sv_clock;
  requestedAt ← sv_tx others (deleteAccount_tx userId now);
  sv_disconnectUser others userId ;;
  publishAccountDeletionTerminalEvents userId requestedAt ;;
  finish_or_defer userId requestedAt.

(** [finalizePendingAccountDeletions], and a pass of
    [AccountDeletionCleanupService] *)
Record Pass := mkPass { ps_processed : nat; ps_deleted : nat; ps_pending : nat; ps_failed : nat }.
#[export] Instance eta_Pass : Eta Pass := λ p, mkPass (ps_processed p) (ps_deleted p) (ps_pending p) (ps_failed p).
Definition due (now : instant) (u : User) : bool :=
  is_set (u_deletionRequestedAt u) && match u_deletionNextAttemptAt u with Some t => t <=? now | None => true end.
Definition requested_le (a b : rowid * User) : bool :=
  let ta := default 0 (u_deletionRequestedAt a.2) in let tb := default 0 (u_deletionRequestedAt b.2) in
  (ta <? tb) || ((ta =? tb) && id_le a.1 b.1).
Definition finalize_one (ku : rowid * User) (p : Pass) : Act Srv Pass :=
  act_catch
    (result ← finalizePendingAccountDeletion ku.1 (default 0 (u_deletionRequestedAt ku.2));
     match result with
     | F_deleted => mret (p <| ps_deleted := S (ps_deleted p) |>)
     | F_pending deleteAfter =>
         (* [pending += 1] comes before the write that may fail *)
         act_catch (deferAccountDeletion ku.1 deleteAfter false ;; mret (p <| ps_pending := S (ps_pending p) |>))
           (λ _, now ← sv_clock; act_catch (deferAccountDeletion ku.1 now true ;; mret ()) (λ _, mret ()) ;;
                 mret (p <| ps_pending := S (ps_pending p) |> <| ps_failed := S (ps_failed p) |>))
     end)
    (λ _, now ← sv_clock; act_catch (deferAccountDeletion ku.1 now true ;; mret ()) (λ _, mret ()) ;;
          mret (p <| ps_failed := S (ps_failed p) |>)).
Fixpoint finalize_all (accounts : list (rowid * User)) (p : Pass) : Act Srv Pass :=
  match accounts with [] => mret p | ku :: accounts' => p' ← finalize_one ku p; finalize_all accounts' p' end.
Definition finalizePendingAccountDeletions (limit : Z) : Act Srv Pass :=
  let boundedLimit := Z.max 1 (Z.min 100 limit) in
  now ← sv_clock;
  accounts ← sv_query others (λ d, take (Z.to_nat boundedLimit) (find_many_by (λ _ u, due now u) requested_le (db_users d)));
  finalize_all accounts (mkPass (length accounts) 0 0 0).
End account.
