(* ===== verification/Lockout.v ===== *)
(** * A revoked session is not used again

    Every request of the identity, browser and account services, and what it
    does to the session of a device that was revoked. *)

From S2P Require Import Prelude Tables JsText Json Schema Interfaces Storage Presence Visit AssetPack Server Identity Browser Account.
Local Open Scope Z_scope.

(** [K] are the ids of the rows of a device, past and future ones; and once it
    is logged out ([out]), those that are there are revoked. *)
Definition kept (out : bool) (K : gset rowid) (u dv : rowid) (d : DB) : Prop := ∀ k s, db_deviceSessions d !! k = Some s →
  (k ∈ K ↔ of_device u dv s = true) ∧ (out = true → k ∈ K → is_Some (ds_revokedAt s)).
Abbreviation sealed := (kept true).

(** Rows are at most revoked or removed. *)
Definition quieter (d d' : DB) : Prop := ∀ k s', db_deviceSessions d' !! k = Some s' → ∃ s, db_deviceSessions d !! k = Some s
  ∧ ds_userId s' = ds_userId s ∧ ds_deviceId s' = ds_deviceId s ∧ (is_Some (ds_revokedAt s) → is_Some (ds_revokedAt s')).
#[export] Instance quieter_preorder : PreOrder quieter.
Proof.
  split; [intros d k s Hk; eauto|]. intros d1 d2 d3 H1 H2 k s3 (s2 & Hs2 & -> & -> & Hr2)%H2.
  apply H1 in Hs2 as (s1 & Hs1 & -> & -> & Hr1). eauto 10.
Qed.
Lemma quieter_same d d' : db_deviceSessions d' = db_deviceSessions d → quieter d d'.
Proof. intros Heq k s Hk. rewrite Heq in Hk. eauto. Qed.
Lemma quieter_kept b K u dv d d' : quieter d d' → kept b K u dv d → kept b K u dv d'.
Proof.
  intros Hq Hs k s' (s & Hk & Hu & Hd & Hr)%Hq. unfold of_device. rewrite Hu, Hd. destruct (Hs k s Hk) as [Hi Hrev]. split; [done|]. auto.
Qed.

Definition quiet_tx {A} (m : Tx DB A) : Prop := ∀ d a d', m d = Ok (a, d') → quieter d d'.
Lemma quiet_bind {A C} (m : Tx DB A) (f : A → Tx DB C) : quiet_tx m → (∀ a, quiet_tx (f a)) → quiet_tx (m ≫= f).
Proof. intros Hm Hf d c d' (a & d1 & H1 & H2)%tx_bind_ok. etrans; [by eapply Hm|by eapply Hf]. Qed.
Lemma quiet_frame {A} (m : Tx DB A) : frame_on db_deviceSessions m → quiet_tx m.
Proof. intros Hf d a d' Hrun%Hf. by apply quieter_same. Qed.
Lemma quiet_modify f : (∀ d, quieter d (f d)) → quiet_tx (modify f).
Proof. intros Hf d a d' ->%tx_modify_ok. apply Hf. Qed.
Lemma quiet_modify_or f e : (∀ d d', f d = Some d' → quieter d d') → quiet_tx (modify_or f e).
Proof. intros Hf d a d' H%tx_modify_or_ok. by apply Hf. Qed.

Lemma quiet_update_sessions p now f d :
  (∀ s, ds_userId (f s) = ds_userId s ∧ ds_deviceId (f s) = ds_deviceId s ∧ (is_Some (ds_revokedAt s) → is_Some (ds_revokedAt (f s)))) →
  quieter d (update_sessions p now f d).
Proof.
  intros Hf k s' Hk. apply lookup_update_many_Some in Hk as (s & Hk & ->). exists s. destruct (Hf s) as (? & ? & ?). by destruct (p s).
Qed.
Lemma quiet_update_session k now f :
  (∀ s, ds_userId (f s) = ds_userId s ∧ ds_deviceId (f s) = ds_deviceId s ∧ (is_Some (ds_revokedAt s) → is_Some (ds_revokedAt (f s)))) →
  quiet_tx (update_session k now f).
Proof.
  intros Hf d a d' H. unfold update_session in H. step_inv.
  match goal with H : db_deviceSessions d !! k = Some ?s |- _ => destruct (Hf s) as (? & ? & ?) end.
  intros k' s' Hk'. cbn in Hk'; apply lookup_insert_Some in Hk' as [[<- <-]|[Hne Hk]]; eauto 10.
Qed.
Lemma revoke_quiet now s : ds_userId (revoke now s) = ds_userId s ∧ ds_deviceId (revoke now s) = ds_deviceId s
  ∧ (is_Some (ds_revokedAt s) → is_Some (ds_revokedAt (revoke now s))).
Proof. done. Qed.

(** The updates of a session that would lift a revocation, on a row of another
    device. *)
Lemma update_other_kept b K u dv k now f d a d' :
  (∀ s, ds_userId (f s) = ds_userId s ∧ ds_deviceId (f s) = ds_deviceId s) → (b = true → k ∉ K) →
  update_session k now f d = Ok (a, d') → kept b K u dv d → kept b K u dv d'.
Proof.
  intros Hf Hk H Hs. unfold update_session in H. step_inv.
  match goal with H : db_deviceSessions d !! k = Some ?s |- _ => destruct (Hf s) as [Hu Hd]; destruct (Hs _ _ H) as [Hi _] end.
  intros k' s' Hrow. cbn in Hrow; apply lookup_insert_Some in Hrow as [[<- <-]|[Hne Hk']]; [|by apply Hs].
  split; [rewrite Hi; unfold of_device; simpl; by rewrite Hu, Hd|]. intros Hb Hin. by destruct (Hk Hb).
Qed.

Section lockout.
Context {Hscan : ScanOrder} `{!Credentials} {B : Type} `{!ObjectStore B}.
Variable others : nat → Server B → Server B.
Variable toLowerCase : text → text.
Variable reported : list string → string.
Variable refreshExpiration : text.
Variable sha256_hex : text → text.
Variable parse_url : text → option Url.
Variable config : BrowserConfig.
Variable verify_refresh : text → instant → option (rowid * rowid).
Variable limits : StorageLimits.
Variable id_le : rowid → rowid → bool.
Variable fuel : nat.
Abbreviation Srv := (Server B).

Inductive AuthRequest :=
  | AR_register (dto : RegisterDto) (salt : text) (draw : nat → Draw) (fresh : Fresh)
  | AR_login (dto : LoginDto) (fresh : Fresh)
  | AR_refresh (token : text) (deviceId : rowid) (fresh : Fresh)
  | AR_logout (userId accessTokenDeviceId deviceId : rowid)
  | AR_profile (userId : rowid)
  | AR_guard (isPublic : bool) (request : Request)
  | AR_portalLogin (email password : text) (deviceId : rowid) (csrfToken : text) (auditId : rowid) (fresh : Fresh)
  | AR_portalSession (userId : rowid)
  | AR_portalRefresh (refresh deviceId csrfHeader csrfCookie : option text) (fresh : Fresh)
  | AR_portalLogout (userId deviceId : rowid)
  | AR_revokeDevice (userId sessionId currentDeviceId : rowid)
  | AR_revokeOtherDevices (userId currentDeviceId : rowid)
  | AR_changePassword (userId currentDeviceId : rowid) (currentPassword newPassword salt : text)
  | AR_deleteAccount (userId : rowid)
  | AR_finalizeDeletions.

Definition ignoring {A} (m : Act Srv A) : Act Srv unit := m ;; mret ().
Definition serve_auth (rq : AuthRequest) : Act Srv unit :=
  match rq with
  | AR_register dto salt draw fresh => ignoring (register others toLowerCase reported refreshExpiration dto salt draw fresh)
  | AR_login dto fresh => ignoring (login others toLowerCase refreshExpiration dto fresh)
  | AR_refresh token dv fresh => ignoring (refreshToken others refreshExpiration token dv fresh)
  | AR_logout u adv dv => logout others u adv dv
  | AR_profile u => ignoring (getProfile others u)
  | AR_guard pub rq => canActivate others sha256_hex parse_url config pub rq
  | AR_portalLogin e p dv c aid fresh => ignoring (portal_login others toLowerCase sha256_hex refreshExpiration config e p dv c aid fresh)
  | AR_portalSession u => ignoring (portal_session others u)
  | AR_portalRefresh r dv h c fresh =>
      ignoring (portal_refresh others toLowerCase sha256_hex refreshExpiration config verify_refresh r dv h c fresh)
  | AR_portalLogout u dv => ignoring (portal_logout others toLowerCase config u dv)
  | AR_revokeDevice u k dv => ignoring (revokeDevice others u k dv)
  | AR_revokeOtherDevices u dv => ignoring (revokeOtherDevices others u dv)
  | AR_changePassword u dv p p' salt => changePassword others u dv p p' salt
  | AR_deleteAccount u => ignoring (deleteAccount others limits id_le fuel u)
  | AR_finalizeDeletions => ignoring (finalizePendingAccountDeletions others limits id_le fuel 100)
  end.
(** One request after the other, whether they return or throw. *)
Fixpoint serve_all (rqs : list AuthRequest) (s : Srv) : Srv :=
  match rqs with [] => s | rq :: rqs' => serve_all rqs' (serve_auth rq s).2 end.

(** The session a request opens, and the id of its new row. *)
Definition opens (rq : AuthRequest) : option (rowid * rowid) :=
  match rq with
  | AR_register dto _ _ fresh => Some (rd_deviceId dto, fr_sessionId fresh)
  | AR_login dto fresh => Some (ld_deviceId dto, fr_sessionId fresh)
  | AR_portalLogin _ _ dv _ _ fresh => Some (dv, fr_sessionId fresh)
  | _ => None
  end.
(** No login or registration of the device; new rows have new ids. *)
Definition elsewhere (K : gset rowid) (dv : rowid) (rq : AuthRequest) : Prop :=
  match opens rq with Some (dv', k) => dv' ≠ dv ∧ k ∉ K | None => True end.

(** ** What keeps the rows of a device *)

Section kept.
Context {b : bool} {K : gset rowid} {u dv : rowid}.
Context (others_keep : ∀ n s, kept b K u dv (sv_db s) → kept b K u dv (sv_db (others n s))).
Abbreviation Kept := (λ s : Srv, kept b K u dv (sv_db s)).

Lemma preserves_quiet {A} (body : Tx DB A) : quiet_tx body → preserves Kept (sv_tx others body).
Proof. intros Hq. apply preserves_tx; [done|]. intros d a d' Hd Hrun%Hq. by eapply quieter_kept. Qed.
Lemma preserves_frame {A} (body : Tx DB A) : frame_on db_deviceSessions body → preserves Kept (sv_tx others body).
Proof. intros Hf. by apply preserves_quiet, quiet_frame. Qed.
Lemma preserves_publish v e p : preserves Kept (on_world (publishToUser v e p)).
Proof. by intros s Hs. Qed.
#[local] Hint Resolve preserves_publish : preserves.

Lemma preserves_matching sessions token field : preserves Kept (findMatchingSession others sessions token field).
Proof. induction sessions as [|ks l IH]; simpl; preserves. Qed.
Lemma findMatching_in sessions token field s ks s' :
  findMatchingSession others sessions token field s = (Ok (Some ks), s') → ks ∈ sessions.
Proof.
  revert s. induction sessions as [|ks' l IH]; intros s Hrun; simpl in Hrun; server_inv; [by left|right; eauto..].
Qed.
Lemma preserves_issue v email dv' jti : preserves Kept (issueTokens others refreshExpiration v email dv' jti).
Proof. unfold issueTokens. preserves. Qed.
#[local] Hint Resolve preserves_matching preserves_issue : preserves.

Lemma upsert_kept k v dv' hash e now d a d' : dv' ≠ dv → k ∉ K → upsert_session k v dv' hash e now d = Ok (a, d') → kept b K u dv d → kept b K u dv d'.
Proof.
  intros Hne Hk Hrun Hs. unfold upsert_session, create_session in Hrun. step_inv.
  - match goal with H : session_of _ _ _ = Some _ |- _ => apply find_unique_Some in H as [Hr Hd] end.
    eapply update_other_kept; [| |done|done]; [done|]. intros _ Hin. destruct (Hs _ _ Hr) as [Hi _]. apply Hi in Hin.
    unfold of_device in *. bool_inv. congruence.
  - option_inv. match goal with H : create_row _ _ _ _ = Some _ |- _ => apply create_row_Some in H as (Hn & _ & ->) end. simplify_eq.
    intros k' s' Hrow. cbn in Hrow; apply lookup_insert_Some in Hrow as [[<- <-]|[Hne' Hk']]; [|by apply Hs].
    split; [|done]. split; [done|]. unfold of_device. intros. simpl in *. bool_inv. congruence.
Qed.
Lemma preserves_create v email dv' fresh : dv' ≠ dv → fr_sessionId fresh ∉ K → preserves Kept (createSessionTokens others refreshExpiration v email dv' fresh).
Proof.
  intros Hne Hk. unfold createSessionTokens. preserves. apply preserves_tx; [done|]. intros ??? Hd Hrun. by eapply upsert_kept.
Qed.
Lemma preserves_rotate k v email dv' fresh : (b = true → k ∉ K) → preserves Kept (rotateSessionTokens others refreshExpiration k v email dv' fresh).
Proof.
  intros Hk. unfold rotateSessionTokens. preserves. apply preserves_tx; [done|]. intros ??? Hd Hrun. by eapply update_other_kept; [| |exact Hrun|].
Qed.

Lemma preserves_refresh token dv' fresh : preserves Kept (refreshToken others refreshExpiration token dv' fresh).
Proof.
  unfold refreshToken. apply preserves_bind'; [by apply preserves_query|]. intros [sessions users] s s' Hs Hq. cbv beta iota.
  apply sv_query_ok in Hq as [[= -> ->] ->].
  assert (kept b K u dv (sv_db (resumed others s))) as Hsnap by by apply others_keep.
  apply preserves_bind; [preserves|]. intros [[k r]|].
  { preserves. apply preserves_quiet, quiet_update_session, revoke_quiet. }
  apply preserves_bind'; [preserves|]. intros [[k r]|] w w' _ Hm; simpl; [|preserves].
  apply findMatching_in, elem_of_find_many in Hm as [Hr _].
  preserves. simplify_eq. apply preserves_rotate. intros Hb Hin. apply Hsnap in Hr as [_ Hrev]. apply (Hrev Hb) in Hin.
  unfold refreshable in *. by bool_inv.
Qed.
Lemma preserves_attempts left n create : (∀ i, preserves Kept (create i)) → preserves Kept (attempts (B := B) left n create).
Proof. intros Hc. revert n. induction left as [|left IH]; intros n; simpl; preserves. Qed.
Lemma preserves_register dto salt draw fresh : elsewhere K dv (AR_register dto salt draw fresh) →
  preserves Kept (register others toLowerCase reported refreshExpiration dto salt draw fresh).
Proof.
  intros [Hne Hk]. unfold register. preserves; [|by apply preserves_create].
  apply preserves_attempts. intros i. unfold attempt_user. preserves. apply preserves_frame. unfold create_user. frame.
Qed.
Lemma preserves_login dto fresh : elsewhere K dv (AR_login dto fresh) → preserves Kept (login others toLowerCase refreshExpiration dto fresh).
Proof. intros [Hne Hk]. unfold login. preserves. by apply preserves_create. Qed.
Lemma preserves_logout v adv dv' : preserves Kept (logout others v adv dv').
Proof. unfold logout. preserves. apply preserves_quiet, quiet_modify. intros d. apply quiet_update_sessions, revoke_quiet. Qed.

(** ** Browser and account *)

#[local] Hint Resolve preserves_refresh preserves_logout : preserves.
Lemma preserves_portal_login e p dv' c aid fresh : elsewhere K dv (AR_portalLogin e p dv' c aid fresh) →
  preserves Kept (portal_login others toLowerCase sha256_hex refreshExpiration config e p dv' c aid fresh).
Proof.
  intros Hel. unfold portal_login, setCookies, setTokenCookies, max_age, bindCsrfToken. preserves.
  - by apply preserves_login.
  - apply preserves_quiet. apply quiet_bind; [apply quiet_frame; frame|intros]. apply quiet_bind; [apply quiet_frame; frame|intros].
    by apply quiet_update_session.
  - apply preserves_frame. unfold record_audit. frame.
Qed.
Lemma preserves_requireCsrf v dv' h c : preserves Kept (requireCsrf others sha256_hex v dv' h c).
Proof. unfold requireCsrf. preserves. Qed.
#[local] Hint Resolve preserves_requireCsrf : preserves.
Lemma preserves_guard pub rq : preserves Kept (canActivate others sha256_hex parse_url config pub rq).
Proof. unfold canActivate, requireAllowedOrigin. preserves. Qed.
Lemma preserves_portal_refresh r dv' h c fresh :
  preserves Kept (portal_refresh others toLowerCase sha256_hex refreshExpiration config verify_refresh r dv' h c fresh).
Proof. unfold portal_refresh, setTokenCookies, max_age. preserves. Qed.

Lemma quiet_revoke_others v dv' t now d : quieter d (revoke_others v dv' t now d).
Proof. apply quiet_update_sessions, revoke_quiet. Qed.
Lemma preserves_disconnect_others v dv' t : preserves Kept (disconnect_others others v dv' t).
Proof. unfold disconnect_others. preserves. Qed.
#[local] Hint Resolve preserves_disconnect_others : preserves.
Lemma preserves_revokeDevice v k dv' : preserves Kept (revokeDevice others v k dv').
Proof. unfold revokeDevice. preserves. apply preserves_quiet, quiet_update_session, revoke_quiet. Qed.
Lemma preserves_revokeOtherDevices v dv' : preserves Kept (revokeOtherDevices others v dv').
Proof.
  unfold revokeOtherDevices. preserves. apply preserves_quiet. apply quiet_bind; [apply quiet_frame; frame|intros].
  apply quiet_bind; [|intros; apply quiet_frame; frame]. apply quiet_modify. intros. apply quiet_revoke_others.
Qed.
Lemma preserves_changePassword v dv' p p' salt : preserves Kept (changePassword others v dv' p p' salt).
Proof.
  unfold changePassword, change_tx. preserves. apply preserves_quiet. do 3 (apply quiet_bind; [apply quiet_frame; frame|intros]).
  apply quiet_modify. intros. apply quiet_revoke_others.
Qed.

Lemma quiet_revoke_devices v now d : quieter d (revoke_devices v now d).
Proof. apply quiet_update_sessions, revoke_quiet. Qed.
Lemma quiet_deleteAccount v now : quiet_tx (deleteAccount_tx v now).
Proof.
  unfold deleteAccount_tx. do 4 (apply quiet_bind; [apply quiet_frame; frame|intros]). case_match. cbv zeta.
  do 5 (apply quiet_bind; [apply quiet_frame; frame|intros]). apply quiet_bind; [|intros; apply quiet_frame; frame].
  apply quiet_modify. intros. apply quiet_revoke_devices.
Qed.
Lemma quiet_finalize v ttl n m now : quiet_tx (finalize_tx v ttl n m now).
Proof.
  unfold finalize_tx. apply quiet_bind; [apply quiet_frame; frame|intros [t|]; [|apply quiet_frame; frame]].
  apply quiet_bind; [apply quiet_frame; frame|intros]. cbv zeta. case_match; [apply quiet_frame; frame|].
  do 2 (apply quiet_bind; [apply quiet_frame; frame|intros]).
  - intros d x d' Hm. step_inv. case_match; [done|]. by simplify_eq.
  - apply quiet_bind; [|intros; apply quiet_frame; frame]. apply quiet_modify_or. intros d d' Hd. unfold delete_user in Hd. case_match; [done|].
    simplify_eq. intros k s Hk. cbn in Hk. apply lookup_delete_many_Some in Hk as [Hk _]. eauto.
Qed.
Lemma preserves_pages {R} n (fetch : option rowid → DB → list (rowid * R)) body cursor :
  (∀ kr, preserves Kept (body kr)) → preserves Kept (pages others n fetch body cursor).
Proof. intros Hb. revert cursor. induction n as [|n IH]; intros cursor; simpl; preserves. Qed.
Lemma preserves_finalize v t : preserves Kept (finalizePendingAccountDeletion others limits id_le fuel v t).
Proof.
  unfold finalizePendingAccountDeletion. preserves.
  - apply preserves_pages. intros kp. unfold delete_pack_objects, cleanup_failed. preserves. apply preserves_frame. unfold update_packs. frame.
  - apply preserves_quiet, quiet_finalize.
Qed.
Lemma preserves_defer v t failed : preserves Kept (deferAccountDeletion others v t failed).
Proof. unfold deferAccountDeletion. preserves. apply preserves_frame. unfold defer_write. frame. Qed.
#[local] Hint Resolve preserves_finalize preserves_defer : preserves.
Lemma preserves_deleteAccount v : preserves Kept (deleteAccount others limits id_le fuel v).
Proof.
  unfold deleteAccount, publishAccountDeletionTerminalEvents, finish_or_defer. preserves.
  - apply preserves_quiet, quiet_deleteAccount.
  - apply preserves_pages. intros. apply preserves_publish.
  - apply preserves_pages. intros. apply preserves_publish.
Qed.
Lemma preserves_finalize_all accounts p : preserves Kept (finalize_all others limits id_le fuel accounts p).
Proof. revert p. induction accounts as [|ku l IH]; intros p; simpl; [preserves|]. unfold finalize_one. preserves. Qed.

Lemma preserves_ignoring {A} (m : Act Srv A) : preserves Kept m → preserves Kept (ignoring m).
Proof. intros Hm. unfold ignoring. preserves. Qed.
#[local] Hint Resolve preserves_ignoring preserves_guard preserves_portal_refresh preserves_revokeDevice preserves_revokeOtherDevices
  preserves_changePassword preserves_deleteAccount preserves_finalize_all preserves_register preserves_login preserves_portal_login : preserves.
Lemma serve_auth_kept rq : elsewhere K dv rq → preserves Kept (serve_auth rq).
Proof.
  intros Hel. destruct rq; simpl; try apply preserves_ignoring; eauto 3 with preserves nocore.
  - unfold getProfile. preserves.
  - unfold portal_session, getProfile. preserves.
  - unfold portal_logout. preserves.
  - unfold finalizePendingAccountDeletions. preserves.
Qed.
Lemma serve_all_kept rqs s : Forall (elsewhere K dv) rqs → kept b K u dv (sv_db s) → kept b K u dv (sv_db (serve_all rqs s)).
Proof.
  revert s. induction rqs as [|rq rqs IH]; intros s Hel Hs; simpl; [done|]. inversion Hel; subst. apply IH; [done|]. by apply serve_auth_kept.
Qed.
End kept.

(** ** The ways out *)

Inductive Leave :=
  | L_logout (userId deviceId : rowid)
  | L_portalLogout (userId deviceId : rowid)
  | L_revokeOtherDevices (userId currentDeviceId : rowid)
  | L_changePassword (userId currentDeviceId : rowid) (currentPassword newPassword salt : text).
Definition leave (l : Leave) : Act Srv unit :=
  match l with
  | L_logout u dv => logout others u dv dv
  | L_portalLogout u dv => ignoring (portal_logout others toLowerCase config u dv)
  | L_revokeOtherDevices u dv => ignoring (revokeOtherDevices others u dv)
  | L_changePassword u dv p p' salt => changePassword others u dv p p' salt
  end.
(** The devices that are logged out. *)
Definition leaves (l : Leave) (u dv : rowid) : Prop :=
  match l with
  | L_logout u' dv' | L_portalLogout u' dv' => u' = u ∧ dv' = dv
  | L_revokeOtherDevices u' dv' | L_changePassword u' dv' _ _ _ => u' = u ∧ dv' ≠ dv
  end.

Definition ids_of (u dv : rowid) (d : DB) : gset rowid := dom (filter (λ ks, of_device u dv ks.2 = true) (db_deviceSessions d)).
Lemma ids_of_kept u dv d : kept false (ids_of u dv d) u dv d.
Proof.
  intros k s Hk. split; [|done]. unfold ids_of. rewrite elem_of_dom. split.
  - intros [s1 [Hs1 Hd]%map_lookup_filter_Some]. by simplify_eq.
  - intros Hd. exists s. by apply map_lookup_filter_Some.
Qed.
Lemma revoke_seals K u dv p now t d : (∀ s, of_device u dv s = true → ds_revokedAt s = None → p s = true) →
  kept false K u dv d → sealed K u dv (update_sessions p now (revoke t) d).
Proof.
  intros Hp Hd k s' Hk. apply lookup_update_many_Some in Hk as (s & Hk & ->). destruct (Hd k s Hk) as [Hin _]. split; [by destruct (p s)|].
  intros _ Hdv%Hin. destruct (p s) eqn:Hps; [done|]. destruct (ds_revokedAt s) eqn:Hr; [by eexists|]. by rewrite (Hp s Hdv Hr) in Hps.
Qed.
Lemma revoke_devices_seals u now d dv : sealed (ids_of u dv d) u dv (revoke_devices u now d).
Proof. apply revoke_seals, ids_of_kept. intros s Hd Hr. unfold of_device in Hd. bool_inv. rewrite Hr. by rewrite bool_decide_eq_true_2. Qed.
Lemma revoke_others_seals K u dv cur t now d : cur ≠ dv → kept false K u dv d → sealed K u dv (revoke_others u cur t now d).
Proof.
  intros Hne. apply revoke_seals. intros r Hd Hr. unfold other_device, of_device in *. bool_inv. subst.
  rewrite Hr. repeat case_bool_decide; naive_solver congruence.
Qed.

Ltac destruct_units := repeat match goal with x : unit |- _ => destruct x end.
(** What others do keeps the rows of the device, before and after the logout. *)
Definition keeps (K : gset rowid) (u dv : rowid) : Prop := ∀ b n s, kept b K u dv (sv_db s) → kept b K u dv (sv_db (others n s)).
Lemma disconnect_others_seals K u dv cur t s s' : keeps K u dv → sealed K u dv (sv_db s) →
  disconnect_others others u cur t s = (Ok (), s') → sealed K u dv (sv_db s').
Proof. intros Ho Hs Hrun. pose proof (preserves_disconnect_others (Ho true) u cur t s Hs) as Hp. by rewrite Hrun in Hp. Qed.
Lemma leave_seals K l u dv s s' : keeps K u dv → leaves l u dv → kept false K u dv (sv_db s) →
  leave l s = (Ok (), s') → sealed K u dv (sv_db s').
Proof.
  intros Ho Hl Hs Hrun. destruct l; simpl in *; destruct Hl as [-> Hl]; subst; unfold ignoring in *.
  - unfold logout in Hrun. server_inv. apply Ho. simpl. apply revoke_seals; [by intros r -> ->|by apply Ho].
  - unfold portal_logout, logout in Hrun. server_inv. apply Ho. simpl. apply revoke_seals; [by intros r -> ->|by apply Ho].
  - unfold revokeOtherDevices in Hrun. server_inv. destruct_units. eapply disconnect_others_seals; [done| |done].
    apply revoke_others_seals; [done|by apply Ho].
  - unfold changePassword, change_tx in Hrun. server_inv. eapply disconnect_others_seals; [done| |done].
    apply revoke_others_seals; [done|]. by repeat apply Ho.
Qed.

Lemma sealed_not_validated K u dv now d d' : sealed K u dv d → validate_token u dv now d d' = Err UnauthorizedException.
Proof.
  intros Hs. unfold validate_token. destruct (dv == ""); [done|]. destruct (session_of u dv d) as [[k r]|] eqn:Hf; [|done].
  apply find_unique_Some in Hf as [Hr Hd]. destruct (Hs _ _ Hr) as [Hi Hrev]. by rewrite bool_decide_eq_true_2 by by apply Hrev, Hi.
Qed.
Lemma sealed_not_active K u dv now d : sealed K u dv d → isSessionActive u dv now d = false.
Proof.
  intros Hs. unfold isSessionActive. destruct (find_unique _ (db_deviceSessions d)) as [[k r]|] eqn:Hf; [|done].
  apply find_unique_Some in Hf as [Hr Hd]. destruct (Hs _ _ Hr) as [Hi Hrev]. by rewrite bool_decide_eq_true_2 by by apply Hrev, Hi.
Qed.
End lockout.

(** ** Who runs meanwhile *)

(** Work on other rows: what it leaves is a row of before, at most revoked, or
    belongs to another device and is none of [K]. *)
Definition spares (K : gset rowid) (u dv : rowid) (d d' : DB) : Prop := ∀ k s', db_deviceSessions d' !! k = Some s' →
  (∃ s, db_deviceSessions d !! k = Some s ∧ ds_userId s' = ds_userId s ∧ ds_deviceId s' = ds_deviceId s
     ∧ (is_Some (ds_revokedAt s) → is_Some (ds_revokedAt s')))
  ∨ (k ∉ K ∧ of_device u dv s' = false).
Lemma spares_kept b K u dv d d' : spares K u dv d d' → kept b K u dv d → kept b K u dv d'.
Proof.
  intros Hsp Hd k s' [(s & Hk & Hu & Hdv & Hr)|[Hk Hno]]%Hsp.
  - unfold of_device. rewrite Hu, Hdv. destruct (Hd k s Hk) as [Hi Hrev]. split; [done|]. auto.
  - rewrite Hno. split; [|done]. split; done.
Qed.

Section meanwhile.
Context {Hscan : ScanOrder} `{!Credentials} {B : Type} `{!ObjectStore B}.
Variable toLowerCase : text → text.
Variable reported : list string → string.
Variable refreshExpiration : text.
Variable sha256_hex : text → text.
Variable parse_url : text → option Url.
Variable config : BrowserConfig.
Variable verify_refresh : text → instant → option (rowid * rowid).
Variable limits : StorageLimits.
Variable id_le : rowid → rowid → bool.
Variable fuel : nat.
Abbreviation served others := (serve_all others toLowerCase reported refreshExpiration sha256_hex parse_url config verify_refresh limits id_le fuel).

(** During each await of a request, whole requests of these services are served
    - which await in their turn -, none of which logs the device in; and whatever
    else runs, the requests in their middle included, works on other rows. *)
Inductive serving (K : gset rowid) (u dv : rowid) : (nat → Server B → Server B) → Prop :=
  | serving_requests others rqs : serving K u dv others → (∀ n, Forall (elsewhere K dv) (rqs n)) → serving K u dv (λ n, served others (rqs n))
  | serving_elsewhere others : (∀ n s, spares K u dv (sv_db s) (sv_db (others n s))) → serving K u dv others
  | serving_then first second : serving K u dv first → serving K u dv second → serving K u dv (λ n s, second n (first n s)).

Lemma serving_keeps K u dv others : serving K u dv others → keeps others K u dv.
Proof.
  induction 1 as [others rqs _ IH Hrqs|others Hsp|first second _ IH1 _ IH2]; intros b n s Hs.
  - apply serve_all_kept; [by apply IH|apply Hrqs|done].
  - by eapply spares_kept.
  - by apply IH2, IH1.
Qed.

(** C4: Once a device is logged out - by its own logout, by the user revoking the
    other devices or changing the password -, no access token of it is accepted
    and none of its sockets is found active, whatever requests of the identity,
    browser and account services follow in whatever order, refreshes of its old
    token included, and whatever such requests are served during the awaits of
    each, until the device logs in again.  Requests caught in their middle are
    only supposed to work on the rows of other devices ([serving]): the exception
    is a refresh of this very device that is under way while it is logged out,
    which undoes the logout ([Tokens.refresh_undoes_logout]). *)
Theorem logged_out_device_stays_out others l u dv s s' rqs now d' :
  let rows := ids_of u dv (sv_db s) in
  serving rows u dv others → leaves l u dv → leave others toLowerCase config l s = (Ok (), s') →
  Forall (elsewhere rows dv) rqs →
  validate_token u dv now (sv_db (served others rqs s')) d' = Err UnauthorizedException
  ∧ isSessionActive u dv now (sv_db (served others rqs s')) = false.
Proof.
  intros rows Ho%serving_keeps Hl Hrun Hel.
  assert (sealed rows u dv (sv_db (served others rqs s'))) as Hs.
  { apply serve_all_kept; [by apply Ho|done|]. by eapply leave_seals, Hrun; [|..|apply ids_of_kept]. }
  split; [by eapply sealed_not_validated|by eapply sealed_not_active].
Qed.
End meanwhile.
