(* ===== verification/Tokens.v ===== *)
(** * Refresh tokens: what a login is good for

    A login issues a refresh token that the device can use; using it issues
    another one.  bcrypt reads only the first 72 bytes of what it hashes, and the
    refresh tokens of one user on one device agree on those: [CredentialLaws]
    says so of [bcrypt_compare], the theorem below what follows. *)

From S2P Require Import Prelude Tables JsText Json Schema Config Storage Presence Server Identity Lockout.
Local Open Scope Z_scope.

(** bcrypt accepts what agrees with the hashed text on the bytes it reads. *)
Class CredentialLaws `{!Credentials} := {
  bcrypt_key : text → list Z;
  bcrypt_compare_hash salt t t' : bcrypt_compare t (bcrypt_hash salt t') = bool_decide (bcrypt_key t = bcrypt_key t');
}.

Section tokens.
Context {Hscan : ScanOrder} `{!Credentials} `{!CredentialLaws} {B : Type}.
Variable toLowerCase : text → text.
Variable refreshExpiration : text.
Abbreviation Srv := (Server B).
Implicit Types (s : Srv).

(** No other session on the device than those of the user, and one at most. *)
Definition lone (u dv : rowid) (d : DB) : Prop := ∀ k1 r1 k2 r2, db_deviceSessions d !! k1 = Some r1 → ds_deviceId r1 = dv →
  db_deviceSessions d !! k2 = Some r2 → ds_deviceId r2 = dv → k1 = k2 ∧ ds_userId r1 = u.
(** [r] is the one session of its device. *)
Definition only (k : rowid) (r : DeviceSession) (d : DB) : Prop := db_deviceSessions d !! k = Some r
  ∧ ∀ k' r', db_deviceSessions d !! k' = Some r' → ds_deviceId r' = ds_deviceId r → k' = k.

Lemma only_sessions_on k r d : only k r d → sessions_on (ds_deviceId r) d = [(k, r)].
Proof.
  intros [Hk Ho]. unfold sessions_on. apply (Permutation_singleton_r).
  apply NoDup_Permutation; [|by apply NoDup_singleton|].
  - unfold find_many. apply NoDup_filter. rewrite scan_perm. apply NoDup_map_to_list.
  - intros [k' r']. rewrite elem_of_find_many, list_elem_of_singleton, bool_decide_eq_true. split.
    + intros [Hk' Hd]. assert (k' = k) as -> by eauto. by simplify_eq.
    + by intros [= -> ->].
Qed.
Lemma only_session_of k r d : only k r d → session_of (ds_userId r) (ds_deviceId r) d = Some (k, r).
Proof.
  intros [Hk Ho]. unfold session_of. apply find_unique_iff.
  - intros k1 r1 k2 r2 H1 H2 D1 D2. unfold of_device in *. bool_inv. transitivity k; [|symmetry]; eapply Ho; eauto.
  - split; [done|]. unfold of_device. by rewrite !bool_decide_eq_true_2.
Qed.
Lemma only_update k r r' d : only k r d → ds_deviceId r' = ds_deviceId r → only k r' (d <| db_deviceSessions := <[k := r']> (db_deviceSessions d) |>).
Proof.
  intros [Hk Ho] Hd. split; cbn; [by rewrite lookup_insert_eq|]. intros k' r2. rewrite Hd.
  intros [[<- <-]|[_ Hk']]%lookup_insert_Some Hd2; eauto.
Qed.

(** What a login leaves. *)
Record logged_in (u : rowid) (user : User) (dv : rowid) (token : text) (k : rowid) (r : DeviceSession) (d : DB) : Prop := {
  li_user : db_users d !! u = Some user;
  li_active : u_accountStatus user = ACTIVE;
  li_only : only k r d;
  li_device : ds_userId r = u ∧ ds_deviceId r = dv;
  li_live : ds_revokedAt r = None;
  li_hash : ∃ salt, ds_refreshTokenHash r = bcrypt_hash salt token;
}.

Lemma upsert_lone k u dv hash e now d x d' :
  lone u dv d → upsert_session k u dv hash e now d = Ok (x, d') →
  db_users d' = db_users d ∧ ∃ k' r, only k' r d' ∧ (ds_userId r = u ∧ ds_deviceId r = dv) ∧ ds_revokedAt r = None
    ∧ ds_refreshTokenHash r = hash ∧ ds_previousRefreshTokenHash r = None ∧ ds_expiresAt r = e.
Proof.
  intros Hl Hrun. unfold upsert_session, create_session, update_session in Hrun. step_inv.
  - match goal with H : session_of _ _ _ = Some _ |- _ => apply find_unique_Some in H as [Hr Hd] end.
    match goal with H : db_deviceSessions d !! _ = Some ?r1, H' : db_deviceSessions d !! _ = Some ?r2 |- _ => assert (r1 = r2) as -> by congruence end.
    unfold of_device in Hd. bool_inv. split; [done|]. do 2 eexists. split.
    + match type of Hr with _ = Some ?r0 => apply (only_update _ r0) end; [|done]. split; [exact Hr|]. intros k' r' Hk' Hd'. by destruct (Hl k' r' _ _ Hk' ltac:(congruence) Hr ltac:(congruence)) as [-> _].
    + done.
  - option_inv. match goal with H : create_row _ _ _ _ = Some _ |- _ => apply create_row_Some in H as (Hn & Hc & ->) end. simplify_eq.
    split; [done|]. eexists k, _. split; [split; cbn; [by rewrite lookup_insert_eq|]|done].
    intros k' r' [[<- _]|[_ Hk']]%lookup_insert_Some Hd'; [done|]. simpl in Hd'.
    match goal with H : session_of _ _ _ = None |- _ => unfold session_of in H; rewrite find_unique_None in H; pose proof (H _ _ Hk') as Hno end.
    destruct (Hl _ _ _ _ Hk' Hd' Hk' Hd') as [_ Hu]. unfold of_device in Hno. by rewrite Hu, Hd', !bool_decide_eq_true_2 in Hno.
Qed.

(** Work that leaves the user and the sessions on the device as they are, while
    time passes. *)
Record aside (u dv : rowid) (s s' : Srv) : Prop := {
  as_user : db_users (sv_db s') !! u = db_users (sv_db s) !! u;
  as_sessions k r : ds_deviceId r = dv → db_deviceSessions (sv_db s') !! k = Some r ↔ db_deviceSessions (sv_db s) !! k = Some r;
  as_clock : sv_now s ≤ sv_now s';
}.
#[export] Instance aside_preorder u dv : PreOrder (aside u dv).
Proof.
  split; [done|]. intros s1 s2 s3 [U1 D1 C1] [U2 D2 C2]. split; [congruence| |lia]. intros k r Hd. by rewrite D2, D1.
Qed.
Lemma aside_lone u dv s s' : aside u dv s s' → lone u dv (sv_db s) → lone u dv (sv_db s').
Proof. intros Ha Hl k1 r1 k2 r2 H1 D1 H2 D2. apply (as_sessions _ _ _ _ Ha) in H1, H2; [|done..]. eauto. Qed.
Lemma aside_logged_in u dv s s' user token k r : aside u dv s s' → logged_in u user dv token k r (sv_db s) → logged_in u user dv token k r (sv_db s').
Proof.
  intros Ha [Hu Hact [Hk Ho] [Hru Hrd] Hrev Hh]. split; try done; [by rewrite (as_user _ _ _ _ Ha)|]. split; [by apply (as_sessions _ _ _ _ Ha)|].
  intros k' r' Hk' Hd. eapply Ho; [|exact Hd]. apply (as_sessions _ _ _ _ Ha); [congruence|done].
Qed.

Section served.
Variable others : nat → Srv → Srv.
Context {u dv : rowid} (others_aside : ∀ n s, aside u dv s (others n s)).

Lemma resumed_aside s : aside u dv s (resumed others s).
Proof. destruct (others_aside (sv_awaits s) s) as [U D C]. by split. Qed.
Ltac asides := repeat first [apply resumed_aside | etrans; [|apply resumed_aside]]; reflexivity.

Lemma login_state email password fresh s user tokens s' : lone u dv (sv_db s) →
  login others toLowerCase refreshExpiration (mkLoginDto email password dv) fresh s = (Ok ((u, user), tokens), s') →
  ∃ k r i t, logged_in u user dv (tk_refresh tokens) k r (sv_db s') ∧ ds_previousRefreshTokenHash r = None
    ∧ parseExpiry refreshExpiration t = Some (Some (ds_expiresAt r)) ∧ sv_now s ≤ t ≤ sv_now s'
    ∧ tk_refresh tokens = sign_refresh u (u_email user) dv (fr_jti fresh) i.
Proof.
  intros Hl Hrun. unfold login, createSessionTokens, issueTokens in Hrun. server_inv. bool_inv. cbn [fst snd ld_email ld_password ld_deviceId] in *.
  match goal with H : Some _ = find_unique _ _ |- _ => symmetry in H; apply find_unique_Some in H as [Hu _] end.
  match goal with H : upsert_session _ _ _ _ _ _ (sv_db ?w) = Ok _ |- _ =>
    assert (aside u dv s w) as Hw by asides;
    assert (aside u dv (resumed others s) w) as Hw' by asides;
    pose proof (as_clock u dv (resumed others (resumed others (resumed others s))) w ltac:(asides)) as Hclock;
    apply upsert_lone in H as (Hus & k & r & Ho & Hd & Hrev & Hh & Hp & He); [|exact (aside_lone _ _ _ _ Hw Hl)] end.
  match goal with H : parseExpiry _ (sv_now ?w0) = Some _ |- _ => exists k, r, (sv_now (resumed others (resumed others s))), (sv_now w0);
    assert (sv_now s ≤ sv_now w0) by (apply (as_clock u dv); asides) end.
  cbn [tk_refresh]. split_and!; try done.
  - split; try done; [|by eexists]. cbn. rewrite Hus. by rewrite (as_user _ _ _ _ Hw').
  - by rewrite He.
Qed.

Lemma rotate_served user token k fresh r s ms res s' :
  logged_in u user dv token k r (sv_db s) → duration refreshExpiration = Some ms →
  rotateSessionTokens others refreshExpiration k u (u_email user) dv fresh s = (res, s') → sv_now s' + ms ≤ MAX_DATE →
  ∃ i t r', res = Ok (mkPublicTokens (sign_access u (u_email user) dv i) (sign_refresh u (u_email user) dv (fr_jti fresh) i))
    ∧ sv_now s ≤ t ≤ sv_now s' ∧ logged_in u user dv (sign_refresh u (u_email user) dv (fr_jti fresh) i) k r' (sv_db s')
    ∧ ds_previousRefreshTokenHash r' = Some (ds_refreshTokenHash r) ∧ ds_expiresAt r' = t + ms.
Proof.
  intros Hli Hms Hrun Hmax. unfold rotateSessionTokens in Hrun. set (s1 := resumed others s) in *.
  assert (issueTokens others refreshExpiration u (u_email user) dv (fr_jti fresh) s
    = (Ok (mkPublicTokens (sign_access u (u_email user) dv (sv_now s)) (sign_refresh u (u_email user) dv (fr_jti fresh) (sv_now s)),
        if sv_now s1 + ms <=? MAX_DATE then Some (sv_now s1 + ms) else None), s1)) as Hissue.
  { unfold issueTokens, parseExpiry. rewrite clock_run, await_run, clock_run, Hms. done. }
  rewrite (act_bind_run _ _ _ _ _ Hissue) in Hrun. cbv beta iota zeta in Hrun. rewrite await_run, query_call_run in Hrun.
  set (s3 := resumed others (resumed others s1)) in *.
  assert (aside u dv s s1) as H1 by (subst s1; asides). assert (aside u dv s1 s3) as H3 by (subst s3; asides).
  pose proof (as_clock _ _ _ _ H1). pose proof (as_clock _ _ _ _ H3).
  assert (logged_in u user dv token k r (sv_db s3)) as Hli3 by (eapply (aside_logged_in u dv s); [by transitivity s1|exact Hli]).
  rewrite (act_require_some_run _ _ _ _ r) in Hrun by apply Hli3.
  destruct (Z.leb_spec (sv_now s1 + ms) MAX_DATE) as [Hle|Hgt].
  2: { rewrite act_require_some_stop in Hrun by done. injection Hrun as <- <-. lia. }
  rewrite (act_require_some_run _ _ _ _ _ eq_refl), clock_run in Hrun.
  assert (logged_in u user dv token k r (sv_db (resumed others s3))) as [Hu Ha Ho [Hru Hrd] Hrev Hh]
    by (eapply (aside_logged_in u dv s3); [apply resumed_aside|exact Hli3]).
  pose proof (as_clock _ _ _ _ (resumed_aside s3)).
  erewrite tx_call_run in Hrun; [|unfold update_session; rewrite tx_gets_run, (tx_require_some_run _ _ _ _ r) by apply Ho; reflexivity].
  apply (f_equal fst) in Hrun as Hres. apply (f_equal snd) in Hrun. cbn [fst snd] in Hres, Hrun. subst res s'. eexists _, (sv_now s1), _. split; [done|]. split; [split; [done|cbn; cbn in *; lia]|].
  split; [split; [exact Hu|exact Ha|by apply (only_update _ r)|done|done|by eexists]|]. split; reflexivity.
Qed.

(** A refresh with a token the session knows, whatever is served meanwhile. *)
Lemma refresh_served user token fresh k r s ms res s' :
  logged_in u user dv token k r (sv_db s) → ds_previousRefreshTokenHash r = None → duration refreshExpiration = Some ms →
  refreshToken others refreshExpiration token dv fresh s = (res, s') → sv_now s' < ds_expiresAt r → sv_now s' + ms ≤ MAX_DATE →
  ∃ i t r', res = Ok (mkPublicTokens (sign_access u (u_email user) dv i) (sign_refresh u (u_email user) dv (fr_jti fresh) i))
    ∧ sv_now s ≤ t ≤ sv_now s' ∧ logged_in u user dv (sign_refresh u (u_email user) dv (fr_jti fresh) i) k r' (sv_db s')
    ∧ ds_previousRefreshTokenHash r' = Some (ds_refreshTokenHash r) ∧ ds_expiresAt r' = t + ms.
Proof.
  intros Hli Hprev Hms Hrun Hexp Hmax. unfold refreshToken in Hrun. rewrite query_call_run in Hrun. cbv beta iota in Hrun.
  assert (logged_in u user dv token k r (sv_db (resumed others s))) as Hli1 by (eapply (aside_logged_in u dv s); [asides|exact Hli]).
  destruct Hli1 as [Hu Ha Ho [Hru Hrd] Hrev [salt Hh]].
  rewrite <- Hrd, (only_sessions_on _ _ _ Ho), Hrd in Hrun. simpl findMatchingSession in Hrun. rewrite Hprev in Hrun.
  unfold mbind at 1, act_bind at 1, mret at 1, act_ret at 1 in Hrun. cbv iota in Hrun.
  rewrite Hh, bcrypt_compare_hash, bool_decide_eq_true_2 in Hrun by done.
  set (s2 := resumed others (resumed others s)) in *. assert (aside u dv s s2) as H2 by (subst s2; asides).
  rewrite (act_bind_run _ _ _ (Some (k, r)) s2) in Hrun by done.
  rewrite (act_require_some_run _ _ _ _ _ eq_refl) in Hrun. cbv iota in Hrun.
  rewrite clock_run, Hru, (act_require_some_run _ _ _ _ user) in Hrun by done.
  destruct (refreshable (sv_now s2) r (Some user)) eqn:Hok.
  2: { rewrite act_require_stop in Hrun by done. injection Hrun as <- <-. unfold refreshable in Hok.
       rewrite Hrev, Ha, (proj2 (Z.ltb_lt _ _) Hexp) in Hok. done. }
  rewrite act_require_run in Hrun by done.
  destruct (rotate_served user token k fresh r s2 ms res s') as (i & t & r' & ? & ? & ? & ? & ?); try done.
  - by eapply aside_logged_in.
  - exists i, t, r'. split_and!; try done; [|lia]. pose proof (as_clock _ _ _ _ H2). lia.
Qed.
End served.


(** ... but only once.  The refresh tokens issued to a user on a device agree
    on the bytes bcrypt reads, so the token a refresh returned also matches the
    hash of the one it replaced: using it counts as a reuse, and the session is
    revoked. *)
Theorem second_refresh_logs_out dto fresh fresh' fresh'' s u user tokens s1 ms tokens' s2 :
  (∀ email jti t jti' t', bcrypt_key (sign_refresh u email (ld_deviceId dto) jti t) = bcrypt_key (sign_refresh u email (ld_deviceId dto) jti' t')) →
  lone u (ld_deviceId dto) (sv_db s) → duration refreshExpiration = Some ms →
  login alone toLowerCase refreshExpiration dto fresh s = (Ok ((u, user), tokens), s1) →
  refreshToken alone refreshExpiration (tk_refresh tokens) (ld_deviceId dto) fresh' s1 = (Ok tokens', s2) →
  sv_now s2 < sv_now s + ms → sv_now s2 + ms ≤ MAX_DATE →
  ∃ s3, refreshToken alone refreshExpiration (tk_refresh tokens') (ld_deviceId dto) fresh'' s2 = (Err UnauthorizedException, s3)
    ∧ ∀ now d', validate_token u (ld_deviceId dto) now (sv_db s3) d' = Err UnauthorizedException.
Proof.
  destruct dto as [email password dv]. cbn [ld_deviceId]. intros Hkey Hl Hms Hlogin Href Hexp Hmax.
  assert (∀ n s, aside u dv s (alone n s)) as Ho by done.
  apply login_state in Hlogin as (k & r & i & t & Hli & Hp & He & Ht & Htk); [|done..].
  unfold parseExpiry in He. rewrite Hms in He. simpl in He. case_match; [|done]. injection He as He.
  eapply refresh_served in Href as (i' & t' & r' & [= ->] & Ht' & Hli' & Hprev & He'); [|done|exact Hli|done|done|lia|done].
  destruct (li_hash _ _ _ _ _ _ _ Hli) as [salt Hh]. rewrite Hh in Hprev.
  clear Ho. destruct Hli' as [Hu Ha Ho [Hru Hrd] Hrev _]. pose proof Ho as [Hk _].
  eexists. split.
  - unfold refreshToken. rewrite query_call_run. cbv beta iota. change (sv_db (resumed alone s2)) with (sv_db s2).
    rewrite <- Hrd, (only_sessions_on _ _ _ Ho), Hrd. simpl findMatchingSession. rewrite Hprev, bcrypt_compare_hash, bool_decide_eq_true_2.
    2: { rewrite Htk. apply Hkey. }
    unfold mbind at 1, act_bind at 1. unfold sv_await at 1, act_modify at 1, mbind at 1, act_bind at 1, mret at 1, act_ret at 1. cbv iota.
    unfold sv_clock. rewrite act_gets_run. erewrite tx_call_run; [reflexivity|].
    unfold update_session. rewrite tx_gets_run, (tx_require_some_run _ _ _ _ r') by exact Hk. reflexivity.
  - intros now d'. eapply sealed_not_validated with (K := {[k]}). cbn. intros k1 r1 Hk1.
    cbn in Hk1. unfold alone in Hk1. apply lookup_insert_Some in Hk1 as [[<- <-]|[Hne Hk1]].
    + split; [|done]. unfold of_device. simpl. rewrite Hru, Hrd, !bool_decide_eq_true_2 by done. by rewrite elem_of_singleton.
    + split; [|by intros _ ->%elem_of_singleton]. rewrite elem_of_singleton. split; [done|]. unfold of_device. intros. bool_inv.
      destruct Ho as [_ Ho]. eapply Ho; [exact Hk1|congruence].
Qed.
End tokens.

(** ** A server to try it on

    [demo_credentials] signs tokens in the compact serialization of JWTs, with
    the header, and the claims in the order, of [jsonwebtoken]; its hash keeps
    the bytes that bcrypt reads. *)

Definition base64url : text := lit "ABCDEFGHIJKLMNOPQRSTUVWXYZabcdefghijklmnopqrstuvwxyz0123456789-_".
Definition b64 (n : Z) : Z := default 0 (base64url !! Z.to_nat n).
Fixpoint base64 (l : list Z) : text :=
  match l with
  | a :: b :: c :: l' => [b64 (a `div` 4); b64 (a mod 4 * 16 + b `div` 16); b64 (b mod 16 * 4 + c `div` 64); b64 (c mod 64)] ++ base64 l'
  | [a; b] => [b64 (a `div` 4); b64 (a mod 4 * 16 + b `div` 16); b64 (b mod 16 * 4)]
  | [a] => [b64 (a `div` 4); b64 (a mod 4 * 16)]
  | [] => []
  end.
Definition quote : Z := 34.
Definition quoted (l : text) : text := quote :: l ++ [quote].
Definition claims (sub : rowid) (email : text) (dv : rowid) (jti : string) (iat : instant) : text :=
  lit "{" ++ quoted (lit "sub") ++ lit ":" ++ quoted (lit sub) ++ lit "," ++ quoted (lit "email") ++ lit ":" ++ quoted email ++ lit ","
  ++ quoted (lit "deviceId") ++ lit ":" ++ quoted (lit dv) ++ lit "," ++ quoted (lit "jti") ++ lit ":" ++ quoted (lit jti) ++ lit ","
  ++ quoted (lit "iat") ++ lit ":" ++ [iat] ++ lit "}".
Definition jwt_header : text := lit "eyJhbGciOiJIUzI1NiIsInR5cCI6IkpXVCJ9".
Definition demo_jwt (sub : rowid) (email : text) (dv : rowid) (jti : string) (iat : instant) : text :=
  jwt_header ++ lit "." ++ base64 (claims sub email dv jti iat) ++ lit "." ++ lit jti.
Definition demo_credentials : Credentials := {|
  bcrypt_hash salt t := take 72 t;
  bcrypt_compare t h := bool_decide (take 72 t = h);
  sign_access sub email dv iat := demo_jwt sub email dv "" iat;
  sign_refresh sub email dv jti iat := demo_jwt sub email dv jti iat;
|}.
#[local] Existing Instance demo_credentials.
#[local] Existing Instance key_order.
Definition demo_laws : CredentialLaws := {| bcrypt_key := take 72; bcrypt_compare_hash salt t t' := eq_refl |}.
#[local] Existing Instance demo_laws.

Definition demo_id : rowid := "0b1f2c3d-4e5f-4a6b-8c7d-9e0f1a2b3c4d".
Definition demo_account : User := (demo_user "alice") <| u_normalizedEmail := lit "a@b.c" |> <| u_email := lit "a@b.c" |> <| u_passwordHash := lit "secret" |>.
Definition demo_server : Server () :=
  mkServer (mkWorld (empty_db <| db_users := {[demo_id := demo_account]} |>) []) (mkStorage true (mkStorageCapability true true true) ())
    (mkGateway ∅ ∅ ∅ ∅ ∅ ∅ ∅ ∅ ∅ [] ∅) [] 1000 0.
Definition demo_dto : LoginDto := mkLoginDto (lit "a@b.c") (lit "secret") "laptop".
Definition draw (n : string) : Fresh := mkFresh [] n ("session-" +:+ n).
Definition lower (t : text) : text := t.
Definition week : text := lit "7d".
Definition ok_of {A W} (dflt : A) (r : result A * W) : A := match r.1 with Ok a => a | Err _ => dflt end.
Definition no_tokens : PublicTokens := mkPublicTokens [] [].
Definition logged := login alone lower week demo_dto (draw "1") demo_server.
Definition first_tokens : PublicTokens := (ok_of ((demo_id, demo_account), no_tokens) logged).2.
Definition refreshed := refreshToken alone week (tk_refresh first_tokens) "laptop" (draw "2") logged.2.
Definition second_tokens : PublicTokens := ok_of no_tokens refreshed.

Lemma demo_lone : lone demo_id "laptop" (sv_db demo_server).
Proof. intros k1 r1 k2 r2 H. cbn in H. by apply lookup_empty_Some in H. Qed.
Lemma demo_login : login alone lower week demo_dto (draw "1") demo_server = (Ok ((demo_id, demo_account), first_tokens), logged.2).
Proof. vm_compute. reflexivity. Qed.
Lemma demo_refresh : refreshToken alone week (tk_refresh first_tokens) "laptop" (draw "2") logged.2 = (Ok second_tokens, refreshed.2).
Proof. vm_compute. reflexivity. Qed.
Lemma demo_agree email jti t jti' t' :
  bcrypt_key (sign_refresh demo_id email "laptop" jti t) = bcrypt_key (sign_refresh demo_id email "laptop" jti' t').
Proof. reflexivity. Qed.

(** Time passes during every await, and an hour between the login and the
    refresh. *)
Definition ticking (n : nat) (s : Server ()) : Server () := s <| sv_now := sv_now s + 5 |>.
Definition slow_login := login ticking lower week demo_dto (draw "1") demo_server.
Definition slow_tokens : PublicTokens := (ok_of ((demo_id, demo_account), no_tokens) slow_login).2.
Definition hour_later : Server () := slow_login.2 <| sv_now := 3601000 |>.
Definition late_refresh := refreshToken ticking week (tk_refresh slow_tokens) "laptop" (draw "2") hour_later.
Lemma aside_later (u dv : rowid) (s : Server ()) t : sv_now s ≤ t → aside u dv s (s <| sv_now := t |>).
Proof. by split. Qed.
Lemma demo_slow_login : slow_login = (Ok ((demo_id, demo_account), slow_tokens), slow_login.2).
Proof. vm_compute. reflexivity. Qed.
Lemma second_refresh_logs_out_witness :
  ∃ s3, refreshToken alone week (tk_refresh second_tokens) "laptop" (draw "3") refreshed.2 = (Err UnauthorizedException, s3)
    ∧ ∀ now d', validate_token demo_id "laptop" now (sv_db s3) d' = Err UnauthorizedException.
Proof.
  apply (second_refresh_logs_out lower week demo_dto (draw "1") (draw "2") (draw "3") demo_server demo_id demo_account first_tokens logged.2
    604800000 second_tokens refreshed.2).
  - intros. apply demo_agree.
  - apply demo_lone.
  - reflexivity.
  - apply demo_login.
  - apply demo_refresh.
  - vm_compute. reflexivity.
  - vm_compute. done.
Defined.

(** ** A logout during a refresh *)

(** The device is logged out while the refresh waits for the hash of its new
    token. *)
Definition logout_meanwhile (n : nat) (s : Server ()) : Server () := if bool_decide (n = 3 + sv_awaits logged.2)%nat then (logout alone demo_id "laptop" "laptop" s).2 else s.
Definition raced := refreshToken logout_meanwhile week (tk_refresh first_tokens) "laptop" (draw "2") logged.2.

(** A refresh that is under way when the device is logged out undoes the
    logout: [rotateSessionTokens] writes [revokedAt: null] whatever happened
    since the session was read.  The logout returned, and its session is live
    again. *)
Theorem refresh_undoes_logout :
  (∀ s : Server (), (logout alone demo_id "laptop" "laptop" s).1 = Ok ())
  ∧ is_Some (r ← session_of demo_id "laptop" (sv_db (logout alone demo_id "laptop" "laptop" logged.2).2); ds_revokedAt (r : rowid * DeviceSession).2)
  ∧ (raced.1 = Ok second_tokens)
  ∧ validate_token demo_id "laptop" 1000 (sv_db raced.2) (sv_db raced.2) = Ok (mkPrincipal demo_id (lit "a@b.c") (lit "alice") "laptop").
Proof.
  split; [by intros s|]. split; [vm_compute; by eexists|]. split; vm_compute; reflexivity.
Qed.

(** ** After a logout *)

Definition demo_browser_config : Browser.BrowserConfig := Browser.mkBrowserConfig [] None None (lit "15m").
(** The laptop logs out, with a login on the phone served during every await;
    then somebody tries the refresh token of the laptop, and the phone logs in. *)
Definition demo_leave : Leave := L_logout demo_id "laptop".
Definition left_server : Server (gmap text S3Object) :=
  mkServer (sv_world logged.2) (demo_storage ∅) (mkGateway ∅ ∅ ∅ ∅ ∅ ∅ ∅ ∅ ∅ [] ∅) [] 1000 0.
Definition demo_served (others : nat → Server (gmap text S3Object) → Server (gmap text S3Object)) (rqs : list AuthRequest) :=
  serve_all others lower (λ l, default "" (head l)) week (λ t, t) (λ _, None) demo_browser_config (λ _ _, None)
    (mkStorageLimits 100 1000 10 24 900 25 30) (λ _ _, true) 4 rqs.
Definition phone_login : AuthRequest := AR_login (mkLoginDto (lit "a@b.c") (lit "secret") "phone") (draw "9").
Definition phone_meanwhile (n : nat) := demo_served alone [phone_login].
Definition left_ := leave phone_meanwhile lower demo_browser_config demo_leave left_server.
Definition afterwards : list AuthRequest := [AR_refresh (tk_refresh first_tokens) "laptop" (draw "2"); phone_login].
Lemma demo_elsewhere : Forall (elsewhere (ids_of demo_id "laptop" (sv_db left_server)) "laptop") afterwards.
Proof. constructor; [done|]. constructor; [|constructor]. split; [done|]. apply (bool_decide_unpack _). vm_compute. done. Qed.
Lemma phone_serving K u dv : Forall (elsewhere K dv) [phone_login] →
  serving lower (λ l, default "" (head l)) week (λ t, t) (λ _, None) demo_browser_config (λ _ _, None)
    (mkStorageLimits 100 1000 10 24 900 25 30) (λ _ _, true) 4 K u dv phone_meanwhile.
Proof.
  intros Hel. unfold phone_meanwhile, demo_served. apply (serving_requests _ _ _ _ _ _ _ _ _ _ _ _ _ alone (λ _, [phone_login])); [|done].
  apply serving_elsewhere. intros n s k r Hk. left. by exists r.
Qed.
Lemma logged_out_device_stays_out_witness :
  let s := demo_served phone_meanwhile afterwards left_.2 in
  isSessionActive demo_id "phone" 1000 (sv_db s) = true
  ∧ ∀ now d', validate_token demo_id "laptop" now (sv_db s) d' = Err UnauthorizedException
    ∧ isSessionActive demo_id "laptop" now (sv_db s) = false.
Proof.
  split; [vm_compute; reflexivity|]. intros now d'.
  apply (logged_out_device_stays_out lower (λ l, default "" (head l)) week (λ t, t) (λ _, None) demo_browser_config (λ _ _, None)
    (mkStorageLimits 100 1000 10 24 900 25 30) (λ _ _, true) 4 phone_meanwhile demo_leave demo_id "laptop" left_server left_.2 afterwards).
  - apply phone_serving. constructor; [|constructor]. exact (proj1 (proj1 (Forall_cons _ _ _) (proj2 (proj1 (Forall_cons _ _ _) demo_elsewhere)))).
  - done.
  - vm_compute. reflexivity.
  - exact demo_elsewhere.
Defined.
