(* ===== verification/AccountSafety.v ===== *)
(** * What happens to an account that asks to be deleted

    The request locks the account and ends its visits; the end of the account
    waits for the last upload address, removes the objects and then the rows,
    and is tried again with a growing delay when it fails. *)

From stdpp Require Import sorting.
From S2P Require Import Prelude Tables JsText Json Schema Interfaces Config Visit Storage Presence AssetPack Server Identity Account Lockout.
Local Open Scope Z_scope.

(** ** The request *)

Section request.
Implicit Types (d : DB).

(** What the writes of the transaction do to each table. *)
Definition request_writes (u : rowid) (account : User) (invitations sessions : list rowid) (t now : instant) (d : DB) : DB :=
  revoke_devices u now (withdraw u now (leave_rooms u invitations sessions t now (end_visits u t now (cancel_invitations u t now (lock_user u account t d))))).

Section writes.
Context (u : rowid) (account : User) (invitations sessions : list rowid) (t now : instant) (d : DB).
Abbreviation d' := (request_writes u account invitations sessions t now d).
Lemma request_users : db_users d' = db_users (lock_user u account t d).
Proof. reflexivity. Qed.
Lemma request_devices : db_deviceSessions d' = db_deviceSessions (revoke_devices u now d).
Proof. reflexivity. Qed.
Lemma request_invitations : db_invitations d' = db_invitations (cancel_invitations u t now d).
Proof. reflexivity. Qed.
Lemma request_sessions : db_sessions d' = db_sessions (end_visits u t now d).
Proof. reflexivity. Qed.
Lemma request_reservations : db_reservations d' = db_reservations (leave_rooms u invitations sessions t now d).
Proof. reflexivity. Qed.
Lemma request_participants : db_participants d' = db_participants (leave_rooms u invitations sessions t now d).
Proof. reflexivity. Qed.
Lemma request_companions : db_companions d' = db_companions (withdraw u now d).
Proof. reflexivity. Qed.
Lemma request_packs : db_assetPacks d' = db_assetPacks (withdraw u now d).
Proof. reflexivity. Qed.
End writes.

Lemma deleteAccount_tx_ok u now d t d' : deleteAccount_tx u now d = Ok (t, d') →
  ∃ account, db_users d !! u = Some account
    ∧ d' = request_writes u account
        (filter (λ kr, (inv_status kr.2 == I_pending) && invitation_of u kr.2 = true) (map_to_list (db_invitations d))).*1
        (filter (λ ks, live (ses_state ks.2) && (visit_of u ks.2 || takes_part u ks.1 d) = true) (map_to_list (db_sessions d))).*1 t now d.
Proof. intros Hrun. unfold deleteAccount_tx in Hrun. step_inv. eauto. Qed.

Lemma ended_visits u t now d i s : db_sessions (end_visits u t now d) !! i = Some s → visit_of u s = true → live (ses_state s) = false.
Proof.
  intros Hi. apply lookup_update_many_Some in Hi as (s1 & Hi & ->). apply lookup_update_many_Some in Hi as (s0 & Hi & Hs1).
  assert (visit_of u s1 = visit_of u s0) as Hv by (rewrite Hs1; by case_match).
  assert (visit_of u s0 = true → ses_state s1 ∉ [S_preparing; S_ready]) as Hopen.
  { rewrite Hs1. intros Hv0. rewrite Hv0, andb_true_r. case_bool_decide; [by intros [?|[?|?%elem_of_nil]%elem_of_cons]%elem_of_cons|done]. }
  destruct (bool_decide (ses_state s1 ∈ _)) eqn:E; (destruct (visit_of u s1) eqn:Hv1; simpl; intros Hu; [|unfold visit_of in *; simpl in *; congruence]); [reflexivity|].
  apply bool_decide_eq_false in E. specialize (Hopen ltac:(congruence)).
  unfold live, SESSION_LIVE. apply bool_decide_eq_false. rewrite !elem_of_cons, elem_of_nil in *. naive_solver.
Qed.
Lemma withdrawn_companions u now d i c : db_companions (withdraw u now d) !! i = Some c → co_ownerUserId c = u →
  co_published c = false ∧ co_activeAssetPackId c = None.
Proof. intros Hi Ho. apply lookup_update_many_Some in Hi as (c0 & Hi & ->). destruct (co_ownerUserId c0 == u) eqn:E; [done|]. by bool_inv. Qed.
Lemma withdrawn_owner u now d k : owned_companion u (withdraw u now d) k = owned_companion u d k.
Proof.
  unfold owned_companion, withdraw. cbn. rewrite lookup_update_many.
  destruct (db_companions d !! k) as [c|]; simpl; [|done]. by destruct (co_ownerUserId c == u) eqn:E; simpl; rewrite E.
Qed.
Lemma withdrawn_packs u now d i p : db_assetPacks (withdraw u now d) !! i = Some p → owned_companion u d (pk_companionId p) = true → pk_status p = PK_deleting.
Proof.
  intros Hi. apply lookup_update_many_Some in Hi as (p0 & _ & ->). destruct (owned_by u _ p0) eqn:E; [done|].
  intros Ho. unfold owned_by, owned_companion in E, Ho. cbn in E. by rewrite E in Ho.
Qed.

(** C9: The transaction of [deleteAccount] locks the account: it is suspended and
    marked, no access token of any of its devices is accepted, it has no pending
    invitation, no open visit and no reservation left, none of its companions is
    published, and its packs are on their way out. *)
Theorem deletion_locks_account u now d t d' : deleteAccount_tx u now d = Ok (t, d') →
  (∃ user, db_users d' !! u = Some user ∧ u_accountStatus user = SUSPENDED ∧ u_deletionRequestedAt user = Some t ∧ u_activeNetworkCompanionId user = None)
  ∧ (∀ dv now d2, validate_token u dv now d' d2 = Err UnauthorizedException)
  ∧ (∀ i r, db_invitations d' !! i = Some r → invitation_of u r = true → inv_status r ≠ I_pending)
  ∧ (∀ i s, db_sessions d' !! i = Some s → visit_of u s = true → live (ses_state s) = false)
  ∧ db_reservations d' !! u = None
  ∧ (∀ i c, db_companions d' !! i = Some c → co_ownerUserId c = u → co_published c = false ∧ co_activeAssetPackId c = None)
  ∧ (∀ i p, db_assetPacks d' !! i = Some p → owned_by u d' p = true → pk_status p = PK_deleting).
Proof.
  intros (account & Hu & ->)%deleteAccount_tx_ok. rewrite request_users, request_invitations, request_sessions, request_reservations, request_companions, request_packs.
  split_and!.
  - eexists. unfold lock_user. cbn. by rewrite lookup_insert_eq.
  - intros dv now' d2. apply (sealed_not_validated (ids_of u dv d) u dv). unfold sealed. rewrite request_devices. apply revoke_devices_seals.
  - intros i r Hi Hr. apply lookup_update_many_Some in Hi as (r0 & Hi & ->). destruct ((inv_status r0 == I_pending) && invitation_of u r0) eqn:E; [done|].
    rewrite Hr, andb_true_r in E. by bool_inv.
  - intros i s. apply ended_visits.
  - unfold leave_rooms. cbn. rewrite lookup_delete_many. destruct (db_reservations d !! u); simpl; [|done]. by rewrite bool_decide_eq_true_2.
  - intros i c. apply withdrawn_companions.
  - intros i p Hi Ho. eapply withdrawn_packs; [exact Hi|]. unfold owned_by, owned_companion in Ho. rewrite request_companions in Ho.
    fold (owned_companion u (withdraw u now d) (pk_companionId p)) in Ho. by rewrite withdrawn_owner in Ho.
Qed.

(** The visits the user merely joined as a guest are not ended - but everyone
    in them is made to leave: the session stays as it was, without a present
    participant and without a reservation. *)
Theorem guest_deletion_empties_room u now d t d' sid s :
  db_sessions d !! sid = Some s → live (ses_state s) = true → visit_of u s = false → takes_part u sid d = true →
  deleteAccount_tx u now d = Ok (t, d') →
  db_sessions d' !! sid = Some s
  ∧ (∀ i p, db_participants d' !! i = Some p → par_sessionId p = sid → par_state p = P_left)
  ∧ (∀ v r, db_reservations d' !! v = Some r → res_sessionId r ≠ Some sid).
Proof.
  intros Hs Hlive Hno Hpart (account & Hu & ->)%deleteAccount_tx_ok. rewrite request_sessions, request_participants, request_reservations.
  match goal with |- context [leave_rooms _ ?l ?l' _ _ _] => set (invs := l); set (sess := l') end.
  assert (sid ∈ sess) as Hin.
  { apply list_elem_of_fmap. exists (sid, s). split; [done|]. apply list_elem_of_filter. rewrite elem_of_map_to_list. simpl. by rewrite Hlive, Hpart, orb_true_r. }
  clearbody invs sess. split_and!.
  - unfold end_visits. cbn. rewrite !lookup_update_many, Hs. simpl. rewrite Hno, !andb_false_r. simpl. by rewrite Hno, !andb_false_r.
  - intros i p Hi Hp. apply lookup_update_many_Some in Hi as (p0 & Hi & ->).
    destruct (bool_decide (par_sessionId p0 ∈ sess) && (par_state p0 != P_left)) eqn:E; [done|].
    rewrite Hp, bool_decide_eq_true_2 in E by done. simpl in E. by bool_inv.
  - intros v r Hv Hr. apply lookup_delete_many_Some in Hv as [_ Hv]. rewrite Hr in Hv. simpl in Hv. by rewrite (bool_decide_eq_true_2 _ Hin), !orb_true_r in Hv.
Qed.
End request.

(** ** A user who spoke as a guest *)

(** The user asked for deletion, and a turn of theirs stands in a visit that is
    neither theirs nor of one of their companions. *)
Definition spoke_elsewhere (u : rowid) (d : DB) : Prop :=
  (∃ user, db_users d !! u = Some user ∧ is_Some (u_deletionRequestedAt user))
  ∧ ∃ k t s, db_turns d !! k = Some t ∧ tu_senderUserId t = u ∧ db_sessions d !! tu_sessionId t = Some s
    ∧ visit_of u s = false ∧ owned_companion u d (ses_networkCompanionId s) = false.

Lemma spoke_frame u d d' : db_turns d' = db_turns d → db_sessions d' = db_sessions d → db_companions d' = db_companions d →
  (∀ user, db_users d !! u = Some user → is_Some (u_deletionRequestedAt user) →
     ∃ user', db_users d' !! u = Some user' ∧ is_Some (u_deletionRequestedAt user')) →
  spoke_elsewhere u d → spoke_elsewhere u d'.
Proof.
  intros Ht Hs Hc Hu [(user & Huser & Hreq) (k & t & s & Hk & Hsender & Hses & Hno & Hown)]. split; [by eapply Hu|].
  exists k, t, s. rewrite Ht, Hs. unfold owned_companion in *. by rewrite Hc.
Qed.

Lemma delete_user_restricted u d : restricted u d = true → delete_user u d = None.
Proof. intros Hr. unfold delete_user. by rewrite Hr. Qed.
Lemma finalize_tx_spoke u ttl n m now d r d' : spoke_elsewhere u d → finalize_tx u ttl n m now d = Ok (r, d') → r ≠ F_deleted ∧ d' = d.
Proof.
  intros Hsp Hrun. unfold finalize_tx in Hrun. step_inv; [done| |].
  - exfalso. match goal with H : delete_user u ?d1 = Some _ |- _ => assert (restricted u d1 = true) as Hres; [|by rewrite delete_user_restricted in H] end.
    destruct Hsp as [_ (k & t & s & Hk & Hsender & Hses & Hno & Hown)].
    match goal with H : (if ?b then None else Some _) = Some _ |- _ => destruct b; [done|]; injection H as <- end.
    unfold restricted. rewrite !orb_true_iff. do 6 left. apply exists_where_true. exists k, t. split; [|by apply bool_decide_eq_true].
    cbn. apply lookup_delete_many_Some. split; [done|]. by rewrite Hses, Hno, Hown.
  - exfalso. destruct Hsp as [(user & Hu & t & Hreq) _].
    match goal with H : (_ ≫= _) = None |- _ => rewrite Hu in H; simpl in H; by rewrite Hreq in H end.
Qed.

Section deletion.
Context {Hscan : ScanOrder} {B : Type} `{!ObjectStore B}.
Variable others : nat → Server B → Server B.
Variable limits : StorageLimits.
Variable id_le : rowid → rowid → bool.
Variable fuel : nat.
Abbreviation Srv := (Server B).
Implicit Types (s : Srv).

Section guest.
Context {u : rowid} (others_keep : ∀ n s, spoke_elsewhere u (sv_db s) → spoke_elsewhere u (sv_db (others n s))).
Abbreviation Spoke := (λ s : Srv, spoke_elsewhere u (sv_db s)).

Lemma spoke_body v kp : preserves Spoke (delete_pack_objects others fuel v kp).
Proof.
  unfold delete_pack_objects, cleanup_failed. preserves. apply preserves_tx; [done|]. intros d x d' Hd Hrun. step_inv.
  eapply spoke_frame; [..|exact Hd]; try done. eauto.
Qed.
Lemma spoke_pages {R} n (fetch : option rowid → DB → list (rowid * R)) body cursor :
  (∀ kr, preserves Spoke (body kr)) → preserves Spoke (pages others n fetch body cursor).
Proof. intros Hb. revert cursor. induction n as [|n IH]; intros cursor; simpl; preserves. Qed.
Lemma spoke_finalize t : preserves Spoke (finalizePendingAccountDeletion others limits id_le fuel u t).
Proof.
  unfold finalizePendingAccountDeletion. preserves.
  - apply spoke_pages. intros kp. apply spoke_body.
  - apply preserves_tx; [done|]. intros d x d' Hd Hrun. by destruct (finalize_tx_spoke _ _ _ _ _ _ _ _ Hd Hrun) as [_ ->].
Qed.
Lemma spoke_defer v t failed : preserves Spoke (deferAccountDeletion others v t failed).
Proof.
  unfold deferAccountDeletion. preserves; apply preserves_tx; try done; intros d x d' Hd Hrun; step_inv;
    (eapply spoke_frame; [..|exact Hd]; [done|done|done|]); intros user Hu Hreq; unfold defer_write; cbn;
    (destruct (decide (u = v)) as [<-|Hne]; [rewrite lookup_alter_eq, Hu|rewrite lookup_alter_ne by done; eauto]);
    simpl; case_match; eauto.
Qed.
Lemma finalize_not_deleted t s s' : spoke_elsewhere u (sv_db s) → finalizePendingAccountDeletion others limits id_le fuel u t s ≠ (Ok F_deleted, s').
Proof.
  intros Hs Hrun. unfold finalizePendingAccountDeletion in Hrun. apply act_bind_ok in Hrun as (summary & s1 & H1 & Hrun).
  apply act_bind_ok in Hrun as (now & s2 & H2 & Hrun). apply sv_clock_ok in H2 as [-> ->]. case_match; [by apply act_ret_ok in Hrun as [? _]|].
  apply act_bind_ok in Hrun as (n & s3 & H3 & Hrun). apply act_bind_ok in Hrun as (now' & s4 & H4 & Hrun). apply sv_clock_ok in H4 as [-> ->].
  apply sv_tx_ok in Hrun as (d & Hd & _). apply finalize_tx_spoke in Hd as [? _]; [done|].
  apply others_keep. pose proof (preserves_query (spoke_elsewhere u) others others_keep (pack_summary u) s Hs) as Hs1. rewrite H1 in Hs1.
  pose proof (spoke_pages fuel (packs_page id_le u) (delete_pack_objects others fuel u) None (spoke_body u) s1 Hs1) as Hs3. by rewrite H3 in Hs3.
Qed.

(** An account is never deleted once its user has said something as a guest
    in a visit of others: the rows of its turns restrict the deletion of the user,
    and nothing removes them.  Every attempt ends with another one pending. *)
Theorem guest_who_spoke_stays s t : spoke_elsewhere u (sv_db s) →
  (finish_or_defer others limits id_le fuel u t s).1 ≠ Ok F_deleted ∧ spoke_elsewhere u (sv_db (finish_or_defer others limits id_le fuel u t s).2).
Proof.
  intros Hs. assert (preserves Spoke (finish_or_defer others limits id_le fuel u t)) as Hp.
  { unfold finish_or_defer. preserves; try apply spoke_finalize; try apply spoke_defer. }
  specialize (Hp s Hs). destruct (finish_or_defer others limits id_le fuel u t s) as [r s'] eqn:Hrun. split; [|done]. simpl. intros ->.
  unfold finish_or_defer, act_catch in Hrun. match type of Hrun with (match ?m s with _ => _ end) = _ => destruct (m s) as [[r1|e1] s1] eqn:Hf end; simplify_eq.
  - apply act_bind_ok in Hf as (res & s2 & H1 & H2). destruct res; [by eapply finalize_not_deleted in H1|].
    apply act_bind_ok in H2 as (? & ? & _ & H2). by apply act_ret_ok in H2 as [? _].
Qed.
End guest.

(** ** What is gone with the account *)

Section gone.
Context `{!ObjectStoreLaws B}.
Context (id_total : ∀ a b, id_le a b = true ∨ id_le b a = true) (id_trans : ∀ a b c, id_le a b = true → id_le b c = true → id_le a c = true)
  (id_antisym : ∀ a b, id_le a b = true → id_le b a = true → a = b).
(** Meanwhile others neither change accounts, companions or packs nor upload,
    and time goes on. *)
Definition leaves_alone (s s' : Srv) : Prop := db_users (sv_db s') = db_users (sv_db s) ∧ db_companions (sv_db s') = db_companions (sv_db s)
  ∧ db_assetPacks (sv_db s') = db_assetPacks (sv_db s) ∧ fewer (sv_bucket s) (sv_bucket s') ∧ sv_now s ≤ sv_now s'.
#[local] Instance leaves_alone_preorder : PreOrder leaves_alone.
Proof.
  split; [by intros s|]. intros s1 s2 s3 (E1 & E2 & E3 & F1 & T1) (G1 & G2 & G3 & F2 & T2). split_and!; [congruence..|by etrans|lia].
Qed.
Context (others_alone : ∀ n s, leaves_alone s (others n s)).

Lemma resumed_alone' s : leaves_alone s (resumed others s).
Proof. apply others_alone. Qed.

Definition emptied (s : Srv) (kp : rowid * AssetPack) : Prop := ∀ k, starts_with (directory (pk_objectPrefix kp.2)) k = true → object_at (sv_bucket s) k = None.
Lemma emptied_fewer s s' kp : fewer (sv_bucket s) (sv_bucket s') → emptied s kp → emptied s' kp.
Proof. intros Hf He k Hk. by apply Hf, He. Qed.
Lemma emptied_later s s' kp : leaves_alone s s' → emptied s kp → emptied s' kp.
Proof. intros (_ & _ & _ & Hf & _). by apply emptied_fewer. Qed.

Lemma delete_pack_objects_ok u kp s s' x : delete_pack_objects others fuel u kp s = (Ok x, s') → leaves_alone s s' ∧ emptied s' kp.
Proof.
  unfold delete_pack_objects, act_catch. intros Hrun. destruct (sv_storage_call _ _ s) as [[y|e] s1] eqn:Hc.
  - simplify_eq. unfold sv_storage_call in Hc. apply act_bind_ok in Hc as ([] & s2 & H1 & H2). apply sv_await_ok in H1 as ->.
    unfold on_storage in H2. pose proof (deleteObjectPrefix_fewer fuel (pk_objectPrefix kp.2) (sv_storage (resumed others s))) as Hd.
    destruct (deleteObjectPrefix fuel _ _) as [r b]. destruct Hd as [Hf He]. simplify_eq. destruct x. split; [|exact (He eq_refl)].
    etrans; [apply resumed_alone'|]. by split_and!.
  - unfold cleanup_failed in Hrun. apply act_bind_ok in Hrun as (? & ? & _ & Hrun). apply act_bind_ok in Hrun as (? & ? & _ & Hrun). by apply act_throw_ok in Hrun.
Qed.
Lemma delete_pages_objects_ok u l s s' x : act_for l (delete_pack_objects others fuel u) s = (Ok x, s') → leaves_alone s s' ∧ Forall (emptied s') l.
Proof.
  revert s. induction l as [|kp l IH]; intros s Hrun; simpl in Hrun; [apply act_ret_ok in Hrun as [_ ->]; by split|].
  apply act_bind_ok in Hrun as (? & s1 & H1 & H2). apply delete_pack_objects_ok in H1 as [Ha He]. apply IH in H2 as [Ha2 Hl].
  split; [by etrans|]. constructor; [by eapply emptied_later|done].
Qed.

(** The pages are the sorted list of the packs, a hundred at a time. *)
Definition in_order (u : rowid) (d : DB) : list (rowid * AssetPack) := find_many_by (λ _ r, owned_by u d r) (λ a b, id_le a.1 b.1) (db_assetPacks d).
Definition after_cursor (u : rowid) (cursor : option rowid) (d : DB) : list (rowid * AssetPack) :=
  match cursor with None => in_order u d | Some c => drop 1 (filter (λ kr, id_le c kr.1 = true) (in_order u d)) end.

Lemma in_order_sorted u d : StronglySorted (λ a b, id_le a.1 b.1 = true) (in_order u d).
Proof. apply (sort_by_sorted (λ a b, id_le a.1 b.1)); eauto. Qed.
Lemma elem_of_in_order u d k p : (k, p) ∈ in_order u d ↔ db_assetPacks d !! k = Some p ∧ owned_by u d p = true.
Proof. unfold in_order, find_many_by. by rewrite elem_of_sort_by, elem_of_find_many. Qed.
Lemma in_order_NoDup u d : NoDup (in_order u d).*1.
Proof.
  apply NoDup_fmap_fst; [intros k p p'; rewrite !elem_of_in_order; naive_solver|].
  unfold in_order, find_many_by. rewrite sort_by_perm. unfold find_many. apply NoDup_filter. rewrite scan_perm. apply NoDup_map_to_list.
Qed.
Lemma filter_from u d l c l' : in_order u d = l ++ c :: l' → filter (λ kr, id_le c.1 kr.1 = true) (in_order u d) = c :: l'.
Proof.
  pose proof (in_order_sorted u d) as Hs. pose proof (in_order_NoDup u d) as Hn. intros Heq. rewrite Heq in *. clear Heq.
  rewrite filter_app. assert (filter (λ kr, id_le c.1 kr.1 = true) l = []) as ->.
  { destruct (filter _ l) as [|x l0] eqn:Hf; [done|exfalso]. assert (x ∈ filter (λ kr, id_le c.1 kr.1 = true) l) as Hx by (rewrite Hf; by left).
    apply list_elem_of_filter in Hx as [Hle Hx]. rewrite fmap_app, NoDup_app in Hn. destruct Hn as (_ & Hn & _).
    apply (Hn x.1); [by apply list_elem_of_fmap_2|]. rewrite fmap_cons. apply elem_of_cons. left. apply id_antisym; [|done].
    apply (StronglySorted_app_1_elem_of (λ a b, id_le a.1 b.1 = true) l (c :: l') x c Hs Hx). by left. }
  simpl. apply StronglySorted_app_1_r, StronglySorted_inv in Hs as [_ Hc].
  rewrite filter_cons_True by (by destruct (id_total c.1 c.1)). f_equal. by apply filter_all.
Qed.
Lemma after_last u d cursor l : in_order u d = l ++ after_cursor u cursor d → (100 <= length (after_cursor u cursor d))%nat →
  ∃ c, last (take 100 (after_cursor u cursor d)) = Some c ∧ (∃ l', in_order u d = l' ++ c :: drop 100 (after_cursor u cursor d))
    ∧ after_cursor u (Some c.1) d = drop 100 (after_cursor u cursor d).
Proof.
  intros Heq Hlen. set (rest := after_cursor u cursor d) in *. destruct (take 100 rest) as [|x0 l0 _] eqn:Ht using rev_ind.
  { apply (f_equal length) in Ht. rewrite length_take, Nat.min_l in Ht by done. discriminate Ht. }
  exists x0. rewrite last_snoc. split; [done|]. assert (in_order u d = (l ++ l0) ++ x0 :: drop 100 rest) as Hd.
  { rewrite Heq, <- (take_drop 100 rest) at 1. rewrite Ht, <- !(assoc_L app). done. }
  split; [by eexists|]. simpl. by rewrite (filter_from _ _ _ _ _ Hd).
Qed.

Lemma pages_cover u n cursor s m s' l :
  in_order u (sv_db s) = l ++ after_cursor u cursor (sv_db s) → match cursor with Some c => is_Some (db_assetPacks (sv_db s) !! c) | None => True end →
  pages others n (packs_page id_le u) (delete_pack_objects others fuel u) cursor s = (Ok m, s') →
  leaves_alone s s' ∧ Forall (emptied s') (after_cursor u cursor (sv_db s)).
Proof.
  revert cursor s m l. induction n as [|n IH]; intros cursor s m l Hl Hcur Hrun; [done|]. cbn [pages] in Hrun.
  apply act_bind_ok in Hrun as (page & s1 & Hq & Hrun). apply sv_query_ok in Hq as [-> ->].
  apply act_bind_ok in Hrun as ([] & s2 & Hfor & Hrun). apply delete_pages_objects_ok in Hfor as [Ha He].
  pose proof (resumed_alone' s) as Ha0. set (s1 := resumed others s) in *.
  assert (∀ c, in_order u (sv_db s1) = in_order u (sv_db s) ∧ after_cursor u c (sv_db s1) = after_cursor u c (sv_db s)) as Hsame.
  { destruct Ha0 as (_ & Hc & Hp & _). intros c. unfold after_cursor, in_order, owned_by, owned_companion. by rewrite Hc, Hp. }
  assert (packs_page id_le u cursor (sv_db s1) = take 100 (after_cursor u cursor (sv_db s1))) as Hpage.
  { unfold packs_page, page_after, after_cursor. destruct cursor as [c|]; [|done]. destruct Ha0 as (_ & _ & Hp & _). rewrite <- Hp in Hcur. by rewrite bool_decide_eq_true_2. }
  rewrite Hpage in *. destruct (Hsame cursor) as [Hs1 Hs2]. rewrite <- Hs2. case_bool_decide as Hlen.
  - apply act_ret_ok in Hrun as [_ ->]. rewrite length_take in Hlen. rewrite take_ge in He by lia. split; [by etrans|done].
  - apply act_bind_ok in Hrun as (rest & s3 & Hrec & Hrun). apply act_ret_ok in Hrun as [_ ->]. rewrite length_take in Hlen.
    destruct (after_last u (sv_db s1) cursor l) as (c & Hlast & (l' & Hl') & Hdrop); [by rewrite Hs1, Hs2|lia|].
    assert (∀ c, in_order u (sv_db s2) = in_order u (sv_db s1) ∧ after_cursor u c (sv_db s2) = after_cursor u c (sv_db s1)) as Hsame2.
    { destruct Ha as (_ & Hc & Hp & _). intros c0. unfold after_cursor, in_order, owned_by, owned_companion. by rewrite Hc, Hp. }
    rewrite Hlast in Hrec. simpl in Hrec. destruct (Hsame2 (Some c.1)) as [Hs3 Hs4].
    destruct (IH (Some c.1) s2 rest (l' ++ [c])) as [Ha2 He2]; [|simpl|exact Hrec|].
    + rewrite Hs3, Hs4, Hl', Hdrop, <- (assoc_L app). done.
    + assert (c ∈ in_order u (sv_db s1)) as Hin by (rewrite Hl'; apply elem_of_app; right; by left). destruct c as [k p].
      apply elem_of_in_order in Hin as [Hk _]. destruct Ha as (_ & _ & -> & _). by eexists.
    + split; [by do 2 (etrans; [done|])|]. rewrite <- (take_drop 100 (after_cursor u cursor (sv_db s1))), <- Hdrop, <- Hs4. apply Forall_app. split; [|done].
      eapply Forall_impl; [exact He|]. intros kp. by apply emptied_later.
Qed.

Lemma latest_bound (l : list (rowid * AssetPack)) k p i : (k, p) ∈ l → pk_lastUploadUrlIssuedAt p = Some i →
  ∃ m, foldr (λ kp m, latest (pk_lastUploadUrlIssuedAt kp.2) m) None l = Some m ∧ i ≤ m.
Proof.
  intros Hin Hi. induction l as [|kp l IH]; [by apply elem_of_nil in Hin|]. simpl. apply elem_of_cons in Hin as [<-|Hin].
  - simpl. rewrite Hi. destruct (foldr _ _ l); simpl; eexists; (split; [done|lia]).
  - destruct (IH Hin) as (m & -> & Hm). destruct (pk_lastUploadUrlIssuedAt kp.2); simpl; eexists; (split; [done|lia]).
Qed.
(** The instant before which an account is kept comes after every upload address. *)
Lemma not_before_bound u d requestedAt ttl : let limit := accountDeletionNotBefore requestedAt (pack_summary u d).2 ttl in
  requestedAt ≤ limit ∧ ∀ k p i, db_assetPacks d !! k = Some p → owned_by u d p = true → pk_lastUploadUrlIssuedAt p = Some i →
    i + ttl * 1000 + ACCOUNT_DELETION_EXPIRY_SAFETY_MS ≤ limit.
Proof.
  intros limit. subst limit. unfold accountDeletionNotBefore. split; [case_match; lia|]. intros k p i Hk Ho Hi. cbn [pack_summary snd].
  destruct (latest_bound (filter (λ kp, owned_by u d kp.2 = true) (map_to_list (db_assetPacks d))) k p i) as (m & -> & Hm); [|done|lia].
  apply list_elem_of_filter. split; [done|]. by apply elem_of_map_to_list.
Qed.
Lemma finalize_tx_deleted u ttl n m now d d' user t0 : db_users d !! u = Some user → u_deletionRequestedAt user = Some t0 →
  finalize_tx u ttl n m now d = Ok (F_deleted, d') →
  db_users d' !! u = None ∧ accountDeletionNotBefore t0 (pack_summary u d).2 ttl ≤ now.
Proof.
  intros Hu Ht Hrun. unfold finalize_tx in Hrun. rewrite (tx_gets_run _ _ _), Hu in Hrun. simpl in Hrun. rewrite Ht in Hrun.
  rewrite tx_gets_run in Hrun. cbv zeta in Hrun. destruct (_ || _) eqn:Hc in Hrun; [step_inv|]. bool_inv. split; [|lia]. step_inv.
  match goal with H : delete_user _ _ = Some _ |- _ => unfold delete_user in H; case_match; [done|]; simplify_eq end. cbn. apply lookup_delete_eq.
Qed.

End gone.

(** ** Retries *)

Lemma backoff_bounds n : 0 <= n → ACCOUNT_DELETION_RETRY_BASE_MS <= backoff n <= ACCOUNT_DELETION_MAX_BACKOFF_MS.
Proof.
  intros Hn. unfold backoff, ACCOUNT_DELETION_RETRY_BASE_MS, ACCOUNT_DELETION_MAX_BACKOFF_MS, ACCOUNT_DELETION_MAX_BACKOFF_EXPONENT.
  assert (1 <= 2 ^ (Z.min (n + 1) 10 - 1)) by (apply (Z.pow_le_mono_r 2 0); lia). lia.
Qed.
Lemma backoff_mono m n : 0 <= m <= n → backoff m <= backoff n.
Proof.
  intros Hn. unfold backoff, ACCOUNT_DELETION_RETRY_BASE_MS, ACCOUNT_DELETION_MAX_BACKOFF_MS, ACCOUNT_DELETION_MAX_BACKOFF_EXPONENT.
  assert (2 ^ (Z.min (m + 1) 10 - 1) <= 2 ^ (Z.min (n + 1) 10 - 1)) by (apply Z.pow_le_mono_r; lia). lia.
Qed.

(** A failed deletion is tried again between a minute and an hour later, later
    the more attempts failed, and the row of the account says when: in
    between, no pass of the cleanup takes it up. *)
Theorem failed_deletion_is_retried u t0 s next s' user :
  deferAccountDeletion others u t0 true s = (Ok next, s') →
  db_users (sv_db (resumed others s)) !! u = Some user → 0 <= u_deletionAttemptCount user →
  next = sv_now (resumed others s) + backoff (u_deletionAttemptCount user)
  ∧ 60000 <= backoff (u_deletionAttemptCount user) <= 3600000
  ∧ (∀ n, u_deletionAttemptCount user <= n → backoff (u_deletionAttemptCount user) <= backoff n)
  ∧ (∀ user', db_users (sv_db s') !! u = Some user' → is_Some (u_deletionRequestedAt user') →
       u_deletionNextAttemptAt user' = Some next ∧ ∀ now, due now user' = true ↔ next <= now).
Proof.
  intros Hrun Hu Hn. unfold deferAccountDeletion in Hrun. server_inv. rewrite Hu. simpl. split; [done|].
  split; [by apply backoff_bounds|]. split; [intros; by apply backoff_mono|]. intros user' Hu' Hreq. unfold defer_write in Hu'. cbn in Hu'.
  rewrite lookup_alter_eq in Hu'. destruct (db_users _ !! u) as [user2|] eqn:Hu2 in Hu'; simpl in Hu'; [|done].
  case_bool_decide; simplify_eq; [|done]. cbn. split; [done|]. intros now. unfold due. cbn. rewrite bool_decide_eq_true_2 by done. simpl. apply Z.leb_le.
Qed.
End deletion.

(** ** An account to delete *)

#[local] Existing Instance key_order.
Abbreviation bucket := (gmap text S3Object).

Definition id_leb (a b : rowid) : bool := text_leb (lit a) (lit b).

(** carol is a guest in bob's visit at alice's, has a pack and has said something. *)
Definition demo_visit : Session :=
  mkSession "i" "bob" "alice" None "cb" "" None VM_standard 3 1 S_active None None None None None None None None None None 0 0.
Definition demo_guest : Participant := mkParticipant "v" "carol" "cc" "" None R_guest P_active None None 0 None 0 0.
Definition demo_visitor : Participant := mkParticipant "v" "bob" "cb" "" None R_visitor P_active None None 0 None 0 0.
Definition demo_turn : Turn := mkTurn "v" 1 "t1" "carol" None "chat" [] None None 0.
Definition demo_companion (owner : rowid) : Companion := mkCompanion owner [] None [] "friends_only" true false "friends" true None 0 0 (Some 0).
Definition demo_carol_pack : AssetPack :=
  mkAssetPack "cc" [] 1 JNull PK_active (lit "companion-assets/carol/cc/h") 1 10 None None None 0 0 (Some 0) (Some 0) None.
Definition demo_device (u dv : rowid) : DeviceSession := mkDeviceSession u dv [] None None 0 0 1000000 None.
Definition demo_rooms : DB :=
  empty_db <| db_users := demo_users |> <| db_sessions := {["v" := demo_visit]} |>
    <| db_participants := list_to_map [("p1", demo_guest); ("p2", demo_visitor)] |>
    <| db_companions := list_to_map [("cb", demo_companion "bob"); ("cc", demo_companion "carol")] |>
    <| db_assetPacks := {["k" := demo_carol_pack]} |> <| db_deviceSessions := {["d" := demo_device "carol" "phone"]} |>
    <| db_turns := {["t" := demo_turn]} |>.
Definition tx_db (r : result (instant * DB)) : DB := match r with Ok (_, d) => d | Err _ => empty_db end.
Definition demo_deleting : DB := tx_db (deleteAccount_tx "carol" 5000 demo_rooms).
Lemma demo_request : deleteAccount_tx "carol" 5000 demo_rooms = Ok (5000, demo_deleting).
Proof. vm_compute. reflexivity. Qed.

Lemma deletion_locks_account_witness :
  (∃ user, db_users demo_deleting !! "carol" = Some user ∧ u_accountStatus user = SUSPENDED ∧ u_deletionRequestedAt user = Some 5000 ∧ u_activeNetworkCompanionId user = None)
  ∧ (∀ dv now d2, validate_token "carol" dv now demo_deleting d2 = Err UnauthorizedException)
  ∧ (∀ i r, db_invitations demo_deleting !! i = Some r → invitation_of "carol" r = true → inv_status r ≠ I_pending)
  ∧ (∀ i s, db_sessions demo_deleting !! i = Some s → visit_of "carol" s = true → live (ses_state s) = false)
  ∧ db_reservations demo_deleting !! "carol" = None
  ∧ (∀ i c, db_companions demo_deleting !! i = Some c → co_ownerUserId c = "carol" → co_published c = false ∧ co_activeAssetPackId c = None)
  ∧ (∀ i p, db_assetPacks demo_deleting !! i = Some p → owned_by "carol" demo_deleting p = true → pk_status p = PK_deleting).
Proof. apply (deletion_locks_account "carol" 5000 demo_rooms). apply demo_request. Defined.
Lemma guest_deletion_empties_room_witness :
  db_sessions demo_deleting !! "v" = Some demo_visit
  ∧ (∀ i p, db_participants demo_deleting !! i = Some p → par_sessionId p = "v" → par_state p = P_left)
  ∧ (∀ v r, db_reservations demo_deleting !! v = Some r → res_sessionId r ≠ Some "v").
Proof. apply (guest_deletion_empties_room "carol" 5000 demo_rooms 5000 demo_deleting "v" demo_visit); vm_compute; reflexivity. Defined.

Definition demo_account_server (d : DB) : Server bucket :=
  mkServer (mkWorld d []) (demo_storage {[lit "companion-assets/carol/cc/h/files/a" := mkS3Object [1] None None]})
    (mkGateway ∅ ∅ ∅ ∅ ∅ ∅ ∅ ∅ ∅ [] ∅) [] 6000 0.
Definition demo_limits : StorageLimits := mkStorageLimits 100 1000 10 24 900 25 30.
Definition demo_finish := finish_or_defer alone demo_limits id_leb 4 "carol" 5000 (demo_account_server demo_deleting).
Lemma guest_who_spoke_stays_witness : demo_finish.1 ≠ Ok F_deleted ∧ spoke_elsewhere "carol" (sv_db demo_finish.2).
Proof.
  apply (guest_who_spoke_stays alone demo_limits id_leb 4 (u := "carol") (λ n s Hs, Hs) (demo_account_server demo_deleting) 5000).
  split; [eexists; split; [vm_compute; reflexivity|by eexists]|].
  exists "t", demo_turn, demo_visit. vm_compute. done.
Defined.
Example guest_who_spoke_is_deferred : demo_finish.1 = Ok (F_pending 66000).
Proof. vm_compute. reflexivity. Qed.

(** Without the turn the account goes: its participant row, though, has to go
    first, with the visit of the others. *)
Definition demo_silent : DB := demo_deleting <| db_turns := ∅ |> <| db_participants := ∅ |>.
Definition demo_final := finalizePendingAccountDeletion alone demo_limits id_leb 4 "carol" 5000 (demo_account_server demo_silent).
Definition demo_deferred := deferAccountDeletion (B := bucket) alone "carol" 0 true (demo_account_server demo_deleting).
Definition demo_locked : User := default (demo_user "") (db_users demo_deleting !! "carol").
Lemma demo_defer_runs : deferAccountDeletion (B := bucket) alone "carol" 0 true (demo_account_server demo_deleting) = (Ok 66000, demo_deferred.2).
Proof. vm_compute. reflexivity. Qed.
Lemma failed_deletion_is_retried_witness :
  66000 = sv_now (resumed alone (demo_account_server demo_deleting)) + backoff (u_deletionAttemptCount demo_locked)
  ∧ 60000 <= backoff (u_deletionAttemptCount demo_locked) <= 3600000
  ∧ (∀ n, u_deletionAttemptCount demo_locked <= n → backoff (u_deletionAttemptCount demo_locked) <= backoff n)
  ∧ (∀ user', db_users (sv_db demo_deferred.2) !! "carol" = Some user' → is_Some (u_deletionRequestedAt user') →
       u_deletionNextAttemptAt user' = Some 66000 ∧ ∀ now, due now user' = true ↔ 66000 <= now).
Proof.
  apply (failed_deletion_is_retried (B := bucket) alone "carol" 0 _ _ _ demo_locked demo_defer_runs); vm_compute; done.
Defined.
