(* ===== verification/Admin.v ===== *)
(** * Administration ([admin/admin-role.service.ts], [admin/admin-api.service.ts],
    [admin/superadmin.guard.ts], [admin/audit.service.ts])

    Superadmins suspend and restore accounts, revoke devices, unpublish
    companions, end and reconcile visits and cancel invitations; every change
    writes an audit row in the same transaction.  Superadmins are made and
    unmade on the command line. *)

From S2P Require Import Prelude Tables JsText Json Schema Interfaces Visit Storage Presence AssetPack Server Identity Browser Account.
Local Open Scope Z_scope.

(** [requireReason] *)
Definition reason_ok (reason : text) : bool :=
  let length := Z.of_nat (length (trim reason)) in negb ((length <? 4) || (500 <? length)).
Definition ADMIN_REASON_REQUIRED : exc := BadRequestException "ADMIN_REASON_REQUIRED".
Definition SUPERADMIN_REQUIRED : exc := ForbiddenException "SUPERADMIN_REQUIRED".

(** What every administrative request brings: the acting account, the reason (a
    string whose characters are its code units), and the id of the audit row it writes. *)
Record Order := mkOrder { or_adminUserId : rowid; or_reason : string; or_auditId : rowid }.
(** [audit.record], in the transaction of the change *)
Definition audit (o : Order) (action targetType : string) (targetId : rowid) (metadata : option json) (now : instant) : Tx DB unit :=
  record_audit (mkAuditLog (or_auditId o) (or_adminUserId o) action targetType (Some targetId) (Some (lit (or_reason o))) metadata now).

Definition fields (l : list (string * json)) : json := JObj ((λ kv, (lit kv.1, kv.2)) <$> l).
Definition status_name (st : UserAccountStatus) : string := match st with ACTIVE => "ACTIVE" | SUSPENDED => "SUSPENDED" end.
Definition str (s : string) : json := JStr (lit s).

(** ** Roles *)

Definition is_superadmin (u : User) : bool := (u_role u == SUPERADMIN) && (u_accountStatus u == ACTIVE).
(** [user.count] and [SELECT ... FOR UPDATE] of the active superadmins *)
Definition active_admins (d : DB) : nat := count_where (λ _ u, is_superadmin u) (db_users d).

(** [AdminRoleChangeInput]; an actor given as [''] is none. *)
Record RoleChange := mkRoleChange { rc_targetUid : text; rc_reason : text; rc_actorUserId : option rowid; rc_metadata : list (text * json) }.
Definition actor_of (input : RoleChange) : option rowid := match rc_actorUserId input with Some a => if a == "" then None else Some a | None => None end.

Section roles.
Variable toUpperCase : text → text.

(** [findTargetByUid], [lockTarget] *)
Definition user_by_uid (uid : text) (d : DB) : option (rowid * User) := find_unique (λ _ u, u_uid u == toUpperCase (trim uid)) (db_users d).
Definition lockTarget (uid : text) : Tx DB (rowid * User) :=
  row ← gets (user_by_uid uid); require_some row (NotFoundException "ADMIN_TARGET_NOT_FOUND").
(** [requireActiveActor] *)
Definition requireActiveActor (actorUserId : option rowid) : Tx DB rowid :=
  actor ← require_some actorUserId (ForbiddenException "ADMIN_ACTOR_REQUIRED");
  ok ← gets (λ d, match db_users d !! actor with Some u => is_superadmin u | None => false end);
  require ok SUPERADMIN_REQUIRED ;;
  mret actor.
(** [requireActorOrBootstrap] *)
Definition requireActorOrBootstrap (actorUserId : option rowid) (targetUserId : rowid) : Tx DB rowid :=
  match actorUserId with
  | Some _ => requireActiveActor actorUserId
  | None => admins ← gets active_admins; require (bool_decide (admins = 0%nat)) (ForbiddenException "ADMIN_ACTOR_REQUIRED") ;; mret targetUserId
  end.

Definition role_metadata (input : RoleChange) (uid : text) : json :=
  JObj (filter (λ kv, kv.1 ∉ [lit "source"; lit "actorType"; lit "targetUid"]) (rc_metadata input)
        ++ [(lit "source", str "admin_cli"); (lit "actorType", str (if actor_of input is Some _ then "SUPERADMIN" else "CLI_OPERATOR"));
            (lit "targetUid", JStr uid)]).
Definition set_role (role : UserRole) (k : rowid) (u : User) : Tx DB unit :=
  modify (λ d, d <| db_users := <[k := u <| u_role := role |>]> (db_users d) |>).
(** The audit row of a role change keeps the trimmed reason. *)
Definition audit_role (input : RoleChange) (auditId actor : rowid) (action : string) (target : rowid * User) (now : instant) : Tx DB unit :=
  record_audit (mkAuditLog auditId actor action "User" (Some target.1) (Some (trim (rc_reason input))) (Some (role_metadata input (u_uid target.2))) now).

(** [promote], [demote]: whether something changed; the advisory lock makes
    role changes one after the other, as transactions are here. *)
Definition promote_tx (input : RoleChange) (auditId : rowid) (now : instant) : Tx DB bool :=
  target ← lockTarget (rc_targetUid input);
  auditActorId ← requireActorOrBootstrap (actor_of input) target.1;
  if u_role target.2 == SUPERADMIN then mret false
  else set_role SUPERADMIN target.1 target.2 ;; audit_role input auditId auditActorId "PROMOTE_ADMIN" target now ;; mret true.
Definition demote_tx (input : RoleChange) (auditId : rowid) (now : instant) : Tx DB bool :=
  target ← lockTarget (rc_targetUid input);
  auditActorId ← requireActiveActor (actor_of input);
  if u_role target.2 != SUPERADMIN then mret false
  else
    admins ← gets active_admins;
    require (negb ((u_accountStatus target.2 == ACTIVE) && bool_decide (admins <= 1)%nat)) (ConflictException "LAST_SUPERADMIN") ;;
    set_role USER target.1 target.2 ;; audit_role input auditId auditActorId "DEMOTE_ADMIN" target now ;; mret true.
Definition change_role (tx : RoleChange → rowid → instant → Tx DB bool) (input : RoleChange) (auditId : rowid) (now : instant) : Act World bool :=
  act_require (reason_ok (rc_reason input)) ADMIN_REASON_REQUIRED ;; transaction (tx input auditId now).
Definition promote := change_role promote_tx.
Definition demote := change_role demote_tx.
End roles.

(** ** Accounts *)

(** The transaction of [setAccountStatus] *)
Definition setAccountStatus_tx (o : Order) (userId : rowid) (status : UserAccountStatus) (now : instant) : Tx DB (rowid * User) :=
  row ← gets (λ d, db_users d !! userId);
  current ← require_some row (NotFoundException "User not found");
  require (negb ((status == ACTIVE) && is_set (u_deletionRequestedAt current))) (ConflictException "ACCOUNT_DELETION_PENDING") ;;
  let updated := current <| u_accountStatus := status |> <| u_suspendedAt := if status == SUSPENDED then Some now else None |> in
  modify (λ d, d <| db_users := <[userId := updated]> (db_users d) |>) ;;
  (if status == SUSPENDED then modify (revoke_devices userId now) else mret ()) ;;
  audit o (if status == SUSPENDED then "SUSPEND_ACCOUNT" else "RESTORE_ACCOUNT") "User" userId
    (Some (fields [("previousStatus", str (status_name (u_accountStatus current))); ("status", str (status_name status))])) now ;;
  mret (userId, updated).

(** The transaction of [revokeDevice]; it returns the device. *)
Definition admin_revokeDevice_tx (o : Order) (userId sessionId : rowid) (now : instant) : Tx DB rowid :=
  row ← gets (λ d, s ← db_deviceSessions d !! sessionId; if ds_userId s == userId then Some s else None);
  session ← require_some row (NotFoundException "Device session not found");
  update_session sessionId now (revoke now) ;;
  audit o "REVOKE_DEVICE_SESSION" "DeviceSession" sessionId (Some (fields [("userId", str userId)])) now ;;
  mret (ds_deviceId session).

(** The transaction of [unpublishCompanion]; it returns the owner. *)
Definition admin_unpublish_tx (o : Order) (companionId : rowid) (now : instant) : Tx DB rowid :=
  row ← gets (λ d, db_companions d !! companionId);
  current ← require_some row (NotFoundException "Companion not found");
  modify (λ d, d <| db_companions := <[companionId := current <| co_published := false |> <| co_publishedAt := None |> <| co_updatedAt := now |>]> (db_companions d) |>) ;;
  audit o "UNPUBLISH_COMPANION" "NetworkCompanion" companionId
    (Some (fields [("ownerUserId", str (co_ownerUserId current)); ("wasPublished", JBool (co_published current))])) now ;;
  mret (co_ownerUserId current).

(** ** Visits *)

Definition VISIT_RECONCILIATION_STALE_MINUTES : Z := 15.
(** [endVisitSession]'s transaction *)
Definition admin_ended (reason : string) (now : instant) (s : Session) : Session :=
  s <| ses_state := if ses_state s == S_active then S_ended else S_cancelled |>
    <| ses_endingAt := if ses_state s == S_active then Some now else None |> <| ses_endedAt := Some now |>
    <| ses_endReason := Some ("admin:" +:+ reason) |> <| ses_assetPackRefId := None |> <| ses_updatedAt := now |>.
Definition admin_endVisit_tx (o : Order) (sessionId : rowid) (now : instant) : Tx DB (rowid * Session) :=
  row ← gets (λ d, db_sessions d !! sessionId);
  current ← require_some row (NotFoundException "Visit Session not found");
  require (negb (bool_decide (ses_state current ∈ SESSION_TERMINAL))) (ConflictException "Visit Session is already terminal") ;;
  alter_session sessionId (λ _, admin_ended (or_reason o) now current) ;;
  audit o "END_VISIT_SESSION" "VisitSession" sessionId None now ;;
  mret (sessionId, admin_ended (or_reason o) now current).

(** [visitReconciliationStatus]: the code and [lastActivityAt] *)
Inductive Reconciliation := TERMINAL_SESSION | NON_LIVE_SESSION | STALE_LIVE_SESSION (lastActivityAt : instant) | HEALTHY_LIVE_SESSION (lastActivityAt : instant).
Definition lastActivity (s : Session) : instant :=
  foldr Z.max (ses_updatedAt s)
    (omap id [ses_visitorOwnerSeenAt s; ses_hostSeenAt s; ses_startedAt s; ses_readyAt s; ses_endingAt s; Some (ses_createdAt s)]).
Definition visitReconciliationStatus (s : Session) (now : instant) : Reconciliation :=
  if bool_decide (ses_state s ∈ SESSION_TERMINAL) then TERMINAL_SESSION
  else if negb (live (ses_state s)) then NON_LIVE_SESSION
  else if VISIT_RECONCILIATION_STALE_MINUTES * 60000 <=? now - lastActivity s then STALE_LIVE_SESSION (lastActivity s)
  else HEALTHY_LIVE_SESSION (lastActivity s).
Definition reconcilable (r : Reconciliation) : bool := match r with STALE_LIVE_SESSION _ => true | _ => false end.

(** [reconcileVisitSession]'s transaction *)
Definition reconciled (reason : string) (now : instant) (s : Session) : Session :=
  let ending := bool_decide (ses_state s ∈ [S_active; S_ending]) in
  s <| ses_state := if ending then S_ended else S_cancelled |>
    <| ses_endingAt := if ending then Some (default now (ses_endingAt s)) else None |> <| ses_endedAt := Some now |>
    <| ses_endReason := Some ("admin_safe_reconciliation:" +:+ reason) |> <| ses_assetPackRefId := None |> <| ses_updatedAt := now |>.
Definition reconcile_tx (o : Order) (sessionId : rowid) (now : instant) : Tx DB (rowid * Session) :=
  row ← gets (λ d, db_sessions d !! sessionId);
  current ← require_some row (NotFoundException "Visit Session not found");
  require (negb (bool_decide (ses_state current ∈ SESSION_TERMINAL))) (ConflictException "VISIT_RECONCILIATION_TERMINAL") ;;
  require (reconcilable (visitReconciliationStatus current now)) (ConflictException "VISIT_RECONCILIATION_NOT_STALE") ;;
  let updated := reconciled (or_reason o) now current in
  alter_session sessionId (λ _, updated) ;;
  audit o "RECONCILE_VISIT_SESSION" "VisitSession" sessionId
    (Some (fields [("previousState", str (state_name (ses_state current))); ("nextState", str (state_name (ses_state updated)));
                   ("hadAssetPackRef", JBool (truthy_id (ses_assetPackRefId current))); ("staleAfterMinutes", JInt VISIT_RECONCILIATION_STALE_MINUTES)])) now ;;
  mret (sessionId, updated).

(** [cancelVisitInvitation]'s transaction *)
Definition admin_cancelled (now : instant) (r : Invitation) : Invitation :=
  r <| inv_status := I_cancelled |> <| inv_cancelledAt := Some now |> <| inv_assetPackRefId := None |> <| inv_updatedAt := now |>.
Definition admin_cancelInvitation_tx (o : Order) (invitationId : rowid) (now : instant) : Tx DB (rowid * Invitation) :=
  row ← gets (λ d, db_invitations d !! invitationId);
  current ← require_some row (NotFoundException "Visit Invitation not found");
  require (inv_status current == I_pending) (ConflictException "Visit Invitation is not pending") ;;
  alter_invitation invitationId (λ _, admin_cancelled now current) ;;
  audit o "CANCEL_VISIT_INVITATION" "VisitInvitation" invitationId None now ;;
  mret (invitationId, admin_cancelled now current).

(** ** The service *)

Section admin.
Context {Hscan : ScanOrder} {B : Type}.
Variable others : nat → Server B → Server B.
Abbreviation Srv := (Server B).

Definition lift {A} (r : result A) : Act Srv A := λ s, (r, s).
(** [AuthGuard('jwt')] of a verified token: [JwtStrategy.validate] *)
Definition authenticate (sub deviceId : rowid) : Act Srv Principal :=
  d ← sv_query others (λ d, d);
  now ← sv_clock;
  d' ← sv_query others (λ d, d);
  lift (validate_token sub deviceId now d d').
(** [SuperadminGuard.canActivate] *)
Definition superadmin_guard (userId : rowid) : Act Srv unit :=
  act_require (userId != "") UnauthorizedException ;;
  row ← sv_query others (λ d, u_role <$> db_users d !! userId);
  role ← act_require_some row UnauthorizedException;
  act_require (role == SUPERADMIN) SUPERADMIN_REQUIRED.

Definition require_reason (o : Order) : Act Srv unit := act_require (reason_ok (lit (or_reason o))) ADMIN_REASON_REQUIRED.
Definition publish (userId : rowid) (event : string) (payload : list (string * json)) : Act Srv unit := on_world (publishToUser userId event payload).

(** [setAccountStatus] *)
Definition setAccountStatus (o : Order) (userId : rowid) (status : UserAccountStatus) : Act Srv (rowid * User) :=
  require_reason o ;;
  act_require (negb ((or_adminUserId o == userId) && (status == SUSPENDED))) (ForbiddenException "ADMIN_SELF_SUSPEND_FORBIDDEN") ;;
  now ← sv_clock;
  user ← sv_tx others (setAccountStatus_tx o userId status now);
  (if status == SUSPENDED then sv_disconnectUser others userId else mret ()) ;;
  mret user.

(** [revokeDevice] *)
Definition admin_revokeDevice (o : Order) (userId sessionId : rowid) : Act Srv unit :=
  require_reason o ;;
  now ← sv_clock;
  deviceId ← sv_tx others (admin_revokeDevice_tx o userId sessionId now);
  sv_disconnectDevice others userId deviceId.

(** [unpublishCompanion] *)
Definition admin_unpublishCompanion (o : Order) (companionId : rowid) : Act Srv unit :=
  require_reason o ;;
  now ← sv_clock;
  ownerUserId ← sv_tx others (admin_unpublish_tx o companionId now);
  now' ← sv_clock;
  sv_call others (revokeCompanionVisits companionId "admin_unpublished" now') ;;
  publish ownerUserId "companion.profile.unpublished" [("ownerUserId", str ownerUserId); ("companionId", str companionId)].

(** The events of [endVisitSession] and [reconcileVisitSession], and of
    [cancelVisitInvitation] *)
Definition tell_ended (ks : rowid * Session) : Act Srv unit :=
  let payload := [("sessionId", str ks.1); ("state", str (state_name (ses_state ks.2)))] in
  publish (ses_visitorOwnerUserId ks.2) "visit.session.ended" payload ;; publish (ses_hostUserId ks.2) "visit.session.ended" payload.
Definition tell_cancelled (kr : rowid * Invitation) : Act Srv unit :=
  let payload := [("invitationId", str kr.1)] in
  publish (inv_visitorOwnerUserId kr.2) "visit.invitation.updated" payload ;; publish (inv_hostUserId kr.2) "visit.invitation.updated" payload.

(** [endVisitSession], [reconcileVisitSession], [cancelVisitInvitation] *)
Definition admin_endVisitSession (o : Order) (sessionId : rowid) : Act Srv (rowid * Session) :=
  require_reason o ;; now ← sv_clock; session ← sv_tx others (admin_endVisit_tx o sessionId now); tell_ended session ;; mret session.
Definition reconcileVisitSession (o : Order) (sessionId : rowid) : Act Srv (rowid * Session) :=
  require_reason o ;; now ← sv_clock; session ← sv_tx others (reconcile_tx o sessionId now); tell_ended session ;; mret session.
Definition admin_cancelVisitInvitation (o : Order) (invitationId : rowid) : Act Srv (rowid * Invitation) :=
  require_reason o ;; now ← sv_clock; invitation ← sv_tx others (admin_cancelInvitation_tx o invitationId now);
  tell_cancelled invitation ;; mret invitation.

(** [AdminController], the requests that change something *)
Inductive AdminRequest :=
  | AD_suspend (userId : rowid)
  | AD_restore (userId : rowid)
  | AD_revokeDevice (userId sessionId : rowid)
  | AD_unpublish (companionId : rowid)
  | AD_endVisit (sessionId : rowid)
  | AD_reconcile (sessionId : rowid)
  | AD_cancelInvitation (invitationId : rowid).
Definition serve_admin (o : Order) (request : AdminRequest) : Act Srv unit :=
  match request with
  | AD_suspend u => setAccountStatus o u SUSPENDED ;; mret ()
  | AD_restore u => setAccountStatus o u ACTIVE ;; mret ()
  | AD_revokeDevice u k => admin_revokeDevice o u k
  | AD_unpublish k => admin_unpublishCompanion o k
  | AD_endVisit k => admin_endVisitSession o k ;; mret ()
  | AD_reconcile k => reconcileVisitSession o k ;; mret ()
  | AD_cancelInvitation k => admin_cancelVisitInvitation o k ;; mret ()
  end.
(** ... behind its guards. *)
Definition guarded_admin (deviceId : rowid) (o : Order) (request : AdminRequest) : Act Srv unit :=
  authenticate (or_adminUserId o) deviceId ;; superadmin_guard (or_adminUserId o) ;; serve_admin o request.
End admin.
