(* ===== verification/AdminCli.v ===== *)
(** * The command lines of the administration ([admin/admin-role.cli.ts],
    [admin/initial-superadmin.cli.ts])

    One reads its arguments, asks for the confirmations and changes a role with
    the service of [Admin]; the other creates the first superadmin or makes an
    account the one. *)

From S2P Require Import Prelude Tables JsText Json Schema Interfaces Visit Storage Presence AssetPack Server Identity Browser Account Admin.
Local Open Scope Z_scope.

(** ** Arguments *)

Inductive CliAction := cli_promote | cli_demote.
#[export] Instance CliAction_eq_dec : EqDecision CliAction.
Proof. solve_decision. Defined.
Definition action_text (action : CliAction) : text := lit (match action with cli_promote => "promote" | cli_demote => "demote" end).

(** [AdminRoleCliOptions] *)
Record CliOptions := mkCliOptions {
  op_action : CliAction; op_uid : text; op_actorUid : option text; op_reason : option text; op_confirm : option text;
  op_environment : option text; op_confirmProduction : option text }.

(** The errors the command line reports, with what their messages quote. *)
Inductive CliError :=
  | FIRST_ARGUMENT | INVALID_ARGUMENT (name : text) | DUPLICATE_ARGUMENT (name : text) | UID_REQUIRED | UNKNOWN_ARGUMENT (name : text)
  | PRODUCTION_FLAG | PRODUCTION_CONFIRMATION (expected : text) | CONFIRMATION_MISMATCH | REASON_LENGTH
  | NO_ACCOUNT (uid : text) | NO_ACTOR (uid : text).

Definition allowed_arguments : list text := lit <$> ["--uid"; "--actor-uid"; "--reason"; "--confirm"; "--environment"; "--confirm-production"].

(** The loop over [rest], two at a time; [values] is the [Map] in the order of
    its insertions. *)
Fixpoint read_values (rest : list text) (values : list (text * text)) : CliError + list (text * text) :=
  match rest with
  | [] => inr values
  | [name] => inl (INVALID_ARGUMENT name)
  | name :: value :: rest' =>
      if negb (starts_with (lit "--") name) || negb (truthy value) || starts_with (lit "--") value then inl (INVALID_ARGUMENT name)
      else if bool_decide (name ∈ values.*1) then inl (DUPLICATE_ARGUMENT name)
      else read_values rest' (values ++ [(name, value)])
  end.
(** [values.get(name)?.trim()] *)
Definition value_of (name : string) (values : list (text * text)) : option text := trim <$> ((list_to_map values : gmap text text) !! lit name).

Section arguments.
Variable toUpperCase toLowerCase : text → text.

Definition options_of (action : CliAction) (values : list (text * text)) : CliError + CliOptions :=
  match toUpperCase <$> value_of "--uid" values with
  | None | Some [] => inl UID_REQUIRED
  | Some uid =>
      match filter (λ name, name ∉ allowed_arguments) values.*1 with
      | name :: _ => inl (UNKNOWN_ARGUMENT name)
      | [] => inr (mkCliOptions action uid (toUpperCase <$> value_of "--actor-uid" values) (value_of "--reason" values)
                     (toUpperCase <$> value_of "--confirm" values) (toLowerCase <$> value_of "--environment" values)
                     (value_of "--confirm-production" values))
      end
  end.
(** [parseAdminRoleCliArgs] *)
Definition parseAdminRoleCliArgs (args : list text) : CliError + CliOptions :=
  let parse action rest := match read_values rest [] with inl e => inl e | inr values => options_of action values end in
  match args with
  | [] => inl FIRST_ARGUMENT
  | actionValue :: rest =>
      if actionValue == lit "promote" then parse cli_promote rest else if actionValue == lit "demote" then parse cli_demote rest
      else inl FIRST_ARGUMENT
  end.

(** ** Confirmations *)

(** [productionConfirmationToken] *)
Definition productionConfirmationToken (action : CliAction) (uid : text) : text :=
  lit "PRODUCTION-" ++ toUpperCase (action_text action) ++ lit "-" ++ toUpperCase uid.
(** [validateEnvironmentConfirmation]: the error it throws *)
Definition validateEnvironmentConfirmation (options : CliOptions) (nodeEnv : option text) : option CliError :=
  let production o := bool_decide (o = Some (lit "production")) in
  let expected := productionConfirmationToken (op_action options) (op_uid options) in
  if production nodeEnv && negb (production (op_environment options)) then Some PRODUCTION_FLAG
  else if production (op_environment options) && negb (bool_decide (op_confirmProduction options = Some expected)) then Some (PRODUCTION_CONFIRMATION expected)
  else None.
(** [validateTargetConfirmation] *)
Definition validateTargetConfirmation (uid confirmation : text) : option CliError :=
  if toUpperCase (trim confirmation) == toUpperCase (trim uid) then None else Some CONFIRMATION_MISMATCH.

(** ** A role change *)

(** What the process sees: [NODE_ENV], [USER], and what the operator answers. *)
Record Terminal := mkTerminal { tm_nodeEnv : option text; tm_user : option text; tm_answer : text → text }.
Definition confirm_question (uid : text) : text := lit "Type the exact target UID (" ++ uid ++ lit ") to continue: ".
Definition reason_question : text := lit "Reason for this role change: ".

Definition asked_change (action : CliAction) : RoleChange → rowid → instant → Act World bool :=
  match action with cli_promote => promote toUpperCase | cli_demote => demote toUpperCase end.

Section execute.
Context {Hscan : ScanOrder} {B : Type}.
Variable others : nat → Server B → Server B.
Abbreviation Srv := (Server B).

(** The answer to a question, unless the option was given. *)
Definition prompted (option : option text) (answer : text) : Act Srv text :=
  match option with Some v => mret v | None => sv_await others ;; mret answer end.

(** [execute], once the environment is confirmed: [inr] whether the role changed *)
Definition execute_on (terminal : Terminal) (options : CliOptions) (auditId : rowid) : Act Srv (CliError + bool) :=
  target ← sv_query others (user_by_uid toUpperCase (op_uid options));
  match target with
  | None => mret (inl (NO_ACCOUNT (op_uid options)))
  | Some _ =>
      confirmation ← prompted (op_confirm options) (toUpperCase (trim (tm_answer terminal (confirm_question (op_uid options)))));
      match validateTargetConfirmation (op_uid options) confirmation with
      | Some e => mret (inl e)
      | None =>
          reason ← prompted (op_reason options) (trim (tm_answer terminal reason_question));
          if (Z.of_nat (length reason) <? 4) || (500 <? Z.of_nat (length reason)) then mret (inl REASON_LENGTH)
          else
            let change (actorUserId : option rowid) : Act Srv (CliError + bool) :=
              let environment := default (default (lit "development") (tm_nodeEnv terminal)) (op_environment options) in
              let input := mkRoleChange (op_uid options) reason actorUserId
                [(lit "environment", JStr environment); (lit "cliOperator", JStr (default (lit "unknown") (tm_user terminal)))] in
              now ← sv_clock;
              changed ← sv_call others (asked_change (op_action options) input auditId now);
              mret (inr changed) in
            if truthy_opt (op_actorUid options) then
              let actorUid := default [] (op_actorUid options) in
              actor ← sv_query others (user_by_uid toUpperCase actorUid);
              match actor with None => mret (inl (NO_ACTOR actorUid)) | Some ku => change (Some ku.1) end
            else change None
      end
  end.
(** [execute] *)
Definition execute (terminal : Terminal) (options : CliOptions) (auditId : rowid) : Act Srv (CliError + bool) :=
  match validateEnvironmentConfirmation options (tm_nodeEnv terminal) with
  | Some e => mret (inl e)
  | None => sv_await others ;; execute_on terminal options auditId
  end.
(** [main] *)
Definition admin_role_cli (terminal : Terminal) (args : list text) (auditId : rowid) : Act Srv (CliError + bool) :=
  match parseAdminRoleCliArgs args with inl e => mret (inl e) | inr options => execute terminal options auditId end.
End execute.
End arguments.

(** ** The first superadmin *)

(** [process.env] *)
Record SetupEnv := mkSetupEnv {
  env_NODE_ENV : option text; env_EMAIL : option text; env_USERNAME : option text; env_PASSWORD : option text; env_RESET : option text }.
Record InitialSuperadminConfig := mkInitialSuperadminConfig {
  is_email : text; is_normalizedEmail : text; is_username : text; is_password : text; is_resetPassword : bool }.

(** [/^[^\s@]+@[^\s@]+\.[^\s@]+$/]: the part before the first [@] and the part
    behind it, which has a dot that is neither its first nor its last character *)
Definition mail_unit (c : Z) : bool := negb (is_space c) && (c != 64).
Fixpoint split_at (l : text) : option (text * text) :=
  match l with [] => None | c :: l' => if c =? 64 then Some ([], l') else (λ p, (c :: p.1, p.2)) <$> split_at l' end.
Definition email_ok (l : text) : bool :=
  match split_at l with
  | Some (c :: local, d :: domain) => forallb mail_unit (c :: local) && forallb mail_unit (d :: domain) && existsb (Z.eqb 46) (removelast domain)
  | _ => false
  end.

Section setup.
Variable toLowerCase : text → text.

(** [readInitialSuperadminConfig] *)
Definition readInitialSuperadminConfig (environment : SetupEnv) : result InitialSuperadminConfig :=
  let production := bool_decide (env_NODE_ENV environment = Some (lit "production")) in
  let or_default (o : option text) (development : string) := default (if production then [] else lit development) o in
  let email := trim (or_default (env_EMAIL environment) "superadmin@example.test") in
  let username := trim (or_default (env_USERNAME environment) "superadmin") in
  let password := or_default (env_PASSWORD environment) "12345678" in
  let outside lo hi (l : text) := (Z.of_nat (length l) <? lo) || (hi <? Z.of_nat (length l)) in
  if negb (email_ok email) then Err (ErrorException "INITIAL_SUPERADMIN_EMAIL must be a valid email address")
  else if outside 3 30 username then Err (ErrorException "INITIAL_SUPERADMIN_USERNAME must contain between 3 and 30 characters")
  else if outside 8 128 password then Err (ErrorException "INITIAL_SUPERADMIN_PASSWORD must contain between 8 and 128 characters")
  else if production && (Z.of_nat (length password) <? 12) then Err (ErrorException "Production INITIAL_SUPERADMIN_PASSWORD must contain at least 12 characters")
  else Ok (mkInitialSuperadminConfig email (toLowerCase email) username password (bool_decide (env_RESET environment = Some (lit "true")))).

Context {Hscan : ScanOrder} `{!Credentials} {B : Type}.
Variable others : nat → Server B → Server B.
Variable reported : list string → string.
Abbreviation Srv := (Server B).

Definition setup_audit (auditId userId : rowid) (metadata : list (string * json)) (now : instant) : Tx DB unit :=
  record_audit (mkAuditLog auditId userId "PROMOTE_ADMIN" "User" (Some userId) (Some (lit "initial_superadmin_setup"))
    (Some (fields (("source", str "initial_superadmin_cli") :: metadata))) now).
(** The transaction that makes an existing account the superadmin; an empty hash
    is no hash. *)
Definition configure_tx (existing : rowid * User) (passwordHash : option text) (auditId : rowid) (now : instant) : Tx DB unit :=
  let reset := truthy_opt passwordHash in
  row ← gets (λ d, db_users d !! existing.1);
  user ← require_some row P2025;
  let promoted := user <| u_role := SUPERADMIN |> in
  let updated := if reset then promoted <| u_passwordHash := default [] passwordHash |> else promoted in
  modify (λ d, d <| db_users := <[existing.1 := updated]> (db_users d) |>) ;;
  if (u_role existing.2 != SUPERADMIN) || reset then setup_audit auditId existing.1 [("passwordReset", JBool reset)] now else mret ().
(** The transaction that creates the account *)
Definition create_tx (config : InitialSuperadminConfig) (passwordHash uid : text) (draw : Draw) (auditId : rowid) (now : instant) : Tx DB (rowid * User) :=
  user ← create_user reported (dr_userId draw) (mkUser uid (is_email config) (is_normalizedEmail config) (is_username config) passwordHash
    (generateFriendCode (dr_bytes draw)) SUPERADMIN ACTIVE None None None 0 now None);
  setup_audit auditId user.1 [("created", JBool true)] now ;;
  mret user.
Definition attempt_superadmin (config : InitialSuperadminConfig) (passwordHash : text) (draw : Draw) (auditId : rowid) : Act Srv (rowid * User) :=
  uid ← act_require_some (generateUid (dr_blocks draw)) (ErrorException "random bytes");
  now ← sv_clock;
  sv_tx others (create_tx config passwordHash uid draw auditId now).
(** The loop: five attempts; the last conflict is thrown as it is. *)
Fixpoint superadmin_attempts (left attempt : nat) (create : nat → Act Srv (rowid * User)) : Act Srv (rowid * User) :=
  match left with
  | O => act_throw (ErrorException "INITIAL_SUPERADMIN_PUBLIC_ID_GENERATION_FAILED")
  | S left' => act_catch (create attempt) (λ error,
      if negb (isUniqueConflict error "uid" || isUniqueConflict error "friendCode") || bool_decide (attempt = 4)%nat then act_throw error
      else superadmin_attempts left' (S attempt) create)
  end.
(** [setupInitialSuperadmin]: [{ created, uid, email }] *)
Definition setupInitialSuperadmin (config : InitialSuperadminConfig) (salt : text) (draw : nat → Draw) (auditId : rowid) : Act Srv (bool * text * text) :=
  existing ← sv_query others (λ d, find_unique (λ _ u, u_normalizedEmail u == is_normalizedEmail config) (db_users d));
  match existing with
  | Some (k, u) =>
      act_require ((u_accountStatus u == ACTIVE) && negb (is_set (u_deletionRequestedAt u))) (ErrorException "INITIAL_SUPERADMIN_ACCOUNT_UNAVAILABLE") ;;
      passwordHash ← (if is_resetPassword config then sv_await others ;; mret (Some (bcrypt_hash salt (is_password config))) else mret None);
      now ← sv_clock;
      sv_tx others (configure_tx (k, u) passwordHash auditId now) ;;
      mret (false, u_uid u, u_email u)
  | None =>
      sv_await others ;;
      let passwordHash := bcrypt_hash salt (is_password config) in
      created ← superadmin_attempts 5 0 (λ n, attempt_superadmin config passwordHash (draw n) auditId);
      mret (true, u_uid created.2, u_email created.2)
  end.
(** [main] *)
Definition initial_superadmin_cli (environment : SetupEnv) (salt : text) (draw : nat → Draw) (auditId : rowid) : Act Srv (bool * text * text) :=
  config ← lift (readInitialSuperadminConfig environment);
  sv_await others ;;
  setupInitialSuperadmin config salt draw auditId.
End setup.

(** ** Arguments are read as they are written *)

(** The flags of the given options, with their values. *)
Definition given (name : string) (o : option text) : list (text * text) := match o with Some v => [(lit name, v)] | None => [] end.
Definition flags (options : CliOptions) : list (text * text) :=
  (lit "--uid", op_uid options) :: given "--actor-uid" (op_actorUid options) ++ given "--reason" (op_reason options) ++ given "--confirm" (op_confirm options)
  ++ given "--environment" (op_environment options) ++ given "--confirm-production" (op_confirmProduction options).
Definition written (pairs : list (text * text)) : list text := pairs ≫= λ kv, [kv.1; kv.2].
(** A value that can stand on the command line and is read as it is. *)
Definition sayable (normal : text → text) (v : text) : Prop := truthy v = true ∧ starts_with (lit "--") v = false ∧ normal (trim v) = v.
Definition sayable_opt (normal : text → text) (o : option text) : Prop := match o with Some v => sayable normal v | None => True end.

Lemma read_values_written pairs values :
  Forall (λ kv, starts_with (lit "--") kv.1 = true ∧ truthy kv.2 = true ∧ starts_with (lit "--") kv.2 = false) pairs →
  NoDup (values ++ pairs).*1 → read_values (written pairs) values = inr (values ++ pairs).
Proof.
  revert values. induction pairs as [|[k v] pairs IH]; intros values Hf Hn; [by rewrite app_nil_r|].
  apply Forall_cons in Hf as [(H1 & H2 & H3) Hf]. simpl in *. rewrite H1, H2, H3. simpl. rewrite fmap_app in Hn. simpl in Hn.
  rewrite bool_decide_eq_false_2.
  - rewrite IH; [by rewrite <- (assoc_L app)|done|]. by rewrite <- (assoc_L app), fmap_app.
  - apply NoDup_app in Hn as (_ & Hd & _). intros Hin. apply (Hd k Hin). by left.
Qed.
Lemma flags_NoDup options : NoDup (flags options).*1.
Proof.
  destruct options as [action uid o1 o2 o3 o4 o5]. unfold flags. simpl.
  destruct o1, o2, o3, o4, o5; simpl; apply (bool_decide_unpack _); vm_compute; done.
Qed.

Section roundtrip.
Variable toUpperCase toLowerCase : text → text.

(** Options whose values are read as they are. *)
Definition sayable_options (options : CliOptions) : Prop :=
  sayable (λ v, toUpperCase v) (op_uid options) ∧ sayable_opt toUpperCase (op_actorUid options) ∧ sayable_opt (λ v, v) (op_reason options)
  ∧ sayable_opt toUpperCase (op_confirm options) ∧ sayable_opt toLowerCase (op_environment options) ∧ sayable_opt (λ v, v) (op_confirmProduction options).

Lemma get_flag options pairs name o : Permutation pairs (flags options) → (∀ v, o = Some v ↔ (lit name, v) ∈ flags options) →
  (list_to_map pairs : gmap text text) !! lit name = o.
Proof.
  intros Hp Ho. assert (NoDup pairs.*1) as Hn by (rewrite Hp; apply flags_NoDup). destruct o as [v|].
  - apply elem_of_list_to_map; [done|]. rewrite Hp. by apply Ho.
  - apply not_elem_of_list_to_map. intros ((k & v) & Hk & Hin)%list_elem_of_fmap. simpl in Hk. subst. rewrite Hp in Hin. by apply Ho in Hin.
Qed.
Lemma elem_of_given name v name' o : (lit name, v) ∈ given name' o ↔ o = Some v ∧ name = name'.
Proof.
  unfold given. destruct o as [w|]; [|split; [by intros ?%elem_of_nil|by intros [? _]]]. rewrite list_elem_of_singleton. split.
  - intros [= Hn ->]. split; [done|]. by apply lit_inj.
  - intros [[= ->] ->]. done.
Qed.

Lemma elem_of_flags name v options : (lit name, v) ∈ flags options ↔
  (op_uid options = v ∧ name = "--uid") ∨ (op_actorUid options = Some v ∧ name = "--actor-uid") ∨ (op_reason options = Some v ∧ name = "--reason")
  ∨ (op_confirm options = Some v ∧ name = "--confirm") ∨ (op_environment options = Some v ∧ name = "--environment")
  ∨ (op_confirmProduction options = Some v ∧ name = "--confirm-production").
Proof.
  unfold flags. rewrite elem_of_cons, !elem_of_app, !elem_of_given. assert ((lit name, v) = (lit "--uid", op_uid options) ↔ op_uid options = v ∧ name = "--uid") as ->; [|done].
  split; [intros [= Hn ->]; split; [done|by apply lit_inj]|by intros [-> ->]].
Qed.
Lemma flags_allowed kv options : kv ∈ flags options → kv.1 ∈ allowed_arguments.
Proof.
  unfold flags, given, allowed_arguments. intros Hin. repeat rewrite ?elem_of_cons, ?elem_of_app in Hin.
  destruct Hin as [->|Hin]; [by left|]. 
  repeat (destruct Hin as [Hin|Hin]; [case_match; [apply list_elem_of_singleton in Hin as ->; simpl; rewrite !elem_of_cons; tauto|by apply elem_of_nil in Hin]|]).
  case_match; [apply list_elem_of_singleton in Hin as ->; simpl; rewrite !elem_of_cons; tauto|by apply elem_of_nil in Hin].
Qed.

(** What is written on the command line is what is read: the action followed
    by the flags of some options, in any order, is parsed to these options,
    when their values are trimmed, in the case they are compared in and neither
    empty nor like a flag. *)
Theorem cli_arguments_roundtrip options pairs :
  sayable_options options → Permutation pairs (flags options) →
  parseAdminRoleCliArgs toUpperCase toLowerCase (action_text (op_action options) :: written pairs) = inr options.
Proof.
  intros Hs Hp.
  assert (read_values (written pairs) [] = inr pairs) as Hread.
  { rewrite read_values_written; [done| |]; [|rewrite app_nil_l, Hp; apply flags_NoDup]. rewrite Hp.
    destruct Hs as ((U1 & U2 & _) & Hs). unfold flags. constructor; [done|]. rewrite !Forall_app. 
    assert (∀ normal name o, sayable_opt normal o → starts_with (lit "--") (lit name) = true →
      Forall (λ kv : text * text, starts_with (lit "--") kv.1 = true ∧ truthy kv.2 = true ∧ starts_with (lit "--") kv.2 = false) (given name o)) as Hg.
    { intros normal name [v|] Ho Hname; simpl; [|done]. destruct Ho as (V1 & V2 & _). by constructor. }
    destruct Hs as (S1 & S2 & S3 & S4 & S5). split_and!; eapply Hg; done. }
  assert (∀ name o normal, sayable_opt normal o → (∀ v, o = Some v ↔ (lit name, v) ∈ flags options) → normal <$> value_of name pairs = o) as Hget.
  { intros name o normal Ho Hin. unfold value_of. rewrite (get_flag options pairs name o Hp Hin). destruct o as [v|]; simpl; [|done]. by destruct Ho as (_ & _ & ->). }
  assert (∀ name o, sayable_opt (λ v, v) o → (∀ v, o = Some v ↔ (lit name, v) ∈ flags options) → value_of name pairs = o) as value_of_flag.
  { intros name o Ho Hin. specialize (Hget name o (λ v, v) Ho Hin). by destruct (value_of name pairs). }
  assert (filter (λ name, name ∉ allowed_arguments) pairs.*1 = []) as Hknown.
  { destruct (filter _ pairs.*1) as [|name l] eqn:Hf; [done|]. assert (name ∈ name :: l) as Hin by by left. rewrite <- Hf in Hin.
    apply list_elem_of_filter in Hin as [Hno (kv & -> & Hin)%list_elem_of_fmap]. rewrite Hp in Hin. by apply flags_allowed in Hin. }
  destruct Hs as (S0 & S1 & S2 & S3 & S4 & S5).
  assert (options_of toUpperCase toLowerCase (op_action options) pairs = inr options) as Ho.
  { unfold options_of.
    rewrite (Hget "--uid" (Some (op_uid options)) toUpperCase), (Hget "--actor-uid" (op_actorUid options) toUpperCase),
      (Hget "--confirm" (op_confirm options) toUpperCase), (Hget "--environment" (op_environment options) toLowerCase)
      by first [assumption | intros v; rewrite elem_of_flags; naive_solver].
    rewrite (value_of_flag "--reason" (op_reason options)), (value_of_flag "--confirm-production" (op_confirmProduction options))
      by first [assumption | intros v; rewrite elem_of_flags; naive_solver].
    destruct S0 as (Huid & _). rewrite Hknown. by destruct options as [? [] ? ? ? ? ?]. }
  unfold parseAdminRoleCliArgs. destruct options as [[] ? ? ? ? ? ?]; cbn [op_action action_text] in *; cbv zeta.
  - rewrite bool_decide_eq_true_2 by done. by rewrite Hread.
  - rewrite bool_decide_eq_false_2 by done. rewrite bool_decide_eq_true_2 by done. by rewrite Hread.
Qed.
End roundtrip.

(** ** What a role change needs *)

Section change.
Variable toUpperCase toLowerCase : text → text.
Definition asked_role (action : CliAction) : UserRole := match action with cli_promote => SUPERADMIN | cli_demote => USER end.
Definition asked_action (action : CliAction) : string := match action with cli_promote => "PROMOTE_ADMIN" | cli_demote => "DEMOTE_ADMIN" end.
(** The account with the UID takes the role, and an audit row says so: with a
    reason, by an active superadmin - or, when there is none, by the account
    that becomes the first. *)
Definition role_changed (action : CliAction) (uid : text) (d d' : DB) : Prop := ∃ k u e reason,
  db_users d !! k = Some u ∧ u_uid u = toUpperCase (trim uid) ∧ u_role u ≠ asked_role action
  ∧ db_users d' = <[k := u <| u_role := asked_role action |>]> (db_users d)
  ∧ db_auditLogs d' = db_auditLogs d ++ [e] ∧ au_action e = asked_action action ∧ au_targetId e = Some k
  ∧ au_reason e = Some reason ∧ 4 <= Z.of_nat (length reason) <= 500
  ∧ ((∃ ua, db_users d !! au_adminUserId e = Some ua ∧ is_superadmin ua = true)
     ∨ (action = cli_promote ∧ active_admins d = 0%nat ∧ au_adminUserId e = k)).

Lemma reason_ok_length reason : reason_ok reason = true → 4 <= Z.of_nat (length (trim reason)) <= 500.
Proof. unfold reason_ok. intros Hr. bool_inv. lia. Qed.
Lemma lockTarget_ok uid d k u d' : lockTarget toUpperCase uid d = Ok ((k, u), d') → db_users d !! k = Some u ∧ u_uid u = toUpperCase (trim uid) ∧ d' = d.
Proof.
  intros Hrun. unfold lockTarget, user_by_uid in Hrun. step_inv. match goal with H : find_unique _ _ = Some _ |- _ => apply find_unique_Some in H as [? Hu] end. by bool_inv.
Qed.
Lemma requireActiveActor_ok actor d a d' : requireActiveActor actor d = Ok (a, d') →
  d' = d ∧ ∃ u, db_users d !! a = Some u ∧ is_superadmin u = true.
Proof. intros Hrun. unfold requireActiveActor in Hrun. step_inv. split; [done|]. destruct (db_users _ !! _) eqn:E; [|done]. eauto. Qed.

Lemma promote_tx_changes input id now d d' : reason_ok (rc_reason input) = true →
  promote_tx toUpperCase input id now d = Ok (true, d') → role_changed cli_promote (rc_targetUid input) d d'.
Proof.
  intros Hr%reason_ok_length Hrun. unfold promote_tx in Hrun. apply tx_bind_ok in Hrun as ([k u] & d1 & (Hk & Huid & ->)%lockTarget_ok & Hrun).
  apply tx_bind_ok in Hrun as (actor & d2 & Hactor & Hrun). unfold set_role, audit_role, record_audit in Hrun.
  assert (d2 = d ∧ ((∃ ua, db_users d !! actor = Some ua ∧ is_superadmin ua = true) ∨ (active_admins d = 0%nat ∧ actor = k))) as [-> Ha].
  { unfold requireActorOrBootstrap in Hactor. destruct (actor_of input); [apply requireActiveActor_ok in Hactor as [-> ?]; by auto|]. step_inv. bool_inv. auto. }
  step_inv. bool_inv. eexists k, u, _, _. split_and!; try reflexivity; try done; try apply Hr. destruct Ha as [Ha|[? ->]]; [by left|by right].
Qed.
Lemma demote_tx_changes input id now d d' : reason_ok (rc_reason input) = true →
  demote_tx toUpperCase input id now d = Ok (true, d') → role_changed cli_demote (rc_targetUid input) d d'.
Proof.
  intros Hr%reason_ok_length Hrun. unfold demote_tx in Hrun. apply tx_bind_ok in Hrun as ([k u] & d1 & (Hk & Huid & ->)%lockTarget_ok & Hrun).
  apply tx_bind_ok in Hrun as (actor & d2 & [-> Ha]%requireActiveActor_ok & Hrun). unfold set_role, audit_role, record_audit in Hrun.
  step_inv. bool_inv. eexists k, u, _, _. split_and!; try reflexivity; try done; try apply Hr; [simpl in *; congruence|]. by left.
Qed.

Context {Hscan : ScanOrder} {B : Type}.
Variable others : nat → Server B → Server B.
Implicit Types (s : Server B).

Lemma prompted_ok o answer s v s' : prompted others o answer s = (Ok v, s') → v = default answer o.
Proof. unfold prompted. destruct o; intros Hrun; by server_inv. Qed.
Lemma asked_change_ok action input id now s s' : sv_call others (asked_change toUpperCase action input id now) s = (Ok true, s') →
  role_changed action (rc_targetUid input) (sv_db (resumed others s)) (sv_db s').
Proof.
  intros Hrun. unfold sv_call in Hrun. apply act_bind_ok in Hrun as ([] & s1 & ->%sv_await_ok & Hrun). unfold on_world in Hrun.
  destruct (asked_change _ _ _ _ _ _) as [r w] eqn:Hc. injection Hrun as -> <-.
  destruct action; simpl in Hc; unfold promote, demote, change_role in Hc; apply act_bind_ok in Hc as ([] & w1 & [Hr ->]%act_require_ok & Hc);
    apply transaction_ok in Hc as (d & Hd & ->); simpl; [by eapply promote_tx_changes|by eapply demote_tx_changes].
Qed.

Abbreviation says o := (o = Some (lit "production")).
(** C31: The command line changes a role only when it was told to: the arguments
    name the account, the operator confirmed its UID, a production run carries
    the token of this action on this account, and the change - of this account's
    role alone, with its audit row - is made for a reason and by an active
    superadmin, or makes the first one. *)
Theorem cli_change_is_confirmed terminal args id s s' :
  admin_role_cli toUpperCase toLowerCase others terminal args id s = (Ok (inr true), s') →
  ∃ options s1,
    parseAdminRoleCliArgs toUpperCase toLowerCase args = inr options
    ∧ toUpperCase (trim (default (toUpperCase (trim (tm_answer terminal (confirm_question (op_uid options))))) (op_confirm options)))
      = toUpperCase (trim (op_uid options))
    ∧ (says (tm_nodeEnv terminal) ∨ says (op_environment options) →
       says (op_environment options) ∧ op_confirmProduction options = Some (productionConfirmationToken toUpperCase (op_action options) (op_uid options)))
    ∧ role_changed (op_action options) (op_uid options) (sv_db s1) (sv_db s').
Proof.
  intros Hrun. unfold admin_role_cli in Hrun. destruct (parseAdminRoleCliArgs _ _ args) as [e|options]; [by apply act_ret_ok in Hrun as [? _]|].
  unfold execute in Hrun. destruct (validateEnvironmentConfirmation _ _ _) as [e|] eqn:Henv; [by apply act_ret_ok in Hrun as [? _]|].
  apply act_bind_ok in Hrun as ([] & s1 & _ & Hrun). unfold execute_on in Hrun.
  apply act_bind_ok in Hrun as (target & s2 & _ & Hrun). destruct target as [target|]; [|by apply act_ret_ok in Hrun as [? _]].
  apply act_bind_ok in Hrun as (confirmation & s3 & ->%prompted_ok & Hrun).
  destruct (validateTargetConfirmation _ _ _) as [e|] eqn:Hconf; [by apply act_ret_ok in Hrun as [? _]|].
  apply act_bind_ok in Hrun as (reason & s4 & _ & Hrun). destruct (_ || _) in Hrun; [by apply act_ret_ok in Hrun as [? _]|]. cbv zeta in Hrun.
  assert (∃ s1, role_changed (op_action options) (op_uid options) (sv_db s1) (sv_db s')) as [s5 Hch].
  { destruct (truthy_opt _) in Hrun.
    - apply act_bind_ok in Hrun as (actor & s5 & _ & Hrun). destruct actor as [actor|]; [|by apply act_ret_ok in Hrun as [? _]].
      apply act_bind_ok in Hrun as (now & s6 & _ & Hrun). apply act_bind_ok in Hrun as (b & s7 & Hc & [[= Hb] ->]%act_ret_ok); subst b.
      apply asked_change_ok in Hc. by eexists.
    - apply act_bind_ok in Hrun as (now & s6 & _ & Hrun). apply act_bind_ok in Hrun as (b & s7 & Hc & [[= Hb] ->]%act_ret_ok); subst b.
      apply asked_change_ok in Hc. by eexists. }
  exists options, s5. split_and!; [done|..|exact Hch].
  - unfold validateTargetConfirmation in Hconf. case_bool_decide; done.
  - unfold validateEnvironmentConfirmation in Henv. cbv zeta in Henv. destruct (decide (says (op_environment options))) as [He|He].
    + rewrite (bool_decide_eq_true_2 (says (op_environment options))), andb_false_r in Henv by done. simpl in Henv.
      case_bool_decide; [done|discriminate].
    + rewrite (bool_decide_eq_false_2 (says (op_environment options))), andb_true_r in Henv by done. simpl in Henv.
      case_bool_decide; [discriminate|]. by intros [?|?].
Qed.
End change.

(** ** Addresses *)

Lemma split_at_Some l a b : split_at l = Some (a, b) ↔ l = a ++ 64 :: b ∧ Forall (λ c, c ≠ 64) a.
Proof.
  revert a b. induction l as [|c l IH]; intros a b; simpl; [split; [done|by intros [?%app_cons_not_nil _]]|].
  destruct (c =? 64) eqn:Hc; bool_inv.
  - apply Z.eqb_eq in Hc as ->. split; [by intros [= <- <-]|]. intros [Hl Hf]. destruct a as [|c a]; simplify_eq/=; [done|]. by apply Forall_cons in Hf as [? _].
  - apply Z.eqb_neq in Hc. destruct (split_at l) as [[a' b']|] eqn:E; simpl; split.
    + intros [= <- <-]. destruct (proj1 (IH a' b') eq_refl) as [-> Hf]. split; [done|]. by constructor.
    + intros [Hl Hf]. destruct a as [|c' a]; simplify_eq/=. apply Forall_cons in Hf as [_ Hf]. assert (Some (a', b') = Some (a, b)) as [= -> ->] by (by apply IH). done.
    + done.
    + intros [Hl Hf]. destruct a as [|c' a]; simplify_eq/=. apply Forall_cons in Hf as [_ Hf]. assert (None = Some (a, b)) by (by apply IH). done.
Qed.
Definition mail_part (l : text) : Prop := l ≠ [] ∧ forallb mail_unit l = true.
Lemma removelast_middle (P : Z → bool) l : existsb P (removelast l) = true ↔ ∃ b c x, l = b ++ x :: c ∧ c ≠ [] ∧ P x = true.
Proof.
  rewrite existsb_exists. split.
  - intros (x & Hx & HP). destruct (exists_last (l := l)) as (l' & y & ->); [by intros ->|]. rewrite removelast_last in Hx.
    apply in_split in Hx as (b & c & ->). exists b, (c ++ [y]), x. rewrite <- (assoc_L app). split_and!; [done|by destruct c|done].
  - intros (b & c & x & -> & Hc & HP). exists x. split; [|done]. rewrite removelast_app by done. apply in_or_app. right.
    destruct c; [done|]. by left.
Qed.
(** The check of the address is the match of its regular expression. *)
Theorem email_ok_matches l : email_ok l = true ↔ ∃ a b c, l = a ++ lit "@" ++ b ++ lit "." ++ c ∧ mail_part a ∧ mail_part b ∧ mail_part c.
Proof.
  unfold email_ok. split.
  - destruct (split_at l) as [[[|c0 a] [|d b]]|] eqn:E; try done. apply split_at_Some in E as [-> _]. intros Hm. bool_inv.
    match goal with H : existsb _ _ = true |- _ => apply removelast_middle in H as (b' & c & x & -> & Hc & Hx) end. apply Z.eqb_eq in Hx as <-.
    match goal with H : forallb mail_unit (d :: _) = true |- _ => rename H into Hd end.
    change (d :: b' ++ 46 :: c) with ((d :: b') ++ [46] ++ c) in Hd. rewrite !forallb_app in Hd. bool_inv.
    exists (c0 :: a), (d :: b'), c. by repeat split.
  - intros (a & b & c & -> & [Ha Ha'] & [Hb Hb'] & [Hc Hc']).
    assert (split_at (a ++ lit "@" ++ b ++ lit "." ++ c) = Some (a, b ++ lit "." ++ c)) as ->.
    { apply split_at_Some. split; [done|]. apply Forall_forall. intros x Hx%list_elem_of_In. rewrite forallb_forall in Ha'. specialize (Ha' x Hx).
      unfold mail_unit in Ha'. by bool_inv. }
    destruct a as [|a0 a]; [done|]. destruct b as [|b0 b]; [done|]. cbn [app]. rewrite Ha'. 
    change (b0 :: b ++ lit "." ++ c) with ((b0 :: b) ++ lit "." ++ c). rewrite !forallb_app, Hb', Hc'. simpl.
    apply removelast_middle. by exists b, c, 46.
Qed.
