(* ===== verification/AdminSafety.v ===== *)
(** * What holds of the accounts, whatever is asked of the services

    One sweep over the requests of the identity, browser, account and
    administration services ([Closed]) carries both invariants: the rows of
    accounts and device sessions are well formed, and a superadmin stays. *)

From S2P Require Import Prelude Tables JsText Json Schema Interfaces Visit Storage Presence AssetPack Server Identity Browser Account Lockout Tokens AccountSafety Admin AdminCli.
Local Open Scope Z_scope.

(** ** The requests *)

Section requests.
Context {Hscan : ScanOrder} `{!Credentials} {B : Type} `{!ObjectStore B}.
Variable others : nat → Server B → Server B.
Variable toLowerCase toUpperCase : text → text.
Variable reported : list string → string.
Variable refreshExpiration : text.
Variable sha256_hex : text → text.
Variable parse_url : text → option Url.
Variable config : BrowserConfig.
Variable verify_refresh : text → instant → option (rowid * rowid).
Variable limits : StorageLimits.
Variable id_le : rowid → rowid → bool.
Variable fuel : nat.
Abbreviation Srv := (Server B).

(** A request of the four services, or a run of one of the command lines. *)
Inductive AccountRequest :=
  | RQ_auth (rq : AuthRequest)
  | RQ_admin (deviceId : rowid) (o : Order) (rq : AdminRequest)
  | RQ_role (terminal : Terminal) (args : list text) (auditId : rowid)
  | RQ_setup (environment : SetupEnv) (salt : text) (draw : nat → Draw) (auditId : rowid).
Definition serve_account (rq : AccountRequest) : Act Srv unit :=
  match rq with
  | RQ_auth rq => serve_auth others toLowerCase reported refreshExpiration sha256_hex parse_url config verify_refresh limits id_le fuel rq
  | RQ_admin dv o rq => guarded_admin others dv o rq
  | RQ_role terminal args k => admin_role_cli toUpperCase toLowerCase others terminal args k ;; mret ()
  | RQ_setup environment salt draw k => initial_superadmin_cli toLowerCase others reported environment salt draw k ;; mret ()
  end.
Fixpoint serve_accounts (rqs : list AccountRequest) (s : Srv) : Srv :=
  match rqs with [] => s | rq :: rqs' => serve_accounts rqs' (serve_account rq s).2 end.
End requests.

(** ** Conditions the requests keep *)

Abbreviation account_tables d := (db_users d, db_deviceSessions d).
Definition keeps_tx {A} (P : DB → Prop) (body : Tx DB A) : Prop := ∀ d a d', P d → body d = Ok (a, d') → P d'.

(** The row of a new account. *)
Definition new_account (u : User) : Prop :=
  u_accountStatus u = ACTIVE ∧ u_suspendedAt u = None ∧ u_deletionRequestedAt u = None
  ∧ u_deletionNextAttemptAt u = None ∧ u_deletionAttemptCount u = 0.
Definition same_device (f : DeviceSession → DeviceSession) : Prop := ∀ s, ds_userId (f s) = ds_userId s ∧ ds_deviceId (f s) = ds_deviceId s.

(** A condition on accounts and device sessions that every write of the
    identity, browser and account services keeps. *)
Record Closed (P : DB → Prop) : Prop := {
  cl_frame d d' : account_tables d' = account_tables d → P d → P d';
  cl_create reported k u : new_account u → keeps_tx P (create_user reported k u);
  cl_upsert k u dv h e now : keeps_tx P (upsert_session k u dv h e now);
  cl_session k now f : same_device f → keeps_tx P (update_session k now f);
  cl_sessions p now f d : same_device f → P d → P (update_sessions p now f d);
  cl_password k h : keeps_tx P (row ← gets (λ d, db_users d !! k); u ← require_some row P2025;
                                modify (λ d, d <| db_users := <[k := u <| u_passwordHash := h |>]> (db_users d) |>));
  cl_request u now : keeps_tx P (deleteAccount_tx u now);
  cl_finalize u ttl n m now : keeps_tx P (finalize_tx u ttl n m now);
  cl_defer u t failed d : P d → P (defer_write u t failed d);
}.

Section sweep.
Context {Hscan : ScanOrder} `{!Credentials} {B : Type} `{!ObjectStore B}.
Variable others : nat → Server B → Server B.
Variable toLowerCase toUpperCase : text → text.
Variable reported : list string → string.
Variable refreshExpiration : text.
Variable sha256_hex : text → text.
Variable parse_url : text → option Url.
Variable config : BrowserConfig.
Variable verify_refresh : text → instant → option (rowid * rowid).
Variable limits : StorageLimits.
Variable id_le : rowid → rowid → bool.
Variable fuel : nat.
Abbreviation Srv := (Server B).
Context (P : DB → Prop) (closed : Closed P).
Context (others_keep : ∀ n s, P (sv_db s) → P (sv_db (others n s))).
Abbreviation PS := (λ s : Srv, P (sv_db s)).

Lemma kept_bind {A C} (m : Tx DB A) (f : A → Tx DB C) : keeps_tx P m → (∀ a, keeps_tx P (f a)) → keeps_tx P (m ≫= f).
Proof. intros Hm Hf d c d' Hd (a & d1 & H1 & H2)%tx_bind_ok. eapply Hf; [|done]. by eapply Hm. Qed.
Lemma keeps_frame {A} (m : Tx DB A) : frame_on (λ d, account_tables d) m → keeps_tx P m.
Proof. intros Hf d a d' Hd Hrun%Hf. by eapply (cl_frame _ closed). Qed.
Lemma keeps_modify f : (∀ d, P d → P (f d)) → keeps_tx P (modify f).
Proof. intros Hf d a d' Hd ->%tx_modify_ok. auto. Qed.
Lemma preserves_keeps {A} (body : Tx DB A) : keeps_tx P body → preserves PS (sv_tx others body).
Proof. intros Hk. by apply preserves_tx. Qed.
Lemma preserves_framed {A} (body : Tx DB A) : frame_on (λ d, account_tables d) body → preserves PS (sv_tx others body).
Proof. intros Hk. by apply preserves_keeps, keeps_frame. Qed.
Lemma preserves_event v e p : preserves PS (on_world (publishToUser v e p)).
Proof. by intros s Hs. Qed.
#[local] Hint Resolve preserves_event : preserves.

Lemma revoke_same_device t : same_device (revoke t).
Proof. by intros s. Qed.
#[local] Hint Resolve revoke_same_device : core.

Lemma sweep_matching sessions token field : preserves PS (findMatchingSession others sessions token field).
Proof. induction sessions as [|ks l IH]; simpl; preserves. Qed.
Lemma sweep_issue v email dv jti : preserves PS (issueTokens others refreshExpiration v email dv jti).
Proof. unfold issueTokens. preserves. Qed.
#[local] Hint Resolve sweep_matching sweep_issue : preserves.
Lemma sweep_create v email dv fresh : preserves PS (createSessionTokens others refreshExpiration v email dv fresh).
Proof. unfold createSessionTokens. preserves. apply preserves_keeps, (cl_upsert _ closed). Qed.
Lemma sweep_rotate k v email dv fresh : preserves PS (rotateSessionTokens others refreshExpiration k v email dv fresh).
Proof. unfold rotateSessionTokens. preserves. by apply preserves_keeps, (cl_session _ closed). Qed.
#[local] Hint Resolve sweep_create sweep_rotate : preserves.
Lemma sweep_refresh token dv fresh : preserves PS (refreshToken others refreshExpiration token dv fresh).
Proof. unfold refreshToken. preserves. by apply preserves_keeps, (cl_session _ closed). Qed.
Lemma sweep_login dto fresh : preserves PS (login others toLowerCase refreshExpiration dto fresh).
Proof. unfold login. preserves. Qed.
Lemma sweep_attempts left n create : (∀ i, preserves PS (create i)) → preserves PS (attempts (B := B) left n create).
Proof. intros Hc. revert n. induction left as [|left IH]; intros n; simpl; preserves. Qed.
Lemma sweep_register dto salt draw fresh : preserves PS (register others toLowerCase reported refreshExpiration dto salt draw fresh).
Proof.
  unfold register. preserves. apply sweep_attempts. intros i. unfold attempt_user. preserves.
  by apply preserves_keeps, (cl_create _ closed).
Qed.
Lemma sweep_logout v adv dv : preserves PS (logout others v adv dv).
Proof. unfold logout. preserves. apply preserves_keeps, keeps_modify. intros d. by apply (cl_sessions _ closed). Qed.
#[local] Hint Resolve sweep_refresh sweep_login sweep_register sweep_logout : preserves.

Lemma sweep_portal_login e p dv c aid fresh : preserves PS (portal_login others toLowerCase sha256_hex refreshExpiration config e p dv c aid fresh).
Proof.
  unfold portal_login, setCookies, setTokenCookies, max_age, bindCsrfToken. preserves.
  - apply preserves_keeps. apply kept_bind; [apply keeps_frame; frame|intros]. apply kept_bind; [apply keeps_frame; frame|intros].
    by apply (cl_session _ closed).
  - apply preserves_framed. unfold record_audit. frame.
Qed.
Lemma sweep_requireCsrf v dv h c : preserves PS (requireCsrf others sha256_hex v dv h c).
Proof. unfold requireCsrf. preserves. Qed.
#[local] Hint Resolve sweep_portal_login sweep_requireCsrf : preserves.

Lemma sweep_revoke_others v dv t now d : P d → P (revoke_others v dv t now d).
Proof. by apply (cl_sessions _ closed). Qed.
Lemma sweep_disconnect_others v dv t : preserves PS (disconnect_others others v dv t).
Proof. unfold disconnect_others. preserves. Qed.
#[local] Hint Resolve sweep_disconnect_others : preserves.
Lemma sweep_changePassword v dv p p' salt : preserves PS (changePassword others v dv p p' salt).
Proof.
  unfold changePassword. preserves. apply preserves_keeps. intros d [] d' Hd Hrun. unfold change_tx in Hrun. step_inv.
  apply sweep_revoke_others. eapply (cl_password _ closed); [exact Hd|]. erewrite tx_gets_run, tx_require_some_run by done. reflexivity.
Qed.
Lemma sweep_revokeOtherDevices v dv : preserves PS (revokeOtherDevices others v dv).
Proof.
  unfold revokeOtherDevices. preserves. apply preserves_keeps. apply kept_bind; [apply keeps_frame; frame|intros].
  apply kept_bind; [|intros; apply keeps_frame; frame]. apply keeps_modify. intros. by apply sweep_revoke_others.
Qed.
Lemma sweep_revokeDevice v k dv : preserves PS (revokeDevice others v k dv).
Proof. unfold revokeDevice. preserves. by apply preserves_keeps, (cl_session _ closed). Qed.
#[local] Hint Resolve sweep_changePassword sweep_revokeOtherDevices sweep_revokeDevice : preserves.

Lemma sweep_pages {R} n (fetch : option rowid → DB → list (rowid * R)) body cursor :
  (∀ kr, preserves PS (body kr)) → preserves PS (pages others n fetch body cursor).
Proof. intros Hb. revert cursor. induction n as [|n IH]; intros cursor; simpl; preserves. Qed.
Lemma sweep_finalize v t : preserves PS (finalizePendingAccountDeletion others limits id_le fuel v t).
Proof.
  unfold finalizePendingAccountDeletion. preserves; [|apply preserves_keeps, (cl_finalize _ closed)].
  apply sweep_pages. intros kp. unfold delete_pack_objects, cleanup_failed. preserves. apply preserves_framed. unfold update_packs. frame.
Qed.
Lemma sweep_defer v t failed : preserves PS (deferAccountDeletion others v t failed).
Proof. unfold deferAccountDeletion. preserves. apply preserves_keeps, keeps_modify. intros. by apply (cl_defer _ closed). Qed.
#[local] Hint Resolve sweep_finalize sweep_defer : preserves.
Lemma sweep_deleteAccount v : preserves PS (deleteAccount others limits id_le fuel v).
Proof.
  unfold deleteAccount, publishAccountDeletionTerminalEvents, finish_or_defer. preserves.
  - apply preserves_keeps, (cl_request _ closed).
  - apply sweep_pages. intros. apply preserves_event.
  - apply sweep_pages. intros. apply preserves_event.
Qed.
Lemma sweep_finalize_all accounts p : preserves PS (finalize_all others limits id_le fuel accounts p).
Proof. revert p. induction accounts as [|ku l IH]; intros p; simpl; [preserves|]. unfold finalize_one. preserves. Qed.
Lemma sweep_ignoring {A} (m : Act Srv A) : preserves PS m → preserves PS (ignoring m).
Proof. intros Hm. unfold ignoring. preserves. Qed.
#[local] Hint Resolve sweep_ignoring sweep_deleteAccount sweep_finalize_all : preserves.

Lemma sweep_auth rq : preserves PS (serve_auth others toLowerCase reported refreshExpiration sha256_hex parse_url config verify_refresh limits id_le fuel rq).
Proof.
  destruct rq; simpl; try apply sweep_ignoring; eauto 3 with preserves nocore.
  - unfold getProfile. preserves.
  - unfold canActivate, requireAllowedOrigin. preserves.
  - unfold portal_session, getProfile. preserves.
  - unfold portal_refresh, setTokenCookies, max_age. preserves.
  - unfold portal_logout. preserves.
  - unfold finalizePendingAccountDeletions. preserves.
Qed.
End sweep.

(** ** Well-formed accounts *)

Record account_ok (u : User) : Prop := {
  ao_suspended : u_accountStatus u = ACTIVE ↔ u_suspendedAt u = None;
  ao_deletion : is_Some (u_deletionRequestedAt u) → u_accountStatus u = SUSPENDED;
  ao_attempt : is_Some (u_deletionNextAttemptAt u) → is_Some (u_deletionRequestedAt u);
  ao_count : 0 <= u_deletionAttemptCount u;
}.
(** The columns with a unique index. *)
Definition same_names (u u' : User) : Prop :=
  u_uid u = u_uid u' ∨ u_normalizedEmail u = u_normalizedEmail u' ∨ u_friendCode u = u_friendCode u'.
Record AccountsWf (d : DB) : Prop := {
  aw_row k u : db_users d !! k = Some u → account_ok u;
  aw_unique k1 u1 k2 u2 : db_users d !! k1 = Some u1 → db_users d !! k2 = Some u2 → same_names u1 u2 → k1 = k2;
  aw_device k1 s1 k2 s2 : db_deviceSessions d !! k1 = Some s1 → db_deviceSessions d !! k2 = Some s2 →
    ds_userId s1 = ds_userId s2 → ds_deviceId s1 = ds_deviceId s2 → k1 = k2;
  aw_owner k s : db_deviceSessions d !! k = Some s → is_Some (db_users d !! ds_userId s);
}.

Lemma wf_frame d d' : account_tables d' = account_tables d → AccountsWf d → AccountsWf d'.
Proof. intros [= Hu Hs] [R U D O]. by split; rewrite ?Hs, ?Hu. Qed.

(** One row is replaced under the same names. *)
Lemma wf_user k u u' d d' : db_users d' = <[k := u']> (db_users d) → db_deviceSessions d' = db_deviceSessions d →
  db_users d !! k = Some u → u_uid u' = u_uid u → u_normalizedEmail u' = u_normalizedEmail u → u_friendCode u' = u_friendCode u →
  account_ok u' → AccountsWf d → AccountsWf d'.
Proof.
  intros Hu Hs Hk E1 E2 E3 Hok [R U D O].
  assert (∀ i v, db_users d' !! i = Some v → ∃ v0, db_users d !! i = Some v0 ∧ account_ok v
    ∧ u_uid v = u_uid v0 ∧ u_normalizedEmail v = u_normalizedEmail v0 ∧ u_friendCode v = u_friendCode v0) as Hold.
  { intros i v. rewrite Hu. intros [[<- <-]|[_ Hi]]%lookup_insert_Some; [by exists u|]. exists v. split_and!; eauto. }
  split; rewrite ?Hs.
  - intros i v (v0 & _ & Hv & _)%Hold. done.
  - intros i1 v1 i2 v2 (w1 & H1 & _ & A1 & A2 & A3)%Hold (w2 & H2 & _ & B1 & B2 & B3)%Hold Hn. eapply U; [exact H1|exact H2|].
    unfold same_names in *. rewrite <- A1, <- A2, <- A3, <- B1, <- B2, <- B3. done.
  - exact D.
  - intros i s Hi%O. rewrite Hu. destruct (decide (ds_userId s = k)) as [->|]; [by rewrite lookup_insert_eq|by rewrite lookup_insert_ne].
Qed.
(** Sessions are changed or removed in place. *)
Lemma wf_sessions d d' : db_users d' = db_users d →
  (∀ k s', db_deviceSessions d' !! k = Some s' → ∃ s, db_deviceSessions d !! k = Some s ∧ ds_userId s' = ds_userId s ∧ ds_deviceId s' = ds_deviceId s) →
  AccountsWf d → AccountsWf d'.
Proof.
  intros Hu Hs [R U D O]. split; rewrite ?Hu; [exact R|exact U| |].
  - intros k1 s1 k2 s2 (r1 & H1 & -> & ->)%Hs (r2 & H2 & -> & ->)%Hs. by apply (D k1 r1 k2 r2).
  - intros k s (r & Hr & -> & _)%Hs. eauto.
Qed.
Lemma wf_update_sessions p now f d : same_device f → AccountsWf d → AccountsWf (update_sessions p now f d).
Proof.
  intros Hf. apply wf_sessions; [done|]. intros k s' Hk. apply lookup_update_many_Some in Hk as (s & Hk & ->). exists s.
  destruct (Hf s). by destruct (p s).
Qed.
Lemma wf_update_session k now f : same_device f → keeps_tx AccountsWf (update_session k now f).
Proof.
  intros Hf d [] d' Hd Hrun. unfold update_session in Hrun. step_inv. revert Hd. apply wf_sessions; [done|]. intros i s' Hi.
  cbn in Hi; apply lookup_insert_Some in Hi as [[<- <-]|[_ Hi]]; [|eauto]. eexists. split; [eassumption|]. apply Hf.
Qed.
Lemma wf_upsert k u dv h e now : keeps_tx AccountsWf (upsert_session k u dv h e now).
Proof.
  intros d [] d' Hd Hrun. unfold upsert_session in Hrun. apply tx_bind_ok in Hrun as (found & d1 & [-> ->]%tx_gets_ok & Hrun).
  destruct (session_of u dv d) as [[k' s]|] eqn:Hf.
  - revert Hrun. by apply wf_update_session.
  - unfold create_session in Hrun. step_inv. option_inv. simplify_eq.
    match goal with H : create_row _ _ _ _ = Some _ |- _ => apply create_row_Some in H as (Hn & Hc & ->) end.
    destruct Hd as [R U D O]. split; cbn; [exact R|exact U| |].
    + intros k1 s1 k2 s2 [[<- <-]|[Hne1 Hk1]]%lookup_insert_Some [[<- <-]|[Hne2 Hk2]]%lookup_insert_Some; cbn; [done|..|by apply (D k1 s1 k2 s2)].
      * intros E1 E2. specialize (Hc _ _ Hk2). unfold device_clash, of_device in Hc. cbn in Hc. rewrite E1, E2, !bool_decide_eq_true_2 in Hc by done. done.
      * intros E1 E2. specialize (Hc _ _ Hk1). unfold device_clash, of_device in Hc. cbn in Hc. rewrite <- E1, <- E2, !bool_decide_eq_true_2 in Hc by done. done.
    + intros i s [[<- <-]|[_ Hi]]%lookup_insert_Some; cbn; [by eexists|eauto].
Qed.
Lemma violated_none u d k' u' : violated u d = [] → db_users d !! k' = Some u' → ¬ same_names u u'.
Proof.
  unfold violated. intros Hv Hk Hn.
  assert (∀ f : User → text, f u = f u' → exists_where (λ _ u1, f u1 == f u) (db_users d) = true) as Ht.
  { intros f Hf. apply exists_where_true. exists k', u'. split; [done|]. by apply bool_decide_eq_true_2. }
  destruct Hn as [E|[E|E]]; rewrite (Ht _ E) in Hv; [done|..]; repeat case_match; done.
Qed.
Lemma wf_create reported k u : new_account u → keeps_tx AccountsWf (create_user reported k u).
Proof.
  intros (A1 & A3 & A4 & A5 & A6) d a d' [R U D O] Hrun. unfold create_user in Hrun. step_inv. bool_inv.
  match goal with H : violated _ _ = [] |- _ => pose proof (violated_none u d) as Hv; specialize (λ k' u', Hv k' u' H) end.
  assert (account_ok u) as Hok.
  { split; rewrite ?A1, ?A3, ?A4, ?A5, ?A6; try done; by intros []. }
  split; cbn.
  - intros i v [[<- <-]|[_ Hi]]%lookup_insert_Some; eauto.
  - intros k1 u1 k2 u2 [[<- <-]|[Hne1 Hk1]]%lookup_insert_Some [[<- <-]|[Hne2 Hk2]]%lookup_insert_Some Hn; [done|..].
    + by destruct (Hv _ _ Hk2).
    + destruct (Hv _ _ Hk1). unfold same_names in *. naive_solver.
    + by apply (U k1 u1 k2 u2).
  - exact D.
  - intros i s Hi%O. apply lookup_insert_is_Some'. by right.
Qed.

Lemma wf_set_hash k u h d : db_users d !! k = Some u → AccountsWf d → AccountsWf (d <| db_users := <[k := u <| u_passwordHash := h |>]> (db_users d) |>).
Proof.
  intros Hk Hd. eapply (wf_user k u _ d); [reflexivity|reflexivity|exact Hk|reflexivity..| |exact Hd]. destruct (aw_row _ Hd _ _ Hk). by split.
Qed.
Lemma wf_password k h : keeps_tx AccountsWf (row ← gets (λ d, db_users d !! k); u ← require_some row P2025;
  modify (λ d, d <| db_users := <[k := u <| u_passwordHash := h |>]> (db_users d) |>)).
Proof.
  intros d [] d' Hd Hrun. step_inv. by apply wf_set_hash.
Qed.
Lemma wf_request u now : keeps_tx AccountsWf (deleteAccount_tx u now).
Proof.
  intros d t d' Hd (account & Hu & ->)%deleteAccount_tx_ok.
  set (d1 := lock_user u account t d).
  assert (AccountsWf d1) as Hd1.
  { destruct (aw_row _ Hd _ _ Hu) as [A1 A2 A3 A4]. eapply (wf_user u account _ d); [reflexivity|reflexivity|exact Hu|reflexivity..| |exact Hd]. by split. }
  eapply (wf_frame (revoke_devices u now d1)); [by rewrite request_users, request_devices|]. by apply wf_update_sessions.
Qed.
Lemma finalize_users u ttl n m now d r d' : finalize_tx u ttl n m now d = Ok (r, d') →
  account_tables d' = account_tables d ∨
  (∃ user, db_users d !! u = Some user ∧ is_Some (u_deletionRequestedAt user)) ∧
  db_users d' = delete u (db_users d) ∧ db_deviceSessions d' = delete_many (λ _ s, ds_userId s == u) (db_deviceSessions d).
Proof.
  intros Hrun. unfold finalize_tx in Hrun. apply tx_bind_ok in Hrun as (row & d0 & [-> ->]%tx_gets_ok & Hrun).
  destruct (_ ≫= _) as [t|] eqn:Hreq; [|step_inv; by left]. option_inv. cbv zeta in Hrun.
  apply tx_bind_ok in Hrun as (sm & d1 & [-> ->]%tx_gets_ok & Hrun). case_match; [step_inv; by left|].
  right. split; [eauto|]. apply tx_bind_ok in Hrun as ([] & d2 & ->%tx_modify_ok & Hrun).
  apply tx_bind_ok in Hrun as ([] & d3 & Hi%tx_modify_or_ok & Hrun). apply tx_bind_ok in Hrun as ([] & d4 & Hd%tx_modify_or_ok & [_ <-]%tx_ret_ok).
  cbv zeta in Hi. destruct (exists_where _ (db_sessions _)); [done|]. injection Hi as <-.
  unfold delete_user in Hd. cbv zeta in Hd. destruct (_ || _) in Hd; [done|]. injection Hd as <-. done.
Qed.
Lemma wf_finalize u ttl n m now : keeps_tx AccountsWf (finalize_tx u ttl n m now).
Proof.
  intros d r d' Hd [Hsame|(_ & Hu & Hs)]%finalize_users; [by eapply wf_frame|]. destruct Hd as [R U D O].
  split; rewrite ?Hu, ?Hs.
  - intros k v [_ Hk]%lookup_delete_Some. eauto.
  - intros k1 u1 k2 u2 [_ Hk1]%lookup_delete_Some [_ Hk2]%lookup_delete_Some. by apply U.
  - intros k1 s1 k2 s2 [Hk1 _]%lookup_delete_many_Some [Hk2 _]%lookup_delete_many_Some. by apply D.
  - intros k s [Hk Hne]%lookup_delete_many_Some. bool_inv. rewrite lookup_delete_ne by done. eauto.
Qed.
Lemma wf_defer u t failed d : AccountsWf d → AccountsWf (defer_write u t failed d).
Proof.
  intros Hd. unfold defer_write. destruct (db_users d !! u) as [user|] eqn:Hu.
  - rewrite (alter_as_insert _ _ _ _ Hu). destruct (aw_row _ Hd _ _ Hu) as [A1 A2 A3 A4].
    case_bool_decide as Hreq; (eapply (wf_user u user _ d); [reflexivity|reflexivity|exact Hu|reflexivity..| |exact Hd]); [|by split].
    split; cbn; [done..|]. destruct failed; lia.
  - rewrite alter_id; [by destruct d|]. intros; simplify_eq.
Qed.
Lemma Closed_wf : Closed AccountsWf.
Proof.
  split; [exact wf_frame|exact wf_create|exact wf_upsert|exact wf_update_session|exact wf_update_sessions
         |exact wf_password|exact wf_request|exact wf_finalize|exact wf_defer].
Qed.

(** ** An active superadmin *)

Definition admin_here (a : rowid) (d : DB) : Prop := AccountsWf d ∧ ∃ u, db_users d !! a = Some u ∧ is_superadmin u = true.

Lemma admin_keeps_user a k u u' d d' : db_users d !! k = Some u → (is_superadmin u = true → is_superadmin u' = true) →
  db_users d' = <[k := u']> (db_users d) → (AccountsWf d → AccountsWf d') → admin_here a d → admin_here a d'.
Proof.
  intros Hk Hsup Hu Hwf [Hd (v & Ha & Hv)]. split; [auto|]. rewrite Hu. destruct (decide (a = k)) as [->|Hne].
  - rewrite lookup_insert_eq. simplify_eq. eauto.
  - rewrite lookup_insert_ne by done. eauto.
Qed.
Lemma admin_same_users a d d' : db_users d' = db_users d → (AccountsWf d → AccountsWf d') → admin_here a d → admin_here a d'.
Proof. intros Hu Hwf [Hd Ha]. split; [auto|]. by rewrite Hu. Qed.
Lemma upsert_users k u dv h e now d x d' : upsert_session k u dv h e now d = Ok (x, d') → db_users d' = db_users d.
Proof.
  intros Hrun. unfold upsert_session, create_session, update_session in Hrun. step_inv; [done|]. option_inv. by simplify_eq.
Qed.
Lemma update_session_users k now f d x d' : update_session k now f d = Ok (x, d') → db_users d' = db_users d.
Proof. intros Hrun. unfold update_session in Hrun. by step_inv. Qed.

Lemma Closed_admin a : Closed (admin_here a).
Proof.
  split.
  - intros d d' [= Hu Hs] Ha. eapply admin_same_users; [exact Hu| |exact Ha]. apply wf_frame. by rewrite Hu, Hs.
  - intros reported k u Hnew d x d' [Hd (v & Ha & Hv)] Hrun. split; [by eapply wf_create|]. unfold create_user in Hrun. step_inv. bool_inv. cbn.
    rewrite lookup_insert_ne; [eauto|]. intros ->. match goal with H : ¬ is_Some _ |- _ => destruct H; eauto end.
  - intros k u dv h e now d x d' Ha Hrun. eapply admin_same_users; [by eapply upsert_users| |exact Ha]. intros Hd. by eapply wf_upsert.
  - intros k now f Hf d x d' Ha Hrun. eapply admin_same_users; [by eapply update_session_users| |exact Ha]. intros Hd. by eapply wf_update_session.
  - intros p now f d Hf. apply admin_same_users; [done|]. by apply wf_update_sessions.
  - intros k h d x d' Ha Hrun. pose proof (λ Hd, wf_password k h d x d' Hd Hrun) as Hwf. step_inv.
    eapply admin_keeps_user; [eassumption| |reflexivity|exact Hwf|exact Ha]. done.
  - intros u now d t d' Ha Hrun. pose proof (λ Hd, wf_request u now d t d' Hd Hrun) as Hwf. destruct Ha as [Hd (v & Ha & Hv)]. split; [auto|].
    pose proof Hrun as (account & Hu & ->)%deleteAccount_tx_ok. unfold deleteAccount_tx in Hrun. step_inv.
    rewrite request_users. unfold lock_user. cbn. rewrite lookup_insert_ne; [eauto|]. intros ->. simplify_eq.
    unfold is_superadmin in Hv. by bool_inv.
  - intros u ttl n m now d r d' Ha Hrun. pose proof (λ Hd, wf_finalize u ttl n m now d r d' Hd Hrun) as Hwf.
    apply finalize_users in Hrun as [[= Hu Hs]|((user & Hu & Hreq) & Hdel & _)]; [by eapply admin_same_users|].
    destruct Ha as [Hd (v & Ha & Hv)]. split; [auto|]. rewrite Hdel, lookup_delete_ne; [eauto|]. intros ->. simplify_eq.
    pose proof (ao_deletion _ (aw_row _ Hd _ _ Ha) Hreq). unfold is_superadmin in Hv. bool_inv. congruence.
  - intros u t failed d [Hd (v & Ha & Hv)]. split; [by apply wf_defer|]. unfold defer_write. cbn.
    destruct (decide (a = u)) as [->|]; [|rewrite lookup_alter_ne by done; eauto]. rewrite lookup_alter_eq, Ha. simpl.
    eexists. split; [done|]. by case_bool_decide.
Qed.

(** ** Administrative requests *)

Definition may_set (o : Order) (u : rowid) (status : UserAccountStatus) : bool := negb ((or_adminUserId o == u) && (status == SUSPENDED)).

Lemma setAccountStatus_tx_ok o u status now d x d' : setAccountStatus_tx o u status now d = Ok (x, d') →
  ∃ user, db_users d !! u = Some user ∧ (status = ACTIVE → u_deletionRequestedAt user = None)
    ∧ db_users d' = <[u := user <| u_accountStatus := status |> <| u_suspendedAt := if status == SUSPENDED then Some now else None |>]> (db_users d)
    ∧ db_deviceSessions d' = db_deviceSessions (if status == SUSPENDED then revoke_devices u now d else d).
Proof.
  intros Hrun. unfold setAccountStatus_tx, audit, record_audit in Hrun. step_inv; (eexists; split_and!; [eassumption| |reflexivity|reflexivity]); intros ->; bool_inv.
  all: match goal with H : (ACTIVE == ACTIVE) && _ = false |- _ => rewrite bool_decide_eq_true_2 in H by done; simpl in H; bool_inv; by apply eq_None_not_Some end.
Qed.
Lemma wf_set_status o u status now : keeps_tx AccountsWf (setAccountStatus_tx o u status now).
Proof.
  intros d x d' Hd (user & Hu & Hdel & Hus & Hs)%setAccountStatus_tx_ok.
  set (d1 := d <| db_users := <[u := user <| u_accountStatus := status |> <| u_suspendedAt := if status == SUSPENDED then Some now else None |>]> (db_users d) |>).
  assert (AccountsWf d1) as Hd1.
  { destruct (aw_row _ Hd _ _ Hu) as [A1 A2 A3 A4]. eapply (wf_user u user _ d); [reflexivity|reflexivity|exact Hu|reflexivity..| |exact Hd].
    destruct status; split; cbn; try done. rewrite Hdel by done. by intros []. }
  case_bool_decide; [|by apply (wf_frame d1); [rewrite Hus, Hs|]].
  apply (wf_frame (revoke_devices u now d1)); [by rewrite Hus, Hs|]. by apply wf_update_sessions.
Qed.
Lemma admin_set_status o u status now : may_set o u status = true → keeps_tx (admin_here (or_adminUserId o)) (setAccountStatus_tx o u status now).
Proof.
  intros Hmay d x d' Ha Hrun. pose proof (λ Hd, wf_set_status o u status now d x d' Hd Hrun) as Hwf. destruct Ha as [Hd (v & Ha & Hv)]. split; [auto|].
  apply setAccountStatus_tx_ok in Hrun as (user & Hu & Hdel & Hus & _). rewrite Hus. unfold may_set in Hmay.
  destruct (decide (or_adminUserId o = u)) as [<-|Hne]; [|rewrite lookup_insert_ne by done; eauto].
  rewrite lookup_insert_eq. simplify_eq. rewrite (bool_decide_eq_true_2 (_ = _)) in Hmay by done. simpl in Hmay. bool_inv.
  eexists. split; [done|]. unfold is_superadmin in *. bool_inv. cbn. rewrite !bool_decide_eq_true_2; [done|by destruct status|done].
Qed.

Section service.
Context {Hscan : ScanOrder} {B : Type}.
Variable others : nat → Server B → Server B.
Abbreviation Srv := (Server B).
Context (P : DB → Prop) (closed : Closed P).
Context (others_keep : ∀ n s, P (sv_db s) → P (sv_db (others n s))).
Abbreviation PS := (λ s : Srv, P (sv_db s)).

Lemma sweep_event v e p : preserves PS (publish v e p).
Proof. by intros s Hs. Qed.
#[local] Hint Resolve sweep_event : preserves.
Lemma sweep_revokeVisits k reason now : preserves PS (sv_call others (revokeCompanionVisits k reason now)).
Proof.
  apply preserves_call; [done|]. intros w Hw. unfold revokeCompanionVisits, mbind, act_bind.
  destruct (transaction _ w) as [[changed|e] w1] eqn:E; [|apply transaction_err in E as [_ ->]; done].
  assert (w_db (act_for changed.1 (λ i, publishInvitation i "visit.invitation.updated") w1).2 = w_db w1) as H1
    by (apply db_preserving_for; intros i; by unfold publishInvitation).
  destruct (act_for changed.1 _ w1) as [[[]|e] w2]; simpl in *.
  - rewrite db_preserving_for by (intros s; by unfold publishSession). rewrite H1. apply transaction_ok in E as (d & Hrun & ->). cbn.
    revert Hrun. generalize (w_db w) Hw. intros d0 Hd0 Hrun. eapply (keeps_frame P closed); [|exact Hd0|exact Hrun].
    unfold revokeCompanionVisits_tx, cancel_claimed, close_claimed, claim_session, releaseSessionReservations. frame.
  - rewrite H1. apply transaction_ok in E as (d & Hrun & ->). cbn. eapply (keeps_frame P closed); [|exact Hw|exact Hrun].
    unfold revokeCompanionVisits_tx, cancel_claimed, close_claimed, claim_session, releaseSessionReservations. frame.
Qed.
#[local] Hint Resolve sweep_revokeVisits : preserves.

Lemma sweep_admin o rq :
  (∀ u status now, may_set o u status = true → keeps_tx P (setAccountStatus_tx o u status now)) →
  preserves PS (serve_admin others o rq).
Proof.
  intros Hset. destruct rq; simpl.
  1-2: unfold setAccountStatus, require_reason; preserves; by apply (preserves_keeps others P others_keep), Hset.
  - unfold admin_revokeDevice, require_reason. preserves. apply (preserves_keeps others P others_keep). unfold admin_revokeDevice_tx, audit, record_audit.
    do 2 (apply kept_bind; [apply (keeps_frame P closed); frame|intros]).
    apply kept_bind; [apply (cl_session _ closed); by intros s|intros]. apply (keeps_frame P closed). frame.
  - unfold admin_unpublishCompanion, require_reason. preserves. apply (preserves_framed others P closed others_keep). unfold admin_unpublish_tx, audit, record_audit. frame.
  - unfold admin_endVisitSession, require_reason, tell_ended. preserves. apply (preserves_framed others P closed others_keep). unfold admin_endVisit_tx, alter_session, audit, record_audit. frame.
  - unfold reconcileVisitSession, require_reason, tell_ended. preserves. apply (preserves_framed others P closed others_keep). unfold reconcile_tx, alter_session, audit, record_audit. frame.
  - unfold admin_cancelVisitInvitation, require_reason, tell_cancelled. preserves. apply (preserves_framed others P closed others_keep).
    unfold admin_cancelInvitation_tx, alter_invitation, audit, record_audit. frame.
Qed.
Lemma sweep_authenticate sub dv : preserves PS (authenticate others sub dv).
Proof. unfold authenticate. preserves. Qed.
Lemma sweep_guard a : preserves PS (superadmin_guard others a).
Proof. unfold superadmin_guard. preserves. Qed.
End service.

(** ** Role changes *)

Lemma wf_set_role role k u d : db_users d !! k = Some u → AccountsWf d → AccountsWf (d <| db_users := <[k := u <| u_role := role |>]> (db_users d) |>).
Proof.
  intros Hk Hd. eapply (wf_user k u _ d); [reflexivity|reflexivity|exact Hk|reflexivity..| |exact Hd]. destruct (aw_row _ Hd _ _ Hk). by split.
Qed.
(** Two active superadmins are more than any one. *)
Lemma another_admin d k : (1 < active_admins d)%nat → ∃ k' u, k' ≠ k ∧ db_users d !! k' = Some u ∧ is_superadmin u = true.
Proof.
  intros Hn. unfold active_admins, count_where in Hn. set (m := filter _ (db_users d)) in Hn.
  destruct (decide (map_Exists (λ k' _, k' ≠ k) m)) as [(k' & u & Hk' & Hne)|Hno].
  - apply map_lookup_filter_Some in Hk' as [Hk' Hu]. eauto.
  - exfalso. assert (size m <= 1)%nat; [|lia]. rewrite <- size_dom.
    transitivity (size ({[k]} : gset rowid)); [|by rewrite size_singleton]. apply subseteq_size. intros k' [u Hk']%elem_of_dom.
    apply elem_of_singleton. destruct (decide (k' = k)); [done|]. destruct Hno. by exists k', u.
Qed.

Section roles.
Variable toUpperCase : text → text.
Lemma promote_ok input id now d b d' : promote_tx toUpperCase input id now d = Ok (b, d') →
  d' = d ∨ ∃ k u, db_users d !! k = Some u ∧ account_tables d' = account_tables (d <| db_users := <[k := u <| u_role := SUPERADMIN |>]> (db_users d) |>).
Proof.
  intros Hrun. unfold promote_tx in Hrun. apply tx_bind_ok in Hrun as ([k u] & d1 & (Hk & _ & ->)%lockTarget_ok & Hrun).
  apply tx_bind_ok in Hrun as (actor & d2 & Hactor & Hrun).
  assert (d2 = d) as ->.
  { unfold requireActorOrBootstrap in Hactor. destruct (actor_of input); [by apply requireActiveActor_ok in Hactor as [-> _]|]. by step_inv. }
  unfold set_role, audit_role, record_audit in Hrun. step_inv; [by left|]. right. eauto.
Qed.
Lemma demote_ok input id now d b d' : demote_tx toUpperCase input id now d = Ok (b, d') →
  d' = d ∨ ∃ k u, db_users d !! k = Some u ∧ account_tables d' = account_tables (d <| db_users := <[k := u <| u_role := USER |>]> (db_users d) |>)
    ∧ ∃ k' u', k' ≠ k ∧ db_users d !! k' = Some u' ∧ is_superadmin u' = true.
Proof.
  intros Hrun. unfold demote_tx in Hrun. apply tx_bind_ok in Hrun as ([k u] & d1 & (Hk & _ & ->)%lockTarget_ok & Hrun).
  apply tx_bind_ok in Hrun as (actor & d2 & [-> (ua & Ha & Hsup)]%requireActiveActor_ok & Hrun).
  unfold set_role, audit_role, record_audit in Hrun. step_inv; [by left|]. right. exists k, u. split_and!; [done..|].
  destruct (decide (actor = k)) as [->|]; [|by exists actor, ua]. simplify_eq. apply another_admin.
  unfold is_superadmin in Hsup. bool_inv. match goal with H : (_ == ACTIVE) && _ = false |- _ => rewrite bool_decide_eq_true_2 in H by done; simpl in H end.
  bool_inv. lia.
Qed.
Lemma wf_roles tx input id now : (tx = promote_tx toUpperCase ∨ tx = demote_tx toUpperCase) → keeps_tx AccountsWf (tx input id now).
Proof.
  intros [-> | ->] d b d' Hd Hrun.
  - apply promote_ok in Hrun as [-> |(k & u & Hk & Hs)]; [done|]. eapply wf_frame; [exact Hs|]. by apply wf_set_role.
  - apply demote_ok in Hrun as [-> |(k & u & Hk & Hs & _)]; [done|]. eapply wf_frame; [exact Hs|]. by apply wf_set_role.
Qed.
(** Some account is an active superadmin. *)
Definition some_admin (d : DB) : Prop := ∃ a, admin_here a d.
Lemma admin_roles tx input id now : (tx = promote_tx toUpperCase ∨ tx = demote_tx toUpperCase) → keeps_tx some_admin (tx input id now).
Proof.
  intros Htx d b d' [a Ha] Hrun. pose proof (λ Hd, wf_roles tx input id now Htx d b d' Hd Hrun) as Hwf. destruct Htx as [-> | ->].
  - apply promote_ok in Hrun as [-> |(k & u & Hk & [= Hu _])]; [by exists a|]. exists a. eapply admin_keeps_user; [exact Hk| |exact Hu|exact Hwf|exact Ha].
    unfold is_superadmin. cbn. intros ?. bool_inv. by rewrite !bool_decide_eq_true_2.
  - apply demote_ok in Hrun as [-> |(k & u & Hk & [= Hu _] & k' & u' & Hne & Hk' & Hsup)]; [by exists a|]. destruct Ha as [Hd _].
    exists k'. split; [auto|]. rewrite Hu. cbn. rewrite lookup_insert_ne by done. eauto.
Qed.
Lemma preserves_role_change {B} (others : nat → Server B → Server B) (P : DB → Prop) tx (input : RoleChange) (id : rowid) (now : instant) :
  (∀ n s, P (sv_db s) → P (sv_db (others n s))) → keeps_tx P (tx input id now) →
  preserves (λ s, P (sv_db s)) (sv_call others (change_role tx input id now)).
Proof.
  intros Ho Hk. apply preserves_call; [done|]. intros w Hw. unfold change_role, mbind, act_bind, act_require. destruct (reason_ok _); [|done].
  unfold transaction. destruct (tx input id now (w_db w)) as [[b d]|e] eqn:E; [|done]. by eapply Hk.
Qed.
Lemma preserves_cli {Hscan : ScanOrder} {B} (others : nat → Server B → Server B) (P : DB → Prop) toLowerCase terminal args id :
  (∀ n s, P (sv_db s) → P (sv_db (others n s))) →
  (∀ input now, keeps_tx P (promote_tx toUpperCase input id now)) → (∀ input now, keeps_tx P (demote_tx toUpperCase input id now)) →
  preserves (λ s, P (sv_db s)) (admin_role_cli toUpperCase toLowerCase others terminal args id).
Proof.
  intros Ho Hp Hd. assert (∀ action input now, preserves (λ s, P (sv_db s)) (sv_call others (asked_change toUpperCase action input id now))) as Hc
    by (intros [] input now; by apply preserves_role_change).
  unfold admin_role_cli, execute, execute_on, prompted. preserves.
Qed.
End roles.

(** ** The first superadmin *)

Section setup.
Context {Hscan : ScanOrder} `{!Credentials} {B : Type}.
Variable others : nat → Server B → Server B.
Variable reported : list string → string.
Variable toLowerCase : text → text.
Context (P : DB → Prop) (closed : Closed P).
Context (others_keep : ∀ n (s : Server B), P (sv_db s) → P (sv_db (others n s))).

Context (keeps_promotion : ∀ k u d, db_users d !! k = Some u → P d → P (d <| db_users := <[k := u <| u_role := SUPERADMIN |>]> (db_users d) |>)).
Context (keeps_hash : ∀ k u h d, db_users d !! k = Some u → P d → P (d <| db_users := <[k := u <| u_passwordHash := h |>]> (db_users d) |>)).

Lemma keeps_audit id k metadata now : keeps_tx P (setup_audit id k metadata now).
Proof. apply (keeps_frame P closed). unfold setup_audit, record_audit. frame. Qed.
Lemma keeps_configure existing h id now : keeps_tx P (configure_tx existing h id now).
Proof.
  unfold configure_tx. cbv zeta. intros d x d' Hd Hrun. apply tx_bind_ok in Hrun as (row & d1 & [-> ->]%tx_gets_ok & Hrun).
  apply tx_bind_ok in Hrun as (u & d2 & [Hu ->]%tx_require_some_ok & Hrun). apply tx_bind_ok in Hrun as ([] & d3 & ->%tx_modify_ok & Hrun).
  match type of Hrun with (if _ then _ else _) ?d3 = _ => assert (P d3) as Hd3 end.
  { destruct (truthy_opt h); [|by apply keeps_promotion]. 
    pose proof (keeps_hash existing.1 _ (default [] h) _ (lookup_insert_eq _ _ _) (keeps_promotion _ _ _ Hu Hd)) as Hk. cbn in Hk.
    by rewrite insert_insert_eq in Hk. }
  destruct (_ || _) in Hrun; [by eapply keeps_audit|]. by apply tx_ret_ok in Hrun as [_ <-].
Qed.
Lemma keeps_create_superadmin config h uid draw id now : keeps_tx P (create_tx reported config h uid draw id now).
Proof. unfold create_tx. apply (kept_bind P); [by apply (cl_create _ closed)|]. intros user. apply (kept_bind P); [apply keeps_audit|]. by intros [] d a d' Hd [_ <-]%tx_ret_ok. Qed.
Lemma preserves_setup environment salt draw id :
  preserves (λ s : Server B, P (sv_db s)) (initial_superadmin_cli toLowerCase others reported environment salt draw id).
Proof.
  unfold initial_superadmin_cli, setupInitialSuperadmin. preserves.
  - apply preserves_tx; [done|]. apply keeps_configure.
  - assert (∀ left n create, (∀ i, preserves (λ s : Server B, P (sv_db s)) (create i)) → preserves (λ s : Server B, P (sv_db s)) (superadmin_attempts left n create)) as Hat.
    { intros left. induction left as [|left IH]; intros n create Hc; simpl; preserves. }
    apply Hat. intros i. unfold attempt_superadmin. preserves. apply preserves_tx; [done|]. apply keeps_create_superadmin.
Qed.
End setup.

(** ** The invariants *)

Section invariants.
Context {Hscan : ScanOrder} `{!Credentials} {B : Type} `{!ObjectStore B}.
Variable others : nat → Server B → Server B.
Variable toLowerCase toUpperCase : text → text.
Variable reported : list string → string.
Variable refreshExpiration : text.
Variable sha256_hex : text → text.
Variable parse_url : text → option Url.
Variable config : BrowserConfig.
Variable verify_refresh : text → instant → option (rowid * rowid).
Variable limits : StorageLimits.
Variable id_le : rowid → rowid → bool.
Variable fuel : nat.
Abbreviation Srv := (Server B).
Implicit Types (s : Srv).
Abbreviation serve := (serve_account others toLowerCase toUpperCase reported refreshExpiration sha256_hex parse_url config verify_refresh limits id_le fuel).
Abbreviation serve_list := (serve_accounts others toLowerCase toUpperCase reported refreshExpiration sha256_hex parse_url config verify_refresh limits id_le fuel).

Lemma serve_accounts_preserves (P : DB → Prop) rqs s :
  (∀ rq, preserves (λ s, P (sv_db s)) (serve rq)) → P (sv_db s) → P (sv_db (serve_list rqs s)).
Proof. intros Hp. revert s. induction rqs as [|rq rqs IH]; intros s Hs; simpl; [done|]. by apply IH, Hp. Qed.

Lemma wf_serve rq : (∀ n s, AccountsWf (sv_db s) → AccountsWf (sv_db (others n s))) → preserves (λ s, AccountsWf (sv_db s)) (serve rq).
Proof.
  intros Ho. destruct rq as [rq|dv o rq|terminal args k|environment salt draw k]; simpl.
  - by apply sweep_auth; [apply Closed_wf|].
  - unfold guarded_admin. preserves.
    + by apply sweep_authenticate.
    + by apply sweep_guard.
    + apply sweep_admin; [apply Closed_wf|done|]. intros. apply wf_set_status.
  - preserves. apply (preserves_cli toUpperCase others _ toLowerCase); [exact Ho|intros; apply (wf_roles toUpperCase); by left|intros; apply (wf_roles toUpperCase); by right].
  - preserves. apply preserves_setup; [apply Closed_wf|done|intros; by apply wf_set_role|].
    intros v u h d Hv Hd. by apply (wf_set_hash v u h).
Qed.

(** C16: The tables of accounts and device sessions stay well formed under every
    request of the identity, browser, account and administration services and
    every run of the command lines, whatever well-behaved requests do meanwhile: an account is
    active exactly when it has no time of suspension, one that asked for its
    deletion is suspended, the unique columns are unique, and every device
    session belongs to an account and is the only one of its device. *)
Theorem accounts_wellformed rqs s :
  (∀ n s, AccountsWf (sv_db s) → AccountsWf (sv_db (others n s))) →
  AccountsWf (sv_db s) → AccountsWf (sv_db (serve_list rqs s)).
Proof. intros Ho. apply serve_accounts_preserves. intros rq. by apply wf_serve. Qed.

(** What others do during an await: they keep the accounts well formed, no
    active superadmin is suspended or loses the role, and no account is made a
    superadmin and suspended at once. *)
Record polite : Prop := {
  po_wf n s : AccountsWf (sv_db s) → AccountsWf (sv_db (others n s));
  po_admin n s a : admin_here a (sv_db s) → admin_here a (sv_db (others n s));
  po_promote n s k u u' : db_users (sv_db s) !! k = Some u → u_accountStatus u = ACTIVE →
    db_users (sv_db (others n s)) !! k = Some u' → u_role u' = SUPERADMIN → u_accountStatus u' = ACTIVE;
}.

Lemma authenticate_ok sub dv s pc s1 : authenticate others sub dv s = (Ok pc, s1) →
  ∃ u, db_users (sv_db s1) !! sub = Some u ∧ u_accountStatus u = ACTIVE.
Proof.
  intros Hrun. unfold authenticate, lift in Hrun. server_inv. unfold validate_token in *. repeat (case_match; try done). bool_inv. eauto.
Qed.
Lemma guard_ok a s s2 : superadmin_guard others a s = (Ok (), s2) →
  s2 = resumed others s ∧ ∃ u, db_users (sv_db s2) !! a = Some u ∧ u_role u = SUPERADMIN.
Proof.
  intros Hrun. unfold superadmin_guard in Hrun. server_inv. bool_inv. split; [done|].
  destruct (db_users _ !! a) as [u|] eqn:E; simplify_eq/=. eauto.
Qed.
Lemma guarded_actor a dv s pc s1 s2 : polite → AccountsWf (sv_db s) →
  authenticate others a dv s = (Ok pc, s1) → superadmin_guard others a s1 = (Ok (), s2) → admin_here a (sv_db s2).
Proof.
  intros Hp Hs H1 H2. pose proof (sweep_authenticate others AccountsWf (po_wf Hp) a dv s Hs) as Hwf. rewrite H1 in Hwf. simpl in Hwf.
  apply authenticate_ok in H1 as (u & Hu & Hact). apply guard_ok in H2 as (-> & u' & Hu' & Hrole).
  split; [by apply (po_wf Hp)|]. exists u'. split; [done|]. unfold is_superadmin.
  rewrite !bool_decide_eq_true_2; [done| |done]. exact (po_promote Hp (sv_awaits s1) s1 a u u' Hu Hact Hu' Hrole).
Qed.
Lemma some_admin_wf d : some_admin d → AccountsWf d.
Proof. by intros (a & ? & _). Qed.

Lemma guarded_keeps_admin dv o rq s : polite → some_admin (sv_db s) → some_admin (sv_db (guarded_admin others dv o rq s).2).
Proof.
  intros Hp [a Ha]. unfold guarded_admin. unfold mbind, act_bind.
  pose proof (sweep_authenticate others (admin_here a) (λ n s, po_admin Hp n s a) (or_adminUserId o) dv s Ha) as Ha1. pose proof (proj1 Ha) as Hwf.
  destruct (authenticate _ _ _ s) as [[pc|e] s1] eqn:E1; [|by exists a]. simpl in Ha1.
  pose proof (sweep_guard others (admin_here a) (λ n s, po_admin Hp n s a) (or_adminUserId o) s1 Ha1) as Ha2.
  destruct (superadmin_guard _ _ s1) as [[[]|e] s2] eqn:E2; [|by exists a].
  pose proof (guarded_actor _ _ _ _ _ _ Hp Hwf E1 E2) as Hactor. exists (or_adminUserId o).
  apply (sweep_admin others (admin_here (or_adminUserId o)) (Closed_admin _) (λ n s, po_admin Hp n s _)); [|done].
  intros. by apply admin_set_status.
Qed.
Lemma admin_serve rq : polite → preserves (λ s, some_admin (sv_db s)) (serve rq).
Proof.
  intros Hp. assert (∀ n s, some_admin (sv_db s) → some_admin (sv_db (others n s))) as Ho by (intros n s [a Ha]; exists a; by apply (po_admin Hp)).
  destruct rq as [rq|dv o rq|terminal args k|environment salt draw k]; simpl.
  - intros s [a Ha]. exists a. revert s Ha. apply sweep_auth; [apply Closed_admin|]. intros. by apply (po_admin Hp).
  - intros s Hs. by apply guarded_keeps_admin.
  - preserves. apply (preserves_cli toUpperCase others _ toLowerCase); [exact Ho|intros; apply (admin_roles toUpperCase); by left|intros; apply (admin_roles toUpperCase); by right].
  - intros s [a Ha]. exists a. revert s Ha. change (preserves (λ s, admin_here a (sv_db s)) (initial_superadmin_cli toLowerCase others reported environment salt draw k ;; mret ())).
    preserves. apply preserves_setup; [apply Closed_admin|by intros; apply (po_admin Hp)|..].
    + intros v u d Hv Hd. eapply admin_keeps_user; [exact Hv| |reflexivity|by apply wf_set_role|exact Hd].
      unfold is_superadmin. cbn. intros ?. bool_inv. by rewrite !bool_decide_eq_true_2.
    + intros v u h d Hv Hd. eapply admin_keeps_user; [exact Hv| |reflexivity|by apply wf_set_hash|exact Hd]. done.
Qed.

(** C14: There is always an active superadmin: no sequence of requests - suspending
    and demoting superadmins, deleting accounts - leaves none, as long as no
    active superadmin is suspended or demoted by a request that overtakes
    another one; see [admins_suspend_each_other]. *)
Theorem superadmin_stays rqs s :
  polite → some_admin (sv_db s) → some_admin (sv_db (serve_list rqs s)).
Proof. intros Hp. apply serve_accounts_preserves. intros rq. by apply admin_serve. Qed.
End invariants.

(** The account that [login] finds for an address. *)
Definition login_row (email : text) (d : DB) : option (rowid * User) := find_unique (λ _ u, u_normalizedEmail u == email) (db_users d).
Lemma login_row_is d k u : AccountsWf d → db_users d !! k = Some u → login_row (u_normalizedEmail u) d = Some (k, u).
Proof.
  intros Hd Hk. apply find_unique_iff; [|split; [done|by apply bool_decide_eq_true_2]].
  intros k1 u1 k2 u2 H1 H2 E1 E2. bool_inv. eapply (aw_unique _ Hd); [exact H1|exact H2|]. right; left. congruence.
Qed.
Lemma configure_tx_ok k u h id now d x d' : db_users d !! k = Some u → configure_tx (k, u) h id now d = Ok (x, d') →
  db_users d' = <[k := if truthy_opt h then u <| u_role := SUPERADMIN |> <| u_passwordHash := default [] h |> else u <| u_role := SUPERADMIN |>]> (db_users d).
Proof. intros Hk Hrun. unfold configure_tx, setup_audit, record_audit in Hrun. cbv zeta in Hrun. step_inv; by simplify_eq/=. Qed.
Lemma create_tx_ok reported config h uid draw id now d k u d' : create_tx reported config h uid draw id now d = Ok ((k, u), d') →
  db_users d' !! k = Some u ∧ u_role u = SUPERADMIN ∧ u_accountStatus u = ACTIVE ∧ u_normalizedEmail u = is_normalizedEmail config ∧ u_passwordHash u = h.
Proof. intros Hrun. unfold create_tx, create_user, setup_audit, record_audit in Hrun. step_inv. cbn. by rewrite lookup_insert_eq. Qed.
Lemma superadmin_attempts_ok {B} left n (create : nat → Act (Server B) (rowid * User)) s r s' :
  superadmin_attempts left n create s = (Ok r, s') → ∃ i s1, create i s1 = (Ok r, s').
Proof.
  revert n s. induction left as [|left IH]; intros n s Hrun; simpl in Hrun; [done|]. unfold act_catch in Hrun.
  destruct (create n s) as [[r1|e] s1] eqn:Hc; [simplify_eq; by exists n, s|]. destruct (_ || _) in Hrun; [done|]. by apply IH in Hrun.
Qed.

(** After its setup the first superadmin can log in: the configured address is
    that of an active superadmin, and the configured password is accepted when
    the account was created or the password reset. *)
Theorem initial_superadmin_can_log_in {Hscan : ScanOrder} `{!Credentials} `{!CredentialLaws} {B} toLowerCase reported environment salt draw id
    (s s' : Server B) config created uid email :
  AccountsWf (sv_db s) → readInitialSuperadminConfig toLowerCase environment = Ok config → truthy (bcrypt_hash salt (is_password config)) = true →
  initial_superadmin_cli toLowerCase alone reported environment salt draw id s = (Ok (created, uid, email), s') →
  ∃ k u, login_row (is_normalizedEmail config) (sv_db s') = Some (k, u) ∧ is_superadmin u = true
    ∧ (created = true ∨ is_resetPassword config = true → bcrypt_compare (is_password config) (u_passwordHash u) = true).
Proof.
  intros Hwf Hread Htruthy Hrun.
  assert (AccountsWf (sv_db s')) as Hwf'.
  { pose proof (preserves_setup alone reported toLowerCase AccountsWf Closed_wf (λ _ _ Hs, Hs) (λ k u d Hk Hd, wf_set_role SUPERADMIN k u d Hk Hd)
      (λ k u h d Hk Hd, wf_set_hash k u h d Hk Hd) environment salt draw id s Hwf) as Hp. by rewrite Hrun in Hp. }
  enough (∃ k u, db_users (sv_db s') !! k = Some u ∧ u_normalizedEmail u = is_normalizedEmail config ∧ is_superadmin u = true
    ∧ (created = true ∨ is_resetPassword config = true → bcrypt_compare (is_password config) (u_passwordHash u) = true)) as (k & u & Hk & Hn & Hsup & Hpw).
  { exists k, u. rewrite <- Hn. by rewrite (login_row_is _ k u). }
  unfold initial_superadmin_cli, lift in Hrun. rewrite Hread in Hrun. apply act_bind_ok in Hrun as (c & s1 & [= <- <-] & Hrun).
  apply act_bind_ok in Hrun as ([] & s1 & ->%sv_await_ok & Hrun). unfold setupInitialSuperadmin in Hrun.
  apply act_bind_ok in Hrun as (existing & s2 & [-> ->]%sv_query_ok & Hrun).
  destruct (find_unique _ _) as [[k u]|] eqn:Hfind.
  - apply find_unique_Some in Hfind as [Hk Hn]. bool_inv. apply act_bind_ok in Hrun as ([] & s2 & [Hact ->]%act_require_ok & Hrun). apply andb_true_iff in Hact as [Hact%bool_decide_eq_true _].
    apply act_bind_ok in Hrun as (h & s3 & Hh & Hrun). apply act_bind_ok in Hrun as (now & s4 & [-> ->]%sv_clock_ok & Hrun).
    apply act_bind_ok in Hrun as (x & s5 & (d & Htx & ->)%sv_tx_ok & [[= <- <- <-] <-]%act_ret_ok).
    assert (sv_db s3 = sv_db s ∧ h = if is_resetPassword config then Some (bcrypt_hash salt (is_password config)) else None) as [Hs3 Hh'].
    { destruct (is_resetPassword config); [|by apply act_ret_ok in Hh as [<- <-]]. apply act_bind_ok in Hh as ([] & s4 & ->%sv_await_ok & [<- <-]%act_ret_ok). done. }
    change (db_users (sv_db s) !! k = Some u) in Hk. change (sv_db (resumed alone s3)) with (sv_db s3) in Htx. rewrite Hs3 in Htx.
    apply configure_tx_ok in Htx; [|done]. cbn. rewrite Htx. exists k. rewrite lookup_insert_eq. eexists. split; [done|].
    rewrite Hh'. destruct (is_resetPassword config); simpl; [rewrite Htruthy|]; simpl.
    + split_and!; [done|by unfold is_superadmin; simpl; rewrite Hact|]. intros _. by rewrite bcrypt_compare_hash, bool_decide_eq_true_2.
    + split_and!; [done|by unfold is_superadmin; simpl; rewrite Hact|]. by intros [].
  - apply act_bind_ok in Hrun as ([] & s2 & ->%sv_await_ok & Hrun). apply act_bind_ok in Hrun as ([k u] & s3 & Hc & [[= <- <- <-] <-]%act_ret_ok).
    apply superadmin_attempts_ok in Hc as (i & s4 & Hc). unfold attempt_superadmin in Hc. server_inv.
    match goal with H : create_tx _ _ _ _ _ _ _ _ = _ |- _ => apply create_tx_ok in H as (Hk & Hr & Ha & Hn & Hp) end.
    exists k, u. split_and!; [done..| |].
    + unfold is_superadmin. by rewrite Hr, Ha.
    + intros _. by rewrite Hp, bcrypt_compare_hash, bool_decide_eq_true_2.
Qed.

(** ** The audit trail *)

Section trail.
Context {Hscan : ScanOrder} {B : Type}.
Abbreviation Srv := (Server B).
Implicit Types (s : Srv).
Abbreviation logs s := (db_auditLogs (sv_db s)).

(** Action, target type and target of the audit row of a request. *)
Definition recorded (rq : AdminRequest) : string * string * rowid :=
  match rq with
  | AD_suspend u => ("SUSPEND_ACCOUNT", "User", u)
  | AD_restore u => ("RESTORE_ACCOUNT", "User", u)
  | AD_revokeDevice _ k => ("REVOKE_DEVICE_SESSION", "DeviceSession", k)
  | AD_unpublish k => ("UNPUBLISH_COMPANION", "NetworkCompanion", k)
  | AD_endVisit k => ("END_VISIT_SESSION", "VisitSession", k)
  | AD_reconcile k => ("RECONCILE_VISIT_SESSION", "VisitSession", k)
  | AD_cancelInvitation k => ("CANCEL_VISIT_INVITATION", "VisitInvitation", k)
  end.
Definition row_of (o : Order) (rq : AdminRequest) (e : AuditLog) : Prop :=
  au_id e = or_auditId o ∧ au_adminUserId e = or_adminUserId o ∧ au_reason e = Some (lit (or_reason o))
  ∧ (au_action e, au_targetType e, au_targetId e) = (let '(action, type, id) := recorded rq in (action, type, Some id)).
Definition audits {A} (o : Order) (rq : AdminRequest) (tx : Tx DB A) : Prop := ∀ d x d', tx d = Ok (x, d') →
  ∃ e, db_auditLogs d' = db_auditLogs d ++ [e] ∧ row_of o rq e.
(** Either nothing happened to the database and the request failed, or the row
    was written. *)
Definition accounted {A} (o : Order) (rq : AdminRequest) s (r : result A * Srv) : Prop :=
  (sv_db r.2 = sv_db s ∧ ∀ a, r.1 ≠ Ok a) ∨ ∃ e, logs r.2 = logs s ++ [e] ∧ row_of o rq e.

Lemma accounted_require {A} o rq s b e (f : unit → Act Srv A) : (b = true → accounted o rq s (f () s)) → accounted o rq s ((act_require b e ≫= f) s).
Proof. intros Hf. destruct b; [by apply Hf|]. by left. Qed.
Lemma accounted_clock {A} o rq s (f : instant → Act Srv A) : accounted o rq s (f (sv_now s) s) → accounted o rq s ((sv_clock ≫= f) s).
Proof. done. Qed.
Lemma accounted_tx {A C} o rq s (tx : Tx DB A) (f : A → Act Srv C) :
  audits o rq tx → (∀ a L, preserves (λ s, logs s = L) (f a)) → accounted o rq s ((sv_tx alone tx ≫= f) s).
Proof.
  intros Ht Hf. destruct (tx (sv_db (resumed alone s))) as [[a d]|e] eqn:E.
  - right. rewrite (tx_call_run alone _ _ _ _ _ E). destruct (Ht _ _ _ E) as (e & He & Hrow). exists e. split; [|done].
    by apply Hf.
  - left. by rewrite (tx_call_stop alone _ _ _ _ E).
Qed.
Lemma accounted_ignore {A} o rq s (m : Act Srv A) : accounted o rq s (m s) → accounted o rq s ((m ;; mret ()) s).
Proof.
  unfold mbind, act_bind. destruct (m s) as [[a|e] s1]; intros [[Hs Hne]|He].
  - by destruct (Hne a).
  - by right.
  - by left.
  - by right.
Qed.

Lemma audits_bind {A C} o rq (m : Tx DB A) (f : A → Tx DB C) : frame_on db_auditLogs m → (∀ a, audits o rq (f a)) → audits o rq (m ≫= f).
Proof. intros Hm Hf d c d' (a & d1 & H1 & H2)%tx_bind_ok. rewrite <- (Hm _ _ _ H1). by eapply Hf. Qed.
Lemma audits_row {C} o rq action type id metadata now (f : unit → Tx DB C) :
  recorded rq = (action, type, id) → frame_on db_auditLogs (f ()) → audits o rq (audit o action type id metadata now ≫= f).
Proof.
  intros Hr Hf d c d' ([] & d1 & H1 & H2)%tx_bind_ok. unfold audit, record_audit in H1. apply tx_modify_ok in H1 as ->.
  rewrite (Hf _ _ _ H2). eexists. split; [reflexivity|]. unfold row_of. by rewrite Hr.
Qed.
Lemma frame_update_session k now f : frame_on db_auditLogs (update_session k now f).
Proof. unfold update_session. frame. Qed.
Ltac audits := repeat (first [apply audits_row; [done|frame] | apply audits_bind; [frame; try apply frame_update_session|intros]]).

Lemma revokeVisits_logs k reason now L : preserves (λ s, logs s = L) (sv_call alone (revokeCompanionVisits k reason now)).
Proof.
  apply (preserves_call (λ d, db_auditLogs d = L)); [done|]. intros w Hw. unfold revokeCompanionVisits, mbind, act_bind.
  destruct (transaction _ w) as [[changed|e] w1] eqn:E; [|apply transaction_err in E as [_ ->]; done].
  assert (db_auditLogs (w_db w1) = L) as Hw1.
  { apply transaction_ok in E as (d & Hrun & ->). cbn. assert (frame_on db_auditLogs (revokeCompanionVisits_tx k reason now)) as Hf.
    { unfold revokeCompanionVisits_tx, cancel_claimed, close_claimed, claim_session, releaseSessionReservations. frame. }
    by rewrite (Hf _ _ _ Hrun). }
  assert (w_db (act_for changed.1 (λ i, publishInvitation i "visit.invitation.updated") w1).2 = w_db w1) as H1
    by (apply db_preserving_for; intros i; by unfold publishInvitation).
  destruct (act_for changed.1 _ w1) as [[[]|e] w2]; simpl in *; [|by rewrite H1].
  rewrite db_preserving_for by (intros s; by unfold publishSession). by rewrite H1.
Qed.
Lemma publish_logs v e p L : preserves (λ s, logs s = L) (publish (B := B) v e p).
Proof. by intros s Hs. Qed.
Lemma disconnectUser_logs u L : preserves (λ s, logs s = L) (sv_disconnectUser alone u).
Proof. by apply (preserves_disconnectUser (λ d, db_auditLogs d = L)). Qed.
Lemma disconnectDevice_logs u dv L : preserves (λ s, logs s = L) (sv_disconnectDevice alone u dv).
Proof. by apply (preserves_disconnectDevice (λ d, db_auditLogs d = L)). Qed.
#[local] Hint Resolve publish_logs revokeVisits_logs disconnectUser_logs disconnectDevice_logs : preserves.

Lemma serve_admin_accounted o rq s : accounted o rq s (serve_admin alone o rq s).
Proof.
  destruct rq; simpl; try apply accounted_ignore.
  1-2: unfold setAccountStatus, require_reason; apply accounted_require; intros _; apply accounted_require; intros _; apply accounted_clock, accounted_tx;
    [|intros; preserves]; unfold setAccountStatus_tx; cbv zeta; audits.
  - unfold admin_revokeDevice, require_reason. apply accounted_require; intros _. apply accounted_clock, accounted_tx; [unfold admin_revokeDevice_tx; audits|].
    intros. apply disconnectDevice_logs.
  - unfold admin_unpublishCompanion, require_reason. apply accounted_require; intros _. apply accounted_clock, accounted_tx; [unfold admin_unpublish_tx; audits|].
    intros. preserves.
  - unfold admin_endVisitSession, require_reason, tell_ended. apply accounted_require; intros _. apply accounted_clock, accounted_tx; [unfold admin_endVisit_tx, alter_session; audits|].
    intros. preserves.
  - unfold reconcileVisitSession, require_reason, tell_ended. apply accounted_require; intros _. apply accounted_clock, accounted_tx; [unfold reconcile_tx, alter_session; cbv zeta; audits|].
    intros. preserves.
  - unfold admin_cancelVisitInvitation, require_reason, tell_cancelled. apply accounted_require; intros _. apply accounted_clock, accounted_tx;
      [unfold admin_cancelInvitation_tx, alter_invitation; audits|]. intros. preserves.
Qed.
End trail.

Section audited.
Context {Hscan : ScanOrder} {B : Type}.
Abbreviation Srv := (Server B).
Implicit Types (s : Srv).

Lemma serve_admin_reason o rq s : reason_ok (lit (or_reason o)) = false → serve_admin alone o rq s = (Err ADMIN_REASON_REQUIRED, s).
Proof.
  intros Hr. destruct rq; simpl;
    unfold setAccountStatus, admin_revokeDevice, admin_unpublishCompanion, admin_endVisitSession, reconcileVisitSession, admin_cancelVisitInvitation,
      require_reason, mbind, act_bind, act_require; by rewrite Hr.
Qed.
(** The acting account is an active superadmin on a device that is logged in. *)
Definition logged_in_admin (a dv : rowid) (now : instant) (d : DB) : Prop :=
  (∃ u, db_users d !! a = Some u ∧ is_superadmin u = true) ∧
  ∃ k r, db_deviceSessions d !! k = Some r ∧ of_device a dv r = true ∧ ds_revokedAt r = None ∧ now < ds_expiresAt r.

End audited.
