(* ===== verification/Staff.v ===== *)
(** * Two superadmins

    A staff of two, [anna] and [otto], on which the theorems on accounts are
    applied, and the race that leaves no superadmin. *)

From S2P Require Import Prelude Tables JsText Json Schema Interfaces Visit Storage Presence AssetPack Server Identity Browser Account Lockout Tokens AccountSafety Admin AdminCli AdminSafety.
Local Open Scope Z_scope.
#[local] Existing Instance key_order.
#[local] Existing Instance demo_credentials.
#[local] Existing Instance demo_laws.

Definition superadmin (name : string) : User := (demo_user name) <| u_role := SUPERADMIN |>.
Definition demo_staff : DB := empty_db
  <| db_users := <["anna" := superadmin "anna"]> (<["otto" := superadmin "otto"]> ∅) |>
  <| db_deviceSessions := <["s1" := demo_device "anna" "desk"]> (<["s2" := demo_device "otto" "home"]> ∅) |>.
Definition demo_office : Server bucket := (demo_account_server demo_staff) <| sv_now := 500 |>.

(** [otto] suspends [anna] while her request to suspend him is between its
    guard and its transaction. *)
Definition suspends (a dv target auditId : rowid) (others : nat → Server bucket → Server bucket) : Act (Server bucket) unit :=
  guarded_admin others dv (mkOrder a "spamming" auditId) (AD_suspend target).
Definition otto_meanwhile (n : nat) (s : Server bucket) : Server bucket :=
  if bool_decide (n = 3%nat) then (suspends "otto" "home" "anna" "a1" alone s).2 else s.
Definition both_suspended := suspends "anna" "desk" "otto" "a2" otto_meanwhile demo_office.

(** Two superadmins can suspend each other: each request passes its guards
    before the other one commits, both succeed, and no active superadmin is left
    to restore either; the transaction does not look at the acting account again,
    and [demote], which refuses to remove the last one, is not involved. *)
Theorem admins_suspend_each_other :
  active_admins demo_staff = 2%nat ∧ both_suspended.1 = Ok () ∧ active_admins (sv_db both_suspended.2) = 0%nat
  ∧ (λ e, (au_adminUserId e, au_targetId e)) <$> db_auditLogs (sv_db both_suspended.2) = [("otto", Some "anna"); ("anna", Some "otto")].
Proof. split_and!; vm_compute; reflexivity. Qed.

(** ** Witnesses *)

Lemma staff_wf : AccountsWf demo_staff.
Proof.
  split; cbn.
  - intros k u [[_ <-]|[_ [[_ <-]|[_ ?%lookup_empty_Some]]%lookup_insert_Some]]%lookup_insert_Some; [..|done]; (split; [done|by intros []..|done]).
  - intros k1 u1 k2 u2 [[<- <-]|[_ [[<- <-]|[_ ?%lookup_empty_Some]]%lookup_insert_Some]]%lookup_insert_Some
      [[<- <-]|[_ [[<- <-]|[_ ?%lookup_empty_Some]]%lookup_insert_Some]]%lookup_insert_Some; try done;
      intros Hn; exfalso; revert Hn; unfold same_names; vm_compute; naive_solver.
  - by intros k1 s1 k2 s2 [[<- <-]|[_ [[<- <-]|[_ ?%lookup_empty_Some]]%lookup_insert_Some]]%lookup_insert_Some
      [[<- <-]|[_ [[<- <-]|[_ ?%lookup_empty_Some]]%lookup_insert_Some]]%lookup_insert_Some.
  - intros k s [[_ <-]|[_ [[_ <-]|[_ ?%lookup_empty_Some]]%lookup_insert_Some]]%lookup_insert_Some; [by eexists..|done].
Qed.
Lemma polite_alone : polite (alone (B := bucket)).
Proof. split; [done..|]. intros n s k u u' Hu Hact Hu' _. unfold alone in Hu'. congruence. Qed.

Definition demo_terminal : Terminal := mkTerminal (Some (lit "production")) None (λ question, if question == reason_question then lit " tired of it " else lit "?").
Definition demoting (uid : string) : list text :=
  lit <$> ["demote"; "--uid"; uid; "--actor-uid"; "anna"; "--environment"; "production"; "--confirm-production"; "PRODUCTION-demote-" +:+ uid; "--confirm"; uid].
Definition demo_setup : SetupEnv := mkSetupEnv None (Some (lit "root@example.org")) (Some (lit "root")) (Some (lit "secret password")) None.

(** [anna] suspends [otto], who then deletes his account and is demoted by
    [anna]; she tries to demote herself; a first superadmin is set up. *)
Definition office_day : list AccountRequest :=
  [RQ_admin "desk" (mkOrder "anna" "spamming" "a1") (AD_suspend "otto"); RQ_auth (AR_deleteAccount "otto");
   RQ_role demo_terminal (demoting "otto") "a2"; RQ_role demo_terminal (demoting "anna") "a3";
   RQ_setup demo_setup (lit "salt") (λ _, mkDraw "root" [seqZ 0 8] [1; 2; 3; 4]) "a4"].
Abbreviation demo_serve := (serve_accounts alone lower (λ t, t) (λ l, default "" (head l)) week (λ t, t) (λ _, None) demo_browser_config (λ _ _, None)
  demo_limits id_leb 4).
Lemma accounts_wellformed_witness : AccountsWf (sv_db (demo_serve office_day demo_office)).
Proof.
  apply (accounts_wellformed alone lower (λ t, t) (λ l, default "" (head l)) week (λ t, t) (λ _, None) demo_browser_config (λ _ _, None)
    demo_limits id_leb 4 office_day demo_office); [done|exact staff_wf].
Defined.
Lemma superadmin_stays_witness : some_admin (sv_db (demo_serve office_day demo_office)).
Proof.
  apply (superadmin_stays alone lower (λ t, t) (λ l, default "" (head l)) week (λ t, t) (λ _, None) demo_browser_config (λ _ _, None)
    demo_limits id_leb 4 office_day demo_office polite_alone).
  exists "anna". split; [exact staff_wf|]. eexists. split; [reflexivity|done].
Defined.
Example office_day_ends : (λ ku, (ku.1, u_role ku.2, u_accountStatus ku.2)) <$> map_to_list (db_users (sv_db (demo_serve office_day demo_office)))
  = [("otto", USER, SUSPENDED); ("anna", SUPERADMIN, ACTIVE); ("root", SUPERADMIN, ACTIVE)].
Proof. vm_compute. reflexivity. Qed.

Definition suspended_otto := suspends "anna" "desk" "otto" "a1" alone demo_office.

(** ** The command lines *)

Definition demo_options : CliOptions :=
  mkCliOptions cli_demote (lit "OTTO") (Some (lit "ANNA")) (Some (lit "left us")) (Some (lit "OTTO")) (Some (lit "production")) (Some (lit "PRODUCTION-DEMOTE-OTTO")).
Lemma cli_arguments_roundtrip_witness :
  parseAdminRoleCliArgs to_upper lower (lit "demote" :: written (reverse (flags demo_options))) = inr demo_options.
Proof. apply (cli_arguments_roundtrip to_upper lower demo_options); [vm_compute; tauto|apply reverse_Permutation]. Defined.

Definition demo_demotion := admin_role_cli (λ t, t) lower alone demo_terminal (demoting "otto") "a1" demo_office.
Lemma demo_demotion_runs : demo_demotion = (Ok (inr true), demo_demotion.2).
Proof. vm_compute. reflexivity. Qed.
Lemma cli_change_is_confirmed_witness :
  ∃ options (s1 : Server bucket), parseAdminRoleCliArgs (λ t, t) lower (demoting "otto") = inr options ∧ role_changed (λ t, t) (op_action options) (op_uid options) (sv_db s1) (sv_db demo_demotion.2).
Proof.
  destruct (cli_change_is_confirmed (λ t, t) lower alone demo_terminal (demoting "otto") "a1" demo_office _ demo_demotion_runs) as (options & s1 & Hp & _ & _ & Hc).
  by exists options, s1.
Defined.

Definition demo_installation := initial_superadmin_cli lower alone (λ l, default "" (head l)) demo_setup (lit "salt") (λ _, mkDraw "root" [seqZ 0 8] [1; 2; 3; 4]) "a1" demo_office.
Definition demo_superadmin : InitialSuperadminConfig := mkInitialSuperadminConfig (lit "root@example.org") (lit "root@example.org") (lit "root") (lit "secret password") false.
Lemma demo_installation_runs : demo_installation = (Ok (true, lit "OC-ABCDEFGH", lit "root@example.org"), demo_installation.2).
Proof. vm_compute. reflexivity. Qed.
Lemma initial_superadmin_can_log_in_witness : ∃ k u, login_row (lit "root@example.org") (sv_db demo_installation.2) = Some (k, u) ∧ is_superadmin u = true
  ∧ (true = true ∨ false = true → bcrypt_compare (lit "secret password") (u_passwordHash u) = true).
Proof.
  exact (initial_superadmin_can_log_in lower (λ l, default "" (head l)) demo_setup (lit "salt") (λ _, mkDraw "root" [seqZ 0 8] [1; 2; 3; 4]) "a1" demo_office
    demo_installation.2 demo_superadmin true (lit "OC-ABCDEFGH") (lit "root@example.org") staff_wf eq_refl eq_refl demo_installation_runs).
Defined.
