(* ===== verification/VisitLifecycle.v ===== *)
(** * What the end of an account and the administration do to visits

    [deleteAccount] and the administrative requests write the tables of the
    visit services without calling them.  Measured against the reservation
    protocol of [VisitCore]: the deletion of an account follows it, unless the
    account is a guest in a visit of two others; an administrator who ends a
    visit or cancels an invitation leaves the release of its reservations
    undone. *)

From S2P Require Import Prelude Tables JsText Json Schema Interfaces Config AssetManifest Visit VisitCore VisitRoom VisitSocial VisitSteps VisitSafety Storage Presence AssetPack Server Identity Browser Account Lockout AccountSafety Admin.
Local Open Scope Z_scope.

(** ** Several rows at once *)

Lemma end_sessions_micros c ts Ss g f :
  NoDup Ss → (∀ s, s ∈ Ss → ∃ se, k_ses c !! s = Some se ∧ live (ses_state se) = true) →
  (∀ se, live (ses_state se) = true → same_session se (g se) ∧ live (ses_state (g se)) = false) →
  (∀ q, same_participant q (f q) ∧ par_state (f q) = P_left) →
  rtc micro (c, ts) (mkCore (k_inv c) (update_many (λ k _, bool_decide (k ∈ Ss)) g (k_ses c)) (delete_many (λ _ v, among (res_sessionId v) Ss) (k_res c))
                       (update_many (λ _ q, bool_decide (par_sessionId q ∈ Ss) && present q) f (k_par c)) (k_join c), ts).
Proof.
  intros Hnd Hlive Hg Hf. revert c Hlive. induction Hnd as [|s Ss Hs Hnd IH]; intros c Hlive.
  - rewrite !update_many_none, delete_many_none; [by destruct c| |done|done]. intros k v _. unfold among. by destruct (res_sessionId v).
  - destruct (Hlive s) as (se & Hse & Hl); [by left|]. destruct (Hg se Hl) as [Hsame Hdead].
    etrans; [exact (end_session_micros c ts s se (g se) f Hse Hsame Hl Hdead Hf)|].
    match goal with |- rtc _ (?c1, _) _ => assert (∀ s', s' ∈ Ss → ∃ se, k_ses c1 !! s' = Some se ∧ live (ses_state se) = true) as Hlive1 end.
    { intros s' Hs'. cbn. rewrite lookup_insert_ne by (intros ->; done). apply Hlive. by right. }
    etrans; [exact (IH _ Hlive1)|]. cbn. match goal with |- rtc _ (?a, _) (?b, _) => replace a with b; [done|] end.
    f_equal; apply map_eq; intros k.
    + rewrite !lookup_update_many. destruct (decide (k = s)) as [->|Hne].
      * rewrite lookup_insert_eq, Hse. simpl. rewrite (bool_decide_eq_false_2 (s ∈ Ss)) by done. by rewrite bool_decide_eq_true_2 by by left.
      * rewrite lookup_insert_ne by done. destruct (k_ses c !! k); simpl; [|done]. f_equal.
        by rewrite (bool_decide_ext (k ∈ s :: Ss) (k ∈ Ss)) by (rewrite elem_of_cons; naive_solver).
    + rewrite !lookup_delete_many. destruct (k_res c !! k) as [v|]; simpl; [|done]. unfold among. destruct (res_sessionId v) as [s'|] eqn:Hv; simpl;
        [|by rewrite Hv].
      destruct (decide (s' = s)) as [->|Hne]; [by rewrite !bool_decide_eq_true_2 by (done || by left)|].
      rewrite (bool_decide_eq_false_2 (Some s' = Some s)) by congruence. simpl. rewrite Hv.
      by rewrite (bool_decide_ext (s' ∈ s :: Ss) (s' ∈ Ss)) by (rewrite elem_of_cons; naive_solver).
    + rewrite !lookup_update_many. destruct (k_par c !! k) as [q|]; simpl; [|done]. f_equal. destruct (Hf q) as [(E & _) Hleft].
      unfold present. destruct (par_state q == P_left) eqn:Hq; simpl; [by rewrite !andb_false_r, Hq, andb_false_r|]. rewrite !andb_true_r.
      destruct (decide (par_sessionId q = s)) as [Hqs|Hne].
      * rewrite (bool_decide_eq_true_2 (_ = s)), (bool_decide_eq_true_2 (_ ∈ s :: Ss)) by (done || by rewrite Hqs; left).
        rewrite Hleft. simpl. by rewrite andb_false_r.
      * rewrite (bool_decide_eq_false_2 (_ = s)), Hq, andb_true_r by done.
        by rewrite (bool_decide_ext (par_sessionId q ∈ s :: Ss) (par_sessionId q ∈ Ss)) by (rewrite elem_of_cons; naive_solver).
Qed.

Lemma close_joins_micros c ts Js u g :
  VisitInv (c, ts) → NoDup Js → (∀ k, k ∈ Js → ∃ j, k_join c !! k = Some j ∧ jr_status j = J_pending ∧ jr_requesterUserId j = u) →
  (∀ j, jr_status (g j) ≠ J_pending ∧ same_join j (g j)) →
  rtc micro (c, ts) (c <| k_join := update_many (λ k _, bool_decide (k ∈ Js)) g (k_join c) |>
                       <| k_res := delete_many (λ w v, (w == u) && among (res_joinRequestId v) Js) (k_res c) |>, ts).
Proof.
  intros Hinv Hnd Hpend Hg. revert c Hinv Hpend. induction Hnd as [|k Js Hk Hnd IH]; intros c Hinv Hpend.
  - rewrite update_many_none, delete_many_none; [by destruct c| |done]. intros w v _. unfold among. destruct (res_joinRequestId v); apply andb_false_r.
  - destruct (Hpend k) as (j & Hj & Hp & Hu); [by left|]. destruct (Hg j) as [Hp' Hsame].
    pose proof (close_join_micros c ts k j (g j) Hinv Hj Hp Hp' Hsame) as Hm. etrans; [exact Hm|].
    match type of Hm with rtc _ _ (?c1, _) => assert (∀ k', k' ∈ Js → ∃ j, k_join c1 !! k' = Some j ∧ jr_status j = J_pending ∧ jr_requesterUserId j = u) as Hpend1 end.
    { intros k' Hk'. cbn. rewrite lookup_insert_ne by (intros ->; done). apply Hpend. by right. }
    apply micros_inv in Hm; [|done]. etrans; [exact (IH _ Hm Hpend1)|]. cbn.
    match goal with |- rtc _ (?a, _) (?b, _) => replace a with b; [done|] end.
    destruct c as [ci cs cr cp cj]. unfold set. cbn in *. f_equal; apply map_eq; intros i.
    + rewrite !lookup_delete_many. destruct (cr !! i) as [v|]; simpl; [|done]. rewrite Hu. destruct (i == u) eqn:Hi; simpl; [|try done; rewrite Hi; done].
      unfold among. destruct (res_joinRequestId v) as [k'|] eqn:Hv; simpl; [|try done; by rewrite Hv].
      destruct (decide (k' = k)) as [->|Hne]; [by rewrite !bool_decide_eq_true_2 by (done || by left)|].
      rewrite (bool_decide_eq_false_2 (Some k' = Some k)) by congruence. simpl. rewrite Hv. simpl.
      by rewrite (bool_decide_ext (k' ∈ k :: Js) (k' ∈ Js)) by (rewrite elem_of_cons; naive_solver).
    + rewrite !lookup_update_many. destruct (decide (i = k)) as [->|Hne].
      * rewrite lookup_insert_eq, Hj. simpl. rewrite (bool_decide_eq_false_2 (k ∈ Js)) by done. by rewrite bool_decide_eq_true_2 by by left.
      * rewrite lookup_insert_ne by done. destruct (cj !! i); simpl; [|done]. f_equal.
        by rewrite (bool_decide_ext (i ∈ k :: Js) (i ∈ Js)) by (rewrite elem_of_cons; naive_solver).
Qed.

(** ** The deletion of an account *)

(** The user is in no open visit of two others. *)
Definition no_guest (u : rowid) (d : DB) : Prop := ∀ s se, db_sessions d !! s = Some se → live (ses_state se) = true →
  Account.takes_part u s d = true → visit_of u se = true.

Section request.
Context (u : rowid) (t now : instant).

(** The row of a visit that ends. *)
Definition end_visit (s : Session) : Session :=
  if bool_decide (ses_state s ∈ [S_preparing; S_ready])
  then s <| ses_state := S_cancelled |> <| ses_endedAt := Some t |> <| ses_endReason := Some REQUESTED |> <| ses_assetPackRefId := None |> <| ses_updatedAt := now |>
  else s <| ses_state := S_ended |> <| ses_endingAt := Some t |> <| ses_endedAt := Some t |> <| ses_endReason := Some REQUESTED |>
         <| ses_assetPackRefId := None |> <| ses_updatedAt := now |>.
Definition cancel_row (r : Invitation) : Invitation :=
  r <| inv_status := I_cancelled |> <| inv_cancelledAt := Some t |> <| inv_assetPackRefId := None |> <| inv_updatedAt := now |>.
Definition leave_row (p : Participant) : Participant :=
  p <| par_state := P_left |> <| par_leftAt := Some t |> <| par_assetPackRefId := None |> <| par_updatedAt := now |>.
Definition withdraw_row (j : JoinRequest) : JoinRequest :=
  j <| jr_status := J_cancelled |> <| jr_cancelledAt := Some t |> <| jr_assetPackRefId := None |> <| jr_updatedAt := now |>.

Lemma end_visit_spec se : same_session se (end_visit se) ∧ live (ses_state (end_visit se)) = false.
Proof. unfold end_visit. by case_bool_decide. Qed.

Variable d : DB.
Definition my_invitations : list rowid := (filter (λ kr, (inv_status kr.2 == I_pending) && invitation_of u kr.2 = true) (map_to_list (db_invitations d))).*1.
Definition my_sessions : list rowid :=
  (filter (λ ks, live (ses_state ks.2) && (visit_of u ks.2 || Account.takes_part u ks.1 d) = true) (map_to_list (db_sessions d))).*1.
Definition my_requests : list rowid := (filter (λ kj, (jr_requesterUserId kj.2 == u) && (jr_status kj.2 == J_pending) = true) (map_to_list (db_joinRequests d))).*1.

Lemma elem_of_keys {R} (p : rowid * R → bool) (m : gmap rowid R) k :
  k ∈ (filter (λ kr, p kr = true) (map_to_list m)).*1 ↔ ∃ r, m !! k = Some r ∧ p (k, r) = true.
Proof.
  rewrite list_elem_of_fmap. split.
  - intros ([k' r] & -> & [Hp Hk%elem_of_map_to_list]%list_elem_of_filter). eauto.
  - intros (r & Hk & Hp). exists (k, r). split; [done|]. rewrite list_elem_of_filter. split; [done|]. by apply elem_of_map_to_list.
Qed.
Lemma keys_NoDup {R} (p : rowid * R → bool) (m : gmap rowid R) : NoDup (filter (λ kr, p kr = true) (map_to_list m)).*1.
Proof.
  apply NoDup_fmap_2_strong; [|apply NoDup_filter, NoDup_map_to_list].
  intros [k1 r1] [k2 r2] [_ H1%elem_of_map_to_list]%list_elem_of_filter [_ H2%elem_of_map_to_list]%list_elem_of_filter. simpl. intros ->. congruence.
Qed.

Lemma my_invitations_spec k r : db_invitations d !! k = Some r → bool_decide (k ∈ my_invitations) = (inv_status r == I_pending) && invitation_of u r.
Proof. intros Hk. apply Bool.eq_iff_eq_true. rewrite bool_decide_eq_true. unfold my_invitations. rewrite (elem_of_keys (λ kr, (inv_status kr.2 == I_pending) && invitation_of u kr.2)). naive_solver. Qed.
Lemma my_sessions_spec k s : db_sessions d !! k = Some s → bool_decide (k ∈ my_sessions) = live (ses_state s) && (visit_of u s || Account.takes_part u k d).
Proof. intros Hk. apply Bool.eq_iff_eq_true. rewrite bool_decide_eq_true. unfold my_sessions. rewrite (elem_of_keys (λ ks, live (ses_state ks.2) && (visit_of u ks.2 || Account.takes_part u ks.1 d))). naive_solver. Qed.
Lemma my_requests_spec k j : db_joinRequests d !! k = Some j → bool_decide (k ∈ my_requests) = (jr_requesterUserId j == u) && (jr_status j == J_pending).
Proof. intros Hk. apply Bool.eq_iff_eq_true. rewrite bool_decide_eq_true. unfold my_requests. rewrite (elem_of_keys (λ kj, (jr_requesterUserId kj.2 == u) && (jr_status kj.2 == J_pending))). naive_solver. Qed.

(** What the request leaves of the five tables. *)
Definition left_behind : Core := mkCore
  (update_many (λ k r, bool_decide (k ∈ my_invitations) && (inv_status r == I_pending)) cancel_row (db_invitations d))
  (update_many (λ k _, bool_decide (k ∈ my_sessions)) end_visit (db_sessions d))
  (delete_many (λ w v, (w == u) && among (res_joinRequestId v) my_requests)
    (delete_many (λ _ v, among (res_sessionId v) my_sessions)
      (delete_many (λ _ v, among (res_invitationId v) my_invitations) (db_reservations d))))
  (update_many (λ _ q, bool_decide (par_sessionId q ∈ my_sessions) && present q) leave_row (db_participants d))
  (update_many (λ k _, bool_decide (k ∈ my_requests)) withdraw_row (db_joinRequests d)).

Lemma leaving_micros : VisitInv (core_of d, []) → rtc micro (core_of d, []) (left_behind, []).
Proof.
  intros Hinv.
  assert (rtc micro (core_of d, []) (left_behind <| k_res := delete_many (λ _ v, among (res_sessionId v) my_sessions)
      (delete_many (λ _ v, among (res_invitationId v) my_invitations) (db_reservations d)) |> <| k_join := db_joinRequests d |>, [])) as Hmid.
  { eapply rtc_l; [apply (mi_close_invitations (core_of d) [] my_invitations cancel_row); done|]. eapply rtc_l.
    - apply (mi_release_invitations _ _ [] my_invitations (λ _ v, among (res_invitationId v) my_invitations)).
      + cbn. intros i r Hi (r0 & Hr & ->)%lookup_update_many_Some. rewrite bool_decide_eq_true_2 by done.
        destruct (inv_status r0 == I_pending) eqn:E; [done|]. simpl. by bool_inv.
      + intros w v _. unfold among. destruct (res_invitationId v); [rewrite bool_decide_eq_true|]; naive_solver.
      + split; [|by intros ? ?%elem_of_nil]. intros t0 Ht0. left. rewrite app_nil_r in Ht0. apply list_elem_of_fmap in Ht0 as (i & -> & Hi). eauto.
    - match goal with |- rtc _ (?c, _) _ => refine (end_sessions_micros c [] my_sessions end_visit leave_row _ _ _ _); [apply keys_NoDup| |intros se _; apply end_visit_spec|by intros q] end.
      intros s (se & Hs & Hl)%(elem_of_keys (λ ks, live (ses_state ks.2) && (visit_of u ks.2 || Account.takes_part u ks.1 d))). exists se. by bool_inv. }
  etrans; [exact Hmid|]. match goal with |- rtc _ (?c, _) _ => refine (close_joins_micros c [] my_requests u withdraw_row _ _ _ _) end; [by eapply micros_inv|apply keys_NoDup| |by intros j].
  intros k (j & Hk & Hp)%(elem_of_keys (λ kj, (jr_requesterUserId kj.2 == u) && (jr_status kj.2 == J_pending))). exists j. by bool_inv.
Qed.

Lemma request_joins account invitations sessions :
  db_joinRequests (request_writes u account invitations sessions t now d) = update_many (λ _ j, (jr_requesterUserId j == u) && (jr_status j == J_pending)) withdraw_row (db_joinRequests d).
Proof. reflexivity. Qed.

Lemma reservation_gone v : VisitInv (core_of d, []) → db_reservations d !! u = Some v →
  among (res_invitationId v) my_invitations || among (res_sessionId v) my_sessions || among (res_joinRequestId v) my_requests = true.
Proof.
  intros Hinv Hv.
  destruct (vi_justified _ Hinv u v Hv) as [(i & r & (_ & Ho & _) & Hi & Hu & [Hp|[]%elem_of_nil])|[(s & se & k & q & (_ & _ & Ho & _) & Hs & Hk & Hks & Hq & [[Hl Hp]|[]%elem_of_nil])|
    (s & se & k & j & (_ & _ & _ & Ho) & _ & Hk & _ & Hu & [[_ Hp]|[[]%elem_of_nil|[]%elem_of_nil]])]]; rewrite Ho; simpl.
  - rewrite (my_invitations_spec _ _ Hi). unfold invitation_of. rewrite Hp, Hu, (bool_decide_eq_true_2 (u = u)) by done. done.
  - rewrite (my_sessions_spec _ _ Hs), Hl. replace (Account.takes_part u s d) with true; [by rewrite !orb_true_r|]. symmetry.
    apply exists_where_true. exists k, q. split; [exact Hk|]. rewrite Hks, Hq, !bool_decide_eq_true_2 by done. by rewrite bool_decide_eq_false_2.
  - rewrite (my_requests_spec _ _ Hk), Hp, Hu, (bool_decide_eq_true_2 (u = u)) by done. by rewrite !orb_true_r.
Qed.

Lemma left_behind_is account : VisitInv (core_of d, []) → no_guest u d → core_of (request_writes u account my_invitations my_sessions t now d) = left_behind.
Proof.
  intros Hinv Hng. unfold core_of, left_behind. rewrite request_invitations, request_sessions, request_reservations, request_participants, request_joins.
  f_equal; apply map_eq; intros k.
  - unfold cancel_invitations. cbn. rewrite !lookup_update_many. destruct (db_invitations d !! k) as [r|] eqn:Hk; simpl; [|done].
    rewrite (my_invitations_spec k r Hk). by destruct (inv_status r == I_pending), (invitation_of u r).
  - unfold end_visits. cbn. rewrite !lookup_update_many. destruct (db_sessions d !! k) as [s|] eqn:Hk; simpl; [|done].
    rewrite (my_sessions_spec k s Hk). destruct (visit_of u s) eqn:Hv.
    + simpl. destruct (ses_state s) eqn:Est; unfold end_visit; rewrite Est; simpl; by rewrite ?Est, ?Hv.
    + rewrite !andb_false_r. simpl. rewrite Hv, !andb_false_r. destruct (live (ses_state s)) eqn:Hl; simpl; [|done].
      destruct (Account.takes_part u k d) eqn:Ht; [|done]. by rewrite (Hng k s Hk Hl Ht) in Hv.
  - unfold leave_rooms. cbn. rewrite !lookup_delete_many. destruct (db_reservations d !! k) as [v|] eqn:Hk; simpl; [|done].
    destruct (decide (k = u)) as [->|Hne].
    + pose proof (reservation_gone v Hinv Hk) as Hgone. rewrite (bool_decide_eq_true_2 (u = u)) by done. simpl.
      destruct (among (res_invitationId v) _); simpl in *; [done|]. destruct (among (res_sessionId v) _); simpl in *; [done|]. by rewrite Hgone.
    + rewrite (bool_decide_eq_false_2 (k = u)) by done. simpl.
      destruct (among (res_invitationId v) _); simpl; [done|]. by destruct (among (res_sessionId v) _).
  - rewrite !lookup_update_many. destruct (db_joinRequests d !! k) as [j|] eqn:Hk; simpl; [|done]. by rewrite (my_requests_spec k j Hk).
Qed.
End request.

(** C29: The deletion of an account respects the reservation protocol: while the
    user is a guest in no visit of two others, what its transaction writes to the
    invitations, visits, reservations, participants and join requests is a
    sequence of the protocol's actions - so every agreement between those tables
    survives it. *)
Theorem deletion_refines_protocol u now d t d' :
  VisitInv (core_of d, []) → no_guest u d → deleteAccount_tx u now d = Ok (t, d') → rtc micro (core_of d, []) (core_of d', []).
Proof.
  intros Hinv Hng (account & _ & ->)%deleteAccount_tx_ok. fold (my_invitations u d) (my_sessions u d).
  rewrite (left_behind_is u t now d account Hinv Hng). by apply leaving_micros.
Qed.

(** ** An administrator closes a visit or an invitation *)

(** The user holds a reservation that nothing explains. *)
Definition stuck (u : rowid) (d : DB) : Prop :=
  ∃ v, db_reservations d !! u = Some v ∧ ¬ backs_invitation d u v ∧ ¬ backs_session d u v ∧ ¬ backs_join_request d u v.
(** One of the three administrative transactions that close something. *)
Definition admin_closes (o : Order) (now : instant) (d d' : DB) : Prop :=
  (∃ s x, admin_endVisit_tx o s now d = Ok (x, d')) ∨ (∃ s x, reconcile_tx o s now d = Ok (x, d')) ∨ (∃ i x, admin_cancelInvitation_tx o i now d = Ok (x, d')).

Lemma stuck_visit d d' s se se' : VisitInv (core_of d, []) → db_sessions d !! s = Some se → live (ses_state se) = true → live (ses_state se') = false →
  db_sessions d' = <[s := se']> (db_sessions d) → db_reservations d' = db_reservations d → stuck (ses_hostUserId se) d'.
Proof.
  intros Hinv Hs Hl Hdead Hs' Hr. destruct (vi_host _ Hinv s se Hs) as (k & q & Hk & Hks & Hq & Hrole & Hp).
  destruct (vi_seated _ Hinv k q se Hk (Hp Hl)) as (v & Hv & Hin); [congruence|by rewrite Hks|done|]. rewrite Hks, Hq in *.
  exists v. rewrite Hr. split; [done|]. split_and!.
  - intros (i & r & Ho & _). by eapply outgoing_not_in_session.
  - intros (s0 & se0 & k0 & q0 & Hin0 & Hs0 & Hl0 & _). rewrite (in_session_inj _ _ _ Hin0 Hin), Hs', lookup_insert_eq in Hs0. congruence.
  - intros (s0 & se0 & k0 & j0 & Ha & _). by eapply in_session_not_asking.
Qed.
Lemma stuck_invitation d d' i r r' : VisitInv (core_of d, []) → db_invitations d !! i = Some r → inv_status r = I_pending → inv_status r' ≠ I_pending →
  db_invitations d' = <[i := r']> (db_invitations d) → db_reservations d' = db_reservations d → stuck (inv_visitorOwnerUserId r) d'.
Proof.
  intros Hinv Hi Hp Hdead Hi' Hr. destruct (vi_invited _ Hinv i r Hi Hp) as (v & Hv & Ho).
  exists v. rewrite Hr. split; [done|]. split_and!.
  - intros (i0 & r0 & Ho0 & Hi0 & _ & Hp0). rewrite (outgoing_inj _ _ _ Ho0 Ho), Hi', lookup_insert_eq in Hi0. congruence.
  - intros (s0 & se0 & k0 & q0 & Hin0 & _). by eapply outgoing_not_in_session.
  - intros (s0 & se0 & k0 & j0 & Ha & _). by eapply outgoing_not_asking.
Qed.
Lemma stuck_cannot_invite `{!ScanOrder} limits u d host mode topic k now : stuck u d → ∃ e, createInvitation_tx limits u host mode topic k now d = Err e.
Proof.
  intros (v & Hv & _). destruct (createInvitation_tx _ _ _ _ _ _ _ d) as [[x d']|e] eqn:E; [|by exists e]. exfalso.
  unfold createInvitation_tx in E. step_inv.
  repeat match goal with
  | H : Visit.assertEligible _ _ _ = Ok _ |- _ => apply assertEligible_ok in H as [_ ->]
  | H : assertNoReservation _ _ = Ok _ |- _ => apply assertNoReservation_ok in H as [H _]
  end. congruence.
Qed.

Lemma not_terminal_live (st : SessionState) : negb (bool_decide (st ∈ SESSION_TERMINAL)) = true → live st = true.
Proof. by destruct st. Qed.
Lemma admin_ended_dead reason now s : live (ses_state (admin_ended reason now s)) = false.
Proof. unfold admin_ended. cbn. by case_match. Qed.
Lemma reconciled_dead reason now s : live (ses_state (reconciled reason now s)) = false.
Proof. unfold reconciled. cbn. by case_match. Qed.

(** An administrator who ends or reconciles a visit or cancels an invitation of
    a deployment whose tables agree leaves a reservation behind that no visit,
    invitation or join request explains: the host of the visit, or the owner of
    the invited companion, can invite nobody from then on. *)
Theorem admin_closing_leaks_reservation `{!ScanOrder} `{!DistinctOrder} limits o now d d' :
  reachable limits (d, []) → admin_closes o now d d' →
  ∃ u, stuck u d' ∧ ∀ host mode topic k at_, ∃ e, createInvitation_tx limits u host mode topic k at_ d' = Err e.
Proof.
  intros [Hinv _]%reachable_inv Hcl. assert (∃ u, stuck u d') as [u Hu]; [|exists u; split; [done|]; intros; by apply stuck_cannot_invite].
  destruct Hcl as [(s & x & Hrun)|[(s & x & Hrun)|(i & x & Hrun)]].
  - unfold admin_endVisit_tx, alter_session, audit, record_audit in Hrun. step_inv. exists (ses_hostUserId x2). apply (stuck_visit d _ s x2 (admin_ended (or_reason o) now x2)); try done.
    + by apply not_terminal_live.
    + apply admin_ended_dead.
    + exact (alter_as_insert _ _ _ _ H2).
  - unfold reconcile_tx, alter_session, audit, record_audit in Hrun. cbv zeta in Hrun. step_inv. exists (ses_hostUserId x2). apply (stuck_visit d _ s x2 (reconciled (or_reason o) now x2)); try done.
    + by apply not_terminal_live.
    + apply reconciled_dead.
    + exact (alter_as_insert _ _ _ _ H2).
  - unfold admin_cancelInvitation_tx, alter_invitation, audit, record_audit in Hrun. step_inv. bool_inv. exists (inv_visitorOwnerUserId x2).
    apply (stuck_invitation d _ i x2 (admin_cancelled now x2)); try done. exact (alter_as_insert _ _ _ _ H2).
Qed.

(** ** On the demonstration *)

#[local] Existing Instance key_order.
#[local] Existing Instance first_occurrence.

(** alice deletes her account while bob and carol are in her visit. *)
Definition demo_delete : DB := match deleteAccount_tx "alice" 9 VisitSafety.demo_db with Ok (_, d) => d | Err _ => VisitSafety.demo_db end.
Lemma demo_delete_runs : deleteAccount_tx "alice" 9 VisitSafety.demo_db = Ok (9, demo_delete).
Proof. vm_compute. reflexivity. Qed.
Lemma reachable_tables limits d : reachable limits (d, []) → VisitInv (core_of d, []).
Proof. by intros [Hinv _]%reachable_inv. Qed.
Lemma demo_no_guest : no_guest "alice" VisitSafety.demo_db.
Proof.
  assert (map_Forall (λ _ se, visit_of "alice" se = true) (db_sessions VisitSafety.demo_db)) as Hall by (apply (bool_decide_unpack _); vm_compute; done).
  intros s se Hs _ _. by apply (Hall s).
Qed.
Lemma deletion_refines_protocol_witness : rtc micro (core_of VisitSafety.demo_db, []) (core_of demo_delete, []) ∧ ses_state (session_at demo_delete "1s") = S_cancelled.
Proof. split; [exact (deletion_refines_protocol "alice" 9 VisitSafety.demo_db 9 demo_delete (reachable_tables _ _ VisitSafety.demo_reachable) demo_no_guest demo_delete_runs)|]. vm_compute. reflexivity. Defined.

Definition demo_order : Order := mkOrder "root" "reported" "a1".
Definition demo_admin_end : DB := match admin_endVisit_tx demo_order "1s" 9 VisitSafety.demo_db with Ok (_, d) => d | Err _ => VisitSafety.demo_db end.
Lemma demo_admin_end_runs : admin_endVisit_tx demo_order "1s" 9 VisitSafety.demo_db = Ok (("1s", session_at demo_admin_end "1s"), demo_admin_end).
Proof. vm_compute. reflexivity. Qed.
Lemma admin_closing_leaks_reservation_witness :
  ∃ u, stuck u demo_admin_end ∧ ∀ host mode topic k at_, ∃ e, createInvitation_tx VisitSafety.demo_limits u host mode topic k at_ demo_admin_end = Err e.
Proof.
  apply (admin_closing_leaks_reservation VisitSafety.demo_limits demo_order 9 VisitSafety.demo_db demo_admin_end VisitSafety.demo_reachable). left.
  exists "1s", ("1s", session_at demo_admin_end "1s"). exact demo_admin_end_runs.
Defined.
