(* ===== verification/PackMaintenance.v ===== *)
(** * Packs removed from outside the companion service
    ([PortalService.deleteSupersededAssetPacks],
    [AdminApiService.cleanupStorage])

    The owner removes the replaced packs of one account, an administrator runs
    the two destructive cleanup phases of [AssetPack] under an audit trail. *)

From S2P Require Import Prelude Tables JsText Json Schema Interfaces Config AssetManifest Visit Storage Presence Companion AssetPack AssetPackInv AssetPackSafety Server Identity Browser Account Admin.
Local Open Scope Z_scope.

Section maintenance.
Context {Hscan : ScanOrder} {B : Type} `{!ObjectStore B}.
Variable others : nat → CWorld B → CWorld B.
Variable limits : StorageLimits.
Abbreviation CW := (CWorld B).

(** ** The owner removes replaced packs *)

(** [findMany({ take: 100, where, include: { files } })], in no given order *)
Definition removable (userId : rowid) (before_ : instant) (d : DB) : list ((rowid * AssetPack) * list (rowid * AssetFile)) :=
  (λ kp, (kp, pack_files kp.1 d)) <$>
  take 100 (find_many (λ k p, owned_by userId d p && (retired before_ k p d || (pk_status p == PK_deleting))) (db_assetPacks d)).
Definition claim_retired (userId k : rowid) (before_ now : instant) : Tx DB bool :=
  due ← gets (λ d, match db_assetPacks d !! k with Some p => owned_by userId d p && retired before_ k p d | None => false end);
  claim_pack k (λ _, due) now (λ r, r <| pk_status := PK_deleting |> <| pk_failureCode := None |>).
Definition mark_failed (userId k : rowid) (now : instant) : Tx DB bool :=
  mine ← gets (λ d, match db_assetPacks d !! k with Some p => owned_by userId d p | None => false end);
  claim_pack k (λ r, (pk_status r == PK_deleting) && mine) now (λ r, r <| pk_failureCode := Some "ASSET_CLEANUP_FAILED" |>).
Definition remove_deleting (userId k : rowid) (d : DB) : DB :=
  match db_assetPacks d !! k with
  | Some p => if (pk_status p == PK_deleting) && owned_by userId d p then delete_pack k d else d
  | None => d
  end.
(** The objects it deletes: the published files and the manifest. *)
Definition portal_keys (objectPrefix : text) (files : list (rowid * AssetFile)) : list text :=
  (af_objectKey ∘ snd <$> files) ++ [manifestKey objectPrefix].
(** One round of the loop: whether the pack is gone *)
Definition remove_retired (userId : rowid) (before_ : instant) (e : (rowid * AssetPack) * list (rowid * AssetFile)) : Act CW bool :=
  let '((k, p), files) := e in
  claimed ← (if pk_status p == PK_deleting then mret true else now ← clock; pack_tx others (claim_retired userId k before_ now));
  if negb claimed then mret false
  else
    act_catch
      (storage_call others (deleteObjects (portal_keys (pk_objectPrefix p) files)) ;;
       storage_call others (assertObjectPrefixDeleted (pk_objectPrefix p)))
      (λ error, act_catch (now ← clock; pack_tx others (mark_failed userId k now) ;; mret ()) (λ _, mret ()) ;; act_throw error) ;;
    pack_tx others (modify (remove_deleting userId k)) ;;
    mret true.
Fixpoint remove_each (userId : rowid) (before_ : instant) (packs : list ((rowid * AssetPack) * list (rowid * AssetFile))) (deleted : Z) : Act CW Z :=
  match packs with
  | [] => mret deleted
  | e :: packs' => gone ← remove_retired userId before_ e; remove_each userId before_ packs' (if gone : bool then deleted + 1 else deleted)
  end.
(** [deleteSupersededAssetPacks] *)
Definition deleteSupersededAssetPacks (userId : rowid) : Act CW Z :=
  now ← clock;
  let before_ := now - sl_supersededPackRetentionDays limits * 24 * 3600000 in
  packs ← pack_query others (removable userId before_);
  remove_each userId before_ packs 0.

(** ** An administrator runs the cleanup *)

(** [error.name]: every exception is an [Error] *)
Definition error_name (e : exc) : string :=
  match e with
  | ConflictException _ => "ConflictException" | ForbiddenException _ => "ForbiddenException" | NotFoundException _ => "NotFoundException"
  | UnauthorizedException => "UnauthorizedException" | BadRequestException _ => "BadRequestException"
  | ServiceUnavailableException _ => "ServiceUnavailableException" | ErrorException _ => "Error"
  | P2002 _ | P2025 => "PrismaClientKnownRequestError"
  end.
(** One row of the trail; [auditId n] is the id of the [n]th. *)
Definition cleanup_row (o : Order) (id : rowid) (action targetType : string) (metadata : list (string * json)) (now : instant) : AuditLog :=
  mkAuditLog id (or_adminUserId o) action targetType None (Some (lit (or_reason o))) (Some (fields metadata)) now.
Definition record_cleanup (o : Order) (id : rowid) (action targetType : string) (metadata : list (string * json)) : Act CW unit :=
  now ← clock; pack_tx others (record_audit (cleanup_row o id action targetType metadata now)).
Definition counts (requestAuditId : rowid) (abandoned removed : Z) : list (string * json) :=
  [("phase", str "completed"); ("requestAuditId", str requestAuditId); ("abandoned", JInt abandoned); ("removed", JInt removed)].

(** [cleanupStorage]: [{ abandoned, removed }] *)
Definition cleanupStorage (o : Order) (auditId : nat → rowid) : Act CW (Z * Z) :=
  act_require (reason_ok (lit (or_reason o))) ADMIN_REASON_REQUIRED ;;
  record_cleanup o (auditId 0%nat) "RUN_STORAGE_CLEANUP" "Storage" [("phase", str "requested")] ;;
  act_catch
    (abandoned ← abandonExpiredUploads others limits 100;
     removed ← cleanupSupersededPacks others limits 100;
     (if (0 <? abandoned) || (0 <? removed) then record_cleanup o (auditId 1%nat) "DELETE_ASSET_PACK" "CompanionAssetPackBatch" (counts (auditId 0%nat) abandoned removed)
      else mret ()) ;;
     record_cleanup o (auditId 2%nat) "RUN_STORAGE_CLEANUP" "Storage" (counts (auditId 0%nat) abandoned removed) ;;
     mret (abandoned, removed))
    (λ error,
      act_catch (record_cleanup o (auditId 3%nat) "RUN_STORAGE_CLEANUP" "Storage"
                   [("phase", str "failed"); ("requestAuditId", str (auditId 0%nat)); ("errorCode", str (error_name error))])
        (λ _, mret ()) ;;
      act_throw error).

(** ** Packs in use *)

Inductive MaintenanceRequest :=
  | MQ_own (userId : rowid)
  | MQ_cleanup (o : Order) (auditId : nat → rowid).
Definition serve_maintenance (request : MaintenanceRequest) : Act CW unit :=
  match request with
  | MQ_own userId => deleteSupersededAssetPacks userId ;; mret ()
  | MQ_cleanup o auditId => cleanupStorage o auditId ;; mret ()
  end.
End maintenance.

Section in_use.
Context {Hscan : ScanOrder} {B : Type} `{!ObjectStore B}.
Context (others : nat → CWorld B → CWorld B) (limits : StorageLimits) (k : rowid).
Context (others_keep : ∀ n w, in_use k (cw_db w) → in_use k (cw_db (others n w))).
Abbreviation keeps := (AssetPackInv.keeps (in_use k)).
Abbreviation CW := (CWorld B).

Lemma claim_keeps_in_use j p now f : j ≠ k → keeps (pack_tx others (claim_pack j p now f)).
Proof. intros Hne. apply keeps_tx; [exact others_keep|]. intros d b d' Hd Hrun. by eapply claim_other_in_use in Hrun as [? _]. Qed.
Lemma failed_keeps_in_use j st : j ≠ k → keeps (AssetPack.cleanup_failed others j st).
Proof. intros Hne. unfold AssetPack.cleanup_failed. keeps. by apply claim_keeps_in_use. Qed.
Lemma abandon_in_use started before_ e : e.1.1 ≠ k → keeps (abandon others limits started before_ e).
Proof.
  destruct e as [[j p] files]. simpl. intros Hne. unfold abandon, try_delete, delete_objects_of. keeps.
  - by apply claim_keeps_in_use.
  - by apply failed_keeps_in_use.
  - apply keeps_tx; [exact others_keep|]. intros d [] d' Hd Hrun. apply tx_bind_ok in Hrun as (b & d1 & Hc & [_ ->]%tx_require_ok).
    by eapply claim_other_in_use in Hc as [? _].
Qed.
Lemma clean_loop_in_use {A} (clean : A → Act CW bool) l n : (∀ e, e ∈ l → keeps (clean e)) → keeps (clean_loop clean l n).
Proof.
  revert n. induction l as [|e l IH]; intros n Hl; simpl; keeps; [apply Hl; by left|..]; apply IH; intros e' He'; apply Hl; by right.
Qed.
(** A pack in use is in no list of packs to abandon. *)
Lemma query_in_use {A C} (f : DB → list A) (m : list A → Act CW C) :
  (∀ d, in_use k d → keeps (m (f d))) → keeps (pack_query others f ≫= m).
Proof.
  intros Hm. apply keeps_bind'; [by apply keeps_query|]. intros l w w' Hw Hrun. unfold pack_query, db_call in Hrun.
  apply act_bind_ok in Hrun as ([] & w1 & Ha & Hq). unfold await, act_modify in Ha. injection Ha as <-. unfold in_db, query, act_gets in Hq.
  injection Hq as <- _. apply Hm. by apply others_keep.
Qed.
Lemma not_abandoned_in_use started before_ d e : in_use k d →
  e ∈ packs_to_clean 100 (λ _ p, (upload_expired before_ p || (pk_status p == PK_abandoning)) && uploadUrlsExpiredWhere limits started p) d → e.1.1 ≠ k.
Proof.
  intros [(r & Hr & Hs) _] He Hek. apply packs_to_clean_spec in He as (He & Hp & _). rewrite Hek in He. simplify_eq.
  unfold upload_expired in Hp. rewrite Hs in Hp. by rewrite !bool_decide_eq_false_2 in Hp by done.
Qed.
Lemma abandonExpired_in_use : keeps (abandonExpiredUploads others limits 100).
Proof.
  unfold abandonExpiredUploads. apply keeps_bind; [apply keeps_clock|]. intros started. cbv zeta. apply query_in_use. intros d Hd.
  apply clean_loop_in_use. intros e He. apply abandon_in_use. by eapply not_abandoned_in_use.
Qed.

Lemma claim_retired_in_use u j before_ now d b d' : in_use k d → claim_retired u j before_ now d = Ok (b, d') → in_use k d' ∧ (j = k → b = false).
Proof.
  intros Hd Hrun. unfold claim_retired in Hrun. apply tx_bind_ok in Hrun as (due & d1 & [-> ->]%tx_gets_ok & Hrun).
  eapply claim_other_in_use; [exact Hd| |exact Hrun]. intros -> r. destruct Hd as [(r' & Hr' & _) Hn]. rewrite Hr'.
  unfold retired. by rewrite Hn, !andb_false_r.
Qed.
Lemma mark_failed_in_use u j now d b d' : in_use k d → mark_failed u j now d = Ok (b, d') → in_use k d'.
Proof.
  intros Hd Hrun. unfold mark_failed in Hrun. apply tx_bind_ok in Hrun as (mine & d1 & [-> ->]%tx_gets_ok & Hrun). unfold claim_pack in Hrun. step_inv.
  destruct Hd as [(r & Hr & Hs) Hn]. split; [|done]. cbn. rewrite lookup_update_many, Hr. simpl. eexists. split; [done|]. case_match; [|done].
  bool_inv. congruence.
Qed.
Lemma remove_deleting_in_use u j d : in_use k d → in_use k (remove_deleting u j d).
Proof.
  intros Hd. unfold remove_deleting. destruct (db_assetPacks d !! j) as [p|] eqn:Hj; [|done]. destruct (_ && _) eqn:Hb; [|done]. bool_inv.
  apply delete_other_in_use; [|done]. intros ->. destruct Hd as [(r & Hr & Hs) _]. congruence.
Qed.
Lemma remove_retired_in_use u before_ j p files : (j = k → pk_status p ≠ PK_deleting) → keeps (remove_retired others u before_ ((j, p), files)).
Proof.
  intros Hj. unfold remove_retired. apply keeps_bind; [|intros []; simpl; keeps].
  - case_bool_decide; keeps. apply keeps_tx; [exact others_keep|]. intros d b d' Hd Hrun. by eapply claim_retired_in_use.
  - apply keeps_tx; [exact others_keep|]. intros d b d' Hd Hrun. by eapply mark_failed_in_use.
  - apply keeps_tx; [exact others_keep|]. intros d b d' Hd ->%tx_modify_ok. by apply remove_deleting_in_use.
Qed.
Lemma portal_in_use u : keeps (deleteSupersededAssetPacks others limits u).
Proof.
  unfold deleteSupersededAssetPacks. apply keeps_bind; [apply keeps_clock|]. intros now. cbv zeta. apply query_in_use. intros d Hd.
  match goal with |- keeps (remove_each _ _ _ ?l 0) => set (packs := l) end.
  assert (∀ e, e ∈ packs → e.1.1 = k → pk_status e.1.2 ≠ PK_deleting) as Hl.
  { intros e ((j & p) & -> & Hin)%list_elem_of_fmap. simpl. intros ->. apply elem_of_take in Hin as (i & Hi & _). apply list_elem_of_lookup_2 in Hi.
    apply elem_of_find_many in Hi as [Hi _]. destruct Hd as [(r & Hr & Hs) _]. simplify_eq. by rewrite Hs. }
  clearbody packs. revert Hl. generalize 0 as n. induction packs as [|e packs IH]; intros n Hl; simpl; keeps.
  - destruct e as [[j p] files]. apply remove_retired_in_use. apply (Hl ((j, p), files)). by left.
  - apply IH. intros e' He'. apply Hl. by right.
Qed.
Lemma cleanupStorage_in_use o auditId : keeps (cleanupStorage others limits o auditId).
Proof.
  assert (∀ id a t m, keeps (record_cleanup others o id a t m)) as Hrec.
  { intros. unfold record_cleanup. keeps. apply keeps_tx; [exact others_keep|]. intros d [] d' Hd ->%tx_modify_ok. exact Hd. }
  pose proof abandonExpired_in_use as Ha. assert (keeps (cleanupSupersededPacks others limits 100)) as Hs by (intros w Hw; by apply used_pack_survives_cleanup).
  unfold cleanupStorage. keeps.
Qed.
End in_use.

(** C32: A replaced pack that a pending invitation or an open session still refers
    to survives its owner's removal of replaced packs and an administrator's
    cleanup of the storage, however old it is. *)
Theorem used_pack_survives_maintenance {Hscan : ScanOrder} {B} `{!ObjectStore B} (others : nat → CWorld B → CWorld B) limits k request w :
  (∀ n w, in_use k (cw_db w) → in_use k (cw_db (others n w))) →
  in_use k (cw_db w) → in_use k (cw_db (serve_maintenance others limits request w).2).
Proof.
  intros Ho. destruct request as [u|o auditId]; simpl.
  - apply (keeps_bind (in_use k)); [by apply portal_in_use|]. intros ?. apply keeps_ret.
  - apply (keeps_bind (in_use k)); [by apply cleanupStorage_in_use|]. intros ?. apply keeps_ret.
Qed.

(** ** The trail of a cleanup *)

Section trail.
Context {Hscan : ScanOrder} {B : Type} `{!ObjectStore B}.
Context (others : nat → CWorld B → CWorld B) (limits : StorageLimits).
Abbreviation CW := (CWorld B).
Abbreviation log w := (db_auditLogs (cw_db w)).
(** Others only add to the log. *)
Context (others_append : ∀ n (w : CW), log w `prefix_of` log (others n w)).
(** The rows of [l] are in the log, in this order. *)
Definition logged (l : list AuditLog) (d : DB) : Prop := l `sublist_of` db_auditLogs d.

Lemma logged_keep l n w : logged l (cw_db w) → logged l (cw_db (others n w)).
Proof. unfold logged. intros ->. destruct (others_append n w) as [t ->]. by apply sublist_inserts_r. Qed.
Lemma logged_frame {A} l (m : Tx DB A) : frame_on db_auditLogs m → AssetPackInv.keeps (logged l) (pack_tx others m).
Proof. intros Hf. apply keeps_tx; [apply logged_keep|]. intros d a d' Hd Hrun%Hf. unfold logged. by rewrite Hrun. Qed.
Lemma logged_loop {A} l (clean : A → Act CW bool) packs n : (∀ e, AssetPackInv.keeps (logged l) (clean e)) → AssetPackInv.keeps (logged l) (clean_loop clean packs n).
Proof. intros Hc. revert n. induction packs as [|e packs IH]; intros n; simpl; keeps. Qed.
Lemma logged_failed l k st : AssetPackInv.keeps (logged l) (AssetPack.cleanup_failed others k st).
Proof. unfold AssetPack.cleanup_failed. keeps. apply logged_frame. unfold claim_pack. frame. Qed.
Lemma logged_claim l k p now f : AssetPackInv.keeps (logged l) (pack_tx others (claim_pack k p now f)).
Proof. apply logged_frame. unfold claim_pack. frame. Qed.
#[local] Hint Resolve logged_failed logged_claim : keeps.
Lemma logged_abandon l : AssetPackInv.keeps (logged l) (abandonExpiredUploads others limits 100).
Proof.
  pose proof (logged_keep l) as Hkeep. unfold abandonExpiredUploads. keeps. apply logged_loop. intros [[k p] files].
  unfold abandon, try_delete, delete_objects_of. keeps. apply logged_frame. unfold claim_pack. frame.
Qed.
Lemma logged_superseded l : AssetPackInv.keeps (logged l) (cleanupSupersededPacks others limits 100).
Proof.
  pose proof (logged_keep l) as Hkeep. unfold cleanupSupersededPacks. keeps. apply logged_loop. intros [[k p] files].
  unfold remove_superseded, try_delete, delete_objects_of. keeps; apply logged_frame; unfold claim_pack; frame.
Qed.

Lemma record_cleanup_run l o id a t m w : logged l (cw_db w) →
  ∃ now w1, record_cleanup others o id a t m w = (Ok (), w1) ∧ logged (l ++ [cleanup_row o id a t m now]) (cw_db w1).
Proof.
  intros Hl. unfold record_cleanup, clock. rewrite act_gets_run. eexists. destruct (pack_tx_run others (record_audit (cleanup_row o id a t m (cw_now w))) w) as (w1 & -> & E).
  eexists. split; [exact E|]. unfold logged in *. cbn. apply sublist_app; [|done]. by apply (logged_keep l).
Qed.

Lemma logged_record l o id a t m : AssetPackInv.keeps (logged l) (record_cleanup others o id a t m).
Proof.
  intros w Hl. destruct (record_cleanup_run l o id a t m w Hl) as (now & w1 & -> & L). unfold logged in *. simpl. etrans; [|exact L]. by apply sublist_inserts_r.
Qed.

(** The rows a cleanup leaves. *)
Definition requested_row (o : Order) (auditId : nat → rowid) : instant → AuditLog :=
  cleanup_row o (auditId 0%nat) "RUN_STORAGE_CLEANUP" "Storage" [("phase", str "requested")].
Definition completed_row (o : Order) (auditId : nat → rowid) (a n : Z) : instant → AuditLog :=
  cleanup_row o (auditId 2%nat) "RUN_STORAGE_CLEANUP" "Storage" (counts (auditId 0%nat) a n).
Definition batch_row (o : Order) (auditId : nat → rowid) (a n : Z) : instant → AuditLog :=
  cleanup_row o (auditId 1%nat) "DELETE_ASSET_PACK" "CompanionAssetPackBatch" (counts (auditId 0%nat) a n).
Definition failed_row (o : Order) (auditId : nat → rowid) (e : exc) : instant → AuditLog :=
  cleanup_row o (auditId 3%nat) "RUN_STORAGE_CLEANUP" "Storage" [("phase", str "failed"); ("requestAuditId", str (auditId 0%nat)); ("errorCode", str (error_name e))].

(** A cleanup of the storage leaves its trail whatever happens: first the
    request, then how many packs each phase abandoned and removed - and that packs
    were deleted, if any were - or the name of the error that stopped it.
    Without a reason nothing is done. *)
Theorem storage_cleanup_is_recorded o auditId w r w' :
  cleanupStorage others limits o auditId w = (r, w') →
  if reason_ok (lit (or_reason o)) then
    match r with
    | Ok (a, n) => ∃ t0 t1 t2, logged (requested_row o auditId t0 :: (if (0 <? a) || (0 <? n) then [batch_row o auditId a n t1] else [])
                                         ++ [completed_row o auditId a n t2]) (cw_db w')
    | Err e => ∃ t0 t1, logged [requested_row o auditId t0; failed_row o auditId e t1] (cw_db w')
    end
  else r = Err ADMIN_REASON_REQUIRED ∧ w' = w.
Proof.
  unfold cleanupStorage. destruct (reason_ok _); [|by intros [= <- <-]]. intros Hrun.
  rewrite (act_bind_run _ _ w () w eq_refl) in Hrun.
  destruct (record_cleanup_run [] o (auditId 0%nat) "RUN_STORAGE_CLEANUP" "Storage" [("phase", str "requested")] w (sublist_nil_l _)) as (t0 & w0 & E0 & L0).
  rewrite (act_bind_run _ _ _ _ _ E0) in Hrun. simpl in L0. fold (requested_row o auditId t0) in L0.
  set (L := [requested_row o auditId t0]) in *. unfold act_catch at 1 in Hrun.
  match type of Hrun with (match ?m w0 with _ => _ end) = _ => destruct (m w0) as [[[a n]|e] w1] eqn:Hm end.
  - injection Hrun as <- <-. apply act_bind_ok in Hm as (a' & wa & Ha & Hm). pose proof (logged_abandon L w0 L0) as La. rewrite Ha in La.
    apply act_bind_ok in Hm as (n' & wn & Hn & Hm). pose proof (logged_superseded L wa La) as Ln. rewrite Hn in Ln. simpl in Ln.
    apply act_bind_ok in Hm as ([] & wb & Hb & Hm). apply act_bind_ok in Hm as ([] & wc & Hc & [[= -> ->] <-]%act_ret_ok). exists t0. destruct ((0 <? a) || (0 <? n)).
    + destruct (record_cleanup_run L o (auditId 1%nat) "DELETE_ASSET_PACK" "CompanionAssetPackBatch" (counts (auditId 0%nat) a n) wn Ln) as (t1 & w2 & E1 & L1).
      rewrite E1 in Hb. injection Hb as <-. destruct (record_cleanup_run _ o (auditId 2%nat) "RUN_STORAGE_CLEANUP" "Storage" (counts (auditId 0%nat) a n) w2 L1) as (t2 & w3 & E2 & L2).
      rewrite E2 in Hc. injection Hc as <-. by exists t1, t2.
    + apply act_ret_ok in Hb as [_ <-]. destruct (record_cleanup_run _ o (auditId 2%nat) "RUN_STORAGE_CLEANUP" "Storage" (counts (auditId 0%nat) a n) wn Ln) as (t2 & w3 & E2 & L2).
      rewrite E2 in Hc. injection Hc as <-. by exists 0, t2.
  - assert (logged L (cw_db w1)) as L1.
    { match type of Hm with ?m w0 = _ => assert (AssetPackInv.keeps (logged L) m) as Hk end; [|specialize (Hk w0 L0); by rewrite Hm in Hk].
      pose proof (logged_abandon L). pose proof (logged_superseded L). pose proof (logged_record L). keeps. }
    destruct (record_cleanup_run L o (auditId 3%nat) "RUN_STORAGE_CLEANUP" "Storage"
      [("phase", str "failed"); ("requestAuditId", str (auditId 0%nat)); ("errorCode", str (error_name e))] w1 L1) as (t1 & w2 & E1 & L2).
    unfold mbind, act_bind, act_catch in Hrun. rewrite E1 in Hrun. injection Hrun as <- <-. by exists t0, t1.
Qed.
End trail.

(** ** On concrete packs *)

Section demo.
#[local] Existing Instance key_order.
Abbreviation bucket := (gmap text S3Object).

(** A pack that was replaced before its staging area was emptied: the published
    file, the manifest and the uploaded copy are there. *)
Definition demo_file : AssetFile := mkAssetFile "p0" (lit "a") (lit "pre/files/a") (lit "image/png") 1 [] [] true None.
Definition w_staged : CWorld bucket :=
  let o := mkS3Object [7] None None in
  mkCWorld (mkWorld ((with_invitation None) <| db_assetFiles := {["f1" := demo_file]} |>) [])
    (demo_storage (<[lit "pre/files/a" := o]> (<[lit "pre/manifest.json" := o]> {[stagingObjectKey (lit "pre") "f1" := o]}))) 10000000000 0.
(** The owner's removal deletes the published files and the manifest of a
    replaced pack but not what was uploaded: a pack replaced before its staging
    area was emptied makes it fail, and the packs behind it stay; the background
    cleanup, which deletes the staging objects too, removes it. *)
Theorem owner_removal_stops_at_staging :
  let '(r, w) := deleteSupersededAssetPacks quiet demo_storage_limits "alice" w_staged in
  r = Err (ErrorException "ASSET_STORAGE_DELETE_INCOMPLETE")
  ∧ (λ p, (pk_status p, pk_failureCode p)) <$> db_assetPacks (cw_db w) !! "p0" = Some (PK_deleting, Some "ASSET_CLEANUP_FAILED")
  ∧ (cleanupSupersededPacks quiet demo_storage_limits 100 w).1 = Ok 1.
Proof. vm_compute. by split_and!. Qed.

Lemma used_pack_survives_maintenance_witness :
  in_use "p0" (cw_db (serve_maintenance quiet demo_storage_limits (MQ_own "alice") (w_old (Some "p0"))).2).
Proof.
  apply (used_pack_survives_maintenance quiet demo_storage_limits "p0"); [by intros n w|].
  split; [exists demo_pack_row; split; vm_compute; reflexivity|vm_compute; reflexivity].
Defined.
Definition demo_cleanup := cleanupStorage quiet demo_storage_limits (mkOrder "root" "tidy up" "") (λ n, default "" (["a0"; "a1"; "a2"; "a3"] !! n)) w_staged.
Lemma demo_cleanup_runs : demo_cleanup = (Ok (0, 1), demo_cleanup.2).
Proof. vm_compute. reflexivity. Qed.
Lemma storage_cleanup_is_recorded_witness :
  ∃ t0 t1 t2, logged [requested_row (mkOrder "root" "tidy up" "") (λ n, default "" (["a0"; "a1"; "a2"; "a3"] !! n)) t0;
    batch_row (mkOrder "root" "tidy up" "") (λ n, default "" (["a0"; "a1"; "a2"; "a3"] !! n)) 0 1 t1;
    completed_row (mkOrder "root" "tidy up" "") (λ n, default "" (["a0"; "a1"; "a2"; "a3"] !! n)) 0 1 t2] (cw_db demo_cleanup.2).
Proof.
  exact (storage_cleanup_is_recorded quiet demo_storage_limits (λ n w, reflexivity _) _ _ w_staged _ _ demo_cleanup_runs).
Defined.
End demo.
