(* ===== verification/Regex.v ===== *)
(** * Regular expressions of JavaScript

    The expressions the services replace with: a sequence of code-unit classes,
    each taken once or as a greedy [*], with word boundaries and negative
    lookaheads.  [match_items] is the backtracking matcher of ECMAScript on
    them, [replace_all] is [value.replace(/.../g, replacement)].  [matches] is
    the declarative meaning; the lemmas relate the three. *)

From S2P Require Import Prelude JsText.
Local Open Scope Z_scope.

Abbreviation cls := (Z → bool) (only parsing).

Inductive item :=
  | One (p : cls)
  | Many (p : cls)
  | Boundary
  | NotAhead (alternatives : list (list (Z → bool))).
Abbreviation regex := (list item) (only parsing).

(** [\w], [\b] *)
Definition is_word (c : Z) : bool :=
  ((48 <=? c) && (c <=? 57)) || ((65 <=? c) && (c <=? 90)) || ((97 <=? c) && (c <=? 122)) || (c =? 95).
Definition word_at (o : option Z) : bool := match o with Some c => is_word c | None => false end.
Definition boundary (prev next : option Z) : bool := xorb (word_at prev) (word_at next).

(** A sequence of classes at the start of a text. *)
Fixpoint starts (ps : list (Z → bool)) (l : text) : bool :=
  match ps, l with
  | [], _ => true
  | p :: ps', c :: l' => p c && starts ps' l'
  | _ :: _, [] => false
  end.

(** A greedy [p*] in front of the continuation [k]: the longest run first, one
    unit less whenever [k] fails. *)
Fixpoint greedy (p : cls) (k : option Z → text → option text) (prev : option Z) (l : text) : option text :=
  match l with
  | c :: l' =>
      if p c then
        match greedy p k (Some c) l' with
        | Some rest => Some rest
        | None => k prev l
        end
      else k prev l
  | [] => k prev l
  end.

(** A match at the start of [l], where [prev] is the unit before it: the text
    behind the match. *)
Fixpoint match_items (r : regex) (prev : option Z) (l : text) : option text :=
  match r with
  | [] => Some l
  | One p :: r' => match l with
                   | c :: l' => if p c then match_items r' (Some c) l' else None
                   | [] => None
                   end
  | Many p :: r' => greedy p (match_items r') prev l
  | Boundary :: r' => if boundary prev (head l) then match_items r' prev l else None
  | NotAhead alts :: r' => if existsb (λ ps, starts ps l) alts then None else match_items r' prev l
  end.

(** [value.replace(r, replacement)] with the flag [g], for an expression that
    matches no empty text: [skip] units of the last match are still to be left
    out. *)
Fixpoint replace_from (r : regex) (replacement : text) (skip : nat) (prev : option Z) (l : text) : text :=
  match l with
  | [] => []
  | c :: l' =>
      match skip with
      | S skip' => replace_from r replacement skip' (Some c) l'
      | O => match match_items r prev l with
             | Some rest => replacement ++ replace_from r replacement (length l - length rest - 1) (Some c) l'
             | None => c :: replace_from r replacement 0 (Some c) l'
             end
      end
  end.
Definition replace_all (r : regex) (replacement l : text) : text := replace_from r replacement 0 None l.

(** ** Spelling expressions *)

(** The flag [i] without [u] folds a code unit to the upper case of its letter
    only when that does not turn a unit outside ASCII into an ASCII one. *)
Definition fold_case (c : Z) : Z := if (65 <=? c) && (c <=? 90) then c + 32 else c.
Definition ignoring_case (c d : Z) : bool := fold_case c =? fold_case d.
Definition word (s : string) : regex := (λ c, One (ignoring_case c)) <$> lit s.
Definition char (s : string) : cls := λ d, bool_decide (d ∈ lit s).
Definition not_space (c : Z) : bool := negb (is_space c).
Definition Spaces : item := Many is_space.
Definition some_of (p : cls) : regex := [One p; Many p].

(** ** What an expression means *)

(** [matches r prev w rest]: [r] can match [w], between [prev] and [rest]. *)
Inductive matches : regex → option Z → text → text → Prop :=
  | m_nil prev rest : matches [] prev [] rest
  | m_one p r prev c w rest : p c = true → matches r (Some c) w rest → matches (One p :: r) prev (c :: w) rest
  | m_stop p r prev w rest : matches r prev w rest → matches (Many p :: r) prev w rest
  | m_more p r prev c w rest : p c = true → matches (Many p :: r) (Some c) w rest → matches (Many p :: r) prev (c :: w) rest
  | m_boundary r prev w rest : boundary prev (head (w ++ rest)) = true → matches r prev w rest → matches (Boundary :: r) prev w rest
  | m_not_ahead alts r prev w rest :
      existsb (λ ps, starts ps (w ++ rest)) alts = false → matches r prev w rest → matches (NotAhead alts :: r) prev w rest.
#[export] Hint Constructors matches : regex.

Lemma greedy_sound p (k : option Z → text → option text) (Q : option Z → text → text → Prop) prev l rest :
  (∀ prev l rest, k prev l = Some rest → ∃ w, l = w ++ rest ∧ Q prev w rest) →
  (∀ c prev w rest, p c = true → Q (Some c) w rest → Q prev (c :: w) rest) →
  greedy p k prev l = Some rest → ∃ w, l = w ++ rest ∧ Q prev w rest.
Proof.
  intros Hk Hmore. revert prev. induction l as [|c l IH]; intros prev; simpl; [apply Hk|].
  destruct (p c) eqn:Hp; [|apply Hk]. destruct (greedy p k (Some c) l) as [rest'|] eqn:Hg; [|apply Hk].
  intros [= ->]. destruct (IH _ Hg) as (w & -> & Hw). exists (c :: w). eauto.
Qed.

Lemma match_items_sound r prev l rest :
  match_items r prev l = Some rest → ∃ w, l = w ++ rest ∧ matches r prev w rest.
Proof.
  revert prev l rest. induction r as [|[p|p| |alts] r IH]; intros prev l rest; simpl.
  - intros [= ->]. by exists []; auto with regex.
  - destruct l as [|c l]; [done|]. destruct (p c) eqn:Hp; [|done]. intros (w & -> & Hw)%IH. exists (c :: w). auto with regex.
  - apply (greedy_sound p (match_items r) (matches (Many p :: r))); [|auto with regex].
    intros prev' l' rest' (w & -> & Hw)%IH. exists w. auto with regex.
  - destruct (boundary prev (head l)) eqn:Hb; [|done]. intros (w & -> & Hw)%IH. exists w. auto with regex.
  - destruct (existsb _ alts) eqn:He; [done|]. intros (w & -> & Hw)%IH. exists w. auto with regex.
Qed.

Lemma greedy_tries p k prev l : is_Some (k prev l) → is_Some (greedy p k prev l).
Proof. intros Hk. destruct l as [|c l]; simpl; [done|]. destruct (p c); [|done]. by destruct (greedy p k (Some c) l). Qed.

Lemma match_items_complete r prev w rest : matches r prev w rest → is_Some (match_items r prev (w ++ rest)).
Proof.
  induction 1 as [| p r prev c w rest Hp _ IH | p r prev w rest _ IH | p r prev c w rest Hp _ IH | r prev w rest Hb _ IH | alts r prev w rest Ha _ IH];
    cbn [match_items app].
  - done.
  - by rewrite Hp.
  - by apply greedy_tries.
  - cbn [greedy]. rewrite Hp. destruct IH as [y Hy]. cbn [match_items] in Hy. by rewrite Hy.
  - by rewrite Hb.
  - by rewrite Ha.
Qed.

(** The matcher finds a match where there is one. *)
Lemma match_items_decides r prev l : is_Some (match_items r prev l) ↔ ∃ w rest, l = w ++ rest ∧ matches r prev w rest.
Proof.
  split.
  - intros [rest Hm]. apply match_items_sound in Hm as (w & Hw). by exists w, rest.
  - intros (w & rest & -> & Hm). by apply match_items_complete.
Qed.

(** [r] can only match texts of at least one unit. *)
Fixpoint consumes (r : regex) : bool :=
  match r with
  | [] => false
  | One _ :: _ => true
  | _ :: r' => consumes r'
  end.
Lemma matches_consumes r prev w rest : matches r prev w rest → consumes r = true → w ≠ [].
Proof. induction 1; simpl; auto; done. Qed.

(** ** The meaning of a replacement *)

(** The pieces a text falls into: units before which nothing matches, and
    matches. *)
Inductive piece := Copy (c : Z) | Hit (w : text).
Definition original (s : piece) : text := match s with Copy c => [c] | Hit w => w end.
Definition replaced (replacement : text) (s : piece) : text := match s with Copy c => [c] | Hit _ => replacement end.
(** The unit before what follows [w]. *)
Definition unit_before (prev : option Z) (w : text) : option Z := match last w with Some c => Some c | None => prev end.

Inductive cut (r : regex) : option Z → text → list piece → Prop :=
  | cut_nil prev : cut r prev [] []
  | cut_copy prev c l ss : match_items r prev (c :: l) = None → cut r (Some c) l ss → cut r prev (c :: l) (Copy c :: ss)
  | cut_hit prev w rest ss : w ≠ [] → match_items r prev (w ++ rest) = Some rest → matches r prev w rest →
      cut r (unit_before prev w) rest ss → cut r prev (w ++ rest) (Hit w :: ss).

Lemma replace_from_skip r replacement w prev l :
  replace_from r replacement (length w) prev (w ++ l) = replace_from r replacement 0 (unit_before prev w) l.
Proof.
  revert prev. induction w as [|c w IH]; intros prev; [done|]. simpl. rewrite IH. unfold unit_before.
  rewrite last_cons. by destruct (last w).
Qed.

(** Every replacement cuts the text into pieces, leftmost and without overlap,
    and replaces the matches. *)
Lemma replace_from_cut r replacement prev l : consumes r = true →
  ∃ ss, cut r prev l ss ∧ l = ss ≫= original ∧ replace_from r replacement 0 prev l = ss ≫= replaced replacement.
Proof.
  intros Hr. remember (length l) as n eqn:Hn. revert prev l Hn. induction n as [n IH] using lt_wf_ind. intros prev l ->.
  destruct l as [|c l]; [by exists []; split; [constructor|]|].
  cbn [replace_from]. destruct (match_items r prev (c :: l)) as [rest|] eqn:Hm.
  - destruct (match_items_sound _ _ _ _ Hm) as (w & Hl & Hw). pose proof (matches_consumes _ _ _ _ Hw Hr) as Hne.
    destruct w as [|c' w]; [done|]. injection Hl as <- ->.
    destruct (IH (length rest)) with (prev := unit_before prev (c :: w)) (l := rest) as (ss & Hc & Ho & Hrep);
      [rewrite length_cons, length_app; lia|done|].
    exists (Hit (c :: w) :: ss). split_and!.
    + apply (cut_hit r prev (c :: w) rest ss); done.
    + rewrite bind_cons, <- Ho. done.
    + rewrite bind_cons, <- Hrep. f_equal.
      assert (length (c :: w ++ rest) - length rest - 1 = length w)%nat as Hskip by (rewrite length_cons, length_app; lia).
      cbn [app]. rewrite Hskip.
      rewrite replace_from_skip. unfold unit_before. rewrite last_cons. by destruct (last w).
  - destruct (IH (length l)) with (prev := Some c) (l := l) as (ss & Hc & Ho & Hrep); [simpl; lia|done|].
    exists (Copy c :: ss). split_and!; [by constructor|by rewrite bind_cons, <- Ho|by rewrite bind_cons, <- Hrep].
Qed.

(** [r] matches somewhere in [l]. *)
Definition occurs (r : regex) (l : text) : Prop := ∃ l1 w l2, l = l1 ++ w ++ l2 ∧ matches r (last l1) w l2.

(** ** Expressions without assertions

    Such an expression matches a text or not, whatever is around it.  When its
    classes lie in an alphabet that the replacement leaves at both ends, and
    what is between the ends lacks a class the expression needs, a replacement
    leaves no match behind. *)

Definition over (A : Z → Prop) (i : item) : Prop :=
  match i with One p | Many p => ∀ c, p c = true → A c | Boundary | NotAhead _ => False end.

Lemma matches_anywhere A r prev w rest prev' rest' :
  Forall (over A) r → matches r prev w rest → matches r prev' w rest'.
Proof.
  intros Hr Hm. revert prev'.
  induction Hm; intros prev'; apply Forall_cons in Hr as Hi || constructor; try destruct Hi as [Hi Hr']; try done; auto with regex.
Qed.

Lemma matches_over A r prev w rest : Forall (over A) r → matches r prev w rest → Forall A w.
Proof. intros Hr. induction 1; try (apply Forall_cons in Hr as Hi; destruct Hi as [Hi Hr']); simpl in *; auto; done. Qed.

Lemma matches_needs r prev w rest q : matches r prev w rest → One q ∈ r → ∃ c, c ∈ w ∧ q c = true.
Proof.
  induction 1 as [| p r prev c w rest Hp _ IH | p r prev w rest _ IH | p r prev c w rest Hp _ IH | r prev w rest Hb _ IH | alts r prev w rest Ha _ IH];
    rewrite ?elem_of_cons; intros Hq; [set_solver| | | | |].
  - destruct Hq as [[= ->]|Hq]; [exists c; split; [left|done]|]. destruct (IH Hq) as (d & Hd & ?). exists d. split; [by right|done].
  - destruct Hq as [?|Hq]; [done|]. by apply IH.
  - destruct (IH ltac:(by rewrite elem_of_cons)) as (d & Hd & ?). exists d. split; [by right|done].
  - destruct Hq as [?|Hq]; [done|]. by apply IH.
  - destruct Hq as [?|Hq]; [done|]. by apply IH.
Qed.

Section leaves_none.
Context (A : Z → Prop) (r : regex) (x y : Z) (mid : text) (q : cls).
Context (Hr : Forall (over A) r) (Hconsumes : consumes r = true).
Context (Hx : ¬ A x) (Hy : ¬ A y) (Hq : One q ∈ r) (Hmid : ∀ c, c ∈ mid → q c = false).
Abbreviation replacement := (x :: mid ++ [y]).

(** A text over the alphabet in front of the result is in front of the original. *)
Lemma cut_prefix ss w k : ss ≫= replaced replacement = w ++ k → Forall A w → w `prefix_of` (ss ≫= original).
Proof using Hx.
  revert w. induction ss as [|s ss IH]; intros w Heq Hw.
  - symmetry in Heq. apply app_eq_nil in Heq as [-> _]. apply prefix_nil.
  - destruct w as [|c w]; [apply prefix_nil|]. apply Forall_cons in Hw as [Hc Hw]. rewrite bind_cons in Heq.
    destruct s as [d|w0]; simpl in Heq; injection Heq as <- Heq; [|done].
    rewrite bind_cons. simpl. by apply prefix_cons, IH.
Qed.

(** No match starts inside a replacement. *)
Lemma no_match_inside l1 w l2 out : replacement ++ out = l1 ++ w ++ l2 → (length l1 < length replacement)%nat →
  ¬ matches r (last l1) w l2.
Proof using All.
  intros Heq Hlen Hm.
  pose proof (matches_consumes _ _ _ _ Hm Hconsumes) as Hne. pose proof (matches_over A _ _ _ _ Hr Hm) as Hw.
  destruct l1 as [|x' l1].
  - destruct w as [|c w]; [done|]. injection Heq as <- _. by apply Forall_cons in Hw as [? _].
  - injection Heq as <- Heq. rewrite <- app_assoc in Heq. simpl in Hlen. rewrite length_app in Hlen. simpl in Hlen.
    assert (∃ m, mid = l1 ++ m) as [m ->].
    { exists (drop (length l1) mid). rewrite <- (take_drop (length l1) mid) at 1. f_equal.
      apply (f_equal (take (length l1))) in Heq. rewrite take_app_le, take_app_length in Heq by lia. done. }
    rewrite <- app_assoc in Heq. apply app_inv_head in Heq.
    assert (∀ m', (∀ c, c ∈ m' → q c = false) → m' ++ [y] ++ out = w ++ l2 → False) as Hgo.
    { intros m' Hm' Heq'. destruct (matches_needs _ _ _ _ _ Hm Hq) as (c & Hc & Hqc).
      assert (w `prefix_of` m') as [m2 ->]; [|rewrite Hm' in Hqc by (apply elem_of_app; by left); done].
      clear Hm Hne Hc Hqc Heq Hm'. revert m' Heq'. induction Hw as [|d w Hd Hw IH]; intros m' Heq'; [apply prefix_nil|].
      destruct m' as [|d' m']; [injection Heq' as <- _; done|]. injection Heq' as -> Heq'. by apply prefix_cons, IH. }
    apply (Hgo m); [|done]. intros c Hc. apply Hmid, elem_of_app. by right.
Qed.

Lemma cut_leaves_none prev l ss : cut r prev l ss → l = ss ≫= original → ¬ occurs r (ss ≫= replaced replacement).
Proof using All.
  induction 1 as [prev|prev c l ss Hnone Hcut IH|prev w0 rest ss _ _ _ Hcut IH]; intros Hl (l1 & w & l2 & Heq & Hm);
    pose proof (matches_consumes _ _ _ _ Hm Hconsumes) as Hne.
  - symmetry in Heq. apply app_eq_nil in Heq as [_ Heq]. by apply app_eq_nil in Heq as [-> _].
  - rewrite bind_cons in Hl, Heq. simpl in Hl, Heq. injection Hl as Hl. destruct l1 as [|c' l1]; simpl in Heq.
    + pose proof (matches_over A _ _ _ _ Hr Hm) as Hw. destruct w as [|c' w]; [done|]. injection Heq as <- Heq.
      apply Forall_cons in Hw as [_ Hw]. destruct (cut_prefix ss w l2 Heq Hw) as [k Hk].
      assert (is_Some (match_items r prev (c :: l))) as [? ?]; [|congruence].
      rewrite Hl, Hk. apply (match_items_complete r prev (c :: w) k). by eapply matches_anywhere.
    + injection Heq as <- Heq. apply IH; [done|]. exists l1, w, l2. split; [done|]. by eapply matches_anywhere.
  - rewrite bind_cons in Hl, Heq. simpl in Hl. apply app_inv_head in Hl. unfold replaced in Heq at 1.
    destruct (decide (length l1 < length replacement)%nat) as [Hlt|Hge]; [by eapply no_match_inside|].
    apply IH; [done|]. exists (drop (length replacement) l1), w, l2. split; [|by eapply matches_anywhere].
    apply (f_equal (drop (length replacement))) in Heq. rewrite drop_app_length in Heq. rewrite Heq.
    rewrite drop_app_le by lia. done.
Qed.

Lemma replace_all_leaves_none l : ¬ occurs r (replace_all r replacement l).
Proof using All.
  destruct (replace_from_cut r replacement None l Hconsumes) as (ss & Hc & Hl & Hrep). unfold replace_all. rewrite Hrep. by eapply cut_leaves_none.
Qed.
End leaves_none.

(** What an infix of a text may contain, the text contains. *)
Lemma occurs_infix A r l1 l l2 : Forall (over A) r → occurs r l → occurs r (l1 ++ l ++ l2).
Proof.
  intros Hr (k1 & w & k2 & -> & Hm). exists (l1 ++ k1), w, (k2 ++ l2). split; [by rewrite <- !app_assoc|]. by eapply matches_anywhere.
Qed.
