(* ===== verification/Redaction.v ===== *)
(** * The redaction of developer diagnostics ([developer-debug/developer-debug.service.ts])

    What a debug event keeps of the texts and the payload a client sends:
    [sanitizeText] replaces what looks like a credential, [redactObject] blanks
    the values of sensitive keys and sanitizes the texts it reaches. *)

From S2P Require Import Prelude JsText Json Regex.
From stdpp Require Import pretty.
Local Open Scope Z_scope.

(** [key.toLowerCase()], as far as an ASCII text can observe it: ASCII letters,
    the Kelvin sign (whose lower case is k) and the capital I with a dot; every
    other code unit, whose image keeps a unit outside ASCII, unchanged. *)
Definition lower_unit (c : Z) : text :=
  if (65 <=? c) && (c <=? 90) then [c + 32]
  else if c =? 8490 then [107]
  else if c =? 304 then [105; 775]
  else [c].
Definition to_lower (l : text) : text := l ≫= lower_unit.

Definition SENSITIVE_KEYS : list text := lit <$>
  ["authorization"; "apikey"; "api_key"; "token"; "accesstoken"; "refreshtoken"; "password"; "cookie"; "set-cookie";
   "secret"; "clientsecret"; "client_secret"; "access_token"; "refresh_token"].

(** ** [REDACT_TEXT_PATTERNS] *)

Definition not_newline (c : Z) : bool := negb ((c =? 13) || (c =? 10)).
Definition not_spaces : regex := some_of not_space.
(** [/\bname\s*[=:]\s*\S+/gi] *)
Definition assignment (name : string) : regex :=
  Boundary :: word name ++ [Spaces; One (char "=:"); Spaces] ++ not_spaces.
Definition classes (s : string) : list (Z → bool) := ignoring_case <$> lit s.
(** [[a-zA-Z0-9_-]] *)
Definition is_base64url (c : Z) : bool := is_word c || (c =? 45).
Definition exactly (s : string) : regex := (λ c, One (Z.eqb c)) <$> lit s.
Definition jwt_pattern : regex :=
  exactly "eyJ" ++ some_of is_base64url ++ exactly ".eyJ" ++ some_of is_base64url ++ exactly "." ++ some_of is_base64url.

Definition REDACT_TEXT_PATTERNS : list (regex * text) := [
  (word "Cookie:" ++ [Spaces; Many not_newline], lit "Cookie: [REDACTED]");
  (word "Set-Cookie:" ++ [Spaces; Many not_newline], lit "Set-Cookie: [REDACTED]");
  (word "Authorization:" ++ [Spaces] ++ word "Bearer" ++ some_of is_space ++ not_spaces, lit "Authorization: Bearer [REDACTED]");
  (word "Authorization:" ++ [Spaces] ++ word "Basic" ++ some_of is_space ++ not_spaces, lit "Authorization: Basic [REDACTED]");
  (word "Authorization:" ++ [Spaces; NotAhead [classes "Bearer" ++ [is_space]; classes "Basic" ++ [is_space]]] ++ not_spaces,
   lit "Authorization: [REDACTED]");
  (word "Bearer" ++ some_of is_space ++ not_spaces, lit "Bearer [REDACTED]");
  (assignment "refreshToken", lit "refreshToken=[REDACTED]");
  (assignment "refresh_token", lit "refresh_token=[REDACTED]");
  (assignment "accessToken", lit "accessToken=[REDACTED]");
  (assignment "access_token", lit "access_token=[REDACTED]");
  (assignment "apiKey", lit "apiKey=[REDACTED]");
  (assignment "api_key", lit "api_key=[REDACTED]");
  (assignment "clientSecret", lit "clientSecret=[REDACTED]");
  (assignment "client_secret", lit "client_secret=[REDACTED]");
  (assignment "password", lit "password=[REDACTED]");
  (jwt_pattern, lit "[REDACTED_JWT]") ].

(** [sanitizeText] *)
Definition sanitizeText (value : text) : text :=
  foldl (λ result pr, replace_all pr.1 pr.2 result) value REDACT_TEXT_PATTERNS.

(** ** Values *)

(** [sanitizeValue] *)
Fixpoint sanitizeValue (value : json) : json :=
  match value with
  | JStr s => JStr (sanitizeText s)
  | JArr l => JArr (map sanitizeValue l)
  | JObj l => JObj (map (λ kv, match kv with (key, v) => (key, sanitizeValue v) end) l)
  | _ => value
  end.

(** [sanitizeErrorMessage]: [undefined] for a message that is missing, null or
    empty *)
Definition sanitizeErrorMessage (message : option text) : option text :=
  match message with
  | Some ((_ :: _) as m) => Some (take 1000 (sanitizeText m))
  | _ => None
  end.

Definition REDACTED : json := JStr (lit "[REDACTED]").
Definition sensitive (key : text) : bool := bool_decide (to_lower key ∈ SENSITIVE_KEYS).

(** [result[key] = value] on an object made by [{}]: an assignment to
    [__proto__] gives it no property of that name. *)
Definition assign (key : text) (value : json) : list (text * json) :=
  if bool_decide (key = lit "__proto__") then [] else [(key, value)].

(** The key of the [i]th element in [Object.entries] of an array. *)
Definition index_key (i : nat) : text := lit (pretty i).

(** The value of a field whose key is not sensitive; [redact] is
    [this.redactObject]. *)
Definition redact_item (redact : json → json) (item : json) : json :=
  match item with
  | JArr inner => JArr (map (λ i, match i with JObj _ | JArr _ => redact i | _ => i end) inner)
  | JObj _ => redact item
  | JStr s => JStr (sanitizeText s)
  | _ => item
  end.
Definition redact_value (redact : json → json) (value : json) : json :=
  match value with
  | JStr s => JStr (sanitizeText s)
  | JObj _ => redact value
  | JArr l => JArr (map (redact_item redact) l)
  | _ => value
  end.
Definition redact_field (redact : json → json) (key : text) (value : json) : list (text * json) :=
  assign key (if sensitive key then REDACTED else redact_value redact value).

(** [redactObject], on an object or on an array, whose entries are its elements
    under their indexes. *)
Fixpoint redactObject (obj : json) : json :=
  match obj with
  | JObj l => JObj (flat_map (λ kv, match kv with (key, value) => redact_field redactObject key value end) l)
  | JArr l => JObj ((fix entries (i : nat) (l : list json) :=
      match l with [] => [] | v :: l' => redact_field redactObject (index_key i) v ++ entries (S i) l' end) O l)
  | _ => obj
  end.

(** [buildRedactedPayload] *)
Definition buildRedactedPayload (payload : json) : json := redactObject payload.

Example sanitize_bearer : sanitizeText (lit "x Authorization:  bearer abc.def ok") = lit "x Authorization: Bearer [REDACTED] ok".
Proof. vm_compute. reflexivity. Qed.
Example sanitize_jwt : sanitizeText (lit "t=eyJab.eyJcd.ef-_g!") = lit "t=[REDACTED_JWT]!".
Proof. vm_compute. reflexivity. Qed.
Example sanitize_password : sanitizeText (lit "PASSWORD : hunter2, mypassword=x") = lit "password=[REDACTED] mypassword=x".
Proof. vm_compute. reflexivity. Qed.

(** ** What the redaction guarantees *)

Definition no_jwt (l : text) : Prop := ¬ occurs jwt_pattern l.

(** The alphabet of the tokens. *)
Definition jwt_unit (c : Z) : Prop := is_base64url c = true ∨ c = 46.

Lemma exactly_over A s : Forall A (lit s) → Forall (over A) (exactly s).
Proof. intros Hs. apply Forall_fmap. eapply Forall_impl; [exact Hs|]. intros c Hc d Hd%Z.eqb_eq. by subst. Qed.
Lemma some_of_over (A : Z → Prop) p : (∀ c, p c = true → A c) → Forall (over A) (some_of p).
Proof. intros Hp. by repeat constructor. Qed.
Lemma jwt_over : Forall (over jwt_unit) jwt_pattern.
Proof.
  unfold jwt_pattern. rewrite !Forall_app. split_and!; try (apply some_of_over; by left).
  all: apply exactly_over; repeat (apply Forall_cons_2; [first [by left | by right]|]); apply Forall_nil_2.
Qed.

Lemma jwt_replaced l : no_jwt (replace_all jwt_pattern (lit "[REDACTED_JWT]") l).
Proof.
  apply (replace_all_leaves_none jwt_unit jwt_pattern 91 93 (lit "REDACTED_JWT") (Z.eqb 46)).
  - apply jwt_over.
  - done.
  - by intros [?|?].
  - by intros [?|?].
  - unfold jwt_pattern. do 2 (apply elem_of_app; right). left.
  - intros c Hc. apply Z.eqb_neq. intros <-. by apply (bool_decide_eq_false_1 (46 ∈ lit "REDACTED_JWT")).
Qed.

(** The tokens are replaced after everything else. *)
Lemma sanitizeText_last value : ∃ before, sanitizeText value = replace_all jwt_pattern (lit "[REDACTED_JWT]") before.
Proof. eexists. unfold sanitizeText, REDACT_TEXT_PATTERNS. cbn [foldl fst snd]. reflexivity. Qed.

Lemma sanitized_no_jwt value : no_jwt (sanitizeText value).
Proof. destruct (sanitizeText_last value) as [before ->]. apply jwt_replaced. Qed.
(** no text that went through [sanitizeText] contains a JSON web token, at
    any place. *)
Theorem no_jwt_survives value : no_jwt (sanitizeText value).
Proof. apply sanitized_no_jwt. Qed.

Lemma no_jwt_part l1 l l2 : no_jwt (l1 ++ l ++ l2) → no_jwt l.
Proof. intros H Ho. apply H. apply (occurs_infix jwt_unit); [apply jwt_over|done]. Qed.
Lemma no_jwt_take n l : no_jwt l → no_jwt (take n l).
Proof. intros H. apply (no_jwt_part [] _ (drop n l)). simpl. by rewrite take_drop. Qed.

Lemma sanitizeErrorMessage_safe message m : sanitizeErrorMessage message = Some m → no_jwt m ∧ (length m <= 1000)%nat.
Proof.
  destruct message as [[|c l]|]; [done| |done]. unfold sanitizeErrorMessage. intros [= <-]. split; [apply no_jwt_take, sanitized_no_jwt|].
  rewrite length_take. lia.
Qed.

(** An object as the redaction leaves it. *)
Definition hides_secrets (o : list (text * json)) : Prop := ∀ key value, (key, value) ∈ o →
  (sensitive key = true → value = REDACTED) ∧
  (∀ s, value = JStr s → no_jwt s) ∧
  (∀ items s, value = JArr items → JStr s ∈ items → no_jwt s).

Lemma redacted_no_jwt s : REDACTED = JStr s → no_jwt s.
Proof. intros [= <-]. apply (sanitized_no_jwt (lit "[REDACTED]")). Qed.

Lemma redact_value_string v s : redact_value redactObject v = JStr s → no_jwt s.
Proof.
  destruct v as [| | | |s'|l|l]; simpl; try done. intros [= <-]. apply sanitized_no_jwt.
Qed.
Lemma redact_value_items v items s : redact_value redactObject v = JArr items → JStr s ∈ items → no_jwt s.
Proof.
  destruct v as [| | | |s'|l|l]; simpl; try done. intros [= <-] (i & Hi & _)%list_elem_of_fmap.
  destruct i as [| | | |s'|l'|l']; simpl in Hi; try done. injection Hi as ->. apply sanitized_no_jwt.
Qed.

Lemma redact_field_hides key value : hides_secrets (redact_field redactObject key value).
Proof.
  unfold redact_field, assign. intros k v Hin. case_bool_decide; [by apply elem_of_nil in Hin|].
  apply list_elem_of_singleton in Hin as [= -> ->]. destruct (sensitive key) eqn:Hs.
  - split_and!; [done|apply redacted_no_jwt|done].
  - split_and!; [done|apply redact_value_string|apply redact_value_items].
Qed.

Lemma hides_secrets_app o1 o2 : hides_secrets o1 → hides_secrets o2 → hides_secrets (o1 ++ o2).
Proof. intros H1 H2 k v [Hin|Hin]%elem_of_app; [by apply H1|by apply H2]. Qed.

(** All four ways a value is written keep the objects in it redacted. *)
Record redacts (v : json) : Prop := mkRedacts {
  red_object : good_objects hides_secrets (redactObject v);
  red_value : good_objects hides_secrets (redact_value redactObject v);
  red_item : good_objects hides_secrets (redact_item redactObject v);
}.

Lemma redact_field_objects key value : redacts value → Forall (λ kv, good_objects hides_secrets kv.2) (redact_field redactObject key value).
Proof.
  intros [_ Hv _]. unfold redact_field, assign. case_bool_decide; [constructor|]. constructor; [|constructor]. simpl.
  destruct (sensitive key); [by apply good_objects_scalar|done].
Qed.

Lemma redacts_all v : redacts v.
Proof.
  induction v as [|b|n|t|s|l IH|l IH] using json_nested; try by split; apply good_objects_scalar.
  - assert (Forall (good_objects hides_secrets) (map (redact_item redactObject) l)) as Hitems.
    { apply Forall_fmap. eapply Forall_impl; [exact IH|]. intros v Hv. apply Hv. }
    split; simpl.
    + apply good_objects_obj. generalize O as i. clear Hitems.
      induction IH as [|v l Hv _ IHl]; intros i; [by split; [intros k v Hin%elem_of_nil|]|].
      destruct (IHl (S i)) as [H1 H2]. split; [by apply hides_secrets_app; [apply redact_field_hides|]|].
      apply Forall_app. split; [by apply redact_field_objects|done].
    + by apply good_objects_arr.
    + apply good_objects_arr, Forall_fmap. eapply Forall_impl; [exact IH|]. intros v Hv. simpl.
      destruct v; try (by apply good_objects_scalar); apply Hv.
  - assert (good_objects hides_secrets (redactObject (JObj l))) as Hobj; [|by split].
    simpl. apply good_objects_obj. induction IH as [|[key v] l Hv _ IHl]; [by split; [intros k v Hin%elem_of_nil|]|].
    destruct IHl as [H1 H2]. simpl. split; [by apply hides_secrets_app; [apply redact_field_hides|]|].
    apply Forall_app. split; [by apply redact_field_objects|done].
Qed.

(** C20: in a redacted payload, at any depth, the value of every sensitive key is
    the mark [[REDACTED]], and neither a text that is the value of a key nor a
    text in an array that is one contains a JSON web token. *)
Theorem redacted_payload_hides_secrets payload o key value :
  object_in o (buildRedactedPayload payload) → (key, value) ∈ o →
  (sensitive key = true → value = REDACTED) ∧
  (∀ s, value = JStr s → no_jwt s) ∧
  (∀ items s, value = JArr items → JStr s ∈ items → no_jwt s).
Proof. intros Ho Hin. by apply (red_object _ (redacts_all payload) o Ho). Qed.

Definition nested_secret : json :=
  JObj [(lit "headers", JObj [(lit "Api_Key", JStr (lit "k1")); (lit "notes", JArr [JStr (lit "eyJa.eyJb.c"); JInt 3])])].
Lemma redacted_payload_hides_secrets_witness :
  (lit "Api_Key", REDACTED) ∈ [(lit "Api_Key", REDACTED); (lit "notes", JArr [JStr (lit "[REDACTED_JWT]"); JInt 3])] ∧
  ∀ s, REDACTED = JStr s → no_jwt s.
Proof.
  split; [left|].
  apply (redacted_payload_hides_secrets nested_secret
    [(lit "Api_Key", REDACTED); (lit "notes", JArr [JStr (lit "[REDACTED_JWT]"); JInt 3])] (lit "Api_Key") REDACTED); [|left].
  eapply (in_field _ (lit "headers")); [left|]. vm_compute. constructor.
Defined.

(** A text inside an array of an array is stored as it came. *)
Lemma inner_arrays_are_not_sanitized s :
  buildRedactedPayload (JObj [(lit "a", JArr [JArr [JStr s]])]) = JObj [(lit "a", JArr [JArr [JStr s]])].
Proof. reflexivity. Qed.
(** An array three levels deep becomes an object. *)
Lemma third_array_becomes_object v :
  buildRedactedPayload (JObj [(lit "a", JArr [JArr [JArr [JInt v]]])]) = JObj [(lit "a", JArr [JArr [JObj [(lit "0", JInt v)]]])].
Proof. reflexivity. Qed.
(** The second part of an authorization header with another scheme stays. *)
Lemma other_schemes_leak : sanitizeText (lit "Authorization: Digest response=6629fae4") = lit "Authorization: [REDACTED] response=6629fae4".
Proof. vm_compute. reflexivity. Qed.
(** The key patterns do not see the keys of JSON text. *)
Lemma json_text_leaks q : q = [34] → sanitizeText (q ++ lit "password" ++ q ++ lit ":" ++ q ++ lit "hunter2" ++ q) = q ++ lit "password" ++ q ++ lit ":" ++ q ++ lit "hunter2" ++ q.
Proof. intros ->. vm_compute. reflexivity. Qed.
