(* ===== verification/JsonText.v ===== *)
(** * JSON text

    [JSON.stringify] on the values the services serialize, the size of a text
    in UTF-8, and [Date.prototype.toISOString]. *)

From S2P Require Import Prelude JsText Json.
From stdpp Require Import pretty.
Local Open Scope Z_scope.

(** ** Numbers and strings *)

(** The decimal digits of an integer. *)
Definition decimal (n : Z) : text := lit (pretty n).

Definition is_high (c : Z) : bool := (55296 <=? c) && (c <=? 56319).
Definition is_low (c : Z) : bool := (56320 <=? c) && (c <=? 57343).

Definition hex_digit (v : Z) : Z := if v <? 10 then 48 + v else 87 + v.
(** [\uXXXX], in lower case *)
Definition unicode_escape (c : Z) : text :=
  [92; 117; hex_digit (c / 4096 mod 16); hex_digit (c / 256 mod 16); hex_digit (c / 16 mod 16); hex_digit (c mod 16)].
(** A code unit that is no surrogate, in a JSON string *)
Definition quote_unit (c : Z) : text :=
  if c =? 8 then [92; 98] else if c =? 9 then [92; 116] else if c =? 10 then [92; 110]
  else if c =? 12 then [92; 102] else if c =? 13 then [92; 114]
  else if (c =? 34) || (c =? 92) then [92; c]
  else if c <? 32 then unicode_escape c else [c].
(** Surrogates without their partner are escaped (well-formed
    [JSON.stringify]). *)
Fixpoint quote_units (l : text) : text :=
  match l with
  | [] => []
  | c :: l' =>
      if is_high c then
        match l' with
        | d :: l'' => if is_low d then c :: d :: quote_units l'' else unicode_escape c ++ quote_units l'
        | [] => unicode_escape c
        end
      else if is_low c then unicode_escape c ++ quote_units l' else quote_unit c ++ quote_units l'
  end.
Definition quote (l : text) : text := 34 :: quote_units l ++ [34].

(** ** Documents *)

Fixpoint join (parts : list text) : text :=
  match parts with
  | [] => []
  | [x] => x
  | x :: parts' => x ++ 44 :: join parts'
  end.
(** [JSON.stringify]; a number that is not an integer is its source text. *)
Fixpoint stringify (v : json) : text :=
  match v with
  | JNull => lit "null"
  | JBool true => lit "true"
  | JBool false => lit "false"
  | JInt n => decimal n
  | JFrac t => t
  | JStr s => quote s
  | JArr l => 91 :: join (map stringify l) ++ [93]
  | JObj l => 123 :: join (map (λ kv, match kv with (k, v) => quote k ++ 58 :: stringify v end) l) ++ [125]
  end.
Definition member (kv : text * json) : text := quote kv.1 ++ 58 :: stringify kv.2.

Lemma stringify_obj l : stringify (JObj l) = 123 :: join (member <$> l) ++ [125].
Proof. simpl. do 3 f_equal. apply list_fmap_ext. by intros _ [k v] _. Qed.
Lemma stringify_arr l : stringify (JArr l) = 91 :: join (stringify <$> l) ++ [93].
Proof. done. Qed.

Lemma join_app a b : a ≠ [] → b ≠ [] → join (a ++ b) = join a ++ 44 :: join b.
Proof.
  intros Ha Hb. induction a as [|x a IH]; [done|]. destruct a as [|y a].
  - destruct b; [done|]. done.
  - change (x ++ 44 :: join ((y :: a) ++ b) = (x ++ 44 :: join (y :: a)) ++ 44 :: join b). rewrite IH by done. by rewrite <- app_assoc.
Qed.

(** [Buffer.byteLength(text, 'utf-8')] *)
Fixpoint byteLength (l : text) : Z :=
  match l with
  | [] => 0
  | c :: l' =>
      if c <? 128 then 1 + byteLength l' else if c <? 2048 then 2 + byteLength l'
      else if is_high c then
        match l' with
        | d :: l'' => if is_low d then 4 + byteLength l'' else 3 + byteLength l'
        | [] => 3
        end
      else 3 + byteLength l'
  end.

(** ** Dates *)

(** The year, month and day of a day number, in the Gregorian calendar. *)
Definition civil (day : Z) : Z * Z * Z :=
  let z := day + 719468 in
  let era := z / 146097 in
  let doe := z mod 146097 in
  let yoe := (doe - doe / 1460 + doe / 36524 - doe / 146096) / 365 in
  let doy := doe - (365 * yoe + yoe / 4 - yoe / 100) in
  let mp := (5 * doy + 2) / 153 in
  let m := if mp <? 10 then mp + 3 else mp - 9 in
  (yoe + era * 400 + (if m <=? 2 then 1 else 0), m, doy - (153 * mp + 2) / 5 + 1).

Definition pad (width : nat) (n : Z) : text :=
  let d := decimal n in replicate (width - length d) 48 ++ d.
(** [toISOString]: years outside 0..9999 get a sign and six digits. *)
Definition toISOString (t : instant) : text :=
  let '(y, m, d) := civil (t / 86400000) in
  let ms := t mod 86400000 in
  let year := if (0 <=? y) && (y <=? 9999) then pad 4 y
              else if y <? 0 then 45 :: pad 6 (- y) else 43 :: pad 6 y in
  year ++ 45 :: pad 2 m ++ 45 :: pad 2 d ++ 84 :: pad 2 (ms / 3600000) ++ 58 :: pad 2 (ms / 60000 mod 60)
  ++ 58 :: pad 2 (ms / 1000 mod 60) ++ 46 :: pad 3 (ms mod 1000) ++ [90].

Example iso_epoch : toISOString 0 = lit "1970-01-01T00:00:00.000Z".
Proof. vm_compute. reflexivity. Qed.
Example iso_leap : toISOString 1709210096789 = lit "2024-02-29T12:34:56.789Z".
Proof. vm_compute. reflexivity. Qed.
Example iso_before : toISOString (-1) = lit "1969-12-31T23:59:59.999Z".
Proof. vm_compute. reflexivity. Qed.

(** ** JavaScript values

    What the services serialize besides JSON: dates and big integers. *)
Inductive jsval :=
  | VJson (v : json)
  | VDate (t : instant)
  | VBigInt (n : Z)
  | VArr (l : list jsval)
  | VObj (l : list (text * jsval)).

(** [JSON.stringify] calls [toJSON] of a date; the replacer of the services
    writes a big integer as a string. *)
Fixpoint to_json (v : jsval) : json :=
  match v with
  | VJson v => v
  | VDate t => JStr (toISOString t)
  | VBigInt n => JStr (decimal n)
  | VArr l => JArr (map to_json l)
  | VObj l => JObj (map (λ kv, match kv with (k, v) => (k, to_json v) end) l)
  end.
