(* ===== verification/Paging.v ===== *)
(** * Pages behind a cursor

    [findMany({ where, orderBy, take, cursor, skip: 1 })]: the rows of a query
    in a total order, read page by page, where the next page starts behind the
    last row of the one before. *)

From stdpp Require Import sorting.
From S2P Require Import Prelude Tables JsText JsNumber Json Schema Config Storage.

Section rows.
Context {Hscan : ScanOrder} {R : Type}.
Implicit Types (m : gmap rowid R) (p : rowid → R → bool) (c x : rowid * R) (l : list (rowid * R)).

(** The rows from the cursor's place on, without the first; none when the row
    of the cursor is gone. *)
Definition rows_from p (le : rowid * R → rowid * R → bool) (cursor : option rowid) m : list (rowid * R) :=
  match cursor with
  | None => find_many_by p le m
  | Some k => match m !! k with
              | None => []
              | Some r => drop 1 (filter (λ x, le (k, r) x = true) (find_many_by p le m))
              end
  end.

Context (le : rowid * R → rowid * R → bool).
Context (le_total : ∀ x y, le x y = true ∨ le y x = true).
Context (le_trans : ∀ x y z, le x y = true → le y z = true → le x z = true).
Context (le_antisym : ∀ x y, le x y = true → le y x = true → x.1 = y.1).

Lemma elem_of_rows p m k r : (k, r) ∈ find_many_by p le m ↔ m !! k = Some r ∧ p k r = true.
Proof using. unfold find_many_by. by rewrite elem_of_sort_by, elem_of_find_many. Qed.
Lemma rows_sorted p m : StronglySorted (λ a b, le a b = true) (find_many_by p le m).
Proof using le_total le_trans. by apply sort_by_sorted. Qed.
Lemma rows_NoDup p m : NoDup (find_many_by p le m).*1.
Proof using.
  apply NoDup_fmap_fst; [intros k r r'; rewrite !elem_of_rows; naive_solver|].
  unfold find_many_by. rewrite sort_by_perm. unfold find_many. apply NoDup_filter. rewrite scan_perm. apply NoDup_map_to_list.
Qed.

(** Two tables that agree on the rows of a query answer it alike. *)
Lemma rows_same p m m' : (∀ k r, p k r = true → m !! k = Some r ↔ m' !! k = Some r) → find_many_by p le m = find_many_by p le m'.
Proof using le_total le_trans le_antisym.
  intros Hsame.
  assert (∀ x, x ∈ find_many_by p le m ↔ x ∈ find_many_by p le m') as Hin by (intros [k r]; rewrite !elem_of_rows; naive_solver).
  apply (StronglySorted_unique_strong (λ a b, le a b = true)); [|apply rows_sorted..|].
  - intros [k r] [k' r'] H1%Hin H2 Hle Hle'. apply elem_of_rows in H1 as [H1 _], H2 as [H2 _].
    pose proof (le_antisym _ _ Hle Hle') as Hk. simpl in Hk. subst. congruence.
  - apply NoDup_Permutation; [eapply NoDup_fmap_1, rows_NoDup..|done].
Qed.

(** Behind a row of the query come the rows that follow it. *)
Lemma rows_behind p m l c l' : find_many_by p le m = l ++ c :: l' → m !! c.1 = Some c.2 ∧ rows_from p le (Some c.1) m = l'.
Proof using le_total le_trans le_antisym.
  intros Heq. assert (m !! c.1 = Some c.2) as Hc.
  { apply (elem_of_rows p m c.1 c.2). rewrite Heq, <- surjective_pairing. set_solver. }
  split; [done|]. unfold rows_from. rewrite Hc, <- surjective_pairing.
  pose proof (rows_sorted p m) as Hs. pose proof (rows_NoDup p m) as Hn. rewrite Heq in *. clear Heq.
  rewrite filter_app. assert (filter (λ x, le c x = true) l = []) as ->.
  { destruct (filter _ l) as [|x l0] eqn:Hf; [done|exfalso]. assert (x ∈ filter (λ x, le c x = true) l) as Hx by (rewrite Hf; by left).
    apply list_elem_of_filter in Hx as [Hle Hx]. rewrite fmap_app, NoDup_app in Hn. destruct Hn as (_ & Hn & _).
    apply (Hn x.1); [by apply list_elem_of_fmap_2|]. rewrite fmap_cons. apply elem_of_cons. left. apply le_antisym; [|done].
    apply (StronglySorted_app_1_elem_of (λ a b, le a b = true) l (c :: l') x c Hs Hx). by left. }
  simpl. apply StronglySorted_app_1_r, StronglySorted_inv in Hs as [_ Hfrom].
  rewrite filter_cons_True by (by destruct (le_total c c)). simpl. rewrite drop_0. by apply filter_all.
Qed.

(** [take: n]: the first [n] rows of a query. *)
Record FirstRows p m (n : nat) l : Prop := mkFirstRows {
  first_bounded : (length l <= n)%nat;
  first_sorted : StronglySorted (λ a b, le a b = true) l;
  first_once : NoDup l.*1;
  first_in : ∀ k r, (k, r) ∈ l → m !! k = Some r ∧ p k r = true;
  first_rest : ∀ k r, m !! k = Some r → p k r = true → (k, r) ∉ l → length l = n ∧ ∀ x, x ∈ l → le x (k, r) = true;
}.
Lemma take_first p m n : FirstRows p m n (take n (find_many_by p le m)).
Proof using le_total le_trans.
  pose proof (rows_sorted p m) as Hs. pose proof (rows_NoDup p m) as Hn.
  rewrite <- (take_drop n (find_many_by p le m)), fmap_app in Hn. rewrite <- (take_drop n (find_many_by p le m)) in Hs. split.
  - rewrite length_take. lia.
  - by apply StronglySorted_app_1_l in Hs.
  - by apply NoDup_app in Hn as [? _].
  - intros k r Hin. apply elem_of_rows. rewrite <- (take_drop n (find_many_by p le m)). apply elem_of_app. by left.
  - intros k r Hk Hp Hout. assert ((k, r) ∈ find_many_by p le m) as Hin by (by apply elem_of_rows).
    rewrite <- (take_drop n (find_many_by p le m)) in Hin. apply elem_of_app in Hin as [?|Hin]; [done|]. split.
    + rewrite length_take. destruct (drop n (find_many_by p le m)) eqn:Hd; [by apply elem_of_nil in Hin|].
      apply (f_equal length) in Hd. rewrite length_drop in Hd. simpl in Hd. lia.
    + intros x Hx. by apply (StronglySorted_app_1_elem_of _ _ _ _ _ Hs).
Qed.

(** The rest of a query: what is behind the rows [l] already read.  A full page
    of it ends with a row behind which the rest goes on. *)
Lemma next_page p m n l rest : (0 < n)%nat → find_many_by p le m = l ++ rest → (n <= length rest)%nat →
  ∃ c, last (take n rest) = Some c ∧ m !! c.1 = Some c.2 ∧ rows_from p le (Some c.1) m = drop n rest.
Proof using le_total le_trans le_antisym.
  intros Hn Heq Hlen. destruct (take n rest) as [|c l0 _] eqn:Ht using rev_ind.
  { apply (f_equal length) in Ht. rewrite length_take, Nat.min_l in Ht by done. simpl in Ht. lia. }
  exists c. rewrite last_snoc. split; [done|]. apply (rows_behind p m (l ++ l0)).
  rewrite Heq, <- (take_drop n rest) at 1. rewrite Ht, <- !(assoc_L app). done.
Qed.
End rows.

(** ** Rows by a date column, the id deciding ties ([stableOrderBy]) *)

Section stamps.
Context {R : Type} (id_le : rowid → rowid → bool) (stamp : R → instant).
Local Open Scope Z_scope.

Definition ascending (a b : rowid * R) : bool := (stamp a.2 <? stamp b.2) || ((stamp a.2 =? stamp b.2) && id_le a.1 b.1).
Definition stamp_le (dir : SortDirection) (a b : rowid * R) : bool :=
  match dir with ASC => ascending a b | DESC => ascending b a end.

Context (id_total : ∀ a b, id_le a b = true ∨ id_le b a = true) (id_trans : ∀ a b c, id_le a b = true → id_le b c = true → id_le a c = true)
        (id_antisym : ∀ a b, id_le a b = true → id_le b a = true → a = b).

Lemma ascending_true a b : ascending a b = true ↔ stamp a.2 < stamp b.2 ∨ (stamp a.2 = stamp b.2 ∧ id_le a.1 b.1 = true).
Proof using. unfold ascending. by rewrite orb_true_iff, andb_true_iff, Z.ltb_lt, Z.eqb_eq. Qed.
Lemma stamp_le_total dir a b : stamp_le dir a b = true ∨ stamp_le dir b a = true.
Proof using id_total.
  assert (∀ a b, ascending a b = true ∨ ascending b a = true) as Hasc; [|by destruct dir; apply Hasc].
  clear a b. intros a b. rewrite !ascending_true. destruct (Z.lt_trichotomy (stamp a.2) (stamp b.2)) as [H|[H|H]]; [auto| |auto].
  destruct (id_total a.1 b.1); [left|right]; auto.
Qed.
Lemma stamp_le_trans dir a b c : stamp_le dir a b = true → stamp_le dir b c = true → stamp_le dir a c = true.
Proof using id_trans.
  assert (∀ a b c, ascending a b = true → ascending b c = true → ascending a c = true) as Hasc; [|destruct dir; eauto].
  clear a b c. intros a b c. rewrite !ascending_true. intros [?|[? ?]] [?|[? ?]]; [left; lia..|right; split; [lia|eauto]].
Qed.
Lemma stamp_le_antisym dir a b : stamp_le dir a b = true → stamp_le dir b a = true → a.1 = b.1.
Proof using id_antisym.
  assert (∀ a b, ascending a b = true → ascending b a = true → a.1 = b.1) as Hasc; [|destruct dir; simpl; eauto].
  clear a b. intros a b. rewrite !ascending_true. intros [?|[? ?]] [?|[? ?]]; [lia..|auto].
Qed.
End stamps.
