(* ===== verification/DevDebug.v ===== *)
(** * Developer diagnostics ([developer-debug/developer-debug.service.ts],
    [developer-debug/developer-debug.controller.ts])

    Clients send batches of debug events; they are redacted, kept for two weeks
    under the client's own event ids, listed and shown to superadmins, and
    pruned when they expire. *)

From S2P Require Import Prelude Tables JsText Json Schema Config Storage Presence Server Identity Browser Account Admin Regex Redaction JsonText Paging.
Local Open Scope Z_scope.

Definition RETENTION_DAYS : Z := 14.
Definition MAX_BATCH_SIZE : nat := 50.
Definition BOUNDED_PRUNE_LIMIT : nat := 100.
Definition MAX_TIMELINE_SIZE : nat := 200.
Definition MAX_PAYLOAD_BYTES : Z := 64 * 1024.

(** An optional text of a request: left out, [null], or given. *)
Abbreviation field := (option (option text)) (only parsing).

(** [BatchIngestEventDto], validated *)
Record BatchIngestEventDto := mkIngest {
  ie_clientEventId : text;
  ie_kind : text;
  ie_operation : option (option text);
  ie_status : option (option text);
  ie_provider : option (option text);
  ie_model : option (option text);
  ie_companionId : option (option text);
  ie_correlationId : option (option text);
  ie_cycleId : option (option text);
  ie_turnId : option (option text);
  ie_summary : option (option text);
  ie_payload : json;
  ie_errorCode : option (option text);
  ie_errorMessage : option (option text);
  ie_clientCreatedAt : text;
}.

(** The request body again, as [JSON.stringify] sees it. *)
Definition optional (key : string) (f : field) : list (text * json) :=
  match f with
  | None => []
  | Some None => [(lit key, JNull)]
  | Some (Some t) => [(lit key, JStr t)]
  end.
Definition event_json (e : BatchIngestEventDto) : json := JObj (
  [(lit "clientEventId", JStr (ie_clientEventId e)); (lit "kind", JStr (ie_kind e))]
  ++ optional "operation" (ie_operation e) ++ optional "status" (ie_status e) ++ optional "provider" (ie_provider e)
  ++ optional "model" (ie_model e) ++ optional "companionId" (ie_companionId e) ++ optional "correlationId" (ie_correlationId e)
  ++ optional "cycleId" (ie_cycleId e) ++ optional "turnId" (ie_turnId e) ++ optional "summary" (ie_summary e)
  ++ [(lit "payload", ie_payload e)] ++ optional "errorCode" (ie_errorCode e) ++ optional "errorMessage" (ie_errorMessage e)
  ++ [(lit "clientCreatedAt", JStr (ie_clientCreatedAt e))]).
Definition body_bytes (events : list BatchIngestEventDto) : Z :=
  byteLength (stringify (JObj [(lit "events", JArr (event_json <$> events))])).

Inductive SortField := SF_clientCreatedAt | SF_receivedAt.

(** [AdminDebugEventQueryDto], validated *)
Record DebugQuery := mkDebugQuery {
  q_search : option text;
  q_cursor : option rowid;
  q_limit : nat;
  q_userId : option text;
  q_deviceId : option text;
  q_kind : option text;
  q_operation : option text;
  q_status : option text;
  q_provider : option text;
  q_correlationId : option text;
  q_cycleId : option text;
  q_turnId : option text;
  q_from : option text;
  q_to : option text;
  q_sortBy : SortField;
  q_sortDir : SortDirection;
}.
#[export] Instance eta_DebugQuery : Eta DebugQuery := λ q, mkDebugQuery (q_search q) (q_cursor q) (q_limit q) (q_userId q)
  (q_deviceId q) (q_kind q) (q_operation q) (q_status q) (q_provider q) (q_correlationId q) (q_cycleId q) (q_turnId q)
  (q_from q) (q_to q) (q_sortBy q) (q_sortDir q).

Record DebugItem := mkDebugItem {
  it_id : rowid; it_kind : text; it_operation : option text; it_status : option text; it_userId : rowid; it_username : option text;
  it_deviceId : rowid; it_provider : option text; it_model : option text; it_correlationId : option text; it_cycleId : option text;
  it_turnId : option text; it_errorCode : option text; it_errorMessage : option text; it_createdAt : text; it_receivedAt : text; it_expiresAt : text }.
Record DebugPage := mkDebugPage { dp_items : list DebugItem; dp_nextCursor : option rowid; dp_hasMore : bool }.
(** [DebugTimelineItem] *)
Record TimelineItem := mkTimelineItem {
  ti_id : rowid; ti_kind : text; ti_operation : option text; ti_status : option text; ti_summary : option text;
  ti_errorMessage : option text; ti_createdAt : text }.
(** [DebugEventDetailResponse] *)
Record DebugDetail := mkDebugDetail {
  dd_id : rowid; dd_clientEventId : text; dd_kind : text; dd_operation : option text; dd_status : option text; dd_userId : rowid;
  dd_deviceId : rowid; dd_provider : option text; dd_model : option text; dd_companionId : option text; dd_correlationId : option text;
  dd_cycleId : option text; dd_turnId : option text; dd_summary : option text; dd_payload : json; dd_errorCode : option text;
  dd_errorMessage : option text; dd_createdAt : text; dd_receivedAt : text; dd_expiresAt : text; dd_relatedEvents : list TimelineItem }.

(** [toDebugTimelineItem] *)
Definition toDebugTimelineItem (row : rowid * DebugEvent) : TimelineItem :=
  let e := row.2 in
  mkTimelineItem row.1 (de_kind e) (de_operation e) (de_status e) (de_summary e) (de_errorMessage e) (toISOString (de_clientCreatedAt e)).
(** [toDebugEventDetailResponse], with the timeline [getEvent] puts in *)
Definition toDebugEventDetailResponse (row : rowid * DebugEvent) (relatedEvents : list TimelineItem) : DebugDetail :=
  let e := row.2 in
  mkDebugDetail row.1 (de_clientEventId e) (de_kind e) (de_operation e) (de_status e) (de_userId e) (de_deviceId e) (de_provider e)
    (de_model e) (de_companionId e) (de_correlationId e) (de_cycleId e) (de_turnId e) (de_summary e) (de_payload e) (de_errorCode e)
    (de_errorMessage e) (toISOString (de_clientCreatedAt e)) (toISOString (de_receivedAt e)) (toISOString (de_expiresAt e)) relatedEvents.

(** ** Rows *)

(** [upsert]'s [create] *)
Definition created_event (userId deviceId : rowid) (createdAt now expiresAt : instant) (e : BatchIngestEventDto) : DebugEvent :=
  mkDebugEvent (ie_clientEventId e) userId deviceId (ie_kind e) (default None (ie_operation e)) (default None (ie_status e))
    (default None (ie_provider e)) (default None (ie_model e)) (default None (ie_companionId e)) (default None (ie_correlationId e))
    (default None (ie_cycleId e)) (default None (ie_turnId e)) (sanitizeText <$> default None (ie_summary e))
    (buildRedactedPayload (ie_payload e)) (default None (ie_errorCode e)) (sanitizeErrorMessage (default None (ie_errorMessage e)))
    createdAt now expiresAt.
(** [upsert]'s [update]: what the request leaves out stays. *)
Definition updated_event (deviceId : rowid) (e : BatchIngestEventDto) (row : DebugEvent) : DebugEvent :=
  mkDebugEvent (de_clientEventId row) (de_userId row) deviceId (ie_kind e) (default (de_operation row) (ie_operation e))
    (default (de_status row) (ie_status e)) (default (de_provider row) (ie_provider e)) (default (de_model row) (ie_model e))
    (default (de_companionId row) (ie_companionId e)) (default (de_correlationId row) (ie_correlationId e))
    (default (de_cycleId row) (ie_cycleId e)) (default (de_turnId row) (ie_turnId e))
    (match ie_summary e with Some s => sanitizeText <$> s | None => de_summary row end)
    (buildRedactedPayload (ie_payload e)) (default (de_errorCode row) (ie_errorCode e))
    (match sanitizeErrorMessage (default None (ie_errorMessage e)) with Some m => Some m | None => de_errorMessage row end)
    (de_clientCreatedAt row) (de_receivedAt row) (de_expiresAt row).

Definition has_client_id (userId : rowid) (clientEventId : text) (_ : rowid) (e : DebugEvent) : bool :=
  (de_userId e == userId) && (de_clientEventId e == clientEventId).
(** [@@unique([userId, clientEventId])] *)
Definition same_event (a b : DebugEvent) : bool := (de_userId a == de_userId b) && (de_clientEventId a == de_clientEventId b).

(** ** Queries *)

Section queries.
Context {Hscan : ScanOrder}.
(** [new Date(text)]: [None] is an invalid date. *)
Variable parse_date : text → option instant.
(** The collation of the database on ids, and its [ILIKE]. *)
Variable id_le : rowid → rowid → bool.
Variable contains_insensitive : text → text → bool.

(** [upsert] of one event; [newId] is the id the row gets if it is created. *)
Definition upsert_event (userId deviceId : rowid) (now expiresAt : instant) (e : BatchIngestEventDto) (newId : rowid) : Tx DB unit :=
  createdAt ← require_some (parse_date (ie_clientCreatedAt e)) (ErrorException "PrismaClientValidationError");
  found ← gets (λ d, find_unique (has_client_id userId (ie_clientEventId e)) (db_debugEvents d));
  match found with
  | Some (k, row) => modify (λ d, d <| db_debugEvents := <[k := updated_event deviceId e row]> (db_debugEvents d) |>)
  | None =>
      user ← gets (λ d, is_set (db_users d !! userId));
      require user (ErrorException "P2003") ;;
      modify_or (λ d, t ← create_row same_event newId (created_event userId deviceId createdAt now expiresAt e) (db_debugEvents d);
                      Some (d <| db_debugEvents := t |>)) (P2002 "DeveloperDebugEvent")
  end.
Definition upsert_events (userId deviceId : rowid) (now expiresAt : instant) (events : list BatchIngestEventDto) (newIds : nat → rowid) : Tx DB unit :=
  tx_for (imap pair events) (λ ie, upsert_event userId deviceId now expiresAt ie.2 (newIds ie.1)).

(** [if (filters.x) where.x = ...] *)
Definition clause {A} (f : option (list A)) (test : list A → bool) : bool :=
  match f with Some ((_ :: _) as t) => test t | _ => true end.
Definition holds (f : text → bool) (o : option text) : bool := match o with Some t => f t | None => false end.
Definition column (o : option text) (t : text) : bool := o == Some t.

(** [where] of [listEvents]; [from] and [to] are dates by then. *)
Definition event_where (q : DebugQuery) (from to : option instant) (now : instant) (_ : rowid) (e : DebugEvent) : bool :=
  (now <? de_expiresAt e)
  && clause (q_search q) (λ s,
       holds (contains_insensitive s) (de_summary e) || holds (contains_insensitive s) (de_operation e)
       || holds (contains_insensitive s) (de_correlationId e) || holds (contains_insensitive s) (de_cycleId e)
       || holds (contains_insensitive s) (de_errorCode e) || holds (contains_insensitive s) (de_errorMessage e))
  && clause (q_userId q) (λ t, lit (de_userId e) == t) && clause (q_deviceId q) (λ t, lit (de_deviceId e) == t)
  && clause (q_kind q) (λ t, de_kind e == t) && clause (q_operation q) (column (de_operation e)) && clause (q_status q) (column (de_status e))
  && clause (q_provider q) (column (de_provider e)) && clause (q_correlationId q) (column (de_correlationId e))
  && clause (q_cycleId q) (column (de_cycleId e)) && clause (q_turnId q) (column (de_turnId e))
  && match from with Some t => t <=? de_clientCreatedAt e | None => true end
  && match to with Some t => de_clientCreatedAt e <=? t | None => true end.

(** [orderBy: { [field]: dir, id: dir }], as the order by both that is meant:
    Prisma documents an array of objects for it. *)
Definition sort_value (f : SortField) (e : DebugEvent) : instant :=
  match f with SF_clientCreatedAt => de_clientCreatedAt e | SF_receivedAt => de_receivedAt e end.
Definition event_le (f : SortField) (dir : SortDirection) : rowid * DebugEvent → rowid * DebugEvent → bool := stamp_le id_le (sort_value f) dir.
End queries.

(** ** The service *)

Section service.
Context {Hscan : ScanOrder} {B : Type}.
Variable others : nat → Server B → Server B.
Variable parse_date : text → option instant.
Variable id_le : rowid → rowid → bool.
Variable contains_insensitive : text → text → bool.
Abbreviation Srv := (Server B).

(** A Prisma query sends nothing until its promise is awaited: a query that is
    made and dropped does not run. *)
Definition unawaited {A} (_ : Act Srv A) : Act Srv unit := mret ().

Definition expired (now : instant) (_ : rowid) (e : DebugEvent) : bool := de_expiresAt e <? now.

(** [pruneExpired] *)
Definition pruneExpired : Act Srv nat :=
  now ← sv_clock;
  count ← sv_tx others (n ← gets (λ d, count_where (expired now) (db_debugEvents d));
                        modify (λ d, d <| db_debugEvents := delete_many (expired now) (db_debugEvents d) |>) ;; mret n);
  mret count.

(** [pruneExpiredBounded] *)
Definition delete_ids (ids : list rowid) : Tx DB nat :=
  n ← gets (λ d, count_where (λ k _, bool_decide (k ∈ ids)) (db_debugEvents d));
  modify (λ d, d <| db_debugEvents := delete_many (λ k _, bool_decide (k ∈ ids)) (db_debugEvents d) |>) ;;
  mret n.
Definition pruneExpiredBounded : Act Srv nat :=
  act_catch
    (now ← sv_clock;
     ids ← sv_query others (λ d, take BOUNDED_PRUNE_LIMIT (find_many (expired now) (db_debugEvents d)).*1);
     match ids with
     | [] => mret O
     | _ => sv_tx others (delete_ids ids)
     end)
    (λ _, mret O).

Definition is_object (payload : json) : bool := match payload with JObj _ => true | _ => false end.

(** [ingestBatch] of the service: the number accepted and [expiresAt].  The
    pruning is started, not awaited: the answer is settled before it. *)
Definition ingestBatch (userId authenticatedDeviceId : rowid) (events : list BatchIngestEventDto) (newIds : nat → rowid) : Act Srv (nat * instant) :=
  act_require (bool_decide (length events ≠ 0)%nat) (BadRequestException "EMPTY_BATCH") ;;
  act_require (bool_decide (length events <= MAX_BATCH_SIZE)%nat) (BadRequestException "BATCH_TOO_LARGE") ;;
  act_require (forallb (λ e, is_object (ie_payload e)) events) (BadRequestException "INVALID_PAYLOAD") ;;
  now ← sv_clock;
  let expiresAt := now + RETENTION_DAYS * 24 * 60 * 60 * 1000 in
  sv_tx others (upsert_events parse_date userId authenticatedDeviceId now expiresAt events newIds) ;;
  pruneExpiredBounded ;;
  mret (length events, expiresAt).

(** [ingestBatch] of the controller *)
Definition debug_ingest (enabled : option text) (userId deviceId : rowid) (events : list BatchIngestEventDto) (newIds : nat → rowid) : Act Srv (nat * instant) :=
  act_require (enabled == Some (lit "true")) (BadRequestException "INGEST_DISABLED") ;;
  act_require (bool_decide (length events ≠ 0)%nat) (BadRequestException "EMPTY_BATCH") ;;
  act_require (bool_decide (length events <= MAX_BATCH_SIZE)%nat) (BadRequestException "BATCH_TOO_LARGE") ;;
  act_require (body_bytes events <=? MAX_PAYLOAD_BYTES) (BadRequestException "PAYLOAD_TOO_LARGE") ;;
  ingestBatch userId deviceId events newIds.

(** [new Date(filters.from)], when there is one; [None] is an invalid date,
    which the query refuses. *)
Definition query_date (f : option text) : option (option instant) :=
  match f with
  | Some ((_ :: _) as t) => Some <$> parse_date t
  | _ => Some None
  end.
Definition INVALID_DATE : exc := ErrorException "PrismaClientValidationError".
Definition cursor_of (q : DebugQuery) : option rowid :=
  match q_cursor q with Some c => if c == "" then None else Some c | None => None end.

Definition debug_item (users : gmap rowid User) (row : rowid * DebugEvent) : DebugItem :=
  let e := row.2 in
  mkDebugItem row.1 (de_kind e) (de_operation e) (de_status e) (de_userId e) (u_username <$> users !! de_userId e)
    (de_deviceId e) (de_provider e) (de_model e) (de_correlationId e) (de_cycleId e) (de_turnId e) (de_errorCode e) (de_errorMessage e)
    (toISOString (de_clientCreatedAt e)) (toISOString (de_receivedAt e)) (toISOString (de_expiresAt e)).

(** What [listEvents] makes of [limit + 1] rows *)
Definition debug_page (limit : nat) (users : gmap rowid User) (rows : list (rowid * DebugEvent)) : DebugPage :=
  let hasMore := bool_decide (limit < length rows)%nat in
  let sliced := if hasMore then take limit rows else rows in
  let nextCursor := if hasMore then fst <$> last sliced else None in
  mkDebugPage (debug_item users <$> sliced) nextCursor (bool_decide (is_Some nextCursor)).

(** [listEvents] *)
Definition listEvents (q : DebugQuery) : Act Srv DebugPage :=
  let limit := Nat.min (q_limit q) 100 in
  now ← sv_clock;
  from ← act_require_some (query_date (q_from q)) INVALID_DATE;
  to ← act_require_some (query_date (q_to q)) INVALID_DATE;
  page ← sv_query others (λ d,
    debug_page limit (db_users d)
      (take (limit + 1) (rows_from (event_where contains_insensitive q from to now) (event_le id_le (q_sortBy q) (q_sortDir q)) (cursor_of q) (db_debugEvents d))));
  pruneExpiredBounded ;;
  mret page.

(** A client that reads page after page, from the first on. *)
Fixpoint list_pages (fuel : nat) (q : DebugQuery) : Act Srv (list DebugItem) :=
  match fuel with
  | O => act_throw (ErrorException "fuel")
  | S fuel =>
      page ← listEvents q;
      match dp_nextCursor page with
      | None => mret (dp_items page)
      | Some c => rest ← list_pages fuel (q <| q_cursor := Some c |>); mret (dp_items page ++ rest)
      end
  end.

(** [relatedWhere] *)
Definition related_where (id : rowid) (event : DebugEvent) (now : instant) (k : rowid) (e : DebugEvent) : bool :=
  (de_userId e == de_userId event) && (now <? de_expiresAt e) && (k != id)
  && if truthy_opt (de_correlationId event) then de_correlationId e == de_correlationId event
     else if truthy_opt (de_cycleId event) then de_cycleId e == de_cycleId event else true.
Definition by_creation (a b : rowid * DebugEvent) : bool := de_clientCreatedAt a.2 <=? de_clientCreatedAt b.2.
Definition timeline (current : rowid * DebugEvent) (related : list (rowid * DebugEvent)) : list (rowid * DebugEvent) :=
  take MAX_TIMELINE_SIZE (sort_by by_creation (current :: related)).

Definition DEBUG_EVENT_NOT_FOUND : exc := NotFoundException "DEBUG_EVENT_NOT_FOUND".

(** The rows behind the answer of [getEvent]: the event and its timeline; a date
    and its ISO text sort alike. *)
Definition event_and_timeline (id : rowid) (adminUserId auditId : rowid) : Act Srv (DebugEvent * list (rowid * DebugEvent)) :=
  row ← sv_query others (λ d, db_debugEvents d !! id);
  event ← act_require_some row DEBUG_EVENT_NOT_FOUND;
  now ← sv_clock;
  act_require (now <? de_expiresAt event) DEBUG_EVENT_NOT_FOUND ;;
  (if adminUserId == "" then mret () else
     unawaited (sv_tx others (record_audit (mkAuditLog auditId adminUserId "developer_debug_event_viewed" "DeveloperDebugEvent" (Some id) None
       (Some (JObj [(lit "eventId", JStr (lit id)); (lit "kind", JStr (de_kind event)); (lit "userId", JStr (lit (de_userId event)))])) now)))) ;;
  now' ← sv_clock;
  related ← (if truthy_opt (de_correlationId event) || truthy_opt (de_cycleId event)
    then sv_query others (λ d, take (MAX_TIMELINE_SIZE - 1) (find_many_by (related_where id event now') by_creation (db_debugEvents d)))
    else mret []);
  mret (event, timeline (id, event) related).
(** [getEvent] *)
Definition getEvent (id : rowid) (adminUserId auditId : rowid) : Act Srv DebugDetail :=
  found ← event_and_timeline id adminUserId auditId;
  mret (toDebugEventDetailResponse (id, found.1) (toDebugTimelineItem <$> found.2)).

(** [recordExpiredDeleteAudit] *)
Definition recordExpiredDeleteAudit (adminUserId auditId : rowid) (count : nat) : Act Srv unit :=
  now ← sv_clock;
  unawaited (sv_tx others (record_audit (mkAuditLog auditId adminUserId "developer_debug_events_expired_deleted" "DeveloperDebugEvent" None None
    (Some (JObj [(lit "count", JInt (Z.of_nat count))])) now))).
(** [deleteExpired] *)
Definition deleteExpired (adminUserId auditId : rowid) : Act Srv nat :=
  result ← pruneExpired;
  recordExpiredDeleteAudit adminUserId auditId result ;;
  mret result.

(** The controller's requests, each behind its guards *)
Inductive DebugRequest :=
  | DR_ingest (enabled : option text) (events : list BatchIngestEventDto) (newIds : nat → rowid)
  | DR_list (q : DebugQuery)
  | DR_get (id auditId : rowid)
  | DR_deleteExpired (auditId : rowid).
Definition serve_debug (userId deviceId : rowid) (request : DebugRequest) : Act Srv unit :=
  principal ← authenticate others userId deviceId;
  match request with
  | DR_ingest enabled events newIds => debug_ingest enabled userId deviceId events newIds ;; mret ()
  | DR_list q => superadmin_guard others userId ;; listEvents q ;; mret ()
  | DR_get id auditId => superadmin_guard others userId ;; getEvent id userId auditId ;; mret ()
  | DR_deleteExpired auditId => superadmin_guard others userId ;; deleteExpired userId auditId ;; mret ()
  end.
End service.
