(* ===== verification/DevDebugSafety.v ===== *)
(** * Developer diagnostics: what holds of the stored events

    The events in the database are redacted, kept for two weeks and owned by
    existing users, whatever requests come; a batch sent twice changes nothing
    the second time; pruning takes expired events only; the pages of the list
    are the list. *)

From stdpp Require Import sorting.
From S2P Require Import Prelude Tables JsText Json Schema Config Storage Presence Server Identity Browser Account AccountSafety Admin AdminSafety Regex Redaction JsonText Paging DevDebug.
Local Open Scope Z_scope.

(** ** The invariant *)

Definition RETENTION_MS : Z := RETENTION_DAYS * 24 * 60 * 60 * 1000.
Definition safe_text (o : option text) : Prop := match o with Some t => no_jwt t | None => True end.

(** The payload of an event has the mark for every value of a sensitive key, and
    no JSON web token in a text that is a value or in an array that is one
    ([hides_secrets]); its summary and error message have no JSON web token. *)
Record SafeEvent (e : DebugEvent) : Prop := mkSafeEvent {
  sf_payload : good_objects hides_secrets (de_payload e);
  sf_summary : safe_text (de_summary e);
  sf_errorMessage : safe_text (de_errorMessage e);
  sf_length : match de_errorMessage e with Some m => (length m <= 1000)%nat | None => True end;
  sf_expiresAt : de_expiresAt e = de_receivedAt e + RETENTION_MS;
}.
Definition unique_events (d : DB) : Prop := ∀ k1 e1 k2 e2, db_debugEvents d !! k1 = Some e1 → db_debugEvents d !! k2 = Some e2 →
  de_userId e1 = de_userId e2 → de_clientEventId e1 = de_clientEventId e2 → k1 = k2.
Record DebugWf (d : DB) : Prop := mkDebugWf {
  dw_safe : ∀ k e, db_debugEvents d !! k = Some e → SafeEvent e;
  dw_user : ∀ k e, db_debugEvents d !! k = Some e → is_Some (db_users d !! de_userId e);
  dw_unique : unique_events d;
}.

Lemma safe_summary s : safe_text (sanitizeText <$> s).
Proof. destruct s as [s|]; [apply sanitized_no_jwt|done]. Qed.
Lemma safe_error s : safe_text (sanitizeErrorMessage s) ∧ match sanitizeErrorMessage s with Some m => (length m <= 1000)%nat | None => True end.
Proof. destruct (sanitizeErrorMessage s) as [m|] eqn:E; [|done]. by apply sanitizeErrorMessage_safe in E. Qed.

Lemma created_safe u dv createdAt now e : SafeEvent (created_event u dv createdAt now (now + RETENTION_MS) e).
Proof. destruct (safe_error (default None (ie_errorMessage e))) as [H1 H2]. split; simpl; [apply red_object, redacts_all|apply safe_summary|done|done|done]. Qed.
Lemma updated_safe dv e row : SafeEvent row → SafeEvent (updated_event dv e row).
Proof.
  intros [H1 H2 H3 H4 H5]. destruct (safe_error (default None (ie_errorMessage e))) as [H6 H7]. split; simpl; [apply red_object, redacts_all| | | |done].
  - destruct (ie_summary e); [apply safe_summary|done].
  - by destruct (sanitizeErrorMessage _).
  - by destruct (sanitizeErrorMessage _).
Qed.

(** A change of the table that keeps each row's owner and client id. *)
Lemma debugwf_insert d k e e0 :
  DebugWf d → db_debugEvents d !! k = Some e0 → SafeEvent e → de_userId e = de_userId e0 → de_clientEventId e = de_clientEventId e0 →
  DebugWf (d <| db_debugEvents := <[k := e]> (db_debugEvents d) |>).
Proof.
  intros [H1 H2 H3] Hk He Hu Hc.
  assert (∀ k' e', <[k := e]> (db_debugEvents d) !! k' = Some e' → ∃ e1, db_debugEvents d !! k' = Some e1 ∧
    de_userId e' = de_userId e1 ∧ de_clientEventId e' = de_clientEventId e1 ∧ SafeEvent e') as Hold.
  { intros k' e' [[<- <-]|[? Hk']]%lookup_insert_Some; [exists e0; done|]. exists e'. eauto. }
  split; simpl.
  - intros k' e' (e1 & _ & _ & _ & Hs)%Hold. done.
  - intros k' e' (e1 & H1' & -> & _)%Hold. eauto.
  - unfold unique_events; simpl. intros k1 e1 k2 e2 (a & Ha & Hua & Hca & _)%Hold (b & Hb & Hub & Hcb & _)%Hold Hu' Hc'. apply (H3 k1 a k2 b); congruence.
Qed.
Lemma debugwf_create d k e :
  DebugWf d → SafeEvent e → is_Some (db_users d !! de_userId e) →
  (∀ k' e', db_debugEvents d !! k' = Some e' → same_event e e' = false) →
  DebugWf (d <| db_debugEvents := <[k := e]> (db_debugEvents d) |>).
Proof.
  intros [H1 H2 H3] He Hu Hnew.
  assert (∀ k' e', db_debugEvents d !! k' = Some e' → de_userId e = de_userId e' → de_clientEventId e = de_clientEventId e' → False) as Hdiff.
  { intros k' e' Hk' Hue Hce. specialize (Hnew k' e' Hk'). unfold same_event in Hnew. rewrite Hue, Hce, !bool_decide_eq_true_2 in Hnew by done. done. }
  split; simpl.
  - intros k' e' [[<- <-]|[? Hk']]%lookup_insert_Some; eauto.
  - intros k' e' [[<- <-]|[? Hk']]%lookup_insert_Some; eauto.
  - unfold unique_events; simpl. intros k1 e1 k2 e2 [[<- <-]|[? Hk1]]%lookup_insert_Some [[<- <-]|[? Hk2]]%lookup_insert_Some ? ?; eauto; exfalso; eauto.
Qed.
Lemma debugwf_delete d p : DebugWf d → DebugWf (d <| db_debugEvents := delete_many p (db_debugEvents d) |>).
Proof.
  intros [H1 H2 H3]. split; simpl.
  - intros k e [? _]%lookup_delete_many_Some. eauto.
  - intros k e [? _]%lookup_delete_many_Some. eauto.
  - unfold unique_events; simpl. intros k1 e1 k2 e2 [? _]%lookup_delete_many_Some [? _]%lookup_delete_many_Some. eauto.
Qed.

Section requests.
Context {Hscan : ScanOrder} {B : Type}.
Variable others : nat → Server B → Server B.
Variable parse_date : text → option instant.
Variable id_le : rowid → rowid → bool.
Variable contains_insensitive : text → text → bool.
Abbreviation Srv := (Server B).

Lemma upsert_event_keeps u dv now e k d d' x :
  DebugWf d → upsert_event parse_date u dv now (now + RETENTION_MS) e k d = Ok (x, d') → DebugWf d'.
Proof.
  intros Hd Hrun. unfold upsert_event in Hrun. step_inv; simplify_eq.
  - match goal with H : find_unique _ _ = Some _ |- _ => apply find_unique_Some in H as [Hk Hp] end. unfold has_client_id in Hp. bool_inv.
    eapply debugwf_insert; [done|exact Hk| |done|done]. apply updated_safe. by eapply dw_safe.
  - bool_inv. option_inv. match goal with H : create_row _ _ _ _ = Some _ |- _ => apply create_row_Some in H as (Hk & Hc & ->) end. simplify_eq.
    apply debugwf_create; [done|apply created_safe|done|done].
Qed.
Lemma upsert_events_keeps u dv now events ids d d' x :
  DebugWf d → upsert_events parse_date u dv now (now + RETENTION_MS) events ids d = Ok (x, d') → DebugWf d'.
Proof.
  intros Hd Hrun. eapply (tx_for_inv DebugWf); [|exact Hd|exact Hrun]. intros [i e] d1 y d2 _ H1 H2. by eapply upsert_event_keeps.
Qed.

Context (others_keep : ∀ n s, DebugWf (sv_db s) → DebugWf (sv_db (others n s))).
Abbreviation Kept := (λ s : Srv, DebugWf (sv_db s)).

Lemma kept_prune : preserves Kept (pruneExpired others).
Proof using others_keep.
  unfold pruneExpired. preserves. apply (preserves_tx DebugWf others others_keep). intros d ? d' Hd Hrun. step_inv; simplify_eq. by apply debugwf_delete.
Qed.
Lemma kept_prune_bounded : preserves Kept (pruneExpiredBounded others).
Proof using others_keep.
  unfold pruneExpiredBounded. preserves. apply (preserves_tx DebugWf others others_keep). intros d ? d' Hd Hrun. unfold delete_ids in Hrun. step_inv; simplify_eq. by apply debugwf_delete.
Qed.
Lemma kept_ingest u dv events ids : preserves Kept (ingestBatch others parse_date u dv events ids).
Proof using others_keep.
  unfold ingestBatch. preserves; [|apply kept_prune_bounded]. apply (preserves_tx DebugWf others others_keep). intros d ? d' Hd Hrun.
  by eapply upsert_events_keeps.
Qed.
Lemma kept_debug_ingest enabled u dv events ids : preserves Kept (debug_ingest others parse_date enabled u dv events ids).
Proof using others_keep. unfold debug_ingest. do 4 (apply preserves_bind; [auto with preserves|intros]). apply kept_ingest. Qed.
Lemma kept_list q : preserves Kept (listEvents others parse_date id_le contains_insensitive q).
Proof using others_keep. unfold listEvents. preserves; apply kept_prune_bounded. Qed.
Lemma kept_get k a l : preserves Kept (getEvent others k a l).
Proof using others_keep. unfold getEvent, event_and_timeline, unawaited. preserves. Qed.
Lemma kept_delete a l : preserves Kept (deleteExpired others a l).
Proof using others_keep. unfold deleteExpired, recordExpiredDeleteAudit, unawaited. preserves. apply kept_prune. Qed.
Lemma kept_authenticate u dv : preserves Kept (authenticate others u dv).
Proof using others_keep. unfold authenticate. preserves. Qed.
Lemma kept_guard u : preserves Kept (superadmin_guard others u).
Proof using others_keep. unfold superadmin_guard. preserves. Qed.

End requests.

(** ** Batches *)

Section batches.
Context (parse_date : text → option instant) (u dv : rowid).
Implicit Types (d : DB) (e : BatchIngestEventDto) (r : DebugEvent).

(** The row of the event [e] in [d]. *)
Definition row_of e d (k : rowid) r : Prop := db_debugEvents d !! k = Some r ∧ de_userId r = u ∧ de_clientEventId r = ie_clientEventId e.

(** What one upsert does: it updates the row of the event, or creates it. *)
Inductive upserted (now expiresAt : instant) e d : DB → Prop :=
  | up_update k r : row_of e d k r →
      upserted now expiresAt e d (d <| db_debugEvents := <[k := updated_event dv e r]> (db_debugEvents d) |>)
  | up_create k createdAt : db_debugEvents d !! k = None → (∀ k' r', ¬ row_of e d k' r') →
      upserted now expiresAt e d (d <| db_debugEvents := <[k := created_event u dv createdAt now expiresAt e]> (db_debugEvents d) |>).

Lemma upsert_event_upserted now expiresAt e newId d d' x :
  upsert_event parse_date u dv now expiresAt e newId d = Ok (x, d') → upserted now expiresAt e d d' ∧ is_Some (parse_date (ie_clientCreatedAt e)).
Proof.
  intros Hrun. unfold upsert_event in Hrun. step_inv; simplify_eq; (split; [|eauto]).
  - match goal with H : find_unique _ _ = Some _ |- _ => apply find_unique_Some in H as [Hk Hp] end. unfold has_client_id in Hp. bool_inv.
    by apply up_update.
  - option_inv. match goal with H : create_row _ _ _ _ = Some _ |- _ => apply create_row_Some in H as (Hk & Hc & ->) end. simplify_eq.
    apply up_create; [done|]. intros k' r' (Hr & Hu & Hce).
    match goal with H : find_unique _ _ = None |- _ => pose proof (proj1 (find_unique_None _ _) H _ _ Hr) as Hf end.
    unfold has_client_id in Hf. rewrite Hu, Hce, !bool_decide_eq_true_2 in Hf by done. done.
Qed.

Lemma upsert_events_step now expiresAt ie l (ids : nat → rowid) d d' x :
  tx_for (ie :: l) (λ ie, upsert_event parse_date u dv now expiresAt ie.2 (ids ie.1)) d = Ok (x, d') →
  ∃ d1, upserted now expiresAt ie.2 d d1 ∧ is_Some (parse_date (ie_clientCreatedAt ie.2)) ∧
    tx_for l (λ ie, upsert_event parse_date u dv now expiresAt ie.2 (ids ie.1)) d1 = Ok (x, d').
Proof. simpl. intros ([] & d1 & Hup & Hrun)%tx_bind_ok. apply upsert_event_upserted in Hup as [? ?]. eauto. Qed.

(** What every row is after a batch. *)
Definition same_identity r r' : Prop :=
  de_userId r' = de_userId r ∧ de_clientEventId r' = de_clientEventId r ∧ de_clientCreatedAt r' = de_clientCreatedAt r ∧
  de_receivedAt r' = de_receivedAt r ∧ de_expiresAt r' = de_expiresAt r.
#[local] Instance same_identity_pre : PreOrder same_identity.
Proof. split; [by repeat split|]. intros a b c (? & ? & ? & ? & ?) (? & ? & ? & ? & ?). repeat split; congruence. Qed.

Definition in_batch r (events : list BatchIngestEventDto) : Prop := de_userId r = u ∧ de_clientEventId r ∈ ie_clientEventId <$> events.

Record Batched (now expiresAt : instant) (events : list BatchIngestEventDto) d d' : Prop := mkBatched {
  ba_kept : ∀ k r, db_debugEvents d !! k = Some r → ∃ r', db_debugEvents d' !! k = Some r' ∧ same_identity r r' ∧ (r' = r ∨ in_batch r events);
  ba_present : ∀ e, e ∈ events → ∃ k r, row_of e d' k r;
  ba_new : ∀ k r', db_debugEvents d' !! k = Some r' → db_debugEvents d !! k = None →
    in_batch r' events ∧ de_receivedAt r' = now ∧ de_expiresAt r' = expiresAt;
}.

Lemma batched_step now expiresAt e events d d1 d' : upserted now expiresAt e d d1 → Batched now expiresAt events d1 d' → Batched now expiresAt (e :: events) d d'.
Proof.
  intros Hup [Hkept Hpresent Hnew].
  assert (∃ k1 r1, row_of e d1 k1 r1 ∧ db_debugEvents d1 = <[k1 := r1]> (db_debugEvents d) ∧
    match db_debugEvents d !! k1 with Some r => same_identity r r1 ∧ in_batch r (e :: events) | None => de_receivedAt r1 = now ∧ de_expiresAt r1 = expiresAt end)
    as (k1 & r1 & (Hr1 & Hu1 & Hc1) & Hd1 & Hcase).
  { destruct Hup as [k r (Hk & Hu & Hc)|k createdAt Hk Hno].
    - exists k, (updated_event dv e r). unfold row_of. split_and!; [apply lookup_insert_eq|done|done|done|]. rewrite Hk. split; [by repeat split|]. split; [done|]. rewrite Hc. left.
    - exists k, (created_event u dv createdAt now expiresAt e). unfold row_of. split_and!; [apply lookup_insert_eq|done|done|done|]. by rewrite Hk. }
  split.
  - intros k r Hk. destruct (decide (k = k1)) as [->|Hne].
    + rewrite Hk in Hcase. destruct Hcase as [Hsame Hin]. destruct (Hkept _ _ Hr1) as (r' & Hr' & Hs' & _).
      exists r'. split_and!; [done|by etrans|]. by right.
    + destruct (Hkept k r) as (r' & Hr' & Hs' & Hor); [by rewrite Hd1, lookup_insert_ne|]. exists r'. split_and!; [done|done|].
      destruct Hor as [?|[? ?]]; [by left|]. right. split; [done|]. by right.
  - intros e' [->|He']%elem_of_cons; [|by apply Hpresent]. destruct (Hkept _ _ Hr1) as (r' & Hr' & (Hu' & Hc' & _) & _).
    exists k1, r'. unfold row_of. split_and!; [done|congruence|congruence].
  - intros k r' Hr' Hk. destruct (decide (k = k1)) as [->|Hne].
    + rewrite Hk in Hcase. destruct (Hkept _ _ Hr1) as (r'' & Hr'' & (Hu' & Hc' & _ & Hrec & Hexp) & _). rewrite Hr' in Hr''. injection Hr'' as <-.
      split; [|destruct Hcase; split; congruence]. split; [congruence|]. rewrite Hc', Hc1. left.
    + destruct (Hnew k r' Hr') as ([? ?] & ?); [by rewrite Hd1, lookup_insert_ne|]. split; [|done]. split; [done|]. by right.
Qed.

Lemma upsert_events_batched now expiresAt l (ids : nat → rowid) d d' x :
  tx_for l (λ ie, upsert_event parse_date u dv now expiresAt ie.2 (ids ie.1)) d = Ok (x, d') → Batched now expiresAt l.*2 d d'.
Proof.
  revert d. induction l as [|ie l IH]; intros d Hrun.
  - apply tx_ret_ok in Hrun as [_ <-]. split; [|by intros e ?%elem_of_nil|congruence]. intros k r Hk. exists r. by split_and!; [|repeat split|left].
  - apply upsert_events_step in Hrun as (d1 & Hup & _ & Hrun). eapply batched_step; [done|]. by apply IH.
Qed.

Lemma imap_pair_snd {A} (l : list A) : (imap pair l).*2 = l.
Proof. apply list_eq. intros i. rewrite list_lookup_fmap, list_lookup_imap. by destruct (l !! i). Qed.

(** an accepted batch is an upsert: every row that was there is still there,
    under the same owner, client id and dates, and unchanged unless it is the
    sender's and named in the batch; every event of the batch has its row; the
    new rows are the sender's, named in the batch, and expire when the answer
    says. *)
Theorem batch_is_upserted now expiresAt events ids d d' x :
  upsert_events parse_date u dv now expiresAt events ids d = Ok (x, d') → Batched now expiresAt events d d'.
Proof. intros Hrun. rewrite <- (imap_pair_snd events). by eapply upsert_events_batched. Qed.

(** ** A batch sent twice *)

(** Folding in updates that set a part or leave it. *)
Lemma foldl_given {R E V} (step : R → E → R) (π : R → V) (given : E → option V) (l : list E) (r0 : R) :
  (∀ (r : R) (e : E), π (step r e) = default (π r) (given e)) → π (foldl step r0 l) = default (π r0) (last (omap given l)).
Proof.
  intros Hstep. revert r0. induction l as [|e l IH]; intros r0; [done|]. simpl. rewrite IH, Hstep.
  destruct (given e) as [v|]; simpl; [|done]. rewrite last_cons. change (list_omap E V given l) with (omap given l). by destruct (last (omap given l)).
Qed.
Lemma foldl_given_twice {R E V} (step : R → E → R) (π : R → V) (given : E → option V) (l : list E) (r0 : R) :
  (∀ (r : R) (e : E), π (step r e) = default (π r) (given e)) → π (foldl step (foldl step r0 l) l) = π (foldl step r0 l).
Proof. intros Hstep. rewrite (foldl_given step π given l (foldl step r0 l)), (foldl_given step π given l r0) by done. by destruct (last (omap given l)). Qed.

Lemma debug_event_eq (a b : DebugEvent) :
  de_clientEventId a = de_clientEventId b → de_userId a = de_userId b → de_deviceId a = de_deviceId b → de_kind a = de_kind b →
  de_operation a = de_operation b → de_status a = de_status b → de_provider a = de_provider b → de_model a = de_model b →
  de_companionId a = de_companionId b → de_correlationId a = de_correlationId b → de_cycleId a = de_cycleId b → de_turnId a = de_turnId b →
  de_summary a = de_summary b → de_payload a = de_payload b → de_errorCode a = de_errorCode b → de_errorMessage a = de_errorMessage b →
  de_clientCreatedAt a = de_clientCreatedAt b → de_receivedAt a = de_receivedAt b → de_expiresAt a = de_expiresAt b → a = b.
Proof. destruct a, b. simpl. intros. by subst. Qed.

Abbreviation updates := (foldl (λ r e, updated_event dv e r)).

Lemma updates_twice r events : updates (updates r events) events = updates r events.
Proof.
  apply debug_event_eq.
  - by apply (foldl_given_twice _ _ (λ _, None)).
  - by apply (foldl_given_twice _ _ (λ _, None)).
  - by apply (foldl_given_twice _ _ (λ _, Some dv)).
  - by apply (foldl_given_twice _ _ (λ e, Some (ie_kind e))).
  - by apply (foldl_given_twice _ _ ie_operation).
  - by apply (foldl_given_twice _ _ ie_status).
  - by apply (foldl_given_twice _ _ ie_provider).
  - by apply (foldl_given_twice _ _ ie_model).
  - by apply (foldl_given_twice _ _ ie_companionId).
  - by apply (foldl_given_twice _ _ ie_correlationId).
  - by apply (foldl_given_twice _ _ ie_cycleId).
  - by apply (foldl_given_twice _ _ ie_turnId).
  - apply (foldl_given_twice _ _ (λ e, match ie_summary e with Some s => Some (sanitizeText <$> s) | None => None end)). intros r' e. simpl. by destruct (ie_summary e).
  - by apply (foldl_given_twice _ _ (λ e, Some (buildRedactedPayload (ie_payload e)))).
  - by apply (foldl_given_twice _ _ ie_errorCode).
  - apply (foldl_given_twice _ _ (λ e, match sanitizeErrorMessage (default None (ie_errorMessage e)) with Some m => Some (Some m) | None => None end)). intros r' e. simpl. by destruct (sanitizeErrorMessage _).
  - by apply (foldl_given_twice _ _ (λ _, None)).
  - by apply (foldl_given_twice _ _ (λ _, None)).
  - by apply (foldl_given_twice _ _ (λ _, None)).
Qed.

(** A created row is an update of a row without contents. *)
Lemma created_updated createdAt now expiresAt e : ∃ blank, created_event u dv createdAt now expiresAt e = updated_event dv e blank.
Proof.
  exists (mkDebugEvent (ie_clientEventId e) u "" [] None None None None None None None None None JNull None None createdAt now expiresAt).
  apply debug_event_eq; simpl; try done; [by destruct (ie_summary e)|by destruct (sanitizeErrorMessage _)].
Qed.

Definition for_row r (events : list BatchIngestEventDto) : list BatchIngestEventDto := filter (λ e, ie_clientEventId e = de_clientEventId r) events.

(** Every row of the user after a batch is what the events of the batch for it
    made of what it was. *)
Lemma batch_folds now expiresAt l (ids : nat → rowid) d d' x k r' :
  unique_events d' → tx_for l (λ ie, upsert_event parse_date u dv now expiresAt ie.2 (ids ie.1)) d = Ok (x, d') →
  db_debugEvents d' !! k = Some r' → de_userId r' = u →
  ∃ r0, r' = updates r0 (for_row r' l.*2) ∧ ∀ r, db_debugEvents d !! k = Some r → r0 = r.
Proof.
  intros Hwf. revert d. induction l as [|[i e] l IH]; intros d Hrun Hr' Hu.
  - apply tx_ret_ok in Hrun as [_ <-]. exists r'. split; [done|]. intros r Hr. congruence.
  - apply upsert_events_step in Hrun as (d1 & Hup & _ & Hrun). destruct (IH d1 Hrun Hr' Hu) as (r0 & Heq & H0).
    apply upsert_events_batched in Hrun as [Hkept _ _]. simpl in Hup.
    assert (∃ k1 r1 base, row_of e d1 k1 r1 ∧ db_debugEvents d1 = <[k1 := r1]> (db_debugEvents d) ∧ r1 = updated_event dv e base
      ∧ ∀ r, db_debugEvents d !! k1 = Some r → base = r) as (k1 & r1 & base & (Hr1 & Hu1 & Hc1) & Hd1 & Hb & Hbase).
    { destruct Hup as [k2 r (Hk & Hur & Hc)|k2 createdAt Hk Hno].
      - exists k2, (updated_event dv e r), r. unfold row_of. split_and!; [apply lookup_insert_eq|done|done|done|done|congruence].
      - destruct (created_updated createdAt now expiresAt e) as [blank Hblank]. exists k2, (created_event u dv createdAt now expiresAt e), blank.
        unfold row_of. split_and!; [apply lookup_insert_eq|done|done|done|done|congruence]. }
    destruct (decide (k = k1)) as [->|Hne].
    + rewrite (H0 r1 Hr1) in Heq. destruct (Hkept _ _ Hr1) as (r'' & Hr'' & (_ & Hc'' & _) & _). rewrite Hr' in Hr''. injection Hr'' as <-.
      exists base. split; [|done]. unfold for_row. rewrite fmap_cons, filter_cons_True by (simpl; congruence). simpl. by rewrite <- Hb.
    + exists r0. split.
      * unfold for_row. rewrite fmap_cons, filter_cons_False; [done|]. simpl. intros Hce. apply Hne.
        destruct (Hkept _ _ Hr1) as (r'' & Hr'' & (Hu'' & Hc'' & _) & _). apply (Hwf k r' k1 r''); congruence.
      * intros r Hr. apply H0. by rewrite Hd1, lookup_insert_ne.
Qed.

(** When every event of the batch has its row, the batch is accepted and no row
    is created. *)
Lemma batch_of_known now expiresAt l (ids : nat → rowid) d :
  (∀ ie, ie ∈ l → is_Some (parse_date (ie_clientCreatedAt ie.2)) ∧ ∃ k r, row_of ie.2 d k r) →
  ∃ d', tx_for l (λ ie, upsert_event parse_date u dv now expiresAt ie.2 (ids ie.1)) d = Ok ((), d') ∧
    dom (db_debugEvents d') = dom (db_debugEvents d) ∧ ∃ t, d' = d <| db_debugEvents := t |>.
Proof.
  revert d. induction l as [|[i e] l IH]; intros d Hall.
  - exists d. split_and!; [done|done|]. exists (db_debugEvents d). by destruct d.
  - destruct (Hall (i, e)) as ([createdAt Hdate] & k & r & Hk & Hu & Hc); [left|]. simpl in *.
    destruct (find_unique (has_client_id u (ie_clientEventId e)) (db_debugEvents d)) as [[k1 r1]|] eqn:Hf.
    2: { apply find_unique_None with (k := k) (r := r) in Hf; [|done]. unfold has_client_id in Hf. rewrite !bool_decide_eq_true_2 in Hf by done. done. }
    pose proof Hf as Hf'. apply find_unique_Some in Hf' as [Hk1 Hp1]. unfold has_client_id in Hp1. bool_inv.
    set (d1 := d <| db_debugEvents := <[k1 := updated_event dv e r1]> (db_debugEvents d) |>).
    assert (upsert_event parse_date u dv now expiresAt e (ids i) d = Ok ((), d1)) as Hstep.
    { unfold upsert_event. rewrite tx_require_some_run with (a := createdAt) by done. rewrite tx_gets_run, Hf. done. }
    rewrite (tx_bind_run _ _ _ _ _ Hstep). destruct (IH d1) as (d' & Hrun & Hdom & t & Ht).
    { intros [i' e'] Hin. destruct (Hall (i', e')) as (Hdate' & k' & r' & Hk' & Hu' & Hc'); [by right|]. split; [done|]. simpl in *.
      destruct (decide (k' = k1)) as [->|Hne].
      - exists k1, (updated_event dv e r1). unfold row_of. simpl. split_and!; [apply lookup_insert_eq|done|]. congruence.
      - exists k', r'. unfold row_of. simpl. split_and!; [by rewrite lookup_insert_ne|done|done]. }
    exists d'. split; [done|]. split; [|by exists t].
    rewrite Hdom. unfold d1. simpl. apply dom_insert_lookup_L. eauto.
Qed.

Lemma batch_dates now expiresAt l (ids : nat → rowid) d d' x ie :
  tx_for l (λ ie, upsert_event parse_date u dv now expiresAt ie.2 (ids ie.1)) d = Ok (x, d') → ie ∈ l → is_Some (parse_date (ie_clientCreatedAt ie.2)).
Proof.
  revert d. induction l as [|ie' l IH]; intros d Hrun; [by intros ?%elem_of_nil|].
  apply upsert_events_step in Hrun as (d1 & _ & Hdate & Hrun). intros [->|Hin]%elem_of_cons; [done|]. by eapply IH.
Qed.

(** A batch that comes again, to a table in which its rows are still as the first
    left them and no row is new. *)
Lemma upsert_again now now' expiresAt' events ids ids' d d' d2 :
  DebugWf d →
  upsert_events parse_date u dv now (now + RETENTION_MS) events ids d = Ok ((), d') →
  (∀ k r, db_debugEvents d2 !! k = Some r → db_debugEvents d' !! k = Some r) →
  (∀ k r, db_debugEvents d' !! k = Some r → in_batch r events → db_debugEvents d2 !! k = Some r) →
  upsert_events parse_date u dv now' expiresAt' events ids' d2 = Ok ((), d2).
Proof.
  intros Hd Hrun Hsub Hsup. pose proof (upsert_events_keeps _ _ _ _ _ _ _ _ _ Hd Hrun) as Hwf. unfold upsert_events in *.
  pose proof (upsert_events_batched _ _ _ _ _ _ _ Hrun) as [_ Hpresent _]. rewrite imap_pair_snd in Hpresent.
  destruct (batch_of_known now' expiresAt' (imap pair events) ids' d2) as (d'' & Hrun' & Hdom & t & Ht).
  { intros ie Hin. split; [by eapply batch_dates|]. assert (ie.2 ∈ events) as Hev by (rewrite <- (imap_pair_snd events); by apply list_elem_of_fmap_2).
    destruct (Hpresent _ Hev) as (k & r & Hk & Hu & Hc). exists k, r. split; [|done]. apply Hsup; [done|]. split; [done|]. rewrite Hc. by apply list_elem_of_fmap_2. }
  rewrite Hrun'. do 2 f_equal. rewrite Ht. cut (t = db_debugEvents d2); [intros ->; by destruct d2|].
  pose proof (upsert_events_batched _ _ _ _ _ _ _ Hrun') as [Hkept _ _]. rewrite imap_pair_snd in Hkept.
  assert (∀ k r'', db_debugEvents d'' !! k = Some r'' → ∃ r', db_debugEvents d2 !! k = Some r' ∧ same_identity r' r'' ∧ (r'' = r' ∨ in_batch r' events)) as Hback.
  { intros k r'' Hk. assert (k ∈ dom (db_debugEvents d2)) as [r' Hr']%elem_of_dom by (rewrite <- Hdom; by apply elem_of_dom).
    destruct (Hkept k r' Hr') as (r3 & Hr3 & ?). rewrite Hk in Hr3. injection Hr3 as <-. by exists r'. }
  assert (unique_events d'') as Huniq.
  { intros k1 e1 k2 e2 (a & Ha%Hsub & (Hua & Hca & _) & _)%Hback (b & Hb%Hsub & (Hub & Hcb & _) & _)%Hback Hu Hc.
    apply (dw_unique _ Hwf k1 a k2 b); congruence. }
  assert (db_debugEvents d'' = t) as Hdt by by rewrite Ht.
  apply map_eq. intros k. rewrite <- Hdt. destruct (db_debugEvents d'' !! k) as [r''|] eqn:Hk.
  - destruct (Hback k r'' Hk) as (r' & Hr' & (Hu & Hc & _) & Hor). rewrite Hr'. f_equal. destruct Hor as [?|[Hown _]]; [done|].
    destruct (batch_folds _ _ _ _ _ _ _ _ _ (dw_unique _ Hwf) Hrun (Hsub _ _ Hr') Hown) as (r0 & Hr0 & _).
    destruct (batch_folds _ _ _ _ _ _ _ _ _ Huniq Hrun' Hk) as (r1 & Hr1 & Hbase); [congruence|]. rewrite (Hbase r' Hr') in Hr1.
    assert (for_row r'' (imap pair events).*2 = for_row r' (imap pair events).*2) as Hfor by (unfold for_row; by rewrite Hc).
    rewrite Hfor in Hr1. rewrite Hr1, Hr0 at 1. rewrite updates_twice. done.
  - symmetry. apply not_elem_of_dom. rewrite <- Hdom. by apply not_elem_of_dom.
Qed.

(** The rows of a batch after it live as long as they did, or for two weeks. *)
Lemma batch_rows_live now t events ids d d' x :
  upsert_events parse_date u dv now (now + RETENTION_MS) events ids d = Ok (x, d') → t ≤ now + RETENTION_MS →
  (∀ k r, db_debugEvents d !! k = Some r → in_batch r events → t ≤ de_expiresAt r) →
  ∀ k r, db_debugEvents d' !! k = Some r → in_batch r events → t ≤ de_expiresAt r.
Proof.
  intros Hrun Ht Hlive k r Hk Hin. apply upsert_events_batched in Hrun as [Hkept _ Hnew]. rewrite imap_pair_snd in Hkept, Hnew.
  destruct (db_debugEvents d !! k) as [r0|] eqn:Hr0.
  - destruct (Hkept _ _ Hr0) as (r' & Hr' & (Hu & Hc & _ & _ & He) & _). rewrite Hk in Hr'. injection Hr' as <-. rewrite He. apply (Hlive k r0 Hr0).
    destruct Hin as [? ?]. split; congruence.
  - destruct (Hnew k r Hk Hr0) as (_ & _ & ->). done.
Qed.
End batches.

(** ** Pruning *)

Section pruning.
Context {Hscan : ScanOrder} {B : Type}.
Variable others : nat → Server B → Server B.
Implicit Types (s : Server B).

Lemma length_delete_ids ids d n d' : delete_ids ids d = Ok (n, d') → (n <= length ids)%nat ∧
  d' = d <| db_debugEvents := delete_many (λ k _, bool_decide (k ∈ ids)) (db_debugEvents d) |>.
Proof.
  intros Hrun. unfold delete_ids in Hrun. step_inv; simplify_eq. split; [|done]. unfold count_where.
  rewrite <- length_map_to_list, <- (length_fmap fst). apply submseteq_length, NoDup_submseteq; [apply NoDup_fst_map_to_list|].
  intros k ([k' e] & -> & Hk)%list_elem_of_fmap. apply elem_of_map_to_list, map_lookup_filter_Some in Hk as [_ Hk]. simpl in *. by bool_inv.
Qed.

Lemma bounded_prune_run s :
  let read := resumed others s in
  let found := resumed others read in
  (∀ k e0 e, db_debugEvents (sv_db read) !! k = Some e0 → db_debugEvents (sv_db found) !! k = Some e → de_expiresAt e0 < sv_now s → de_expiresAt e < sv_now s) →
  ∃ n s', pruneExpiredBounded others s = (Ok n, s') ∧ (n <= BOUNDED_PRUNE_LIMIT)%nat ∧
    ((n = 0%nat ∧ s' = read) ∨
     ∃ gone, s' = found <| sv_world := (sv_world found) <| w_db := (sv_db found) <| db_debugEvents := delete_many (λ k _, bool_decide (k ∈ gone)) (db_debugEvents (sv_db found)) |> |> |> ∧
       (length gone <= BOUNDED_PRUNE_LIMIT)%nat ∧
       ∀ k e, db_debugEvents (sv_db found) !! k = Some e → k ∈ gone → de_expiresAt e < sv_now s).
Proof.
  intros read found Hkept. unfold pruneExpiredBounded, act_catch.
  rewrite clock_run, query_call_run. fold read.
  set (ids := take BOUNDED_PRUNE_LIMIT (find_many (expired (sv_now s)) (db_debugEvents (sv_db read))).*1).
  assert (length ids <= BOUNDED_PRUNE_LIMIT)%nat as Hlen by (unfold ids; rewrite length_take; lia).
  assert (∀ k, k ∈ ids → ∃ e0, db_debugEvents (sv_db read) !! k = Some e0 ∧ de_expiresAt e0 < sv_now s) as Hexp.
  { intros k Hk. unfold ids in Hk. apply elem_of_take in Hk as (i & Hi & _). apply list_elem_of_lookup_2 in Hi.
    apply list_elem_of_fmap in Hi as ([k' e0] & -> & [Hr He]%elem_of_find_many). unfold expired in He. bool_inv. eauto. }
  destruct ids as [|k0 ids'] eqn:Hids.
  - exists O, read. split_and!; [done|lia|]. by left.
  - rewrite <- Hids in *. destruct (delete_ids ids (sv_db found)) as [[n d']|e] eqn:Hdel.
    + apply length_delete_ids in Hdel as Hn. destruct Hn as [Hn Hd'].
      assert (sv_tx others (delete_ids ids) read = (Ok n, found <| sv_world := (sv_world found) <| w_db := d' |> |>)) as Hrun
        by (apply sv_tx_ok; by exists d').
      rewrite Hrun. eexists n, _. split_and!; [reflexivity| |].
      * lia.
      * right. exists ids. split_and!; [by rewrite <- Hd'|lia|]. intros k e Hk Hin. destruct (Hexp k Hin) as (e0 & He0 & Hlt). by eapply Hkept.
    + exfalso. unfold delete_ids in Hdel. done.
Qed.

(** the pruning that follows a request never fails, removes at most a
    hundred events, and only events that had expired when it started — also when
    other requests run between its two queries, as long as no expired event
    comes back to life. *)
Theorem bounded_prune_spares_unexpired s :
  let read := resumed others s in
  let found := resumed others read in
  (∀ k e0 e, db_debugEvents (sv_db read) !! k = Some e0 → db_debugEvents (sv_db found) !! k = Some e → de_expiresAt e0 < sv_now s → de_expiresAt e < sv_now s) →
  ∃ n s', pruneExpiredBounded others s = (Ok n, s') ∧ (n <= BOUNDED_PRUNE_LIMIT)%nat ∧
    ((n = 0%nat ∧ s' = read) ∨
     ∃ gone, s' = found <| sv_world := (sv_world found) <| w_db := (sv_db found) <| db_debugEvents := delete_many (λ k _, bool_decide (k ∈ gone)) (db_debugEvents (sv_db found)) |> |> |> ∧
       (length gone <= BOUNDED_PRUNE_LIMIT)%nat ∧
       ∀ k e, db_debugEvents (sv_db found) !! k = Some e → k ∈ gone → de_expiresAt e < sv_now s).
Proof. apply bounded_prune_run. Qed.
End pruning.

(** ** A batch sent again *)

Section retry.
Context {Hscan : ScanOrder} {B : Type} (parse_date : text → option instant) (u dv : rowid).
Implicit Types (s : Server B).

(** The table but for some expired events *)
Definition pruned (t : instant) (d d' : DB) : Prop := ∃ gone : list rowid,
  d' = d <| db_debugEvents := delete_many (λ k _, bool_decide (k ∈ gone)) (db_debugEvents d) |> ∧
  ∀ k r, db_debugEvents d !! k = Some r → k ∈ gone → de_expiresAt r < t.

Lemma prune_alone s : ∃ n s', pruneExpiredBounded alone s = (Ok n, s') ∧ pruned (sv_now s) (sv_db s) (sv_db s').
Proof.
  destruct (bounded_prune_run alone s) as (n & s' & Hrun & _ & Hcase).
  { intros k e0 e H0 H1. change (db_debugEvents (sv_db s) !! k = Some e0) in H0. change (db_debugEvents (sv_db s) !! k = Some e) in H1. congruence. }
  exists n, s'. split; [done|]. destruct Hcase as [[_ ->]|(gone & -> & _ & Hexp)]; [|by exists gone].
  exists []. change (sv_db (resumed alone s)) with (sv_db s). split; [|by intros k r _ ?%elem_of_nil].
  rewrite delete_many_none; [by destruct (sv_db s)|]. intros k r _. by apply bool_decide_eq_false, not_elem_of_nil.
Qed.
Lemma pruned_row t d d' k r : pruned t d d' → db_debugEvents d' !! k = Some r → db_debugEvents d !! k = Some r.
Proof. intros (gone & -> & _) Hk. by apply lookup_delete_many_Some in Hk as [? _]. Qed.
Lemma pruned_live t d d' k r : pruned t d d' → db_debugEvents d !! k = Some r → t ≤ de_expiresAt r → db_debugEvents d' !! k = Some r.
Proof.
  intros (gone & -> & Hexp) Hk Hr. apply lookup_delete_many_Some. split; [done|]. apply bool_decide_eq_false. intros Hin.
  specialize (Hexp k r Hk Hin). lia.
Qed.

End retry.

(** ** Listing *)

Section listing.
Context {Hscan : ScanOrder} {B : Type}.
Variable others : nat → Server B → Server B.
Variable parse_date : text → option instant.
Variable id_le : rowid → rowid → bool.
Variable contains_insensitive : text → text → bool.
Context (id_total : ∀ a b, id_le a b = true ∨ id_le b a = true) (id_trans : ∀ a b c, id_le a b = true → id_le b c = true → id_le a c = true)
        (id_antisym : ∀ a b, id_le a b = true → id_le b a = true → a = b).
Implicit Types (s : Server B).

Lemma event_le_total f dir a b : event_le id_le f dir a b = true ∨ event_le id_le f dir b a = true.
Proof using id_total. by apply stamp_le_total. Qed.
Lemma event_le_trans f dir a b c : event_le id_le f dir a b = true → event_le id_le f dir b c = true → event_le id_le f dir a c = true.
Proof using id_trans. by apply stamp_le_trans. Qed.
Lemma event_le_antisym f dir a b : event_le id_le f dir a b = true → event_le id_le f dir b a = true → a.1 = b.1.
Proof using id_antisym. by apply stamp_le_antisym. Qed.

(** As far as the list of the events that have not expired can tell. *)
Record Same s s' : Prop := mkSame {
  sa_now : sv_now s' = sv_now s;
  sa_users : db_users (sv_db s') = db_users (sv_db s);
  sa_events : ∀ k e, sv_now s <= de_expiresAt e → db_debugEvents (sv_db s') !! k = Some e ↔ db_debugEvents (sv_db s) !! k = Some e;
}.
#[local] Instance Same_pre : PreOrder Same.
Proof.
  split; [by split|]. intros a b c [H1 H2 H3] [H4 H5 H6]. split; [congruence|congruence|]. intros k e He. rewrite H6 by lia. by apply H3.
Qed.

(** Other requests that add no event and change none, in no time. *)
Context (calm : ∀ n s, Same s (others n s)).

Lemma same_resumed s : Same s (resumed others s).
Proof using calm. destruct (calm (sv_awaits s) s) as [H1 H2 H3]. by split. Qed.
Lemma same_pruned s : ∃ n s', pruneExpiredBounded others s = (Ok n, s') ∧ Same s s'.
Proof using calm.
  destruct (bounded_prune_run others s) as (n & s' & Hrun & _ & Hor).
  { intros k e0 e H0 H Hlt. apply Z.nle_gt. intros Hle. pose proof (same_resumed s) as [Hnow _ _].
    apply (sa_events _ _ (same_resumed (resumed others s))) in H; [|by rewrite Hnow]. rewrite H0 in H. injection H as ->. lia. }
  exists n, s'. split; [done|]. destruct Hor as [[_ ->]|(gone & -> & _ & Hgone)]; [apply same_resumed|].
  destruct (transitivity (same_resumed s) (same_resumed (resumed others s))) as [H1 H2 H3].
  split; [exact H1|exact H2|]. intros k e He. rewrite <- H3 by done. simpl.
  rewrite lookup_delete_many_Some. split; [by intros [? _]|]. intros Hk. split; [done|].
  apply bool_decide_eq_false. intros Hin. specialize (Hgone k e Hk Hin). lia.
Qed.

Section query.
Context (q0 : DebugQuery) (from to : option instant) (s0 : Server B).
Context (Hfrom : query_date parse_date (q_from q0) = Some from) (Hto : query_date parse_date (q_to q0) = Some to).
Abbreviation selects := (event_where contains_insensitive q0 from to (sv_now s0)).
Abbreviation le := (event_le id_le (q_sortBy q0) (q_sortDir q0)).
(** The whole list *)
Definition listed : list (rowid * DebugEvent) := find_many_by selects le (db_debugEvents (sv_db s0)).

Lemma listed_same s : Same s0 s → find_many_by selects le (db_debugEvents (sv_db s)) = listed.
Proof using id_total id_trans id_antisym.
  intros Hs. symmetry. apply rows_same; [apply event_le_total|apply event_le_trans|apply event_le_antisym|].
  intros k e Hp. symmetry. apply (sa_events _ _ Hs). unfold event_where in Hp. bool_inv. lia.
Qed.

Abbreviation limit := (Nat.min (q_limit q0) 100).
Lemma listEvents_run cursor s rest :
  Same s0 s → (∀ s', Same s0 s' → rows_from selects le (cursor_of (q0 <| q_cursor := cursor |>)) (db_debugEvents (sv_db s')) = rest) →
  ∃ s', listEvents others parse_date id_le contains_insensitive (q0 <| q_cursor := cursor |>) s =
    (Ok (debug_page limit (db_users (sv_db s0)) (take (limit + 1) rest)), s') ∧ Same s0 s'.
Proof using All.
  intros Hs Hrows. unfold listEvents. cbv zeta. rewrite clock_run.
  rewrite (act_require_some_run _ _ _ _ from Hfrom), (act_require_some_run _ _ _ _ to Hto), query_call_run.
  pose proof (transitivity Hs (same_resumed s)) as Hr. destruct (same_pruned (resumed others s)) as (n & s' & Hprune & Hs').
  rewrite (act_bind_run _ _ _ _ _ Hprune). exists s'. split; [|by etrans]. unfold mret, act_ret. do 3 f_equal; [apply (sa_users _ _ Hr)|].
  rewrite (sa_now _ _ Hs). f_equal. apply (Hrows _ Hr).
Qed.

Context (Hlimit : (0 < q_limit q0)%nat) (Hids : db_debugEvents (sv_db s0) !! "" = None).
Abbreviation item := (debug_item (db_users (sv_db s0))).

(** A page of the rest of the list, and where it points. *)
Lemma debug_page_rest l rest : listed = l ++ rest →
  let page := debug_page limit (db_users (sv_db s0)) (take (limit + 1) rest) in
  (dp_nextCursor page = None ∧ dp_items page = item <$> rest) ∨
  ∃ k, dp_nextCursor page = Some k ∧ k ≠ "" ∧ dp_items page = item <$> take limit rest ∧ (limit < length rest)%nat ∧
    ∀ s', Same s0 s' → rows_from selects le (Some k) (db_debugEvents (sv_db s')) = drop limit rest.
Proof using All.
  intros Hl. unfold debug_page. rewrite length_take. destruct (decide (length rest <= limit)%nat) as [Hle|Hgt].
  - left. rewrite (bool_decide_eq_false_2 (limit < _)%nat) by lia. simpl. split; [done|]. by rewrite take_ge by lia.
  - right. rewrite (bool_decide_eq_true_2 (limit < _)%nat) by lia. rewrite take_take, Nat.min_l by lia.
    assert (∀ s', Same s0 s' → ∃ c, last (take limit rest) = Some c ∧ db_debugEvents (sv_db s') !! c.1 = Some c.2 ∧
      rows_from selects le (Some c.1) (db_debugEvents (sv_db s')) = drop limit rest) as Hnext.
    { intros s' Hs'. apply (next_page le (event_le_total _ _) (event_le_trans _ _) (event_le_antisym _ _) _ _ _ l); [lia|by rewrite listed_same|lia]. }
    destruct (Hnext s0 (reflexivity s0)) as (c & Hlast & Hc & _). exists c.1. simpl. rewrite Hlast. split_and!; [done| |done|lia|].
    + intros Heq. rewrite Heq, Hids in Hc. done.
    + intros s' Hs'. destruct (Hnext s' Hs') as (c' & Hlast' & _ & Hrows). rewrite Hlast in Hlast'. by injection Hlast' as <-.
Qed.

Lemma list_pages_from n cursor s l rest :
  listed = l ++ rest → Same s0 s → (length rest < n)%nat →
  (∀ s', Same s0 s' → rows_from selects le (cursor_of (q0 <| q_cursor := cursor |>)) (db_debugEvents (sv_db s')) = rest) →
  ∃ s', list_pages others parse_date id_le contains_insensitive n (q0 <| q_cursor := cursor |>) s = (Ok (item <$> rest), s').
Proof using All.
  revert cursor s l rest. induction n as [|n IH]; intros cursor s l rest Hl Hs Hn Hrows; [lia|]. cbn [list_pages].
  destruct (listEvents_run cursor s rest Hs Hrows) as (s1 & Hrun & Hs1). rewrite (act_bind_run _ _ _ _ _ Hrun).
  destruct (debug_page_rest l rest Hl) as [[Hnone Hitems]|(k & Hnext & Hk & Hitems & Hlt & Hbehind)].
  - rewrite Hnone. exists s1. by rewrite Hitems.
  - rewrite Hnext. destruct (IH (Some k) s1 (l ++ take limit rest) (drop limit rest)) as (s2 & Hrun2).
    + by rewrite <- (assoc_L app), take_drop.
    + done.
    + rewrite length_drop. lia.
    + intros s' Hs'. unfold cursor_of. simpl. rewrite bool_decide_eq_false_2 by done. by apply Hbehind.
    + change (q0 <| q_cursor := cursor |> <| q_cursor := Some k |>) with (q0 <| q_cursor := Some k |>).
      rewrite (act_bind_run _ _ _ _ _ Hrun2). exists s2. rewrite Hitems, <- fmap_app, take_drop. done.
Qed.
End query.

(** reading the list of debug events page by page, each page from the
    cursor of the one before, ends and shows every event that has not expired
    and satisfies the filters, once, in the order asked for. *)
Theorem debug_pages_cover q s from to n :
  query_date parse_date (q_from q) = Some from → query_date parse_date (q_to q) = Some to →
  (0 < q_limit q)%nat → q_cursor q = None → db_debugEvents (sv_db s) !! "" = None →
  (length (listed q from to s) < n)%nat →
  ∃ s', list_pages others parse_date id_le contains_insensitive n q s =
    (Ok (debug_item (db_users (sv_db s)) <$> listed q from to s), s').
Proof using All.
  intros Hfrom Hto Hlimit Hcursor Hids Hn. assert (q = q <| q_cursor := None |>) as Hq by (destruct q; simpl in *; by subst).
  destruct (list_pages_from q from to s Hfrom Hto Hlimit Hids n None s [] (listed q from to s)) as (s' & Hrun); [done|reflexivity|done| |].
  - intros s' Hs'. by apply listed_same.
  - exists s'. rewrite <- Hq in Hrun. done.
Qed.
End listing.

(** ** One event *)

Section one_event.
Context {Hscan : ScanOrder} {B : Type}.
Variable others : nat → Server B → Server B.
Implicit Types (s : Server B).

Lemma by_creation_total a b : by_creation a b = true ∨ by_creation b a = true.
Proof. unfold by_creation. rewrite !Z.leb_le. lia. Qed.
Lemma by_creation_trans a b c : by_creation a b = true → by_creation b c = true → by_creation a c = true.
Proof. unfold by_creation. rewrite !Z.leb_le. lia. Qed.

(** What a superadmin may see beside the event [event]. *)
Definition related (id : rowid) (event : DebugEvent) (now : instant) (k : rowid) (e : DebugEvent) : Prop :=
  k ≠ id ∧ de_userId e = de_userId event ∧ now < de_expiresAt e ∧
  if truthy_opt (de_correlationId event) then de_correlationId e = de_correlationId event
  else truthy_opt (de_cycleId event) = true ∧ de_cycleId e = de_cycleId event.

Record ShowsTimeline (id : rowid) (event : DebugEvent) (now : instant) (d : DB) (tl : list (rowid * DebugEvent)) : Prop := mkShowsTimeline {
  st_current : (id, event) ∈ tl;
  st_once : NoDup tl.*1;
  st_sorted : StronglySorted (λ a b, by_creation a b = true) tl;
  st_bounded : (length tl <= MAX_TIMELINE_SIZE)%nat;
  st_others : ∀ k e, (k, e) ∈ tl → k = id ∨ (db_debugEvents d !! k = Some e ∧ related id event now k e);
}.

Lemma timeline_shows id event now d rows :
  (length rows < MAX_TIMELINE_SIZE)%nat → NoDup rows.*1 →
  (∀ k e, (k, e) ∈ rows → db_debugEvents d !! k = Some e ∧ related id event now k e) →
  ShowsTimeline id event now d (timeline (id, event) rows).
Proof.
  intros Hlen Hnd Hrel. unfold timeline.
  assert (length (sort_by by_creation ((id, event) :: rows)) = S (length rows)) as Hsize by (by rewrite (sort_by_perm by_creation)).
  rewrite take_ge by (rewrite Hsize; lia). split.
  - apply elem_of_sort_by. left.
  - rewrite sort_by_perm. simpl. constructor; [|done]. intros ([k e] & Hk & Hin)%list_elem_of_fmap. simpl in Hk. subst k.
    destruct (Hrel _ _ Hin) as [_ [? _]]. done.
  - apply (sort_by_sorted by_creation by_creation_total by_creation_trans).
  - rewrite Hsize. lia.
  - intros k e Hin%elem_of_sort_by. apply elem_of_cons in Hin as [[= -> ->]|Hin]; [by left|]. right. by apply Hrel.
Qed.

(** [getEvent] answers [DEBUG_EVENT_NOT_FOUND] exactly when there is no such
    event or it has expired; otherwise it shows the event with a timeline that
    contains it, ordered by creation, of at most 200 events, none twice, all the
    others unexpired events of the same user with the same correlation (or,
    without one, the same cycle). *)
Theorem event_view id adminUserId auditId s :
  let read := resumed others s in
  match event_and_timeline others id adminUserId auditId s with
  | (Err e, s') => e = DEBUG_EVENT_NOT_FOUND ∧ s' = read ∧
      ∀ event, db_debugEvents (sv_db read) !! id = Some event → de_expiresAt event <= sv_now read
  | (Ok (event, tl), s') => db_debugEvents (sv_db read) !! id = Some event ∧ sv_now read < de_expiresAt event ∧
      ShowsTimeline id event (sv_now read) (sv_db (resumed others read)) tl
  end.
Proof.
  intros read. unfold event_and_timeline. rewrite query_call_run. fold read.
  destruct (db_debugEvents (sv_db read) !! id) as [event|] eqn:He.
  2: { rewrite act_bind_throw with (e := DEBUG_EVENT_NOT_FOUND) (w1 := read) by done. done. }
  rewrite (act_require_some_run _ _ _ _ event), clock_run by done.
  destruct (sv_now read <? de_expiresAt event) eqn:Hexp.
  2: { rewrite act_require_stop by done. split_and!; [done|done|]. intros ? [= <-]. by bool_inv. }
  rewrite act_require_run by done. bool_inv.
  rewrite act_bind_run with (a := ()) (w1 := read) by (by case_bool_decide). rewrite clock_run.
  destruct (truthy_opt (de_correlationId event) || truthy_opt (de_cycleId event)) eqn:Hor.
  - rewrite query_call_run. unfold mret at 1, act_ret at 1. split_and!; [done|done|]. apply timeline_shows.
    + rewrite length_take. unfold MAX_TIMELINE_SIZE. lia.
    + rewrite fmap_take. eapply sublist_NoDup; [|apply sublist_take]. apply (Paging.rows_NoDup by_creation).
    + intros k e Hin. assert ((k, e) ∈ find_many_by (related_where id event (sv_now read)) by_creation (db_debugEvents (sv_db (resumed others read)))) as Hin'.
      { apply elem_of_take in Hin as (i & Hi & _). by eapply list_elem_of_lookup_2. }
      apply elem_of_rows in Hin' as [Hk Hp]. split; [done|]. unfold related_where in Hp. bool_inv.
      split_and!; [done|done|lia|]. destruct (truthy_opt (de_correlationId event)); simpl in Hor; [by bool_inv|].
      rewrite Hor in *. by bool_inv.
  - unfold mret at 1, act_ret at 1. split_and!; [done|done|]. apply timeline_shows; [unfold MAX_TIMELINE_SIZE; simpl; lia|constructor|].
    by intros k e ?%elem_of_nil.
Qed.

(** The queries that would record who looked at an event, or deleted the expired
    ones, are never sent: the audit log stays as it was. *)
Context (others_log : ∀ n s, db_auditLogs (sv_db (others n s)) = db_auditLogs (sv_db s)).

Lemma debug_views_are_not_audited id adminUserId auditId s :
  db_auditLogs (sv_db (getEvent others id adminUserId auditId s).2) = db_auditLogs (sv_db s) ∧
  db_auditLogs (sv_db (deleteExpired others adminUserId auditId s).2) = db_auditLogs (sv_db s).
Proof using others_log.
  set (log := db_auditLogs (sv_db s)). assert (∀ n s, db_auditLogs (sv_db s) = log → db_auditLogs (sv_db (others n s)) = log) as Hl
    by (intros n s' <-; apply others_log).
  assert (preserves (λ s', db_auditLogs (sv_db s') = log) (getEvent others id adminUserId auditId)) as Hget.
  { unfold getEvent, event_and_timeline, unawaited. preserves; by apply (preserves_query (λ d, db_auditLogs d = log)). }
  assert (preserves (λ s', db_auditLogs (sv_db s') = log) (deleteExpired others adminUserId auditId)) as Hdel.
  { unfold deleteExpired, pruneExpired, recordExpiredDeleteAudit, unawaited. preserves.
    apply (preserves_tx (λ d, db_auditLogs d = log) others Hl). intros d ? d' Hd Hrun. step_inv. by simplify_eq. }
  split; [by apply Hget|by apply Hdel].
Qed.
End one_event.

(** ** On concrete events *)

Definition demo_date (t : text) : option instant := if truthy t then Some 900 else None.
Definition demo_ingest (cid : string) (summary : option (option text)) : BatchIngestEventDto :=
  mkIngest (lit cid) (lit "chat") None (Some (Some (lit "ok"))) None None None (Some (Some (lit "corr"))) None None summary
    (JObj [(lit "token", JStr (lit "t0")); (lit "text", JStr (lit "Bearer abc"))]) None (Some (Some (lit "password=1"))) (lit "2024-01-01").
Definition demo_batch : list BatchIngestEventDto :=
  [demo_ingest "e1" (Some (Some (lit "eyJa.eyJb.c"))); demo_ingest "e2" None; demo_ingest "e1" None].
Definition demo_debug_db : DB := empty_db <| db_users := {["ann" := demo_user "ann"]} |>.
Definition demo_new (i : nat) : rowid := match i with O => "r0" | 1%nat => "r1" | _ => "r2" end.
Definition demo_upsert : result (unit * DB) := upsert_events demo_date "ann" "phone" 1000 (1000 + RETENTION_MS) demo_batch demo_new demo_debug_db.
Definition demo_batched : DB := match demo_upsert with Ok (_, d) => d | Err _ => empty_db end.
Lemma demo_upsert_ok : demo_upsert = Ok ((), demo_batched).
Proof. vm_compute. reflexivity. Qed.
Example demo_batch_rows : (λ e, (de_summary e, de_errorMessage e, de_payload e)) <$> db_debugEvents demo_batched !! "r0" =
  Some (Some (lit "[REDACTED_JWT]"), Some (lit "password=[REDACTED]"),
        JObj [(lit "token", REDACTED); (lit "text", JStr (lit "Bearer [REDACTED]"))]).
Proof. vm_compute. reflexivity. Qed.

Lemma empty_debug_wf d : db_debugEvents d = ∅ → DebugWf d.
Proof. intros He. split; rewrite ?He; try done. intros k1 e1. by rewrite He. Qed.
Lemma batch_is_upserted_witness : Batched "ann" 1000 (1000 + RETENTION_MS) demo_batch demo_debug_db demo_batched.
Proof. exact (batch_is_upserted demo_date "ann" "phone" 1000 (1000 + RETENTION_MS) demo_batch demo_new demo_debug_db demo_batched () demo_upsert_ok). Defined.
(** The batch is sent again a minute later. *)
Definition demo_sent := ingestBatch (Hscan := key_order) alone demo_date "ann" "phone" demo_batch demo_new (demo_account_server demo_debug_db).
Definition minute_later : Server bucket := demo_sent.2 <| sv_now := 60000 |>.
Lemma demo_sent_ok : demo_sent = (Ok (3%nat, 6000 + RETENTION_MS), demo_sent.2).
Proof. vm_compute. reflexivity. Qed.

Definition demo_debug_server : Server bucket := demo_account_server demo_batched.
Lemma bounded_prune_spares_unexpired_witness :
  ∃ n s', pruneExpiredBounded (Hscan := key_order) alone demo_debug_server = (Ok n, s') ∧ (n <= BOUNDED_PRUNE_LIMIT)%nat ∧
    ((n = 0%nat ∧ s' = resumed alone demo_debug_server) ∨
     ∃ gone, s' = (resumed alone (resumed alone demo_debug_server)) <| sv_world := (sv_world (resumed alone (resumed alone demo_debug_server)))
         <| w_db := demo_batched <| db_debugEvents := delete_many (λ k _, bool_decide (k ∈ gone)) (db_debugEvents demo_batched) |> |> |> ∧
       (length gone <= BOUNDED_PRUNE_LIMIT)%nat ∧
       ∀ k e, db_debugEvents demo_batched !! k = Some e → k ∈ gone → de_expiresAt e < sv_now demo_debug_server).
Proof.
  apply (bounded_prune_spares_unexpired (Hscan := key_order) alone demo_debug_server).
  intros k e0 e H0 H1 Hlt. change (db_debugEvents demo_batched !! k = Some e0) in H0. change (db_debugEvents demo_batched !! k = Some e) in H1.
  congruence.
Defined.
Definition demo_query : DebugQuery :=
  mkDebugQuery None None 1 None None (Some (lit "chat")) None None None None None None None (Some (lit "2024")) SF_receivedAt DESC.
Lemma debug_pages_cover_witness :
  ∃ s', list_pages (Hscan := key_order) alone demo_date id_leb (λ _ _, false) 5 (demo_query <| q_to := None |>) demo_debug_server =
    (Ok (debug_item (db_users demo_batched) <$> listed (Hscan := key_order) id_leb (λ _ _, false) (demo_query <| q_to := None |>) None None demo_debug_server), s').
Proof.
  apply (debug_pages_cover (Hscan := key_order) alone demo_date id_leb (λ _ _, false)).
  - intros a b. apply text_leb_total.
  - intros a b c. apply text_leb_trans.
  - intros a b Hab Hba. by apply lit_inj, text_leb_antisym.
  - intros n s. by split.
  - reflexivity.
  - reflexivity.
  - simpl. lia.
  - reflexivity.
  - vm_compute. reflexivity.
  - vm_compute. lia.
Defined.
Example demo_listed :
  match list_pages (Hscan := key_order) alone demo_date id_leb (λ _ _, false) 5 (demo_query <| q_to := None |>) demo_debug_server with
  | (Ok items, _) => it_id <$> items
  | _ => []
  end = ["r1"; "r0"].
Proof. vm_compute. reflexivity. Qed.
Example demo_page :
  match listEvents (Hscan := key_order) alone demo_date id_leb (λ _ _, false) demo_query demo_debug_server with
  | (Ok page, _) => dp_hasMore page && bool_decide (it_id <$> dp_items page = ["r1"])
  | _ => false
  end = true.
Proof. vm_compute. reflexivity. Qed.
Example demo_viewed :
  match event_and_timeline (Hscan := key_order) alone "r1" "root" "a" demo_debug_server with
  | (Ok r, _) => r.2.*1
  | _ => []
  end = ["r1"; "r0"].
Proof. vm_compute. reflexivity. Qed.

(** Deleting an account takes its events along and leaves the others in order. *)
Lemma deleted_user_keeps_events_safe u d d' : DebugWf d → delete_user u d = Some d' →
  DebugWf d' ∧ ∀ k e, db_debugEvents d' !! k = Some e → de_userId e ≠ u.
Proof.
  intros [H1 H2 H3] Hdel. unfold delete_user in Hdel. destruct (restricted _ _ || _); [done|]. injection Hdel as <-.
  assert (∀ k e, delete_many (λ _ e, de_userId e == u) (db_debugEvents d) !! k = Some e → db_debugEvents d !! k = Some e ∧ de_userId e ≠ u) as Hsub.
  { intros k e [? ?]%lookup_delete_many_Some. by bool_inv. }
  split; [split|]; simpl.
  - intros k e [? _]%Hsub. eauto.
  - intros k e [Hk Hne]%Hsub. rewrite lookup_delete_ne by done. eauto.
  - unfold unique_events. simpl. intros k1 e1 k2 e2 [? _]%Hsub [? _]%Hsub. eauto.
  - by intros k e [_ ?]%Hsub.
Qed.
