(* ===== verification/Notifications.v ===== *)
(** * Notifications ([notification/notification.service.ts],
    [notification/notification.gateway.ts], [notification/notification.controller.ts],
    [portal/portal.service.ts]: deleteNotifications)

    Rows a user reads, marks and deletes, over HTTP or through the socket; the
    server writes one and tells the user's sockets. *)

From stdpp Require Import sorting.
From S2P Require Import Prelude Tables JsText Json Schema Storage Presence Server Identity Account Admin JsonText Paging.
Local Open Scope Z_scope.

Section notifications.
Context {Hscan : ScanOrder} {B : Type}.
Variable others : nat → Server B → Server B.
Abbreviation Srv := (Server B).

(** ** The service *)

Definition owned_notification (userId : rowid) (unreadOnly : bool) (_ : rowid) (n : Notification) : bool :=
  (nt_userId n == userId) && (negb unreadOnly || negb (nt_read n)).
Definition newest_first (a b : rowid * Notification) : bool := nt_createdAt b.2 <=? nt_createdAt a.2.
Definition NOTIFICATION_NOT_FOUND : exc := NotFoundException "Notification not found".

(** [create]; [newId] is the id of the row *)
Definition create_notification (userId : rowid) (type title message : text) (data : option json) (newId : rowid) : Act Srv (rowid * Notification) :=
  now ← sv_clock;
  let row := mkNotification userId type title message data false now in
  sv_tx others (
    user ← gets (λ d, is_set (db_users d !! userId));
    require user (ErrorException "P2003") ;;
    modify_or (λ d, t ← create_row (λ _ _, false) newId row (db_notifications d); Some (d <| db_notifications := t |>)) (P2002 "Notification")) ;;
  mret (newId, row).

(** [getNotifications] *)
Definition getNotifications (userId : rowid) (unreadOnly : bool) : Act Srv (list (rowid * Notification)) :=
  sv_query others (λ d, take 50 (find_many_by (owned_notification userId unreadOnly) newest_first (db_notifications d))).

(** The check that opens [markAsRead] and [deleteNotification] *)
Definition own_notification (userId notificationId : rowid) : Act Srv unit :=
  row ← sv_query others (λ d, db_notifications d !! notificationId);
  notification ← act_require_some row NOTIFICATION_NOT_FOUND;
  act_require (nt_userId notification == userId) NOTIFICATION_NOT_FOUND.

(** [markAsRead] *)
Definition markAsRead (userId notificationId : rowid) : Act Srv (rowid * Notification) :=
  own_notification userId notificationId ;;
  updated ← sv_tx others (
    row ← gets (λ d, db_notifications d !! notificationId);
    n ← require_some row P2025;
    modify (λ d, d <| db_notifications := <[notificationId := n <| nt_read := true |>]> (db_notifications d) |>) ;;
    mret (n <| nt_read := true |>));
  mret (notificationId, updated).

(** [markAllAsRead] *)
Definition markAllAsRead (userId : rowid) : Act Srv unit :=
  sv_tx others (modify (λ d, d <| db_notifications := update_many (owned_notification userId true) (λ n, n <| nt_read := true |>) (db_notifications d) |>)).

(** [deleteNotification] *)
Definition deleteNotification (userId notificationId : rowid) : Act Srv unit :=
  own_notification userId notificationId ;;
  sv_tx others (
    row ← gets (λ d, db_notifications d !! notificationId);
    require_some row P2025 ;;
    modify (λ d, d <| db_notifications := delete notificationId (db_notifications d) |>)).

(** [getUnreadCount] *)
Definition getUnreadCount (userId : rowid) : Act Srv nat :=
  sv_query others (λ d, count_where (owned_notification userId true) (db_notifications d)).

(** [deleteNotifications] of the portal *)
Definition deleteNotifications (userId : rowid) : Act Srv nat :=
  sv_tx others (
    n ← gets (λ d, count_where (owned_notification userId false) (db_notifications d));
    modify (λ d, d <| db_notifications := delete_many (owned_notification userId false) (db_notifications d) |>) ;;
    mret n).

(** ** The socket gateway *)

(** [sendNotification] *)
Definition sendNotification (userId : rowid) (type title message : text) (data : option json) (newId : rowid) : Act Srv (rowid * Notification) :=
  notification ← create_notification userId type title message data newId;
  on_world (publishToUser userId "notification:new"
    ([("id", JStr (lit notification.1)); ("type", JStr type); ("title", JStr title); ("message", JStr message)]
     ++ match data with Some v => [("data", v)] | None => [] end
     ++ [("createdAt", JStr (toISOString (nt_createdAt notification.2)))])) ;;
  mret notification.

(** [presenceGateway.validateClientSession] of a connected socket *)
Definition validate_client (sid : socketid) : Act Srv (option rowid) :=
  found ← act_gets (λ s : Srv, g_sockets (sv_gate s) !! sid);
  match found with
  | None => mret None
  | Some (userId, deviceId, _) =>
      if (userId == "") || (deviceId == "") then act_modify (λ s : Srv, s <| sv_gate := disconnect sid (sv_gate s) |>) ;; mret None else
      d ← sv_query others (λ d, d);
      now ← sv_clock;
      let active := isSessionActive userId deviceId now d in
      (if active then mret () else act_modify (λ s : Srv, s <| sv_gate := disconnect sid (sv_gate s) |>)) ;;
      connected ← act_gets (λ s : Srv, isConnected sid (sv_gate s));
      mret (if active && connected then Some userId else None)
  end.

(** [handleMarkRead], [handleMarkAllRead] *)
Definition handleMarkRead (sid : socketid) (notificationId : rowid) : Act Srv (option (rowid * Notification)) :=
  client ← validate_client sid;
  match client with
  | None => mret None
  | Some userId => n ← markAsRead userId notificationId; mret (Some n)
  end.
Definition handleMarkAllRead (sid : socketid) : Act Srv unit :=
  client ← validate_client sid;
  match client with
  | None => mret ()
  | Some userId => markAllAsRead userId
  end.

(** ** Requests *)

(** What a user asks for, over HTTP behind [AuthGuard('jwt')]; [unreadOnly] is
    the text of the query. *)
Inductive NotificationRequest :=
  | NR_list (unreadOnly : option text)
  | NR_unreadCount
  | NR_markRead (id : rowid)
  | NR_markAll
  | NR_delete (id : rowid)
  | NR_deleteAll.
Inductive NotificationAnswer := NA_rows (rows : list (rowid * Notification)) | NA_count (n : nat) | NA_done.
Definition serve_notification (userId deviceId : rowid) (request : NotificationRequest) : Act Srv NotificationAnswer :=
  authenticate others userId deviceId ;;
  match request with
  | NR_list unreadOnly => rows ← getNotifications userId (unreadOnly == Some (lit "true")); mret (NA_rows rows)
  | NR_unreadCount => n ← getUnreadCount userId; mret (NA_count n)
  | NR_markRead id => row ← markAsRead userId id; mret (NA_rows [row])
  | NR_markAll => markAllAsRead userId ;; mret NA_done
  | NR_delete id => deleteNotification userId id ;; mret NA_done
  | NR_deleteAll => n ← deleteNotifications userId; mret (NA_count n)
  end.
End notifications.

(** ** Whose rows a request touches *)

Definition of_user (v : rowid) (d : DB) : gmap rowid Notification := filter (λ kn, nt_userId kn.2 = v) (db_notifications d).

Lemma of_user_Some v d k n : of_user v d !! k = Some n ↔ db_notifications d !! k = Some n ∧ nt_userId n = v.
Proof. unfold of_user. apply map_lookup_filter_Some. Qed.

(** A change of the table that leaves the rows of [v] and makes no new ones. *)
Lemma of_user_same v d t : (∀ k n, t !! k = Some n ∧ nt_userId n = v ↔ db_notifications d !! k = Some n ∧ nt_userId n = v) →
  of_user v (d <| db_notifications := t |>) = of_user v d.
Proof.
  intros Ht. apply map_eq. intros k. apply option_eq. intros n. rewrite !of_user_Some. apply Ht.
Qed.
Lemma of_user_insert v d k n : nt_userId n ≠ v → of_user v d !! k = None →
  of_user v (d <| db_notifications := <[k := n]> (db_notifications d) |>) = of_user v d.
Proof.
  intros Hn Hk. apply of_user_same. intros k' n'. split.
  - intros [[[<- <-]|[? ?]]%lookup_insert_Some ?]; [done|]. done.
  - intros [Hk' Hv]. split; [|done]. rewrite lookup_insert_ne; [done|]. intros ->. rewrite (proj2 (of_user_Some v d k' n')) in Hk; done.
Qed.

Section touching.
Context {Hscan : ScanOrder} {B : Type}.
Variable others : nat → Server B → Server B.
Variable u v : rowid.
Context (Huv : u ≠ v) (mine : gmap rowid Notification).
Context (others_spare : ∀ n s, of_user v (sv_db s) = mine → of_user v (sv_db (others n s)) = mine).
Abbreviation Spared := (λ s : Server B, of_user v (sv_db s) = mine).

Lemma spared_own k s s' : Spared s → own_notification others u k s = (Ok (), s') → mine !! k = None.
Proof using Huv others_spare.
  intros Hs Hrun. unfold own_notification in Hrun. server_inv. bool_inv.
  match goal with H : Some ?n = _ !! k |- _ => rename H into Hk; rename n into row end.
  rewrite <- (others_spare (sv_awaits s) s Hs). apply eq_None_not_Some. intros [n [Hn Hv]%of_user_Some].
  change (db_notifications (sv_db (resumed others s)) !! k = Some n) in Hn. congruence.
Qed.
Lemma spared_check k : preserves Spared (own_notification others u k).
Proof using others_spare. unfold own_notification. preserves. by apply (preserves_query (λ d, of_user v d = mine)). Qed.
Lemma spared_query {A} (f : DB → A) : preserves Spared (sv_query others f).
Proof using others_spare. by apply (preserves_query (λ d, of_user v d = mine)). Qed.
Lemma spared_tx {A} (body : Tx DB A) : (∀ d a d', of_user v d = mine → body d = Ok (a, d') → of_user v d' = of_user v d) → preserves Spared (sv_tx others body).
Proof using others_spare. intros Hb. apply (preserves_tx (λ d, of_user v d = mine) others others_spare). intros d a d' Hd Hrun. by rewrite (Hb d a d'). Qed.
#[local] Hint Resolve spared_query : preserves.

Lemma spared_markAsRead k : preserves Spared (markAsRead others u k).
Proof using Huv others_spare.
  unfold markAsRead. apply preserves_bind'; [apply spared_check|]. intros [] s s' Hs Hown. pose proof (spared_own k s s' Hs Hown) as Hk.
  preserves. apply spared_tx. intros d ? d' Hd Hrun. step_inv; simplify_eq.
  match goal with H : db_notifications d !! k = Some ?n |- _ => rename H into Hn; rename n into row end.
  apply of_user_insert; [|congruence]. simpl. intros Hv. pose proof (proj2 (of_user_Some v d k row) (conj Hn Hv)) as Hr. congruence.
Qed.
Lemma spared_markAll : preserves Spared (markAllAsRead others u).
Proof using Huv others_spare.
  unfold markAllAsRead. apply spared_tx. intros d ? d' Hd Hrun. step_inv; simplify_eq. apply of_user_same. intros k n.
  rewrite lookup_update_many_Some. unfold owned_notification. split.
  - intros [(n0 & Hn & ->) Hv]. destruct (_ && _) eqn:E; [|done]. bool_inv. simpl in Hv. congruence.
  - intros [Hn Hv]. split; [|done]. exists n. split; [done|]. rewrite (bool_decide_eq_false_2 (nt_userId n = u)) by congruence. done.
Qed.
Lemma spared_delete k : preserves Spared (deleteNotification others u k).
Proof using Huv others_spare.
  unfold deleteNotification. apply preserves_bind'; [apply spared_check|]. intros [] s s' Hs Hown. pose proof (spared_own k s s' Hs Hown) as Hk.
  apply spared_tx. intros d ? d' Hd Hrun. step_inv; simplify_eq. apply of_user_same. intros k' n. rewrite lookup_delete_Some. split; [naive_solver|].
  intros [Hn Hv]. split; [|done]. split; [|done]. intros <-. pose proof (proj2 (of_user_Some v d k n) (conj Hn Hv)). congruence.
Qed.
Lemma spared_deleteAll : preserves Spared (deleteNotifications others u).
Proof using Huv others_spare.
  unfold deleteNotifications. apply spared_tx. intros d ? d' Hd Hrun. step_inv; simplify_eq. apply of_user_same. intros k n.
  rewrite lookup_delete_many_Some. unfold owned_notification. split; [naive_solver|]. intros [Hn Hv]. split; [|done]. split; [done|].
  rewrite (bool_decide_eq_false_2 (nt_userId n = u)) by congruence. done.
Qed.

Lemma spared_request dv request : preserves Spared (serve_notification others u dv request).
Proof using Huv others_spare.
  unfold serve_notification. apply preserves_bind; [unfold authenticate; preserves; by apply preserves_pure|]. intros pc; cbv beta.
  destruct request; (apply preserves_bind; [|auto with preserves]);
    auto using spared_markAsRead, spared_markAll, spared_delete, spared_deleteAll.
  - apply spared_query.
  - apply spared_query.
Qed.
Lemma spared_validate (sid : socketid) : preserves Spared (validate_client others sid).
Proof using others_spare.
  unfold validate_client. apply preserves_bind; [auto with preserves|].
  intros [[[w dv] c]|]; [|auto with preserves]. case_match; preserves; by apply (preserves_gate (λ d, of_user v d = mine)).
Qed.
End touching.

Lemma validate_client_user {Hscan : ScanOrder} {B} (others : nat → Server B → Server B) sid (s s' : Server B) u dv c client :
  g_sockets (sv_gate s) !! sid = Some (u, dv, c) → validate_client others sid s = (Ok client, s') → client = None ∨ client = Some u.
Proof.
  intros Hs Hrun. unfold validate_client in Hrun. rewrite act_gets_run, Hs in Hrun. server_inv; auto; case_match; auto.
Qed.

(** C34: whatever a user asks for over HTTP or through a socket of theirs (read,
    mark, delete, one or all), the notifications of every other user stay as
    they are, also when a notification id of another user is given, and
    whatever runs between the check and the write. *)
Theorem notification_requests_spare_others {Hscan : ScanOrder} {B} (others : nat → Server B → Server B) u v dv request s :
  u ≠ v → (∀ n s', of_user v (sv_db (others n s')) = of_user v (sv_db s')) →
  of_user v (sv_db (serve_notification others u dv request s).2) = of_user v (sv_db s) ∧
  ∀ sid c, g_sockets (sv_gate s) !! sid = Some (u, dv, c) →
    (∀ id, of_user v (sv_db (handleMarkRead others sid id s).2) = of_user v (sv_db s)) ∧
    of_user v (sv_db (handleMarkAllRead others sid s).2) = of_user v (sv_db s).
Proof.
  intros Huv Hothers. set (mine := of_user v (sv_db s)).
  assert (∀ n s', of_user v (sv_db s') = mine → of_user v (sv_db (others n s')) = mine) as Hspare by (intros n s' <-; apply Hothers).
  assert (∀ sid c {A} (f : option rowid → Act (Server B) A), g_sockets (sv_gate s) !! sid = Some (u, dv, c) →
    preserves (λ s', of_user v (sv_db s') = mine) (f None) → preserves (λ s', of_user v (sv_db s') = mine) (f (Some u)) →
    of_user v (sv_db ((validate_client others sid ≫= f) s).2) = mine) as Hsocket.
  { intros sid c A f Hsid Hnone Hsome. pose proof (spared_validate others v mine Hspare sid s eq_refl) as Hv. unfold mbind, act_bind in *. destruct (validate_client others sid s) as [[client|e] s'] eqn:E; [|done].
    simpl in Hv. destruct (validate_client_user others sid s s' u dv c client Hsid E) as [->| ->]; auto. }
  split; [|intros sid c Hsid; split].
  - by apply (spared_request others u v Huv mine Hspare).
  - intros id. apply (Hsocket sid c); [done|apply preserves_ret|]. apply preserves_bind; [|intros; apply preserves_ret].
    by apply (spared_markAsRead others u v Huv mine Hspare).
  - apply (Hsocket sid c); [done|apply preserves_ret|]. by apply (spared_markAll others u v Huv mine Hspare).
Qed.

(** ** What the list shows *)

Lemma newest_first_total a b : newest_first a b = true ∨ newest_first b a = true.
Proof. unfold newest_first. rewrite !Z.leb_le. lia. Qed.
Lemma newest_first_trans a b c : newest_first a b = true → newest_first b c = true → newest_first a c = true.
Proof. unfold newest_first. rewrite !Z.leb_le. lia. Qed.

(** the list of notifications never fails and shows, newest first and each
    once, rows of the user only (unread ones only, if asked for), at most
    fifty; a row that is left out is no newer than any shown, and is left out
    only when fifty are. *)
Theorem notifications_listed {Hscan : ScanOrder} {B} (others : nat → Server B → Server B) u unreadOnly s :
  let d := sv_db (resumed others s) in
  ∃ rows, getNotifications others u unreadOnly s = (Ok rows, resumed others s) ∧
    StronglySorted (λ a b, newest_first a b = true) rows ∧ NoDup rows.*1 ∧ (length rows <= 50)%nat ∧
    (∀ k n, (k, n) ∈ rows → db_notifications d !! k = Some n ∧ nt_userId n = u ∧ (unreadOnly = true → nt_read n = false)) ∧
    (∀ k n, db_notifications d !! k = Some n → owned_notification u unreadOnly k n = true → (k, n) ∉ rows →
       length rows = 50%nat ∧ ∀ x, x ∈ rows → nt_createdAt n <= nt_createdAt x.2).
Proof.
  intros d. set (all := find_many_by (owned_notification u unreadOnly) newest_first (db_notifications d)).
  exists (take 50 all). assert (StronglySorted (λ a b, newest_first a b = true) all) as Hsorted
    by apply (sort_by_sorted newest_first newest_first_total newest_first_trans).
  rewrite <- (take_drop 50 all) in Hsorted. split_and!.
  - unfold getNotifications. apply sv_query_ok. done.
  - by eapply StronglySorted_app_1_l.
  - rewrite fmap_take. eapply sublist_NoDup; [|apply sublist_take]. apply (rows_NoDup newest_first).
  - rewrite length_take. lia.
  - intros k n Hin. assert ((k, n) ∈ all) as Hall by (apply elem_of_take in Hin as (i & Hi & _); by eapply list_elem_of_lookup_2).
    apply elem_of_rows in Hall as [Hk Hp]. unfold owned_notification in Hp. bool_inv. split_and!; [done|done|].
    intros ->. by destruct (nt_read n).
  - intros k n Hk Hp Hout. assert ((k, n) ∈ all) as Hall by by apply elem_of_rows.
    rewrite <- (take_drop 50 all) in Hall. apply elem_of_app in Hall as [?|Hin]; [done|]. split.
    + assert (0 < length (drop 50 all))%nat as Hlen by (destruct (drop 50 all); [by apply elem_of_nil in Hin|simpl; lia]).
      rewrite length_drop in Hlen. rewrite length_take. lia.
    + intros x Hx. pose proof (StronglySorted_app_1_elem_of (λ a b, newest_first a b = true) _ _ x (k, n) Hsorted Hx Hin) as Hle.
      unfold newest_first in Hle. simpl in Hle. by apply Z.leb_le in Hle.
Qed.

(** ** The unread count *)

Definition unread (u : rowid) (d : DB) : nat := count_where (owned_notification u true) (db_notifications d).
Definition one (b : bool) : nat := if b then 1%nat else 0%nat.

Lemma count_delete {K R} `{Countable K} (p : K → R → bool) (m : gmap K R) k r :
  m !! k = Some r → count_where p m = (one (p k r) + count_where p (delete k m))%nat.
Proof.
  intros Hk. rewrite <- (insert_delete_id m k r Hk) at 1. by rewrite count_where_insert by apply lookup_delete_eq.
Qed.
Lemma count_replace {K R} `{Countable K} (p : K → R → bool) (m : gmap K R) k r r' :
  m !! k = Some r → (count_where p (<[k := r']> m) + one (p k r) = count_where p m + one (p k r'))%nat.
Proof.
  intros Hk. rewrite (count_delete p m k r Hk), (count_delete p (<[k := r']> m) k r' (lookup_insert_eq _ _ _)), delete_insert_eq. lia.
Qed.
Lemma count_none {K R} `{Countable K} (p : K → R → bool) (m : gmap K R) : (∀ k r, m !! k = Some r → p k r = false) → count_where p m = 0%nat.
Proof.
  intros Hp. destruct (decide (count_where p m = 0%nat)) as [?|Hne]; [done|]. apply count_where_pos, exists_where_true in Hne as (k & r & Hk & Hr).
  rewrite (Hp k r Hk) in Hr. done.
Qed.

(** on a server nobody else uses meanwhile, [getUnreadCount] answers the
    number of unread rows; a notification sent to the user makes it one more;
    marking or deleting one makes it one less if that one was unread and leaves
    it otherwise; marking all makes it zero. *)
Theorem unread_count_follows {Hscan : ScanOrder} {B} u (s s' : Server B) :
  getUnreadCount alone u s = (Ok (unread u (sv_db s)), resumed alone s) ∧
  (∀ type title message data k n, sendNotification alone u type title message data k s = (Ok n, s') → unread u (sv_db s') = S (unread u (sv_db s))) ∧
  (∀ k n, markAsRead alone u k s = (Ok n, s') → ∃ before, db_notifications (sv_db s) !! k = Some before ∧
     (unread u (sv_db s') + one (negb (nt_read before)) = unread u (sv_db s))%nat) ∧
  (markAllAsRead alone u s = (Ok (), s') → unread u (sv_db s') = 0%nat) ∧
  (∀ k, deleteNotification alone u k s = (Ok (), s') → ∃ before, db_notifications (sv_db s) !! k = Some before ∧
     (unread u (sv_db s') + one (negb (nt_read before)) = unread u (sv_db s))%nat).
Proof.
  split_and!.
  - by apply sv_query_ok.
  - intros type title message data k n Hrun. unfold sendNotification, create_notification, on_world in Hrun. server_inv.
    injection H0 as <-. bool_inv. option_inv. match goal with H : create_row _ _ _ _ = Some _ |- _ => apply create_row_Some in H as (Hk & _ & ->) end. simplify_eq.
    unfold unread. simpl. rewrite count_where_insert by done. unfold owned_notification at 1. simpl. by rewrite bool_decide_eq_true_2.
  - intros k n Hrun. unfold markAsRead, own_notification in Hrun. server_inv. bool_inv.
    match goal with H : db_notifications _ !! k = Some ?r |- _ => rename H into Hk; rename r into row end. exists row. split; [done|].
    pose proof (count_replace (owned_notification u true) (db_notifications (sv_db s)) k row (row <| nt_read := true |>) Hk) as Hc.
    change (Some x5 = db_notifications (sv_db s) !! k) in H. change (db_notifications (sv_db s) !! k = Some row) in Hk.
    assert (x5 = row) as -> by congruence. unfold owned_notification at 2 4 in Hc. simpl in Hc. rewrite H3, bool_decide_eq_true_2 in Hc by done.
    unfold unread. simpl in *. unfold alone in *. lia.
  - intros Hrun. unfold markAllAsRead in Hrun. server_inv. unfold unread. apply count_none. simpl. intros k r (r0 & Hr0 & ->)%lookup_update_many_Some.
    destruct (owned_notification u true k r0) eqn:E; [|done]. unfold owned_notification in *. simpl. by rewrite andb_false_r.
  - intros k Hrun. unfold deleteNotification, own_notification in Hrun. server_inv. bool_inv.
    match goal with H : Some ?r = _ !! k |- _ => rename H into Hk; rename r into row end.
    change (Some row = db_notifications (sv_db s) !! k) in Hk. exists row. split; [done|].
    pose proof (count_delete (owned_notification u true) (db_notifications (sv_db s)) k row (eq_sym Hk)) as Hc.
    unfold owned_notification at 2 in Hc. rewrite bool_decide_eq_true_2 in Hc by done. unfold unread. simpl in *. unfold alone in *. lia.
Qed.

(** ** On concrete rows *)

Definition demo_note (owner : string) (read : bool) (t : instant) : Notification := mkNotification owner (lit "info") (lit "t") (lit "m") None read t.
Definition demo_notes : DB := empty_db <| db_notifications :=
  {["n1" := demo_note "ann" false 10; "n2" := demo_note "bob" false 20; "n3" := demo_note "ann" false 30; "n4" := demo_note "ann" true 40]} |>.
Definition demo_notes_server : Server unit :=
  mkServer (mkWorld demo_notes []) (mkStorage true (Config.mkStorageCapability true true true) ()) (mkGateway ∅ ∅ ∅ ∅ ∅ ∅ ∅ ∅ ∅ [] {["s" := ("ann", "phone", true)]}) [] 50 0.

Example demo_list : match getNotifications (Hscan := key_order) alone "ann" false demo_notes_server with (Ok rows, _) => rows.*1 | _ => [] end = ["n4"; "n3"; "n1"].
Proof. vm_compute. reflexivity. Qed.
Example demo_foreign : (markAsRead alone "ann" "n2" demo_notes_server).1 = Err NOTIFICATION_NOT_FOUND.
Proof. vm_compute. reflexivity. Qed.

Lemma notification_requests_spare_others_witness :
  of_user "bob" (sv_db (serve_notification (Hscan := key_order) alone "ann" "phone" (NR_delete "n2") demo_notes_server).2) = of_user "bob" demo_notes ∧
  of_user "bob" (sv_db (handleMarkAllRead alone "s" demo_notes_server).2) = of_user "bob" demo_notes.
Proof.
  destruct (notification_requests_spare_others (Hscan := key_order) alone "ann" "bob" "phone" (NR_delete "n2") demo_notes_server) as [H1 H2];
    [done|done|]. split; [exact H1|]. by apply (H2 "s" true).
Defined.
Lemma unread_count_follows_witness : unread "ann" (sv_db (markAsRead alone "ann" "n1" demo_notes_server).2) = 1%nat.
Proof.
  destruct (unread_count_follows (Hscan := key_order) "ann" demo_notes_server (markAsRead alone "ann" "n1" demo_notes_server).2) as (_ & _ & Hread & _).
  destruct (Hread "n1" ("n1", demo_note "ann" true 10)) as (before & Hb & Hc); [vm_compute; reflexivity|].
  injection Hb as <-. change (unread "ann" (sv_db (markAsRead alone "ann" "n1" demo_notes_server).2) + 1 = 2)%nat in Hc. lia.
Defined.
