(* ===== verification/Community.v ===== *)
(** * The community ([community/community.service.ts],
    [community/community.controller.ts], [portal/portal.service.ts]:
    updateProfile, deleteSharedDiscoveries)

    Profiles a user may make public, and the discoveries of the users whose
    profile is: two of the requests are open to everybody. *)

From S2P Require Import Prelude Tables JsText JsNumber Json Schema Storage Presence Server Identity Account Admin.
Local Open Scope Z_scope.

(** [parseInt(text, 10)]; [None] is NaN. *)
Definition parseInt10 (l : text) : option Z :=
  let '(sign, l1) := match trim_start l with
                     | c :: l' => if c =? 45 then (-1, l') else if c =? 43 then (1, l') else (1, c :: l')
                     | [] => (1, [])
                     end in
  let '(n, len, _) := digits 10 0 0 l1 in
  if 0 <? len then Some (sign * n) else None.

(** [UpdateProfileDto]: fields left out, [null] or given *)
Record UpdateProfileDto := mkUpdateProfile {
  pd_displayName : option (option text);
  pd_avatarUrl : option (option text);
  pd_bio : option (option text);
  pd_isPublic : option (option bool);
}.
(** The author that comes with a discovery: uid, username, and the profile's
    name and picture, if there is a profile. *)
Record Author := mkAuthor { ar_id : rowid; ar_uid : text; ar_username : text; ar_profile : option (option text * option text) }.
Record DiscoveryView := mkDiscoveryView { dv_id : rowid; dv_discovery : Discovery; dv_user : Author }.
Record PublicProfile := mkPublicProfile { pp_id : rowid; pp_uid : text; pp_username : text; pp_displayName : option text; pp_avatarUrl : option text;
  pp_bio : option text; pp_createdAt : instant }.
(** [totalPages] is not finite when [limit] is 0. *)
Record DiscoveryPage := mkDiscoveryPage { pg_discoveries : list DiscoveryView; pg_page : Z; pg_limit : Z; pg_total : Z; pg_totalPages : option Z }.

Section community.
Context {Hscan : ScanOrder} {B : Type}.
Variable others : nat → Server B → Server B.
Abbreviation Srv := (Server B).

Definition PROFILE_NOT_FOUND : exc := NotFoundException "Public profile not found".
Definition DISCOVERY_NOT_FOUND : exc := NotFoundException "Discovery not found".
Definition INVALID_QUERY : exc := ErrorException "PrismaClientValidationError".

(** [getPublicProfile] *)
Definition getPublicProfile (userId : rowid) : Act Srv PublicProfile :=
  found ← sv_query others (λ d, p ← db_profiles d !! userId; u ← db_users d !! userId; Some (p, u));
  profile ← act_require_some found PROFILE_NOT_FOUND;
  let '(p, u) := profile in
  act_require (up_isPublic p) PROFILE_NOT_FOUND ;;
  mret (mkPublicProfile userId (u_uid u) (u_username u) (up_displayName p) (up_avatarUrl p) (up_bio p) (u_createdAt u)).

(** [updateProfile], of the service and of the portal: an upsert; a profile
    that may not be made is not changed either. *)
Definition updated_profile (dto : UpdateProfileDto) (isPublic : option bool) (p : UserProfile) : UserProfile :=
  mkUserProfile (default (up_displayName p) (pd_displayName dto)) (default (up_avatarUrl p) (pd_avatarUrl dto))
    (default (up_bio p) (pd_bio dto)) (default (up_isPublic p) isPublic).
Definition updateProfile (userId : rowid) (dto : UpdateProfileDto) : Act Srv UserProfile :=
  act_require (pd_isPublic dto != Some None) INVALID_QUERY ;;
  let isPublic := default None (pd_isPublic dto) in
  sv_tx others (
    row ← gets (λ d, db_profiles d !! userId);
    user ← gets (λ d, is_set (db_users d !! userId));
    require (is_set row || user) (ErrorException "P2003") ;;
    let p := updated_profile dto isPublic (default (mkUserProfile None None None false) row) in
    modify (λ d, d <| db_profiles := <[userId := p]> (db_profiles d) |>) ;;
    mret p).

Definition author (d : DB) (userId : rowid) : option Author :=
  u ← db_users d !! userId;
  Some (mkAuthor userId (u_uid u) (u_username u) ((λ p, (up_displayName p, up_avatarUrl p)) <$> db_profiles d !! userId)).
(** A discovery with its author, whom the foreign key guarantees *)
Definition with_author (d : DB) (kx : rowid * Discovery) : option DiscoveryView :=
  a ← author d (di_userId kx.2); Some (mkDiscoveryView kx.1 kx.2 a).

(** [createDiscovery] *)
Definition createDiscovery (userId : rowid) (title : text) (description : option text) (metadata : json) (newId : rowid) : Act Srv DiscoveryView :=
  now ← sv_clock;
  let row := mkDiscovery userId title description metadata now in
  sv_tx others (
    a ← gets (λ d, author d userId);
    a' ← require_some a (ErrorException "P2003");
    modify_or (λ d, t ← create_row (λ _ _, false) newId row (db_discoveries d); Some (d <| db_discoveries := t |>)) (P2002 "Discovery") ;;
    mret (mkDiscoveryView newId row a')).

(** [where: { user: { profile: { isPublic: true } } }] *)
Definition public_discovery (d : DB) (_ : rowid) (x : Discovery) : bool :=
  match db_profiles d !! di_userId x with Some p => up_isPublic p | None => false end.
Definition newest_discovery (a b : rowid * Discovery) : bool := di_createdAt b.2 <=? di_createdAt a.2.

(** [skip] and [take] of Prisma: a negative [take] takes from the end. *)
Definition prisma_page {A} (skip take_ : Z) (rows : list A) : list A :=
  if 0 <=? take_ then take (Z.to_nat take_) (drop (Z.to_nat skip) rows)
  else reverse (take (Z.to_nat (- take_)) (drop (Z.to_nat skip) (reverse rows))).

(** [getPublicDiscoveries] of the service *)
Definition public_rows (d : DB) : list (rowid * Discovery) := find_many_by (public_discovery d) newest_discovery (db_discoveries d).
Definition getPublicDiscoveries (page limit : option Z) : Act Srv DiscoveryPage :=
  p ← act_require_some page INVALID_QUERY;
  n ← act_require_some limit INVALID_QUERY;
  let skip := (p - 1) * n in
  act_require (0 <=? skip) INVALID_QUERY ;;
  rows ← sv_query others (λ d, omap (with_author d) (prisma_page skip n (public_rows d)));
  total ← sv_query others (λ d, Z.of_nat (count_where (public_discovery d) (db_discoveries d)));
  mret (mkDiscoveryPage rows p n total (if n =? 0 then None else Some (- (- total / n)))).
(** [getPublicDiscoveries] of the controller *)
Definition number_query (q : option text) (absent : Z) : option Z := match q with Some ((_ :: _) as t) => parseInt10 t | _ => Some absent end.
Definition discoveries_request (page limit : option text) : Act Srv DiscoveryPage :=
  getPublicDiscoveries (number_query page 1) (number_query limit 20).

(** [getUserDiscoveries] *)
Definition own_discovery (userId : rowid) (_ : rowid) (x : Discovery) : bool := di_userId x == userId.
Definition getUserDiscoveries (userId : rowid) : Act Srv (list (rowid * Discovery)) :=
  sv_query others (λ d, find_many_by (own_discovery userId) newest_discovery (db_discoveries d)).

(** [deleteDiscovery] *)
Definition deleteDiscovery (userId discoveryId : rowid) : Act Srv unit :=
  row ← sv_query others (λ d, db_discoveries d !! discoveryId);
  discovery ← act_require_some row DISCOVERY_NOT_FOUND;
  act_require (di_userId discovery == userId) DISCOVERY_NOT_FOUND ;;
  sv_tx others (
    row ← gets (λ d, db_discoveries d !! discoveryId);
    require_some row P2025 ;;
    modify (λ d, d <| db_discoveries := delete discoveryId (db_discoveries d) |>)).

(** [deleteSharedDiscoveries] of the portal *)
Definition deleteSharedDiscoveries (userId : rowid) : Act Srv nat :=
  sv_tx others (
    n ← gets (λ d, count_where (own_discovery userId) (db_discoveries d));
    modify (λ d, d <| db_discoveries := delete_many (own_discovery userId) (db_discoveries d) |>) ;;
    mret n).
End community.

(** ** What everybody may see *)

Example parse_plain : parseInt10 (lit " 12abc") = Some 12.
Proof. vm_compute. reflexivity. Qed.
Example parse_negative : parseInt10 (lit "-3") = Some (-3).
Proof. vm_compute. reflexivity. Qed.
Example parse_nothing : parseInt10 (lit "x1") = None.
Proof. vm_compute. reflexivity. Qed.

Lemma elem_of_prisma_page {A} skip n (l : list A) x : x ∈ prisma_page skip n l → x ∈ l.
Proof.
  unfold prisma_page. case_match.
  - intros (i & Hi & _)%elem_of_take. rewrite lookup_drop in Hi. by eapply list_elem_of_lookup_2.
  - rewrite elem_of_reverse. intros (i & Hi & _)%elem_of_take. rewrite lookup_drop in Hi. apply list_elem_of_lookup_2 in Hi. by rewrite elem_of_reverse in Hi.
Qed.

Section public.
Context {Hscan : ScanOrder} {B : Type}.
Variable others : nat → Server B → Server B.
Implicit Types (s : Server B).

(** C35: the two open requests show what the users made public and nothing else:
    a profile is answered exactly when its owner's profile is public, and every
    discovery on any page, whatever page and limit are asked for, is one of a
    user whose profile is public at that moment. *)
Theorem only_public_is_shown s :
  let d := sv_db (resumed others s) in
  (∀ userId, match getPublicProfile others userId s with
    | (Ok view, s') => ∃ p u, db_profiles d !! userId = Some p ∧ up_isPublic p = true ∧ db_users d !! userId = Some u ∧
        view = mkPublicProfile userId (u_uid u) (u_username u) (up_displayName p) (up_avatarUrl p) (up_bio p) (u_createdAt u)
    | (Err e, s') => e = PROFILE_NOT_FOUND ∧ ∀ p u, db_profiles d !! userId = Some p → db_users d !! userId = Some u → up_isPublic p = false
    end) ∧
  (∀ page limit result s', discoveries_request others page limit s = (Ok result, s') → ∀ x, x ∈ pg_discoveries result →
     db_discoveries d !! dv_id x = Some (dv_discovery x) ∧ ar_id (dv_user x) = di_userId (dv_discovery x) ∧
     ∃ p, db_profiles d !! di_userId (dv_discovery x) = Some p ∧ up_isPublic p = true).
Proof.
  intros d. split.
  - intros userId. unfold getPublicProfile. rewrite query_call_run. fold d.
    destruct (db_profiles d !! userId) as [p|] eqn:Hp; [|rewrite act_require_some_stop by done; split; [done|congruence]].
    destruct (db_users d !! userId) as [u|] eqn:Hu; [|rewrite act_require_some_stop by done; split; [done|congruence]].
    rewrite (act_require_some_run _ _ _ _ (p, u)) by done. destruct (up_isPublic p) eqn:Hpub.
    + rewrite act_require_run by done. by exists p, u.
    + rewrite act_require_stop by done. split; [done|]. intros p' u'. congruence.
  - intros page limit result s' Hrun x Hx. unfold discoveries_request, getPublicDiscoveries in Hrun. server_inv.
    cbn [pg_discoveries] in Hx. apply list_elem_of_omap in Hx as ([k y] & Hin & Hw). apply elem_of_prisma_page in Hin.
    unfold public_rows, find_many_by in Hin. rewrite elem_of_sort_by, elem_of_find_many in Hin. destruct Hin as [Hk Hpub].
    unfold with_author, author in Hw. simpl in Hw. option_inv. simplify_eq. simpl. split_and!; [done|done|].
    unfold public_discovery in Hpub. destruct (db_profiles _ !! di_userId y) as [p|] eqn:Hp; [|done]. by exists p.
Qed.

End public.
