(* ===== verification/Export.v ===== *)
(** * The data export ([portal/portal.service.ts]: dataExport and what it uses)

    Everything the server keeps about a user as one JSON document, written in
    chunks: each section is read from the database a hundred rows at a time
    while it is written.  [export_document] is the document that is meant. *)

From S2P Require Import Prelude Tables JsText Json Schema Storage Presence Server Identity Visit Account Admin JsonText Paging.
Local Open Scope Z_scope.

Definition EXPORT_BATCH_SIZE : nat := 100.

(** Columns of the schema that no service of the model reads or writes, and the
    text of a score ([Number.prototype.toString]). *)
Class HiddenColumns := {
  user_updatedAt : rowid → instant;
  profile_id : rowid → rowid;
  presence_id : rowid → rowid;
  friendship_id : rowid * rowid → rowid;
  friendship_createdAt : rowid * rowid → instant;
  blocked_id : rowid * rowid → rowid;
  relationship_createdAt : rowid * rowid → instant;
  relationship_updatedAt : rowid * rowid → instant;
  audit_ipAddressHash : rowid → option text;
  score_text : SpecFloat.spec_float → text;
}.

(** ** Values *)

Definition fields := list (text * jsval).
Definition col (key : string) (v : jsval) : text * jsval := (lit key, v).
Definition vtext (t : text) : jsval := VJson (JStr t).
Definition vstr (s : string) : jsval := vtext (lit s).
Definition vint (n : Z) : jsval := VJson (JInt n).
Definition vbool (b : bool) : jsval := VJson (JBool b).
Definition vnull : jsval := VJson JNull.
Definition vopt {A} (f : A → jsval) (o : option A) : jsval := match o with Some x => f x | None => vnull end.
Definition vtexts (l : list text) : jsval := VArr (vtext <$> l).

(** ** What is left out: [isSecretExportKey], [sanitizeExportValue] *)

Definition SECRET_EXPORT_KEYS : list text := lit <$>
  ["password"; "passwordhash"; "token"; "tokenhash"; "refreshtoken"; "refreshtokenhash"; "previousrefreshtoken"; "previousrefreshtokenhash";
   "csrftoken"; "csrftokenhash"; "accesstoken"; "apikey"; "credential"; "credentials"; "clientsecret"; "privatekey"; "signingkey"; "secret";
   "secrets"; "objectkey"; "objectprefix"].
(** [[a-z0-9]] with the flag [i] *)
Definition is_alnum (c : Z) : bool := ((48 <=? c) && (c <=? 57)) || ((65 <=? c) && (c <=? 90)) || ((97 <=? c) && (c <=? 122)).
Definition lower_ascii (c : Z) : Z := if (65 <=? c) && (c <=? 90) then c + 32 else c.
Definition normalized (key : text) : text := lower_ascii <$> filter (λ c, is_alnum c = true) key.
Definition isSecretExportKey (key : text) : bool := bool_decide (normalized key ∈ SECRET_EXPORT_KEYS).

Fixpoint sanitize_json (v : json) : json :=
  match v with
  | JArr l => JArr (map sanitize_json l)
  | JObj l => JObj (flat_map (λ kv, match kv with (k, v) => if isSecretExportKey k then [] else [(k, sanitize_json v)] end) l)
  | _ => v
  end.
Fixpoint sanitizeExportValue (v : jsval) : jsval :=
  match v with
  | VJson j => VJson (sanitize_json j)
  | VArr l => VArr (map sanitizeExportValue l)
  | VObj l => VObj (flat_map (λ kv, match kv with (k, v) => if isSecretExportKey k then [] else [(k, sanitizeExportValue v)] end) l)
  | VDate _ | VBigInt _ => v
  end.
Definition export_value (v : jsval) : json := to_json (sanitizeExportValue v).
(** [safeExportJson] *)
Definition safeExportJson (v : jsval) : text := stringify (export_value v).

(** ** What is selected of each row *)

Definition request_status (st : FriendRequestStatus) : string :=
  match st with FR_pending => "pending" | FR_accepted => "accepted" | FR_rejected => "rejected" | FR_cancelled => "cancelled" end.
Definition invitation_status (st : InvitationStatus) : string :=
  match st with I_pending => "pending" | I_accepted => "accepted" | I_declined => "declined" | I_cancelled => "cancelled" | I_expired => "expired" end.
Definition pack_status (st : PackStatus) : string :=
  match st with PK_uploading => "uploading" | PK_verifying => "verifying" | PK_active => "active" | PK_superseded => "superseded" | PK_failed => "failed"
  | PK_abandoning => "abandoning" | PK_abandoned => "abandoned" | PK_deleting => "deleting" | PK_draft => "draft" end.
Definition stage_name (st : RelationshipStage) : string :=
  match st with RS_new => "new" | RS_acquainted => "acquainted" | RS_familiar => "familiar" | RS_friendly => "friendly" | RS_close => "close" | RS_trusted => "trusted" end.
Definition scope_name (s : ShareScope) : string := match s with summary_only => "summary_only" | summary_and_source => "summary_and_source" end.
Definition role_name (r : UserRole) : string := match r with USER => "USER" | SUPERADMIN => "SUPERADMIN" end.

(** [withDuration]: [Math.max(0, Math.round(ms / 1000))] *)
Definition durationSeconds (startedAt endedAt : option instant) : jsval :=
  match startedAt, endedAt with
  | Some s, Some e => vint (Z.max 0 ((e - s + 500) / 1000))
  | _, _ => vnull
  end.

Section selects.
Context {Hcols : HiddenColumns}.

(** [EXPORT_ACCOUNT_SELECT] *)
Definition profile_value (userId : rowid) (p : UserProfile) : jsval :=
  VObj [col "id" (vstr (profile_id userId)); col "userId" (vstr userId); col "displayName" (vopt vtext (up_displayName p));
        col "avatarUrl" (vopt vtext (up_avatarUrl p)); col "bio" (vopt vtext (up_bio p)); col "isPublic" (vbool (up_isPublic p))].
Definition presence_value (userId : rowid) (p : Presence) : jsval :=
  VObj [col "id" (vstr (presence_id userId)); col "userId" (vstr userId); col "status" (vstr (Presence.status_name (pr_status p)));
        col "lastSeenAt" (VDate (pr_lastSeenAt p)); col "updatedAt" (VDate (pr_updatedAt p))].
Definition account_value (d : DB) (userId : rowid) (u : User) : jsval :=
  VObj [col "id" (vstr userId); col "uid" (vtext (u_uid u)); col "email" (vtext (u_email u)); col "username" (vtext (u_username u));
        col "friendCode" (vtext (u_friendCode u)); col "role" (vstr (role_name (u_role u)));
        col "accountStatus" (vstr (Admin.status_name (u_accountStatus u))); col "createdAt" (VDate (u_createdAt u));
        col "updatedAt" (VDate (user_updatedAt userId)); col "profile" (vopt (profile_value userId) (db_profiles d !! userId));
        col "presence" (vopt (presence_value userId) (db_presences d !! userId))].

(** [EXPORT_FRIENDSHIP_SELECT], of the pair (userId, friendId) *)
Definition friend_fields (d : DB) (k : rowid) (p : rowid * rowid) : fields :=
  [col "id" (vstr k); col "createdAt" (VDate (friendship_createdAt p));
   col "friend" (vopt (λ u, VObj [col "id" (vstr p.2); col "uid" (vtext (u_uid u)); col "username" (vtext (u_username u));
                                  col "friendCode" (vtext (u_friendCode u))]) (db_users d !! p.2))].
(** [EXPORT_FRIEND_REQUEST_SELECT] *)
Definition request_fields (d : DB) (k : rowid) (r : FriendRequest) : fields :=
  [col "id" (vstr k); col "senderId" (vstr (fr_senderId r)); col "receiverId" (vstr (fr_receiverId r));
   col "status" (vstr (request_status (fr_status r))); col "createdAt" (VDate (fr_createdAt r)); col "updatedAt" (VDate (fr_updatedAt r))].
(** [EXPORT_BLOCKED_USER_SELECT], of the pair (blockerId, blockedId) *)
Definition blocked_fields (d : DB) (k : rowid) (r : (rowid * rowid) * instant) : fields :=
  [col "id" (vstr k); col "blockedId" (vstr r.1.2); col "createdAt" (VDate r.2)].
(** [EXPORT_COMPANION_SELECT] *)
Definition companion_fields (d : DB) (k : rowid) (c : Companion) : fields :=
  [col "id" (vstr k); col "name" (vtext (co_name c)); col "publicDescription" (vopt vtext (co_publicDescription c));
   col "publicTags" (vtexts (co_publicTags c)); col "visibility" (vstr (co_visibility c)); col "published" (vbool (co_published c));
   col "activeAssetPackId" (vopt vstr (co_activeAssetPackId c)); col "createdAt" (VDate (co_createdAt c));
   col "updatedAt" (VDate (co_updatedAt c)); col "publishedAt" (vopt VDate (co_publishedAt c))].
(** [EXPORT_ASSET_PACK_SELECT] *)
Definition pack_fields (d : DB) (k : rowid) (p : AssetPack) : fields :=
  [col "id" (vstr k); col "manifestHash" (vtext (pk_manifestHash p)); col "schemaVersion" (vint (pk_schemaVersion p));
   col "manifest" (VJson (pk_manifest p)); col "status" (vstr (pack_status (pk_status p))); col "totalFiles" (vint (pk_totalFiles p));
   col "totalBytes" (VBigInt (pk_totalBytes p)); col "failureCode" (vopt vstr (pk_failureCode p)); col "createdAt" (VDate (pk_createdAt p));
   col "updatedAt" (VDate (pk_updatedAt p)); col "completedAt" (vopt VDate (pk_completedAt p));
   col "activatedAt" (vopt VDate (pk_activatedAt p)); col "supersededAt" (vopt VDate (pk_supersededAt p))].
(** [EXPORT_ASSET_FILE_SELECT] *)
Definition file_fields (d : DB) (k : rowid) (f : AssetFile) : fields :=
  [col "id" (vstr k); col "relativePath" (vtext (af_relativePath f)); col "mimeType" (vtext (af_mimeType f));
   col "sizeBytes" (VBigInt (af_sizeBytes f)); col "sha256" (vtext (af_sha256 f)); col "category" (vtext (af_category f));
   col "uploaded" (vbool (af_uploaded f)); col "verifiedAt" (vopt VDate (af_verifiedAt f))].
(** [PORTAL_INVITATION_SELECT] *)
Definition invitation_fields (d : DB) (k : rowid) (r : Invitation) : fields :=
  [col "id" (vstr k); col "visitorOwnerUserId" (vstr (inv_visitorOwnerUserId r)); col "hostUserId" (vstr (inv_hostUserId r));
   col "networkCompanionId" (vstr (inv_networkCompanionId r)); col "assetPackSnapshotId" (vstr (inv_assetPackSnapshotId r));
   col "companionName" (vtext (inv_companionName r)); col "companionDescription" (vopt vtext (inv_companionDescription r));
   col "companionTags" (vtexts (inv_companionTags r)); col "status" (vstr (invitation_status (inv_status r)));
   col "expiresAt" (VDate (inv_expiresAt r)); col "respondedAt" (vopt VDate (inv_respondedAt r));
   col "cancelledAt" (vopt VDate (inv_cancelledAt r)); col "createdAt" (VDate (inv_createdAt r)); col "updatedAt" (VDate (inv_updatedAt r))].
(** [PORTAL_SESSION_SELECT], with [withDuration] *)
Definition session_fields (d : DB) (k : rowid) (r : Session) : fields :=
  [col "id" (vstr k); col "invitationId" (vstr (ses_invitationId r)); col "visitorOwnerUserId" (vstr (ses_visitorOwnerUserId r));
   col "hostUserId" (vstr (ses_hostUserId r)); col "hostNetworkCompanionId" (vopt vstr (ses_hostNetworkCompanionId r));
   col "networkCompanionId" (vstr (ses_networkCompanionId r)); col "assetPackSnapshotId" (vstr (ses_assetPackSnapshotId r));
   col "state" (vstr (state_name (ses_state r))); col "readyAt" (vopt VDate (ses_readyAt r)); col "startedAt" (vopt VDate (ses_startedAt r));
   col "endedAt" (vopt VDate (ses_endedAt r)); col "endReason" (vopt vstr (ses_endReason r)); col "failureCode" (vopt vstr (ses_failureCode r));
   col "createdAt" (VDate (ses_createdAt r)); col "updatedAt" (VDate (ses_updatedAt r));
   col "networkCompanion" (vopt (λ c, VObj [col "name" (vtext (co_name c))]) (db_companions d !! ses_networkCompanionId r));
   col "durationSeconds" (durationSeconds (ses_startedAt r) (ses_endedAt r))].
(** [EXPORT_RELATIONSHIP_SELECT], of the pair (companionLowId, companionHighId) *)
Definition side (d : DB) (k : rowid) : jsval :=
  vopt (λ c, VObj [col "id" (vstr k); col "name" (vtext (co_name c)); col "ownerUserId" (vstr (co_ownerUserId c))]) (db_companions d !! k).
Definition relationship_fields (d : DB) (k : rowid) (r : (rowid * rowid) * Relationship) : fields :=
  let '(low, high) := r.1 in
  [col "id" (vstr k); col "companionLowId" (vstr low); col "companionHighId" (vstr high); col "stage" (vstr (stage_name (rel_stage r.2)));
   col "visitCount" (vint (rel_visitCount r.2)); col "interactionCount" (vint (rel_interactionCount r.2));
   col "totalTurnCount" (vint (rel_totalTurnCount r.2)); col "sharedTopicTags" (vtexts (rel_sharedTopicTags r.2));
   col "firstMetAt" (VDate (rel_firstMetAt r.2)); col "lastInteractionAt" (VDate (rel_lastInteractionAt r.2));
   col "createdAt" (VDate (relationship_createdAt r.1)); col "updatedAt" (VDate (relationship_updatedAt r.1));
   col "companionLow" (side d low); col "companionHigh" (side d high);
   col "rapportScore" (VJson (JFrac (score_text (rel_rapportScore r.2)))); col "topicAffinityScore" (VJson (JFrac (score_text (rel_topicAffinityScore r.2))))].
(** every column of a [ShareableTopic] *)
Definition topic_fields (d : DB) (k : rowid) (t : ShareableTopic) : fields :=
  [col "id" (vstr k); col "companionId" (vstr (st_companionId t)); col "title" (vtext (st_title t)); col "summary" (vtext (st_summary t));
   col "tags" (vtexts (st_tags t)); col "sourceUrl" (vopt vtext (st_sourceUrl t)); col "audience" (vstr (st_audience t));
   col "shareScope" (vstr (scope_name (st_shareScope t))); col "allowRecipientSave" (vbool (st_allowRecipientSave t));
   col "eligibleForRandomVisit" (vbool (st_eligibleForRandomVisit t)); col "expiresAt" (vopt VDate (st_expiresAt t));
   col "revokedAt" (vopt VDate (st_revokedAt t)); col "lastUsedAt" (vopt VDate (st_lastUsedAt t));
   col "createdAt" (VDate (st_createdAt t)); col "updatedAt" (VDate (st_updatedAt t))].
(** the select of [visitRelationshipSettlement] *)
Definition settlement_fields (d : DB) (k : rowid) (r : (rowid * (rowid * rowid)) * Settlement) : fields :=
  [col "id" (vstr k); col "sessionId" (vstr r.1.1); col "companionLowId" (vstr r.1.2.1); col "companionHighId" (vstr r.1.2.2);
   col "turnCount" (vint (se_turnCount r.2)); col "topicTags" (vtexts (se_topicTags r.2)); col "createdAt" (VDate (se_createdAt r.2))].
(** [EXPORT_NOTIFICATION_SELECT] *)
Definition notification_fields (d : DB) (k : rowid) (n : Notification) : fields :=
  [col "id" (vstr k); col "type" (vtext (nt_type n)); col "title" (vtext (nt_title n)); col "message" (vtext (nt_message n));
   col "data" (vopt VJson (nt_data n)); col "read" (vbool (nt_read n)); col "createdAt" (VDate (nt_createdAt n))].
(** [EXPORT_DISCOVERY_SELECT] *)
Definition discovery_fields (d : DB) (k : rowid) (x : Discovery) : fields :=
  [col "id" (vstr k); col "title" (vtext (di_title x)); col "description" (vopt vtext (di_description x));
   col "metadata" (VJson (di_metadata x)); col "createdAt" (VDate (di_createdAt x))].
(** [SAFE_DEVICE_SELECT] *)
Definition device_fields (d : DB) (k : rowid) (s : DeviceSession) : fields :=
  [col "id" (vstr k); col "deviceId" (vstr (ds_deviceId s)); col "createdAt" (VDate (ds_createdAt s)); col "lastUsedAt" (VDate (ds_lastUsedAt s));
   col "expiresAt" (VDate (ds_expiresAt s)); col "revokedAt" (vopt VDate (ds_revokedAt s))].
End selects.

(** ** The sections *)

(** One query of the export: a table under its row ids, [where], and what is
    selected of a row. *)
Record Query := mkQuery {
  qu_row : Type;
  qu_table : DB → gmap rowid qu_row;
  qu_where : DB → rowid → qu_row → bool;
  qu_fields : DB → rowid → qu_row → fields;
}.
(** A table the model keys by other columns, under its row ids *)
Definition by_id {K R} `{Countable K} (id : K → R → rowid) (m : gmap K R) : gmap rowid (K * R) :=
  list_to_map ((λ kr, (id kr.1 kr.2, kr)) <$> map_to_list m).
Definition pairs_by_id (id : rowid * rowid → rowid) (X : gset (rowid * rowid)) : gmap rowid (rowid * rowid) :=
  list_to_map ((λ p, (id p, p)) <$> elements X).

Section queries.
Context {Hcols : HiddenColumns}.
Variable userId : rowid.

Definition owns (d : DB) (companionId : rowid) : bool := owned_companion userId d companionId.
Definition friends_query : Query :=
  mkQuery _ (λ d, pairs_by_id friendship_id (db_friendships d)) (λ _ _ p, p.1 == userId) friend_fields.
Definition friendRequests_query : Query :=
  mkQuery _ db_friendRequests (λ _ _ r, (fr_senderId r == userId) || (fr_receiverId r == userId)) request_fields.
Definition blockedUsers_query : Query :=
  mkQuery _ (λ d, by_id (λ k _, blocked_id k) (db_blockedUsers d)) (λ _ _ r, r.1.1 == userId) blocked_fields.
Definition companions_query : Query := mkQuery _ db_companions (λ _ _ c, co_ownerUserId c == userId) companion_fields.
Definition packs_query (companionId : rowid) : Query := mkQuery _ db_assetPacks (λ _ _ p, pk_companionId p == companionId) pack_fields.
Definition files_query (assetPackId : rowid) : Query := mkQuery _ db_assetFiles (λ _ _ f, af_assetPackId f == assetPackId) file_fields.
Definition invitations_query : Query := mkQuery _ db_invitations (λ _ _ r, invitation_of userId r) invitation_fields.
Definition sessions_query : Query := mkQuery _ db_sessions (λ _ _ r, visit_of userId r) session_fields.
Definition relationships_query : Query :=
  mkQuery _ (λ d, by_id (λ _ r, rel_rowId r) (db_relationships d)) (λ d _ r, owns d r.1.1 || owns d r.1.2) relationship_fields.
Definition topics_query : Query := mkQuery _ db_shareableTopics (λ d _ t, owns d (st_companionId t)) topic_fields.
Definition settlements_query : Query :=
  mkQuery _ (λ d, by_id (λ _ r, se_rowId r) (db_settlements d)) (λ d _ r, owns d r.1.2.1 || owns d r.1.2.2) settlement_fields.
Definition notifications_query : Query := mkQuery _ db_notifications (λ _ _ n, nt_userId n == userId) notification_fields.
Definition discoveries_query : Query := mkQuery _ db_discoveries (λ _ _ x, di_userId x == userId) discovery_fields.
Definition devices_query : Query := mkQuery _ db_deviceSessions (λ _ _ s, ds_userId s == userId) device_fields.
End queries.

Definition NEVER_STORED : list string :=
  ["Local Chat"; "Local Memory"; "Local API Keys"; "Local private Discovery"; "Desktop activity history"].

(** ** The generator *)

Section export.
Context {Hscan : ScanOrder} {Hcols : HiddenColumns} {B : Type}.
Variable others : nat → Server B → Server B.
(** The collation of the database on ids. *)
Variable id_le : rowid → rowid → bool.
(** a bound on the rounds of the paging loops *)
Variable fuel : nat.
Abbreviation Srv := (Server B).

(** The generator works on the server and on the chunks it has yielded. *)
Abbreviation Gen A := (Act (Srv * list text) A).
Definition on_server {A} (m : Act Srv A) : Gen A := λ w, let '(r, s) := m w.1 in (r, (s, w.2)).
Definition yield_ (chunk : text) : Gen unit := act_modify (λ w, (w.1, w.2 ++ [chunk])).
(** A key of the document in front of its value *)
Definition key_text (key : string) : text := quote (lit key) ++ lit ":".

Definition by_key {R} (a b : rowid * R) : bool := id_le a.1 b.1.
(** The batch behind a cursor, with [exportCursorPage] *)
Definition fetchBatch (q : Query) (cursor : option rowid) (d : DB) : list (rowid * fields) :=
  (λ kr, (kr.1, qu_fields q d kr.1 kr.2)) <$> take EXPORT_BATCH_SIZE (rows_from (qu_where q d) by_key cursor (qu_table q d)).

(** [for await (const item of batch)] with the comma between items *)
Fixpoint write_items (write : rowid * fields → Gen unit) (first : bool) (batch : list (rowid * fields)) : Gen bool :=
  match batch with
  | [] => mret first
  | item :: batch' => (if first then mret () else yield_ (lit ",")) ;; write item ;; write_items write false batch'
  end.
(** [exportRows], its items written as they come *)
Fixpoint exportRows (rounds : nat) (q : Query) (write : rowid * fields → Gen unit) (cursor : option rowid) (first : bool) : Gen unit :=
  match rounds with
  | O => act_throw (ErrorException "fuel")
  | S rounds' =>
      batch ← on_server (sv_query others (fetchBatch q cursor));
      first' ← write_items write first batch;
      if bool_decide (length batch < EXPORT_BATCH_SIZE)%nat then mret () else
      match fst <$> last batch with
      | Some c => if c == "" then mret () else exportRows rounds' q write (Some c) first'
      | None => mret ()
      end
  end.
Definition stream (q : Query) (write : rowid * fields → Gen unit) : Gen unit :=
  yield_ (lit "[") ;; exportRows fuel q write None true ;; yield_ (lit "]").

(** [streamExportArray] *)
Definition streamExportArray (q : Query) : Gen unit := stream q (λ item, yield_ (safeExportJson (VObj item.2))).
(** [`${safeExportJson(row).slice(0, -1)},"key":`] *)
Definition opened (item : fields) (key : string) : text := removelast (safeExportJson (VObj item)) ++ lit "," ++ key_text key.
(** [streamExportAssetPacks], [streamExportCompanions] *)
Definition streamExportAssetPacks (companionId : rowid) : Gen unit :=
  stream (packs_query companionId) (λ pack,
    yield_ (opened pack.2 "files") ;; streamExportArray (files_query pack.1) ;; yield_ (lit "}")).
Definition streamExportCompanions (userId : rowid) : Gen unit :=
  stream (companions_query userId) (λ companion,
    yield_ (opened companion.2 "assetPacks") ;; streamExportAssetPacks companion.1 ;; yield_ (lit "}")).

(** [yield ',"key":'] *)
Definition yield_key (key : string) : Gen unit := yield_ (lit "," ++ key_text key).

(** [generateDataExport], from [new Date()] on *)
Definition generate_from (userId : rowid) (account : jsval) (now : instant) : Gen unit :=
  yield_ (lit "{" ++ key_text "schemaVersion" ++ lit "2," ++ key_text "generatedAt" ++ safeExportJson (VDate now)) ;;
  yield_ (lit "," ++ key_text "account" ++ safeExportJson account) ;;
  yield_key "friends" ;; streamExportArray (friends_query userId) ;;
  yield_key "friendRequests" ;; streamExportArray (friendRequests_query userId) ;;
  yield_key "blockedUsers" ;; streamExportArray (blockedUsers_query userId) ;;
  yield_key "companions" ;; streamExportCompanions userId ;;
  yield_key "visitInvitations" ;; streamExportArray (invitations_query userId) ;;
  yield_key "visitSessions" ;; streamExportArray (sessions_query userId) ;;
  yield_key "companionRelationships" ;; streamExportArray (relationships_query userId) ;;
  yield_key "shareableTopics" ;; streamExportArray (topics_query userId) ;;
  yield_key "visitRelationshipSettlements" ;; streamExportArray (settlements_query userId) ;;
  yield_key "notifications" ;; streamExportArray (notifications_query userId) ;;
  yield_key "sharedDiscoveries" ;; streamExportArray (discoveries_query userId) ;;
  yield_key "deviceSessions" ;; streamExportArray (devices_query userId) ;;
  yield_key "neverStored" ;; yield_ (safeExportJson (VArr (vstr <$> NEVER_STORED))) ;;
  yield_ (lit "," ++ key_text "complete" ++ lit "true}").

(** [generateDataExport] *)
Definition generateDataExport (userId : rowid) (account : jsval) : Gen unit := on_server sv_clock ≫= generate_from userId account.

(** [Readable.from(generator)], read to its end: the chunks *)
Definition read_to_end (g : Gen unit) : Act Srv (list text) := λ s,
  match g (s, []) with
  | (Ok _, (s', chunks)) => (Ok chunks, s')
  | (Err e, (s', _)) => (Err e, s')
  end.
(** [dataExport] *)
Definition dataExport (userId : rowid) : Act Srv (list text) :=
  found ← sv_query others (λ d, account_value d userId <$> db_users d !! userId);
  account ← act_require_some found UnauthorizedException;
  read_to_end (generateDataExport userId account).
End export.

(** ** The document that is meant *)

Section document.
Context {Hscan : ScanOrder} {Hcols : HiddenColumns}.
Variable id_le : rowid → rowid → bool.
Variable d : DB.

(** The rows of a query, in the order of their ids, as the export shows them. *)
Definition all_rows (q : Query) : list (rowid * fields) :=
  (λ kr, (kr.1, qu_fields q d kr.1 kr.2)) <$> find_many_by (qu_where q d) (by_key id_le) (qu_table q d).
Definition shown (item : fields) : list (text * json) := match export_value (VObj item) with JObj l => l | _ => [] end.
Definition section (q : Query) : json := JArr ((λ r, JObj (shown r.2)) <$> all_rows q).
Definition packs_section (companionId : rowid) : json :=
  JArr ((λ r, JObj (shown r.2 ++ [(lit "files", section (files_query r.1))])) <$> all_rows (packs_query companionId)).
Definition companions_section (userId : rowid) : json :=
  JArr ((λ r, JObj (shown r.2 ++ [(lit "assetPacks", packs_section r.1)])) <$> all_rows (companions_query userId)).

Definition export_document (userId : rowid) (account : jsval) (now : instant) : json := JObj (
  (λ kv, (lit kv.1, kv.2)) <$>
  [("schemaVersion", JInt 2); ("generatedAt", export_value (VDate now)); ("account", export_value account);
   ("friends", section (friends_query userId)); ("friendRequests", section (friendRequests_query userId));
   ("blockedUsers", section (blockedUsers_query userId)); ("companions", companions_section userId);
   ("visitInvitations", section (invitations_query userId)); ("visitSessions", section (sessions_query userId));
   ("companionRelationships", section (relationships_query userId)); ("shareableTopics", section (topics_query userId));
   ("visitRelationshipSettlements", section (settlements_query userId)); ("notifications", section (notifications_query userId));
   ("sharedDiscoveries", section (discoveries_query userId)); ("deviceSessions", section (devices_query userId));
   ("neverStored", export_value (VArr (vstr <$> NEVER_STORED))); ("complete", JBool true)]).
End document.
