(* ===== verification/ExportSafety.v ===== *)
(** * The data export: what is written

    The chunks of the export, put together, are the JSON text of the document
    that is meant: every row of the user once, whatever the number of batches,
    and no secret at any depth. *)

From stdpp Require Import pretty.
From S2P Require Import Prelude Tables JsText Json Schema Storage Presence Server Identity Visit Account Admin JsonText Paging Export.
Local Open Scope Z_scope.

(** ** Joining *)

Definition tails (parts : list text) : text := parts ≫= λ x, 44 :: x.
Lemma tails_cons x parts : tails (x :: parts) = 44 :: x ++ tails parts.
Proof. done. Qed.
Lemma join_tails x parts : join (x :: parts) = x ++ tails parts.
Proof.
  revert x. induction parts as [|y parts IH]; intros x; [by rewrite app_nil_r|].
  change (x ++ 44 :: join (y :: parts) = x ++ tails (y :: parts)). by rewrite IH, tails_cons.
Qed.
(** What the loop writes for the items left, when it has written none or some. *)
Definition rest_text (first : bool) (parts : list text) : text := if first then join parts else tails parts.
Lemma rest_text_cons first x parts : rest_text first (x :: parts) = (if first then [] else lit ",") ++ x ++ rest_text false parts.
Proof. destruct first; unfold rest_text; [apply join_tails|apply tails_cons]. Qed.
Lemma rest_text_app first a b : rest_text first (a ++ b) = rest_text first a ++ rest_text (first && bool_decide (a = [])) b.
Proof.
  revert first. induction a as [|x a IH]; intros first.
  - rewrite bool_decide_eq_true_2, andb_true_r by done. by destruct first.
  - rewrite (bool_decide_eq_false_2 (x :: a = [])), andb_false_r by done.
    change ((x :: a) ++ b) with (x :: (a ++ b)). rewrite !rest_text_cons, IH. simpl. by rewrite <- !(assoc_L app).
Qed.

Section export.
Context {Hscan : ScanOrder} {Hcols : HiddenColumns} {B : Type}.
Variable others : nat → Server B → Server B.
Variable id_le : rowid → rowid → bool.
Variable fuel : nat.
Context (id_total : ∀ a b, id_le a b = true ∨ id_le b a = true) (id_trans : ∀ a b c, id_le a b = true → id_le b c = true → id_le a c = true)
        (id_antisym : ∀ a b, id_le a b = true → id_le b a = true → a = b).
(** Nobody writes meanwhile. *)
Context (quiet : ∀ n s, sv_db (others n s) = sv_db s).
Variable d : DB.
Abbreviation Gen A := (Act (Server B * list text) A).

(** [writes g a t]: run on the database [d], the generator [g] yields chunks
    that are together [t], returns [a] and leaves the database. *)
Definition writes {A} (g : Gen A) (a : A) (t : text) : Prop := ∀ s out, sv_db s = d →
  ∃ s' chunks, g (s, out) = (Ok a, (s', out ++ chunks)) ∧ sv_db s' = d ∧ concat chunks = t.

Lemma writes_ret {A} (a : A) : writes (mret a) a [].
Proof. intros s out Hs. exists s, []. by rewrite app_nil_r. Qed.
Lemma writes_yield t : writes (yield_ t) () t.
Proof. intros s out Hs. exists s, [t]. simpl. by rewrite app_nil_r. Qed.
Lemma writes_bind {A C} (g : Gen A) (h : A → Gen C) a c t1 t2 : writes g a t1 → writes (h a) c t2 → writes (g ≫= h) c (t1 ++ t2).
Proof.
  intros Hg Hh s out Hs. destruct (Hg s out Hs) as (s1 & c1 & H1 & Hs1 & <-). destruct (Hh s1 (out ++ c1) Hs1) as (s2 & c2 & H2 & Hs2 & <-).
  exists s2, (c1 ++ c2). rewrite (act_bind_run _ _ _ _ _ H1), H2, concat_app, <- (assoc_L app). done.
Qed.
Lemma writes_query {A} (f : DB → A) : writes (on_server (sv_query others f)) (f d) [].
Proof using quiet.
  intros s out Hs. exists (resumed others s), []. unfold on_server. assert (sv_db (resumed others s) = d) as Hr by (by rewrite <- Hs, <- (quiet (sv_awaits s) s)).
  cbn [fst snd]. rewrite (proj2 (sv_query_ok others f s (f d) (resumed others s))) by (split; [by rewrite <- Hr|done]). by rewrite app_nil_r.
Qed.

(** ** Rows *)

Section rows.
Variable q : Query.
Context (Hnames : qu_table q d !! "" = None).
Variable write : rowid * fields → Gen unit.
Variable text_of : rowid * fields → text.
Context (Hwrite : ∀ item, writes (write item) () (text_of item)).

Lemma writes_items first batch :
  writes (write_items write first batch) (first && bool_decide (batch = [])) (rest_text first (text_of <$> batch)).
Proof using Hwrite.
  revert first. induction batch as [|item batch IH]; intros first.
  - rewrite bool_decide_eq_true_2, andb_true_r by done. destruct first; apply writes_ret.
  - rewrite (bool_decide_eq_false_2 (item :: batch = [])), andb_false_r by done. rewrite fmap_cons, rest_text_cons. simpl.
    eapply writes_bind; [destruct first; [apply writes_ret|apply writes_yield]|]. eapply writes_bind; [apply Hwrite|]. apply (IH false).
Qed.

Abbreviation selected := (λ kr : rowid * qu_row q, (kr.1, qu_fields q d kr.1 kr.2)).
Abbreviation order := (by_key id_le).

Lemma order_total (a b : rowid * qu_row q) : order a b = true ∨ order b a = true.
Proof using id_total. apply id_total. Qed.
Lemma order_trans (a b c : rowid * qu_row q) : order a b = true → order b c = true → order a c = true.
Proof using id_trans. apply id_trans. Qed.
Lemma order_antisym (a b : rowid * qu_row q) : order a b = true → order b a = true → a.1 = b.1.
Proof using id_antisym. apply id_antisym. Qed.

Lemma writes_exportRows rounds cursor first l rest :
  (length rest < rounds)%nat → find_many_by (qu_where q d) order (qu_table q d) = l ++ rest →
  rows_from (qu_where q d) order cursor (qu_table q d) = rest →
  writes (exportRows others id_le rounds q write cursor first) () (rest_text first ((λ kr, text_of (selected kr)) <$> rest)).
Proof using All.
  revert cursor first l rest. induction rounds as [|rounds IH]; intros cursor first l rest Hlen Hl Hrest; [lia|]. cbn [exportRows].
  rewrite <- (app_nil_l (rest_text _ _)). eapply writes_bind; [apply writes_query|].
  unfold fetchBatch. rewrite Hrest. set (batch := selected <$> take EXPORT_BATCH_SIZE rest).
  assert (length batch = Nat.min EXPORT_BATCH_SIZE (length rest)) as Hbatch by (unfold batch; by rewrite length_fmap, length_take).
  rewrite <- (take_drop EXPORT_BATCH_SIZE rest) at 1. rewrite fmap_app, rest_text_app.
  eapply writes_bind.
  { replace ((λ kr, text_of (selected kr)) <$> take EXPORT_BATCH_SIZE rest) with (text_of <$> batch) by (unfold batch; by rewrite <- list_fmap_compose).
    apply writes_items. }
  rewrite Hbatch. case_bool_decide as Hshort.
  - rewrite drop_ge by lia. destruct (first && _); apply writes_ret.
  - destruct (next_page order order_total order_trans order_antisym (qu_where q d) (qu_table q d) EXPORT_BATCH_SIZE l rest) as (c & Hc & Hrow & Hnext);
      [unfold EXPORT_BATCH_SIZE; lia|done|lia|].
    unfold batch. rewrite fmap_last, Hc. simpl. rewrite bool_decide_eq_false_2 by (intros Heq; rewrite Heq, Hnames in Hrow; done).
    assert (first && bool_decide (batch = []) = first && bool_decide ((λ kr, text_of (selected kr)) <$> take EXPORT_BATCH_SIZE rest = [])) as Hfirst.
    { f_equal. apply bool_decide_ext. unfold batch. by destruct (take EXPORT_BATCH_SIZE rest). }
    fold batch. rewrite Hfirst. apply (IH (Some c.1) _ (l ++ take EXPORT_BATCH_SIZE rest)); [rewrite length_drop; unfold EXPORT_BATCH_SIZE in *; lia| |done].
    by rewrite <- (assoc_L app), take_drop.
Qed.

Lemma writes_stream : (length (all_rows id_le d q) < fuel)%nat →
  writes (stream others id_le fuel q write) () (lit "[" ++ join (text_of <$> all_rows id_le d q) ++ lit "]").
Proof using All.
  intros Hlen. unfold stream. eapply writes_bind; [apply writes_yield|]. eapply writes_bind; [|apply writes_yield].
  unfold all_rows in *. rewrite length_fmap in Hlen. rewrite <- list_fmap_compose. by apply (writes_exportRows fuel None true []).
Qed.
End rows.

(** ** Sections *)

Lemma safeExportJson_obj item : safeExportJson (VObj item) = stringify (JObj (shown item)).
Proof. done. Qed.
Lemma stringify_section {A} (l : list A) (f : A → json) (g : A → text) : (∀ x, x ∈ l → g x = stringify (f x)) →
  lit "[" ++ join (g <$> l) ++ lit "]" = stringify (JArr (f <$> l)).
Proof. intros Hg. rewrite stringify_arr, <- list_fmap_compose. do 3 f_equal. apply list_fmap_ext. intros i x Hx. by apply Hg, (list_elem_of_lookup_2 _ i). Qed.

(** What the loops need of a query: ids that are no empty texts, and fuel. *)
Definition fits (q : Query) : Prop := qu_table q d !! "" = None ∧ (size (qu_table q d) < fuel)%nat.
Lemma length_all_rows q : (length (all_rows id_le d q) <= size (qu_table q d))%nat.
Proof.
  unfold all_rows, find_many_by. rewrite length_fmap, (sort_by_perm (by_key id_le)). unfold find_many.
  etrans; [apply length_filter|]. by rewrite scan_perm, length_map_to_list.
Qed.

Lemma writes_array q : fits q → writes (streamExportArray others id_le fuel q) () (stringify (section id_le d q)).
Proof using All.
  intros [Hnames Hlen]. pose proof (length_all_rows q). unfold section. rewrite <- (stringify_section _ _ (λ item, safeExportJson (VObj item.2))) by done.
  unfold streamExportArray. apply writes_stream; [done| |lia]. intros item. apply writes_yield.
Qed.

(** An object with one more property, spliced behind its own. *)
Lemma opened_text item key v : shown item ≠ [] →
  opened item key ++ stringify v ++ lit "}" = stringify (JObj (shown item ++ [(lit key, v)])).
Proof.
  intros Hne. unfold opened. rewrite safeExportJson_obj, !stringify_obj, fmap_app.
  change (123 :: join (member <$> shown item) ++ [125]) with ((123 :: join (member <$> shown item)) ++ [125]). rewrite removelast_last.
  rewrite join_app; [|intros Hn%fmap_nil_inv; exact (Hne Hn)|done]. change (join (member <$> [(lit key, v)])) with (quote (lit key) ++ 58 :: stringify v).
  unfold key_text. change (lit ",") with [44]. change (lit ":") with [58]. change (lit "}") with [125].
  by repeat (rewrite <- ?(assoc_L app); cbn [app]).
Qed.

(** A section whose rows carry another section behind their own fields. *)
Lemma writes_nested q key (sub : rowid → Gen unit) (value : rowid → json) :
  fits q → (∀ item, item ∈ all_rows id_le d q → shown item.2 ≠ []) → (∀ k, writes (sub k) () (stringify (value k))) →
  writes (stream others id_le fuel q (λ item, yield_ (opened item.2 key) ;; sub item.1 ;; yield_ (lit "}"))) ()
    (stringify (JArr ((λ r, JObj (shown r.2 ++ [(lit key, value r.1)])) <$> all_rows id_le d q))).
Proof using All.
  intros [Hnames Hlen] Hne Hsub. pose proof (length_all_rows q).
  rewrite <- (stringify_section _ _ (λ item, opened item.2 key ++ stringify (value item.1) ++ lit "}")) by (intros x Hx; by apply opened_text, Hne).
  apply writes_stream; [done| |lia]. intros item. eapply writes_bind; [apply writes_yield|]. eapply writes_bind; [apply Hsub|apply writes_yield].
Qed.

Lemma shown_id v l : shown (col "id" v :: l) ≠ [].
Proof. done. Qed.
Lemma elem_of_all_rows q item : item ∈ all_rows id_le d q → ∃ r, item.2 = qu_fields q d item.1 r.
Proof. unfold all_rows. intros ([k r] & -> & _)%list_elem_of_fmap. by exists r. Qed.

Context (Hfiles : ∀ k, fits (files_query k)) (Hpacks : ∀ k, fits (packs_query k)).
Lemma writes_packs companionId : writes (streamExportAssetPacks others id_le fuel companionId) () (stringify (packs_section id_le d companionId)).
Proof using All.
  apply (writes_nested (packs_query companionId) "files" (λ k, streamExportArray others id_le fuel (files_query k)) (λ k, section id_le d (files_query k)));
    [done| |intros k; by apply writes_array]. intros item [r ->]%elem_of_all_rows. apply shown_id.
Qed.
Lemma writes_companions userId : fits (companions_query userId) →
  writes (streamExportCompanions others id_le fuel userId) () (stringify (companions_section id_le d userId)).
Proof using All.
  intros Hc. apply (writes_nested (companions_query userId) "assetPacks" (streamExportAssetPacks others id_le fuel) (packs_section id_le d));
    [done| |intros k; apply writes_packs]. intros item [r ->]%elem_of_all_rows. apply shown_id.
Qed.

(** ** The document *)

(** A key and what is written for its value, as one member behind a comma. *)
Lemma writes_member {C} (key : string) (g : Gen unit) (h : unit → Gen C) c v t :
  writes g () (stringify v) → writes (h ()) c t → writes (yield_key key ≫= λ _, g ≫= h) c ((44 :: member (lit key, v)) ++ t).
Proof.
  intros Hg Hh. replace ((44 :: member (lit key, v)) ++ t) with ((lit "," ++ key_text key) ++ stringify v ++ t).
  - eapply writes_bind; [apply writes_yield|]. by eapply writes_bind.
  - unfold member, key_text. change (lit ",") with [44]. change (lit ":") with [58]. cbn [fst snd].
    by repeat (rewrite <- ?(assoc_L app); cbn [app]).
Qed.

(** The queries of the export, but for those of a companion or a pack *)
Definition plain_queries (userId : rowid) : list Query :=
  [friends_query userId; friendRequests_query userId; blockedUsers_query userId; companions_query userId; invitations_query userId;
   sessions_query userId; relationships_query userId; topics_query userId; settlements_query userId; notifications_query userId;
   discoveries_query userId; devices_query userId].

Lemma first_chunk now : lit "{" ++ key_text "schemaVersion" ++ lit "2," ++ key_text "generatedAt" ++ safeExportJson (VDate now) =
  (123 :: member (lit "schemaVersion", JInt 2)) ++ 44 :: member (lit "generatedAt", export_value (VDate now)).
Proof. reflexivity. Qed.
Lemma account_chunk account : lit "," ++ key_text "account" ++ safeExportJson account = 44 :: member (lit "account", export_value account).
Proof. reflexivity. Qed.
Lemma last_chunk : lit "," ++ key_text "complete" ++ lit "true}" = (44 :: member (lit "complete", JBool true)) ++ [125].
Proof. reflexivity. Qed.

Lemma writes_document userId account now : Forall fits (plain_queries userId) →
  writes (generate_from others id_le fuel userId account now) () (stringify (export_document id_le d userId account now)).
Proof using All.
  intros Hfits. unfold plain_queries in Hfits. rewrite !Forall_cons in Hfits.
  destruct Hfits as (H1 & H2 & H3 & H4 & H5 & H6 & H7 & H8 & H9 & H10 & H11 & H12 & _).
  unfold export_document. rewrite stringify_obj. cbn [fmap list_fmap fst snd]. rewrite join_tails, !tails_cons.
  replace (123 :: _) with (((123 :: member (lit "schemaVersion", JInt 2)) ++ 44 :: member (lit "generatedAt", export_value (VDate now)))
    ++ (44 :: member (lit "account", export_value account)) ++ (44 :: member (lit "friends", section id_le d (friends_query userId)))
    ++ (44 :: member (lit "friendRequests", section id_le d (friendRequests_query userId)))
    ++ (44 :: member (lit "blockedUsers", section id_le d (blockedUsers_query userId)))
    ++ (44 :: member (lit "companions", companions_section id_le d userId))
    ++ (44 :: member (lit "visitInvitations", section id_le d (invitations_query userId)))
    ++ (44 :: member (lit "visitSessions", section id_le d (sessions_query userId)))
    ++ (44 :: member (lit "companionRelationships", section id_le d (relationships_query userId)))
    ++ (44 :: member (lit "shareableTopics", section id_le d (topics_query userId)))
    ++ (44 :: member (lit "visitRelationshipSettlements", section id_le d (settlements_query userId)))
    ++ (44 :: member (lit "notifications", section id_le d (notifications_query userId)))
    ++ (44 :: member (lit "sharedDiscoveries", section id_le d (discoveries_query userId)))
    ++ (44 :: member (lit "deviceSessions", section id_le d (devices_query userId)))
    ++ (44 :: member (lit "neverStored", export_value (VArr (vstr <$> NEVER_STORED))))
    ++ (44 :: member (lit "complete", JBool true)) ++ [125])
    by (repeat (rewrite <- ?(assoc_L app); cbn [app]); reflexivity).
  unfold generate_from. rewrite <- first_chunk, <- account_chunk, <- last_chunk.
  eapply writes_bind; [apply writes_yield|]. eapply writes_bind; [apply writes_yield|].
  do 12 (apply writes_member; [first [by apply writes_companions|by apply writes_array]|]).
  apply writes_member; [apply writes_yield|apply writes_yield].
Qed.
End export.

(** C10: as long as nobody writes meanwhile, the export of an existing account
    ends, and its chunks are together the JSON text of the document that is
    meant: every section with all its rows, in the order of their ids, in
    however many batches they are read. *)
Theorem export_is_the_document {Hscan : ScanOrder} {Hcols : HiddenColumns} {B} (others : nat → Server B → Server B) id_le fuel s userId u :
  (∀ a b, id_le a b = true ∨ id_le b a = true) → (∀ a b c, id_le a b = true → id_le b c = true → id_le a c = true) →
  (∀ a b, id_le a b = true → id_le b a = true → a = b) → (∀ n s', sv_db (others n s') = sv_db s') →
  let d := sv_db s in
  Forall (fits fuel d) (plain_queries userId ++ [packs_query ""; files_query ""]) → db_users d !! userId = Some u →
  ∃ s' chunks, dataExport others id_le fuel userId s = (Ok chunks, s') ∧
    concat chunks = stringify (export_document id_le d userId (account_value d userId u) (sv_now (resumed others s))).
Proof.
  intros Htotal Htrans Hanti Hquiet d Hfits Hu. apply Forall_app in Hfits as [Hplain Hnested].
  rewrite !Forall_cons in Hnested. destruct Hnested as (Hpacks & Hfiles & _).
  assert (sv_db (resumed others s) = d) as Hr by (apply (Hquiet (sv_awaits s) s)).
  unfold dataExport. rewrite query_call_run, Hr, Hu. rewrite (act_require_some_run _ _ _ _ (account_value d userId u)) by done.
  destruct (writes_document others id_le fuel Htotal Htrans Hanti Hquiet d (λ _, Hfiles) (λ _, Hpacks) userId (account_value d userId u)
    (sv_now (resumed others s)) Hplain (resumed others s) [] Hr) as (s' & chunks & Hrun & _ & Htext).
  exists s', chunks. split; [|done]. unfold read_to_end, generateDataExport.
  assert ((on_server sv_clock ≫= generate_from others id_le fuel userId (account_value d userId u)) (resumed others s, []) = (Ok (), (s', chunks))) as ->; [|done].
  exact Hrun.
Qed.

(** ** No secrets *)

(** What an export must not contain, whatever the code compares keys with. *)
Definition secret_names : list string :=
  ["password"; "passwordhash"; "token"; "tokenhash"; "accesstoken"; "refreshtoken"; "refreshtokenhash"; "previousrefreshtoken";
   "previousrefreshtokenhash"; "csrftoken"; "csrftokenhash"; "apikey"; "credential"; "credentials"; "clientsecret"; "privatekey"; "signingkey";
   "secret"; "secrets"; "objectkey"; "objectprefix"].
(** A key spells a name: letter by letter, in either case, passing over what is
    neither a letter nor a digit. *)
Inductive spells : text → text → Prop :=
  | spells_end : spells [] []
  | spells_same c x key name : (48 ≤ x ≤ 57 ∧ c = x) ∨ (97 ≤ x ≤ 122 ∧ (c = x ∨ c = x - 32)) → spells key name → spells (c :: key) (x :: name)
  | spells_mark c key name : ¬ 48 ≤ c ≤ 57 → ¬ 65 ≤ c ≤ 90 → ¬ 97 ≤ c ≤ 122 → spells key name → spells (c :: key) name.

Lemma is_alnum_iff c : is_alnum c = true ↔ 48 ≤ c ≤ 57 ∨ 65 ≤ c ≤ 90 ∨ 97 ≤ c ≤ 122.
Proof. unfold is_alnum. rewrite !orb_true_iff, !andb_true_iff, !Z.leb_le. lia. Qed.
Lemma spells_normalized key name : spells key name → normalized key = name.
Proof.
  unfold normalized. induction 1 as [|c x key name Hc _ IH|c key name H1 H2 H3 _ IH]; [done| |].
  - rewrite filter_cons_True by (apply is_alnum_iff; lia). rewrite fmap_cons, IH. f_equal. unfold lower_ascii.
    destruct (Z.leb_spec 65 c), (Z.leb_spec c 90); simpl; lia.
  - rewrite filter_cons_False by (rewrite is_alnum_iff; lia). done.
Qed.
Lemma not_secret_spells key name : isSecretExportKey key = false → name ∈ secret_names → ¬ spells key (lit name).
Proof.
  intros Hk Hn Hs%spells_normalized. unfold isSecretExportKey in Hk. rewrite Hs in Hk. apply bool_decide_eq_false in Hk. apply Hk.
  assert (Forall (λ n, lit n ∈ SECRET_EXPORT_KEYS) secret_names) as Hall by (apply (bool_decide_unpack _); vm_compute; done).
  rewrite Forall_forall in Hall. by apply Hall.
Qed.
Example spelled_out : spells (lit "refresh-Token") (lit "refreshtoken").
Proof. vm_compute. repeat first [apply spells_end | apply spells_same; [lia|] | apply spells_mark; [lia..|]]. Qed.

Definition no_secret (o : list (text * json)) : Prop := ∀ key value, (key, value) ∈ o → isSecretExportKey key = false.

Lemma no_secret_app a b : no_secret a → no_secret b → no_secret (a ++ b).
Proof. intros Ha Hb k v [?|?]%elem_of_app; [by eapply Ha|by eapply Hb]. Qed.
Lemma no_secret_field (k : text) (v : json) : no_secret (if isSecretExportKey k then [] else [(k, v)]).
Proof.
  destruct (isSecretExportKey k) eqn:E; intros k' v' Hin; [by apply elem_of_nil in Hin|]. apply list_elem_of_singleton in Hin as [= -> ->]. done.
Qed.
Lemma Forall_field (P : json → Prop) (k : text) (v : json) : P v → Forall (λ kv, P kv.2) (if isSecretExportKey k then [] else [(k, v)]).
Proof. intros Hv. destruct (isSecretExportKey k); [constructor|]. by repeat constructor. Qed.

Lemma sanitize_json_safe v : good_objects no_secret (sanitize_json v).
Proof.
  induction v as [|b|n|t|s|l IH|l IH] using json_nested; try by apply good_objects_scalar.
  - simpl. apply good_objects_arr. apply Forall_fmap. eapply Forall_impl; [exact IH|]. done.
  - simpl. apply good_objects_obj. induction IH as [|[k v] l Hv _ IHl]; [by split; [intros k v Hin%elem_of_nil|constructor]|].
    destruct IHl as [H1 H2]. simpl. split; [by apply no_secret_app; [apply no_secret_field|]|].
    apply Forall_app. split; [by apply Forall_field|done].
Qed.

(** Induction through the arrays and objects of a JavaScript value *)
Section jsval_nested.
Variable P : jsval → Prop.
Context (P_json : ∀ v, P (VJson v)) (P_date : ∀ t, P (VDate t)) (P_big : ∀ n, P (VBigInt n)).
Context (P_arr : ∀ l, Forall P l → P (VArr l)) (P_obj : ∀ l, Forall (λ kv, P kv.2) l → P (VObj l)).
Fixpoint jsval_nested (v : jsval) : P v :=
  match v with
  | VJson v => P_json v
  | VDate t => P_date t
  | VBigInt n => P_big n
  | VArr l => P_arr l ((fix go l : Forall P l := match l with [] => Forall_nil_2 _ | v :: l' => Forall_cons_2 _ _ _ (jsval_nested v) (go l') end) l)
  | VObj l => P_obj l ((fix go l : Forall (λ kv, P kv.2) l :=
      match l with [] => Forall_nil_2 _ | kv :: l' => Forall_cons_2 _ _ _ (jsval_nested kv.2) (go l') end) l)
  end.
End jsval_nested.

Lemma export_value_safe v : good_objects no_secret (export_value v).
Proof.
  unfold export_value. induction v as [v|t|n|l IH|l IH] using jsval_nested; try by apply good_objects_scalar.
  - apply sanitize_json_safe.
  - simpl. apply good_objects_arr. do 2 apply Forall_fmap. eapply Forall_impl; [exact IH|]. done.
  - simpl. apply good_objects_obj. induction IH as [|[k v] l Hv _ IHl]; [by split; [intros k v Hin%elem_of_nil|constructor]|].
    destruct IHl as [H1 H2]. simpl. rewrite map_app. split.
    + apply no_secret_app; [|done]. destruct (isSecretExportKey k) eqn:E; simpl; [by intros ? ? ?%elem_of_nil|].
      intros k' v' [= -> ->]%list_elem_of_singleton. done.
    + apply Forall_app. split; [|done]. destruct (isSecretExportKey k); simpl; [constructor|by repeat constructor].
Qed.

Section secrets.
Context {Hscan : ScanOrder} {Hcols : HiddenColumns}.
Variable id_le : rowid → rowid → bool.
Variable d : DB.

Lemma shown_safe item : good_objects no_secret (JObj (shown item)).
Proof. apply (export_value_safe (VObj item)). Qed.
Lemma section_safe q : good_objects no_secret (section id_le d q).
Proof. apply good_objects_arr, Forall_fmap, Forall_forall. intros item _. apply shown_safe. Qed.
Lemma nested_safe (l : list (rowid * fields)) key (f : rowid → json) : isSecretExportKey (lit key) = false → (∀ k, good_objects no_secret (f k)) →
  good_objects no_secret (JArr ((λ r, JObj (shown r.2 ++ [(lit key, f r.1)])) <$> l)).
Proof.
  intros Hkey Hf. apply good_objects_arr, Forall_fmap, Forall_forall. intros item _. simpl.
  destruct (proj1 (good_objects_obj _ _) (shown_safe item.2)) as [H1 H2]. apply good_objects_obj. split.
  - apply no_secret_app; [done|]. intros k v [= -> _]%list_elem_of_singleton. done.
  - apply Forall_app. split; [done|]. apply Forall_singleton, Hf.
Qed.

(** C11: No object anywhere in the exported document, however deep in a manifest,
    in the data of a notification or in a discovery, has a key that spells one of
    the names of credentials, keys, object keys and object prefixes listed in
    [secret_names] - in capitals or small letters, with any other characters than
    letters and digits in between. *)
Theorem export_has_no_secrets userId account now o key value name :
  object_in o (export_document id_le d userId account now) → (key, value) ∈ o → name ∈ secret_names → ¬ spells key (lit name).
Proof.
  intros Ho Hin Hname. apply not_secret_spells; [|exact Hname]. revert o Ho key value Hin. change (good_objects no_secret (export_document id_le d userId account now)).
  unfold export_document. apply good_objects_obj. split.
  - intros key value (kv & [= -> _] & Hkv)%list_elem_of_fmap.
    repeat (apply elem_of_cons in Hkv as [->|Hkv]; [vm_compute; reflexivity|]). by apply elem_of_nil in Hkv.
  - apply Forall_fmap. unfold compose. cbn [fst snd].
    assert (∀ k, good_objects no_secret (packs_section id_le d k)) as Hpacks
      by (intros k; apply (nested_safe _ "files" (λ k, section id_le d (files_query k))); [vm_compute; reflexivity|intros; apply section_safe]).
    repeat apply Forall_cons_2; cbn [fst snd]; try apply Forall_nil_2; try (by apply good_objects_scalar); try apply export_value_safe; try apply section_safe.
    apply (nested_safe _ "assetPacks" (packs_section id_le d)); [vm_compute; reflexivity|done].
Qed.
End secrets.

(** ** On concrete accounts *)

Definition demo_columns : HiddenColumns := {|
  user_updatedAt _ := 0; profile_id k := k +:+ "-p"; presence_id k := k +:+ "-s"; friendship_id p := p.1 +:+ p.2; friendship_createdAt _ := 0;
  blocked_id p := p.1 +:+ p.2; relationship_createdAt _ := 0; relationship_updatedAt _ := 0; audit_ipAddressHash _ := None; score_text _ := lit "0.5" |}.
Definition demo_order (a b : rowid) : bool := text_leb (lit a) (lit b).
Lemma demo_order_total a b : demo_order a b = true ∨ demo_order b a = true.
Proof. apply text_leb_total. Qed.
Lemma demo_order_trans a b c : demo_order a b = true → demo_order b c = true → demo_order a c = true.
Proof. apply text_leb_trans. Qed.
Lemma demo_order_antisym a b : demo_order a b = true → demo_order b a = true → a = b.
Proof. intros Hab Hba. by apply lit_inj, text_leb_antisym. Qed.

Definition demo_data : json := JObj [(lit "n", JInt 1); (lit "refresh-Token", JStr (lit "x")); (lit "deep", JArr [JObj [(lit "objectKey", JNull)]])].
Definition demo_export_db : DB := empty_db
  <| db_users := {["ann" := demo_user "ann"; "bob" := demo_user "bob"]} |>
  <| db_friendships := {[("ann", "bob"); ("bob", "ann")]} |>
  <| db_companions := {["c1" := mkCompanion "ann" (lit "Pip") None [] "friends_only" false false "friends" true None 5 5 None]} |>
  <| db_assetPacks := {["p1" := mkAssetPack "c1" (lit "h") 1 JNull PK_active (lit "x/") 1 9 None None None 6 6 None None None]} |>
  <| db_assetFiles := {["f1" := mkAssetFile "p1" (lit "a.png") (lit "x/a.png") (lit "image/png") 9 (lit "s") (lit "sprite") true None]} |>
  <| db_notifications := {["n1" := mkNotification "ann" (lit "t") (lit "T") (lit "M") (Some demo_data) false 7;
                           "n2" := mkNotification "bob" (lit "t") (lit "T") (lit "M") None false 8]} |>.
Definition demo_server_of (d : DB) : Server unit :=
  mkServer (mkWorld d []) (mkStorage true (Config.mkStorageCapability true true true) ()) (mkGateway ∅ ∅ ∅ ∅ ∅ ∅ ∅ ∅ ∅ [] ∅) [] 1000 0.

Example demo_shown : shown (notification_fields demo_export_db "n1" (mkNotification "ann" (lit "t") (lit "T") (lit "M") (Some demo_data) false 7)) =
  [(lit "id", JStr (lit "n1")); (lit "type", JStr (lit "t")); (lit "title", JStr (lit "T")); (lit "message", JStr (lit "M"));
   (lit "data", JObj [(lit "n", JInt 1); (lit "deep", JArr [JObj []])]); (lit "read", JBool false); (lit "createdAt", JStr (lit "1970-01-01T00:00:00.007Z"))].
Proof. vm_compute. reflexivity. Qed.

Lemma export_is_the_document_witness :
  ∃ s' chunks, dataExport (Hscan := key_order) (Hcols := demo_columns) alone demo_order 5 "ann" (demo_server_of demo_export_db) = (Ok chunks, s') ∧
    concat chunks = stringify (export_document (Hscan := key_order) (Hcols := demo_columns) demo_order demo_export_db "ann"
      (account_value (Hcols := demo_columns) demo_export_db "ann" (demo_user "ann")) 1000).
Proof.
  apply (export_is_the_document (Hscan := key_order) (Hcols := demo_columns) alone demo_order 5 (demo_server_of demo_export_db) "ann" (demo_user "ann")
    demo_order_total demo_order_trans demo_order_antisym (λ n s, eq_refl)); [|vm_compute; reflexivity].
  apply (bool_decide_unpack _). vm_compute. exact I.
Defined.
Lemma export_has_no_secrets_witness : ¬ spells (lit "deep") (lit "objectkey").
Proof.
  apply (export_has_no_secrets (Hscan := key_order) (Hcols := demo_columns) demo_order demo_export_db "ann" (VObj [col "x" (VJson demo_data)]) 0
    [(lit "n", JInt 1); (lit "deep", JArr [JObj []])] (lit "deep") (JArr [JObj []]) "objectkey").
  - eapply in_field with (k := lit "account"); [right; right; left|]. vm_compute. eapply in_field; [left|]. constructor.
  - right. left.
  - apply (bool_decide_unpack _). vm_compute. done.
Defined.

(** ** A row deleted between two batches *)

Definition many_notes (n : nat) : DB := empty_db
  <| db_users := {["ann" := demo_user "ann"]} |>
  <| db_notifications := list_to_map ((λ i, ("n" +:+ pretty (100 + i)%nat, mkNotification "ann" (lit "t") (lit "T") (lit "M") None false 7)) <$> seq 0 n) |>.
(** Another request deletes the hundredth notification while the batch behind it
    is awaited. *)
Definition deletes_cursor (n : nat) (s : Server unit) : Server unit :=
  if bool_decide (n = 11)%nat then
    s <| sv_world := (sv_world s) <| w_db := (sv_db s) <| db_notifications := delete "n199" (db_notifications (sv_db s)) |> |> |>
  else s.
Definition cut_export := dataExport (Hscan := key_order) (Hcols := demo_columns) deletes_cursor demo_order 5 "ann" (demo_server_of (many_notes 103)).

(** The export ends the section there: it is the export of an account that never
    had the last three notifications, and calls itself complete, though they
    are in the database all along. *)
Lemma deleted_cursor_cuts_export :
  match cut_export with
  | (Ok chunks, s') =>
      concat chunks = stringify (export_document (Hscan := key_order) (Hcols := demo_columns) demo_order (many_notes 100) "ann"
        (account_value (Hcols := demo_columns) (many_notes 100) "ann" (demo_user "ann")) 1000)
      ∧ is_Some (db_notifications (sv_db s') !! "n201")
  | _ => False
  end.
Proof. vm_compute. split; [reflexivity|by eexists]. Qed.
