(* ===== verification/PortalLists.v ===== *)
(** * What the portal shows ([portal/portal.service.ts], [portal/portal.controller.ts]: the GET routes)

    The listings of a user's rows with their filters, a page at a time, and the
    views of one row.  A listing is a table, a condition, a date column to sort
    by and what is shown of a row; the id decides ties. *)

From S2P Require Import Prelude Tables JsText JsNumber Json Schema Config Presence Server Visit Account Admin JsonText Paging Redaction DevDebug Export.
Local Open Scope Z_scope.

(** ** Requests *)

(** [PortalListQueryDto], its default direction filled in *)
Record PortalListQueryDto := mkPortalListQueryDto {
  lq_page : option number; lq_limit : option number; lq_direction : SortDirection;
  lq_search : option text; lq_status : option text; lq_dateFrom : option text; lq_dateTo : option text }.
#[export] Instance eta_PortalListQueryDto : Eta PortalListQueryDto := λ r, mkPortalListQueryDto (lq_page r) (lq_limit r)
  (lq_direction r) (lq_search r) (lq_status r) (lq_dateFrom r) (lq_dateTo r).
(** [direction] of a [FriendRequestQueryDto]; its [sortDirection] is the
    [lq_direction] of the rest *)
Inductive RequestDirection := incoming | outgoing.
Record FriendRequestQueryDto := mkFriendRequestQueryDto { fq_direction : RequestDirection; fq_query : PortalListQueryDto }.
Inductive VisitKind := sessions | invitations.
Record PortalVisitQueryDto := mkPortalVisitQueryDto { vq_kind : VisitKind; vq_query : PortalListQueryDto }.

(** ** Helpers of the service *)

Definition is_digit (c : Z) : bool := (48 <=? c) && (c <=? 57).
(** [/^\d{4}-\d{2}-\d{2}$/] *)
Definition date_only (t : text) : bool :=
  match t with
  | [a; b; c; d; h1; e; f; h2; g; h] => forallb is_digit [a; b; c; d; e; f; g; h] && (h1 =? 45) && (h2 =? 45)
  | _ => false
  end.
Definition DAY_MS : Z := 24 * 60 * 60 * 1000.
(** [date.setUTCHours(23, 59, 59, 999)] *)
Definition end_of_day (t : instant) : instant := t / DAY_MS * DAY_MS + (DAY_MS - 1).
(** [endOfDate] *)
Definition endOfDate (parse_date : text → option instant) (value : text) : option instant :=
  (λ date, if date_only value then end_of_day date else date) <$> parse_date value.

(** [dateWhere]: the bounds on [createdAt]; [None] is an invalid date, which
    the query refuses. *)
Record DateWhere := mkDateWhere { dw_gte : option instant; dw_lte : option instant }.
Definition dateWhere (parse_date : text → option instant) (query : PortalListQueryDto) : option DateWhere :=
  gte ← query_date parse_date (lq_dateFrom query);
  lte ← query_date (endOfDate parse_date) (lq_dateTo query);
  Some (mkDateWhere gte lte).
Definition in_dates (w : DateWhere) (createdAt : instant) : bool :=
  match dw_gte w with Some t => t <=? createdAt | None => true end && match dw_lte w with Some t => createdAt <=? t | None => true end.

(** [requireStatus] *)
Definition status_allowed (value : option text) (allowed : list string) : bool := clause value (λ s, bool_decide (s ∈ lit <$> allowed)).
Definition STATUS_FILTER_INVALID : exc := BadRequestException "STATUS_FILTER_INVALID".
Definition status_is (query : PortalListQueryDto) (name : string) : bool := clause (lq_status query) (λ s, s == lit name).

(** [normalizeBigInts]: the big integers of an object and of what it holds.  In an
    array every object is rebuilt from its entries, an array with its indices as
    keys and a date, which has none, as [{}]. *)
Fixpoint normalize_json (v : json) : json :=
  match v with
  | JArr l => JArr (map (λ entry, match entry with
      | JObj m => JObj (map (λ kv, match kv with (k, x) => (k, normalize_json x) end) m)
      | JArr m => JObj ((fix indexed i m := match m with [] => [] | x :: m' => (index_key i, normalize_json x) :: indexed (S i) m' end) 0%nat m)
      | _ => entry
      end) l)
  | JObj l => JObj (map (λ kv, match kv with (k, x) => (k, normalize_json x) end) l)
  | _ => v
  end.
Definition normalize_entry (v : json) : json := match normalize_json (JArr [v]) with JArr [v'] => v' | _ => v end.
Fixpoint normalize_item (v : jsval) : jsval :=
  match v with
  | VBigInt n => VJson (JInt (round_double n))
  | VArr l => VArr (map (λ entry, match entry with
      | VObj m => VObj (map (λ kv, match kv with (k, x) => (k, normalize_item x) end) m)
      | VArr m => VObj ((fix indexed i m := match m with [] => [] | x :: m' => (index_key i, normalize_item x) :: indexed (S i) m' end) 0%nat m)
      | VDate _ => VObj []
      | VJson j => VJson (normalize_entry j)
      | VBigInt _ => entry
      end) l)
  | VObj l => VObj (map (λ kv, match kv with (k, x) => (k, normalize_item x) end) l)
  | VJson j => VJson (normalize_json j)
  | VDate _ => v
  end.
Definition normalizeBigInts (value : fields) : fields := (λ kv, (kv.1, normalize_item kv.2)) <$> value.

(** ** What is shown of a row *)

Section selects.
Context {Hcols : HiddenColumns}.
Implicit Types (d : DB) (k : rowid).

(** [activeForUser]: some user has made the companion the active one. *)
Definition isActive d k : bool := exists_where (λ _ u, u_activeNetworkCompanionId u == Some k) (db_users d).
(** the select of [getCompanion] *)
Definition companion_profile d k (c : Companion) : fields :=
  [col "id" (vstr k); col "name" (vtext (co_name c)); col "publicDescription" (vopt vtext (co_publicDescription c));
   col "publicTags" (vtexts (co_publicTags c)); col "visibility" (vstr (co_visibility c)); col "published" (vbool (co_published c));
   col "randomVisitsEnabled" (vbool (co_randomVisitsEnabled c)); col "randomVisitAudience" (vstr (co_randomVisitAudience c));
   col "allowJoinRequests" (vbool (co_allowJoinRequests c)); col "activeAssetPackId" (vopt vstr (co_activeAssetPackId c));
   col "publishedAt" (vopt VDate (co_publishedAt c)); col "createdAt" (VDate (co_createdAt c)); col "updatedAt" (VDate (co_updatedAt c))].
Definition active_pack d (c : Companion) : option (rowid * AssetPack) :=
  k ← co_activeAssetPackId c; p ← db_assetPacks d !! k; Some (k, p).
(** an item of [listCompanions] *)
Definition companion_item d k (c : Companion) : jsval :=
  VObj (normalizeBigInts (companion_profile d k c ++
    [col "activeAssetPack" (vopt (λ kp, VObj
       [col "status" (vstr (pack_status (pk_status kp.2))); col "totalFiles" (vint (pk_totalFiles kp.2));
        col "totalBytes" (VBigInt (pk_totalBytes kp.2)); col "failureCode" (vopt vstr (pk_failureCode kp.2))]) (active_pack d c));
     col "isActive" (vbool (isActive d k))])).
Definition companion_view d k (c : Companion) : jsval := VObj (companion_profile d k c ++ [col "isActive" (vbool (isActive d k))]).
(** an item of [listAssetPacks] *)
Definition pack_item d k (p : AssetPack) : jsval :=
  VObj (normalizeBigInts
    [col "id" (vstr k); col "companionId" (vstr (pk_companionId p)); col "manifestHash" (vtext (pk_manifestHash p));
     col "schemaVersion" (vint (pk_schemaVersion p)); col "status" (vstr (pack_status (pk_status p))); col "totalFiles" (vint (pk_totalFiles p));
     col "totalBytes" (VBigInt (pk_totalBytes p)); col "failureCode" (vopt vstr (pk_failureCode p)); col "createdAt" (VDate (pk_createdAt p));
     col "updatedAt" (VDate (pk_updatedAt p)); col "completedAt" (vopt VDate (pk_completedAt p));
     col "activatedAt" (vopt VDate (pk_activatedAt p)); col "supersededAt" (vopt VDate (pk_supersededAt p));
     col "_count" (VObj [col "files" (vint (Z.of_nat (count_where (λ _ f, af_assetPackId f == k) (db_assetFiles d))))])]).

(** [hasPublishedCompanion] of an item of [listFriends] *)
Definition active_companion d (u : User) : option (rowid * Companion) :=
  k ← u_activeNetworkCompanionId u; c ← db_companions d !! k; Some (k, c).
Definition hasPublishedCompanion d (u : User) : bool :=
  match active_companion d u with
  | Some (_, c) => co_published c && (co_visibility c == "friends_only") && match co_activeAssetPackId c with Some k => negb (k == "") | None => false end
  | None => false
  end.
(** [...row, ...friend]: the id shown is the friend's *)
Definition names_value d (id : rowid) : jsval :=
  vopt (λ p, VObj [col "displayName" (vopt vtext (up_displayName p)); col "avatarUrl" (vopt vtext (up_avatarUrl p))]) (db_profiles d !! id).
Definition status_value (p : Presence) : jsval := VObj [col "status" (vstr (Presence.status_name (pr_status p))); col "lastSeenAt" (VDate (pr_lastSeenAt p))].
Definition friend_item d k (p : rowid * rowid) : jsval :=
  VObj match db_users d !! p.2 with
       | Some u => [col "id" (vstr p.2); col "createdAt" (VDate (friendship_createdAt p)); col "uid" (vtext (u_uid u));
                    col "username" (vtext (u_username u)); col "friendCode" (vtext (u_friendCode u)); col "profile" (names_value d p.2);
                    col "presence" (vopt status_value (db_presences d !! p.2)); col "hasPublishedCompanion" (vbool (hasPublishedCompanion d u))]
       | None => [col "id" (vstr k); col "createdAt" (VDate (friendship_createdAt p))]
       end.
(** [relation] of [listFriendRequests] *)
Definition party d (id : rowid) : jsval :=
  vopt (λ u, VObj [col "id" (vstr id); col "uid" (vtext (u_uid u)); col "username" (vtext (u_username u)); col "profile" (names_value d id)]) (db_users d !! id).
Definition request_item (dir : RequestDirection) d k (r : FriendRequest) : jsval :=
  VObj [col "id" (vstr k); col "status" (vstr (request_status (fr_status r))); col "createdAt" (VDate (fr_createdAt r));
        col "updatedAt" (VDate (fr_updatedAt r));
        match dir with incoming => col "sender" (party d (fr_senderId r)) | outgoing => col "receiver" (party d (fr_receiverId r)) end].
Definition block_item d k (r : (rowid * rowid) * instant) : jsval :=
  VObj [col "id" (vstr k); col "createdAt" (VDate r.2);
        col "user" (vopt (λ u, VObj [col "id" (vstr r.1.2); col "uid" (vtext (u_uid u)); col "username" (vtext (u_username u))]) (db_users d !! r.1.2))].

(** [PORTAL_RELATIONSHIP_SELECT]: what the export shows without the scores *)
Definition portal_relationship d k (r : (rowid * rowid) * Relationship) : fields := take 14 (relationship_fields d k r).
(** [relationshipPerspective], on the sides of the relationship *)
Definition perspective d (userId : rowid) (r : (rowid * rowid) * Relationship) : rowid * rowid :=
  let '(low, high) := r.1 in
  let own := if owned_companion userId d low then low else high in
  (own, if own == low then high else low).
Definition relationship_item (userId : rowid) d k (r : (rowid * rowid) * Relationship) : fields :=
  portal_relationship d k r ++
  [col "ownCompanion" (side d (perspective d userId r).1); col "remoteCompanion" (side d (perspective d userId r).2)].
End selects.

(** ** The listings *)

Record Listing := mkListing {
  ls_row : Type;
  ls_table : DB → gmap rowid ls_row;
  ls_where : DB → rowid → ls_row → bool;
  ls_stamp : ls_row → instant;
  ls_item : DB → rowid → ls_row → jsval;
}.

Section listings.
Context {Hcols : HiddenColumns}.
(** [ILIKE], as [contains_insensitive pattern column] *)
Variable contains_insensitive : text → text → bool.
Variable userId : rowid.
Variable query : PortalListQueryDto.
Variable dates : DateWhere.

(** [...(query.search ? { OR: [{ column: { contains: query.search.trim() } }, ...] } : {})] *)
Definition search_in (columns : list text) : bool :=
  clause (lq_search query) (λ s, existsb (contains_insensitive (trim s)) columns).
(** [displayName], when the user has one *)
Definition display_name (d : DB) (id : rowid) : list text :=
  match db_profiles d !! id with Some p => match up_displayName p with Some t => [t] | None => [] end | None => [] end.
Definition companion_name (d : DB) (id : rowid) : list text := match db_companions d !! id with Some c => [co_name c] | None => [] end.

Definition companions_listing : Listing := mkListing _ db_companions
  (λ _ _ c, (co_ownerUserId c == userId) && in_dates dates (co_createdAt c)
            && clause (lq_status query) (λ s, Bool.eqb (co_published c) (s == lit "published")) && search_in [co_name c])
  co_updatedAt companion_item.
Definition packs_listing (companionId : rowid) : Listing := mkListing _ db_assetPacks
  (λ _ k p, (pk_companionId p == companionId) && in_dates dates (pk_createdAt p) && status_is query (pack_status (pk_status p))
            && search_in [lit k; pk_manifestHash p])
  pk_createdAt pack_item.
(** [friend: { accountStatus: 'ACTIVE', ... }]; this search is not trimmed *)
Definition friend_where (d : DB) (p : rowid * rowid) (u : User) : bool :=
  (u_accountStatus u == ACTIVE)
  && clause (lq_status query) (λ s, (s == lit "published")
       || match db_presences d !! p.2 with Some r => lit (Presence.status_name (pr_status r)) == s | None => false end)
  && clause (lq_status query) (λ s, (s != lit "published")
       || match active_companion d u with
          | Some (_, c) => co_published c && (co_visibility c == "friends_only") && is_set (co_activeAssetPackId c)
          | None => false
          end)
  && clause (lq_search query) (λ s, existsb (contains_insensitive s) (u_uid u :: u_username u :: display_name d p.2)).
Definition friends_listing : Listing := mkListing _ (λ d, pairs_by_id friendship_id (db_friendships d))
  (λ d _ p, (p.1 == userId) && in_dates dates (friendship_createdAt p)
            && match db_users d !! p.2 with Some u => friend_where d p u | None => false end)
  friendship_createdAt friend_item.
(** [[incoming ? 'sender' : 'receiver']: {...}] *)
Definition party_where (d : DB) (id : rowid) : bool :=
  match db_users d !! id with
  | Some u => (u_accountStatus u == ACTIVE) && negb (is_set (u_deletionRequestedAt u))
              && search_in (lit id :: u_uid u :: u_username u :: display_name d id)
  | None => false
  end.
Definition requests_listing (dir : RequestDirection) : Listing := mkListing _ db_friendRequests
  (λ d _ r, (match dir with incoming => fr_receiverId r == userId | outgoing => fr_senderId r == userId end)
            && status_is query (request_status (fr_status r)) && in_dates dates (fr_createdAt r)
            && party_where d (match dir with incoming => fr_senderId r | outgoing => fr_receiverId r end))
  fr_updatedAt (request_item dir).
Definition blocks_listing : Listing := mkListing _ (λ d, by_id (λ k _, blocked_id k) (db_blockedUsers d))
  (λ d _ r, (r.1.1 == userId) && in_dates dates r.2
            && search_in (match db_users d !! r.1.2 with Some u => [u_uid u; u_username u] | None => [] end))
  snd block_item.
Definition invitations_listing : Listing := mkListing _ db_invitations
  (λ _ k r, invitation_of userId r && status_is query (invitation_status (inv_status r)) && in_dates dates (inv_createdAt r)
            && search_in [lit k; inv_companionName r; lit (inv_visitorOwnerUserId r); lit (inv_hostUserId r)])
  inv_updatedAt (λ d k r, VObj (invitation_fields d k r)).
Definition sessions_listing : Listing := mkListing _ db_sessions
  (λ d k r, visit_of userId r && status_is query (state_name (ses_state r)) && in_dates dates (ses_createdAt r)
            && search_in (lit k :: lit (ses_invitationId r) :: lit (ses_visitorOwnerUserId r) :: lit (ses_hostUserId r)
                 :: companion_name d (ses_networkCompanionId r)))
  ses_updatedAt (λ d k r, VObj (session_fields d k r)).
Definition own_relationship (d : DB) (r : (rowid * rowid) * Relationship) : bool :=
  owned_companion userId d r.1.1 || owned_companion userId d r.1.2.
Definition relationships_listing : Listing := mkListing _ (λ d, by_id (λ _ r, rel_rowId r) (db_relationships d))
  (λ d _ r, own_relationship d r
            && clause (lq_search query) (λ s,
                 existsb (contains_insensitive (trim s)) (companion_name d r.1.1 ++ companion_name d r.1.2)
                 || bool_decide (trim s ∈ rel_sharedTopicTags r.2)))
  (λ r, rel_lastInteractionAt r.2) (λ d k r, VObj (relationship_item userId d k r)).
Definition device_state (now : instant) (s : DeviceSession) (status : text) : bool :=
  if status == lit "active" then negb (is_set (ds_revokedAt s)) && (now <? ds_expiresAt s)
  else if status == lit "revoked" then is_set (ds_revokedAt s)
  else if status == lit "expired" then negb (is_set (ds_revokedAt s)) && (ds_expiresAt s <=? now)
  else true.
Definition devices_listing (now : instant) : Listing := mkListing _ db_deviceSessions
  (λ _ _ s, (ds_userId s == userId) && in_dates dates (ds_createdAt s) && search_in [lit (ds_deviceId s)]
            && clause (lq_status query) (device_state now s))
  ds_lastUsedAt (λ d k s, VObj (device_fields d k s)).
End listings.

(** ** The service *)

(** [PORTAL_SESSION_DETAIL_SELECT] *)
Section detail.
Context {Hscan : ScanOrder} {Hcols : HiddenColumns}.
Variable id_le : rowid → rowid → bool.
Implicit Types (d : DB) (k : rowid).

Definition participant_role (r : ParticipantRole) : string := match r with R_host => "host" | R_visitor => "visitor" | R_guest => "guest" end.
Definition participant_state (st : ParticipantState) : string :=
  match st with P_preparing => "preparing" | P_ready => "ready" | P_active => "active" | P_left => "left" end.
Definition topic_state (st : TopicState) : string := match st with T_queued => "queued" | T_active => "active" | T_completed => "completed" end.
(** the party [visitorOwner], [host] *)
Definition user_names d (id : rowid) : jsval :=
  vopt (λ u, VObj [col "id" (vstr id); col "username" (vtext (u_username u));
                   col "profile" (vopt (λ p, VObj [col "displayName" (vopt vtext (up_displayName p))]) (db_profiles d !! id))]) (db_users d !! id).
Definition named d k : jsval := vopt (λ c, VObj [col "name" (vtext (co_name c))]) (db_companions d !! k).
Definition share_text (sh : Share) : fields :=
  [col "title" (vtext (sh_title sh)); col "summary" (vtext (sh_summary sh)); col "tags" (vtexts (sh_tags sh)); col "sourceUrl" (vopt vtext (sh_sourceUrl sh))].
Definition share_value (sh : Share) : jsval := VObj (col "id" (vstr (sh_rowId sh)) :: share_text sh ++ [col "createdAt" (VDate (sh_createdAt sh))]).
Definition moment_text (m : Moment) : fields :=
  [col "title" (vtext (mo_title m)); col "summary" (vtext (mo_summary m)); col "turnCount" (vint (mo_turnCount m)); col "createdAt" (VDate (mo_createdAt m))].
Definition moment_value (m : Moment) : jsval := VObj (col "id" (vstr (mo_rowId m)) :: moment_text m).
Definition participant_value d (kp : rowid * Participant) : jsval := let '(k, p) := kp in
  VObj [col "id" (vstr k); col "userId" (vstr (par_userId p)); col "networkCompanionId" (vstr (par_networkCompanionId p));
        col "role" (vstr (participant_role (par_role p))); col "state" (vstr (participant_state (par_state p)));
        col "readyAt" (vopt VDate (par_readyAt p)); col "joinedAt" (VDate (par_joinedAt p)); col "leftAt" (vopt VDate (par_leftAt p));
        col "networkCompanion" (named d (par_networkCompanionId p))].
Definition room_topic_value (kt : rowid * RoomTopic) : jsval := let '(k, t) := kt in
  VObj [col "id" (vstr k); col "sequence" (vint (rt_sequence t)); col "state" (vstr (topic_state (rt_state t)));
        col "ownerCompanionId" (vstr (rt_ownerCompanionId t)); col "title" (vtext (rt_title t)); col "summary" (vtext (rt_summary t));
        col "tags" (vtexts (rt_tags t)); col "sourceUrl" (vopt vtext (rt_sourceUrl t)); col "shareScope" (vstr (scope_name (rt_shareScope t)));
        col "allowRecipientSave" (vbool (rt_allowRecipientSave t)); col "minimumTurns" (vint (rt_minimumTurns t));
        col "maximumTurns" (vint (rt_maximumTurns t)); col "startedAt" (vopt VDate (rt_startedAt t)); col "completedAt" (vopt VDate (rt_completedAt t))].
Definition turn_value (kt : rowid * Turn) : jsval := let '(k, t) := kt in
  VObj [col "id" (vstr k); col "sequence" (vint (tu_sequence t)); col "senderUserId" (vstr (tu_senderUserId t));
        col "roomTopicId" (vopt vstr (tu_roomTopicId t)); col "intent" (vstr (tu_intent t)); col "message" (vtext (tu_message t));
        col "emotion" (vopt vstr (tu_emotion t)); col "topic" (vopt vtext (tu_topic t)); col "createdAt" (VDate (tu_createdAt t))].
Definition by_sequence {R} (sequence : R → Z) (a b : rowid * R) : bool := sequence a.2 <=? sequence b.2.
Definition session_detail d k (r : Session) : fields :=
  session_fields d k r ++
  [col "visitorOwner" (user_names d (ses_visitorOwnerUserId r)); col "host" (user_names d (ses_hostUserId r));
   col "hostNetworkCompanion" (vopt (λ c, vopt (λ co, VObj [col "id" (vstr c); col "name" (vtext (co_name co))]) (db_companions d !! c)) (ses_hostNetworkCompanionId r));
   col "socialShare" (vopt share_value (db_shares d !! k));
   col "participants" (VArr (participant_value d <$> find_many_by (λ _ p, par_sessionId p == k) (stamp_le id_le par_joinedAt ASC) (db_participants d)));
   col "roomTopics" (VArr (room_topic_value <$> find_many_by (λ _ t, rt_sessionId t == k) (by_sequence rt_sequence) (db_roomTopics d)));
   col "socialTurns" (VArr (turn_value <$> find_many_by (λ _ t, tu_sessionId t == k) (by_sequence tu_sequence) (db_turns d)));
   col "sharedMoment" (vopt moment_value (db_moments d !! k))].

(** [visits] of [getRelationship]: the last twenty in which both took part *)
Definition took_part d (companionId sessionId : rowid) : bool :=
  exists_where (λ _ p, (par_sessionId p == sessionId) && (par_networkCompanionId p == companionId)) (db_participants d).
Definition shared_visits d (low high : rowid) : list (rowid * Session) :=
  take 20 (find_many_by (λ k _, took_part d low k && took_part d high k) (stamp_le id_le ses_updatedAt DESC) (db_sessions d)).
Definition shared_visit d (ks : rowid * Session) : jsval := let '(k, r) := ks in
  VObj [col "id" (vstr k); col "state" (vstr (state_name (ses_state r))); col "startedAt" (vopt VDate (ses_startedAt r));
        col "endedAt" (vopt VDate (ses_endedAt r)); col "socialShare" (vopt (λ sh, VObj (share_text sh)) (db_shares d !! k));
        col "sharedMoment" (vopt (λ m, VObj (moment_text m)) (db_moments d !! k))].
(** [recentVisits] of [summary] *)
Definition recent_visits d (userId : rowid) : list (rowid * Session) :=
  take 5 (find_many_by (λ _ r, visit_of userId r) (stamp_le id_le ses_updatedAt DESC) (db_sessions d)).
Definition recent_visit d (ks : rowid * Session) : jsval := let '(k, r) := ks in
  VObj [col "id" (vstr k); col "state" (vstr (state_name (ses_state r))); col "networkCompanion" (named d (ses_networkCompanionId r));
        col "startedAt" (vopt VDate (ses_startedAt r)); col "endedAt" (vopt VDate (ses_endedAt r)); col "updatedAt" (VDate (ses_updatedAt r))].
End detail.

Section service.
Context {Hscan : ScanOrder} {Hcols : HiddenColumns} {B : Type}.
Variable others : nat → Server B → Server B.
Variable parse_date : text → option instant.
Variable contains_insensitive : text → text → bool.
(** The collation of the database on ids. *)
Variable id_le : rowid → rowid → bool.
Abbreviation Srv := (Server B).
Implicit Types (userId companionId id : rowid) (query : PortalListQueryDto).

(** [orderBy: stableOrderBy(column, direction)] *)
Definition rows_of (l : Listing) (dir : SortDirection) (d : DB) : list (rowid * ls_row l) :=
  find_many_by (ls_where l d) (stamp_le id_le (ls_stamp l) dir) (ls_table l d).
(** [$transaction([findMany({ where, skip, take, orderBy, select }), count({ where })])],
    each query on the database as it finds it (read committed), and [pageEnvelope] *)
Definition list_page (l : Listing) (dir : SortDirection) (page : BoundedPage) : Act Srv (PageEnvelope jsval) :=
  items ← sv_query others (λ d, (λ kr, ls_item l d kr.1 kr.2) <$> take (Z.to_nat (bp_take page)) (drop (Z.to_nat (bp_skip page)) (rows_of l dir d)));
  total ← sv_query others (λ d, Z.of_nat (count_where (ls_where l d) (ls_table l d)));
  mret (pageEnvelope items total page).

Definition requireStatus (value : option text) (allowed : list string) : Act Srv unit :=
  act_require (status_allowed value allowed) STATUS_FILTER_INVALID.
(** What the methods do with their query, once the listing is known *)
Definition filtered query (l : DateWhere → Listing) : Act Srv (PageEnvelope jsval) :=
  dates ← act_require_some (dateWhere parse_date query) INVALID_DATE;
  list_page (l dates) (lq_direction query) (boundedPage (lq_page query) (lq_limit query)).

Definition requireOwnedCompanion userId companionId : Act Srv unit :=
  found ← sv_query others (λ d, owned_companion userId d companionId);
  act_require found (NotFoundException "Companion not found").

Definition COMPANION_STATUSES : list string := ["published"; "unpublished"].
Definition PACK_STATUSES : list string := ["uploading"; "verifying"; "active"; "superseded"; "failed"; "abandoning"; "abandoned"; "deleting"].
Definition FRIEND_STATUSES : list string := ["online"; "idle"; "offline"; "published"].
Definition REQUEST_STATUSES : list string := ["pending"; "accepted"; "rejected"; "cancelled"].
Definition VISIT_STATUSES (kind : VisitKind) : list string :=
  match kind with
  | invitations => ["pending"; "accepted"; "declined"; "cancelled"; "expired"]
  | sessions => ["preparing"; "ready"; "active"; "ending"; "ended"; "cancelled"; "failed"]
  end.
Definition DEVICE_STATUSES : list string := ["active"; "revoked"; "expired"].

Definition listCompanions userId query : Act Srv (PageEnvelope jsval) :=
  requireStatus (lq_status query) COMPANION_STATUSES ;;
  filtered query (companions_listing contains_insensitive userId query).
Definition listAssetPacks userId companionId query : Act Srv (PageEnvelope jsval) :=
  requireStatus (lq_status query) PACK_STATUSES ;;
  requireOwnedCompanion userId companionId ;;
  filtered query (λ dates, packs_listing contains_insensitive query dates companionId).
Definition listFriends userId query : Act Srv (PageEnvelope jsval) :=
  requireStatus (lq_status query) FRIEND_STATUSES ;;
  filtered query (friends_listing contains_insensitive userId query).
Definition listFriendRequests userId (dto : FriendRequestQueryDto) : Act Srv (PageEnvelope jsval) :=
  requireStatus (lq_status (fq_query dto)) REQUEST_STATUSES ;;
  filtered (fq_query dto) (λ dates, requests_listing contains_insensitive userId (fq_query dto) dates (fq_direction dto)).
Definition listBlocks userId query : Act Srv (PageEnvelope jsval) :=
  filtered query (blocks_listing contains_insensitive userId query).
Definition listVisits userId (dto : PortalVisitQueryDto) : Act Srv (PageEnvelope jsval) :=
  requireStatus (lq_status (vq_query dto)) (VISIT_STATUSES (vq_kind dto)) ;;
  filtered (vq_query dto) (λ dates, match vq_kind dto with
    | invitations => invitations_listing contains_insensitive userId (vq_query dto) dates
    | sessions => sessions_listing contains_insensitive userId (vq_query dto) dates
    end).
(** without [dateWhere] *)
Definition listRelationships userId query : Act Srv (PageEnvelope jsval) :=
  list_page (relationships_listing contains_insensitive userId query) (lq_direction query) (boundedPage (lq_page query) (lq_limit query)).
Definition listDevices userId query : Act Srv (PageEnvelope jsval) :=
  requireStatus (lq_status query) DEVICE_STATUSES ;;
  now ← sv_clock;
  filtered query (λ dates, devices_listing contains_insensitive userId query dates now).

(** *** One row *)

Definition getCompanion userId companionId : Act Srv jsval :=
  found ← sv_query others (λ d, c ← db_companions d !! companionId;
    if co_ownerUserId c == userId then Some (companion_view d companionId c) else None);
  act_require_some found (NotFoundException "Companion not found").

Definition getVisit userId id : Act Srv jsval :=
  session ← sv_query others (λ d, r ← db_sessions d !! id;
    if visit_of userId r then Some (VObj (col "kind" (vstr "session") :: session_detail id_le d id r)) else None);
  match session with
  | Some v => mret v
  | None =>
      invitation ← sv_query others (λ d, r ← db_invitations d !! id;
        if invitation_of userId r then Some (VObj (col "kind" (vstr "invitation") :: invitation_fields d id r)) else None);
      act_require_some invitation (NotFoundException "Visit not found")
  end.

Definition relationship_row userId id (d : DB) : option ((rowid * rowid) * Relationship) :=
  r ← by_id (λ _ r, rel_rowId r) (db_relationships d) !! id;
  if own_relationship userId d r then Some r else None.
Definition getRelationship userId id : Act Srv jsval :=
  found ← sv_query others (λ d, (λ r, (r.1, relationship_item userId d id r)) <$> relationship_row userId id d);
  relationship ← act_require_some found (NotFoundException "Companion relationship not found");
  visits ← sv_query others (λ d, shared_visit d <$> shared_visits id_le d relationship.1.1 relationship.1.2);
  mret (VObj (relationship.2 ++ [col "visits" (VArr visits)])).

(** [summary]: the six queries of [Promise.all], one after the other *)
Definition summary userId : Act Srv jsval :=
  now ← sv_clock;
  found ← sv_query others (λ d, (λ u,
    (match db_presences d !! userId with Some p => status_value p | None => VObj [col "status" (vstr "offline"); col "lastSeenAt" vnull] end,
     vopt (λ kc, VObj [col "id" (vstr kc.1); col "name" (vtext (co_name kc.2)); col "published" (vbool (co_published kc.2));
                       col "activeAssetPack" (vopt (λ kp, VObj [col "id" (vstr kp.1); col "status" (vstr (pack_status (pk_status kp.2)));
                                                                col "failureCode" (vopt vstr (pk_failureCode kp.2))]) (active_pack d kc.2))])
       (active_companion d u))) <$> db_users d !! userId);
  friends ← sv_query others (λ d, size (filter (λ p, p.1 = userId) (db_friendships d)));
  pendingRequests ← sv_query others (λ d, count_where (λ _ r, (fr_receiverId r == userId) && (fr_status r == FR_pending)) (db_friendRequests d));
  recentVisits ← sv_query others (λ d, recent_visit d <$> recent_visits id_le d userId);
  unreadNotifications ← sv_query others (λ d, count_where (λ _ n, (nt_userId n == userId) && negb (nt_read n)) (db_notifications d));
  activeDevices ← sv_query others (λ d, count_where (λ _ s, (ds_userId s == userId) && negb (is_set (ds_revokedAt s)) && (now <? ds_expiresAt s)) (db_deviceSessions d));
  user ← act_require_some found UnauthorizedException;
  mret (VObj [col "presence" user.1; col "friends" (vint (Z.of_nat friends)); col "pendingRequests" (vint (Z.of_nat pendingRequests));
              col "publishedCompanion" user.2; col "recentVisits" (VArr recentVisits);
              col "unreadNotifications" (vint (Z.of_nat unreadNotifications)); col "activeDevices" (vint (Z.of_nat activeDevices))]).

Definition getProfile userId : Act Srv jsval :=
  found ← sv_query others (λ d, (λ u,
    VObj [col "id" (vstr userId); col "uid" (vtext (u_uid u)); col "email" (vtext (u_email u)); col "username" (vtext (u_username u));
          col "friendCode" (vtext (u_friendCode u)); col "role" (vstr (role_name (u_role u))); col "createdAt" (VDate (u_createdAt u));
          col "profile" (vopt (profile_value userId) (db_profiles d !! userId))]) <$> db_users d !! userId);
  act_require_some found UnauthorizedException.

(** The listings of the controller *)
Inductive PortalList :=
  | PL_companions | PL_packs (companionId : rowid) | PL_friends | PL_friendRequests (dir : RequestDirection) | PL_blocks
  | PL_visits (kind : VisitKind) | PL_relationships | PL_devices.
Definition serve_list userId (l : PortalList) query : Act Srv (PageEnvelope jsval) :=
  match l with
  | PL_companions => listCompanions userId query
  | PL_packs companionId => listAssetPacks userId companionId query
  | PL_friends => listFriends userId query
  | PL_friendRequests dir => listFriendRequests userId (mkFriendRequestQueryDto dir query)
  | PL_blocks => listBlocks userId query
  | PL_visits kind => listVisits userId (mkPortalVisitQueryDto kind query)
  | PL_relationships => listRelationships userId query
  | PL_devices => listDevices userId query
  end.
End service.

(** A client that asks [serve] for the pages [pages] and puts them together *)
Fixpoint read_pages {S} (serve : PortalListQueryDto → Act S (PageEnvelope jsval)) (query : PortalListQueryDto) (pages : list (option number)) : Act S (list jsval) :=
  match pages with
  | [] => mret []
  | page :: pages' =>
      env ← serve (query <| lq_page := page |>);
      rest ← read_pages serve query pages';
      mret (pe_items env ++ rest)
  end.
