(* ===== verification/PortalListsSafety.v ===== *)
(** * What the portal's listings show

    Every answer of a listing is that of [answer], a function of the database;
    the pages of a listing are together the rows it lists; and whatever other
    requests do meanwhile, what is shown is the user's own. *)

From stdpp Require Import sorting.
From S2P Require Import Prelude Tables JsText JsNumber Json Schema Config Storage Presence Server Visit Account JsonText Paging DevDebug Export ExportSafety PortalLists.
Local Open Scope Z_scope.

(** ** The listing behind a request *)

Section listing.
Context {Hscan : ScanOrder} {Hcols : HiddenColumns} {B : Type}.
Variable others : nat → Server B → Server B.
Variable parse_date : text → option instant.
Variable contains_insensitive : text → text → bool.
Variable id_le : rowid → rowid → bool.
Variable userId : rowid.
Implicit Types (s : Server B) (l : PortalList) (query : PortalListQueryDto).
Abbreviation serve := (serve_list others parse_date contains_insensitive id_le userId).

Definition listing (l : PortalList) (query : PortalListQueryDto) (now : instant) (dates : DateWhere) : Listing :=
  match l with
  | PL_companions => companions_listing contains_insensitive userId query dates
  | PL_packs companionId => packs_listing contains_insensitive query dates companionId
  | PL_friends => friends_listing contains_insensitive userId query dates
  | PL_friendRequests dir => requests_listing contains_insensitive userId query dates dir
  | PL_blocks => blocks_listing contains_insensitive userId query dates
  | PL_visits sessions => sessions_listing contains_insensitive userId query dates
  | PL_visits invitations => invitations_listing contains_insensitive userId query dates
  | PL_relationships => relationships_listing contains_insensitive userId query
  | PL_devices => devices_listing contains_insensitive userId query dates now
  end.
Definition statuses (l : PortalList) : option (list string) :=
  match l with
  | PL_companions => Some COMPANION_STATUSES | PL_packs _ => Some PACK_STATUSES | PL_friends => Some FRIEND_STATUSES
  | PL_friendRequests _ => Some REQUEST_STATUSES | PL_visits kind => Some (VISIT_STATUSES kind) | PL_devices => Some DEVICE_STATUSES
  | PL_blocks | PL_relationships => None
  end.
Definition status_ok (l : PortalList) (query : PortalListQueryDto) : bool :=
  match statuses l with Some allowed => status_allowed (lq_status query) allowed | None => true end.
Definition companion_ok (l : PortalList) (d : DB) : bool :=
  match l with PL_packs companionId => owned_companion userId d companionId | _ => true end.
(** the dates a listing filters by *)
Definition list_dates (l : PortalList) (query : PortalListQueryDto) : option DateWhere :=
  match l with PL_relationships => Some (mkDateWhere None None) | _ => dateWhere parse_date query end.

Definition shown_rows (ls : Listing) (query : PortalListQueryDto) (d : DB) : list jsval :=
  (λ kr, ls_item ls d kr.1 kr.2) <$> rows_of id_le ls (lq_direction query) d.
(** What a request is answered on a database that nobody changes meanwhile. *)
Definition answer (l : PortalList) (query : PortalListQueryDto) (now : instant) (d : DB) : result (PageEnvelope jsval) :=
  if status_ok l query then
    if companion_ok l d then
      match list_dates l query with
      | Some dates => Ok (page_of (shown_rows (listing l query now dates) query d) (boundedPage (lq_page query) (lq_limit query)))
      | None => Err INVALID_DATE
      end
    else Err (NotFoundException "Companion not found")
  else Err STATUS_FILTER_INVALID.

(** Nothing that a listing reads has changed. *)
Definition still s s' : Prop := sv_db s' = sv_db s ∧ sv_now s' = sv_now s.

Section calm.
Context (calm : ∀ n s, still s (others n s)).

Lemma still_resumed s : still s (resumed others s).
Proof using calm. exact (calm (sv_awaits s) s). Qed.

Lemma length_rows ls dir d : length (rows_of id_le ls dir d) = count_where (ls_where ls d) (ls_table ls d).
Proof using. unfold rows_of, find_many_by. rewrite (sort_by_perm (stamp_le id_le (ls_stamp ls) dir)). apply length_find_many. Qed.
Lemma list_page_run ls dir page s : ∃ s', still s s' ∧
  list_page others id_le ls dir page s = (Ok (page_of ((λ kr, ls_item ls (sv_db s) kr.1 kr.2) <$> rows_of id_le ls dir (sv_db s)) page), s').
Proof using calm.
  exists (resumed others (resumed others s)). destruct (still_resumed s) as [Hd Hn]. destruct (still_resumed (resumed others s)) as [Hd' Hn'].
  split; [split; congruence|]. unfold list_page. rewrite !query_call_run, Hd', Hd. unfold page_of.
  by rewrite fmap_take, fmap_drop, length_fmap, length_rows.
Qed.
Lemma filtered_run query (ls : DateWhere → Listing) s : ∃ s', still s s' ∧
  filtered others parse_date id_le query ls s =
    (match dateWhere parse_date query with
     | Some dates => Ok (page_of (shown_rows (ls dates) query (sv_db s)) (boundedPage (lq_page query) (lq_limit query)))
     | None => Err INVALID_DATE
     end, s').
Proof using calm.
  unfold filtered. destruct (dateWhere parse_date query) as [dates|].
  - rewrite (act_require_some_run _ _ _ _ dates) by done. destruct (list_page_run (ls dates) (lq_direction query) (boundedPage (lq_page query) (lq_limit query)) s) as (s' & Hs & Hrun).
    by exists s'.
  - exists s. by rewrite act_require_some_stop.
Qed.

(** Each listing is answered as [answer] says. *)
Lemma serve_list_run l query s : ∃ s', still s s' ∧ serve l query s = (answer l query (sv_now s) (sv_db s), s').
Proof using calm.
  assert (∀ s0 query' ls, still s s0 → ∃ s', still s s' ∧ filtered others parse_date id_le query' ls s0 =
    (match dateWhere parse_date query' with
     | Some dates => Ok (page_of (shown_rows (ls dates) query' (sv_db s)) (boundedPage (lq_page query') (lq_limit query')))
     | None => Err INVALID_DATE end, s')) as Hrun.
  { intros s0 query' ls Hs0. destruct (filtered_run query' ls s0) as (s' & Hs' & Hf). exists s'.
    destruct Hs0 as [Hd Hn], Hs' as [Hd' Hn']. split; [split; congruence|]. by rewrite Hf, Hd. }
  assert (∀ value allowed (m : Act (Server B) (PageEnvelope jsval)) r, (∃ s', still s s' ∧ m s = (r, s')) →
    ∃ s', still s s' ∧ (requireStatus value allowed ;; m) s = (if status_allowed value allowed then r else Err STATUS_FILTER_INVALID, s')) as Hst.
  { intros value allowed m r Hm. unfold requireStatus. destruct (status_allowed value allowed) eqn:E.
    - by rewrite act_require_run.
    - exists s. split; [done|]. by rewrite act_require_stop. }
  unfold answer, status_ok. destruct l as [|companionId| |dir| |[]| |]; simpl statuses; simpl companion_ok; cbv iota;
    try (apply Hst; by apply Hrun); try (by apply (Hrun s)).
  - apply Hst. destruct (still_resumed s) as [Hd Hn]. destruct (owned_companion userId (sv_db s) companionId) eqn:Hown.
    + rewrite (act_bind_run _ _ _ () (resumed others s)); [by apply Hrun|]. unfold requireOwnedCompanion. by rewrite query_call_run, Hd, Hown.
    + exists (resumed others s). split; [done|]. apply act_bind_throw. unfold requireOwnedCompanion. by rewrite query_call_run, Hd, Hown.
  - destruct (list_page_run (relationships_listing contains_insensitive userId query) (lq_direction query)
      (boundedPage (lq_page query) (lq_limit query)) s) as (s' & Hs' & Hp). by exists s'.
Qed.

(** ** All pages *)

(** The rows of a listing: all that its condition selects, once each, in order. *)
Record ShowsAll (ls : Listing) (dir : SortDirection) (d : DB) (rows : list (rowid * ls_row ls)) : Prop := mkShowsAll {
  sa_all : ∀ k r, (k, r) ∈ rows ↔ ls_table ls d !! k = Some r ∧ ls_where ls d k r = true;
  sa_once : NoDup rows.*1;
  sa_ordered : StronglySorted (λ a b, stamp_le id_le (ls_stamp ls) dir a b = true) rows;
}.

Context (id_total : ∀ a b, id_le a b = true ∨ id_le b a = true) (id_trans : ∀ a b c, id_le a b = true → id_le b c = true → id_le a c = true).

Lemma rows_of_show ls dir d : ShowsAll ls dir d (rows_of id_le ls dir d).
Proof using id_total id_trans.
  split; [intros; apply elem_of_rows|apply rows_NoDup|apply rows_sorted]; [by apply stamp_le_total|by apply stamp_le_trans].
Qed.

(** Pages of the same rows, put together, are the rows. *)
Lemma read_pages_run (answer_page : PortalListQueryDto → Act (Server B) (PageEnvelope jsval)) query s0 rows requests :
  (∀ page s, still s0 s → ∃ s', still s0 s' ∧
     answer_page (query <| lq_page := page |>) s = (Ok (page_of rows (boundedPage page (lq_limit query))), s')) →
  Z.of_nat (length rows) ≤ 2 ^ 52 →
  (λ x, x ≫= safe_integer) <$> requests =
    (λ i, Some (Z.of_nat i + 1)) <$> seq 0 (Z.to_nat (pe_totalPages (page_of rows (boundedPage None (lq_limit query))))) →
  ∀ s, still s0 s → ∃ s', read_pages answer_page query requests s = (Ok rows, s').
Proof using.
  intros Hserve Hlen Hreq s Hs.
  assert (∀ pages s, still s0 s → ∃ s', read_pages answer_page query pages s =
    (Ok (concat ((λ page, pe_items (page_of rows (boundedPage page (lq_limit query)))) <$> pages)), s')) as Hread.
  { intros pages. induction pages as [|page pages IH]; intros s1 Hs1; [by exists s1|].
    destruct (Hserve page s1 Hs1) as (s2 & Hs2 & Hrun). destruct (IH s2 Hs2) as (s3 & Hrest). exists s3. cbn [read_pages].
    rewrite (act_bind_run _ _ _ _ _ Hrun), (act_bind_run _ _ _ _ _ Hrest). done. }
  destruct (Hread requests s Hs) as (s' & ->). exists s'. by rewrite (requested_pages rows (lq_limit query) requests Hlen Hreq).
Qed.

(** C12: while nothing changes, a listing of the portal asked for all its pages,
    as many as any answer says there are, shows every row that the request
    selects, once, in the order of its date column with the id deciding ties. *)
Theorem portal_pages_cover l query s env s1 requests :
  serve l query s = (Ok env, s1) → pe_total env ≤ 2 ^ 52 →
  (λ x, x ≫= safe_integer) <$> requests = (λ i, Some (Z.of_nat i + 1)) <$> seq 0 (Z.to_nat (pe_totalPages env)) →
  ∃ dates s2, list_dates l query = Some dates ∧
    let ls := listing l query (sv_now s) dates in
    ∃ rows, ShowsAll ls (lq_direction query) (sv_db s) rows ∧
      read_pages (serve l) query requests s1 =
        (Ok ((λ kr, ls_item ls (sv_db s) kr.1 kr.2) <$> rows), s2).
Proof using All.
  intros Hserve Htotal Hreq. destruct (serve_list_run l query s) as (s1' & [Hd Hn] & Hrun). rewrite Hserve in Hrun. injection Hrun as Hans <-.
  unfold answer in Hans. destruct (status_ok l query) eqn:Hst; [|done]. destruct (companion_ok l (sv_db s)) eqn:Hown; [|done].
  destruct (list_dates l query) as [dates|] eqn:Hdates; [|done]. injection Hans as Henv.
  set (rows := shown_rows (listing l query (sv_now s) dates) query (sv_db s)) in *.
  subst env. destruct (read_pages_run (serve l) query s rows requests) with s1 as (s2 & Hread); [|exact Htotal|exact Hreq|done|].
  { intros page s2 [Hd2 Hn2]. destruct (serve_list_run l (query <| lq_page := page |>) s2) as (s3 & [Hd3 Hn3] & Hrun).
    exists s3. split; [split; congruence|]. rewrite Hrun. unfold answer. rewrite Hd2, Hn2, Hown.
    assert (status_ok l (query <| lq_page := page |>) = true) as -> by (by destruct l).
    assert (list_dates l (query <| lq_page := page |>) = Some dates) as -> by (by destruct l).
    unfold rows, shown_rows. by destruct l as [| | | | |[]| |]. }
  exists dates, s2. split; [done|]. eexists. split; [apply rows_of_show|]. exact Hread.
Qed.
End calm.
End listing.

(** ** Only the user's own *)

Section own.
Context {Hscan : ScanOrder} {Hcols : HiddenColumns} {B : Type}.
Variable others : nat → Server B → Server B.
Variable parse_date : text → option instant.
Variable contains_insensitive : text → text → bool.
Variable id_le : rowid → rowid → bool.
Variable userId : rowid.
Implicit Types (s : Server B) (l : PortalList) (query : PortalListQueryDto) (d : DB) (item : jsval).

(** An account the user is shown: neither suspended nor being deleted. *)
Definition open_account d (id : rowid) : Prop := ∃ u, db_users d !! id = Some u ∧ u_accountStatus u = ACTIVE ∧ u_deletionRequestedAt u = None.
(** What an item may show, of the database [d]; a companion's owner was checked
    on [d0]. *)
Definition own_item l (d0 d : DB) item : Prop :=
  match l with
  | PL_companions => ∃ k c, db_companions d !! k = Some c ∧ co_ownerUserId c = userId ∧ item = companion_item d k c
  | PL_packs companionId => owned_companion userId d0 companionId = true ∧
      ∃ k p, db_assetPacks d !! k = Some p ∧ pk_companionId p = companionId ∧ item = pack_item d k p
  | PL_friends => ∃ k friend u, (userId, friend) ∈ db_friendships d ∧ db_users d !! friend = Some u ∧ u_accountStatus u = ACTIVE
      ∧ item = friend_item d k (userId, friend)
  | PL_friendRequests incoming => ∃ k r, db_friendRequests d !! k = Some r ∧ fr_receiverId r = userId ∧ open_account d (fr_senderId r)
      ∧ item = request_item incoming d k r
  | PL_friendRequests outgoing => ∃ k r, db_friendRequests d !! k = Some r ∧ fr_senderId r = userId ∧ open_account d (fr_receiverId r)
      ∧ item = request_item outgoing d k r
  | PL_blocks => ∃ k blocked at_, db_blockedUsers d !! (userId, blocked) = Some at_ ∧ item = block_item d k ((userId, blocked), at_)
  | PL_visits sessions => ∃ k r, db_sessions d !! k = Some r ∧ (ses_visitorOwnerUserId r = userId ∨ ses_hostUserId r = userId)
      ∧ item = VObj (session_fields d k r)
  | PL_visits invitations => ∃ k r, db_invitations d !! k = Some r ∧ (inv_visitorOwnerUserId r = userId ∨ inv_hostUserId r = userId)
      ∧ item = VObj (invitation_fields d k r)
  | PL_relationships => ∃ k low high r, db_relationships d !! (low, high) = Some r
      ∧ (owned_companion userId d low = true ∨ owned_companion userId d high = true)
      ∧ item = VObj (relationship_item userId d k ((low, high), r))
  | PL_devices => ∃ k ds, db_deviceSessions d !! k = Some ds ∧ ds_userId ds = userId ∧ item = VObj (device_fields d k ds)
  end.

Lemma by_id_lookup {K R} `{Countable K} (id : K → R → rowid) (m : gmap K R) k a r : by_id id m !! k = Some (a, r) → m !! a = Some r.
Proof.
  unfold by_id. intros Hk%elem_of_list_to_map_2. apply list_elem_of_fmap in Hk as ([a' r'] & [= _ -> ->] & Hin). by apply elem_of_map_to_list.
Qed.
Lemma pairs_by_id_lookup (id : rowid * rowid → rowid) X k p : pairs_by_id id X !! k = Some p → p ∈ X.
Proof.
  unfold pairs_by_id. intros Hk%elem_of_list_to_map_2. apply list_elem_of_fmap in Hk as (p' & [= _ ->] & Hin). by apply elem_of_elements.
Qed.
Lemma party_where_open query d id : party_where contains_insensitive query d id = true → open_account d id.
Proof.
  unfold party_where, open_account. destruct (db_users d !! id) as [u|]; [|done]. intros Hw. exists u. bool_inv.
  split_and!; [done..|by apply eq_None_not_Some].
Qed.

(** What a listing's condition lets through is the user's. *)
Lemma listing_own l query now dates d0 d k r :
  let ls := listing contains_insensitive userId l query now dates in
  companion_ok userId l d0 = true → ls_table ls d !! k = Some r → ls_where ls d k r = true → own_item l d0 d (ls_item ls d k r).
Proof.
  destruct l as [|companionId| |[]| |[]| |]; simpl; intros Hok Hk Hw; bool_inv.
  - by exists k, r.
  - split; [done|]. by exists k, r.
  - destruct r as [me friend]; simpl in *; subst me. destruct (db_users d !! friend) as [u|] eqn:Hu; [|done]. unfold friend_where in *. bool_inv.
    exists k, friend, u. split_and!; [by eapply pairs_by_id_lookup|done..].
  - exists k, r. split_and!; [done|done|by eapply party_where_open|done].
  - exists k, r. split_and!; [done|done|by eapply party_where_open|done].
  - destruct r as [[me blocked] at_]; simpl in *; subst me. exists k, blocked, at_. split; [by eapply by_id_lookup|done].
  - exists k, r. split_and!; [done| |done]. unfold visit_of in *. rewrite orb_true_iff, !bool_decide_eq_true in *. done.
  - exists k, r. split_and!; [done| |done]. unfold invitation_of in *. rewrite orb_true_iff, !bool_decide_eq_true in *. done.
  - destruct r as [[low high] r]; simpl in *. exists k, low, high, r. split_and!; [by eapply by_id_lookup| |done].
    unfold own_relationship in *. rewrite orb_true_iff in *. done.
  - by exists k, r.
Qed.

(** The database that the items of an answer come from: the first thing a
    listing asks for, after the owner of the companion where there is one. *)
Definition owner_db s : DB := sv_db (resumed others s).
Definition items_db l s : DB := match l with PL_packs _ => sv_db (resumed others (resumed others s)) | _ => sv_db (resumed others s) end.

Lemma list_page_items ls dir page s env s' : list_page others id_le ls dir page s = (Ok env, s') →
  pe_items env = (λ kr, ls_item ls (sv_db (resumed others s)) kr.1 kr.2) <$>
    take (Z.to_nat (bp_take page)) (drop (Z.to_nat (bp_skip page)) (rows_of id_le ls dir (sv_db (resumed others s)))).
Proof. unfold list_page. intros. by server_inv. Qed.
Lemma filtered_items query (f : DateWhere → Listing) s env s' : filtered others parse_date id_le query f s = (Ok env, s') →
  ∃ dates, list_page others id_le (f dates) (lq_direction query) (boundedPage (lq_page query) (lq_limit query)) s = (Ok env, s').
Proof. unfold filtered. intros. server_inv. eauto. Qed.
Lemma serve_list_items l query s env s' :
  serve_list others parse_date contains_insensitive id_le userId l query s = (Ok env, s') →
  companion_ok userId l (owner_db s) = true ∧ ∃ now dates s1, sv_db (resumed others s1) = items_db l s ∧
    list_page others id_le (listing contains_insensitive userId l query now dates) (lq_direction query) (boundedPage (lq_page query) (lq_limit query)) s1 = (Ok env, s').
Proof.
  assert (∀ s1 query' (f : DateWhere → Listing), filtered others parse_date id_le query' f s1 = (Ok env, s') → ∃ dates,
    list_page others id_le (f dates) (lq_direction query') (boundedPage (lq_page query') (lq_limit query')) s1 = (Ok env, s')) as Hf
    by (intros *; apply filtered_items).
  assert (∀ value allowed (m : Act (Server B) (PageEnvelope jsval)) s1, (requireStatus value allowed ;; m) s1 = (Ok env, s') → m s1 = (Ok env, s')) as Hst.
  { intros value allowed m s1. unfold requireStatus. destruct (status_allowed value allowed) eqn:E; [by rewrite act_require_run|by rewrite act_require_stop]. }
  destruct l as [|companionId| |dir| |[]| |]; intros H; cbn [serve_list] in H;
    try (first [apply Hst in H; apply Hf in H as (dates & H)|apply Hf in H as (dates & H)]; split; [done|]; by exists 0, dates, s).
  - apply Hst in H. unfold owner_db. cbn [companion_ok]. unfold requireOwnedCompanion in H.
    destruct (owned_companion userId (sv_db (resumed others s)) companionId) eqn:Hown.
    + rewrite (act_bind_run _ _ _ () (resumed others s)) in H by (by rewrite query_call_run, Hown).
      apply Hf in H as (dates & H). split; [done|]. by exists 0, dates, (resumed others s).
    + by rewrite (act_bind_throw _ _ _ (NotFoundException "Companion not found") (resumed others s)) in H by (by rewrite query_call_run, Hown).
  - split; [done|]. by exists 0, (mkDateWhere None None), s.
  - apply Hst in H. rewrite clock_run in H. apply Hf in H as (dates & H). split; [done|]. by exists (sv_now s), dates, s.
Qed.

(** C13: whatever other requests do while a listing of the portal is answered, the
    answer has at most a hundred items, and each shows a row that is the user's
    when it is read: a companion, a visit, a block or a device of theirs, a pack
    of a companion of theirs, a friend whose account is active, a friend request
    with an account that is neither suspended nor being deleted, a relationship
    of one of their companions. *)
Theorem portal_lists_own l query s env s' :
  serve_list others parse_date contains_insensitive id_le userId l query s = (Ok env, s') →
  (length (pe_items env) <= 100)%nat ∧ Forall (own_item l (owner_db s) (items_db l s)) (pe_items env).
Proof.
  intros (Hok & now & dates & s1 & Hdb & Hpage)%serve_list_items. rewrite (list_page_items _ _ _ _ _ _ Hpage). split.
  - rewrite length_fmap, length_take. simpl. unfold MAX_PAGE_SIZE. lia.
  - apply Forall_fmap, Forall_take, Forall_drop, Forall_forall. intros [k r] [Hk Hw]%elem_of_rows. rewrite Hdb in *.
    by apply (listing_own l query now dates).
Qed.
End own.

(** ** One relationship *)

Section relationship.
Context {Hscan : ScanOrder} {Hcols : HiddenColumns} {B : Type}.
Variable others : nat → Server B → Server B.
Variable id_le : rowid → rowid → bool.
Context (id_total : ∀ a b, id_le a b = true ∨ id_le b a = true) (id_trans : ∀ a b c, id_le a b = true → id_le b c = true → id_le a c = true).
Implicit Types (s : Server B) (d : DB).

(** The user's side of a relationship is the first one they own; the other one
    is the remote side. *)
Lemma perspective_own d userId r own remote : own_relationship userId d r = true → r.1.1 ≠ r.1.2 → perspective d userId r = (own, remote) →
  owned_companion userId d own = true ∧ ((own = r.1.1 ∧ remote = r.1.2) ∨ (own = r.1.2 ∧ remote = r.1.1)).
Proof using.
  unfold own_relationship, perspective. destruct r as [[low high] r]. simpl. intros Hown Hne. destruct (owned_companion userId d low) eqn:Hlow.
  - rewrite bool_decide_eq_true_2 by done. intros [= <- <-]. auto.
  - rewrite bool_decide_eq_false_2 by done. intros [= <- <-]. auto.
Qed.

(** A relationship is shown to the owners of its companions only, with the
    latest twenty visits in which both companions took part. *)
Lemma relationship_view userId id s :
  match relationship_row userId id (sv_db (resumed others s)) with
  | None => getRelationship others id_le userId id s = (Err (NotFoundException "Companion relationship not found"), resumed others s)
  | Some r => ∃ visits,
      FirstRows (stamp_le id_le ses_updatedAt DESC)
        (λ k _, took_part (sv_db (resumed others (resumed others s))) r.1.1 k && took_part (sv_db (resumed others (resumed others s))) r.1.2 k)
        (db_sessions (sv_db (resumed others (resumed others s)))) 20 visits ∧
      getRelationship others id_le userId id s =
        (Ok (VObj (relationship_item userId (sv_db (resumed others s)) id r
                   ++ [col "visits" (VArr (shared_visit (sv_db (resumed others (resumed others s))) <$> visits))])), resumed others (resumed others s))
  end.
Proof using id_total id_trans.
  unfold getRelationship. rewrite query_call_run. destruct (relationship_row _ _ _) as [r|]; [|done].
  eexists. split; [apply take_first; [by apply stamp_le_total|by apply stamp_le_trans]|]. done.
Qed.
End relationship.

(** ** On a concrete account *)

Definition demo_companion (owner name : string) (published : bool) (at_ : instant) : Companion :=
  mkCompanion owner (lit name) None [] "friends_only" published false "friends" true None at_ at_ None.
Definition demo_portal_db : DB := empty_db
  <| db_users := {["ann" := demo_user "ann"; "bob" := demo_user "bob"]} |>
  <| db_friendships := {[("ann", "bob"); ("bob", "ann")]} |>
  <| db_companions := {["c1" := demo_companion "ann" "Pip" true 5; "c2" := demo_companion "ann" "Mo" false 9;
                        "c3" := demo_companion "ann" "Lu" true 5; "c4" := demo_companion "bob" "Ty" true 7]} |>
  <| db_blockedUsers := {[("ann", "bob") := 3]} |>
  <| db_sessions := ∅ |>.
Definition demo_query : PortalListQueryDto := mkPortalListQueryDto None (Some (of_Z 2)) DESC None None None None.
Definition demo_server : Server unit := demo_server_of demo_portal_db.
(** [ILIKE] on lower-case texts *)
Fixpoint demo_contains (needle t : text) : bool :=
  bool_decide (take (length needle) t = needle) || match t with [] => false | _ :: t' => demo_contains needle t' end.
Abbreviation demo_list := (serve_list (Hscan := key_order) (Hcols := demo_columns) (B := unit) alone (λ _, None) demo_contains demo_order).
Definition ids (r : result (PageEnvelope jsval) * Server unit) : list jsval :=
  match r.1 with
  | Ok env => omap (λ v, match v with VObj ((_, x) :: _) => Some x | _ => None end) (pe_items env)
  | Err _ => []
  end.

Example demo_first_page : ids (demo_list "ann" PL_companions demo_query demo_server) = [vstr "c2"; vstr "c3"].
Proof. vm_compute. reflexivity. Qed.
Example demo_second_page : ids (demo_list "ann" PL_companions (demo_query <| lq_page := Some (of_Z 2) |>) demo_server) = [vstr "c1"].
Proof. vm_compute. reflexivity. Qed.
Example demo_unpublished : ids (demo_list "ann" PL_companions (demo_query <| lq_status := Some (lit "unpublished") |>) demo_server) = [vstr "c2"].
Proof. vm_compute. reflexivity. Qed.
Example demo_bad_status : (demo_list "ann" PL_companions (demo_query <| lq_status := Some (lit "draft") |>) demo_server).1 = Err STATUS_FILTER_INVALID.
Proof. vm_compute. reflexivity. Qed.
Example demo_not_own : (demo_list "ann" (PL_packs "c4") demo_query demo_server).1 = Err (NotFoundException "Companion not found").
Proof. vm_compute. reflexivity. Qed.
Example demo_end_of_day : endOfDate (λ _, Some 1700000000000) (lit "2023-11-14") = Some 1700006399999.
Proof. vm_compute. reflexivity. Qed.

(** A search with a space behind it finds the blocked user and not the friend:
    the search among friends alone is not trimmed. *)
Lemma friend_search_is_not_trimmed :
  ids (demo_list "ann" PL_blocks (demo_query <| lq_search := Some (lit "bob ") |>) demo_server) = [vstr "annbob"] ∧
  ids (demo_list "ann" PL_friends (demo_query <| lq_search := Some (lit "bob ") |>) demo_server) = [] ∧
  ids (demo_list "ann" PL_friends (demo_query <| lq_search := Some (lit "bob") |>) demo_server) = [vstr "bob"].
Proof. vm_compute. split_and!; reflexivity. Qed.

Definition demo_dates : DateWhere := mkDateWhere None None.
Lemma portal_pages_cover_witness :
  let ls := listing (Hcols := demo_columns) demo_contains "ann" PL_companions demo_query 1000 demo_dates in
  ∃ s1 rows s2, ShowsAll demo_order ls DESC demo_portal_db rows ∧
    read_pages (demo_list "ann" PL_companions) demo_query
      [Some (of_Z 1); Some (of_Z 2)] s1 =
    (Ok ((λ kr, ls_item ls demo_portal_db kr.1 kr.2) <$> rows), s2).
Proof.
  destruct (demo_list "ann" PL_companions demo_query demo_server) as [[env|e] s1] eqn:Hserve; [|vm_compute in Hserve; discriminate].
  destruct (portal_pages_cover (Hscan := key_order) (Hcols := demo_columns) (B := unit) alone (λ _, None) demo_contains demo_order "ann"
    (λ n s, conj eq_refl eq_refl) demo_order_total demo_order_trans PL_companions demo_query demo_server env s1 [Some (of_Z 1); Some (of_Z 2)] Hserve)
    as (dates & s2 & Hdates & rows & Hshow & Hread).
  - apply (f_equal fst) in Hserve. vm_compute in Hserve. injection Hserve as <-. vm_compute. discriminate.
  - apply (f_equal fst) in Hserve. vm_compute in Hserve. injection Hserve as <-. vm_compute. reflexivity.
  - injection Hdates as <-. exists s1, rows, s2. split; [exact Hshow|exact Hread].
Defined.
Lemma portal_lists_own_witness :
  ∃ env, Forall (own_item (Hcols := demo_columns) "ann" PL_friends demo_portal_db demo_portal_db) (pe_items env) ∧ length (pe_items env) = 1%nat.
Proof.
  destruct (demo_list "ann" PL_friends demo_query demo_server) as [[env|e] s1] eqn:Hserve; [|vm_compute in Hserve; discriminate].
  exists env. split.
  - exact (proj2 (portal_lists_own (Hscan := key_order) (Hcols := demo_columns) alone (λ _, None) demo_contains demo_order "ann" PL_friends demo_query
      demo_server env s1 Hserve)).
  - apply (f_equal fst) in Hserve. vm_compute in Hserve. by injection Hserve as <-.
Defined.
