(* ===== verification/AdminViews.v ===== *)
(** * What administrators see ([admin/admin-api.service.ts], [admin/audit.service.ts], [admin/admin.controller.ts]: the GET routes)

    Counts, listings and details for superadmins.  Looking at an account is
    itself recorded; looking at an asset pack compares its rows with the bucket;
    looking at a visit says what is wrong with it. *)

From S2P Require Import Prelude Tables JsText JsNumber Json Schema Interfaces Config Storage Presence AssetManifest AssetPack Server Browser Visit Account Admin JsonText Paging DevDebug Export PortalLists.
Local Open Scope Z_scope.

(** [AdminListQueryDto] has the fields of a [PortalListQueryDto]. *)
Definition AdminListQueryDto : Type := PortalListQueryDto.

Definition ADMIN_ACCOUNT_DETAIL_LIMIT : nat := 50.
Definition REALTIME_LAST_SEEN_LIMIT : nat := 50.
Definition REALTIME_VISIT_SAMPLE_LIMIT : nat := 1000.
Definition REALTIME_STALE_PRESENCE_MINUTES : Z := 15.

(** ** What is shown of a row *)

Section selects.
Context {Hcols : HiddenColumns}.
Implicit Types (d : DB) (k : rowid).

(** [ADMIN_USER_SUMMARY] *)
Definition ADMIN_USER_SUMMARY k (u : User) : fields :=
  [col "id" (vstr k); col "uid" (vtext (u_uid u)); col "email" (vtext (u_email u)); col "username" (vtext (u_username u));
   col "friendCode" (vtext (u_friendCode u)); col "role" (vstr (role_name (u_role u))); col "accountStatus" (vstr (Admin.status_name (u_accountStatus u)));
   col "suspendedAt" (vopt VDate (u_suspendedAt u)); col "createdAt" (VDate (u_createdAt u)); col "updatedAt" (VDate (user_updatedAt k))].
(** [ADMIN_RELATED_USER_SELECT] *)
Definition ADMIN_RELATED_USER_SELECT d k : jsval :=
  vopt (λ u, VObj [col "id" (vstr k); col "uid" (vtext (u_uid u)); col "username" (vtext (u_username u)); col "friendCode" (vtext (u_friendCode u));
                   col "profile" (names_value d k); col "presence" (vopt status_value (db_presences d !! k))]) (db_users d !! k).
(** [ADMIN_NOTIFICATION_SELECT] *)
Definition ADMIN_NOTIFICATION_SELECT k (n : Notification) : fields :=
  [col "id" (vstr k); col "type" (vtext (nt_type n)); col "title" (vtext (nt_title n)); col "message" (vtext (nt_message n));
   col "read" (vbool (nt_read n)); col "createdAt" (VDate (nt_createdAt n))].
(** [ADMIN_ACCOUNT_AUDIT_SELECT] *)
Definition ADMIN_ACCOUNT_AUDIT_SELECT (a : AuditLog) : fields :=
  [col "id" (vstr (au_id a)); col "adminUserId" (vstr (au_adminUserId a)); col "action" (vstr (au_action a)); col "targetType" (vstr (au_targetType a));
   col "targetId" (vopt vstr (au_targetId a)); col "reason" (vopt vtext (au_reason a)); col "createdAt" (VDate (au_createdAt a))].
(** [ADMIN_ACCOUNT_ASSET_PACK_SELECT] *)
Definition ADMIN_ACCOUNT_ASSET_PACK_SELECT d k (p : AssetPack) : fields :=
  [col "id" (vstr k); col "companionId" (vstr (pk_companionId p)); col "manifestHash" (vtext (pk_manifestHash p));
   col "schemaVersion" (vint (pk_schemaVersion p)); col "status" (vstr (pack_status (pk_status p))); col "totalFiles" (vint (pk_totalFiles p));
   col "totalBytes" (VBigInt (pk_totalBytes p)); col "failureCode" (vopt vstr (pk_failureCode p)); col "createdAt" (VDate (pk_createdAt p));
   col "updatedAt" (VDate (pk_updatedAt p)); col "completedAt" (vopt VDate (pk_completedAt p)); col "activatedAt" (vopt VDate (pk_activatedAt p));
   col "supersededAt" (vopt VDate (pk_supersededAt p));
   col "companion" (vopt (λ c, VObj [col "id" (vstr (pk_companionId p)); col "name" (vtext (co_name c)); col "published" (vbool (co_published c))])
     (db_companions d !! pk_companionId p))].
(** [ADMIN_COMPANION_SUMMARY] *)
Definition ADMIN_COMPANION_SUMMARY k (c : Companion) : fields :=
  [col "id" (vstr k); col "ownerUserId" (vstr (co_ownerUserId c)); col "name" (vtext (co_name c)); col "publicDescription" (vopt vtext (co_publicDescription c));
   col "publicTags" (vtexts (co_publicTags c)); col "visibility" (vstr (co_visibility c)); col "published" (vbool (co_published c));
   col "activeAssetPackId" (vopt vstr (co_activeAssetPackId c)); col "publishedAt" (vopt VDate (co_publishedAt c));
   col "createdAt" (VDate (co_createdAt c)); col "updatedAt" (VDate (co_updatedAt c))].
(** [owner: { select: { id, uid, username } }] *)
Definition owner_value d (c : Companion) : jsval :=
  vopt (λ u, VObj [col "id" (vstr (co_ownerUserId c)); col "uid" (vtext (u_uid u)); col "username" (vtext (u_username u))]) (db_users d !! co_ownerUserId c).
(** [ADMIN_INVITATION_SELECT] *)
Definition ADMIN_INVITATION_SELECT k (r : Invitation) : fields :=
  [col "id" (vstr k); col "visitorOwnerUserId" (vstr (inv_visitorOwnerUserId r)); col "hostUserId" (vstr (inv_hostUserId r));
   col "networkCompanionId" (vstr (inv_networkCompanionId r)); col "assetPackSnapshotId" (vstr (inv_assetPackSnapshotId r));
   col "assetPackRefId" (vopt vstr (inv_assetPackRefId r)); col "companionName" (vtext (inv_companionName r));
   col "status" (vstr (invitation_status (inv_status r))); col "expiresAt" (VDate (inv_expiresAt r)); col "respondedAt" (vopt VDate (inv_respondedAt r));
   col "cancelledAt" (vopt VDate (inv_cancelledAt r)); col "createdAt" (VDate (inv_createdAt r)); col "updatedAt" (VDate (inv_updatedAt r))].
(** [ADMIN_SESSION_SELECT] *)
Definition ADMIN_SESSION_SELECT k (r : Session) : fields :=
  [col "id" (vstr k); col "invitationId" (vstr (ses_invitationId r)); col "visitorOwnerUserId" (vstr (ses_visitorOwnerUserId r));
   col "hostUserId" (vstr (ses_hostUserId r)); col "networkCompanionId" (vstr (ses_networkCompanionId r));
   col "assetPackSnapshotId" (vstr (ses_assetPackSnapshotId r)); col "assetPackRefId" (vopt vstr (ses_assetPackRefId r));
   col "state" (vstr (state_name (ses_state r))); col "visitorOwnerReadyAt" (vopt VDate (ses_visitorOwnerReadyAt r));
   col "hostReadyAt" (vopt VDate (ses_hostReadyAt r)); col "visitorOwnerSeenAt" (vopt VDate (ses_visitorOwnerSeenAt r));
   col "hostSeenAt" (vopt VDate (ses_hostSeenAt r)); col "readyAt" (vopt VDate (ses_readyAt r)); col "startedAt" (vopt VDate (ses_startedAt r));
   col "endingAt" (vopt VDate (ses_endingAt r)); col "endedAt" (vopt VDate (ses_endedAt r)); col "endReason" (vopt vstr (ses_endReason r));
   col "failureCode" (vopt vstr (ses_failureCode r)); col "createdAt" (VDate (ses_createdAt r)); col "updatedAt" (VDate (ses_updatedAt r))].
(** an item of [listAssetPacks] *)
Definition admin_pack_item d k (p : AssetPack) : jsval :=
  VObj (normalizeBigInts
    [col "id" (vstr k); col "companionId" (vstr (pk_companionId p)); col "manifestHash" (vtext (pk_manifestHash p));
     col "status" (vstr (pack_status (pk_status p))); col "totalFiles" (vint (pk_totalFiles p)); col "totalBytes" (VBigInt (pk_totalBytes p));
     col "failureCode" (vopt vstr (pk_failureCode p)); col "createdAt" (VDate (pk_createdAt p)); col "updatedAt" (VDate (pk_updatedAt p));
     col "companion" (vopt (λ c, VObj [col "name" (vtext (co_name c));
       col "owner" (vopt (λ u, VObj [col "id" (vstr (co_ownerUserId c)); col "uid" (vtext (u_uid u))]) (db_users d !! co_ownerUserId c))])
       (db_companions d !! pk_companionId p))]).
(** every column of an [AdminAuditLog] *)
Definition audit_item (a : AuditLog) : jsval :=
  VObj (ADMIN_ACCOUNT_AUDIT_SELECT a ++ [col "metadata" (vopt VJson (au_metadata a)); col "ipAddressHash" (vopt vtext (audit_ipAddressHash (au_id a)))]).
End selects.

(** ** The listings *)

Section listings.
Context {Hcols : HiddenColumns}.
Variable contains_insensitive : text → text → bool.
Variable query : AdminListQueryDto.
Variable dates : DateWhere.

(** These searches are not trimmed. *)
Definition admin_search (columns : list text) : bool := clause (lq_search query) (λ s, existsb (contains_insensitive s) columns).
Definition owner_uid (d : DB) (c : Companion) : list text := match db_users d !! co_ownerUserId c with Some u => [u_uid u] | None => [] end.

Definition users_listing : Listing := mkListing _ db_users
  (λ _ k u, status_is query (Admin.status_name (u_accountStatus u)) && in_dates dates (u_createdAt u)
            && admin_search [lit k; u_uid u; u_username u; u_email u; u_friendCode u])
  u_createdAt (λ _ k u, VObj (ADMIN_USER_SUMMARY k u)).
Definition all_companions_listing : Listing := mkListing _ db_companions
  (λ d k c, clause (lq_status query) (λ s, Bool.eqb (co_published c) (s == lit "published")) && in_dates dates (co_createdAt c)
            && admin_search (lit k :: co_name c :: owner_uid d c))
  co_updatedAt (λ d k c, VObj (ADMIN_COMPANION_SUMMARY k c ++ [col "owner" (owner_value d c)])).
Definition all_packs_listing : Listing := mkListing _ db_assetPacks
  (λ d k p, status_is query (pack_status (pk_status p)) && in_dates dates (pk_createdAt p)
            && admin_search (lit k :: pk_manifestHash p :: PortalLists.companion_name d (pk_companionId p)))
  pk_createdAt admin_pack_item.
Definition all_invitations_listing : Listing := mkListing _ db_invitations
  (λ _ k r, status_is query (invitation_status (inv_status r)) && in_dates dates (inv_createdAt r)
            && admin_search [lit k; inv_companionName r; lit (inv_visitorOwnerUserId r); lit (inv_hostUserId r)])
  inv_updatedAt (λ _ k r, VObj (ADMIN_INVITATION_SELECT k r)).
Definition all_sessions_listing : Listing := mkListing _ db_sessions
  (λ _ k r, status_is query (state_name (ses_state r)) && in_dates dates (ses_createdAt r)
            && admin_search [lit k; lit (ses_invitationId r); lit (ses_visitorOwnerUserId r); lit (ses_hostUserId r)])
  ses_updatedAt (λ _ k r, VObj (ADMIN_SESSION_SELECT k r)).
(** [audit.list] *)
Definition audit_table (d : DB) : gmap rowid AuditLog := list_to_map ((λ a, (au_id a, a)) <$> db_auditLogs d).
Definition audit_listing : Listing := mkListing _ audit_table
  (λ _ _ a, status_is query (au_action a)
            && admin_search ([lit (au_action a); lit (au_targetType a)] ++ match au_targetId a with Some t => [lit t] | None => [] end
                 ++ [lit (au_adminUserId a)] ++ match au_reason a with Some r => [r] | None => [] end)
            && in_dates dates (au_createdAt a))
  au_createdAt (λ _ _ a, audit_item a).
End listings.

(** ** What is wrong with a visit *)

(** [includes] *)
Fixpoint includes (needle t : text) : bool :=
  bool_decide (take (length needle) t = needle) || match t with [] => false | _ :: t' => includes needle t' end.

Record Diagnosis := mkDiagnosis { dx_code : string; dx_label : string; dx_active : bool }.
Section diagnostics.
Variable toUpperCase : text → text.
Variable heartbeatTimeoutSeconds : Z.

(** [visitSessionDiagnostics] *)
Definition before (deadline t : instant) : bool := t <? deadline.
Definition failure_text (s : Session) : text :=
  toUpperCase (lit (default "" (ses_failureCode s)) ++ lit " " ++ lit (default "" (ses_endReason s))).
Definition or_else (a b : option instant) (c : instant) : instant := match a with Some t => t | None => default c b end.
Definition staleHeartbeat (s : Session) (now : instant) : bool :=
  let heartbeatDeadline := now - heartbeatTimeoutSeconds * 1000 in
  let fallback := or_else (ses_startedAt s) (ses_readyAt s) (ses_createdAt s) in
  bool_decide (ses_state s ∈ [S_preparing; S_ready; S_active])
  && (before heartbeatDeadline (default fallback (ses_visitorOwnerSeenAt s)) || before heartbeatDeadline (default fallback (ses_hostSeenAt s))).
Definition assetAuthorizationFailure (s : Session) (snapshotPack : option (rowid * AssetPack)) : bool :=
  live (ses_state s) && match snapshotPack with
    | None => true
    | Some (k, p) => negb (truthy_id (ses_assetPackRefId s)) || negb (ses_assetPackRefId s == Some k)
                     || negb (pk_companionId p == ses_networkCompanionId s) || negb (bool_decide (pk_status p ∈ [PK_active; PK_superseded]))
    end.
Definition visitSessionDiagnostics (s : Session) (snapshotPack : option (rowid * AssetPack)) (hostAwayConflict : bool) (now : instant) : list Diagnosis :=
  let readyDeadline := now - VISIT_RECONCILIATION_STALE_MINUTES * 60000 in
  let failed code := includes (lit code) (failure_text s) in
  [mkDiagnosis "READY_TIMEOUT" "Ready timeout"
     (bool_decide (ses_state s ∈ [S_preparing; S_ready]) && before readyDeadline (default (ses_createdAt s) (ses_readyAt s)));
   mkDiagnosis "STALE_HEARTBEAT" "Stale heartbeat" (staleHeartbeat s now);
   mkDiagnosis "HOST_AWAY_CONFLICT" "Host away conflict" ((live (ses_state s) && hostAwayConflict) || failed "VISIT_HOST_COMPANION_AWAY");
   mkDiagnosis "ASSET_AUTHORIZATION_FAILURE" "Asset authorization failure"
     (assetAuthorizationFailure s snapshotPack || failed "VISIT_ASSET_NOT_AVAILABLE" || failed "ASSET_AUTHORIZATION");
   mkDiagnosis "MISSING_ASSET_PACK" "Missing Asset Pack"
     ((live (ses_state s) && negb (is_set snapshotPack)) || failed "VISIT_ASSET_NOT_AVAILABLE" || failed "MISSING_ASSET_PACK");
   mkDiagnosis "STUCK_ENDING" "Session stuck in ending" ((ses_state s == S_ending) && before readyDeadline (default (ses_updatedAt s) (ses_endingAt s)));
   mkDiagnosis "ENDED_WITH_LIVE_REF" "Session ended but asset still referenced"
     (bool_decide (ses_state s ∈ SESSION_TERMINAL) && truthy_id (ses_assetPackRefId s));
   mkDiagnosis "RENDERER_FAILURE" "Renderer failure" (failed "RENDERER")].
Definition diagnosed (code : string) (l : list Diagnosis) : bool := existsb (λ x, (dx_code x == code) && dx_active x) l.
End diagnostics.

(** ** An asset pack and the bucket *)

Inductive Integrity := missing | mismatch | verified.
#[export] Instance Integrity_eq_dec : EqDecision Integrity.
Proof. solve_decision. Defined.
(** The arrays that grow while the files are gone through *)
Record Findings := mkFindings { fd_missing : list text; fd_sha : list text; fd_metadata : list text }.
Record FileInspection := mkFileInspection { fi_id : rowid; fi_file : AssetFile; r2ObjectExists : bool; r2Integrity : Integrity }.

(** the callback of [normalized.files.map]; [Number(file.sizeBytes)] *)
Definition inspect_file (found : Findings) (file : rowid * AssetFile) (metadata : option Metadata) : Findings * FileInspection :=
  let f := file.2 in
  let missingObjects := match metadata with None => fd_missing found ++ [af_relativePath f] | Some _ => fd_missing found end in
  let shaMismatches := match metadata with
    | Some m => if md_sha256 m == Some (af_sha256 f) then fd_sha found else fd_sha found ++ [af_relativePath f]
    | None => fd_sha found end in
  let metadataMismatches := match metadata with
    | Some m => if (md_sizeBytes m =? round_double (af_sizeBytes f)) && (md_mimeType m == Some (af_mimeType f)) then fd_metadata found
                else fd_metadata found ++ [af_relativePath f]
    | None => fd_metadata found end in
  (mkFindings missingObjects shaMismatches metadataMismatches,
   mkFileInspection file.1 f (is_set metadata)
     match metadata with
     | None => missing
     | Some _ => if bool_decide (af_relativePath f ∈ shaMismatches) || bool_decide (af_relativePath f ∈ metadataMismatches) then mismatch else verified
     end).
Fixpoint inspect_files (found : Findings) (files : list ((rowid * AssetFile) * option Metadata)) : Findings * list FileInspection :=
  match files with
  | [] => (found, [])
  | (file, metadata) :: files' =>
      let '(found1, inspected) := inspect_file found file metadata in
      let '(found2, rest) := inspect_files found1 files' in
      (found2, inspected :: rest)
  end.

(** [storageInspection] *)
Record StorageInspection := mkStorageInspection {
  manifestMismatch : bool; manifestObjectExists : bool; missingObjects : list text; orphanObjects : option (list text);
  shaMismatches : list text; metadataMismatches : list text; fileInspectionTruncated : bool }.
(** Without downloads only the manifest is checked. *)
Inductive PackInspection :=
  | Unavailable (manifestMismatch : bool)
  | Inspected (files : list FileInspection) (inspection : StorageInspection).
Record PackView := mkPackView { pv_pack : fields; pv_files : list (rowid * AssetFile); pv_inspection : PackInspection }.

(** What is read of the pack: its columns, its files and their number *)
Definition FILES_INSPECTED : nat := 1000.
Definition admin_pack_fields {Hcols : HiddenColumns} (d : DB) (k : rowid) (p : AssetPack) : fields :=
  let refs {R} (m : gmap rowid R) (ref : R → option rowid) := Z.of_nat (count_where (λ _ r, ref r == Some k) m) in
  normalizeBigInts ([col "companionId" (vstr (pk_companionId p)); col "objectPrefix" (vtext (pk_objectPrefix p))] ++ pack_fields d k p ++
    [col "_count" (VObj [col "files" (vint (Z.of_nat (count_where (λ _ f, af_assetPackId f == k) (db_assetFiles d))));
                         col "visitInvitationRefs" (vint (refs (db_invitations d) inv_assetPackRefId));
                         col "visitSessionRefs" (vint (refs (db_sessions d) ses_assetPackRefId))])]).

Section service.
Context {Hscan : ScanOrder} {Hcols : HiddenColumns} {B : Type} `{!ObjectStore B}.
Variable others : nat → Server B → Server B.
Variable parse_date : text → option instant.
Variable contains_insensitive : text → text → bool.
Variable toUpperCase : text → text.
(** The collations of the database on ids and on paths. *)
Variable id_le : rowid → rowid → bool.
Variable path_le : text → text → bool.
(** [setHours(0, 0, 0, 0)] in the time zone of the server *)
Variable local_midnight : instant → instant.
Variable heartbeatTimeoutSeconds : Z.
(** the platform's lower case, SHA-256 in hexadecimal and [localeCompare], and
    the limits of the storage: what [validateManifest] uses *)
Variable toLowerCase : text → text.
Variable sha256_hex : text → text.
Variable localeCompare_le : text → text → bool.
Variable limits : StorageLimits.
Abbreviation Srv := (Server B).
Implicit Types (query : AdminListQueryDto) (id userId adminUserId : rowid).

(** *** Listings *)

Definition ACCOUNT_STATUSES : list string := ["ACTIVE"; "SUSPENDED"].
Definition listUsers query : Act Srv (PageEnvelope jsval) :=
  requireStatus (lq_status query) ACCOUNT_STATUSES ;;
  filtered others parse_date id_le query (users_listing contains_insensitive query).
Definition admin_listCompanions query : Act Srv (PageEnvelope jsval) :=
  requireStatus (lq_status query) COMPANION_STATUSES ;;
  filtered others parse_date id_le query (all_companions_listing contains_insensitive query).
Definition admin_listAssetPacks query : Act Srv (PageEnvelope jsval) :=
  requireStatus (lq_status query) PACK_STATUSES ;;
  filtered others parse_date id_le query (all_packs_listing contains_insensitive query).
(** [listVisits], [listVisitInvitations], [listVisitSessions] *)
Definition admin_listVisits (kind : VisitKind) query : Act Srv (PageEnvelope jsval) :=
  requireStatus (lq_status query) (VISIT_STATUSES kind) ;;
  filtered others parse_date id_le query (λ dates, match kind with
    | invitations => all_invitations_listing contains_insensitive query dates
    | sessions => all_sessions_listing contains_insensitive query dates
    end).
(** [audit.list]: the newest first, whatever the direction asked for *)
Definition audit_list query : Act Srv (PageEnvelope jsval) :=
  filtered others parse_date id_le (query <| lq_direction := DESC |>) (audit_listing contains_insensitive query).

(** *** Counts *)

(** [overview]: the queries of [Promise.all], one after the other *)
Definition DAYS_MS (n : Z) : Z := n * 86400000.
Definition overview : Act Srv jsval :=
  now ← sv_clock;
  let today := local_midnight now in
  let week := now - DAYS_MS 7 in
  let staleSession := now - 15 * 60000 in
  let count {A} (f : DB → A) : Act Srv A := sv_query others f in
  totalAccounts ← count (λ d, size (db_users d));
  newToday ← count (λ d, count_where (λ _ u, today <=? u_createdAt u) (db_users d));
  newWeek ← count (λ d, count_where (λ _ u, week <=? u_createdAt u) (db_users d));
  online ← count (λ d, count_where (λ _ p, pr_status p == PR_online) (db_presences d));
  idle ← count (λ d, count_where (λ _ p, pr_status p == PR_idle) (db_presences d));
  publishedCompanions ← count (λ d, count_where (λ _ c, co_published c) (db_companions d));
  totalPacks ← count (λ d, size (db_assetPacks d));
  totalFiles ← count (λ d, size (db_assetFiles d));
  storedBytes ← count (λ d, sum_map pk_totalBytes (db_assetPacks d));
  activeSessions ← count (λ d, count_where (λ _ s, ses_state s == S_active) (db_sessions d));
  pendingInvitations ← count (λ d, count_where (λ _ r, inv_status r == I_pending) (db_invitations d));
  failedPacks ← count (λ d, count_where (λ _ p, pk_status p == PK_failed) (db_assetPacks d));
  stuckSessions ← count (λ d, count_where (λ _ s, live (ses_state s) && (ses_updatedAt s <? staleSession)) (db_sessions d));
  let n (x : nat) := vint (Z.of_nat x) in
  mret (VObj [col "totalAccounts" (n totalAccounts); col "newAccounts" (VObj [col "today" (n newToday); col "sevenDays" (n newWeek)]);
              col "presence" (VObj [col "online" (n online); col "idle" (n idle)]); col "publishedCompanions" (n publishedCompanions);
              col "totalAssetPacks" (n totalPacks); col "totalAssetFiles" (n totalFiles); col "r2StoredBytes" (vint (round_double storedBytes));
              col "activeVisitSessions" (n activeSessions); col "pendingInvitations" (n pendingInvitations);
              col "failedAssetPacks" (n failedPacks); col "stuckSessions" (n stuckSessions)]).

(** [systemHealth]; [migrations] is what the raw queries answer, [None] when the
    database is out of reach, and then nothing else is asked. *)
Record Realtime := mkRealtime {
  rl_online : nat; rl_idle : nat; rl_offline : nat; rl_stale : nat; rl_activeDeviceCount : nat;
  rl_activeVisitParticipants : nat; rl_capped : bool; rl_lastSeen : list (rowid * Presence) }.
Definition participants_of (sample : list (rowid * Session)) : gset rowid :=
  list_to_set (sample ≫= λ ks, [ses_visitorOwnerUserId ks.2; ses_hostUserId ks.2]).
Definition realtime_now : Act Srv Realtime :=
  now ← sv_clock;
  let staleBefore := now - REALTIME_STALE_PRESENCE_MINUTES * 60000 in
  totalAccounts ← sv_query others (λ d, size (db_users d));
  online ← sv_query others (λ d, count_where (λ _ p, pr_status p == PR_online) (db_presences d));
  idle ← sv_query others (λ d, count_where (λ _ p, pr_status p == PR_idle) (db_presences d));
  stale ← sv_query others (λ d, count_where (λ _ p, bool_decide (pr_status p ∈ [PR_online; PR_idle]) && (pr_updatedAt p <? staleBefore)) (db_presences d));
  recentPresence ← sv_query others (λ d, take REALTIME_LAST_SEEN_LIMIT (find_many_by (λ _ _, true) (stamp_le id_le pr_lastSeenAt DESC) (db_presences d)));
  activeDeviceCount ← sv_query others (λ d, count_where (λ _ s, negb (is_set (ds_revokedAt s)) && (now <? ds_expiresAt s)) (db_deviceSessions d));
  activeVisitSessions ← sv_query others (λ d, take REALTIME_VISIT_SAMPLE_LIMIT
    (find_many_by (λ _ s, live (ses_state s)) (stamp_le id_le ses_updatedAt DESC) (db_sessions d)));
  mret (mkRealtime online idle (totalAccounts - online - idle) stale activeDeviceCount (size (participants_of activeVisitSessions))
    (bool_decide (length activeVisitSessions = REALTIME_VISIT_SAMPLE_LIMIT)) recentPresence).
Definition systemHealth (migrations : option (list text)) : Act Srv (option (option text * Realtime) * StorageCapability * Presence.Snapshot) :=
  database ← match migrations with
             | Some names => sv_await others ;; realtime ← realtime_now; mret (Some (head names, realtime))
             | None => sv_await others ;; mret None
             end;
  capability ← act_gets (λ s : Srv, sg_capability (sv_storage s));
  now ← sv_clock;
  snapshot ← act_gets (λ s : Srv, (getOperationalSnapshot now (sv_gate s)).1);
  act_modify (λ s : Srv, s <| sv_gate := (getOperationalSnapshot now (sv_gate s)).2 |>) ;;
  mret (database, capability, snapshot).

(** *** One row *)

Definition admin_getCompanion id : Act Srv jsval :=
  found ← sv_query others (λ d, (λ c, VObj (normalizeBigInts (ADMIN_COMPANION_SUMMARY id c ++
    [col "owner" (owner_value d c);
     col "activeAssetPack" (vopt (λ kp, VObj
       [col "id" (vstr kp.1); col "manifestHash" (vtext (pk_manifestHash kp.2)); col "status" (vstr (pack_status (pk_status kp.2)));
        col "totalFiles" (vint (pk_totalFiles kp.2)); col "totalBytes" (VBigInt (pk_totalBytes kp.2))]) (active_pack d c));
     col "_count" (VObj [col "assetPacks" (vint (Z.of_nat (count_where (λ _ p, pk_companionId p == id) (db_assetPacks d))));
                         col "visitInvitations" (vint (Z.of_nat (count_where (λ _ r, inv_networkCompanionId r == id) (db_invitations d))));
                         col "visitSessions" (vint (Z.of_nat (count_where (λ _ r, ses_networkCompanionId r == id) (db_sessions d))))])])))
    <$> db_companions d !! id);
  act_require_some found (NotFoundException "Companion not found").

(** [getVisitSession]: the row, when the invitation was accepted, what is wrong
    with the session, and whether it may be reconciled *)
Record SessionView := mkSessionView {
  view_record : fields; invitationAcceptedAt : option instant; diagnostics : list Diagnosis; reconciliation : Reconciliation }.
Definition getVisitSession id : Act Srv SessionView :=
  found ← sv_query others (λ d, s ← db_sessions d !! id; r ← db_invitations d !! ses_invitationId s; Some (s, r));
  session ← act_require_some found (NotFoundException "Visit Session not found");
  let '(s, invitation) := session in
  snapshotPack ← sv_query others (λ d, (λ p, (ses_assetPackSnapshotId s, p)) <$> db_assetPacks d !! ses_assetPackSnapshotId s);
  hostAwaySession ← sv_query others (λ d,
    exists_where (λ k x, negb (k == id) && (ses_visitorOwnerUserId x == ses_hostUserId s) && live (ses_state x)) (db_sessions d));
  now ← sv_clock;
  mret (mkSessionView (ADMIN_SESSION_SELECT id s) (if inv_status invitation == I_accepted then inv_respondedAt invitation else None)
    (visitSessionDiagnostics toUpperCase heartbeatTimeoutSeconds s snapshotPack hostAwaySession now) (visitReconciliationStatus s now)).

(** [getUser]: the columns of the account, what [...account] keeps of its
    relations, and the rest *)
Section account.
Implicit Types (d : DB) (k : rowid).
Definition latest_rows {R} (p : R → bool) (stamp : R → instant) (m : gmap rowid R) : list (rowid * R) :=
  take ADMIN_ACCOUNT_DETAIL_LIMIT (find_many_by (λ _ r, p r) (stamp_le id_le stamp DESC) m).
Definition shown_as {R} (f : rowid → R → fields) (l : list (rowid * R)) : jsval := VArr ((λ kr, VObj (f kr.1 kr.2)) <$> l).
(** a friend, a blocked user or a blocker under the relationship *)
Definition related_user d k (createdAt : instant) (other : rowid) : fields :=
  [col "id" (vstr k); col "createdAt" (VDate createdAt); col "user" (ADMIN_RELATED_USER_SELECT d other)].
Definition account_details d userId (u : User) : fields :=
  let n (x : nat) := vint (Z.of_nat x) in
  let blocks := by_id (λ p _, blocked_id p) (db_blockedUsers d) in
  let friendships := pairs_by_id friendship_id (db_friendships d) in
  let related := λ (other : rowid * rowid → rowid) (l : list (rowid * ((rowid * rowid) * instant))),
    shown_as (λ k r, related_user d k r.2 (other r.1)) l in
  ADMIN_USER_SUMMARY userId u ++
  [col "profile" (vopt (profile_value userId) (db_profiles d !! userId)); col "presence" (vopt (presence_value userId) (db_presences d !! userId));
   col "deviceSessions" (shown_as (device_fields d) (latest_rows (λ s, ds_userId s == userId) ds_lastUsedAt (db_deviceSessions d)));
   col "networkCompanions" (shown_as ADMIN_COMPANION_SUMMARY (latest_rows (λ c, co_ownerUserId c == userId) co_updatedAt (db_companions d)));
   col "_count" (VObj
     [col "friendships" (n (count_where (λ _ p, p.1 == userId) friendships)); col "blockedUsers" (n (count_where (λ _ r, r.1.1 == userId) blocks));
      col "blockedBy" (n (count_where (λ _ r, r.1.2 == userId) blocks));
      col "notifications" (n (count_where (λ _ x, nt_userId x == userId) (db_notifications d)));
      col "visitInvitationsOwned" (n (count_where (λ _ r, inv_visitorOwnerUserId r == userId) (db_invitations d)));
      col "visitInvitationsHosted" (n (count_where (λ _ r, inv_hostUserId r == userId) (db_invitations d)));
      col "visitSessionsOwned" (n (count_where (λ _ r, ses_visitorOwnerUserId r == userId) (db_sessions d)));
      col "visitSessionsHosted" (n (count_where (λ _ r, ses_hostUserId r == userId) (db_sessions d)))]);
   col "friends" (shown_as (λ k p, related_user d k (friendship_createdAt p) p.2) (latest_rows (λ p, p.1 == userId) friendship_createdAt friendships));
   col "blockedRelationships" (VObj
     [col "outgoing" (related snd (latest_rows (λ r, r.1.1 == userId) snd blocks));
      col "incoming" (related fst (latest_rows (λ r, r.1.2 == userId) snd blocks))]);
   col "visitInvitations" (VObj
     [col "asVisitorOwner" (shown_as ADMIN_INVITATION_SELECT (latest_rows (λ r, inv_visitorOwnerUserId r == userId) inv_updatedAt (db_invitations d)));
      col "asHost" (shown_as ADMIN_INVITATION_SELECT (latest_rows (λ r, inv_hostUserId r == userId) inv_updatedAt (db_invitations d)))]);
   col "visitSessions" (VObj
     [col "asVisitorOwner" (shown_as ADMIN_SESSION_SELECT (latest_rows (λ r, ses_visitorOwnerUserId r == userId) ses_updatedAt (db_sessions d)));
      col "asHost" (shown_as ADMIN_SESSION_SELECT (latest_rows (λ r, ses_hostUserId r == userId) ses_updatedAt (db_sessions d)))])].
Definition recent_notifications d userId : jsval :=
  shown_as ADMIN_NOTIFICATION_SELECT (latest_rows (λ x, nt_userId x == userId) nt_createdAt (db_notifications d)).
Definition account_audit d userId : list (rowid * AuditLog) :=
  latest_rows (λ a, (au_targetId a == Some userId) || (au_adminUserId a == userId)) au_createdAt (audit_table d).
Definition view_audit (auditId adminUserId userId : rowid) (now : instant) : AuditLog :=
  mkAuditLog auditId adminUserId "VIEW_SENSITIVE_ACCOUNT" "User" (Some userId) None None now.

Definition getUser (adminUserId userId auditId : rowid) : Act Srv jsval :=
  found ← sv_query others (λ d, (λ u, (account_details d userId u, count_where (λ _ x, nt_userId x == userId) (db_notifications d), recent_notifications d userId))
    <$> db_users d !! userId);
  unread ← sv_query others (λ d, count_where (λ _ x, (nt_userId x == userId) && negb (nt_read x)) (db_notifications d));
  packs ← sv_query others (λ d, (λ kp, VObj (normalizeBigInts (ADMIN_ACCOUNT_ASSET_PACK_SELECT d kp.1 kp.2))) <$>
    latest_rows (λ p, owned_by userId d p) pk_updatedAt (db_assetPacks d));
  packTotal ← sv_query others (λ d, count_where (λ _ p, owned_by userId d p) (db_assetPacks d));
  user ← act_require_some found (NotFoundException "User not found");
  now ← sv_clock;
  sv_tx others (record_audit (view_audit auditId adminUserId userId now)) ;;
  auditRelatedEvents ← sv_query others (λ d, shown_as (λ _ a, ADMIN_ACCOUNT_AUDIT_SELECT a) (account_audit d userId));
  let '(account, total, recent) := user in
  mret (VObj (account ++
    [col "notifications" (VObj [col "summary" (VObj [col "total" (vint (Z.of_nat total)); col "unread" (vint (Z.of_nat unread))]); col "recent" recent]);
     col "assetPacks" (VObj [col "total" (vint (Z.of_nat packTotal)); col "truncated" (vbool (bool_decide (length packs < packTotal)%nat));
                             col "items" (VArr packs)]);
     col "auditRelatedEvents" auditRelatedEvents; col "detailLimit" (vint (Z.of_nat ADMIN_ACCOUNT_DETAIL_LIMIT))])).
End account.

(** [getAssetPack]; the requests to the bucket of [Promise.all] one after the
    other; [fuel] bounds the pages of [listObjectKeys] *)
Definition by_path (a b : rowid * AssetFile) : bool :=
  path_le (af_relativePath b.2) (af_relativePath a.2) && (negb (path_le (af_relativePath a.2) (af_relativePath b.2)) || id_le b.1 a.1).
Fixpoint head_objects (keys : list text) : Act Srv (list (option Metadata)) :=
  match keys with
  | [] => mret []
  | key :: keys' => metadata ← sv_storage_call others (headObject key); rest ← head_objects keys'; mret (metadata :: rest)
  end.
(** [try { validateManifest(...) } catch { manifestMismatch = true }] *)
Definition manifest_ok (p : AssetPack) : bool :=
  match AssetPack.validate toLowerCase sha256_hex localeCompare_le limits (pk_manifest p) (pk_manifestHash p) with
  | Ok _ => true | Err _ => false end.
Definition manifest_key (p : AssetPack) : text := pk_objectPrefix p ++ lit "/manifest.json".
Definition getAssetPack (fuel : nat) id : Act Srv PackView :=
  found ← sv_query others (λ d, (λ p,
    (p, admin_pack_fields d id p, take FILES_INSPECTED (find_many_by (λ _ f, af_assetPackId f == id) by_path (db_assetFiles d)),
     count_where (λ _ f, af_assetPackId f == id) (db_assetFiles d))) <$> db_assetPacks d !! id);
  pack ← act_require_some found (NotFoundException "Asset Pack not found");
  let '(p, normalized, files, count) := pack in
  let manifestMismatch := negb (manifest_ok p) in
  capability ← act_gets (λ s : Srv, sg_capability (sv_storage s));
  if negb (sc_downloadsEnabled capability) then mret (mkPackView normalized files (Unavailable manifestMismatch)) else
  actualKeys ← sv_storage_call others (listObjectKeys fuel (pk_objectPrefix p ++ lit "/") 10000);
  manifestMetadata ← sv_storage_call others (headObject (manifest_key p));
  fileMetadata ← head_objects ((λ kf, af_objectKey kf.2) <$> files);
  let '(found, inspected) := inspect_files (mkFindings [] [] []) (zip files fileMetadata) in
  let missingObjects := match manifestMetadata with None => fd_missing found ++ [lit "manifest.json"] | Some _ => fd_missing found end in
  let truncated := bool_decide (length files < count)%nat in
  let expectedKeys := manifest_key p :: ((λ kf, af_objectKey kf.2) <$> files) in
  mret (mkPackView normalized files (Inspected inspected
    (mkStorageInspection manifestMismatch (is_set manifestMetadata) missingObjects
      (if truncated then None else Some (filter (λ k, k ∉ expectedKeys) actualKeys)) (fd_sha found) (fd_metadata found) truncated))).

(** *** The controller's GET routes, behind the guards of a superadmin *)

Inductive AdminView :=
  | AV_overview
  | AV_users (query : AdminListQueryDto)
  | AV_user (userId auditId : rowid)
  | AV_companions (query : AdminListQueryDto)
  | AV_companion (id : rowid)
  | AV_packs (query : AdminListQueryDto)
  | AV_pack (fuel : nat) (id : rowid)
  | AV_visits (kind : VisitKind) (query : AdminListQueryDto)
  | AV_session (id : rowid)
  | AV_health (migrations : option (list text))
  | AV_audit (query : AdminListQueryDto).
Definition view (adminUserId : rowid) (request : AdminView) : Act Srv unit :=
  match request with
  | AV_overview => overview ;; mret ()
  | AV_users query => listUsers query ;; mret ()
  | AV_user userId auditId => getUser adminUserId userId auditId ;; mret ()
  | AV_companions query => admin_listCompanions query ;; mret ()
  | AV_companion id => admin_getCompanion id ;; mret ()
  | AV_packs query => admin_listAssetPacks query ;; mret ()
  | AV_pack fuel id => getAssetPack fuel id ;; mret ()
  | AV_visits kind query => admin_listVisits kind query ;; mret ()
  | AV_session id => getVisitSession id ;; mret ()
  | AV_health migrations => systemHealth migrations ;; mret ()
  | AV_audit query => audit_list query ;; mret ()
  end.
Definition guarded_view (adminUserId deviceId : rowid) (request : AdminView) : Act Srv unit :=
  authenticate others adminUserId deviceId ;; superadmin_guard others adminUserId ;; view adminUserId request.
End service.
