(* ===== verification/AdminViewsSafety.v ===== *)
(** * What the administrators' views are worth

    Every look at an account leaves an audit row; a visit that may be reconciled
    is one the diagnostics flag; the inspection of an asset pack finds exactly
    where the bucket differs from the database; the pages of a listing are
    together its rows. *)

From stdpp Require Import sorting.
From S2P Require Import Prelude Tables JsText JsNumber Json Schema Interfaces Config Storage Presence AssetPack Server Identity Browser Visit Account Admin JsonText Paging DevDebug Export ExportSafety PortalLists PortalListsSafety AdminViews.
Local Open Scope Z_scope.

(** ** Diagnostics and reconciliation *)

Section diagnostics.
Variable toUpperCase : text → text.
Variable heartbeatTimeoutSeconds : Z.
Implicit Types (s : Session) (now : instant).

Lemma foldr_max_le (l : list Z) a x : x = a ∨ x ∈ l → x ≤ foldr Z.max a l.
Proof. induction l as [|y l IH]; simpl; intros [->|Hx]; [lia|by apply elem_of_nil in Hx|specialize (IH (or_introl eq_refl)); lia|].
  apply elem_of_cons in Hx as [->|Hx]; [lia|]. specialize (IH (or_intror Hx)). lia.
Qed.
(** Every sign of life of a session is at most its last activity. *)
Lemma activity_le s t :
  t = ses_updatedAt s ∨ t = ses_createdAt s ∨ Some t ∈ [ses_visitorOwnerSeenAt s; ses_hostSeenAt s; ses_startedAt s; ses_readyAt s; ses_endingAt s] → t ≤ lastActivity s.
Proof.
  unfold lastActivity. intros Ht. apply foldr_max_le. destruct Ht as [->|[->|Hin]]; [by left|right..]; apply list_elem_of_omap.
  - exists (Some (ses_createdAt s)). split; [set_solver|done].
  - exists (Some t). split; [set_solver|done].
Qed.

Definition late (deadline : instant) (o : option instant) : Prop := match o with Some t => t < deadline | None => True end.
Lemma late_default deadline o x : late deadline o → x < deadline → before deadline (default x o) = true.
Proof. unfold before. destruct o; simpl; intros; by apply Z.ltb_lt. Qed.

(** a visit that an administrator may reconcile is one the diagnostics
    complain about, unless its last activity is the limit itself to the
    millisecond: while it is prepared as timed out, while it is active as
    without heartbeat, while it ends as stuck. *)
Theorem reconcilable_is_diagnosed s snapshotPack hostAway now :
  heartbeatTimeoutSeconds ≤ 15 * 60 →
  reconcilable (visitReconciliationStatus s now) = true →
  let l := visitSessionDiagnostics toUpperCase heartbeatTimeoutSeconds s snapshotPack hostAway now in
  lastActivity s = now - VISIT_RECONCILIATION_STALE_MINUTES * 60000
  ∨ match ses_state s with
    | S_preparing | S_ready => diagnosed "READY_TIMEOUT" l = true ∧ diagnosed "STALE_HEARTBEAT" l = true
    | S_active => diagnosed "STALE_HEARTBEAT" l = true
    | S_ending => diagnosed "STUCK_ENDING" l = true
    | S_ended | S_cancelled | S_failed => False
    end.
Proof.
  intros Hhb Hrec l. unfold visitReconciliationStatus, VISIT_RECONCILIATION_STALE_MINUTES in *. set (deadline := now - 15 * 60000) in *.
  case_bool_decide as Hterm; [done|]. destruct (live (ses_state s)) eqn:Hlive; [|done]. simpl in Hrec.
  destruct (Z.leb_spec (15 * 60000) (now - lastActivity s)) as [Hstale|]; [|done]. clear Hrec.
  destruct (Z.eq_dec (lastActivity s) deadline) as [|Hne]; [by left|right]. assert (lastActivity s < deadline) as Hlast by (unfold deadline in *; lia).
  assert (∀ o, o ∈ [ses_visitorOwnerSeenAt s; ses_hostSeenAt s; ses_startedAt s; ses_readyAt s; ses_endingAt s] → late deadline o) as Hlate.
  { intros [t|] Hin; [|done]. simpl. pose proof (activity_le s t (or_intror (or_intror Hin))). lia. }
  pose proof (activity_le s (ses_createdAt s) (or_intror (or_introl eq_refl))) as Hcreated.
  pose proof (activity_le s (ses_updatedAt s) (or_introl eq_refl)) as Hupdated.
  assert (∀ t, t < deadline → t < now - heartbeatTimeoutSeconds * 1000) as Hearlier by (unfold deadline; lia).
  assert (or_else (ses_startedAt s) (ses_readyAt s) (ses_createdAt s) < deadline) as Hfallback.
  { unfold or_else. pose proof (Hlate (ses_startedAt s) ltac:(set_solver)). pose proof (Hlate (ses_readyAt s) ltac:(set_solver)).
    destruct (ses_startedAt s), (ses_readyAt s); simpl in *; lia. }
  assert (bool_decide (ses_state s ∈ [S_preparing; S_ready; S_active]) = true → staleHeartbeat heartbeatTimeoutSeconds s now = true) as Hheart.
  { intros Hst. unfold staleHeartbeat. rewrite Hst. simpl. apply orb_true_iff. left. apply late_default; [|by apply Hearlier].
    pose proof (Hlate (ses_visitorOwnerSeenAt s) ltac:(set_solver)) as Hv. destruct (ses_visitorOwnerSeenAt s); [by apply Hearlier|done]. }
  assert (before deadline (default (ses_createdAt s) (ses_readyAt s)) = true) as Hready
    by (apply late_default; [apply Hlate; set_solver|lia]).
  assert (before deadline (default (ses_updatedAt s) (ses_endingAt s)) = true) as Hending
    by (apply late_default; [apply Hlate; set_solver|lia]).
  subst l. unfold diagnosed, visitSessionDiagnostics, VISIT_RECONCILIATION_STALE_MINUTES. fold deadline. rewrite Hready, Hending.
  destruct (ses_state s); try (by exfalso; apply Hterm; vm_compute); cbn; rewrite ?Hheart by done; repeat split; done.
Qed.
End diagnostics.

(** ** Looking at an account *)

Section account_view.
Context {Hscan : ScanOrder} {Hcols : HiddenColumns} {B : Type} `{!ObjectStore B}.
Variable others : nat → Server B → Server B.
Variables (parse_date : text → option instant) (contains_insensitive : text → text → bool) (toUpperCase : text → text).
Variables (id_le : rowid → rowid → bool) (path_le : text → text → bool) (local_midnight : instant → instant) (heartbeatTimeoutSeconds : Z).
Variables (toLowerCase sha256_hex : text → text) (localeCompare_le : text → text → bool) (limits : StorageLimits).
Implicit Types (s : Server B).
Abbreviation looks := (guarded_view others parse_date contains_insensitive toUpperCase id_le path_le local_midnight heartbeatTimeoutSeconds
  toLowerCase sha256_hex localeCompare_le limits).

(** The audit log only grows. *)
Definition log_grows s s' : Prop := ∀ a, a ∈ db_auditLogs (sv_db s) → a ∈ db_auditLogs (sv_db s').
Context (others_append : ∀ n s, log_grows s (others n s)).

Lemma getUser_audited adminUserId userId auditId s v s' : getUser others id_le adminUserId userId auditId s = (Ok v, s') →
  ∃ now, view_audit auditId adminUserId userId now ∈ db_auditLogs (sv_db s').
Proof using others_append.
  unfold getUser. rewrite !query_call_run. intros Hrun.
  destruct (db_users _ !! userId) as [u|]; [|done]. cbn [fmap option_fmap option_map] in Hrun.
  rewrite (act_require_some_run _ _ _ _ _ eq_refl), clock_run in Hrun.
  set (s4 := resumed others (resumed others (resumed others (resumed others s)))) in *. exists (sv_now s4).
  erewrite tx_call_run in Hrun by reflexivity. rewrite query_call_run in Hrun. injection Hrun as _ <-.
  apply others_append. simpl. apply elem_of_app. right. by left.
Qed.

(** an administrator who is shown an account is a superadmin when it is
    asked for, and an audit row says who was shown which account. *)
Theorem account_view_is_audited adminUserId deviceId userId auditId s s' :
  looks adminUserId deviceId (AV_user userId auditId) s = (Ok (), s') →
  (∃ now, view_audit auditId adminUserId userId now ∈ db_auditLogs (sv_db s'))
  ∧ ∃ u, db_users (sv_db (resumed others (resumed others (resumed others s)))) !! adminUserId = Some u ∧ u_role u = SUPERADMIN.
Proof using others_append.
  unfold guarded_view, authenticate. intros Hrun. apply act_bind_ok in Hrun as (principal & s1 & Hauth & Hrun).
  rewrite query_call_run, clock_run, query_call_run in Hauth. unfold lift in Hauth. injection Hauth as _ <-.
  apply act_bind_ok in Hrun as ([] & s2 & Hguard & Hrun). unfold superadmin_guard in Hguard.
  apply act_bind_ok in Hguard as ([] & s3 & [_ ->]%act_require_ok & Hguard). rewrite query_call_run in Hguard.
  apply act_bind_ok in Hguard as (role & s4 & [Hrole ->]%act_require_some_ok & [Hsuper ->]%act_require_ok). simpl in Hrun.
  apply act_bind_ok in Hrun as (v & s5 & Hview & [= <-]). split; [by eapply getUser_audited|].
  destruct (db_users _ !! adminUserId) as [u|]; [|done]. simplify_eq/=. exists u. by bool_inv.
Qed.
End account_view.

(** ** Inspecting an asset pack *)

(** What the database says of a file, compared with what the bucket says. *)
Definition sha_ok (f : AssetFile) (m : Metadata) : bool := md_sha256 m == Some (af_sha256 f).
Definition metadata_ok (f : AssetFile) (m : Metadata) : bool := (md_sizeBytes m =? round_double (af_sizeBytes f)) && (md_mimeType m == Some (af_mimeType f)).
Definition integrity (f : AssetFile) (o : option Metadata) : Integrity :=
  match o with None => missing | Some m => if sha_ok f m && metadata_ok f m then verified else mismatch end.
Definition is_missing (f : AssetFile) (o : option Metadata) : bool := negb (is_set o).
Definition sha_differs (f : AssetFile) (o : option Metadata) : bool := match o with Some m => negb (sha_ok f m) | None => false end.
Definition metadata_differs (f : AssetFile) (o : option Metadata) : bool := match o with Some m => negb (metadata_ok f m) | None => false end.

Abbreviation path_of x := (af_relativePath x.1.2).
Definition paths_where (p : AssetFile → option Metadata → bool) (l : list ((rowid * AssetFile) * option Metadata)) : list text :=
  (λ x, path_of x) <$> filter (λ x, p x.1.2 x.2 = true) l.
Definition inspected (x : (rowid * AssetFile) * option Metadata) : FileInspection :=
  mkFileInspection x.1.1 x.1.2 (is_set x.2) (integrity x.1.2 x.2).

Lemma paths_where_cons p x l : paths_where p (x :: l) = (if p x.1.2 x.2 then [path_of x] else []) ++ paths_where p l.
Proof.
  unfold paths_where. destruct (p x.1.2 x.2) eqn:E; [rewrite filter_cons_True by done; done|].
  rewrite filter_cons_False by congruence. done.
Qed.
Lemma elem_of_paths_where p l path : path ∈ paths_where p l ↔ ∃ kf o, (kf, o) ∈ l ∧ p kf.2 o = true ∧ af_relativePath kf.2 = path.
Proof.
  unfold paths_where. rewrite list_elem_of_fmap. split.
  - intros ([kf o] & -> & [Hp Hin]%list_elem_of_filter). exists kf, o. done.
  - intros (kf & o & Hin & Hp & <-). exists (kf, o). split; [done|]. by apply list_elem_of_filter.
Qed.

Definition one_path (p : AssetFile → option Metadata → bool) (f : AssetFile) (o : option Metadata) : list text := if p f o then [af_relativePath f] else [].
Lemma inspect_file_spec found kf o : af_relativePath kf.2 ∉ fd_sha found → af_relativePath kf.2 ∉ fd_metadata found →
  inspect_file found kf o = (mkFindings (fd_missing found ++ one_path is_missing kf.2 o) (fd_sha found ++ one_path sha_differs kf.2 o)
    (fd_metadata found ++ one_path metadata_differs kf.2 o), inspected (kf, o)).
Proof.
  intros Hsha Hmeta. unfold inspect_file, inspected, one_path, integrity, is_missing, sha_differs, metadata_differs, sha_ok, metadata_ok. cbn [fst snd].
  destruct o as [m|]; cbn; [|by rewrite !app_nil_r].
  assert (∀ (l : list text) x, bool_decide (x ∈ l ++ [x]) = true) as Hlast by (intros; apply bool_decide_eq_true; set_solver).
  destruct (bool_decide (md_sha256 m = Some (af_sha256 kf.2))); cbn;
    destruct ((md_sizeBytes m =? round_double (af_sizeBytes kf.2)) && bool_decide (md_mimeType m = Some (af_mimeType kf.2))); cbn;
    rewrite ?app_nil_r, ?Hlast, ?(bool_decide_eq_false_2 _ Hsha), ?(bool_decide_eq_false_2 _ Hmeta), ?orb_true_r; done.
Qed.

(** The accumulated arrays are the lists of the files with the fault, and each
    file is judged on its own: no two files have one path. *)
Lemma inspect_files_spec found l :
  NoDup ((λ x, path_of x) <$> l) → (∀ x, x ∈ l → path_of x ∉ fd_sha found ∧ path_of x ∉ fd_metadata found) →
  inspect_files found l = (mkFindings (fd_missing found ++ paths_where is_missing l) (fd_sha found ++ paths_where sha_differs l)
    (fd_metadata found ++ paths_where metadata_differs l), inspected <$> l).
Proof.
  revert found. induction l as [|[kf o] l IH]; intros found Hnd Hfresh.
  { unfold paths_where. simpl. rewrite !app_nil_r. by destruct found. }
  rewrite fmap_cons, NoDup_cons in Hnd. destruct Hnd as [Hout Hnd]. destruct (Hfresh (kf, o)) as [Hsha Hmeta]; [by left|]. cbn [fst snd] in *.
  assert (∀ x, x ∈ l → path_of x ≠ af_relativePath kf.2) as Hother.
  { intros x Hx Heq. apply Hout. rewrite <- Heq. by apply (list_elem_of_fmap_2 (λ x, path_of x)). }
  cbn [inspect_files]. rewrite inspect_file_spec by done. rewrite IH; [|done|].
  - cbn [fd_missing fd_sha fd_metadata]. rewrite !paths_where_cons, <- !(assoc_L (++)). done.
  - intros x Hx. cbn [fd_sha fd_metadata]. specialize (Hother x Hx). destruct (Hfresh x) as [H1 H2]; [by right|].
    unfold one_path. split; rewrite elem_of_app; (intros [?|Hin]; [done|]); case_match; set_solver.
Qed.

Section bucket.
Context {B : Type} `{!ObjectStore B}.
Implicit Types (st : Storage B) (b : B).

(** What the bucket answers for a key. *)
Definition head_answer b (key : text) : option Metadata :=
  match head_object key b with Answer (size, mime, sha256) => Some (mkMetadata (default 0 size) mime sha256) | Failure _ => None end.
Lemma storage_eta st : st <| sg_bucket := sg_bucket st |> = st.
Proof. by destruct st. Qed.
Lemma headObject_ok key st o st' : headObject key st = (Ok o, st') → st' = st ∧ o = head_answer (sg_bucket st) key.
Proof.
  unfold headObject. intros ([] & st1 & [_ ->]%act_require_ok & Hrun)%act_bind_ok. unfold head_answer.
  apply act_bind_ok in Hrun as (reply & st1 & [= <- <-] & Hrun). rewrite storage_eta in Hrun.
  destruct (head_object key (sg_bucket st)) as [[[size mime] sha]|status]; [by injection Hrun as <- <-|].
  destruct (not_found status); [by injection Hrun as <- <-|done].
Qed.
Lemma list_pages_ok fuel prefix max keys token st l st' : Storage.list_pages fuel prefix max keys token st = (Ok l, st') → st' = st.
Proof.
  revert keys token. induction fuel as [|fuel IH]; intros keys token; [done|]. cbn [Storage.list_pages].
  intros (reply & st1 & [= <- <-] & Hrun)%act_bind_ok. rewrite storage_eta in Hrun.
  destruct (list_objects _ _ _ _) as [ans|status]; [|done].
  destruct (if _ && _ then la_next ans else None) as [next|]; [|by injection Hrun as _ <-].
  destruct (truthy next); [by eapply IH|by injection Hrun as _ <-].
Qed.
Lemma listObjectKeys_ok fuel prefix max st l st' : listObjectKeys fuel prefix max st = (Ok l, st') → st' = st.
Proof. unfold listObjectKeys. intros ([] & st1 & [_ ->]%act_require_ok & Hrun)%act_bind_ok. by eapply list_pages_ok. Qed.

Definition stored (d : DB) (id k : rowid) (f : AssetFile) : Prop := db_assetFiles d !! k = Some f ∧ af_assetPackId f = id.
(** [@@unique([assetPackId, relativePath])] *)
Definition unique_paths (d : DB) : Prop := ∀ id k f k' f', stored d id k f → stored d id k' f' → af_relativePath f = af_relativePath f' → k = k'.

(** What is shown of a pack's files, by what the rows and the bucket are. *)
Record Right (d : DB) (b : B) (id : rowid) (p : AssetPack) (files : list FileInspection) (i : StorageInspection) : Prop := mkRight {
  right_files : ∀ x, x ∈ files ↔ ∃ k f, stored d id k f ∧
    x = mkFileInspection k f (is_set (head_answer b (af_objectKey f))) (integrity f (head_answer b (af_objectKey f)));
  right_once : NoDup (fi_id <$> files);
  right_missing : ∀ path, path ∈ missingObjects i ↔
    (∃ k f, stored d id k f ∧ af_relativePath f = path ∧ head_answer b (af_objectKey f) = None)
    ∨ (path = lit "manifest.json" ∧ head_answer b (manifest_key p) = None);
  right_sha : ∀ path, path ∈ shaMismatches i ↔ ∃ k f m, stored d id k f ∧ af_relativePath f = path ∧ head_answer b (af_objectKey f) = Some m ∧ sha_ok f m = false;
  right_metadata : ∀ path, path ∈ metadataMismatches i ↔
    ∃ k f m, stored d id k f ∧ af_relativePath f = path ∧ head_answer b (af_objectKey f) = Some m ∧ metadata_ok f m = false;
  right_manifest : manifestObjectExists i = is_set (head_answer b (manifest_key p));
  right_orphans : ∃ orphans, orphanObjects i = Some orphans ∧
    ∀ key, key ∈ orphans → key ≠ manifest_key p ∧ ∀ k f, stored d id k f → af_objectKey f ≠ key;
}.

(** The rows with what the bucket answers for each. *)
Definition answered b (files : list (rowid * AssetFile)) : list ((rowid * AssetFile) * option Metadata) :=
  (λ kf, (kf, head_answer b (af_objectKey kf.2))) <$> files.
Lemma zip_answered b files : zip files (head_answer b <$> ((λ kf, af_objectKey kf.2) <$> files)) = answered b files.
Proof. induction files as [|kf files IH]; [done|]. unfold answered in *. cbn. f_equal. exact IH. Qed.
Lemma elem_of_answered b files kf o : (kf, o) ∈ answered b files ↔ kf ∈ files ∧ o = head_answer b (af_objectKey kf.2).
Proof. unfold answered. rewrite list_elem_of_fmap. split; [intros (x & [= -> ->] & ?); done|]. intros [? ->]. by exists kf. Qed.

Lemma paths_NoDup (d : DB) id b files : unique_paths d → (∀ k f, (k, f) ∈ files ↔ stored d id k f) → NoDup files.*1 →
  NoDup ((λ x, path_of x) <$> answered b files).
Proof.
  intros Huniq Hfiles Hnd. unfold answered. rewrite <- list_fmap_compose.
  assert (∀ kf kf', kf ∈ files → kf' ∈ files → af_relativePath kf.2 = af_relativePath kf'.2 → kf.1 = kf'.1) as Hinj.
  { intros [k f] [k' f'] H1%Hfiles H2%Hfiles. by apply (Huniq id). }
  clear Hfiles. induction files as [|kf files IH]; [by apply NoDup_nil|]. rewrite fmap_cons in *. apply NoDup_cons in Hnd as [Hout Hnd].
  apply NoDup_cons. split; [|apply IH; [done|intros x y Hx Hy; apply Hinj; by right]].
  intros (kf' & Heq & Hin)%list_elem_of_fmap. apply Hout. rewrite (Hinj kf kf'); [by apply list_elem_of_fmap_2|by left|by right|exact Heq].
Qed.

(** The inspection of the files of a pack, its manifest and the keys [listed]. *)
Lemma inspection_right (d : DB) b id p files listed mismatch :
  unique_paths d → (∀ k f, (k, f) ∈ files ↔ stored d id k f) → NoDup files.*1 →
  let '(found, shown) := inspect_files (mkFindings [] [] []) (answered b files) in
  Right d b id p shown (mkStorageInspection mismatch (is_set (head_answer b (manifest_key p)))
    (match head_answer b (manifest_key p) with None => fd_missing found ++ [lit "manifest.json"] | Some _ => fd_missing found end)
    (Some (filter (λ k, k ∉ manifest_key p :: ((λ kf, af_objectKey kf.2) <$> files)) listed)) (fd_sha found) (fd_metadata found) false).
Proof.
  intros Huniq Hfiles Hnd. rewrite inspect_files_spec; [|by eapply paths_NoDup|by intros x _; split; apply not_elem_of_nil]. cbn [fd_missing fd_sha fd_metadata app].
  assert (∀ q path, path ∈ paths_where q (answered b files) ↔ ∃ k f, stored d id k f ∧ q f (head_answer b (af_objectKey f)) = true ∧ af_relativePath f = path) as Hpaths.
  { intros q path. rewrite elem_of_paths_where. split.
    - intros ([k f] & o & [Hin%Hfiles ->]%elem_of_answered & Hq & Hp). by exists k, f.
    - intros (k & f & Hin%Hfiles & Hq & Hp). exists (k, f), (head_answer b (af_objectKey f)). by rewrite elem_of_answered. }
  split; cbn [missingObjects shaMismatches metadataMismatches manifestObjectExists orphanObjects].
  - intros x. rewrite list_elem_of_fmap. split.
    + intros ([[k f] o] & -> & [Hin%Hfiles ->]%elem_of_answered). by exists k, f.
    + intros (k & f & Hin%Hfiles & ->). exists ((k, f), head_answer b (af_objectKey f)). by rewrite elem_of_answered.
  - unfold answered. by rewrite <- !list_fmap_compose.
  - intros path. assert (path ∈ paths_where is_missing (answered b files) ↔ ∃ k f, stored d id k f ∧ af_relativePath f = path ∧ head_answer b (af_objectKey f) = None) as Hm.
    { rewrite Hpaths. unfold is_missing. split; intros (k & f & Hst & H1 & H2); exists k, f; split_and!; try done.
      - bool_inv. by apply eq_None_not_Some.
      - by rewrite H2. }
    destruct (head_answer b (manifest_key p)); [rewrite Hm; naive_solver|]. rewrite elem_of_app, Hm, list_elem_of_singleton. naive_solver.
  - intros path. rewrite Hpaths. unfold sha_differs. split.
    + intros (k & f & Hst & H1 & H2). destruct (head_answer b (af_objectKey f)) as [m|] eqn:E; [|done]. exists k, f, m. bool_inv. done.
    + intros (k & f & m & Hst & H1 & H2 & H3). exists k, f. by rewrite H2, H3.
  - intros path. rewrite Hpaths. unfold metadata_differs. split.
    + intros (k & f & Hst & H1 & H2). destruct (head_answer b (af_objectKey f)) as [m|] eqn:E; [|done]. exists k, f, m. bool_inv. done.
    + intros (k & f & m & Hst & H1 & H2 & H3). exists k, f. by rewrite H2, H3.
  - done.
  - eexists. split; [done|]. intros key [Hout _]%list_elem_of_filter. rewrite elem_of_cons in Hout. split; [by intros ->; apply Hout; left|].
    intros k f Hin%Hfiles <-. apply Hout. right. by apply (list_elem_of_fmap_2 (λ kf, af_objectKey kf.2) files (k, f)).
Qed.

End bucket.

Section inspection.
Context {Hscan : ScanOrder} {Hcols : HiddenColumns} {B : Type} `{!ObjectStore B}.
Variable others : nat → Server B → Server B.
Variables (id_le : rowid → rowid → bool) (path_le : text → text → bool).
Variables (toLowerCase sha256_hex : text → text) (localeCompare_le : text → text → bool) (limits : StorageLimits).
Implicit Types (s : Server B) (st : Storage B) (b : B).

(** Nobody changes the rows or the bucket meanwhile. *)
Definition untouched s s' : Prop := sv_db s' = sv_db s ∧ sv_storage s' = sv_storage s.
#[local] Instance untouched_pre : PreOrder untouched.
Proof. split; [done|]. intros x y z [? ?] [? ?]. split; congruence. Qed.
Context (calm : ∀ n s, untouched s (others n s)).

Lemma sv_storage_call_ok {A} (m : Act (Storage B) A) s a s' :
  (∀ st st' a, m st = (Ok a, st') → st' = st) → sv_storage_call others m s = (Ok a, s') →
  untouched s s' ∧ m (sv_storage s) = (Ok a, sv_storage s).
Proof using calm.
  unfold sv_storage_call. intros Hm Hrun. rewrite await_run in Hrun. unfold on_storage in Hrun.
  destruct (calm (sv_awaits s) s) as [Hd Hst]. change (sv_storage (resumed others s)) with (sv_storage (others (sv_awaits s) s)) in Hrun. rewrite Hst in Hrun.
  destruct (m (sv_storage s)) as [[a0|e] st'] eqn:E; [|done]. injection Hrun as <- <-. pose proof (Hm _ _ _ E) as ->. done.
Qed.
Lemma head_objects_ok keys s l s' : head_objects others keys s = (Ok l, s') → untouched s s' ∧ l = head_answer (sg_bucket (sv_storage s)) <$> keys.
Proof using calm.
  revert s l. induction keys as [|key keys IH]; intros s l; [by intros [= <- <-]|]. cbn [head_objects].
  intros (o & s1 & Ho & (l1 & s2 & Hl & [= <- <-])%act_bind_ok)%act_bind_ok.
  apply sv_storage_call_ok in Ho as [Hs1 Ho]; [|intros st st' a Ha; by apply headObject_ok in Ha as [-> _]].
  apply headObject_ok in Ho as [_ ->]. apply IH in Hl as [Hs2 ->]. split; [by etrans|]. destruct Hs1 as [_ ->]. done.
Qed.

Lemma files_of_pack (d : DB) id : (count_where (λ _ f, af_assetPackId f == id) (db_assetFiles d) <= FILES_INSPECTED)%nat →
  let files := take FILES_INSPECTED (find_many_by (λ _ f, af_assetPackId f == id) (by_path id_le path_le) (db_assetFiles d)) in
  (∀ k f, (k, f) ∈ files ↔ stored d id k f) ∧ NoDup files.*1 ∧ length files = count_where (λ _ f, af_assetPackId f == id) (db_assetFiles d).
Proof.
  intros Hle. set (l := find_many_by _ _ _). assert (length l = count_where (λ _ f, af_assetPackId f == id) (db_assetFiles d)) as Hlen.
  { unfold l, find_many_by. rewrite (sort_by_perm (by_path id_le path_le)). apply length_find_many. }
  simpl. rewrite take_ge by lia. split_and!; [|apply rows_NoDup|done].
  intros k f. unfold l. rewrite elem_of_rows. unfold stored. by rewrite bool_decide_eq_true.
Qed.

(** C27: while nobody changes the rows or the bucket, the inspection of a pack
    of at most a thousand files shows every file of it once, as verified exactly
    when the bucket has its object with the digest, the size and the type of the
    row; the three lists hold the paths of exactly the files whose object is
    missing, has another digest, or another size or type; and no orphan is an
    object of the pack. *)
Theorem pack_inspection_is_right fuel id s v s' files i :
  unique_paths (sv_db s) → (count_where (λ _ f, af_assetPackId f == id) (db_assetFiles (sv_db s)) <= FILES_INSPECTED)%nat →
  getAssetPack others id_le path_le toLowerCase sha256_hex localeCompare_le limits fuel id s = (Ok v, s') → pv_inspection v = Inspected files i →
  ∃ p, db_assetPacks (sv_db s) !! id = Some p ∧ Right (sv_db s) (sg_bucket (sv_storage s)) id p files i.
Proof using calm.
  intros Huniq Hcount. unfold getAssetPack. rewrite query_call_run. destruct (calm (sv_awaits s) s) as [Hd Hst].
  change (sv_db (resumed others s)) with (sv_db (others (sv_awaits s) s)). rewrite Hd.
  destruct (db_assetPacks (sv_db s) !! id) as [p|]; [|done]. cbn [fmap option_fmap option_map]. rewrite (act_require_some_run _ _ _ _ _ eq_refl).
  destruct (files_of_pack (sv_db s) id Hcount) as (Hfiles & Hnd & Hlen).
  set (rows := take FILES_INSPECTED _) in *. rewrite <- Hlen.
  intros (capability & s1 & [-> ->]%act_gets_ok & Hrun)%act_bind_ok Hi.
  destruct (negb _); [by injection Hrun as <- _|].
  apply act_bind_ok in Hrun as (listed & s2 & Hlist & Hrun).
  apply sv_storage_call_ok in Hlist as [Hs2 _]; [|intros st st' a Ha; by eapply listObjectKeys_ok].
  apply act_bind_ok in Hrun as (meta & s3 & Hmeta & Hrun).
  apply sv_storage_call_ok in Hmeta as [Hs3 Hmeta]; [|intros st st' a Ha; by apply headObject_ok in Ha as [-> _]].
  apply headObject_ok in Hmeta as [_ ->].
  apply act_bind_ok in Hrun as (metas & s4 & Hmetas & Hrun). apply head_objects_ok in Hmetas as [Hs4 ->].
  assert (sv_storage s2 = sv_storage s) as E2 by (destruct Hs2 as [_ ->]; exact Hst).
  assert (sv_storage s3 = sv_storage s) as E3 by (destruct Hs3 as [_ ->]; exact E2).
  rewrite E2, E3, zip_answered in Hrun.
  pose proof (inspection_right (sv_db s) (sg_bucket (sv_storage s)) id p rows listed
    (negb (manifest_ok toLowerCase sha256_hex localeCompare_le limits p)) Huniq Hfiles Hnd) as Hright.
  destruct (inspect_files _ _) as [found shown]. injection Hrun as <- _. cbn [pv_inspection] in Hi. injection Hi as <- <-.
  exists p. split; [done|]. rewrite (bool_decide_eq_false_2 _ (Nat.lt_irrefl _)). exact Hright.
Qed.
End inspection.

(** ** All pages *)

Section pages.
Context {Hscan : ScanOrder} {Hcols : HiddenColumns} {B : Type}.
Variable others : nat → Server B → Server B.
Variable parse_date : text → option instant.
Variable contains_insensitive : text → text → bool.
Variable id_le : rowid → rowid → bool.
Context (calm : ∀ n s, still s (others n s)).
Context (id_total : ∀ a b, id_le a b = true ∨ id_le b a = true) (id_trans : ∀ a b c, id_le a b = true → id_le b c = true → id_le a c = true).
Implicit Types (s : Server B) (query : AdminListQueryDto).

Inductive AdminList := AL_users | AL_companions | AL_packs | AL_visits (kind : VisitKind) | AL_audit.
Definition serve_admin_list (l : AdminList) query : Act (Server B) (PageEnvelope jsval) :=
  match l with
  | AL_users => listUsers others parse_date contains_insensitive id_le query
  | AL_companions => admin_listCompanions others parse_date contains_insensitive id_le query
  | AL_packs => admin_listAssetPacks others parse_date contains_insensitive id_le query
  | AL_visits kind => admin_listVisits others parse_date contains_insensitive id_le kind query
  | AL_audit => audit_list others parse_date contains_insensitive id_le query
  end.
Definition admin_listing (l : AdminList) query (dates : DateWhere) : Listing :=
  match l with
  | AL_users => users_listing contains_insensitive query dates
  | AL_companions => all_companions_listing contains_insensitive query dates
  | AL_packs => all_packs_listing contains_insensitive query dates
  | AL_visits sessions => all_sessions_listing contains_insensitive query dates
  | AL_visits invitations => all_invitations_listing contains_insensitive query dates
  | AL_audit => audit_listing contains_insensitive query dates
  end.
Definition admin_direction (l : AdminList) query : SortDirection := match l with AL_audit => DESC | _ => lq_direction query end.
Definition admin_statuses (l : AdminList) : option (list string) :=
  match l with AL_users => Some ACCOUNT_STATUSES | AL_companions => Some COMPANION_STATUSES | AL_packs => Some PACK_STATUSES
  | AL_visits kind => Some (VISIT_STATUSES kind) | AL_audit => None end.
Definition admin_status_ok (l : AdminList) query : bool :=
  match admin_statuses l with Some allowed => status_allowed (lq_status query) allowed | None => true end.
Definition admin_rows (l : AdminList) query (dates : DateWhere) (d : DB) : list jsval :=
  (λ kr, ls_item (admin_listing l query dates) d kr.1 kr.2) <$> rows_of id_le (admin_listing l query dates) (admin_direction l query) d.

Lemma serve_admin_list_run l query s : ∃ s', still s s' ∧ serve_admin_list l query s =
  (if admin_status_ok l query then
     match dateWhere parse_date query with
     | Some dates => Ok (page_of (admin_rows l query dates (sv_db s)) (boundedPage (lq_page query) (lq_limit query)))
     | None => Err INVALID_DATE
     end
   else Err STATUS_FILTER_INVALID, s').
Proof using calm.
  assert (∀ (m : Act (Server B) (PageEnvelope jsval)) r, (∃ s', still s s' ∧ m s = (r, s')) →
    ∃ s', still s s' ∧ (match admin_statuses l with Some allowed => requireStatus (lq_status query) allowed ;; m | None => m end) s =
      (if admin_status_ok l query then r else Err STATUS_FILTER_INVALID, s')) as Hst.
  { intros m r Hm. unfold admin_status_ok, requireStatus. destruct (admin_statuses l) as [allowed|]; [|done].
    destruct (status_allowed (lq_status query) allowed) eqn:E; [by rewrite act_require_run|].
    exists s. split; [done|]. by rewrite act_require_stop. }
  destruct l as [| | |[]|]; apply (Hst (filtered others parse_date id_le _ _)); try apply (filtered_run others parse_date id_le calm).
  exact (filtered_run others parse_date id_le calm (query <| lq_direction := DESC |>) (audit_listing contains_insensitive query) s).
Qed.

(** What an administrator's listing shows over all its pages: every row that the
    request selects, once, in order. *)
Lemma admin_pages_cover l query s env s1 requests :
  serve_admin_list l query s = (Ok env, s1) → pe_total env ≤ 2 ^ 52 →
  (λ x, x ≫= safe_integer) <$> requests = (λ i, Some (Z.of_nat i + 1)) <$> seq 0 (Z.to_nat (pe_totalPages env)) →
  ∃ dates s2, dateWhere parse_date query = Some dates ∧
    let ls := admin_listing l query dates in
    ∃ rows, ShowsAll id_le ls (admin_direction l query) (sv_db s) rows ∧
      read_pages (serve_admin_list l) query requests s1 = (Ok ((λ kr, ls_item ls (sv_db s) kr.1 kr.2) <$> rows), s2).
Proof using calm id_total id_trans.
  intros Hserve Htotal Hreq. destruct (serve_admin_list_run l query s) as (s1' & [Hd Hn] & Hrun). rewrite Hserve in Hrun. injection Hrun as Hans <-.
  destruct (admin_status_ok l query) eqn:Hst; [|done]. destruct (dateWhere parse_date query) as [dates|] eqn:Hdates; [|done]. injection Hans as Henv.
  subst env. destruct (read_pages_run (serve_admin_list l) query s (admin_rows l query dates (sv_db s)) requests) with s1 as (s2 & Hread);
    [|exact Htotal|exact Hreq|done|].
  { intros page s2 [Hd2 Hn2]. destruct (serve_admin_list_run l (query <| lq_page := page |>) s2) as (s3 & [Hd3 Hn3] & Hrun).
    exists s3. split; [split; congruence|]. rewrite Hrun, Hd2.
    assert (admin_status_ok l (query <| lq_page := page |>) = true) as -> by (by destruct l).
    assert (dateWhere parse_date (query <| lq_page := page |>) = Some dates) as -> by done.
    unfold admin_rows. by destruct l as [| | |[]|]. }
  exists dates, s2. split; [done|]. eexists. split; [by apply rows_of_show|]. exact Hread.
Qed.
End pages.

(** ** On concrete rows *)

Definition demo_stale : Session :=
  mkSession "i" "bob" "ann" None "cb" "p1" (Some "p1") VM_standard 2 0 S_active None None (Some 1000) (Some 2000) (Some 500) (Some 600) None None None None 0 2000.
Lemma reconcilable_is_diagnosed_witness :
  reconcilable (visitReconciliationStatus demo_stale 1000000) = true ∧
  diagnosed "STALE_HEARTBEAT" (visitSessionDiagnostics (λ t, t) 60 demo_stale None false 1000000) = true.
Proof.
  split; [vm_compute; reflexivity|].
  destruct (reconcilable_is_diagnosed (λ t, t) 60 demo_stale None false 1000000) as [H|H]; [lia|vm_compute; reflexivity|vm_compute in H; discriminate|exact H].
Defined.
(** At the limit itself it may be reconciled without a complaint: the comparison
    is [>=] there and [<] here. *)
Example boundary_is_not_diagnosed :
  let s := demo_stale <| ses_state := S_ending |> <| ses_endingAt := Some 2000 |> in
  reconcilable (visitReconciliationStatus s 902000) = true ∧ diagnosed "STUCK_ENDING" (visitSessionDiagnostics (λ t, t) 60 s None false 902000) = false.
Proof. by vm_compute. Qed.

Definition demo_admin_db : DB := empty_db
  <| db_users := {["root" := (demo_user "root") <| u_role := SUPERADMIN |>; "ann" := demo_user "ann"]} |>
  <| db_deviceSessions := {["s1" := mkDeviceSession "root" "desk" [] None None 0 0 100000 None]} |>
  <| db_assetPacks := {["p1" := mkAssetPack "c1" (lit "h") 1 JNull PK_active (lit "x") 3 9 None None None 6 6 None None None]} |>
  <| db_assetFiles := {["f1" := mkAssetFile "p1" (lit "a") (lit "x/files/a") (lit "image/png") 1 (lit "s") (lit "sprite") true None;
                        "f2" := mkAssetFile "p1" (lit "b") (lit "x/files/b") (lit "image/png") 1 (lit "s") (lit "sprite") true None;
                        "f3" := mkAssetFile "p1" (lit "c") (lit "x/files/c") (lit "image/png") 1 (lit "s") (lit "sprite") true None]} |>.
Abbreviation demo_png sha := (mkS3Object [1] (Some (lit "image/png")) (Some sha)).
Definition demo_admin_bucket : gmap text S3Object :=
  {[lit "x/files/a" := demo_png (lit "s"); lit "x/files/b" := demo_png (lit "t"); lit "x/files/z" := demo_png (lit "u");
    lit "x/manifest.json" := mkS3Object [] None None]}.
Definition demo_admin_server : Server (gmap text S3Object) :=
  mkServer (mkWorld demo_admin_db []) (mkStorage true (mkStorageCapability true true true) demo_admin_bucket) (mkGateway ∅ ∅ ∅ ∅ ∅ ∅ ∅ ∅ ∅ [] ∅) [] 1000 0.
Definition demo_inspect : result PackView * Server (gmap text S3Object) :=
  getAssetPack (Hscan := key_order) (Hcols := demo_columns) alone demo_order text_leb (λ t, t) (λ t, t) text_leb (mkStorageLimits 100 1000 10 24 900 25 30) 3 "p1" demo_admin_server.

Example demo_inspected :
  match demo_inspect.1 with
  | Ok v => match pv_inspection v with
            | Inspected files i => (length files, r2Integrity <$> files, missingObjects i, shaMismatches i, metadataMismatches i, orphanObjects i, manifestMismatch i)
                                   = (3%nat, [missing; mismatch; verified], [lit "c"], [lit "b"], [], Some [lit "x/files/z"], true)
            | Unavailable _ => False
            end
  | Err _ => False
  end.
Proof. vm_compute. reflexivity. Qed.
Lemma pack_inspection_is_right_witness :
  ∃ v files i p, pv_inspection v = Inspected files i ∧ Right demo_admin_db demo_admin_bucket "p1" p files i.
Proof.
  destruct demo_inspect as [[v|e] s'] eqn:Hrun; [|vm_compute in Hrun; discriminate].
  destruct (pv_inspection v) as [m|files i] eqn:Hi.
  - exfalso. apply (f_equal fst) in Hrun. vm_compute in Hrun. injection Hrun as <-. discriminate.
  - destruct (pack_inspection_is_right (Hscan := key_order) (Hcols := demo_columns) alone demo_order text_leb (λ t, t) (λ t, t) text_leb
      (mkStorageLimits 100 1000 10 24 900 25 30) (λ n s, conj eq_refl eq_refl) 3 "p1" demo_admin_server v s' files i) as (p & _ & Hright).
    + intros id k f k' f' [Hk _] [Hk' _] Heq. simpl in Hk, Hk'.
      apply lookup_insert_Some in Hk as [[<- <-]|[_ Hk]]; [|apply lookup_insert_Some in Hk as [[<- <-]|[_ Hk]]; [|apply lookup_singleton_Some in Hk as [<- <-]]];
        (apply lookup_insert_Some in Hk' as [[<- <-]|[_ Hk']]; [|apply lookup_insert_Some in Hk' as [[<- <-]|[_ Hk']]; [|apply lookup_singleton_Some in Hk' as [<- <-]]]);
        first [reflexivity|discriminate].
    + apply Nat.leb_le. vm_compute. reflexivity.
    + exact Hrun.
    + exact Hi.
    + exists v, files, i, p. split; [exact Hi|exact Hright].
Defined.

Lemma account_view_is_audited_witness :
  ∃ s' : Server (gmap text S3Object), (∃ now, view_audit "a1" "root" "ann" now ∈ db_auditLogs (sv_db s')).
Proof.
  destruct (guarded_view (Hscan := key_order) (Hcols := demo_columns) alone (λ _, None) demo_contains (λ t, t) demo_order text_leb (λ t, t) 60 (λ t, t) (λ t, t) text_leb
    (mkStorageLimits 100 1000 10 24 900 25 30) "root" "desk" (AV_user "ann" "a1") demo_admin_server) as [[[]|e] s'] eqn:Hrun; [|vm_compute in Hrun; discriminate].
  exists s'. exact (proj1 (account_view_is_audited (Hscan := key_order) (Hcols := demo_columns) alone (λ _, None) demo_contains (λ t, t) demo_order text_leb (λ t, t) 60 (λ t, t) (λ t, t) text_leb
    (mkStorageLimits 100 1000 10 24 900 25 30) (λ n s a Ha, Ha) "root" "desk" "ann" "a1" demo_admin_server s' Hrun)).
Defined.
