(* ===== verification/PortalClient.v ===== *)
(** * The portal's web client ([portal/src/lib/api.ts], [portal/src/lib/format.ts]) and the answers it gets to errors ([common/filters/http-exception.filter.ts])

    [api] sends a request with the session's cookies.  A request that is refused
    for want of a session makes it refresh the session once and send the request
    again; the requests refused meanwhile wait for the same refresh.  The client
    is a state with events: calls made, answers that arrive, calls that go on. *)

From S2P Require Import Prelude Tables JsText Json Schema Storage Presence Server Identity Browser.
From stdpp Require Import pretty.
Local Open Scope Z_scope.

(** ** Errors, as the server answers them: [AllExceptionsFilter] *)

(** [exception.getResponse()] of an [HttpException]; anything else that is
    thrown, with the message of an [Error] *)
Inductive ExceptionResponse := RText (response : text) | RObject (fields : list (text * json)).
Inductive Thrown := HttpException (status : Z) (response : ExceptionResponse) | ErrorThrown (message : text) | OtherThrown.

Definition truthy_json (v : json) : bool :=
  match v with JNull => false | JBool b => b | JInt n => negb (n =? 0) | JStr s => truthy s | _ => true end.
(** [errorCode] *)
Definition status_code (status : Z) : string :=
  if status =? 400 then "VALIDATION_ERROR" else if status =? 401 then "AUTHENTICATION_FAILED" else if status =? 403 then "FORBIDDEN"
  else if status =? 404 then "NOT_FOUND" else if status =? 409 then "CONFLICT" else if status =? 429 then "RATE_LIMITED" else "INTERNAL_ERROR".
Definition field (key : string) (fields : list (text * json)) : option json := prop (lit key) fields.
Definition errorCode (status : Z) (response : ExceptionResponse) : text :=
  match response with
  | RObject fields => match field "code" fields with Some (JStr code) => code | _ => lit (status_code status) end
  | RText _ => lit (status_code status)
  end.
Record ErrorAnswer := mkErrorAnswer { ea_status : Z; ea_code : text; ea_message : json }.
(** [Array.prototype.join] *)
Fixpoint join_with (separator : text) (l : list text) : text :=
  match l with [] => [] | [x] => x | x :: l' => x ++ separator ++ join_with separator l' end.
Section filter.
(** [String] of an array element that is no string *)
Variable element_text : json → text.
Definition message_text (message : json) : json :=
  match message with
  | JArr l => JStr (join_with (lit ", ") ((λ e, match e with JStr s => s | JNull => [] | _ => element_text e end) <$> l))
  | _ => message
  end.
(** What [catch] answers *)
Definition catch_ (exception : Thrown) : ErrorAnswer :=
  match exception with
  | HttpException status response =>
      let message := match response with
        | RText t => JStr t
        | RObject fields => match field "message" fields with
                            | Some m => if truthy_json m then m else JStr (lit "Internal server error")
                            | None => JStr (lit "Internal server error")
                            end
        end in
      mkErrorAnswer status (errorCode status response) (message_text message)
  | ErrorThrown _ | OtherThrown => mkErrorAnswer 500 (lit "INTERNAL_ERROR") (JStr (lit "Internal server error"))
  end.
End filter.

(** ** Cookies in the page: [readCookie] *)

(** [split('; ')] *)
Fixpoint split_cookies (cur l : text) : list text :=
  match l with
  | [] => [reverse cur]
  | c :: l' => match l' with
               | d :: l'' => if (c =? semicolon) && (d =? 32) then reverse cur :: split_cookies [] l'' else split_cookies (c :: cur) l'
               | [] => [reverse (c :: cur)]
               end
  end.
Definition readCookie (cookies name : text) : option text :=
  let key := name ++ [equals] in
  part ← head (filter (λ part, starts_with key part = true) (split_cookies [] cookies));
  match drop (length key) part with
  | [] => None
  | raw => decodeURIComponent raw
  end.

(** ** The client *)

(** An answer: its status and its body, if that is JSON. *)
Record Response := mkResponse { rs_status : Z; rs_body : option json }.
Record Init := mkInit { in_method : text; in_body : option text; in_contentType : bool }.
(** A request as it is sent; [credentials: 'include'] *)
Record Sent := mkSent { sn_path : text; sn_method : text; sn_contentType : bool; sn_csrf : option text }.

Inductive Outcome :=
  | Fulfilled (data : option json)
  | ApiError (message : json) (status : Z) (code : json) (requestId : option json)
  | Rejected.

Definition friendlyStatus (status : Z) : string :=
  if status =? 401 then "Your session has ended. Please sign in again."
  else if status =? 403 then "You do not have permission to do that."
  else if status =? 404 then "That page could not be found."
  else if status =? 429 then "Too many requests. Please pause and try again."
  else "Something went wrong. Please try again.".
Definition response_ok (r : Response) : bool := (200 <=? rs_status r) && (rs_status r <=? 299).
(** [body.error?.key]; [null.error] throws *)
Definition error_field (key : string) (body : json) : option json := e ← get "error" body; get key e.
(** The end of [api], once no refresh is to be tried *)
Definition settle (r : Response) : Outcome :=
  if response_ok r then
    if rs_status r =? 204 then Fulfilled None else
    match rs_body r with Some JNull | None => Rejected | Some body => Fulfilled (get "data" body) end
  else
    let body := default (JObj []) (rs_body r) in
    match body with
    | JNull => Rejected
    | _ => ApiError (match error_field "message" body with Some JNull | None => JStr (lit (friendlyStatus (rs_status r))) | Some m => m end)
             (rs_status r) (default (JStr (lit "REQUEST_FAILED")) (error_field "code" body)) (error_field "requestId" body)
    end.
Definition fulfilled (o : Outcome) : bool := match o with Fulfilled _ => true | _ => false end.

(** Where a call of [api] stands: its request is under way, with [allowRefresh];
    it was refused and waits for a refresh; it has settled. *)
Inductive Phase :=
  | Fetching (allowRefresh : bool)
  | Waiting (refused : Response) (refresh : nat)
  | Settled (outcome : Outcome).
Record Call := mkCall { ca_path : text; ca_init : Init; ca_phase : Phase }.
#[export] Instance eta_Call : Eta Call := λ r, mkCall (ca_path r) (ca_init r) (ca_phase r).
(** A promise of [refreshSession]: whether it is settled, and how *)
Inductive Refresh := InFlight | Refreshed (result : bool).

(** The calls and the refreshes that were ever made, the variable
    [refreshPromise], [document.cookie] and the requests sent: of a call, or of
    a refresh. *)
Record Client := mkClient {
  cl_calls : list Call; cl_refreshes : list Refresh; cl_refreshPromise : option nat; cl_cookies : text; cl_log : list (option nat * Sent) }.
#[export] Instance eta_Client : Eta Client := λ r, mkClient (cl_calls r) (cl_refreshes r) (cl_refreshPromise r) (cl_cookies r) (cl_log r).

Section client.
Variable toUpperCase : text → text.

Definition unsafeMethods : list text := lit <$> ["POST"; "PATCH"; "PUT"; "DELETE"].
Definition auth_path : text := lit "/api/portal/auth/".
Definition refresh_path : text := lit "/api/portal/auth/refresh".
(** The part of [api] before the answer *)
Definition request_of (cookies path : text) (init : Init) : Sent :=
  let method := toUpperCase (in_method init) in
  mkSent path method (truthy_opt (in_body init) || in_contentType init)
    (if bool_decide (method ∈ unsafeMethods) then
       match readCookie cookies (lit "oc_csrf") with Some ((_ :: _) as csrf) => Some csrf | _ => None end
     else None).

Definition set_phase (i : nat) (phase : Phase) (c : Client) : Client := c <| cl_calls := alter (λ x, x <| ca_phase := phase |>) i (cl_calls c) |>.
Definition send_request (who : option nat) (path : text) (init : Init) (c : Client) : Client :=
  c <| cl_log := cl_log c ++ [(who, request_of (cl_cookies c) path init)] |>.
(** [refreshSession], up to its promise *)
Definition refreshSession (c : Client) : nat * Client :=
  match cl_refreshPromise c with
  | Some k => (k, c)
  | None =>
      let k := length (cl_refreshes c) in
      (k, send_request None refresh_path (mkInit (lit "POST") None false)
            (c <| cl_refreshes := cl_refreshes c ++ [InFlight] |> <| cl_refreshPromise := Some k |>))
  end.

Inductive ClientEvent :=
  | E_call (path : text) (init : Init)
  | E_response (i : nat) (answer : option Response)
  | E_refreshed (k : nat) (answer : option Response)
  | E_resume (i : nat)
  | E_cookies (cookies : text).

(** One event; one that cannot happen changes nothing. *)
Definition client_step (c : Client) (e : ClientEvent) : Client :=
  match e with
  | E_call path init => send_request (Some (length (cl_calls c))) path init (c <| cl_calls := cl_calls c ++ [mkCall path init (Fetching true)] |>)
  | E_response i answer =>
      match cl_calls c !! i with
      | Some (mkCall path init (Fetching allowRefresh)) =>
          match answer with
          | None => set_phase i (Settled Rejected) c
          | Some r =>
              if (rs_status r =? 401) && allowRefresh && negb (starts_with auth_path path)
              then let '(k, c') := refreshSession c in set_phase i (Waiting r k) c'
              else set_phase i (Settled (settle r)) c
          end
      | _ => c
      end
  | E_refreshed k answer =>
      match cl_refreshes c !! k with
      | Some InFlight =>
          c <| cl_refreshes := <[k := Refreshed (match answer with Some r => fulfilled (settle r) | None => false end)]> (cl_refreshes c) |>
            <| cl_refreshPromise := None |>
      | _ => c
      end
  | E_resume i =>
      match cl_calls c !! i with
      | Some (mkCall path init (Waiting refused k)) =>
          match cl_refreshes c !! k with
          | Some (Refreshed true) => send_request (Some i) path init (set_phase i (Fetching false) c)
          | Some (Refreshed false) => set_phase i (Settled (settle refused)) c
          | _ => c
          end
      | _ => c
      end
  | E_cookies cookies => c <| cl_cookies := cookies |>
  end.
Definition client_run (c : Client) (events : list ClientEvent) : Client := foldl client_step c events.
Definition new_client (cookies : text) : Client := mkClient [] [] None cookies [].
End client.

(** ** Formats ([lib/format.ts]) *)

Definition number_text (n : Z) : text := lit (pretty n).
(** [formatDuration], of whole seconds *)
Definition formatDuration (seconds : option Z) : text :=
  match seconds with
  | None => lit "In progress"
  | Some s => let mins := s / 60 in let secs := Z.rem s 60 in
              if mins <? 1 then number_text secs ++ lit "s" else number_text mins ++ lit "m " ++ number_text secs ++ lit "s"
  end.
Section format.
Variables toUpperCase toLowerCase : text → text.
Definition underscore_to_space (c : Z) : Z := if c =? 95 then 32 else c.
(** [sentenceCase]; [\w] is a letter, a digit or an underscore *)
Definition is_w (c : Z) : bool := ((48 <=? c) && (c <=? 57)) || ((65 <=? c) && (c <=? 90)) || ((97 <=? c) && (c <=? 122)) || (c =? 95).
Definition sentenceCase (value : option text) : text :=
  if truthy_opt value then
    match toLowerCase (underscore_to_space <$> default [] value) with
    | c :: l => if is_w c then toUpperCase [c] ++ l else c :: l
    | [] => []
    end
  else lit "Unknown".
End format.
(** [shortId]; the dash and the ellipsis are U+2014 and U+2026 *)
Definition shortId (value : option text) : text :=
  if truthy_opt value then
    let v := default [] value in
    if (16 <? length v)%nat then take 8 v ++ [8230] ++ drop (length v - 5) v else v
  else [8212].

(** ** The client's invariant *)

Section invariant.
Variable toUpperCase : text → text.
Implicit Types (c : Client) (e : ClientEvent).
Abbreviation step := (client_step toUpperCase).
Abbreviation run := (client_run toUpperCase).

(** The requests sent for a call, [None] for the refreshes. *)
Definition sent_for (who : option nat) c : nat := length (filter (λ x, x.1 = who) (cl_log c)).

(** What a call has sent where it stands. *)
Definition sent_by (succeeded : bool) (path : text) (n : nat) (p : Phase) : Prop :=
  match p with
  | Fetching true => n = 1%nat
  | Fetching false => n = 2%nat ∧ succeeded = true ∧ starts_with auth_path path = false
  | Waiting refused _ => n = 1%nat ∧ starts_with auth_path path = false ∧ response_ok refused = false
  | Settled _ => n = 1%nat ∨ (n = 2%nat ∧ succeeded = true ∧ starts_with auth_path path = false)
  end.
(** A refresh has succeeded. *)
Definition refreshed c : bool := existsb (λ r, match r with Refreshed true => true | _ => false end) (cl_refreshes c).

Record ClientOk c : Prop := mkClientOk {
  ok_promise : ∀ k, cl_refreshes c !! k = Some InFlight ↔ cl_refreshPromise c = Some k;
  ok_waiting : ∀ i x refused k, cl_calls c !! i = Some x → ca_phase x = Waiting refused k → is_Some (cl_refreshes c !! k);
  ok_sent : ∀ i x, cl_calls c !! i = Some x → sent_by (refreshed c) (ca_path x) (sent_for (Some i) c) (ca_phase x);
  ok_future : ∀ i, (length (cl_calls c) <= i)%nat → sent_for (Some i) c = 0%nat;
  ok_refreshes : sent_for None c = length (cl_refreshes c);
}.

Lemma sent_by_mono b b' path n p : (b = true → b' = true) → sent_by b path n p → sent_by b' path n p.
Proof. destruct p as [[]| |]; simpl; naive_solver. Qed.
Lemma sent_for_send who who' path init c :
  sent_for who (send_request toUpperCase who' path init c) = (sent_for who c + if decide (who = who') then 1 else 0)%nat.
Proof.
  unfold sent_for, send_request. simpl. rewrite filter_app, length_app. f_equal.
  destruct (decide (who = who')) as [->|Hne]; [by rewrite filter_cons_True|]. by rewrite filter_cons_False by (simpl; congruence).
Qed.
Lemma phase_at i j p c x : cl_calls (set_phase i p c) !! j = Some x →
  ∃ y, cl_calls c !! j = Some y ∧ ca_path x = ca_path y ∧ ca_phase x = if decide (i = j) then p else ca_phase y.
Proof.
  unfold set_phase. simpl. destruct (decide (i = j)) as [<-|Hne].
  - rewrite list_lookup_alter_eq. destruct (cl_calls c !! i) as [y|]; simpl; [|done]. intros [= <-]. by exists y.
  - rewrite list_lookup_alter_ne by done. intros ->. by exists x.
Qed.

(** A call moves on. *)
Lemma set_phase_ok i x p c : ClientOk c → cl_calls c !! i = Some x →
  (∀ refused k, p = Waiting refused k → is_Some (cl_refreshes c !! k)) →
  sent_by (refreshed c) (ca_path x) (sent_for (Some i) c) p → ClientOk (set_phase i p c).
Proof.
  intros [H1 H2 H3 H4 H5] Hx Hk Hp. split; [done| | | |done].
  - intros j y refused k (z & Hz & _ & Hph)%phase_at Hw. rewrite Hw in Hph. case_decide; [by eapply Hk|by eapply H2].
  - intros j y (z & Hz & -> & ->)%phase_at. case_decide as Hij; [subst j; by simplify_eq|by apply H3].
  - intros j. unfold set_phase. simpl. rewrite length_alter. apply H4.
Qed.

(** A refresh is started, or joined. *)
Lemma refreshSession_ok c k c' : ClientOk c → refreshSession toUpperCase c = (k, c') →
  ClientOk c' ∧ is_Some (cl_refreshes c' !! k) ∧ cl_calls c' = cl_calls c
  ∧ (∀ i, sent_for (Some i) c' = sent_for (Some i) c) ∧ (refreshed c = true → refreshed c' = true).
Proof.
  intros Hok. unfold refreshSession. destruct (cl_refreshPromise c) as [k0|] eqn:Hp.
  - intros [= <- <-]. split_and!; [done|by exists InFlight; apply ok_promise|done..].
  - destruct Hok as [H1 H2 H3 H4 H5]. intros [= <- <-].
    set (c0 := c <| cl_refreshes := _ |> <| cl_refreshPromise := _ |>).
    assert (refreshed c = true → refreshed c0 = true) as Hmono.
    { unfold refreshed, c0. simpl. rewrite existsb_app. by intros ->. }
    assert (∀ i, sent_for (Some i) (send_request toUpperCase None refresh_path (mkInit (lit "POST") None false) c0) = sent_for (Some i) c) as Hsent
      by (intros i; rewrite sent_for_send, decide_False by done; unfold sent_for; simpl; lia).
    split_and!; [split|by exists InFlight; simpl; rewrite lookup_app_r, Nat.sub_diag by lia|done|done|exact Hmono]; simpl.
    + intros k. rewrite lookup_app. destruct (cl_refreshes c !! k) as [r|] eqn:Hk.
      * split; [intros [= ->]; by apply H1 in Hk; rewrite Hp in Hk|intros [= <-]]. apply lookup_lt_Some in Hk. lia.
      * apply lookup_ge_None in Hk. rewrite list_lookup_singleton_Some. split; [intros [? _]; f_equal; lia|intros [= ->]; split; [lia|done]].
    + intros i x refused k Hx Hw. destruct (H2 i x refused k Hx Hw) as [r Hr]. exists r. by apply lookup_app_l_Some.
    + intros i x Hx. rewrite Hsent. eapply sent_by_mono; [exact Hmono|]. by apply H3.
    + intros i Hi. rewrite Hsent. by apply H4.
    + rewrite sent_for_send, decide_True by done. unfold sent_for in *. simpl. rewrite length_app. simpl. lia.
Qed.

(** A new call. *)
Lemma call_ok path init c : ClientOk c → ClientOk (step c (E_call path init)).
Proof.
  intros [H1 H2 H3 H4 H5]. simpl. set (c0 := c <| cl_calls := _ |>).
  assert (∀ who, sent_for who c0 = sent_for who c) as Hc0 by done.
  split; [done| | | |].
  - intros i x refused k Hx Hw. simpl in Hx. apply lookup_app_Some in Hx as [Hx|[_ Hx]]; [by eapply H2|].
    apply list_lookup_singleton_Some in Hx as [_ <-]. done.
  - intros i x Hx. simpl in Hx. rewrite sent_for_send, Hc0. apply lookup_app_Some in Hx as [Hx|[Hge Hx]].
    + rewrite decide_False by (intros [= ->]; apply lookup_lt_Some in Hx; lia). rewrite Nat.add_0_r. by apply H3.
    + apply list_lookup_singleton_Some in Hx as [Hi <-]. rewrite (H4 i Hge), decide_True by (f_equal; lia). done.
  - intros i Hi. simpl in Hi. rewrite length_app in Hi. simpl in Hi. rewrite sent_for_send, Hc0, H4, decide_False by (try lia; intros [= ->]; lia). done.
  - rewrite sent_for_send, Hc0, decide_False by done. simpl. lia.
Qed.
(** A refresh is answered. *)
Lemma refreshed_ok k b c : ClientOk c → cl_refreshes c !! k = Some InFlight →
  ClientOk (c <| cl_refreshes := <[k := Refreshed b]> (cl_refreshes c) |> <| cl_refreshPromise := None |>).
Proof.
  intros [H1 H2 H3 H4 H5] Hk. apply H1 in Hk as Hp. split; simpl.
  - intros k'. split; [|done]. intros [(-> & [= ] & _)|[Hne Hk']]%list_lookup_insert_Some. apply H1 in Hk'. congruence.
  - intros i x refused k' Hx Hw. destruct (H2 i x refused k' Hx Hw) as [r Hr]. rewrite list_lookup_insert_is_Some. by exists r.
  - intros i x Hx. eapply sent_by_mono; [|by apply H3]. unfold refreshed. simpl. rewrite !existsb_exists.
    intros (r & (j & Hj)%list_elem_of_In%list_elem_of_lookup & Hr). exists r. split; [|done]. apply list_elem_of_In, list_elem_of_lookup. exists j.
    rewrite list_lookup_insert_ne; [done|]. intros ->. rewrite Hj in Hk. by injection Hk as ->.
  - done.
  - by rewrite length_insert.
Qed.
(** A call is sent once more, after a refresh that succeeded. *)
Lemma retry_ok i x refused k c : ClientOk c → cl_calls c !! i = Some x → ca_phase x = Waiting refused k → cl_refreshes c !! k = Some (Refreshed true) →
  ClientOk (send_request toUpperCase (Some i) (ca_path x) (ca_init x) (set_phase i (Fetching false) c)).
Proof.
  intros [H1 H2 H3 H4 H5] Hx Hw Hk. pose proof (H3 i x Hx) as Hs. rewrite Hw in Hs. destruct Hs as (Hn & Hauth & _).
  assert (refreshed c = true) as Hr.
  { unfold refreshed. apply existsb_exists. exists (Refreshed true). split; [|done]. apply list_elem_of_In. by eapply list_elem_of_lookup_2. }
  assert (∀ who, sent_for who (set_phase i (Fetching false) c) = sent_for who c) as Hc0 by done.
  split; [done| | | |].
  - intros j y refused' k' Hy Hw'. apply phase_at in Hy as (z & Hz & _ & Hph). rewrite Hw' in Hph. case_decide; [done|]. by eapply H2.
  - intros j y Hy. rewrite sent_for_send, Hc0. apply phase_at in Hy as (z & Hz & -> & ->). destruct (decide (i = j)) as [<-|Hij].
    + simplify_eq. rewrite decide_True by done. simpl. split_and!; [lia|exact Hr|done].
    + rewrite decide_False by congruence. rewrite Nat.add_0_r. by apply H3.
  - intros j Hj. rewrite sent_for_send, Hc0. simpl in Hj. rewrite length_alter in Hj. rewrite H4, decide_False; [done| |done].
    intros [= ->]. apply lookup_lt_Some in Hx. lia.
  - rewrite sent_for_send, Hc0, decide_False by done. simpl. lia.
Qed.

Lemma step_ok c e : ClientOk c → ClientOk (step c e).
Proof.
  intros Hok. destruct e as [path init|i answer|k answer|i|cookies]; [by apply call_ok| | | |by destruct Hok; split].
  - simpl. destruct (cl_calls c !! i) as [[path init [allow|refused k|o]]|] eqn:Hx; [|done..]. pose proof (ok_sent c Hok i _ Hx) as Hs. simpl in Hs.
    assert (∀ o, sent_by (refreshed c) path (sent_for (Some i) c) (Settled o)) as Hset by (intros; simpl; destruct allow; simpl in Hs; tauto).
    destruct answer as [r|]; [|by eapply set_phase_ok].
    destruct ((rs_status r =? 401) && allow && negb (starts_with auth_path path)) eqn:Hcond; [|by eapply set_phase_ok].
    bool_inv. subst allow. destruct (refreshSession toUpperCase c) as [k c'] eqn:Href. destruct (refreshSession_ok c k c' Hok Href) as (Hok' & Hk & Hcalls & Hsent & _).
    eapply set_phase_ok; [done|by rewrite Hcalls|by intros ? ? [= _ <-]|]. simpl. rewrite Hsent. split_and!; [done|done|].
    unfold response_ok. replace (rs_status r) with 401 by (symmetry; by apply Z.eqb_eq). done.
  - simpl. destruct (cl_refreshes c !! k) as [[]|] eqn:Hk; [|done..]. by apply refreshed_ok.
  - simpl. destruct (cl_calls c !! i) as [[path init [allow|refused k|o]]|] eqn:Hx; [done| |done..].
    destruct (cl_refreshes c !! k) as [[|[]]|] eqn:Hk; [done| | |done].
    + by apply (retry_ok i (mkCall path init (Waiting refused k)) refused k).
    + eapply set_phase_ok; [done..|]. pose proof (ok_sent c Hok i _ Hx) as Hs. simpl in *. tauto.
Qed.
Lemma new_client_ok cookies : ClientOk (new_client cookies).
Proof. by split. Qed.
Lemma run_ok cookies events : ClientOk (run (new_client cookies) events).
Proof.
  assert (∀ c, ClientOk c → ClientOk (run c events)) as Hrun; [|apply Hrun, new_client_ok].
  induction events as [|e events IH]; intros c Hc; [done|]. by apply IH, step_ok.
Qed.

(** C24: whatever calls the page makes and however their answers are interleaved,
    at most one refresh of the session is under way at any time; a call is sent
    at most twice, the second time only when a refresh has succeeded, and a call
    of the authentication routes once. *)
Theorem client_refreshes_once cookies events :
  let c := run (new_client cookies) events in
  (∀ k k', cl_refreshes c !! k = Some InFlight → cl_refreshes c !! k' = Some InFlight → k = k')
  ∧ ∀ i x, cl_calls c !! i = Some x →
      sent_for (Some i) c = 1%nat ∨ (sent_for (Some i) c = 2%nat ∧ refreshed c = true ∧ starts_with auth_path (ca_path x) = false).
Proof.
  intros c. pose proof (run_ok cookies events) as Hok. split.
  - intros k k' Hk%(ok_promise _ Hok) Hk'%(ok_promise _ Hok). congruence.
  - intros i x Hx. pose proof (ok_sent _ Hok i x Hx) as Hs. destruct (ca_phase x) as [[]| |]; simpl in Hs; tauto.
Qed.

(** ** The calls come to an end *)

(** What is left to happen to a call, and to a refresh. *)
Definition call_weight (x : Call) : nat :=
  match ca_phase x with Fetching true => 4 | Waiting _ _ => 2 | Fetching false => 1 | Settled _ => 0 end.
Definition refresh_weight (r : Refresh) : nat := match r with InFlight => 1 | Refreshed _ => 0 end.
Definition pending c : nat := (sum_list_with call_weight (cl_calls c) + sum_list_with refresh_weight (cl_refreshes c))%nat.
(** An event that something waits for. *)
Definition due c e : bool :=
  match e with
  | E_response i _ => match cl_calls c !! i with Some x => match ca_phase x with Fetching _ => true | _ => false end | None => false end
  | E_refreshed k _ => match cl_refreshes c !! k with Some InFlight => true | _ => false end
  | E_resume i => match cl_calls c !! i with
                  | Some x => match ca_phase x with
                              | Waiting _ k => match cl_refreshes c !! k with Some (Refreshed _) => true | _ => false end
                              | _ => false
                              end
                  | None => false
                  end
  | E_call _ _ | E_cookies _ => false
  end.
Fixpoint all_due c (events : list ClientEvent) : bool := match events with [] => true | e :: events' => due c e && all_due (step c e) events' end.
Definition settled (x : Call) : bool := match ca_phase x with Settled _ => true | _ => false end.

Lemma sum_alter (f : Call → Call) i l x : l !! i = Some x →
  (sum_list_with call_weight (alter f i l) + call_weight x = sum_list_with call_weight l + call_weight (f x))%nat.
Proof.
  revert i. induction l as [|y l IH]; intros [|i] Hi; simplify_eq/=; [lia|]. specialize (IH i Hi). lia.
Qed.
Lemma sum_insert k b l : l !! k = Some InFlight → (sum_list_with refresh_weight (<[k := Refreshed b]> l) < sum_list_with refresh_weight l)%nat.
Proof. revert k. induction l as [|y l IH]; intros [|k] Hk; simplify_eq/=; [lia|]. specialize (IH k Hk). lia. Qed.
Lemma pending_phase i x p c : cl_calls c !! i = Some x →
  (pending (set_phase i p c) + call_weight x = pending c + call_weight (mkCall (ca_path x) (ca_init x) p))%nat.
Proof. intros Hx. unfold pending, set_phase. simpl. pose proof (sum_alter (λ y, y <| ca_phase := p |>) i (cl_calls c) x Hx) as H. simpl in H. unfold call_weight in *. simpl in *. lia. Qed.

Lemma due_progress c e : due c e = true → (pending (step c e) < pending c)%nat.
Proof.
  destruct e as [path init|i answer|k answer|i|cookies]; simpl; [done| | | |done].
  - destruct (cl_calls c !! i) as [[path init [allow|refused k|o]]|] eqn:Hx; simpl; [|done..]. intros _.
    assert (∀ o, (pending (set_phase i (Settled o) c) < pending c)%nat) as Hset
      by (intros o; pose proof (pending_phase i _ (Settled o) c Hx) as Hw; unfold call_weight in Hw; simpl in Hw; destruct allow; lia).
    destruct answer as [r|]; [|done]. destruct ((rs_status r =? 401) && allow && _) eqn:Hcond; [|done]. bool_inv. subst allow.
    unfold refreshSession. destruct (cl_refreshPromise c) as [k|].
    + pose proof (pending_phase i _ (Waiting r k) c Hx) as Hw. unfold call_weight in Hw. simpl in Hw. lia.
    + match goal with |- (pending (set_phase i ?p ?c') < _)%nat => pose proof (pending_phase i _ p c' Hx) as Hw; assert (pending c' = pending c + 1)%nat as Hone end.
      { unfold pending. simpl. rewrite sum_list_with_app. simpl. lia. }
      unfold call_weight in Hw. simpl in Hw. lia.
  - destruct (cl_refreshes c !! k) as [[]|] eqn:Hk; [|done..]. intros _. unfold pending. simpl.
    pose proof (sum_insert k (match answer with Some r => fulfilled (settle r) | None => false end) (cl_refreshes c) Hk). lia.
  - destruct (cl_calls c !! i) as [[path init [allow|refused k|o]]|] eqn:Hx; simpl; [done| |done..].
    destruct (cl_refreshes c !! k) as [[|[]]|]; [done| | |done]; intros _.
    + pose proof (pending_phase i _ (Fetching false) c Hx) as Hw. unfold call_weight in Hw. simpl in Hw. unfold pending in *. simpl in *. lia.
    + pose proof (pending_phase i _ (Settled (settle refused)) c Hx) as Hw. unfold call_weight in Hw. simpl in Hw. lia.
Qed.

(** C25: the calls made so far come to an end: as long as one of them has not
    settled, an answer to a request under way or a call that may go on is due,
    and when no further calls are made at most [pending] such events can follow. *)
Theorem client_calls_settle cookies events :
  let c := run (new_client cookies) events in
  (∀ i x, cl_calls c !! i = Some x → settled x = false → ∃ e, due c e = true)
  ∧ ∀ rest, all_due c rest = true → (length rest <= pending c)%nat.
Proof.
  intros c. pose proof (run_ok cookies events) as Hok. fold c in Hok. split.
  - intros i x Hx Hs. destruct (ca_phase x) as [allow|refused k|o] eqn:Hp; [| |by unfold settled in Hs; rewrite Hp in Hs].
    + exists (E_response i None). simpl. by rewrite Hx, Hp.
    + destruct (ok_waiting c Hok i x refused k Hx Hp) as [[|b] Hk].
      * exists (E_refreshed k None). simpl. by rewrite Hk.
      * exists (E_resume i). simpl. by rewrite Hx, Hp, Hk.
  - intros rest. clear Hok. clearbody c. revert c. induction rest as [|e rest IH]; intros c Hdue; simpl in *; [lia|]. bool_inv.
    pose proof (due_progress c e ltac:(done)). specialize (IH (step c e) ltac:(done)). lia.
Qed.
End invariant.

(** ** The CSRF token in the page and in the request *)

Section cookies.
Implicit Types (l a b name value : text).

Lemma split_cookies_app cur a b : Forall (λ d, d =? semicolon = false) a →
  split_cookies cur (a ++ semicolon :: 32 :: b) = (reverse cur ++ a) :: split_cookies [] b.
Proof.
  intros Ha. revert cur. induction Ha as [|d a Hd Ha IH]; intros cur; [by simpl; rewrite app_nil_r|].
  transitivity (split_cookies (d :: cur) (a ++ semicolon :: 32 :: b)).
  - simpl. destruct (a ++ semicolon :: 32 :: b) as [|x l'] eqn:E; [by destruct a|]. by rewrite Hd.
  - by rewrite IH, reverse_cons, <- (assoc_L app).
Qed.
Lemma split_cookies_last cur a : Forall (λ d, d =? semicolon = false) a → split_cookies cur a = [reverse cur ++ a].
Proof.
  intros Ha. revert cur. induction Ha as [|d a Hd Ha IH]; intros cur; [by simpl; rewrite app_nil_r|].
  transitivity (split_cookies (d :: cur) a).
  - simpl. destruct a as [|x l']; [done|]. by rewrite Hd.
  - by rewrite IH, reverse_cons, <- (assoc_L app).
Qed.
Lemma split_header_cookies cookies : Forall plain_cookie cookies → cookies ≠ [] → split_cookies [] (cookie_header cookies) = render <$> cookies.
Proof.
  intros Hp. induction Hp as [|cookie cookies Hc Hp IH]; intros Hne; [done|].
  pose proof (render_no_semicolon [] cookie Hc (or_introl eq_refl)) as Hr. simpl app in Hr. destruct cookies as [|cookie2 cookies]; [by apply split_cookies_last|].
  change (cookie_header (cookie :: cookie2 :: cookies)) with (render cookie ++ semicolon :: 32 :: cookie_header (cookie2 :: cookies)).
  rewrite split_cookies_app by done. by rewrite IH.
Qed.

(** The key of a cookie finds that cookie. *)
Lemma starts_with_name name cookie : Forall (λ c, c =? equals = false) name → plain_cookie cookie →
  starts_with (name ++ [equals]) (render cookie) = true ↔ cookie.1 = name.
Proof.
  intros Hname (Hn & _). apply plain_parts in Hn as (_ & _ & Hn & _). unfold starts_with, render. rewrite bool_decide_eq_true. split.
  - intros Htake. pose proof (take_drop (length (name ++ [equals])) (cookie.1 ++ equals :: cookie.2)) as Heq. rewrite Htake, <- (assoc_L app) in Heq.
    apply (f_equal (cut equals)) in Heq. simpl app in Heq. rewrite !cut_app in Heq by done. by injection Heq.
  - intros ->. rewrite (assoc_L app name [equals] cookie.2 : name ++ equals :: cookie.2 = (name ++ [equals]) ++ cookie.2). by rewrite take_app_length.
Qed.
Lemma find_cookie name value cookies : Forall plain_cookie cookies → (∀ v, (name, v) ∈ cookies → v = value) → (name, value) ∈ cookies →
  head (filter (λ part, starts_with (name ++ [equals]) part = true) (render <$> cookies)) = Some (render (name, value)).
Proof.
  intros Hp Hone Hin. assert (plain_cookie (name, value)) as Hpl by (rewrite Forall_forall in Hp; by apply Hp).
  assert (Forall (λ c, c =? equals = false) name) as Hname by (destruct Hpl as [Hn _]; by apply plain_parts in Hn as (_ & _ & Hn & _)).
  induction Hp as [|cookie cookies Hc Hp IH]; [by apply elem_of_nil in Hin|]. rewrite fmap_cons. destruct (decide (cookie.1 = name)) as [Heq|Hne].
  - rewrite filter_cons_True by (by apply starts_with_name). simpl. destruct cookie as [n v]. simpl in Heq. subst n. do 3 f_equal. apply Hone. by left.
  - rewrite filter_cons_False by (by rewrite starts_with_name). apply IH; [by intros v Hv; apply Hone; right|].
    apply elem_of_cons in Hin as [<-|Hin]; [by destruct Hne|done].
Qed.
Lemma fold_cookies name value (cookies : list (text * text)) (m : gmap text text) : (∀ v, (name, v) ∈ cookies → v = value) →
  m !! name = Some value ∨ (name, value) ∈ cookies →
  foldl (λ m (cookie : text * text), <[cookie.1 := cookie.2]> m) m cookies !! name = Some value.
Proof.
  revert m. induction cookies as [|[n v] cookies IH]; intros m Hone Hm; simpl.
  - destruct Hm as [?|Hm]; [done|by apply elem_of_nil in Hm].
  - apply IH; [by intros v' Hv'; apply Hone; right|]. destruct (decide (n = name)) as [->|Hne].
    + left. rewrite (Hone v) by left. by rewrite lookup_insert_eq.
    + destruct Hm as [Hm|[[= -> _]|Hm]%elem_of_cons]; [left; by rewrite lookup_insert_ne|done|by right].
Qed.

(** A browser's cookies, those the page cannot read marked; [document.cookie]
    and the [Cookie] header *)
Definition document_cookie (jar : list (bool * (text * text))) : text := cookie_header ((filter (λ x, x.1 = false) jar).*2).
Definition request_cookie (jar : list (bool * (text * text))) : option text := Some (cookie_header jar.*2).


(** [readCookie] takes the first cookie of the name, [parseCookies] the last:
    with a cookie of another path before it the page sends one token and the
    server compares it with the other. *)
Lemma two_csrf_cookies_differ :
  let jar := [(false, (csrf_cookie, lit "old")); (false, (csrf_cookie, lit "new"))] in
  sn_csrf (request_of (λ t, t) (document_cookie jar) (lit "/api/portal/profile") (mkInit (lit "POST") None false)) = Some (lit "old")
  ∧ parseCookies (request_cookie jar) !! csrf_cookie = Some (lit "new").
Proof. split; vm_compute; reflexivity. Qed.
End cookies.

(** ** On concrete calls *)


Definition demo_init : Init := mkInit (lit "GET") None false.
Definition unauthorized : Response := mkResponse 401 (Some (JObj [])).
Definition demo_answer : Response := mkResponse 200 (Some (JObj [(lit "data", JInt 7)])).
(** Two calls are refused, one refresh, both are sent again. *)
Definition demo_events : list ClientEvent :=
  [E_call (lit "/api/portal/summary") demo_init; E_call (lit "/api/portal/devices") demo_init; E_response 0 (Some unauthorized);
   E_response 1 (Some unauthorized); E_refreshed 0 (Some (mkResponse 200 (Some (JObj [])))); E_resume 0; E_resume 1;
   E_response 1 (Some demo_answer); E_response 0 (Some unauthorized)].
Example demo_run : let c := client_run (λ t, t) (new_client []) demo_events in
  (ca_phase <$> cl_calls c, cl_refreshes c, (λ x, x.1) <$> cl_log c)
  = ([Settled (ApiError (JStr (lit "Your session has ended. Please sign in again.")) 401 (JStr (lit "REQUEST_FAILED")) None); Settled (Fulfilled (Some (JInt 7)))],
     [Refreshed true], [Some 0; Some 1; None; Some 0; Some 1]%nat).
Proof. vm_compute. reflexivity. Qed.
Example demo_durations : formatDuration <$> [Some 125; Some 59; None] = [lit "2m 5s"; lit "59s"; lit "In progress"].
Proof. vm_compute. reflexivity. Qed.
Example demo_short : shortId (Some (lit "0123456789abcdefXYZ")) = lit "01234567" ++ [8230] ++ lit "efXYZ".
Proof. vm_compute. reflexivity. Qed.
Example demo_cookie : readCookie (lit "theme=dark; oc_csrf=a%2Fb; x=1") (lit "oc_csrf") = Some (lit "a/b").
Proof. vm_compute. reflexivity. Qed.
Example demo_validation : catch_ (λ _, []) (HttpException 400 (RObject [(lit "message", JArr [JStr (lit "a"); JStr (lit "b")])])) =
  mkErrorAnswer 400 (lit "VALIDATION_ERROR") (JStr (lit "a, b")).
Proof. vm_compute. reflexivity. Qed.
