(* ===== verification/Handshake.v ===== *)
(** * Socket handshakes ([SocketAuthService.configure], common/socket-auth.service.ts)

    The middleware that lets a socket in, or refuses it with a code.  [Presence]
    starts where it ends: with a socket that carries a user and a device. *)

From S2P Require Import Prelude Tables JsText JsNumber Json Schema Config RateLimit Storage Presence AssetPack Server Identity Browser Lockout AdminSafety Staff.
Local Open Scope Z_scope.

(** [client.handshake]: its address, and [auth.token], [auth.protocolVersion]
    and [auth.deviceId], which are whatever the client sent. *)
Record Handshake := mkHandshake { hs_address : string; hs_token : option json; hs_protocolVersion : option json; hs_deviceId : option json }.

(** [next()], after which [client.data] holds the user and the device, or
    [next(new Error(code))] *)
Inductive Decision := Authenticated (userId deviceId : rowid) | Rejected (code : string).

(** [typeof value !== 'string'], for the three of them *)
Definition texts (h : Handshake) : option (text * text * text) :=
  match hs_token h, hs_protocolVersion h, hs_deviceId h with
  | Some (JStr token), Some (JStr version), Some (JStr deviceId) => Some (token, version, deviceId)
  | _, _, _ => None
  end.

Section handshake.
Context {B : Type}.
Variable others : nat → Server B → Server B.
(** [jwt.verifyAsync] of an access token, at a time: its [sub] (empty without
    one) and its [deviceId] *)
Variable verify_access : text → instant → option (rowid * rowid).
(** [Number(SOCKET_AUTH_RATE_LIMIT)] *)
Variable limit : number.
Variable protocol : ProtocolConfig.
Abbreviation Srv := (Server B).

(** What follows the limiter *)
Definition let_in (h : Handshake) : Act Srv Decision :=
  match texts h with
  | None => mret (Rejected "AUTHENTICATION_REQUIRED")
  | Some (token, version, deviceId) =>
      if version != protocolVersion protocol then mret (Rejected "UNSUPPORTED_PROTOCOL_VERSION") else
      now ← sv_clock;
      sv_await others ;;
      match verify_access token now with
      | None => mret (Rejected "AUTHENTICATION_FAILED")
      | Some (sub, dv) =>
          if (sub == "") || (lit dv != deviceId) then mret (Rejected "AUTHENTICATION_FAILED") else
          d ← sv_query others (λ d, d);
          now ← sv_clock;
          mret (if isSessionActive sub dv now d then Authenticated sub dv else Rejected "AUTHENTICATION_FAILED")
      end
  end.

Definition address_key (h : Handshake) : string := if hs_address h == "" then "unknown" else hs_address h.
(** The middleware: its decision, and the attempts as the limiter leaves them;
    they are not read again. *)
Definition handshake (h : Handshake) (m : RateLimit.attempts) : Act Srv (Decision * RateLimit.attempts) :=
  now ← sv_clock;
  let '(allowed, m') := allowAttempt limit (address_key h) now m in
  if allowed then d ← let_in h; mret (d, m') else mret (Rejected "RATE_LIMITED", m').
End handshake.

(** ** Sockets and requests agree *)

(** In a well-formed database a socket of a device is found active exactly when
    a request with its token is accepted: one looks at the deletion request of
    the account, the other at its status alone. *)
Lemma active_iff_validated d u dv now : AccountsWf d → dv ≠ "" →
  isSessionActive u dv now d = true ↔ ∃ p, validate_token u dv now d d = Ok p.
Proof.
  intros [Hrow _ _ _] Hdv. unfold isSessionActive, validate_token, session_of.
  change (λ (_ : rowid) s, of_device u dv s) with (λ (_ : rowid) s, (ds_userId s == u) && (ds_deviceId s == dv)).
  rewrite (bool_decide_eq_false_2 (dv = "")) by done.
  destruct (find_unique _ (db_deviceSessions d)) as [[k s]|]; [|naive_solver].
  unfold user_open_id, user_open. rewrite Z.ltb_antisym.
  destruct (is_set (ds_revokedAt s)), (ds_expiresAt s <=? now); simpl; try (split; [done|by intros [? [=]]]).
  destruct (db_users d !! u) as [r|] eqn:Hr; [|naive_solver].
  pose proof (ao_deletion _ (Hrow _ _ Hr)) as Hdel.
  destruct (u_accountStatus r == ACTIVE) eqn:Ha; [|naive_solver]. split; [eauto|intros _].
  destruct (u_deletionRequestedAt r); [|done]. apply bool_decide_eq_true in Ha. rewrite Hdel in Ha by eauto. done.
Qed.

Section answers.
Context {B : Type}.
Variable others : nat → Server B → Server B.
Variable verify_access : text → instant → option (rowid * rowid).
Variable limit : number.
Variable protocol : ProtocolConfig.
Context (others_keep : ∀ n s, AccountsWf (sv_db s) → AccountsWf (sv_db (others n s))).
Implicit Types (s : Server B).
Abbreviation accepted s u dv := (∃ p, validate_token u dv (sv_now s) (sv_db s) (sv_db s) = Ok p).

(** What an answer other than [RATE_LIMITED] says, when the database is left as
    the check of the session found it, in [s'] *)
Definition answers (h : Handshake) s s' (decision : Decision) : Prop :=
  match texts h, decision with
  | None, _ => decision = Rejected "AUTHENTICATION_REQUIRED"
  | Some (token, version, deviceId), Authenticated u dv =>
      version = protocolVersion protocol ∧ verify_access token (sv_now s) = Some (u, dv) ∧ u ≠ "" ∧ lit dv = deviceId
      ∧ isSessionActive u dv (sv_now s') (sv_db s') = true ∧ (dv ≠ "" → accepted s' u dv)
  | Some (token, version, deviceId), Rejected code =>
      (version ≠ protocolVersion protocol ∧ code = "UNSUPPORTED_PROTOCOL_VERSION")
      ∨ (version = protocolVersion protocol ∧ code = "AUTHENTICATION_FAILED"
         ∧ ∀ u dv, verify_access token (sv_now s) = Some (u, dv) → u ≠ "" → lit dv = deviceId → ¬ accepted s' u dv)
  end.

Lemma accepted_device u dv s : accepted s u dv → dv ≠ "".
Proof. intros [p Hp] ->. done. Qed.
Lemma inactive_refused s u dv : AccountsWf (sv_db s) → isSessionActive u dv (sv_now s) (sv_db s) = false → ¬ accepted s u dv.
Proof.
  intros Hwf Ha Hp. pose proof (accepted_device _ _ _ Hp) as Hdv. apply active_iff_validated in Hp; [|done..]. congruence.
Qed.

Lemma let_in_answers h s : AccountsWf (sv_db s) →
  ∃ decision s', let_in others verify_access protocol h s = (Ok decision, s') ∧ answers h s s' decision.
Proof using others_keep.
  intros Hwf. unfold let_in, answers. destruct (texts h) as [[[token version] deviceId]|]; [|by eexists _, _].
  case_bool_decide as Hv; [simpl|by eexists (Rejected _), _; split; [done|left]].
  rewrite clock_run, await_run. destruct (verify_access _ _) as [[u dv]|]; [|eexists (Rejected _), _; split; [done|by right]].
  destruct (u == "") eqn:Hu; simpl.
  { eexists (Rejected _), _. split; [done|]. right. split_and!; [done..|]. apply bool_decide_eq_true in Hu. naive_solver. }
  destruct (lit dv != deviceId) eqn:Hd.
  { eexists (Rejected _), _. split; [done|]. right. split_and!; [done..|]. bool_inv. naive_solver. }
  bool_inv. rewrite query_call_run, clock_run. set (r := resumed others (resumed others s)).
  assert (AccountsWf (sv_db r)) as Hr by by apply others_keep, others_keep.
  destruct (isSessionActive u dv (sv_now r) (sv_db r)) eqn:Ha; eexists _, _; (split; [done|]); simpl.
  - split_and!; [done..|]. intros Hdv. by apply active_iff_validated.
  - right. split_and!; [done..|]. intros ?? [= <- <-] _ _. by apply inactive_refused.
Qed.

(** C23: the handshake of a socket always answers, and its answer is right on
    every branch: over the limit of its address [RATE_LIMITED]; without three
    texts [AUTHENTICATION_REQUIRED]; with another protocol
    [UNSUPPORTED_PROTOCOL_VERSION]; otherwise it lets in exactly the user and
    device of a token that verifies for the device that was named, and whose
    requests over HTTP would be accepted at that moment too. *)
Theorem handshake_answers h m s : AccountsWf (sv_db s) →
  let attempt := allowAttempt limit (address_key h) (sv_now s) m in
  ∃ decision s', handshake others verify_access limit protocol h m s = (Ok (decision, attempt.2), s') ∧
    if attempt.1 then answers h s s' decision else decision = Rejected "RATE_LIMITED" ∧ s' = s.
Proof using others_keep.
  intros Hwf. unfold handshake. rewrite clock_run. destruct (allowAttempt _ _ _ _) as [[] m']; [|by eexists _, _].
  destruct (let_in_answers h s Hwf) as (decision & s' & Hrun & Ha). exists decision, s'. by rewrite (act_bind_run _ _ _ _ _ Hrun).
Qed.
End answers.

(** ** Logged out devices *)

Lemma let_in_active {B} (others : nat → Server B → Server B) verify_access protocol h s u dv s' :
  let_in others verify_access protocol h s = (Ok (Authenticated u dv), s') →
  s' = resumed others (resumed others s) ∧ isSessionActive u dv (sv_now s') (sv_db s') = true.
Proof.
  unfold let_in. destruct (texts h) as [[[token version] deviceId]|]; [|done]. destruct (version != _); [done|].
  rewrite clock_run, await_run. destruct (verify_access _ _) as [[u' dv']|]; [|done]. destruct (_ || _); [done|].
  rewrite query_call_run, clock_run. destruct (isSessionActive _ _ _ _) eqn:Ha; intros [= <- <- <-]. done.
Qed.
Lemma handshake_active {B} (others : nat → Server B → Server B) verify_access limit protocol h m s u dv m' s' :
  handshake others verify_access limit protocol h m s = (Ok (Authenticated u dv, m'), s') →
  s' = resumed others (resumed others s) ∧ isSessionActive u dv (sv_now s') (sv_db s') = true.
Proof.
  unfold handshake. rewrite clock_run. destruct (allowAttempt _ _ _ _) as [[] m1]; [|done].
  intros (d & s1 & Hrun & [= -> _ <-])%act_bind_ok. by eapply let_in_active.
Qed.

Section lockout.
Context {Hscan : ScanOrder} `{!Credentials} {B : Type} `{!ObjectStore B}.
Variable others : nat → Server B → Server B.
Variable toLowerCase : text → text.
Variable reported : list string → string.
Variable refreshExpiration : text.
Variable sha256_hex : text → text.
Variable parse_url : text → option Url.
Variable config : BrowserConfig.
Variable verify_refresh verify_access : text → instant → option (rowid * rowid).
Variable limits : StorageLimits.
Variable id_le : rowid → rowid → bool.
Variable fuel : nat.
Abbreviation served := (serve_all others toLowerCase reported refreshExpiration sha256_hex parse_url config verify_refresh limits id_le fuel).

(** A device that was logged out opens no socket, whatever token, address or
    version it comes with and whatever requests were served since, until it logs
    in again. *)
Theorem logged_out_device_cannot_connect l u dv s s' rqs limit protocol h m u' dv' m' s'' :
  let rows := ids_of u dv (sv_db s) in
  serving toLowerCase reported refreshExpiration sha256_hex parse_url config verify_refresh limits id_le fuel rows u dv others →
  leaves l u dv → leave others toLowerCase config l s = (Ok (), s') → Forall (elsewhere rows dv) rqs →
  handshake others verify_access limit protocol h m (served rqs s') = (Ok (Authenticated u' dv', m'), s'') → (u', dv') ≠ (u, dv).
Proof.
  intros rows Ho%serving_keeps Hl Hrun Hel Hin [= -> ->].
  apply handshake_active in Hin as [-> Ha]. erewrite (sealed_not_active rows) in Ha; [done|]. apply Ho, Ho.
  apply serve_all_kept; [by apply Ho|done|]. by eapply leave_seals, Hrun; [|..|apply ids_of_kept].
Qed.
End lockout.

(** *** Examples *)

Definition demo_handshake (version device : string) : Handshake :=
  mkHandshake "10.0.0.1" (Some (JStr (lit "jwt"))) (Some (JStr (lit version))) (Some (JStr (lit device))).
Definition demo_verify (token : text) (now : instant) : option (rowid * rowid) := Some ("anna", "desk").
Definition shake (h : Handshake) (m : RateLimit.attempts) := handshake alone demo_verify DEFAULT_SOCKET_LIMIT (protocol_config (λ _, None)) h m demo_office.
Definition decided (h : Handshake) (m : RateLimit.attempts) : option Decision := match (shake h m).1 with Ok (d, _) => Some d | Err _ => None end.

Example some_handshakes :
  decided (demo_handshake "0.4" "desk") [] = Some (Authenticated "anna" "desk")
  ∧ decided (demo_handshake "0.4" "phone") [] = Some (Rejected "AUTHENTICATION_FAILED")
  ∧ decided (demo_handshake "0.3" "desk") [] = Some (Rejected "UNSUPPORTED_PROTOCOL_VERSION")
  ∧ decided (mkHandshake "" None None None) [] = Some (Rejected "AUTHENTICATION_REQUIRED")
  ∧ decided (demo_handshake "0.4" "desk") [("10.0.0.1", replicate 20 450)] = Some (Rejected "RATE_LIMITED").
Proof. split_and!; vm_compute; reflexivity. Qed.

Lemma handshake_answers_witness :
  ∃ decision s', (shake (demo_handshake "0.4" "desk") []).1 = Ok (decision, (allowAttempt DEFAULT_SOCKET_LIMIT "10.0.0.1" 500 []).2)
    ∧ answers demo_verify (protocol_config (λ _, None)) (demo_handshake "0.4" "desk") demo_office s' decision.
Proof.
  destruct (handshake_answers alone demo_verify DEFAULT_SOCKET_LIMIT (protocol_config (λ _, None)) (λ n s H, H)
    (demo_handshake "0.4" "desk") [] demo_office staff_wf) as (decision & s' & Hrun & Ha).
  exists decision, s'. split; [unfold shake; by rewrite Hrun|exact Ha].
Defined.
