(* ===== verification/Smoke.v ===== *)
(** * The cleanup after smoke tests (smoke/smoke.controller.ts)

    An open request that deletes the accounts of one test run.  It is part of
    every build; what keeps it from other accounts is its configuration, its
    token and the form of the addresses it looks for. *)

From S2P Require Import Prelude Tables JsText Json Schema Interfaces Visit Storage Presence AssetPack Server Identity Browser Account AccountSafety AdminViews.
Local Open Scope Z_scope.

(** ** The guard: [requireSmokeRuntime] *)

(** The variables of the environment it reads *)
Record SmokeConfig := mkSmokeConfig {
  sm_token : option text; sm_databaseUrl : option text; sm_smokeTest : option text; sm_allowDestructive : option text;
  sm_database : option text; sm_databaseConfirmed : option text }.

Definition one_flag (o : option text) : bool := o == Some (lit "1").
Definition SUSPICIOUS : list text := lit <$> ["production"; "prod"; "primary"; "live"].
Section guard.
(** the host name and the path of [new URL], if it parses *)
Variable parse_host : text → option (text * text).
Variable toLowerCase : text → text.
Definition suspiciousDatabase (c : SmokeConfig) : bool :=
  match parse_host (default [] (sm_databaseUrl c)) with
  | Some (hostname, pathname) =>
      existsb (λ w, includes w (toLowerCase (hostname ++ pathname))) SUSPICIOUS && negb (one_flag (sm_databaseConfirmed c))
  | None => true
  end.
Definition requireSmokeRuntime (c : SmokeConfig) (token : option text) : bool :=
  one_flag (sm_smokeTest c) && one_flag (sm_allowDestructive c) && one_flag (sm_database c)
  && negb (suspiciousDatabase c) && truthy_opt (sm_token c) && truthy_opt token && (token == sm_token c).
End guard.

(** [/^[a-z0-9-]{12,40}$/i] *)
Definition run_unit (c : Z) : bool :=
  ((48 <=? c) && (c <=? 57)) || ((65 <=? c) && (c <=? 90)) || ((97 <=? c) && (c <=? 122)) || (c =? 45).
Definition run_id_ok (runId : text) : bool := forallb run_unit runId && (12 <=? length runId)%nat && (length runId <=? 40)%nat.
Definition run_suffix (runId : text) : text := lit "-s5-" ++ runId ++ lit "@example.invalid".
Definition ends_with (suffix t : text) : bool := bool_decide (drop (length t - length suffix) t = suffix).
Definition of_run (runId : text) (u : User) : bool := ends_with (run_suffix runId) (u_email u).

(** ** The transaction *)

(** [networkCompanion.deleteMany({ where: { id: { in: ids } } })]: refused while
    a restricting row is there; otherwise the rows the foreign keys take along
    go, and references are cleared. *)
Definition delete_companions (ids : list rowid) (d : DB) : option DB :=
  let gone (k : rowid) := bool_decide (k ∈ ids) in
  let gone_ref (o : option rowid) := match o with Some k => gone k | None => false end in
  let pack_gone (k : rowid) := match db_assetPacks d !! k with Some p => gone (pk_companionId p) | None => false end in
  let forgets (o : option rowid) := match o with Some k => pack_gone k | None => false end in
  let topic_gone (k : rowid) := match db_shareableTopics d !! k with Some t => gone (st_companionId t) | None => false end in
  if exists_where (λ _ t, gone (rt_ownerCompanionId t)) (db_roomTopics d)
     || exists_where (λ _ p, gone (par_networkCompanionId p)) (db_participants d)
     || exists_where (λ _ j, gone (jr_networkCompanionId j)) (db_joinRequests d)
     || exists_where (λ _ r, gone (inv_networkCompanionId r)) (db_invitations d)
     || exists_where (λ _ s, gone (ses_networkCompanionId s)) (db_sessions d)
  then None
  else Some (
  d <| db_companions := delete_many (λ k _, gone k) (db_companions d) |>
    <| db_users := update_many (λ _ u, gone_ref (u_activeNetworkCompanionId u)) (λ u, u <| u_activeNetworkCompanionId := None |>) (db_users d) |>
    <| db_shareableTopics := delete_many (λ _ t, gone (st_companionId t)) (db_shareableTopics d) |>
    <| db_assetPacks := delete_many (λ _ p, gone (pk_companionId p)) (db_assetPacks d) |>
    <| db_assetFiles := delete_many (λ _ f, pack_gone (af_assetPackId f)) (db_assetFiles d) |>
    <| db_invitations := update_many (λ _ r, match tc_refId (inv_topic r) with Some k => topic_gone k | None => false end)
         (λ r, r <| inv_topic := (inv_topic r) <| tc_refId := None |> |>)
         (update_many (λ _ r, forgets (inv_assetPackRefId r)) (λ r, r <| inv_assetPackRefId := None |>) (db_invitations d)) |>
    <| db_sessions := update_many (λ _ s, gone_ref (ses_hostNetworkCompanionId s)) (λ s, s <| ses_hostNetworkCompanionId := None |>)
         (update_many (λ _ s, forgets (ses_assetPackRefId s)) (λ s, s <| ses_assetPackRefId := None |>) (db_sessions d)) |>
    <| db_reservations := delete_many (λ _ r, gone (res_networkCompanionId r)) (db_reservations d) |>
    <| db_participants := update_many (λ _ p, forgets (par_assetPackRefId p)) (λ p, p <| par_assetPackRefId := None |>) (db_participants d) |>
    <| db_joinRequests := update_many (λ _ j, forgets (jr_assetPackRefId j)) (λ j, j <| jr_assetPackRefId := None |>) (db_joinRequests d) |>
    <| db_settlements := delete_many (λ k _, gone k.2.1 || gone k.2.2) (db_settlements d) |>
    <| db_relationships := delete_many (λ k _, gone k.1 || gone k.2) (db_relationships d) |>).

(** [user.deleteMany], one user after the other: the rows that could keep one
    from being deleted are rows of the visits of others by then, which no
    deletion of a user takes along. *)
Definition P2003 : exc := ErrorException "P2003".
Definition delete_users (userIds : list rowid) : Tx DB unit :=
  tx_for userIds (λ k, there ← gets (λ d : DB, is_set (db_users d !! k)); match there with true => modify_or (delete_user k) P2003 | false => mret () end).

Section cleanup.
Context {Hscan : ScanOrder} {B : Type} `{!ObjectStore B}.
Variable others : nat → Server B → Server B.
Variable parse_host : text → option (text * text).
Variable toLowerCase : text → text.
Variable config : SmokeConfig.
Abbreviation Srv := (Server B).

Definition member (ids : list rowid) (k : rowid) : bool := bool_decide (k ∈ ids).
Definition smoke_tx (userIds : list rowid) (now : instant) : Tx DB unit :=
  companionIds ← gets (λ d : DB, (find_many (λ _ c, member userIds (co_ownerUserId c)) (db_companions d)).*1);
  modify (λ d, d <| db_users := update_many (λ k _, member userIds k) (λ u, u <| u_activeNetworkCompanionId := None |>) (db_users d) |>) ;;
  modify (λ d, d <| db_companions := update_many (λ k _, member companionIds k) (λ c, c <| co_activeAssetPackId := None |> <| co_updatedAt := now |>) (db_companions d) |>) ;;
  modify (λ d, delete_sessions (λ k, match db_sessions d !! k with
    | Some s => member userIds (ses_visitorOwnerUserId s) || member userIds (ses_hostUserId s) || member companionIds (ses_networkCompanionId s)
    | None => false end) d) ;;
  modify_or (λ d, let gone r := member userIds (inv_visitorOwnerUserId r) || member userIds (inv_hostUserId r) || member companionIds (inv_networkCompanionId r) in
                  if exists_where (λ _ s, match db_invitations d !! ses_invitationId s with Some r => gone r | None => false end) (db_sessions d)
                  then None else Some (d <| db_invitations := delete_many (λ _ r, gone r) (db_invitations d) |>)) P2003 ;;
  modify_or (delete_companions companionIds) P2003 ;;
  delete_users userIds.

(** The object keys of a pack: those of its files, and its manifest *)
Definition pack_keys (d : DB) (kp : rowid * AssetPack) : list text :=
  (af_objectKey ∘ snd <$> find_many (λ _ f, af_assetPackId f == kp.1) (db_assetFiles d)) ++ [manifestKey (pk_objectPrefix kp.2)].
Definition run_packs (userIds : list rowid) (d : DB) : list (rowid * AssetPack) :=
  find_many (λ _ p, match db_companions d !! pk_companionId p with Some c => member userIds (co_ownerUserId c) | None => false end) (db_assetPacks d).
Definition run_users (runId : text) (d : DB) : list rowid := (find_many (λ _ u, of_run runId u) (db_users d)).*1.

(** [cleanup], behind the validation of its body: the users, packs and objects
    that are gone *)
Definition smoke_cleanup (token : option text) (runId : text) : Act Srv (nat * nat * nat) :=
  act_require (run_id_ok runId) (BadRequestException "VALIDATION_ERROR") ;;
  act_require (requireSmokeRuntime parse_host toLowerCase config token) (NotFoundException "Not Found") ;;
  userIds ← sv_query others (run_users runId);
  match userIds with
  | [] => mret (O, O, O)
  | _ =>
      packs ← sv_query others (λ d, (λ kp, pack_keys d kp) <$> run_packs userIds d);
      let uniqueObjectKeys := dedup (concat packs) in
      (match uniqueObjectKeys with [] => mret () | _ => sv_storage_call others (deleteObjects uniqueObjectKeys) end) ;;
      now ← sv_clock;
      sv_tx others (smoke_tx userIds now) ;;
      mret (length userIds, length packs, length uniqueObjectKeys)
  end.
End cleanup.

(** ** Nobody else is touched *)

Definition forget_active (u : User) : User := u <| u_activeNetworkCompanionId := None |>.

(** The account [v] is the same in both databases: its row (but for the active
    companion), its profile, its devices, its companions and their packs. *)
Record Spared (v : rowid) (d d' : DB) : Prop := mkSpared {
  sp_user : forget_active <$> db_users d' !! v = forget_active <$> db_users d !! v;
  sp_profile : db_profiles d' !! v = db_profiles d !! v;
  sp_devices k s : ds_userId s = v → db_deviceSessions d' !! k = Some s ↔ db_deviceSessions d !! k = Some s;
  sp_companions k c : co_ownerUserId c = v → db_companions d' !! k = Some c ↔ db_companions d !! k = Some c;
  sp_packs k p : owned_companion v d (pk_companionId p) = true → db_assetPacks d' !! k = Some p ↔ db_assetPacks d !! k = Some p;
}.

Lemma owned_Some v d k : owned_companion v d k = true ↔ ∃ c, db_companions d !! k = Some c ∧ co_ownerUserId c = v.
Proof.
  unfold owned_companion. destruct (db_companions d !! k) as [c|]; [|naive_solver]. rewrite bool_decide_eq_true. naive_solver.
Qed.
Lemma spared_owned v d d' k : Spared v d d' → owned_companion v d' k = owned_companion v d k.
Proof.
  intros H. apply eq_true_iff_eq. rewrite !owned_Some. split; intros (c & Hc & Ho); exists c; split; try done; by apply (sp_companions _ _ _ H).
Qed.
#[local] Instance Spared_pre v : PreOrder (Spared v).
Proof.
  split; [by split|]. intros d1 d2 d3 H1 H2. pose proof (λ k, spared_owned _ _ _ k H1) as Hown. destruct H1, H2. split; try congruence; intros.
  - by rewrite sp_devices1, sp_devices0.
  - by rewrite sp_companions1, sp_companions0.
  - rewrite sp_packs1 by (by rewrite Hown). auto.
Qed.

(** A write to other tables *)
Lemma spared_frame v d d' :
  db_users d' = db_users d → db_profiles d' = db_profiles d → db_deviceSessions d' = db_deviceSessions d →
  db_companions d' = db_companions d → db_assetPacks d' = db_assetPacks d → Spared v d d'.
Proof. intros E1 E2 E3 E4 E5. split; by rewrite ?E1, ?E2, ?E3, ?E4, ?E5. Qed.

Lemma spared_delete_many {R} (p : rowid → R → bool) m k r : p k r = false → delete_many p m !! k = Some r ↔ m !! k = Some r.
Proof. rewrite lookup_delete_many_Some. naive_solver. Qed.
Lemma owned_other v u d k : u ≠ v → owned_companion v d k = true → owned_companion u d k = false.
Proof.
  intros Hne (c & Hc & Ho)%owned_Some. unfold owned_companion. rewrite Hc. apply bool_decide_eq_false. congruence.
Qed.

Lemma delete_user_spares u v d d' : u ≠ v → delete_user u d = Some d' → Spared v d d'.
Proof.
  intros Hne. unfold delete_user. cbv zeta. destruct (_ || _); [done|]. intros [= <-]. split; cbn.
  - by rewrite lookup_delete_ne.
  - by rewrite lookup_delete_ne.
  - intros k s Hs. apply spared_delete_many. apply bool_decide_eq_false. congruence.
  - intros k c Hc. rewrite lookup_delete_many_Some. split; [by intros []|]. intros Hk. split; [done|].
    apply (owned_other v); [done|]. apply owned_Some. eauto.
  - intros k p Hp. apply spared_delete_many. by apply (owned_other v).
Qed.
Lemma delete_companions_spares v ids d d' : (∀ k, k ∈ ids → owned_companion v d k = false) → delete_companions ids d = Some d' → Spared v d d'.
Proof.
  intros Hids. assert (∀ k, owned_companion v d k = true → bool_decide (k ∈ ids) = false) as Hno.
  { intros k Hk. apply bool_decide_eq_false. intros Hin%Hids. congruence. }
  unfold delete_companions. cbv zeta. destruct (_ || _); [done|]. intros [= <-]. split; cbn; try done.
  - rewrite lookup_update_many. destruct (db_users d !! v) as [u|]; [|done]. simpl. by destruct (match _ with Some _ => _ | None => _ end).
  - intros k c Hc. rewrite lookup_delete_many_Some. split; [by intros []|]. intros Hk. split; [done|]. apply Hno, owned_Some. eauto.
  - intros k p Hp. apply spared_delete_many. by apply Hno.
Qed.
Lemma delete_users_spares v ids d x d' : v ∉ ids → delete_users ids d = Ok (x, d') → Spared v d d'.
Proof.
  intros Hv Hrun. unfold delete_users in Hrun. revert d Hrun. induction ids as [|k ids IH]; intros d Hrun; simpl in Hrun.
  - apply tx_ret_ok in Hrun as [_ <-]. done.
  - apply not_elem_of_cons in Hv as [Hne Hv]. step_inv; (etrans; [|by eapply IH]); [|done]. by eapply delete_user_spares.
Qed.

Section confined.
Context {Hscan : ScanOrder} {B : Type} `{!ObjectStore B} `{!ObjectStoreLaws B}.
Variable others : nat → Server B → Server B.
Variable parse_host : text → option (text * text).
Variable toLowerCase : text → text.
Variable config : SmokeConfig.
Implicit Types (s : Server B).
Abbreviation cleanup := (smoke_cleanup others parse_host toLowerCase config).
Abbreviation armed := (requireSmokeRuntime parse_host toLowerCase config).

Lemma spared_users v ids (f : User → User) d : v ∉ ids → Spared v d (d <| db_users := update_many (λ k _, member ids k) f (db_users d) |>).
Proof.
  intros Hv. split; cbn; try done. rewrite lookup_update_many. destruct (db_users d !! v) as [u|]; [|done]. simpl.
  unfold member. by rewrite bool_decide_eq_false_2.
Qed.
Lemma spared_companions v ids (f : Companion → Companion) d : (∀ k, k ∈ ids → owned_companion v d k = false) → (∀ c, co_ownerUserId (f c) = co_ownerUserId c) →
  Spared v d (d <| db_companions := update_many (λ k _, member ids k) f (db_companions d) |>).
Proof.
  intros Hids Hf. split; cbn; try done. intros k c Hc. rewrite lookup_update_many_Some. unfold member. split.
  - intros (c0 & Hk & ->). case_bool_decide as Hin; [|done]. rewrite Hf in Hc. apply Hids in Hin.
    assert (owned_companion v d k = true) by (apply owned_Some; eauto). congruence.
  - intros Hk. exists c. split; [done|]. rewrite bool_decide_eq_false_2; [done|]. intros Hin%Hids.
    assert (owned_companion v d k = true) by (apply owned_Some; eauto). congruence.
Qed.
Lemma smoke_tx_spares v ids now d x d' : v ∉ ids → smoke_tx ids now d = Ok (x, d') → Spared v d d'.
Proof.
  intros Hv Hrun. unfold smoke_tx in Hrun. apply tx_bind_ok in Hrun as (cs & d0 & [Hcs Hd0]%tx_gets_ok & Hrun). subst d0.
  assert (∀ k, k ∈ cs → owned_companion v d k = false) as Hown.
  { intros k Hk. subst cs. apply list_elem_of_fmap in Hk as ([k' c] & -> & [Hc Ho]%elem_of_find_many).
    unfold owned_companion. simpl in *. rewrite Hc. apply bool_decide_eq_false. apply bool_decide_eq_true in Ho. naive_solver. }
  clear Hcs. assert (∀ d1, Spared v d d1 → ∀ k, k ∈ cs → owned_companion v d1 k = false) as Hstill.
  { intros d1 Hs k Hk. rewrite (spared_owned _ _ _ _ Hs). auto. }
  apply tx_bind_ok in Hrun as (? & d1 & Hd1%tx_modify_ok & Hrun). assert (Spared v d d1) as S1 by (subst d1; by apply spared_users).
  apply tx_bind_ok in Hrun as (? & d2 & Hd2%tx_modify_ok & Hrun).
  assert (Spared v d d2) as S2 by (subst d2; etrans; [exact S1|]; apply spared_companions; [by apply Hstill|done]).
  apply tx_bind_ok in Hrun as (? & d3 & Hd3%tx_modify_ok & Hrun).
  assert (Spared v d d3) as S3 by (subst d3; etrans; [exact S2|]; by apply spared_frame).
  apply tx_bind_ok in Hrun as (? & d4 & Hd4%tx_modify_or_ok & Hrun).
  assert (Spared v d d4) as S4.
  { etrans; [exact S3|]. cbv zeta in Hd4. destruct (exists_where _ _); [done|]. injection Hd4 as <-. by apply spared_frame. }
  apply tx_bind_ok in Hrun as (? & d5 & Hd5%tx_modify_or_ok & Hrun).
  etrans; [exact S4|]. etrans; [eapply delete_companions_spares; [by apply Hstill|exact Hd5]|]. by eapply delete_users_spares.
Qed.

(** The deletion of the objects [keys], if there are any *)
Definition deleting (keys : list text) : Act (Server B) unit :=
  match keys with [] => mret () | _ => sv_storage_call others (deleteObjects keys) end.
Lemma deleting_spares v keys s : (∀ n s, Spared v (sv_db s) (sv_db (others n s))) → Spared v (sv_db s) (sv_db (deleting keys s).2).
Proof.
  intros Ho. unfold deleting. destruct keys as [|k keys]; [done|]. unfold sv_storage_call, mbind, act_bind, on_storage. cbn.
  destruct (deleteObjects _ _) as [r b]. apply Ho.
Qed.
Lemma deleting_objects keys key s : (∀ n s, object_at (sv_bucket (others n s)) key = object_at (sv_bucket s) key) → key ∉ keys →
  object_at (sv_bucket (deleting keys s).2) key = object_at (sv_bucket s) key.
Proof.
  intros Ho Hk. unfold deleting. destruct keys as [|k keys]; [done|]. unfold sv_storage_call, mbind, act_bind, on_storage. cbn.
  pose proof (deleteObjects_spec (k :: keys) (sv_storage (resumed others s))) as Hd. unfold resumed in Hd. cbn in Hd.
  destruct (deleteObjects _ _) as [r b]. destruct Hd as (_ & Hsh & _). cbn. transitivity (object_at (sv_bucket (others (sv_awaits s) s)) key); [|apply Ho].
  destruct (Hsh key) as [E|[Hin _]]; [exact E|]. by destruct Hk.
Qed.

Lemma smoke_run token runId s : run_id_ok runId && armed token = true →
  let read := resumed others s in
  let found := resumed others read in
  let userIds := run_users runId (sv_db read) in
  let keys := dedup (concat ((λ kp, pack_keys (sv_db found) kp) <$> run_packs userIds (sv_db found))) in
  (cleanup token runId s).2 = read ∨ (cleanup token runId s).2 = (deleting keys found).2
  ∨ ∃ d, (cleanup token runId s).2 = resumed others (deleting keys found).2 ∨
      (∃ now x, smoke_tx userIds now (sv_db (resumed others (deleting keys found).2)) = Ok (x, d)
        ∧ (cleanup token runId s).2 = (resumed others (deleting keys found).2) <| sv_world := (sv_world (resumed others (deleting keys found).2)) <| w_db := d |> |>).
Proof.
  intros [Hid Harmed]%andb_true_iff. cbv zeta. unfold smoke_cleanup. rewrite act_require_run by done. rewrite act_require_run by done.
  rewrite query_call_run. destruct (run_users runId _) as [|k ids] eqn:Hu; [by left|]. right. rewrite query_call_run.
  set (found := resumed others (resumed others s)). set (keys := dedup _).
  fold (deleting keys). destruct (deleting keys found) as [[[]|e] s1] eqn:Hd.
  2:{ left. by rewrite (act_bind_throw _ _ _ _ _ Hd). }
  right. rewrite (act_bind_run _ _ _ _ _ Hd), clock_run. simpl snd.
  destruct (smoke_tx (k :: ids) (sv_now s1) (sv_db (resumed others s1))) as [[x d]|e] eqn:Htx.
  - exists d. right. exists (sv_now s1), x. split; [done|]. by rewrite (tx_call_run _ _ _ _ _ _ Htx).
  - exists (sv_db s1). left. by rewrite (tx_call_stop _ _ _ _ _ Htx).
Qed.

End confined.

(** *** Examples *)

Definition smoke_config : SmokeConfig :=
  mkSmokeConfig (Some (lit "t0ken")) (Some (lit "db")) (Some (lit "1")) (Some (lit "1")) (Some (lit "1")) None.
Definition smoke_host (url : text) : option (text * text) := if url == lit "db" then Some (lit "localhost", lit "/smoke") else None.
Definition run_name : text := lit "run-00000001".
Definition smoke_user : User := (demo_user "sam") <| u_email := lit "sam" ++ run_suffix run_name |>.
Definition smoke_db : DB := empty_db
  <| db_users := {["sam" := smoke_user; "ann" := demo_user "ann"]} |>
  <| db_deviceSessions := {["s1" := demo_device "sam" "phone"; "s2" := demo_device "ann" "desk"]} |>.
Definition smoke_server : Server bucket := demo_account_server smoke_db.
Definition smoke_after (token runId : text) := smoke_cleanup (Hscan := key_order) alone smoke_host id smoke_config (Some token) runId smoke_server.

Example smoke_runs :
  (smoke_after (lit "t0ken") run_name).1 = Ok (1, 0, 0)%nat
  ∧ dom (db_users (sv_db (smoke_after (lit "t0ken") run_name).2)) = {["ann"]}
  ∧ (smoke_after (lit "token") run_name).1 = Err (NotFoundException "Not Found")
  ∧ (smoke_after (lit "t0ken") (lit "run%1")).1 = Err (BadRequestException "VALIDATION_ERROR").
Proof. split_and!; vm_compute; reflexivity. Qed.

